(* ===== verification/_CoqProject ===== *)
-Q . S2P
Prelude.v
Logic.v
IntSet.v
Labels.v
Scheduling.v
Irob.v
Chunks.v
Control.v
SenderIrob.v
SenderSpec.v
ReceiverIrob.v
ReceiverSpec.v
Transfer.v
Lattice.v
LatticeRep.v
LatticeSpec.v
LatticeOrder.v
ReceiverLattice.v
ReceiverOrder.v
RecvSpec.v
Chooser.v
Thunks.v
Timeops.v
Threads.v
LockingMap.v
Listener.v
Scout.v
ScoutSpec.v
Shmem.v
ShmemSpec.v
Doubles.v
Sampler.v
FlipFlop.v
Instruments.v
InstrumentsSpec.v
NetStats.v
NetStatsSpec.v
MultiSocket.v
Socket.v
Options.v
Select.v
Bootstrap.v
Process.v
Ipc.v
IpcSpec.v
Api.v
Receiver.v
Delivery.v
System.v
History.v
OptionsSpec.v
ApiSpec.v
ProcessSpec.v
SelectSpec.v
PollSpec.v
Faults.v
Outgoing.v
OutInv.v
SocketInv.v
Incoming.v
Frames.v
FramesBoot.v
Typed.v
ProcessInv.v
Sender.v
SenderTruth.v
SenderErrors.v
Ends.v
BootSpec.v
Connect.v
ConnectSpec.v
BootEnds.v
