(* ===== verification/Prelude.v ===== *)
(** * libcmm: a verification library for the multi-sockets of Intentional Networking

    ** The program

    libcmm (the sources under src/) lets an application send over several
    networks at once.  A multi-socket ([CMMSocketImpl]) owns one TCP connection
    ([CSocket]) for every pair of a local and a remote interface that it uses;
    every connection has a sender and a receiver thread, and all of them work on
    the state of the multi-socket.  What the application sends is cut into
    IROBs, isolated reliably ordered bytestreams: units with labels that say
    which network suits them, and with dependencies on earlier IROBs.  The
    sender hands an IROB out in chunks, each over whichever connection is free;
    the receiver puts the chunks together, acknowledges the IROB, and delivers
    it after the IROBs it depends on.

    ** The library, bottom up

    Each file opens with what it holds; the files ending in Spec, Inv, Order, Truth, Errors and
    Ends hold theorems, the others mostly definitions.

    Foundations:
    - [Prelude]: machine integers as [Z] with their wrap-around, the outcome of
      a C++ call ([outcome]: it returns, throws or traps), operations on a
      shared state ([M]), ordered sets and lists.
    - [Logic]: a weakest-precondition calculus for [M] with an invariant and a
      ghost value that grows ([wp], [keeps]), exceptions ([raises]).
    - [Timeops], [Doubles] (timeops.h/.cpp): times; binary64 numbers on the
      Standard Library's SpecFloat, with the conversions C++ leaves undefined as a parameter
      ([Unspecified]).

    The data an IROB goes through:
    - [IntSet] (intset.h/.cpp): the sets of past IROB identifiers as two bit
      vectors; the least long, whose negation overflows, traps.  [BitsetOps]/[BitsetLaws] state what is used of
      boost::dynamic_bitset; [IdSet]/[IdSetLaws] is the interface the lattice is
      written against, which [IntSet] implements.
    - [Labels] (libcmm_net_restriction, net_interface): labels, interfaces, and
      which pair of interfaces a label word admits.
    - [Scheduling] (irob_scheduling): requests to the sender threads, the
      ordered sets they wait in, the six indexes.
    - [Irob] (pending_irob): the fields and methods both kinds of IROB share.
      [IrobOps]/[IrobLaws] is the interface between an object and the lattice.
    - [Chunks]: runs of chunks without gaps, byte counts; shared lemmas.
    - [Control] (cmm_socket_control): the wire format of control messages.
    - [SenderIrob], [SenderSpec] (pending_sender_irob): the sending IROB;
      [get_ready_bytes] hands out one growing cutting of the application's bytes.
    - [ReceiverIrob], [ReceiverSpec] (pending_receiver_irob): the receiving IROB;
      arrival in any order with repetitions, completion, reading.
    - [Transfer]: the two composed, from the sender's bytes to the reader's.
    - [Lattice] (PendingIROBLattice of pending_irob): the deque of IROBs, its
      placeholders, the dependencies the sender infers, erasing, dropping.
      [LatticeRep] relates the deque to a finite map; [LatticeSpec] is the
      abstract lattice ([alattice]) and the refinement ([run_refines]);
      [LatticeOrder] is the order of inferred dependencies at the sender.
    - [ReceiverLattice] (PendingReceiverIROBLattice), [ReceiverOrder],
      [RecvSpec]: the receiver's lattice, the ready set and [recv]; the
      invariant [rl_inv] and what [recv] gives the application.

    Networks:
    - [Chooser] (the network_chooser and redundancy_strategy files): which pair of
      interfaces suits a send.  The multi-socket is written against the interface
      [InstrumentsChooser] of the chooser on the external instruments library;
      the estimates of net_stats are a parameter ([NetEstimates]).
    - [Instruments], [InstrumentsSpec] (intnw_instruments_network_chooser,
      intnw_instruments_net_stats_wrapper): that chooser, its mutex, its
      asynchronous decisions and re-evaluations; the library's answers depend on all calls so far
      ([InstrumentsLibrary]).  An instance of [InstrumentsChooser].
    - [FlipFlop], [NetStats], [NetStatsSpec] (flipflop_estimate, net_stats):
      queuing delays, the measurement of acknowledgements, spot values and the filter,
      the tables the connections share.
    - [Connect], [ConnectSpec] (csocket.cpp): one TCP connection: making it on
      either side, closing it, noticing trouble.
    - [Thunks] (thunks.cpp): handlers the application registers for the time a
      network becomes available.

    One multi-socket:
    - [MultiSocket] (csocket, csocket_mapping): the state of the multi-socket,
      the choice, creation and removal of connections.
    - [Socket] (cmm_socket_impl): the operations on IROBs, sending and receiving
      calls, acknowledgements, resend and data-check requests, shutdown,
      interface changes.
    - [Options], [OptionsSpec]: socket options, addresses, shutdown of the pipes.
    - [Select], [SelectSpec], [PollSpec]: mc_select and mc_poll over a table of
      multi-sockets and plain descriptors.
    - [Bootstrap], [BootSpec], [BootEnds] (cmm_conn_bootstrapper,
      cmm_internal_listener): the exchange that sets a multi-socket up, its
      failures and retries; two ends run against each other.
    - [Listener] (cmm_internal_listener): making the listening socket, the search
      for a port.
    - [Receiver], [Faults] (csocket_receiver): the handlers of the receiver
      thread, and what malformed messages do.
    - [Sender], [SenderTruth], [SenderErrors] (csocket_sender): the loop of the
      sender thread, every message it writes with its failure path; that what it writes is true
      of the application's data, and that failed work is requeued.
    - [Outgoing], [OutInv], [SocketInv], [Incoming]: the invariants of the sending
      and the receiving side that those theorems rest on.
    - [Delivery], [System], [History]: what the handlers and reads do with
      everything a peer sends; [Ends] puts the sender of one end and the receiver of the
      other together.
    - [Frames], [FramesBoot], [Typed]: a property that the primitive updates of a
      multi-socket keep ([Framed]) is kept by every operation; well-typedness is one.

    The process:
    - [Process], [ProcessSpec] (cmm_socket.cpp, cmm_socket_impl.cpp,
      cmm_socket_passthrough.cpp): the static tables, the interface [CMMSocket]
      with its two implementations, opening, listening, accepting, closing.  The
      statics are put into the state of a multi-socket while one of its
      operations runs ([load], [save]).
    - [Threads], [LockingMap] (cmm_thread, pthread_util.h): the start of a thread and a
      map with a lock for every entry, as interleaved steps.
    - [Shmem], [ShmemSpec] (libcmm_shmem.cpp, common.cpp): what the processes share
      of their connections, with the descriptors they pass to each other.
    - [Scout], [ScoutSpec] (scout/libcmm_scout.cpp): the daemon that knows the networks: its
      subscribers, its listener thread, its announcements.  [Sampler] (cdf_sampler.cpp) is
      the distribution its up and down times are drawn from.
    - [Ipc], [IpcSpec] (libcmm_ipc.cpp, libcmm_external_ipc.cpp): a process's side of
      the talk with the scout; the two put together.
    - [Api], [ApiSpec] (libcmm.cpp, libcmm_irob.cpp): the functions of the library.
    - [ProcessInv]: [Frames] lifted to the process; its runs.

    ** State and steps

    A C++ object is a [Record] with the fields of its class; a pointer between
    objects that share state (an IROB in the lattice, a csocket of the
    multi-socket, a thunk) is a key of the map that owns the objects, so that
    aliases see each other's changes.  A method is a function that returns the
    new object inside [outcome], or an action of the state monad [M] on the
    multi-socket; an exception keeps the state changed so far.  ASSERT and
    undefined behaviour are [Trap].  Functions that hold the scheduling lock
    throughout are one step, and one that releases it to wait ends there with a
    result that says so; what other threads do in between is a list of arbitrary state
    changes, of which a theorem asks only that they keep its invariant.  What system
    calls answer is an argument, or the parameter [OS] that sees all calls so far.  Integers have the widths of the
    LP64 data model (long and size_t of 64 bits); the Makefile also builds for
    32 bits, which is not covered.

    ** What is proved

    - Two ends ([Ends.two_ends]): what the other end's application reads are pieces of what
      one end's application sends through a sender thread, with failures in between and the messages in any
      order over any connections.  At the sender, every message written is
      true of the application's data ([sender_truth]), while calls, receiver threads, resumed
      operations and whole rounds of the other sender threads change the multi-socket whenever the lock is
      released; two sender threads that alternate inside one round of each are
      not covered.  At the receiver
      ([History]), for any history of such messages, in any order, repeated,
      interleaved with ordinary reads and steps of the rest of the program, and with no IROB ended
      empty (which would fail an assertion of recv): nothing
      traps, the reads return every IROB's bytes in order and after its
      dependencies ([delivery]); when everything has arrived, nothing is withheld
      ([nothing_lost]); what completes an IROB acknowledges it.
    - One IROB ([Transfer], [SenderSpec], [ReceiverSpec]): the chunks handed out
      are one cutting of the bytes, whichever connections ask; any arrival of
      them gives the bytes back; resend requests name exactly what is missing
      and make exactly that sendable again.
    - The lattice ([LatticeSpec], [LatticeOrder], [ReceiverOrder]): the deque
      refines a finite map, for identifiers in a window of less than 2^31;
      dropping terminates and removes exactly the dependents; the inferred
      dependencies order every anonymous IROB; the receiver releases nothing
      early and registers every wait.
    - The process ([ProcessInv], [ProcessSpec], [ApiSpec]): every multi-socket of
      the table stays well typed under any calls, messages and threads; an IROB's calls
      reach the multi-socket that began it; opening one leaks nothing when it
      fails; on descriptors that are not multi-sockets the library is
      transparent.
    - Select and poll give, for multi-sockets and plain descriptors together, what
      the system reports of the real descriptors behind them.
    - Setting up: both ends of a bootstrap whose connections succeed come to agree, neither waiting for
      what the other does not send first ([bootstrap_completes]); one whose peer does not
      answer is reported once and then looks as if it went on ([failed_bootstrap]); a
      connection attempt fails with the error of its first failing step ([phys_connect_spec]), and
      the two ends of a connection agree ([connection_handshake]).
    - Statistics: queuing delays equal their definition as a sum of transfer
      times; an IROB that an acknowledgement showed to be striped is never measured; the filter
      follows its published rules.
    - Errors: malformed messages, failed writes and connections, options refused,
      descriptors exhausted, stale errno; what each leaves behind, with the places
      where the code falls short.
    - The scout and the processes: every subscriber has been told exactly the
      interfaces there are, with all their properties ([subscribers_in_step]), and a process that handles
      what it was told has their addresses in its static set ([process_in_step]), both as long as
      no change falls in the middle of a subscription ([update_missed]); what requests are
      answered; which rounds end the scout in an assertion; what the sampler draws.
    - Threads: in every interleaving Run begins after start has let go of the
      thread, and no wake-up is lost ([start_handshake]); a held entry of a
      [LockingMap] changes under nobody else's steps ([locking_map_safe]).
    - Shared memory: as long as announcements do not interleave the table of connections holds what
      the processes announced, and each duplicate descriptor once ([shared_descriptors], [announced_connections]); what
      interleaved announcements do.
    - The chooser on the instruments library gives the network the library last
      decided on, where it asks it ([instruments_choice]); where its mutex is released wrongly.
    - Thunks, and the other comparison functions and choices: what they answer.

    ** Bounds and fuel

    Identifiers are taken from a window [lo, hi) with hi <= 2^63 and
    hi - lo < 2^31 ([in_window]), the range in which the int index of the deque
    does not wrap; on the wire hi <= 2^32.  Byte counts of an IROB are below
    2^31 there.  [recv_loop] runs on [len] units, one per byte asked for, and
    every round gives at least one byte; [pop_ready] on the number of queued
    requests; [drop_loop] on one unit per live IROB and registered dependent; the
    bootstrapper on the list of its connection attempts and of what its socket
    receives.  Each is shown to be enough, or the result says that the list was too short.

    ** What is not modelled

    The external libraries (instruments, power estimates, configuration) beyond what
    the calls to them ask; the layout of the shared segment (boost::interprocess); of the scout the
    command line, sleeping and the opening of sockets, of the
    Java side everything but what the scout does with it; the
    estimates of transfer costs for applications; reading from a TCP stream (the
    receiver's handlers take the message that was read); the conversion of the
    statistics to text; locks and condition variables other than those of [Threads] and
    [LockingMap]; debugging and timing output; tests, tools and bindings.  The
    sender and the receiver are modelled without their calls to the statistics,
    which [NetStats] treats on their own.  Two interleaved steps under one lock
    are not modelled, nor are two sender threads that take turns within a round; data
    races in the code are outside the model. *)

From Stdlib Require Import ZArith Lia.
From stdpp Require Export base tactics option list sorting fin_maps gmap sets fin_sets.

#[global] Open Scope Z_scope.

(** * Machine integers (LP64 data model)

    [size_t], [u_long] are 64-bit unsigned, [long], [ssize_t] 64-bit signed,
    [int] 32-bit signed.  A value is its mathematical integer; a conversion
    is written out with [wrap_u]/[wrap_s]. *)

Definition wrap_u (w x : Z) : Z := x mod 2 ^ w.
Definition wrap_s (w x : Z) : Z := (x + 2 ^ (w - 1)) mod 2 ^ w - 2 ^ (w - 1).

Abbreviation to_int := (wrap_s 32).
Abbreviation to_long := (wrap_s 64).
Abbreviation to_u32 := (wrap_u 32).
Abbreviation to_size_t := (wrap_u 64).

Lemma wrap_u_small w x : 0 <= x < 2 ^ w -> wrap_u w x = x.
Proof. apply Z.mod_small. Qed.

Lemma wrap_u_range w x : 0 <= w -> 0 <= wrap_u w x < 2 ^ w.
Proof. intros. apply Z.mod_pos_bound. by apply Z.pow_pos_nonneg. Qed.

Lemma wrap_s_small w x :
  0 < w -> - 2 ^ (w - 1) <= x < 2 ^ (w - 1) -> wrap_s w x = x.
Proof.
  intros Hw Hx. unfold wrap_s.
  assert (2 ^ w = 2 * 2 ^ (w - 1)).
  { rewrite <- Z.pow_succ_r by lia. f_equal; lia. }
  rewrite Z.mod_small; lia.
Qed.

Lemma to_int_small x : - 2 ^ 31 <= x < 2 ^ 31 -> to_int x = x.
Proof. intros. by apply wrap_s_small. Qed.

Lemma to_long_small x : - 2 ^ 63 <= x < 2 ^ 63 -> to_long x = x.
Proof. intros. by apply wrap_s_small. Qed.

Lemma to_size_t_small x : 0 <= x < 2 ^ 64 -> to_size_t x = x.
Proof. apply wrap_u_small. Qed.

(** Bit tests, as the C++ conditions [if (x & mask)] read them. *)
Definition has_bits (x mask : Z) : bool := negb (Z.land x mask =? 0).

(** * Outcomes

    A C++ function returns, throws, or traps: [ASSERT] ends in
    [__builtin_trap()], and an out-of-range access of a container is
    undefined behaviour.  State changed before a throw stays changed. *)

Inductive exn :=
| ControlException   (* CMMControlException *)
| FatalError         (* CMMFatalError *)
| CMMException       (* CMMException *)
| ThreadFinish       (* CMMThreadFinish *)
| RuntimeError       (* std::runtime_error *)
| BadArrayLength     (* std::bad_array_new_length *)
| IntError (rc : Z). (* an int *)

Inductive trap :=
| AssertFailed
| UndefinedBehaviour.

Inductive outcome (A : Type) :=
| Ret (a : A)
| Throw (e : exn)
| Trap (t : trap).
Arguments Ret {A} a.
Arguments Throw {A} e.
Arguments Trap {A} t.

#[export] Instance exn_eq_dec : EqDecision exn.
Proof. solve_decision. Defined.
#[export] Instance trap_eq_dec : EqDecision trap.
Proof. solve_decision. Defined.

(** Operations on one object: no state of its own is threaded. *)
#[export] Instance outcome_ret : MRet outcome := fun A a => Ret a.
#[export] Instance outcome_bind : MBind outcome := fun A B f m =>
  match m with
  | Ret a => f a
  | Throw e => Throw e
  | Trap t => Trap t
  end.

(** [ASSERT(b)] and a checked access. *)
Definition assert_ (b : bool) : outcome unit := if b then Ret tt else Trap AssertFailed.
Definition access {A} (o : option A) : outcome A :=
  match o with Some a => Ret a | None => Trap UndefinedBehaviour end.

(** Operations on a shared state [S]. *)
Definition M (S A : Type) : Type := S -> outcome A * S.

#[export] Instance M_ret {S} : MRet (M S) := fun A a s => (Ret a, s).
#[export] Instance M_bind {S} : MBind (M S) := fun A B f m s =>
  match m s with
  | (Ret a, s') => f a s'
  | (Throw e, s') => (Throw e, s')
  | (Trap t, s') => (Trap t, s')
  end.

Section monad_ops.
Context {S : Type}.
Definition get : M S S := fun s => (Ret s, s).
Definition gets {A} (f : S -> A) : M S A := fun s => (Ret (f s), s).
Definition modify (f : S -> S) : M S unit := fun s => (Ret tt, f s).
Definition throw {A} (e : exn) : M S A := fun s => (Throw e, s).
Definition lift {A} (o : outcome A) : M S A := fun s => (o, s).
Definition when (b : bool) (m : M S unit) : M S unit := if b then m else mret tt.
End monad_ops.

(** Run [m] on a component of the state. *)
Definition zoom {S T A} (pr : S -> T) (up : T -> S -> S) (m : M T A) : M S A :=
  fun s => let '(o, t) := m (pr s) in (o, up t s).

Lemma bind_ret_inv {A B} (m : outcome A) (f : A -> outcome B) b :
  (m ≫= f) = Ret b -> exists a, m = Ret a /\ f a = Ret b.
Proof. destruct m; cbn; intros; try discriminate. eauto. Qed.

Lemma assert_inv b : assert_ b = Ret tt -> b = true.
Proof. by destruct b. Qed.

Lemma M_bind_ret {S A B} (m : M S A) (f : A -> M S B) s a s' :
  m s = (Ret a, s') -> (m ≫= f) s = f a s'.
Proof. intros E. unfold mbind, M_bind. by rewrite E. Qed.

Lemma M_bind_inv {S A B} (m : M S A) (f : A -> M S B) s b s'' :
  (m ≫= f) s = (Ret b, s'') ->
  exists a s', m s = (Ret a, s') /\ f a s' = (Ret b, s'').
Proof.
  unfold mbind, M_bind. destruct (m s) as [[a|e|t] s'] eqn:E; intros; try discriminate.
  eauto.
Qed.

(** * Ordered sets

    A [std::set<irob_id_t>] is a [gset Z]; iterating it visits the elements in
    ascending order. *)
Definition ascending (X : gset Z) : list Z := merge_sort Z.le (elements X).

Lemma ascending_perm X : ascending X ≡ₚ elements X.
Proof. apply merge_sort_Permutation. Qed.

Lemma elem_of_ascending x X : x ∈ ascending X <-> x ∈ X.
Proof. by rewrite ascending_perm, elem_of_elements. Qed.

Lemma NoDup_ascending X : NoDup (ascending X).
Proof. rewrite ascending_perm. apply NoDup_elements. Qed.

Lemma length_ascending X : length (ascending X) = size X.
Proof. by rewrite ascending_perm. Qed.

Lemma ascending_sorted X : StronglySorted Z.le (ascending X).
Proof. apply (StronglySorted_merge_sort _). Qed.

Lemma ascending_empty : ascending ∅ = [].
Proof. reflexivity. Qed.

(** * Time values *)
Record timeval := Timeval { tv_sec : Z; tv_usec : Z }.

#[export] Instance timeval_eq_dec : EqDecision timeval.
Proof. solve_decision. Defined.

(** [timercmp(a, b, <)] of <sys/time.h>. *)
Definition timer_lt (a b : timeval) : bool :=
  if tv_sec a =? tv_sec b then tv_usec a <? tv_usec b else tv_sec a <? tv_sec b.

(** * Lists *)
Definition sumZ (l : list Z) : Z := foldr Z.add 0 l.

Lemma sumZ_app l1 l2 : sumZ (l1 ++ l2) = sumZ l1 + sumZ l2.
Proof. induction l1; simpl; [done|]. rewrite IHl1. lia. Qed.

Lemma sumZ_perm l1 l2 : l1 ≡ₚ l2 -> sumZ l1 = sumZ l2.
Proof. induction 1; simpl; lia. Qed.

Lemma sumZ_nonneg l : Forall (fun x => 0 <= x) l -> 0 <= sumZ l.
Proof. induction 1; simpl; lia. Qed.

(** Resize a [std::deque]/[std::vector] with a fill value. *)
Definition resize_to {A} (n : nat) (x : A) (l : list A) : list A :=
  take n l ++ replicate (n - length l) x.

Lemma length_resize_to {A} n (x : A) l : length (resize_to n x l) = n.
Proof.
  unfold resize_to. rewrite length_app, length_take, length_replicate. lia.
Qed.

Lemma resize_to_grow {A} n (x : A) l :
  (length l <= n)%nat -> resize_to n x l = l ++ replicate (n - length l) x.
Proof. intros. unfold resize_to. by rewrite take_ge. Qed.

(** * Automation *)
Create HintDb cmm.

(** Split every monadic step of a hypothesis that says the whole returns. *)
Ltac minv :=
  repeat match goal with
    | H : (_ ≫= _) = Ret _ |- _ =>
        let a := fresh "v" in let H1 := fresh "Hm" in let H2 := fresh "Hk" in
        apply bind_ret_inv in H as (a & H1 & H2)
    | H : assert_ _ = Ret _ |- _ =>
        let a := fresh "u" in apply assert_inv in H
    | H : Ret _ = Ret _ |- _ => injection H as H
    | H : Throw _ = Ret _ |- _ => discriminate H
    | H : Trap _ = Ret _ |- _ => discriminate H
    end.

Lemma bool_decide_if {A} (P Q : Prop) `{!Decision P, !Decision Q} (x y : A) :
  (P <-> Q) -> (if bool_decide P then x else y) = (if bool_decide Q then x else y).
Proof. intros H. by rewrite (bool_decide_ext P Q H). Qed.
