(* ===== verification/Logic.v ===== *)
(** A program logic for operations on a shared state.

    An invariant [I g s] relates the state to a ghost value [g], here what is
    known of the past, that only grows along a preorder [gle].  [wp m Q g s]: [m]
    started where the invariant holds keeps it however it ends, be it by
    returning, by an exception or by a trap, and when it returns, what it returns
    satisfies [Q].  Facts about [g] that survive its growth survive the steps of
    other threads.  [raises] says in what state an operation throws, [returns] that it
    returns. *)

From S2P Require Import Prelude.

(** Ghost values and how they grow. *)
Class Ghost (G : Type) := { gle : relation G; gle_preorder :: PreOrder gle }.

Section logic.
Context {G S : Type} `{!Ghost G} (I : G -> S -> Prop).
Implicit Types (g : G) (s : S).

Definition wp {A} (m : M S A) (Q : G -> A -> S -> Prop) g s : Prop :=
  I g s -> exists g', gle g g' /\ I g' (snd (m s)) /\ forall a, fst (m s) = Ret a -> Q g' a (snd (m s)).

(** [m] keeps the invariant. *)
Definition keeps {A} (m : M S A) : Prop := forall g s, wp m (fun _ _ _ => True) g s.

Lemma wp_mono {A} (m : M S A) Q R g s :
  wp m Q g s -> (forall g' a s', gle g g' -> I g' s' -> Q g' a s' -> R g' a s') -> wp m R g s.
Proof. intros H HQ HI. destruct (H HI) as (g' & Hle & HI' & K). exists g'. eauto. Qed.

Lemma wp_bind {A B} (m : M S A) (f : A -> M S B) Q g s :
  wp m (fun g' a s' => wp (f a) Q g' s') g s -> wp (m ≫= f) Q g s.
Proof.
  intros H HI. destruct (H HI) as (g' & Hle & HI' & K). unfold mbind, M_bind.
  destruct (m s) as [[a|e|t] s']; simpl in *; [|by exists g'..].
  destruct (K a eq_refl HI') as (g'' & Hle' & HI'' & K'). exists g''. split_and!; [by etrans|done..].
Qed.

Lemma wp_step {A B} (m : M S A) (f : A -> M S B) Q R g s :
  wp m Q g s -> (forall g' a s', gle g g' -> I g' s' -> Q g' a s' -> wp (f a) R g' s') ->
  wp (m ≫= f) R g s.
Proof. intros Hm Hf. apply wp_bind. by eapply wp_mono. Qed.

(** A step whose result does not matter beyond the growth of the ghost value. *)
Lemma wp_keeps {A B} (m : M S A) (f : A -> M S B) R g s :
  keeps m -> (forall g' a s', gle g g' -> I g' s' -> wp (f a) R g' s') -> wp (m ≫= f) R g s.
Proof. intros Hm Hf. eapply wp_step; [apply Hm|]. intros; by apply Hf. Qed.

Lemma wp_ret {A} (a : A) (Q : G -> A -> S -> Prop) g s : Q g a s -> wp (mret a) Q g s.
Proof. intros H HI. exists g. split_and!; [done|done|]. by intros ? [= <-]. Qed.
Lemma wp_throw {A} e (Q : G -> A -> S -> Prop) g s : wp (throw e) Q g s.
Proof. intros HI. by exists g. Qed.
Lemma wp_lift {A} (o : outcome A) (Q : G -> A -> S -> Prop) g s :
  (forall a, o = Ret a -> Q g a s) -> wp (lift o) Q g s.
Proof. intros H HI. exists g. by split_and!. Qed.
Lemma wp_get (Q : G -> S -> S -> Prop) g s : Q g s s -> wp get Q g s.
Proof. intros H HI. exists g. split_and!; [done|done|]. by intros ? [= <-]. Qed.
Lemma wp_gets {A} (f : S -> A) (Q : G -> A -> S -> Prop) g s : Q g (f s) s -> wp (gets f) Q g s.
Proof. intros H HI. exists g. split_and!; [done|done|]. by intros ? [= <-]. Qed.
Lemma wp_modify f (Q : G -> unit -> S -> Prop) g s :
  (I g s -> exists g', gle g g' /\ I g' (f s) /\ Q g' tt (f s)) -> wp (modify f) Q g s.
Proof. intros H HI. destruct (H HI) as (g' & ? & ? & ?). exists g'. by split_and!; [..|intros []]. Qed.

(** The invariant may be used to prove a step. *)
Lemma wp_inv {A} (m : M S A) Q g s : (I g s -> wp m Q g s) -> wp m Q g s.
Proof. intros H HI. by apply H. Qed.

Lemma keeps_wp {A} (m : M S A) Q g s :
  keeps m -> (forall g' a s', gle g g' -> I g' s' -> Q g' a s') -> wp m Q g s.
Proof. intros Hm HQ. eapply wp_mono; [apply Hm|]. eauto. Qed.

Lemma keeps_ret {A} (a : A) : keeps (mret a).
Proof. intros g s. by apply wp_ret. Qed.
Lemma keeps_throw {A} e : keeps (A:=A) (throw e).
Proof. intros g s. apply wp_throw. Qed.
Lemma keeps_lift {A} (o : outcome A) : keeps (lift o).
Proof. intros g s. by apply wp_lift. Qed.
Lemma keeps_get : keeps get.
Proof. intros g s. by apply wp_get. Qed.
Lemma keeps_gets {A} (f : S -> A) : keeps (gets f).
Proof. intros g s. by apply wp_gets. Qed.
Lemma keeps_bind {A B} (m : M S A) (f : A -> M S B) :
  keeps m -> (forall a, keeps (f a)) -> keeps (m ≫= f).
Proof. intros Hm Hf g s. eapply wp_keeps; [done|]. intros. apply Hf. Qed.
Lemma keeps_when b (m : M S unit) : keeps m -> keeps (when b m).
Proof. intros. destruct b; [done|apply keeps_ret]. Qed.
Lemma keeps_modify f :
  (forall g s, I g s -> exists g', gle g g' /\ I g' (f s)) -> keeps (modify f).
Proof. intros H g s. apply wp_modify. intros HI. destruct (H g s HI) as (g' & ? & ?). eauto. Qed.
End logic.

(** Lift a step on a component to the whole state. *)
Lemma wp_zoom {S T A} `{!Ghost G} (I : G -> T -> Prop) (J : G -> S -> Prop)
    (pr : S -> T) (up : T -> S -> S) (m : M T A) Q g s :
  (forall g s, J g s -> I g (pr s)) ->
  (forall g g' s t, gle g g' -> J g s -> I g' t -> J g' (up t s)) ->
  wp I m Q g (pr s) ->
  wp J (zoom pr up m) (fun g' a s' => exists t, s' = up t s /\ Q g' a t) g s.
Proof.
  intros Hpr Hup H HJ. destruct (H (Hpr _ _ HJ)) as (g' & Hle & HI & K). unfold zoom.
  destruct (m (pr s)) as [o t]. simpl in *. exists g'. split_and!; eauto.
Qed.

Ltac keeps_step :=
  match goal with
  | |- keeps _ (_ ≫= _) => apply keeps_bind
  | |- keeps _ (mret _) => apply keeps_ret
  | |- keeps _ (throw _) => apply keeps_throw
  | |- keeps _ (lift _) => apply keeps_lift
  | |- keeps _ get => apply keeps_get
  | |- keeps _ (gets _) => apply keeps_gets
  | |- keeps _ (when _ _) => apply keeps_when
  | |- keeps _ (let '_ := ?x in _) => destruct x
  | |- keeps _ (if ?b then _ else _) => destruct b
  | |- keeps _ (match ?x with _ => _ end) => destruct x
  | |- forall _, _ => intros ?
  end.

(** ** Exceptions

    [raises e P m]: when [m] ends in the exception [e], the state it leaves
    satisfies [P]; with [P] false, [m] does not throw [e]. *)
Section raises.
Context {S : Type} (e : exn).

Definition raises {A} (P : S -> Prop) (m : M S A) : Prop :=
  forall s s', m s = (Throw e, s') -> P s'.
Abbreviation never := (raises (fun _ => False)).
Definition throws_not {A} (o : outcome A) : Prop := o <> Throw e.

Lemma raises_mono {A} (P Q : S -> Prop) (m : M S A) :
  raises P m -> (forall s, P s -> Q s) -> raises Q m.
Proof. unfold raises. eauto. Qed.
Lemma never_raises {A} (P : S -> Prop) (m : M S A) : never m -> raises P m.
Proof. intros H. by eapply raises_mono. Qed.

Lemma raises_bind {A B} (P : S -> Prop) (m : M S A) (f : A -> M S B) :
  raises P m -> (forall a, raises P (f a)) -> raises P (m ≫= f).
Proof.
  intros Hm Hf s s'. unfold mbind, M_bind. destruct (m s) as [[a|x|t] s1] eqn:E; [apply Hf| |done].
  intros [= -> ->]. by eapply Hm.
Qed.

(** The first step always succeeds and establishes [P]; the rest keeps it. *)
Lemma raises_after {A B} (P : S -> Prop) (m : M S A) (f : A -> M S B) :
  (forall s, exists a, fst (m s) = Ret a /\ P (snd (m s))) ->
  (forall a s s', P s -> f a s = (Throw e, s') -> P s') -> raises P (m ≫= f).
Proof.
  intros Hm Hf s s'. unfold mbind, M_bind. destruct (Hm s) as (a & E & H).
  destruct (m s) as [o s1]. simpl in *. subst o. by apply Hf.
Qed.

Lemma raises_ret {A} P (a : A) : raises P (mret a).
Proof. by intros s s' [=]. Qed.
Lemma raises_get P : raises P get.
Proof. by intros s s' [=]. Qed.
Lemma raises_gets {A} P (f : S -> A) : raises P (gets f).
Proof. by intros s s' [=]. Qed.
Lemma raises_modify P f : raises P (modify f).
Proof. by intros s s' [=]. Qed.
Lemma raises_lift {A} P (o : outcome A) : throws_not o -> raises P (lift o).
Proof. intros H s s' [= ? _]. by destruct H. Qed.
Lemma raises_other {A} P x : x <> e -> raises P (throw (A:=A) x).
Proof. by intros H s s' [= ? _]. Qed.
Lemma raises_when P b (m : M S unit) : raises P m -> raises P (when b m).
Proof. destruct b; [done|]. intros _. apply raises_ret. Qed.

Lemma throws_not_ret {A} (a : A) : throws_not (Ret a).
Proof. done. Qed.
Lemma throws_not_trap {A} t : throws_not (A:=A) (Trap t).
Proof. done. Qed.
Lemma throws_not_bind {A B} (o : outcome A) (f : A -> outcome B) :
  throws_not o -> (forall a, throws_not (f a)) -> throws_not (o ≫= f).
Proof. intros Ho Hf. destruct o as [a|x|t]; [apply Hf|intros [= ->]; by apply Ho|done]. Qed.
Lemma throws_not_access {A} (o : option A) : throws_not (access o).
Proof. by destruct o. Qed.
Lemma throws_not_assert b : throws_not (assert_ b).
Proof. by destruct b. Qed.
End raises.

Lemma raises_zoom {S T A} e (pr : S -> T) (up : T -> S -> S) (P : S -> Prop) (Q : T -> Prop) (m : M T A) :
  raises e Q m -> (forall s t, Q t -> P (up t s)) -> raises e P (zoom pr up m).
Proof.
  intros Hm HP s s'. unfold zoom. destruct (m (pr s)) as [o t] eqn:E. intros [= -> <-]. eapply HP, Hm, E.
Qed.
Lemma never_zoom {S T A} e (pr : S -> T) (up : T -> S -> S) P (m : M T A) :
  raises e (fun _ => False) m -> raises e P (zoom pr up m).
Proof. intros H. by eapply raises_zoom. Qed.

Create HintDb raises.
#[export] Hint Resolve throws_not_ret throws_not_trap throws_not_access throws_not_assert : raises.

Ltac throws_step :=
  match goal with
  | |- throws_not _ (_ ≫= _) => apply throws_not_bind
  | |- throws_not _ (let '_ := ?x in _) => destruct x
  | |- throws_not _ (if ?b then _ else _) => destruct b
  | |- throws_not _ (match ?x with _ => _ end) => destruct x
  | |- forall _, _ => intros ?
  end.
Ltac raises_step :=
  match goal with
  | |- raises _ _ (_ ≫= _) => apply raises_bind
  | |- raises _ _ (mret _) => apply raises_ret
  | |- raises _ _ (lift _) => apply raises_lift
  | |- raises _ _ get => apply raises_get
  | |- raises _ _ (gets _) => apply raises_gets
  | |- raises _ _ (modify _) => apply raises_modify
  | |- raises _ _ (when _ _) => apply raises_when
  | |- raises _ _ (throw _) => apply raises_other; discriminate
  | |- raises _ _ (let '_ := ?x in _) => destruct x
  | |- raises _ _ (if ?b then _ else _) => destruct b
  | |- raises _ _ (match ?x with _ => _ end) => destruct x
  | |- forall _, _ => intros ?
  end.
Ltac raises_go := repeat first [solve [auto 2 with raises] | throws_step | raises_step].

(** ** Total correctness

    [returns m s Q]: [m] started in [s] returns, and [Q] holds then. *)
Section returns.
Context {S : Type}.

Definition returns {A} (m : M S A) (s : S) (Q : A -> S -> Prop) : Prop :=
  exists a s', m s = (Ret a, s') /\ Q a s'.

Lemma returns_mono {A} (m : M S A) s (P Q : A -> S -> Prop) :
  returns m s P -> (forall a s', P a s' -> Q a s') -> returns m s Q.
Proof. intros (a & s' & E & H) HQ. exists a, s'. eauto. Qed.
Lemma returns_bind {A B} (m : M S A) (f : A -> M S B) s Q :
  returns m s (fun a s' => returns (f a) s' Q) -> returns (m ≫= f) s Q.
Proof. intros (a & s' & E & H). unfold returns. by rewrite (M_bind_ret _ _ _ _ _ E). Qed.
Lemma returns_step {A B} (m : M S A) (f : A -> M S B) s P Q :
  returns m s P -> (forall a s', P a s' -> returns (f a) s' Q) -> returns (m ≫= f) s Q.
Proof. intros H Hf. apply returns_bind. by eapply returns_mono. Qed.
Lemma returns_ret {A} (a : A) s (Q : A -> S -> Prop) : Q a s -> returns (mret a) s Q.
Proof. intros. by exists a, s. Qed.
Lemma returns_get s (Q : S -> S -> Prop) : Q s s -> returns get s Q.
Proof. intros. by exists s, s. Qed.
Lemma returns_gets {A} (f : S -> A) s (Q : A -> S -> Prop) : Q (f s) s -> returns (gets f) s Q.
Proof. intros. by exists (f s), s. Qed.
Lemma returns_modify f s (Q : unit -> S -> Prop) : Q tt (f s) -> returns (modify f) s Q.
Proof. intros. by exists tt, (f s). Qed.
Lemma returns_lift {A} (o : outcome A) a s (Q : A -> S -> Prop) : o = Ret a -> Q a s -> returns (lift o) s Q.
Proof. intros -> H. by exists a, s. Qed.
Lemma returns_when (b : bool) m s (Q : unit -> S -> Prop) :
  (b = true -> returns m s Q) -> (b = false -> Q tt s) -> returns (when b m) s Q.
Proof. intros H1 H2. destruct b; [by apply H1|]. by apply returns_ret, H2. Qed.
End returns.

Lemma returns_zoom {S T A} (pr : S -> T) (up : T -> S -> S) (m : M T A) s (Q : A -> S -> Prop) :
  returns m (pr s) (fun a t => Q a (up t s)) -> returns (zoom pr up m) s Q.
Proof. intros (a & t & E & H). exists a, (up t s). unfold zoom. by rewrite E. Qed.
