(* ===== verification/IntSet.v ===== *)
(** The bit-vector set of integers of intset.h/intset.cpp.

    [boost::dynamic_bitset] is third-party code: it is the parameter [B] with
    the operations [BitsetOps] and the documented behaviour [BitsetLaws].
    [IntSet] is the class; [IdSet] is the interface its clients (the IROB
    lattice) are verified against, and the end of the file discharges it. *)

From S2P Require Import Prelude.

(** The part of [boost::dynamic_bitset<>] the class uses. *)
Class BitsetOps (B : Type) := {
  bs_nil : B;                        (* default constructor *)
  bs_size : B -> Z;                  (* size() *)
  bs_get : B -> Z -> bool;           (* operator[] read *)
  bs_set : B -> Z -> bool -> B;      (* operator[] write *)
  bs_resize : B -> Z -> B;           (* resize(n), new bits false *)
  bs_push_back : B -> bool -> B;     (* push_back(b) *)
  bs_clear : B -> B                  (* clear() *)
}.

Class BitsetLaws (B : Type) `{!BitsetOps B} : Prop := {
  bs_size_nil : bs_size bs_nil = 0;
  bs_size_nonneg b : 0 <= bs_size b;
  bs_size_set b i v : 0 <= i < bs_size b -> bs_size (bs_set b i v) = bs_size b;
  bs_get_set b i v j : 0 <= i < bs_size b -> 0 <= j < bs_size b ->
    bs_get (bs_set b i v) j = if j =? i then v else bs_get b j;
  bs_size_resize b n : 0 <= n -> bs_size (bs_resize b n) = n;
  bs_get_resize b n i : 0 <= i < n ->
    bs_get (bs_resize b n) i = if i <? bs_size b then bs_get b i else false;
  bs_size_push b v : bs_size (bs_push_back b v) = bs_size b + 1;
  bs_get_push b v i : 0 <= i <= bs_size b ->
    bs_get (bs_push_back b v) i = if i =? bs_size b then v else bs_get b i;
  bs_size_clear b : bs_size (bs_clear b) = 0
}.

(** What a client of an integer set relies on. *)
Class IdSet (T : Type) := {
  ids_empty : T;
  ids_insert : T -> Z -> T;
  ids_contains : T -> Z -> bool;
  ids_clear : T -> T
}.

(** The least long has no negation, and none of this is promised of it. *)
Definition LONG_MIN : Z := - 2 ^ 63.
Class IdSetLaws (T : Type) `{!IdSet T} : Prop := {
  ids_contains_empty n : ids_contains ids_empty n = false;
  ids_contains_insert s m n : m <> LONG_MIN ->
    ids_contains (ids_insert s m) n = (n =? m) || ids_contains s n;
  ids_contains_insert_mono s m n :
    ids_contains s n = true -> ids_contains (ids_insert s m) n = true;
  ids_contains_clear s n : ids_contains (ids_clear s) n = false
}.

Lemma ids_contains_insert_eq `{IdSetLaws T} s n :
  n <> LONG_MIN -> ids_contains (ids_insert s n) n = true.
Proof. intros. by rewrite ids_contains_insert, Z.eqb_refl. Qed.

Module IntSet.
Section ops.
Context {B : Type} `{!BitsetOps B}.

Record t := Mk { pos_vec : B; neg_vec : B; size_ : Z }.

Definition empty_set : t := Mk bs_nil bs_nil 0.

Definition insert_vec (vec : B) (num : Z) : outcome B :=
  assert_ (0 <=? num) ≫= fun _ =>
  if bs_size vec <=? num then
    let vec' := bs_push_back (bs_resize vec num) true in
    assert_ (bs_size vec' =? num + 1) ≫= fun _ => Ret vec'
  else Ret (bs_set vec num true).

Definition contains_vec (vec : B) (num : Z) : outcome bool :=
  assert_ (0 <=? num) ≫= fun _ =>
  if bs_size vec <=? num then Ret false else Ret (bs_get vec num).

(** [-num] of a long: undefined for the least one. *)
Definition negate (num : Z) : outcome Z :=
  if num =? LONG_MIN then Trap UndefinedBehaviour else Ret (- num).

Definition contains (s : t) (num : Z) : outcome bool :=
  if 0 <=? num then contains_vec (pos_vec s) num
  else negate num ≫= contains_vec (neg_vec s).

Definition insert (s : t) (num : Z) : outcome t :=
  contains s num ≫= fun (c : bool) =>
  if negb c then
    let n := to_size_t (size_ s + 1) in
    if 0 <=? num then
      insert_vec (pos_vec s) num ≫= fun (v : B) => Ret (Mk v (neg_vec s) n)
    else
      negate num ≫= fun m => insert_vec (neg_vec s) m ≫= fun (v : B) => Ret (Mk (pos_vec s) v n)
  else Ret s.

Definition erase (s : t) (num : Z) : outcome t :=
  contains s num ≫= fun (c : bool) =>
  if c then
    let n := to_size_t (size_ s - 1) in
    if 0 <=? num then Ret (Mk (bs_set (pos_vec s) num false) (neg_vec s) n)
    else negate num ≫= fun m => Ret (Mk (pos_vec s) (bs_set (neg_vec s) m false) n)
  else Ret s.

Definition size (s : t) : Z := size_ s.
Definition is_empty (s : t) : bool := size s =? 0.
Definition clear (s : t) : t := Mk (bs_clear (pos_vec s)) (bs_clear (neg_vec s)) 0.
End ops.
Arguments t B : clear implicits.

Section proofs.
Context {B : Type} `{BitsetLaws B}.

(** The mathematical set an [IntSet] stands for. *)
Definition vec_mem (v : B) (i : Z) : bool :=
  if bs_size v <=? i then false else bs_get v i.
Definition mem (s : t B) (n : Z) : bool :=
  if 0 <=? n then vec_mem (pos_vec s) n else vec_mem (neg_vec s) (- n).

(** [X] is what [s] holds. *)
Definition models (s : t B) (X : gset Z) : Prop :=
  (forall n, mem s n = bool_decide (n ∈ X)) /\ size_ s = Z.of_nat (base.size X).

Lemma contains_vec_mem v i : 0 <= i -> contains_vec v i = Ret (vec_mem v i).
Proof.
  intros Hi. unfold contains_vec, vec_mem. rewrite (proj2 (Z.leb_le 0 i) Hi). simpl.
  by destruct (_ <=? _).
Qed.

Lemma negate_ok n : n <> LONG_MIN -> negate n = Ret (- n).
Proof. intros Hn. unfold negate. by destruct (Z.eqb_spec n LONG_MIN). Qed.
Lemma negate_min : negate LONG_MIN = Trap UndefinedBehaviour.
Proof. reflexivity. Qed.

Lemma contains_mem s n : n <> LONG_MIN -> contains s n = Ret (mem s n).
Proof.
  intros Hmin. unfold contains, mem. destruct (Z.leb_spec 0 n); [apply contains_vec_mem; lia|].
  rewrite (negate_ok n Hmin). simpl. apply contains_vec_mem. lia.
Qed.
Lemma contains_min s : contains s LONG_MIN = Trap UndefinedBehaviour.
Proof. reflexivity. Qed.

Lemma insert_vec_mem v i : 0 <= i ->
  exists v', insert_vec v i = Ret v' /\
    forall j, 0 <= j -> vec_mem v' j = (j =? i) || vec_mem v j.
Proof.
  intros Hi. unfold insert_vec. rewrite (proj2 (Z.leb_le 0 i) Hi). simpl.
  pose proof (bs_size_nonneg v).
  destruct (Z.leb_spec (bs_size v) i) as [Hge|Hlt].
  - rewrite bs_size_push, bs_size_resize, Z.eqb_refl by lia. simpl.
    eexists; split; [done|]. intros j Hj. unfold vec_mem.
    rewrite bs_size_push, bs_size_resize by lia.
    destruct (Z.leb_spec (i + 1) j).
    + destruct (Z.eqb_spec j i); [lia|]. simpl.
      by rewrite (proj2 (Z.leb_le (bs_size v) j)) by lia.
    + rewrite bs_get_push, bs_size_resize by (rewrite ?bs_size_resize; lia).
      destruct (Z.eqb_spec j i); [done|]. simpl.
      rewrite bs_get_resize by lia.
      destruct (Z.leb_spec (bs_size v) j), (Z.ltb_spec j (bs_size v)); done || lia.
  - eexists; split; [done|]. intros j Hj. unfold vec_mem.
    rewrite bs_size_set by lia.
    destruct (Z.leb_spec (bs_size v) j).
    + destruct (Z.eqb_spec j i); [lia|]. done.
    + rewrite bs_get_set by lia. by destruct (j =? i).
Qed.

Lemma set_false_mem v i : vec_mem v i = true -> 0 <= i ->
  forall j, 0 <= j -> vec_mem (bs_set v i false) j = negb (j =? i) && vec_mem v j.
Proof.
  unfold vec_mem. intros Hm Hi j Hj.
  destruct (Z.leb_spec (bs_size v) i); [done|].
  rewrite bs_size_set by lia.
  destruct (Z.leb_spec (bs_size v) j); [by rewrite andb_false_r|].
  rewrite bs_get_set by lia. by destruct (j =? i).
Qed.

Lemma insert_mem s n : n <> LONG_MIN ->
  exists s', insert s n = Ret s' /\
    (forall m, mem s' m = (m =? n) || mem s m) /\
    size_ s' = if mem s n then size_ s else to_size_t (size_ s + 1).
Proof.
  intros Hmin. unfold insert. rewrite (contains_mem s n Hmin). simpl.
  destruct (mem s n) eqn:Hmem; simpl.
  { exists s. split_and!; [done| |done]. intros m.
    destruct (Z.eqb_spec m n) as [->|]; [by rewrite Hmem|done]. }
  destruct (Z.leb_spec 0 n) as [Hn|Hn].
  - destruct (insert_vec_mem (pos_vec s) n Hn) as (v' & -> & Hv). simpl.
    eexists; split_and!; [done| |done]. intros m. unfold mem; simpl.
    destruct (Z.leb_spec 0 m); [by apply Hv|].
    by destruct (Z.eqb_spec m n); [lia|].
  - rewrite (negate_ok n Hmin). simpl.
    destruct (insert_vec_mem (neg_vec s) (- n) ltac:(lia)) as (v' & -> & Hv). simpl.
    eexists; split_and!; [done| |done]. intros m. unfold mem; simpl.
    destruct (Z.leb_spec 0 m).
    + by destruct (Z.eqb_spec m n); [lia|].
    + rewrite Hv by lia. destruct (Z.eqb_spec (- m) (- n)), (Z.eqb_spec m n); done || lia.
Qed.

(** [erase] also never traps, whatever the set holds. *)
Lemma erase_mem s n : n <> LONG_MIN ->
  exists s', erase s n = Ret s' /\
    (forall m, mem s' m = negb (m =? n) && mem s m) /\
    size_ s' = if mem s n then to_size_t (size_ s - 1) else size_ s.
Proof.
  intros Hmin. unfold erase. rewrite (contains_mem s n Hmin). simpl.
  destruct (mem s n) eqn:Hmem.
  2:{ exists s. split_and!; [done| |done]. intros m.
      destruct (Z.eqb_spec m n) as [->|]; [by rewrite Hmem|done]. }
  destruct (Z.leb_spec 0 n) as [Hn|Hn]; rewrite ?(negate_ok n Hmin); simpl; eexists; (split_and!; [done| |done]); intros m;
    unfold mem in *; simpl.
  - rewrite (proj2 (Z.leb_le 0 n) Hn) in Hmem.
    destruct (Z.leb_spec 0 m); [by apply set_false_mem|].
    by destruct (Z.eqb_spec m n); [lia|].
  - destruct (Z.leb_spec 0 n); [lia|].
    destruct (Z.leb_spec 0 m).
    + by destruct (Z.eqb_spec m n); [lia|].
    + rewrite set_false_mem by (done || lia).
      destruct (Z.eqb_spec (- m) (- n)), (Z.eqb_spec m n); done || lia.
Qed.

Lemma models_empty : models empty_set ∅.
Proof.
  split; [|done]. intros n. unfold mem, vec_mem; simpl. rewrite bs_size_nil.
  rewrite bool_decide_eq_false_2 by set_solver.
  destruct (Z.leb_spec 0 n); [done|].
  by rewrite (proj2 (Z.leb_le 0 (- n))) by lia.
Qed.

Lemma mem_elem s X n : models s X -> mem s n = true <-> n ∈ X.
Proof. intros [Hm _]. rewrite Hm. apply bool_decide_eq_true. Qed.

(** The refinement: on a set of fewer than [2 ^ 64 - 1] elements every
    operation but those on the least long is the operation of the mathematical
    set, and no [ASSERT] of the class can fail. *)
Lemma models_insert s X n :
  n <> LONG_MIN -> models s X -> Z.of_nat (base.size X) + 1 < 2 ^ 64 ->
  exists s', insert s n = Ret s' /\ models s' ({[n]} ∪ X).
Proof.
  intros Hmin HX Hsz. destruct (insert_mem s n Hmin) as (s' & Hs & Hm & Hz).
  exists s'. split; [done|]. split.
  - intros m. rewrite Hm, (proj1 HX).
    destruct (Z.eqb_spec m n) as [->|]; simpl.
    + symmetry. apply bool_decide_eq_true_2. set_solver.
    + apply bool_decide_ext; set_solver.
  - rewrite Hz. destruct (mem s n) eqn:E.
    + apply (mem_elem s X) in E; [|done].
      rewrite (subseteq_union_1_L {[n]} X) by set_solver. apply HX.
    + assert (n ∉ X) by (rewrite <- (mem_elem s X n HX); congruence).
      rewrite size_union, size_singleton by set_solver.
      rewrite (proj2 HX), wrap_u_small; lia.
Qed.

Lemma models_erase s X n :
  n <> LONG_MIN -> models s X -> Z.of_nat (base.size X) < 2 ^ 64 ->
  exists s', erase s n = Ret s' /\ models s' (X ∖ {[n]}).
Proof.
  intros Hmin HX Hsz. destruct (erase_mem s n Hmin) as (s' & Hs & Hm & Hz).
  exists s'. split; [done|]. split.
  - intros m. rewrite Hm, (proj1 HX).
    destruct (Z.eqb_spec m n) as [->|]; simpl.
    + symmetry. apply bool_decide_eq_false_2. set_solver.
    + apply bool_decide_ext; set_solver.
  - rewrite Hz. destruct (mem s n) eqn:E.
    + apply (mem_elem s X) in E; [|done].
      assert (base.size X = S (base.size (X ∖ {[n]}))) as Hsx.
      { rewrite (union_difference_L {[n]} X) at 1 by set_solver.
        rewrite size_union by set_solver. by rewrite size_singleton. }
      rewrite (proj2 HX), wrap_u_small; lia.
    + assert (n ∉ X) by (rewrite <- (mem_elem s X n HX); congruence).
      rewrite (difference_disjoint_L X {[n]}) by set_solver. apply HX.
Qed.
End proofs.

(** ** Sequences of calls *)

Inductive call :=
| CallInsert (n : Z)
| CallErase (n : Z)
| CallContains (n : Z)
| CallSize
| CallEmpty
| CallClear.

(** What a call returns to its caller. *)
Inductive answer :=
| Unit
| Bool (b : bool)
| Size (n : Z).

Definition run_call {B} `{!BitsetOps B} (c : call) (s : t B) : outcome (answer * t B) :=
  match c with
  | CallInsert n => insert s n ≫= fun s' => Ret (Unit, s')
  | CallErase n => erase s n ≫= fun s' => Ret (Unit, s')
  | CallContains n => contains s n ≫= fun b => Ret (Bool b, s)
  | CallSize => Ret (Size (size s), s)
  | CallEmpty => Ret (Bool (is_empty s), s)
  | CallClear => Ret (Unit, clear s)
  end.

(** The same on the mathematical set. *)
Definition set_call (c : call) (X : gset Z) : answer * gset Z :=
  match c with
  | CallInsert n => (Unit, {[n]} ∪ X)
  | CallErase n => (Unit, X ∖ {[n]})
  | CallContains n => (Bool (bool_decide (n ∈ X)), X)
  | CallSize => (Size (Z.of_nat (base.size X)), X)
  | CallEmpty => (Bool (bool_decide (X = ∅)), X)
  | CallClear => (Unit, ∅)
  end.

(** A call's argument is a long; the least one cannot be negated. *)
Definition call_arg (c : call) : Z :=
  match c with CallInsert n | CallErase n | CallContains n => n | _ => 0 end.
Definition negates_min (c : call) : bool := call_arg c =? LONG_MIN.

Fixpoint run_calls {B} `{!BitsetOps B} (cs : list call) (s : t B) : outcome (list answer) :=
  match cs with
  | [] => Ret []
  | c :: cs => run_call c s ≫= fun '(a, s') => run_calls cs s' ≫= fun l => Ret (a :: l)
  end.

Fixpoint set_calls (cs : list call) (X : gset Z) : list answer :=
  match cs with
  | [] => []
  | c :: cs => let '(a, X') := set_call c X in a :: set_calls cs X'
  end.

Section calls.
Context {B : Type} `{BitsetLaws B}.
Implicit Types (s : t B) (X : gset Z).

Lemma models_clear s : models (clear s) ∅.
Proof.
  split; [|done]. intros n. unfold mem, vec_mem, clear; simpl. rewrite !bs_size_clear.
  rewrite bool_decide_eq_false_2 by set_solver.
  destruct (Z.leb_spec 0 n); [done|]. by rewrite (proj2 (Z.leb_le 0 (- n))) by lia.
Qed.

Lemma models_is_empty s X : models s X -> is_empty s = bool_decide (X = ∅).
Proof.
  intros [_ E]. unfold is_empty, size. rewrite E. symmetry.
  destruct (Z.eqb_spec (Z.of_nat (base.size X)) 0) as [E0|E0].
  - apply bool_decide_eq_true_2. apply leibniz_equiv, size_empty_iff. lia.
  - apply bool_decide_eq_false_2. intros ->. by rewrite size_empty in E0.
Qed.

Lemma run_call_min c s : negates_min c = true -> run_call c s = Trap UndefinedBehaviour.
Proof. destruct c; unfold negates_min; simpl; try done; by intros ->%Z.eqb_eq. Qed.

Lemma run_call_models c s X : negates_min c = false -> models s X -> Z.of_nat (base.size X) + 1 < 2 ^ 64 ->
  exists s', run_call c s = Ret ((set_call c X).1, s') /\ models s' (set_call c X).2.
Proof.
  intros Hmin HX Hsz. apply Z.eqb_neq in Hmin. destruct c as [n|n|n| | |]; simpl in *.
  - destruct (models_insert s X n Hmin HX Hsz) as (s' & -> & H'). by exists s'.
  - destruct (models_erase s X n Hmin HX ltac:(lia)) as (s' & -> & H'). by exists s'.
  - exists s. rewrite contains_mem, (proj1 HX) by done. done.
  - exists s. unfold size. by rewrite (proj2 HX).
  - exists s. by rewrite (models_is_empty s X).
  - exists (clear s). split; [done|]. apply models_clear.
Qed.

Lemma set_call_size c X : (base.size (set_call c X).2 <= S (base.size X))%nat.
Proof.
  destruct c as [n|n|n| | |]; cbn [set_call snd]; try lia.
  - rewrite size_union_alt, size_singleton.
    assert (base.size (X ∖ {[n]}) <= base.size X)%nat by (apply subseteq_size; set_solver). lia.
  - assert (base.size (X ∖ {[n]}) <= base.size X)%nat by (apply subseteq_size; set_solver). lia.
  - rewrite size_empty. lia.
Qed.

Lemma run_calls_models cs s X : models s X -> Z.of_nat (base.size X + length cs) < 2 ^ 64 ->
  run_calls cs s = if existsb negates_min cs then Trap UndefinedBehaviour else Ret (set_calls cs X).
Proof.
  revert s X. induction cs as [|c cs IH]; intros s X HX Hsz; simpl in *; [done|].
  destruct (negates_min c) eqn:Hmin; [by rewrite run_call_min|]. simpl.
  destruct (run_call_models c s X Hmin HX ltac:(lia)) as (s' & -> & H'). simpl.
  pose proof (set_call_size c X). destruct (set_call c X) as [a X']. simpl in *.
  rewrite (IH s' X') by (done || lia). by destruct (existsb negates_min cs).
Qed.

(** C31: Any sequence of calls on an IntSet returns what the same calls return on the
    mathematical set of integers, and no assertion fails, as long as fewer than
    2^64 calls are made and none has the least long as its argument; such a call is undefined
    behaviour, by the overflow of its negation. *)
Theorem calls_equal_set cs :
  Forall (fun c => LONG_MIN <= call_arg c < 2 ^ 63) cs -> Z.of_nat (length cs) < 2 ^ 64 ->
  run_calls cs (empty_set (B:=B)) =
  if existsb negates_min cs then Trap UndefinedBehaviour else Ret (set_calls cs ∅).
Proof. intros _ Hn. apply run_calls_models; [apply models_empty|]. by rewrite size_empty. Qed.
End calls.

(** The interface is implemented by the class. *)
#[export] Instance IntSet_IdSet {B} `{!BitsetOps B} : IdSet (t B) := {
  ids_empty := empty_set;
  ids_insert s n := match insert s n with Ret s' => s' | _ => s end;
  ids_contains s n := match contains s n with Ret b => b | _ => false end;
  ids_clear := clear
}.

#[export] Instance IntSet_IdSetLaws {B} `{BitsetLaws B} : IdSetLaws (t B).
Proof.
  split; simpl.
  - intros n. destruct (Z.eqb_spec n LONG_MIN) as [->|Hn]; [by rewrite contains_min|].
    rewrite contains_mem, (proj1 models_empty) by done.
    apply bool_decide_eq_false_2. set_solver.
  - intros s m n Hm. destruct (insert_mem s m Hm) as (s' & -> & Hmem & _).
    destruct (Z.eqb_spec n LONG_MIN) as [->|Hn].
    + rewrite !contains_min. by destruct (Z.eqb_spec LONG_MIN m).
    + by rewrite !contains_mem, Hmem by done.
  - intros s m n. destruct (Z.eqb_spec m LONG_MIN) as [->|Hm].
    { unfold insert. by rewrite contains_min. }
    destruct (insert_mem s m Hm) as (s' & -> & Hmem & _).
    destruct (Z.eqb_spec n LONG_MIN) as [->|Hn]; [by rewrite !contains_min|].
    rewrite !contains_mem, Hmem by done. intros ->. by rewrite orb_true_r.
  - intros s n. destruct (Z.eqb_spec n LONG_MIN) as [->|Hn]; [by rewrite contains_min|].
    rewrite contains_mem by done. unfold mem, vec_mem, clear; simpl.
    rewrite !bs_size_clear. destruct (Z.leb_spec 0 n); [done|].
    by rewrite (proj2 (Z.leb_le 0 (- n))) by lia.
Qed.
End IntSet.
#[export] Existing Instances IntSet.IntSet_IdSet IntSet.IntSet_IdSetLaws.

(** A concrete bitset for evaluation: one boolean per bit. *)
Module ListBits.
#[export] Instance list_BitsetOps : BitsetOps (list bool) := {
  bs_nil := [];
  bs_size b := Z.of_nat (length b);
  bs_get b i := default false (b !! Z.to_nat i);
  bs_set b i v := <[Z.to_nat i := v]> b;
  bs_resize b n := resize_to (Z.to_nat n) false b;
  bs_push_back b v := b ++ [v];
  bs_clear _ := []
}.

#[export] Instance list_BitsetLaws : BitsetLaws (list bool).
Proof.
  split; simpl; intros; rewrite ?length_insert, ?length_resize_to, ?length_app;
    simpl; try lia; try done.
  - destruct (Z.eqb_spec j i) as [->|].
    + rewrite list_lookup_insert_eq by lia. done.
    + rewrite list_lookup_insert_ne by lia. done.
  - unfold resize_to. destruct (Z.ltb_spec i (Z.of_nat (length b))).
    + rewrite lookup_app_l by (rewrite length_take; lia).
      by rewrite lookup_take_lt by lia.
    + rewrite lookup_app_r by (rewrite length_take; lia).
      destruct (replicate _ _ !! _) eqn:E; [|done].
      by apply lookup_replicate in E as [-> _].
  - destruct (Z.eqb_spec i (Z.of_nat (length b))) as [->|].
    + by rewrite Nat2Z.id, list_lookup_middle.
    + by rewrite lookup_app_l by lia.
Qed.
End ListBits.

Import ListBits.
Lemma calls_equal_set_witness :
  let cs := [IntSet.CallInsert 3; IntSet.CallInsert (-2); IntSet.CallErase 3; IntSet.CallContains 3;
             IntSet.CallContains (-2); IntSet.CallSize; IntSet.CallClear; IntSet.CallEmpty] in
  IntSet.run_calls (B := list bool) cs IntSet.empty_set = Ret (IntSet.set_calls cs ∅) /\
  IntSet.run_calls (B := list bool) (cs ++ [IntSet.CallInsert LONG_MIN]) IntSet.empty_set = Trap UndefinedBehaviour.
Proof.
  split; (etransitivity; [apply (IntSet.calls_equal_set (B := list bool))|reflexivity]);
    repeat constructor; try (vm_compute; discriminate); vm_compute; reflexivity.
Defined.
