(* ===== verification/Labels.v ===== *)
(** Send labels, network-restriction labels and network interfaces:
    libcmm.h, libcmm_net_restriction.h/.cpp, net_interface.h/.cpp.

    A label word is a [u_long]; a [std::set<net_interface>] orders and compares
    interfaces by IP address only, so it is a map from the address to the
    interface whose [insert] keeps the element already there. *)

From S2P Require Import Prelude.

Definition CMM_LABEL_ONDEMAND : Z := 0x4.
Definition CMM_LABEL_BACKGROUND : Z := 0x8.
Definition CMM_LABEL_SMALL : Z := 0x10.
Definition CMM_LABEL_LARGE : Z := 0x20.

Definition NUM_NET_TYPES : Z := 2.
Definition NET_TYPE_WIFI : Z := 0x1.
Definition NET_TYPE_THREEG : Z := 0x2.
Definition NET_RESTRICTION_LABEL_SHIFT : Z := 16.
Definition CMM_LABEL_WIFI_ONLY : Z := Z.shiftl NET_TYPE_WIFI NET_RESTRICTION_LABEL_SHIFT.
Definition CMM_LABEL_THREEG_ONLY : Z := Z.shiftl NET_TYPE_THREEG NET_RESTRICTION_LABEL_SHIFT.
Definition CMM_LABEL_FALLBACK_ALLOWED : Z := Z.shiftl 0x10 NET_RESTRICTION_LABEL_SHIFT.
Definition ALL_NETWORK_RESTRICTIONS : Z :=
  Z.lor CMM_LABEL_WIFI_ONLY CMM_LABEL_THREEG_ONLY.

(** ** Restriction labels *)

Definition fallback_allowed (labels : Z) : bool :=
  has_bits labels CMM_LABEL_FALLBACK_ALLOWED.

Definition has_network_restriction (labels : Z) : bool :=
  let restriction_labels := to_int (Z.land labels ALL_NETWORK_RESTRICTIONS) in
  negb (restriction_labels =? 0) && negb (restriction_labels =? ALL_NETWORK_RESTRICTIONS).

(** The overload on a network type. *)
Definition type_fits_restriction (type labels : Z) : bool :=
  if fallback_allowed labels then true
  else
    let restriction_labels := to_int (Z.land labels ALL_NETWORK_RESTRICTIONS) in
    let restriction_mask := to_int (Z.shiftl type NET_RESTRICTION_LABEL_SHIFT) in
    (restriction_labels =? 0) || has_bits restriction_mask restriction_labels.

(** ** Interfaces *)

Record net_interface := NetInterface {
  ip_addr : Z;           (* s_addr, network byte order *)
  bandwidth_down : Z;
  bandwidth_up : Z;
  RTT : Z;
  net_type : Z           (* int type; 0 when unknown *)
}.

#[export] Instance net_interface_eq_dec : EqDecision net_interface.
Proof. solve_decision. Defined.

(** [NetInterfaceSet]: keyed by address; [insert] keeps an element already there. *)
Definition iface_insert (i : net_interface) (s : gmap Z net_interface) : gmap Z net_interface :=
  match s !! ip_addr i with Some _ => s | None => <[ip_addr i := i]> s end.
Definition iface_erase (i : net_interface) (s : gmap Z net_interface) : gmap Z net_interface :=
  delete (ip_addr i) s.

Definition iface_bandwidth (local_iface remote_iface : net_interface) : Z :=
  Z.min (bandwidth_up local_iface) (bandwidth_down remote_iface).

Definition matches_type (type : Z) (local_iface remote_iface : net_interface) : bool :=
  ((net_type local_iface =? type) && (net_type remote_iface =? type)) ||
  ((net_type local_iface =? type) && (net_type remote_iface =? 0)) ||
  ((net_type local_iface =? 0) && (net_type remote_iface =? type)) ||
  ((net_type local_iface =? 0) && (net_type remote_iface =? 0)).

Definition get_network_type (local_iface remote_iface : net_interface) : Z :=
  if matches_type NET_TYPE_WIFI local_iface remote_iface then NET_TYPE_WIFI
  else if matches_type NET_TYPE_THREEG local_iface remote_iface then NET_TYPE_THREEG
  else 0.

(** The loop over the types [NET_TYPE_WIFI .. NET_TYPE_WIFI + NUM_NET_TYPES - 1]. *)
Fixpoint some_type_fits (n : nat) (type labels : Z) (l r : net_interface) : bool :=
  match n with
  | O => false
  | S n =>
      if negb (type_fits_restriction type labels) then
        some_type_fits n (type + 1) labels l r
      else if negb (matches_type type l r) then
        some_type_fits n (type + 1) labels l r
      else true
  end.

Definition network_fits_restriction (labels : Z) (local_iface remote_iface : net_interface)
    : bool :=
  if negb (has_network_restriction labels) || fallback_allowed labels then true
  else some_type_fits (Z.to_nat NUM_NET_TYPES) NET_TYPE_WIFI labels local_iface remote_iface.

(** ** What the restriction labels mean *)

Lemma land_pow2 x k : 0 <= k ->
  Z.land x (2 ^ k) = if Z.testbit x k then 2 ^ k else 0.
Proof.
  intros Hk. apply Z.bits_inj'. intros i Hi. rewrite Z.land_spec, Z.pow2_bits_eqb by done.
  destruct (Z.testbit x k) eqn:Hx.
  - rewrite Z.pow2_bits_eqb by done.
    destruct (Z.eqb_spec k i) as [->|]; [by rewrite Hx|apply andb_false_r].
  - rewrite Z.bits_0. destruct (Z.eqb_spec k i) as [->|]; [by rewrite Hx|apply andb_false_r].
Qed.

Lemma has_bits_testbit x k : 0 <= k -> has_bits x (2 ^ k) = Z.testbit x k.
Proof.
  intros Hk. unfold has_bits. rewrite land_pow2 by done.
  destruct (Z.testbit x k); simpl; [|done].
  rewrite (proj2 (Z.eqb_neq _ _)); [done|]. apply Z.pow_nonzero; lia.
Qed.

(** The three restriction bits of a label word. *)
Definition wifi_only (labels : Z) : bool := Z.testbit labels 16.
Definition threeg_only (labels : Z) : bool := Z.testbit labels 17.

Lemma fallback_testbit labels : fallback_allowed labels = Z.testbit labels 20.
Proof. unfold fallback_allowed. by apply (has_bits_testbit labels 20). Qed.

Lemma restriction_bits labels :
  Z.land labels ALL_NETWORK_RESTRICTIONS =
    (if wifi_only labels then 0x10000 else 0) + (if threeg_only labels then 0x20000 else 0).
Proof.
  unfold ALL_NETWORK_RESTRICTIONS, wifi_only, threeg_only.
  rewrite Z.land_lor_distr_r.
  change CMM_LABEL_WIFI_ONLY with (2 ^ 16). change CMM_LABEL_THREEG_ONLY with (2 ^ 17).
  rewrite !land_pow2 by lia.
  by destruct (Z.testbit labels 16), (Z.testbit labels 17).
Qed.

Lemma has_restriction_bits labels :
  has_network_restriction labels = xorb (wifi_only labels) (threeg_only labels).
Proof.
  unfold has_network_restriction. rewrite restriction_bits.
  by destruct (wifi_only labels), (threeg_only labels).
Qed.

Lemma type_fits_wifi labels :
  type_fits_restriction NET_TYPE_WIFI labels =
    fallback_allowed labels || wifi_only labels || negb (threeg_only labels).
Proof.
  unfold type_fits_restriction. rewrite restriction_bits.
  by destruct (fallback_allowed labels), (wifi_only labels), (threeg_only labels).
Qed.

Lemma type_fits_threeg labels :
  type_fits_restriction NET_TYPE_THREEG labels =
    fallback_allowed labels || threeg_only labels || negb (wifi_only labels).
Proof.
  unfold type_fits_restriction. rewrite restriction_bits.
  by destruct (fallback_allowed labels), (wifi_only labels), (threeg_only labels).
Qed.

(** What a pair of interfaces must satisfy to carry labels [labels]. *)
Definition fits_spec (labels : Z) (l r : net_interface) : Prop :=
  wifi_only labels = threeg_only labels \/ fallback_allowed labels = true \/
  (wifi_only labels = true /\ matches_type NET_TYPE_WIFI l r = true) \/
  (threeg_only labels = true /\ matches_type NET_TYPE_THREEG l r = true).

(** A pair of interfaces fits a label word exactly when the word names
    no network or both, allows fallback, or names a network that both ends
    have or do not know their own. *)
Theorem network_fits_restriction_spec labels l r :
  network_fits_restriction labels l r = true <-> fits_spec labels l r.
Proof.
  unfold network_fits_restriction, fits_spec. rewrite has_restriction_bits.
  change (Z.to_nat NUM_NET_TYPES) with 2%nat. cbn [some_type_fits].
  change (NET_TYPE_WIFI + 1) with NET_TYPE_THREEG.
  rewrite type_fits_wifi, type_fits_threeg.
  destruct (wifi_only labels), (threeg_only labels), (fallback_allowed labels),
    (matches_type NET_TYPE_WIFI l r), (matches_type NET_TYPE_THREEG l r);
    simpl; intuition congruence.
Qed.
