(* ===== verification/Scheduling.v ===== *)
(** IROB scheduling requests and priority sets: irob_scheduling.h/.cpp.

    [OrdSet] models [std::set] under a comparison function: [insert] and
    [find] walk to the lower bound and decide equivalence with
    [!(a < b) && !(b < a)].  For a strict weak order this is the documented
    behaviour of the container; the file shows on which sets of requests
    [IROBSchedulingData::operator<] is one, and that it is none in general. *)

From S2P Require Import Prelude Labels.

(** * std::set under a comparison function *)
Module OrdSet.
Section ordset.
Context {A : Type} (lt : A -> A -> bool).

Fixpoint insert (x : A) (l : list A) : list A :=
  match l with
  | [] => [x]
  | y :: l' =>
      if lt y x then y :: insert x l'
      else if lt x y then x :: l
      else l                          (* equivalent element: not inserted *)
  end.

Fixpoint find (x : A) (l : list A) : option A :=
  match l with
  | [] => None
  | y :: l' =>
      if lt y x then find x l' else if lt x y then None else Some y
  end.

(** [erase] of the iterator [find] returned. *)
Fixpoint erase_found (x : A) (l : list A) : list A :=
  match l with
  | [] => []
  | y :: l' =>
      if lt y x then y :: erase_found x l' else if lt x y then l else l'
  end.

Definition equivalent (x y : A) : bool := negb (lt x y) && negb (lt y x).

(** Strict weak order on the elements that satisfy [P]. *)
Record strict_weak (P : A -> Prop) : Prop := {
  sw_irrefl x : P x -> lt x x = false;
  sw_trans x y z : P x -> P y -> P z -> lt x y = true -> lt y z = true -> lt x z = true;
  sw_equiv_trans x y z : P x -> P y -> P z ->
    equivalent x y = true -> equivalent y z = true -> equivalent x z = true
}.

(** Consecutive elements strictly increase, and so do all pairs. *)
Definition ordered (l : list A) : Prop := StronglySorted (fun x y => lt x y = true) l.

Lemma insert_elem x y l : y ∈ insert x l -> y = x \/ y ∈ l.
Proof.
  induction l as [|z l IH]; simpl; [set_solver|].
  destruct (lt z x); [set_solver|]. destruct (lt x z); set_solver.
Qed.

Lemma insert_keeps x y l : y ∈ l -> y ∈ insert x l.
Proof.
  induction l as [|z l IH]; simpl; [set_solver|].
  destruct (lt z x); [set_solver|]. destruct (lt x z); set_solver.
Qed.

(** Either the new element or one equivalent to it is there. *)
Lemma insert_present x l : exists y, y ∈ insert x l /\ (y = x \/ equivalent x y = true).
Proof.
  induction l as [|z l (y & Hy & E)]; simpl; [set_solver|].
  destruct (lt z x) eqn:E1; [exists y; set_solver|].
  destruct (lt x z) eqn:E2; [exists x; set_solver|].
  exists z. split; [set_solver|]. right. unfold equivalent. by rewrite E1, E2.
Qed.

Lemma insert_Forall (P : A -> Prop) x l : P x -> Forall P l -> Forall P (insert x l).
Proof.
  intros Hx Hl. apply Forall_forall. intros y Hy.
  apply insert_elem in Hy as [->|Hy]; [done|].
  rewrite Forall_forall in Hl. by apply Hl.
Qed.

Lemma insert_ordered (P : A -> Prop) x l :
  strict_weak P -> P x -> Forall P l -> ordered l -> ordered (insert x l).
Proof.
  intros SW Hx HP Hl. induction Hl as [|y l Hs IH Hy]; simpl; [repeat constructor|].
  apply Forall_cons in HP as [HPy HPl].
  destruct (lt y x) eqn:E1.
  - constructor; [by apply IH|]. apply Forall_forall. intros z Hz.
    apply insert_elem in Hz as [->|Hz]; [done|].
    rewrite Forall_forall in Hy. by apply Hy.
  - destruct (lt x y) eqn:E2; [|by constructor].
    constructor; [by constructor|]. constructor; [done|].
    apply Forall_forall. intros z Hz. rewrite Forall_forall in Hy, HPl.
    apply (sw_trans P SW x y z); auto.
Qed.

Lemma erase_found_ordered x l : ordered l -> ordered (erase_found x l).
Proof.
  induction 1 as [|y l Hs IH Hy]; simpl; [constructor|].
  destruct (lt y x).
  - constructor; [done|]. apply Forall_forall. intros z Hz.
    rewrite Forall_forall in Hy. apply Hy.
    clear -Hz. induction l as [|w l IH]; simpl in Hz; [set_solver|].
    destruct (lt w x); [set_solver|]. destruct (lt x w); set_solver.
  - destruct (lt x y); [by constructor|done].
Qed.

Lemma find_Some x y l : find x l = Some y -> y ∈ l /\ equivalent x y = true.
Proof.
  induction l as [|z l IH]; simpl; [done|].
  destruct (lt z x) eqn:E1; [intros ?%IH; set_solver|].
  destruct (lt x z) eqn:E2; [done|]. intros [= ->]. split; [set_solver|].
  unfold equivalent. by rewrite E1, E2.
Qed.
End ordset.
End OrdSet.

(** * Requests *)

Definition CMM_RESEND_REQUEST_NONE : Z := 0x0.
Definition CMM_RESEND_REQUEST_DEPS : Z := 0x1.
Definition CMM_RESEND_REQUEST_DATA : Z := 0x2.
Definition CMM_RESEND_REQUEST_END : Z := 0x4.
Definition CMM_RESEND_REQUEST_ALL : Z := 0x7.

Record IROBSchedulingData := SchedData {
  sd_id : Z;
  sd_chunks_ready : bool;
  sd_resend_request : Z;
  sd_completion_time : timeval;
  sd_data_check : bool;
  sd_send_labels : Z
}.

#[export] Instance IROBSchedulingData_eq_dec : EqDecision IROBSchedulingData.
Proof. solve_decision. Defined.

(** The constructors; [no_time] is the [{-1, 0}] of the first three. *)
Definition no_time : timeval := Timeval (-1) 0.
Definition sched_default : IROBSchedulingData :=
  SchedData (-1) false CMM_RESEND_REQUEST_NONE no_time false 0.
Definition sched_chunks (id : Z) (chunks_ready : bool) (send_labels : Z) : IROBSchedulingData :=
  SchedData id chunks_ready CMM_RESEND_REQUEST_NONE no_time false send_labels.
Definition sched_resend (id resend_request send_labels : Z) : IROBSchedulingData :=
  SchedData id false resend_request no_time false send_labels.
Definition sched_ack (id : Z) (completion_time : timeval) (send_labels : Z)
    : IROBSchedulingData :=
  SchedData id false CMM_RESEND_REQUEST_NONE completion_time false send_labels.

Definition with_labels (labels : Z) (d : IROBSchedulingData) : IROBSchedulingData :=
  SchedData (sd_id d) (sd_chunks_ready d) (sd_resend_request d)
    (sd_completion_time d) (sd_data_check d) labels.
Definition with_data_check (b : bool) (d : IROBSchedulingData) : IROBSchedulingData :=
  SchedData (sd_id d) (sd_chunks_ready d) (sd_resend_request d)
    (sd_completion_time d) b (sd_send_labels d).

Definition ondemand (d : IROBSchedulingData) : bool :=
  has_bits (sd_send_labels d) CMM_LABEL_ONDEMAND.

(** [IROBSchedulingData::operator<]. *)
Definition sched_lt (a b : IROBSchedulingData) : bool :=
  if ondemand a && negb (ondemand b) then true
  else if negb (ondemand a) && ondemand b then false
  else timer_lt (sd_completion_time a) (sd_completion_time b) || (sd_id a <? sd_id b).

(** * IROBPrioritySet *)
Module PrioritySet.
Abbreviation t := (list IROBSchedulingData).

Definition insert (data : IROBSchedulingData) (tasks : t) : t :=
  OrdSet.insert sched_lt data tasks.

(** [pop_item] of common.h on the task set. *)
Definition pop (tasks : t) : option (IROBSchedulingData * t) :=
  match tasks with [] => None | d :: rest => Some (d, rest) end.

Definition remove (id : Z) (tasks : t) : option (IROBSchedulingData * t) :=
  let dummy := sched_chunks id false 0 in
  match OrdSet.find sched_lt dummy tasks with
  | Some d => Some (d, OrdSet.erase_found sched_lt dummy tasks)
  | None => None
  end.

Definition insert_range (items : list IROBSchedulingData) (tasks : t) : t :=
  foldl (fun s d => insert d s) tasks items.

(** [transfer] to another set. *)
Definition transfer (id new_labels : Z) (tasks other : t) : t * t :=
  match remove id tasks with
  | Some (d, rest) => (rest, insert (with_labels new_labels d) other)
  | None => (tasks, other)
  end.

(** [transfer] when [other] is the set itself. *)
Definition transfer_self (id new_labels : Z) (tasks : t) : t :=
  match remove id tasks with
  | Some (d, rest) => insert (with_labels new_labels d) rest
  | None => tasks
  end.
End PrioritySet.

(** * IROBSchedulingIndexes *)

Inductive index_type :=
| NEW_IROBS | NEW_CHUNKS | FINISHED_IROBS | WAITING_ACKS | RESEND_REQUESTS
| WAITING_DATA_CHECKS.

#[export] Instance index_type_eq_dec : EqDecision index_type.
Proof. solve_decision. Defined.

Record IROBSchedulingIndexes := Indexes {
  new_irobs : PrioritySet.t;
  new_chunks : PrioritySet.t;
  finished_irobs : PrioritySet.t;
  waiting_acks : PrioritySet.t;
  resend_requests : PrioritySet.t;
  waiting_data_checks : PrioritySet.t
}.

Definition indexes_empty : IROBSchedulingIndexes := Indexes [] [] [] [] [] [].

Definition index_get (ty : index_type) (x : IROBSchedulingIndexes) : PrioritySet.t :=
  match ty with
  | NEW_IROBS => new_irobs x
  | NEW_CHUNKS => new_chunks x
  | FINISHED_IROBS => finished_irobs x
  | WAITING_ACKS => waiting_acks x
  | RESEND_REQUESTS => resend_requests x
  | WAITING_DATA_CHECKS => waiting_data_checks x
  end.

Definition index_upd (ty : index_type) (f : PrioritySet.t -> PrioritySet.t)
    (x : IROBSchedulingIndexes) : IROBSchedulingIndexes :=
  match x with
  | Indexes a b c d e g =>
      match ty with
      | NEW_IROBS => Indexes (f a) b c d e g
      | NEW_CHUNKS => Indexes a (f b) c d e g
      | FINISHED_IROBS => Indexes a b (f c) d e g
      | WAITING_ACKS => Indexes a b c (f d) e g
      | RESEND_REQUESTS => Indexes a b c d (f e) g
      | WAITING_DATA_CHECKS => Indexes a b c d e (f g)
      end
  end.

(** [IROBSchedulingIndexes::insert]: through the array [sets]. *)
Definition index_insert (ty : index_type) (data : IROBSchedulingData)
    (x : IROBSchedulingIndexes) : IROBSchedulingIndexes :=
  index_upd ty (PrioritySet.insert data) x.

Definition index_add (x other : IROBSchedulingIndexes) : IROBSchedulingIndexes :=
  Indexes
    (PrioritySet.insert_range (new_irobs other) (new_irobs x))
    (PrioritySet.insert_range (new_chunks other) (new_chunks x))
    (PrioritySet.insert_range (finished_irobs other) (finished_irobs x))
    (PrioritySet.insert_range (waiting_acks other) (waiting_acks x))
    (PrioritySet.insert_range (resend_requests other) (resend_requests x))
    (PrioritySet.insert_range (waiting_data_checks other) (waiting_data_checks x)).

Definition index_clear (_ : IROBSchedulingIndexes) : IROBSchedulingIndexes := indexes_empty.

Definition index_size (x : IROBSchedulingIndexes) : Z :=
  to_size_t (Z.of_nat (length (new_irobs x) + length (new_chunks x)
    + length (finished_irobs x) + length (waiting_acks x)
    + length (resend_requests x) + length (waiting_data_checks x))).

(** [IROBSchedulingIndexes::transfer] between two different objects. *)
Definition index_transfer (id new_labels : Z) (x other : IROBSchedulingIndexes)
    : IROBSchedulingIndexes * IROBSchedulingIndexes :=
  let '(i1, i2) := PrioritySet.transfer id new_labels (new_irobs x) (new_irobs other) in
  let '(c1, c2) := PrioritySet.transfer id new_labels (new_chunks x) (new_chunks other) in
  (index_upd NEW_CHUNKS (fun _ => c1) (index_upd NEW_IROBS (fun _ => i1) x),
   index_upd NEW_CHUNKS (fun _ => c2) (index_upd NEW_IROBS (fun _ => i2) other)).

(** * When operator< is an order

    Every set but the waiting ACKs holds requests with the same (absent)
    completion time; on those the comparison is lexicographic on the label
    class and the identifier. *)

Definition uniform (t : timeval) (d : IROBSchedulingData) : Prop := sd_completion_time d = t.

Lemma timer_lt_irrefl t : timer_lt t t = false.
Proof. unfold timer_lt. rewrite Z.eqb_refl. apply Z.ltb_irrefl. Qed.

(** The lexicographic reading of the comparison on a uniform set. *)
Lemma sched_lt_uniform t a b :
  uniform t a -> uniform t b ->
  sched_lt a b = true <->
    (ondemand a = true /\ ondemand b = false) \/
    (ondemand a = ondemand b /\ sd_id a < sd_id b).
Proof.
  unfold uniform, sched_lt. intros -> ->. rewrite timer_lt_irrefl. simpl.
  destruct (ondemand a), (ondemand b); simpl; rewrite ?Z.ltb_lt; intuition congruence.
Qed.

Lemma sched_equivalent_uniform t a b :
  uniform t a -> uniform t b ->
  OrdSet.equivalent sched_lt a b = true <-> ondemand a = ondemand b /\ sd_id a = sd_id b.
Proof.
  unfold OrdSet.equivalent, uniform, sched_lt. intros -> ->. rewrite timer_lt_irrefl. simpl.
  destruct (ondemand a), (ondemand b); simpl;
    rewrite ?andb_true_iff, ?negb_true_iff, ?Z.ltb_ge; try naive_solver;
    (split; [intros []; split; [done|lia]|intros [_ ->]; lia]).
Qed.

Lemma sched_lt_strict_weak t : OrdSet.strict_weak sched_lt (uniform t).
Proof.
  split.
  - intros x Hx. apply not_true_is_false. rewrite (sched_lt_uniform t) by done.
    intuition (congruence || lia).
  - intros x y z Hx Hy Hz. rewrite !(sched_lt_uniform t) by done.
    intuition (congruence || lia).
  - intros x y z Hx Hy Hz. rewrite !(sched_equivalent_uniform t) by done.
    intuition congruence.
Qed.

(** [operator<] is not an order on requests with different completion
    times: two ACK requests whose times and identifiers disagree are each
    below the other. *)
Theorem sched_lt_conflict a b :
  ondemand a = ondemand b ->
  timer_lt (sd_completion_time a) (sd_completion_time b) = true ->
  sd_id b < sd_id a ->
  sched_lt a b = true /\ sched_lt b a = true.
Proof.
  intros E Ht Hid. unfold sched_lt. rewrite E, Ht.
  destruct (ondemand b); simpl; rewrite (proj2 (Z.ltb_lt _ _) Hid), ?orb_true_r; done.
Qed.

Lemma sched_lt_conflict_witness :
  sched_lt (sched_ack 9 (Timeval 1 0) 0) (sched_ack 3 (Timeval 2 0) 0) = true /\
  sched_lt (sched_ack 3 (Timeval 2 0) 0) (sched_ack 9 (Timeval 1 0) 0) = true.
Proof. apply sched_lt_conflict; [reflexivity|reflexivity|simpl; lia]. Defined.

(** * The sets a scheduler keeps *)

(** A task set: strictly ordered requests, all without a completion time. *)
Record task_set (tasks : PrioritySet.t) : Prop := {
  ts_ordered : OrdSet.ordered sched_lt tasks;
  ts_uniform : Forall (uniform no_time) tasks
}.

Lemma task_set_nil : task_set [].
Proof. split; constructor. Qed.

Lemma task_set_insert d tasks :
  uniform no_time d -> task_set tasks -> task_set (PrioritySet.insert d tasks).
Proof.
  intros Hd [Ho Hu]. split.
  - by apply (OrdSet.insert_ordered _ _ _ _ (sched_lt_strict_weak no_time)).
  - by apply OrdSet.insert_Forall.
Qed.

Lemma task_set_tail d tasks : task_set (d :: tasks) -> task_set tasks.
Proof.
  intros [Ho Hu]. apply Forall_cons in Hu as [_ Hu]. split; [|done].
  by apply StronglySorted_inv in Ho as [Ho _].
Qed.

Lemma erase_found_elem x y tasks :
  y ∈ OrdSet.erase_found sched_lt x tasks -> y ∈ tasks.
Proof.
  induction tasks as [|z l IH]; simpl; [done|].
  destruct (sched_lt z x); [set_solver|]. destruct (sched_lt x z); set_solver.
Qed.

Lemma task_set_remove id d rest tasks :
  task_set tasks -> PrioritySet.remove id tasks = Some (d, rest) -> task_set rest.
Proof.
  intros [Ho Hu]. unfold PrioritySet.remove.
  destruct (OrdSet.find _ _ _); [|done]. intros [= _ <-]. split.
  - by apply OrdSet.erase_found_ordered.
  - apply Forall_forall. intros y Hy%erase_found_elem.
    rewrite Forall_forall in Hu. by apply Hu.
Qed.

Lemma task_set_insert_range items tasks :
  Forall (uniform no_time) items -> task_set tasks ->
  task_set (PrioritySet.insert_range items tasks).
Proof.
  intros Hi. revert tasks. induction Hi as [|d items Hd Hi IH]; simpl; [done|].
  intros tasks Ht. by apply IH, task_set_insert.
Qed.

#[export] Hint Resolve task_set_nil task_set_insert task_set_tail task_set_remove
  task_set_insert_range : cmm.

(** [pop] serves on-demand requests first, and among requests of one
    label class the oldest IROB first. *)
Theorem pop_priority tasks d rest :
  task_set tasks -> PrioritySet.pop tasks = Some (d, rest) ->
  task_set rest /\
  forall e, e ∈ rest ->
    (ondemand e = true -> ondemand d = true) /\
    (ondemand e = ondemand d -> sd_id d < sd_id e).
Proof.
  intros Ht. destruct tasks as [|d' tasks]; [done|]. simpl. intros [= -> ->].
  split; [by eapply task_set_tail|]. intros e He. destruct Ht as [Ho Hu].
  apply StronglySorted_inv in Ho as [_ Ho]. rewrite Forall_forall in Ho.
  specialize (Ho e He).
  apply (sched_lt_uniform no_time) in Ho; [|by inversion Hu|].
  - destruct (ondemand d), (ondemand e); intuition congruence.
  - inversion Hu as [|? ? _ Hu']. rewrite Forall_forall in Hu'. by apply Hu'.
Qed.

Lemma pop_priority_witness :
  let s := PrioritySet.insert (sched_chunks 2 false CMM_LABEL_BACKGROUND)
    (PrioritySet.insert (sched_chunks 7 false CMM_LABEL_ONDEMAND) []) in
  task_set [sched_chunks 2 false CMM_LABEL_BACKGROUND] /\
  forall e, e ∈ [sched_chunks 2 false CMM_LABEL_BACKGROUND] ->
    (ondemand e = true -> ondemand (sched_chunks 7 false CMM_LABEL_ONDEMAND) = true) /\
    (ondemand e = ondemand (sched_chunks 7 false CMM_LABEL_ONDEMAND) -> 7 < sd_id e).
Proof.
  intros s. apply (pop_priority s); [|vm_compute; reflexivity].
  subst s. by repeat apply task_set_insert; try apply task_set_nil.
Defined.

(** [remove(id)] looks the request up through a request without labels, so
    it finds exactly the requests for [id] that are not on demand: the
    on-demand request for [id] is never taken out of a set by identifier. *)
Theorem remove_finds_iff tasks id :
  task_set tasks ->
  (exists d rest, PrioritySet.remove id tasks = Some (d, rest)) <->
  (exists d, d ∈ tasks /\ sd_id d = id /\ ondemand d = false).
Proof.
  intros [Ho Hu]. unfold PrioritySet.remove. set (x := sched_chunks id false 0).
  assert (Hx : uniform no_time x) by done.
  split.
  - intros (d & rest & E). destruct (OrdSet.find sched_lt x tasks) as [y|] eqn:F; [|done].
    apply OrdSet.find_Some in F as [Hy Heq]. exists y. rewrite Forall_forall in Hu.
    apply (sched_equivalent_uniform no_time) in Heq as [Hl Hi]; [|done|by apply Hu].
    split_and!; [done|done|]. by rewrite <- Hl.
  - intros (d & Hd & Hid & Hod).
    enough (exists y, OrdSet.find sched_lt x tasks = Some y) as [y ->] by eauto.
    assert (Heq : OrdSet.equivalent sched_lt x d = true).
    { rewrite Forall_forall in Hu. apply (sched_equivalent_uniform no_time); [done|auto|].
      split; [by rewrite Hod|done]. }
    apply andb_true_iff in Heq as [H1%negb_true_iff H2%negb_true_iff].
    clear Hid Hod. induction Ho as [|z l Hs IH Hz]; [set_solver|]. simpl.
    apply Forall_cons in Hu as [Huz Hul].
    apply elem_of_cons in Hd as [<-|Hd].
    + rewrite H2, H1. eauto.
    + rewrite Forall_forall in Hz. specialize (Hz d Hd).
      destruct (sched_lt z x) eqn:E1; [by apply IH|].
      destruct (sched_lt x z) eqn:E2; [|eauto].
      exfalso. rewrite Forall_forall in Hul.
      pose proof (OrdSet.sw_trans _ _ (sched_lt_strict_weak no_time)
        x z d Hx Huz (Hul d Hd) E2 Hz). congruence.
Qed.

Lemma remove_finds_iff_witness :
  (exists d rest, PrioritySet.remove 4 [sched_chunks 4 true 0] = Some (d, rest)) <->
  (exists d, d ∈ [sched_chunks 4 true 0] /\ sd_id d = 4 /\ ondemand d = false).
Proof.
  apply remove_finds_iff. change [sched_chunks 4 true 0] with
    (PrioritySet.insert (sched_chunks 4 true 0) []).
  by apply task_set_insert; [|apply task_set_nil].
Defined.
