(* ===== verification/Irob.v ===== *)
(** IROBs: the chunk structure of cmm_socket_control.h, the base class
    [PendingIROB] of pending_irob.h/.cpp, and the interface the lattice uses.

    [IrobCore] holds the fields of the base class.  A subclass object is a type
    [O] with an instance of [IrobOps]: access to its base-class part, the
    virtual [subsume], and the virtual constructor of placeholders.
    [IrobLaws] is what a lattice relies on.

    A chunk's [data] pointer is the bytes it points to, [None] for NULL.  The
    send labels of a placeholder are never initialised by its constructor: they
    are [None], and reading them is undefined behaviour. *)

From Stdlib Require Export Strings.Byte.
From S2P Require Import Prelude Labels.

(** * Chunks *)

Record irob_chunk_data := Chunk {
  ch_id : Z;                      (* irob_id_t, long *)
  ch_seqno : Z;                   (* u_long *)
  ch_offset : Z;                  (* size_t *)
  ch_datalen : Z;                 (* size_t *)
  ch_data : option (list byte)
}.

#[export] Instance byte_eq_dec : EqDecision byte := Byte.byte_eq_dec.
#[export] Instance irob_chunk_data_eq_dec : EqDecision irob_chunk_data.
Proof. solve_decision. Defined.

(** [irob_chunk_data::operator<]. *)
Definition chunk_lt (a b : irob_chunk_data) : bool :=
  (ch_id a <? ch_id b) || ((ch_id a =? ch_id b) && (ch_seqno a <? ch_seqno b)).

(** A chunk zeroed by [memset]. *)
Definition chunk_zero : irob_chunk_data := Chunk 0 0 0 0 None.

Definition chunk_set_seqno (n : Z) (c : irob_chunk_data) : irob_chunk_data :=
  Chunk (ch_id c) n (ch_offset c) (ch_datalen c) (ch_data c).
Definition chunk_set_offset (n : Z) (c : irob_chunk_data) : irob_chunk_data :=
  Chunk (ch_id c) (ch_seqno c) n (ch_datalen c) (ch_data c).

(** The bytes behind a chunk's [data] pointer. *)
Definition chunk_bytes (c : irob_chunk_data) : list byte := default [] (ch_data c).

(** [for_each(..., SumChunkFunctor()).sum]. *)
Definition sum_chunks (l : list irob_chunk_data) : Z :=
  foldl (fun sum c => to_size_t (sum + ch_datalen c)) 0 l.

(** * The base class *)

Definition CMM_FAILED : Z := -1.
Definition CMM_DEFERRED : Z := -2.

Record IrobCore := Core {
  irob_id : Z;
  send_labels : option Z;
  deps : gset Z;
  dependents : gset Z;
  chunks : list irob_chunk_data;
  anonymous : bool;
  complete : bool;
  placeholder : bool;
  status : Z
}.

#[export] Instance IrobCore_eq_dec : EqDecision IrobCore.
Proof. solve_decision. Defined.

Definition set_deps (f : gset Z -> gset Z) (p : IrobCore) : IrobCore :=
  Core (irob_id p) (send_labels p) (f (deps p)) (dependents p) (chunks p)
    (anonymous p) (complete p) (placeholder p) (status p).
Definition set_dependents (f : gset Z -> gset Z) (p : IrobCore) : IrobCore :=
  Core (irob_id p) (send_labels p) (deps p) (f (dependents p)) (chunks p)
    (anonymous p) (complete p) (placeholder p) (status p).
Definition set_chunks (f : list irob_chunk_data -> list irob_chunk_data) (p : IrobCore)
    : IrobCore :=
  Core (irob_id p) (send_labels p) (deps p) (dependents p) (f (chunks p))
    (anonymous p) (complete p) (placeholder p) (status p).
Definition set_complete (b : bool) (p : IrobCore) : IrobCore :=
  Core (irob_id p) (send_labels p) (deps p) (dependents p) (chunks p)
    (anonymous p) b (placeholder p) (status p).
Definition set_status (z : Z) (p : IrobCore) : IrobCore :=
  Core (irob_id p) (send_labels p) (deps p) (dependents p) (chunks p)
    (anonymous p) (complete p) (placeholder p) z.

(** The constructor of placeholders, [PendingIROB(irob_id_t)]. *)
Definition core_placeholder (id : Z) : IrobCore :=
  Core id None ∅ ∅ [] false false true 0.

(** The constructor [PendingIROB(id, numdeps, deps, datalen, data, labels)]:
    [deps_array] has the [numdeps] dependencies and [data] the [datalen] bytes
    (NULL when there are none). *)
Definition core_new (id : Z) (deps_array : list Z) (data : list byte) (labels : Z) : IrobCore :=
  let datalen := Z.of_nat (length data) in
  if 0 <? datalen then
    Core id (Some labels) (list_to_set deps_array) ∅ [Chunk id 0 0 datalen (Some data)]
      true true false 0
  else
    Core id (Some labels) (list_to_set deps_array) ∅ [] false false false 0.

Definition get_send_labels (p : IrobCore) : outcome Z := access (send_labels p).

Definition core_add_chunk (p : IrobCore) (c : irob_chunk_data) : bool * IrobCore :=
  if complete p then (false, p) else (true, set_chunks (fun l => l ++ [c]) p).

Definition core_finish (p : IrobCore) : bool * IrobCore :=
  if complete p then (false, p) else (true, set_complete true p).

Definition add_dep (id : Z) (p : IrobCore) : IrobCore := set_deps (fun d => {[id]} ∪ d) p.
Definition dep_satisfied (id : Z) (p : IrobCore) : IrobCore := set_deps (fun d => d ∖ {[id]}) p.
Definition add_dependent (id : Z) (p : IrobCore) : IrobCore :=
  set_dependents (fun d => {[id]} ∪ d) p.
Definition depends_on (that : Z) (p : IrobCore) : bool := bool_decide (that ∈ deps p).

(** [remove_deps_if]: keep the dependencies on which the predicate fails. *)
Definition remove_deps_if (pred : Z -> bool) (p : IrobCore) : IrobCore :=
  set_deps (fun d => filter (fun x => pred x = false) d) p.

(** [can_be_redundant]; the label test reads the send labels. *)
Definition can_be_redundant (p : IrobCore) : outcome bool :=
  get_send_labels p ≫= fun l =>
  Ret (has_bits l CMM_LABEL_ONDEMAND && has_bits l CMM_LABEL_SMALL &&
       (Z.land l ALL_NETWORK_RESTRICTIONS =? 0)).

(** * The interface of a lattice's objects *)

Class IrobOps (O : Type) := {
  core : O -> IrobCore;
  upd_core : (IrobCore -> IrobCore) -> O -> O;
  subsume : O -> O -> outcome O;
  make_placeholder : Z -> O
}.

Class IrobLaws (O : Type) `{!IrobOps O} : Prop := {
  core_upd f o : core (upd_core f o) = f (core o);
  upd_core_ext f g o : f (core o) = g (core o) -> upd_core f o = upd_core g o;
  upd_core_upd f g o : upd_core f (upd_core g o) = upd_core (fun c => f (g c)) o;
  upd_core_id o : upd_core (fun c => c) o = o;
  core_make_placeholder id : core (make_placeholder id) = core_placeholder id;
  subsume_core o o' r : subsume o o' = Ret r ->
    irob_id (core r) = irob_id (core o) /\
    send_labels (core r) = send_labels (core o) /\
    deps (core r) = deps (core o) /\
    dependents (core r) = dependents (core o) ∪ dependents (core o') /\
    anonymous (core r) = anonymous (core o) /\
    placeholder (core r) = placeholder (core o)
}.

(** The base class as such: the objects of a lattice that overrides nothing. *)

Definition core_subsume (p other : IrobCore) : IrobCore :=
  let p := set_dependents (fun d => d ∪ dependents other) p in
  let p := foldl (fun p c => snd (core_add_chunk p c)) p (chunks other) in
  set_complete (complete other) p.

#[export] Instance base_IrobOps : IrobOps IrobCore := {
  core p := p;
  upd_core f p := f p;
  subsume p other := Ret (core_subsume p other);
  make_placeholder := core_placeholder
}.

Lemma foldl_add_chunk cs p :
  let p' := foldl (fun p c => snd (core_add_chunk p c)) p cs in
  p' = set_chunks (fun l => if complete p then l else l ++ cs) p.
Proof.
  revert p. induction cs as [|c cs IH]; intros p; simpl.
  { destruct p as [? ? ? ? ch ? co ? ?]; unfold set_chunks; simpl. by rewrite app_nil_r; destruct co. }
  simpl in IH. rewrite IH. unfold core_add_chunk, set_chunks.
  destruct p as [? ? ? ? ch ? co ? ?]; destruct co; simpl; [done|]. by rewrite <- app_assoc.
Qed.

#[export] Instance base_IrobLaws : IrobLaws IrobCore.
Proof.
  split; try done. intros p o r. simpl. intros [= <-].
  unfold core_subsume. rewrite foldl_add_chunk. by split_and!.
Qed.

Lemma elem_of_remove_deps pred p x :
  x ∈ deps (remove_deps_if pred p) <-> x ∈ deps p /\ pred x = false.
Proof. simpl. rewrite elem_of_filter. tauto. Qed.

(** * Sums of chunk lengths without wrap-around *)

Definition total_len (l : list irob_chunk_data) : Z := sumZ (map ch_datalen l).

Definition chunk_ok (c : irob_chunk_data) : Prop := 0 <= ch_datalen c.

Lemma total_len_app l1 l2 : total_len (l1 ++ l2) = total_len l1 + total_len l2.
Proof. unfold total_len. by rewrite map_app, sumZ_app. Qed.

Lemma total_len_cons c l : total_len (c :: l) = ch_datalen c + total_len l.
Proof. done. Qed.

Lemma total_len_nonneg l : Forall chunk_ok l -> 0 <= total_len l.
Proof.
  induction 1 as [|c l Hc Hl IH]; [done|]. rewrite total_len_cons. unfold chunk_ok in Hc. lia.
Qed.

Lemma sum_chunks_total l :
  Forall chunk_ok l -> total_len l < 2 ^ 64 -> sum_chunks l = total_len l.
Proof.
  intros Hok Hlt. unfold sum_chunks.
  enough (forall acc, 0 <= acc -> acc + total_len l < 2 ^ 64 ->
    foldl (fun s c => to_size_t (s + ch_datalen c)) acc l = acc + total_len l) as E.
  { rewrite E by lia. lia. }
  clear Hlt. induction Hok as [|c l Hc Hl IH]; intros acc Ha Hs; simpl.
  { unfold total_len in *; simpl in *. lia. }
  rewrite total_len_cons in Hs. pose proof (total_len_nonneg l Hl).
  unfold chunk_ok in Hc. rewrite to_size_t_small by lia.
  rewrite IH by lia. rewrite total_len_cons. lia.
Qed.
