(* ===== verification/Chunks.v ===== *)
(** Sequences of chunks: the layout both ends agree on.

    [layout n o l]: the chunks of [l] are numbered from [n] and cover the bytes
    from offset [o] on without gap or overlap.  [slice] is a range of a byte
    string.  The lemmas are shared by the sender (application chunks and sent
    chunks) and by the receiver (reassembly). *)

From S2P Require Import Prelude Irob.

Fixpoint layout (n o : Z) (l : list irob_chunk_data) : Prop :=
  match l with
  | [] => True
  | c :: l => ch_seqno c = n /\ ch_offset c = o /\ 0 <= ch_datalen c /\
              layout (n + 1) (o + ch_datalen c) l
  end.

(** The chunk points to as many bytes as it says. *)
Definition sized (c : irob_chunk_data) : Prop :=
  Z.of_nat (length (chunk_bytes c)) = ch_datalen c.

Definition bytes_of_chunks (l : list irob_chunk_data) : list byte :=
  concat (chunk_bytes <$> l).

Definition slice {A} (off len : Z) (l : list A) : list A :=
  take (Z.to_nat len) (drop (Z.to_nat off) l).

Lemma layout_ok n o l : layout n o l -> Forall chunk_ok l.
Proof.
  revert n o. induction l as [|c l IH]; intros n o; [constructor|].
  intros (_ & _ & H & Hl). constructor; [done|]. by eapply IH.
Qed.

Lemma layout_total n o l : layout n o l -> 0 <= total_len l.
Proof. intros H. by eapply total_len_nonneg, layout_ok. Qed.

Lemma layout_snoc n o l c :
  layout n o (l ++ [c]) <->
  layout n o l /\ ch_seqno c = n + Z.of_nat (length l) /\ ch_offset c = o + total_len l /\
  0 <= ch_datalen c.
Proof.
  revert n o. induction l as [|d l IH]; intros n o.
  - cbn [layout app length]. unfold total_len. simpl. rewrite !Z.add_0_r. tauto.
  - cbn [layout app length]. rewrite IH, total_len_cons. split.
    + intros (? & ? & ? & ? & ? & ? & ?). split_and!; try done; lia.
    + intros ((? & ? & ? & ?) & ? & ? & ?). split_and!; try done; lia.
Qed.

Lemma layout_lookup n o l i c :
  layout n o l -> l !! i = Some c ->
  ch_seqno c = n + Z.of_nat i /\ ch_offset c = o + total_len (take i l) /\ 0 <= ch_datalen c.
Proof.
  revert n o i. induction l as [|d l IH]; intros n o [|i] Hl Hi; try done.
  - destruct Hl as (<- & <- & ? & _). injection Hi as ->. unfold total_len. simpl. lia.
  - destruct Hl as (_ & _ & _ & Hl). destruct (IH _ _ i Hl Hi) as (-> & -> & ?).
    cbn [take]. rewrite total_len_cons. lia.
Qed.

Lemma total_len_take_drop l i : total_len l = total_len (take i l) + total_len (drop i l).
Proof. by rewrite <- total_len_app, take_drop. Qed.

Lemma total_len_take_le l i j :
  Forall chunk_ok l -> (i <= j)%nat -> total_len (take i l) <= total_len (take j l).
Proof.
  intros Hl Hij. rewrite (total_len_take_drop (take j l) i), take_take, Nat.min_l by done.
  pose proof (total_len_nonneg (drop i (take j l))). 
  cut (0 <= total_len (drop i (take j l))); [lia|]. apply H. by apply Forall_drop, Forall_take.
Qed.

Lemma total_len_take_S l i c :
  l !! i = Some c -> total_len (take (S i) l) = total_len (take i l) + ch_datalen c.
Proof.
  intros Hi. rewrite (take_S_r _ _ _ Hi), total_len_app. unfold total_len at 2. simpl. lia.
Qed.

Lemma total_len_take_all l i : (length l <= i)%nat -> total_len (take i l) = total_len l.
Proof. intros. by rewrite take_ge. Qed.

(** A chunk of a layout ends within it. *)
Lemma layout_end o n l i c :
  layout n o l -> l !! i = Some c -> ch_offset c + ch_datalen c <= o + total_len l.
Proof.
  intros Hl Hi. destruct (layout_lookup _ _ _ _ _ Hl Hi) as (_ & -> & _).
  pose proof (total_len_take_S l i c Hi).
  pose proof (total_len_take_le l (S i) (length l) (layout_ok _ _ _ Hl)
    (lookup_lt_Some _ _ _ Hi)). rewrite (total_len_take_all l (length l)) in * by done. lia.
Qed.

(** * Bytes of a chunk sequence *)

Lemma bytes_of_chunks_app l1 l2 :
  bytes_of_chunks (l1 ++ l2) = bytes_of_chunks l1 ++ bytes_of_chunks l2.
Proof. unfold bytes_of_chunks. by rewrite fmap_app, concat_app. Qed.

Lemma bytes_of_chunks_cons c l : bytes_of_chunks (c :: l) = chunk_bytes c ++ bytes_of_chunks l.
Proof. done. Qed.

Lemma length_bytes_of_chunks l :
  Forall sized l -> Z.of_nat (length (bytes_of_chunks l)) = total_len l.
Proof.
  induction 1 as [|c l Hc Hl IH]; [done|].
  rewrite bytes_of_chunks_cons, total_len_cons, length_app. unfold sized in Hc. lia.
Qed.

Lemma drop_bytes_of_chunks l i off :
  Forall sized l -> Forall chunk_ok l -> total_len (take i l) <= off ->
  drop (Z.to_nat off) (bytes_of_chunks l) =
  drop (Z.to_nat (off - total_len (take i l))) (bytes_of_chunks (drop i l)).
Proof.
  intros Hs Hok Hoff. rewrite <- (take_drop i l) at 1. rewrite bytes_of_chunks_app.
  pose proof (length_bytes_of_chunks (take i l) (Forall_take _ _ _ Hs)) as E.
  rewrite drop_app, drop_ge by lia. simpl. f_equal. lia.
Qed.

(** The slice a chunk of a layout holds. *)
Lemma slice_chunk l i c :
  layout 0 0 l -> Forall sized l -> l !! i = Some c ->
  slice (ch_offset c) (ch_datalen c) (bytes_of_chunks l) = chunk_bytes c.
Proof.
  intros Hl Hs Hi. destruct (layout_lookup _ _ _ _ _ Hl Hi) as (_ & -> & _). simpl.
  unfold slice. rewrite (drop_bytes_of_chunks l i) by (eauto using layout_ok; lia).
  rewrite Z.sub_diag. simpl. rewrite (drop_S _ _ _ Hi), bytes_of_chunks_cons.
  rewrite Forall_forall in Hs. pose proof (Hs c (list_elem_of_lookup_2 _ _ _ Hi)) as Hc.
  unfold sized in Hc. apply take_app_length'. lia.
Qed.
