(* ===== verification/Control.v ===== *)
(** Control messages and byte order: cmm_socket_control.h.

    A header is a tagged union; the code only ever reads the member its [type]
    selects, so the union is an inductive type with one constructor per member.
    Fields are kept as they are on the wire: 32-bit values in network byte
    order, zero-extended in 64-bit fields.  A [message] is a header with what
    follows it on the stream.  The host is little-endian. *)

From S2P Require Import Prelude Labels Irob.

(** * Byte order *)

(** The bytes of a 32-bit word reversed: [htonl] and [ntohl]. *)
Definition swap32 (x : Z) : Z :=
  let u := to_u32 x in
  (u mod 256) * 2 ^ 24 + (u / 2 ^ 8 mod 256) * 2 ^ 16 +
  (u / 2 ^ 16 mod 256) * 2 ^ 8 + u / 2 ^ 24.
Definition htonl : Z -> Z := swap32.
Definition ntohl : Z -> Z := swap32.

Definition swap16 (x : Z) : Z :=
  let u := wrap_u 16 x in (u mod 256) * 256 + u / 256.
Definition htons : Z -> Z := swap16.
Definition ntohs : Z -> Z := swap16.

Lemma swap32_bytes b0 b1 b2 b3 :
  0 <= b0 < 256 -> 0 <= b1 < 256 -> 0 <= b2 < 256 -> 0 <= b3 < 256 ->
  swap32 (b0 + 256 * (b1 + 256 * (b2 + 256 * b3))) =
  b3 + 256 * (b2 + 256 * (b1 + 256 * b0)).
Proof.
  intros H0 H1 H2 H3. set (u := b0 + _). unfold swap32. rewrite wrap_u_small by lia. cbv zeta.
  assert (u mod 256 = b0) as -> by (symmetry; apply Z.mod_unique with (b1 + 256 * (b2 + 256 * b3)); lia).
  assert (u / 2 ^ 8 = b1 + 256 * (b2 + 256 * b3)) as ->
    by (symmetry; apply Z.div_unique with b0; lia).
  assert (u / 2 ^ 16 = b2 + 256 * b3) as ->
    by (symmetry; apply Z.div_unique with (b0 + 256 * b1); lia).
  assert (u / 2 ^ 24 = b3) as ->
    by (symmetry; apply Z.div_unique with (b0 + 256 * (b1 + 256 * b2)); lia).
  assert ((b1 + 256 * (b2 + 256 * b3)) mod 256 = b1) as ->
    by (symmetry; apply Z.mod_unique with (b2 + 256 * b3); lia).
  assert ((b2 + 256 * b3) mod 256 = b2) as -> by (symmetry; apply Z.mod_unique with b3; lia).
  lia.
Qed.

Lemma bytes_of u : 0 <= u < 2 ^ 32 ->
  exists b0 b1 b2 b3, u = b0 + 256 * (b1 + 256 * (b2 + 256 * b3)) /\
    0 <= b0 < 256 /\ 0 <= b1 < 256 /\ 0 <= b2 < 256 /\ 0 <= b3 < 256.
Proof.
  intros Hu. exists (u mod 256), (u / 256 mod 256), (u / 256 / 256 mod 256), (u / 256 / 256 / 256).
  pose proof (Z.div_mod u 256 ltac:(lia)). pose proof (Z.mod_pos_bound u 256 ltac:(lia)).
  pose proof (Z.div_mod (u / 256) 256 ltac:(lia)).
  pose proof (Z.mod_pos_bound (u / 256) 256 ltac:(lia)).
  pose proof (Z.div_mod (u / 256 / 256) 256 ltac:(lia)).
  pose proof (Z.mod_pos_bound (u / 256 / 256) 256 ltac:(lia)).
  generalize dependent (u mod 256). generalize dependent (u / 256). intros u1.
  generalize dependent (u1 mod 256). generalize dependent (u1 / 256). intros u2.
  generalize dependent (u2 mod 256). generalize dependent (u2 / 256). intros. lia.
Qed.

Lemma swap32_swap32 x : swap32 (swap32 x) = to_u32 x.
Proof.
  assert (swap32 x = swap32 (to_u32 x)) as ->.
  { unfold swap32. by rewrite (wrap_u_small 32 (to_u32 x)) by (apply wrap_u_range; lia). }
  destruct (bytes_of (to_u32 x)) as (b0 & b1 & b2 & b3 & -> & H0 & H1 & H2 & H3);
    [apply wrap_u_range; lia|]. by rewrite !swap32_bytes.
Qed.

Lemma swap32_range x : 0 <= swap32 x < 2 ^ 32.
Proof.
  assert (swap32 x = swap32 (to_u32 x)) as ->.
  { unfold swap32. by rewrite (wrap_u_small 32 (to_u32 x)) by (apply wrap_u_range; lia). }
  destruct (bytes_of (to_u32 x)) as (b0 & b1 & b2 & b3 & -> & H0 & H1 & H2 & H3);
    [apply wrap_u_range; lia|]. rewrite swap32_bytes by done. lia.
Qed.

Lemma ntohl_htonl x : 0 <= x < 2 ^ 32 -> ntohl (htonl x) = x.
Proof. intros. unfold ntohl, htonl. rewrite swap32_swap32. by apply wrap_u_small. Qed.

Lemma ntohs_htons x : 0 <= x < 2 ^ 16 -> ntohs (htons x) = x.
Proof.
  intros Hx. unfold ntohs, htons, swap16. rewrite (wrap_u_small 16 x) by done.
  rewrite wrap_u_small; Z.to_euclidean_division_equations; lia.
Qed.

(** * Message types *)

Definition CMM_CONTROL_MSG_HELLO : Z := 0.
Definition CMM_CONTROL_MSG_BEGIN_IROB : Z := 1.
Definition CMM_CONTROL_MSG_END_IROB : Z := 2.
Definition CMM_CONTROL_MSG_IROB_CHUNK : Z := 3.
Definition CMM_CONTROL_MSG_NEW_INTERFACE : Z := 5.
Definition CMM_CONTROL_MSG_DOWN_INTERFACE : Z := 6.
Definition CMM_CONTROL_MSG_ACK : Z := 7.
Definition CMM_CONTROL_MSG_GOODBYE : Z := 8.
Definition CMM_CONTROL_MSG_RESEND_REQUEST : Z := 9.
Definition CMM_CONTROL_MSG_DATA_CHECK : Z := 10.
Definition CMM_CONTROL_MSG_INVALID : Z := 11.

(** The members of the union [op]; every integer is as on the wire. *)
Inductive ctl_op :=
| OpNone                                   (* zeroed: no member was written *)
| OpHello (listen_port num_ifaces redundancy_strategy_type : Z)
| OpBeginIrob (id numdeps : Z)
| OpEndIrob (id expected_bytes expected_chunks : Z)
| OpIrobChunk (id seqno offset datalen : Z)
| OpNewInterface (iface : net_interface)
| OpDownInterface (ip : Z)
| OpAck (num_acks id : Z) (srv_time qdelay : timeval)
| OpResendRequest (id request seqno next_chunk : Z)
| OpDataCheck (id : Z).

Record CMMSocketControlHdr := Hdr {
  hdr_type : Z;                            (* short, network order *)
  hdr_send_labels : Z;                     (* u_long, network order *)
  hdr_op : ctl_op
}.

#[export] Instance ctl_op_eq_dec : EqDecision ctl_op.
Proof. solve_decision. Defined.
#[export] Instance CMMSocketControlHdr_eq_dec : EqDecision CMMSocketControlHdr.
Proof. solve_decision. Defined.

(** [CMMSocketControlHdr()]. *)
Definition hdr_default : CMMSocketControlHdr := Hdr (htons CMM_CONTROL_MSG_INVALID) 0 OpNone.

(** A message on the stream: the header, then the identifiers (dependencies of
    a Begin_IROB, or further acknowledgements) and the data that follow it. *)
Record message := Msg {
  msg_hdr : CMMSocketControlHdr;
  msg_ids : list Z;
  msg_data : list byte
}.

(** [PendingIROB::copy_deps_htonl]: the dependencies in the order of the set. *)
Definition copy_deps_htonl (p : IrobCore) : list Z := htonl <$> ascending (deps p).
