(* ===== verification/SenderIrob.v ===== *)
(** [PendingSenderIROB] of pending_sender_irob.h/.cpp: an IROB at the sender,
    its application chunks, and the chunks it was cut into for the network.

    A [CSocket *] key is an integer, NULL is [None].  The getters that insert
    a zero for a missing key are reads with default zero: every access goes
    through them, so the inserted zero is never seen.  [iovec]s are the bytes
    they point to.  Redundancy re-evaluation handles belong to the instruments
    library; only whether one is set is kept.  Times are passed in. *)

From S2P Require Import Prelude Labels Scheduling Irob Control.

Abbreviation csock_key := (option Z).

Record PendingSenderIROB := SenderIROB {
  sbase : IrobCore;
  resume_handler : option Z;             (* function pointer, NULL is None *)
  rh_arg : Z;
  announcements : gmap csock_key bool;
  end_announcements : gmap csock_key bool;
  acked : bool;
  next_seqnos_to_send : gmap csock_key Z;
  sent_chunks : list irob_chunk_data;
  resend_chunks : list irob_chunk_data;  (* std::set under operator< *)
  num_bytes : Z;                         (* size_t *)
  irob_offsets : gmap csock_key Z;
  send_on_all_networks : bool;
  sending_ifaces : gset (Z * Z);
  reevaluated : bool;
  reeval_handle : option Z;
  last_send_time : timeval
}.

Definition set_sbase (f : IrobCore -> IrobCore) (p : PendingSenderIROB) : PendingSenderIROB :=
  SenderIROB (f (sbase p)) (resume_handler p) (rh_arg p) (announcements p)
    (end_announcements p) (acked p) (next_seqnos_to_send p) (sent_chunks p) (resend_chunks p)
    (num_bytes p) (irob_offsets p) (send_on_all_networks p) (sending_ifaces p) (reevaluated p)
    (reeval_handle p) (last_send_time p).
Definition set_announcements (x y : gmap csock_key bool) (p : PendingSenderIROB)
    : PendingSenderIROB :=
  SenderIROB (sbase p) (resume_handler p) (rh_arg p) x y (acked p) (next_seqnos_to_send p)
    (sent_chunks p) (resend_chunks p) (num_bytes p) (irob_offsets p) (send_on_all_networks p)
    (sending_ifaces p) (reevaluated p) (reeval_handle p) (last_send_time p).
Definition set_acked (b : bool) (p : PendingSenderIROB) : PendingSenderIROB :=
  SenderIROB (sbase p) (resume_handler p) (rh_arg p) (announcements p) (end_announcements p) b
    (next_seqnos_to_send p) (sent_chunks p) (resend_chunks p) (num_bytes p) (irob_offsets p)
    (send_on_all_networks p) (sending_ifaces p) (reevaluated p) (reeval_handle p)
    (last_send_time p).
Definition set_sent (seqnos offsets : gmap csock_key Z) (sent : list irob_chunk_data)
    (t : timeval) (p : PendingSenderIROB) : PendingSenderIROB :=
  SenderIROB (sbase p) (resume_handler p) (rh_arg p) (announcements p) (end_announcements p)
    (acked p) seqnos sent (resend_chunks p) (num_bytes p) offsets (send_on_all_networks p)
    (sending_ifaces p) (reevaluated p) (reeval_handle p) t.
Definition set_resend (l : list irob_chunk_data) (p : PendingSenderIROB) : PendingSenderIROB :=
  SenderIROB (sbase p) (resume_handler p) (rh_arg p) (announcements p) (end_announcements p)
    (acked p) (next_seqnos_to_send p) (sent_chunks p) l (num_bytes p) (irob_offsets p)
    (send_on_all_networks p) (sending_ifaces p) (reevaluated p) (reeval_handle p)
    (last_send_time p).
Definition set_num_bytes (n : Z) (p : PendingSenderIROB) : PendingSenderIROB :=
  SenderIROB (sbase p) (resume_handler p) (rh_arg p) (announcements p) (end_announcements p)
    (acked p) (next_seqnos_to_send p) (sent_chunks p) (resend_chunks p) n (irob_offsets p)
    (send_on_all_networks p) (sending_ifaces p) (reevaluated p) (reeval_handle p)
    (last_send_time p).
Definition set_networks (all : bool) (ifaces : gset (Z * Z)) (p : PendingSenderIROB)
    : PendingSenderIROB :=
  SenderIROB (sbase p) (resume_handler p) (rh_arg p) (announcements p) (end_announcements p)
    (acked p) (next_seqnos_to_send p) (sent_chunks p) (resend_chunks p) (num_bytes p)
    (irob_offsets p) all ifaces (reevaluated p) (reeval_handle p) (last_send_time p).
Definition set_reeval (b : bool) (h : option Z) (p : PendingSenderIROB) : PendingSenderIROB :=
  SenderIROB (sbase p) (resume_handler p) (rh_arg p) (announcements p) (end_announcements p)
    (acked p) (next_seqnos_to_send p) (sent_chunks p) (resend_chunks p) (num_bytes p)
    (irob_offsets p) (send_on_all_networks p) (sending_ifaces p) b h (last_send_time p).

Implicit Types (p : PendingSenderIROB) (csock : csock_key) (seqno off len : Z).

Definition sender_new (id : Z) (deps_array : list Z) (data : list byte) (labels : Z)
    (rh : option Z) (arg : Z) (now : timeval) : PendingSenderIROB :=
  SenderIROB (core_new id deps_array data labels) rh arg ∅ ∅ false ∅ [] []
    (Z.of_nat (length data)) ∅ false ∅ false None now.

(** [add_chunk] also writes the chunk's seqno and offset. *)
Definition sender_add_chunk p (c : irob_chunk_data) : bool * PendingSenderIROB :=
  if complete (sbase p) then (false, p)
  else
    let c := chunk_set_offset (num_bytes p)
               (chunk_set_seqno (Z.of_nat (length (chunks (sbase p)))) c) in
    (true, set_num_bytes (to_size_t (num_bytes p + ch_datalen c))
             (set_sbase (set_chunks (fun l => l ++ [c])) p)).

(** [freeReevaluation]: cancels or frees the handle, and forgets it. *)
Definition freeReevaluation p : PendingSenderIROB := set_reeval (reevaluated p) None p.
Definition ack p : PendingSenderIROB := freeReevaluation (set_acked true p).
Definition is_acked p : bool := acked p.

Definition expected_bytes p : Z := sum_chunks (chunks (sbase p)).
Definition all_bytes_chunked p : bool := sum_chunks (sent_chunks p) =? expected_bytes p.
Definition num_sender_chunks p : Z := Z.of_nat (length (sent_chunks p)).

(** [std::upper_bound] by offset: the first position whose offset is greater. *)
Fixpoint upper_bound (off : Z) (l : list irob_chunk_data) : nat :=
  match l with
  | [] => 0%nat
  | c :: l => if off <? ch_offset c then 0%nat else S (upper_bound off l)
  end.

(** The iterator is a position; [*(it - 1)] is undefined at the beginning. *)
Definition find_app_chunk (l : list irob_chunk_data) (off : Z) : outcome nat :=
  let it := upper_bound off l in
  match l with
  | [] => Ret it
  | _ =>
      match it with
      | O => Trap UndefinedBehaviour
      | S j =>
          access (l !! j) ≫= fun target =>
          if (ch_offset target <=? off) &&
             (off <? to_size_t (ch_offset target + ch_datalen target))
          then Ret j else Ret it
      end
  end.

(** The gathering loop, over the chunks from the iterator on. *)
Fixpoint gather (l : list irob_chunk_data) (cur_chunk_offset gathered len : Z)
    (data : list (list byte)) : Z * list (list byte) :=
  match l with
  | [] => (gathered, data)
  | c :: l =>
      if gathered <? len then
        let bytes := ch_datalen c - cur_chunk_offset in
        let bytes := if len <? bytes + gathered then len - gathered else bytes in
        let buf := take (Z.to_nat bytes) (drop (Z.to_nat cur_chunk_offset) (chunk_bytes c)) in
        gather l 0 (gathered + bytes) len (data ++ [buf])
      else (gathered, data)
  end.

Definition get_bytes_internal p off len : outcome (Z * list (list byte)) :=
  find_app_chunk (chunks (sbase p)) off ≫= fun it =>
  match chunks (sbase p) !! it with
  | None => Ret (0, [])
  | Some c =>
      find_app_chunk (sent_chunks p) off ≫= fun sent_it =>
      (match sent_chunks p !! sent_it with
       | Some s =>
           assert_ (off =? ch_offset s) ≫= fun _ => Ret (to_long (ch_datalen s))
       | None => Ret len
       end) ≫= fun len =>
      Ret (gather (drop it (chunks (sbase p))) (to_long (off - ch_offset c)) 0 len [])
  end.

(** Without redundancy all connections share one position. *)
Definition null_index_if_single_sending p csock : csock_key :=
  if send_on_all_networks p then csock else None.

Definition get_irob_offset p csock : Z :=
  default 0 (irob_offsets p !! null_index_if_single_sending p csock).

Definition get_next_seqno_to_send p csock : outcome Z :=
  let seqno := default 0 (next_seqnos_to_send p !! null_index_if_single_sending p csock) in
  assert_ (seqno <=? Z.of_nat (length (sent_chunks p))) ≫= fun _ => Ret seqno.

Definition num_ready_bytes p csock : Z :=
  to_size_t (expected_bytes p - get_irob_offset p csock).

Definition add_sent_chunk p csock len (now : timeval) : outcome PendingSenderIROB :=
  get_next_seqno_to_send p csock ≫= fun seqno =>
  let key := null_index_if_single_sending p csock in
  let off := get_irob_offset p csock in
  let seqnos := <[key := to_size_t (seqno + 1)]> (next_seqnos_to_send p) in
  let offsets := <[key := to_size_t (off + len)]> (irob_offsets p) in
  let size := Z.of_nat (length (sent_chunks p)) in
  assert_ (seqno <=? size) ≫= fun _ =>
  if seqno =? size then
    let c := Chunk (irob_id (sbase p)) seqno off (to_size_t len) None in
    Ret (set_sent seqnos offsets (sent_chunks p ++ [c]) now p)
  else
    access (sent_chunks p !! Z.to_nat seqno) ≫= fun s =>
    assert_ (ch_offset s =? off) ≫= fun _ =>
    assert_ (to_long (ch_datalen s) =? len) ≫= fun _ =>
    Ret (set_sent seqnos offsets (sent_chunks p) now p).

(** The bytes to send next, with their length, seqno and offset. *)
Record ready_bytes := Ready {
  rb_len : Z; rb_seqno : Z; rb_offset : Z; rb_data : list (list byte)
}.

Definition get_ready_bytes p csock (bytes_requested : Z) (now : timeval)
    : outcome (ready_bytes * PendingSenderIROB) :=
  let bytes_requested :=
    if bytes_requested <=? 0 then to_long (num_bytes p - get_irob_offset p csock)
    else bytes_requested in
  match resend_chunks p with
  | c :: rest =>
      let p := set_resend rest p in
      let len := to_long (ch_datalen c) in
      get_bytes_internal p (ch_offset c) len ≫= fun '(len', data) =>
      assert_ (len' =? len) ≫= fun _ =>
      Ret (Ready len' (ch_seqno c) (ch_offset c) data, p)
  | [] =>
      get_next_seqno_to_send p csock ≫= fun seqno =>
      let off := get_irob_offset p csock in
      get_bytes_internal p off bytes_requested ≫= fun '(len, data) =>
      if len =? 0 then Ret (Ready 0 seqno off data, p)
      else
        add_sent_chunk p csock len now ≫= fun p' =>
        Ret (Ready len seqno off data, p')
  end.

(** The chunk this connection sent last, in network byte order; [None] when
    there is none and the caller's chunk is left alone. *)
Definition get_last_sent_chunk_htonl p csock
    : outcome (option (irob_chunk_data * list (list byte))) :=
  get_next_seqno_to_send p csock ≫= fun n =>
  let seqno := to_int n in
  if bool_decide (sent_chunks p = []) || (seqno =? 0) then Ret None
  else
    access (sent_chunks p !! Z.to_nat (seqno - 1)) ≫= fun c =>
    get_bytes_internal p (ch_offset c) (to_long (ch_datalen c)) ≫= fun '(_, data) =>
    Ret (Some (Chunk (htonl (ch_id c)) (htonl (ch_seqno c)) (htonl (ch_offset c))
                 (htonl (ch_datalen c)) None, data)).

Definition mark_not_received p seqno : outcome PendingSenderIROB :=
  if Z.of_nat (length (sent_chunks p)) <? seqno then Ret p
  else
    access (sent_chunks p !! Z.to_nat seqno) ≫= fun c =>
    Ret (set_resend (OrdSet.insert chunk_lt c (resend_chunks p)) p).

(** [for (int i = next_chunk; i < (int)size; ++i) mark_not_received((u_long)i)];
    the fuel is the number of iterations. *)
Fixpoint mark_from (fuel : nat) (i : Z) p : outcome PendingSenderIROB :=
  match fuel with
  | O => Ret p
  | S fuel => mark_not_received p (to_size_t i) ≫= fun p' => mark_from fuel (i + 1) p'
  end.
Definition mark_drop_point p (next_chunk : Z) : outcome PendingSenderIROB :=
  mark_from (Z.to_nat (to_int (Z.of_nat (length (sent_chunks p))) - next_chunk)) next_chunk p.

Definition markSentOn (local_ip remote_ip : Z) p : PendingSenderIROB :=
  set_networks (send_on_all_networks p) ({[(local_ip, remote_ip)]} ∪ sending_ifaces p) p.

Definition matches (expected actual : Z) : bool := (expected =? 0) || (expected =? actual).
Definition wasSentOn (local_ip remote_ip : Z) p : bool :=
  if (local_ip =? 0) && (remote_ip =? 0) then true
  else existsb (fun '(l, r) => matches local_ip l && matches remote_ip r)
         (elements (sending_ifaces p)).

Definition was_announced p csock : bool :=
  default false (announcements p !! null_index_if_single_sending p csock).
Definition end_was_announced p csock : bool :=
  default false (end_announcements p !! null_index_if_single_sending p csock).
Definition mark_announcement_sent csock p : PendingSenderIROB :=
  set_announcements (<[null_index_if_single_sending p csock := true]> (announcements p))
    (end_announcements p) p.
Definition mark_end_announcement_sent csock p : PendingSenderIROB :=
  set_announcements (announcements p)
    (<[null_index_if_single_sending p csock := true]> (end_announcements p)) p.

Definition get_thunk p : option Z * Z := (resume_handler p, rh_arg p).
Definition mark_send_on_all_networks p : PendingSenderIROB :=
  set_networks true (sending_ifaces p) p.
Definition should_send_on_all_networks p : bool := send_on_all_networks p.

(** [get_total_network_bytes]; [hdr_size] is [sizeof(CMMSocketControlHdr)]. *)
Definition get_total_network_bytes (hdr_size : Z) p : Z :=
  foldl (fun bytes c => to_size_t (bytes + (ch_datalen c + hdr_size)))
    (to_size_t (hdr_size * 2 + Z.of_nat (size (deps (sbase p))) * 8)) (sent_chunks p).

Definition alreadyReevaluated p : bool := reevaluated p.
Definition setScheduledReevaluation (reeval : option Z) p : PendingSenderIROB :=
  set_reeval true reeval p.
Definition onReevaluationDone p : PendingSenderIROB := freeReevaluation p.

(** * The sender's lattice objects

    The lattice of a sender makes placeholders of the base class, so an object
    is either a base-class placeholder or a sender IROB. *)

Inductive sender_obj :=
| BaseIrob (c : IrobCore)
| SenderIrob (p : PendingSenderIROB).

(** The inherited [subsume], with the overridden [add_chunk]. *)
Definition sender_subsume p (other : IrobCore) : PendingSenderIROB :=
  let p := set_sbase (set_dependents (fun d => d ∪ dependents other)) p in
  let p := foldl (fun p c => snd (sender_add_chunk p c)) p (chunks other) in
  set_sbase (set_complete (complete other)) p.

Definition sender_obj_core (o : sender_obj) : IrobCore :=
  match o with BaseIrob c => c | SenderIrob p => sbase p end.

#[export] Instance sender_IrobOps : IrobOps sender_obj := {
  core := sender_obj_core;
  upd_core f o :=
    match o with
    | BaseIrob c => BaseIrob (f c)
    | SenderIrob p => SenderIrob (set_sbase f p)
    end;
  subsume o other :=
    match o with
    | BaseIrob c => Ret (BaseIrob (core_subsume c (sender_obj_core other)))
    | SenderIrob p => Ret (SenderIrob (sender_subsume p (sender_obj_core other)))
    end;
  make_placeholder id := BaseIrob (core_placeholder id)
}.

(** [dynamic_cast<PendingSenderIROB*>]. *)
Definition as_sender (o : sender_obj) : option PendingSenderIROB :=
  match o with SenderIrob p => Some p | BaseIrob _ => None end.
