(* ===== verification/SenderSpec.v ===== *)
(** Correctness of the sender's IROB (SenderIrob.v): the chunks it hands to the
    connections cut the application's bytes without gap or overlap, whichever
    connection asks and however much it asks for, and no assertion fails.

    [sender_ok] is the invariant; [get_ready_bytes_spec] the functional
    behaviour of the one operation the connections use to get data. *)

From S2P Require Import Prelude Irob Chunks Control Scheduling SenderIrob.

Implicit Types (p : PendingSenderIROB) (csock : csock_key).

(** The application's bytes. *)
Definition app_data p : list byte := bytes_of_chunks (chunks (sbase p)).

(** How far a connection has got: its next seqno and offset agree with the
    chunks sent so far. *)
Definition position_ok (sent : list irob_chunk_data) (seqno off : Z) : Prop :=
  0 <= seqno <= Z.of_nat (length sent) /\ off = total_len (take (Z.to_nat seqno) sent).

Record sender_ok p : Prop := {
  so_app : layout 0 0 (chunks (sbase p));
  so_sized : Forall sized (chunks (sbase p));
  so_num : num_bytes p = total_len (chunks (sbase p));
  so_bound : num_bytes p < 2 ^ 63;
  so_sent : layout 0 0 (sent_chunks p);
  so_sent_pos : Forall (fun c => 0 < ch_datalen c) (sent_chunks p);
  so_ids : Forall (fun c => ch_id c = irob_id (sbase p)) (sent_chunks p);
  so_sent_le : total_len (sent_chunks p) <= num_bytes p;
  so_pos k : position_ok (sent_chunks p) (default 0 (next_seqnos_to_send p !! k))
               (default 0 (irob_offsets p !! k));
  so_resend : Forall (fun c => c ∈ sent_chunks p) (resend_chunks p)
}.

(** * Finding a chunk by offset *)

Lemma upper_bound_layout n o l off i c :
  layout n o l -> l !! i = Some c -> (i < upper_bound off l)%nat <-> ch_offset c <= off.
Proof.
  revert n o i. induction l as [|d l IH]; intros n o i Hl Hi; [done|].
  pose proof (layout_lookup _ _ _ _ _ Hl Hi) as (_ & Hc & _).
  pose proof (layout_ok _ _ _ Hl) as Hok. pose proof Hl as (_ & Hd & Hd0 & Hl').
  assert (0 <= total_len (take i (d :: l))).
  { by apply total_len_nonneg, Forall_take. }
  simpl. destruct (Z.ltb_spec off (ch_offset d)).
  - split; [lia|]. intros. lia.
  - destruct i as [|i].
    + injection Hi as ->. split; [lia|]. lia.
    + pose proof (IH _ _ i Hl' Hi) as K. split; intros; [apply K; lia|]. apply K in H1. lia.
Qed.

Lemma upper_bound_le off l : (upper_bound off l <= length l)%nat.
Proof. induction l as [|c l IH]; simpl; [done|]. destruct (_ <? _); lia. Qed.

Lemma find_app_chunk_spec l off :
  layout 0 0 l -> total_len l < 2 ^ 63 -> 0 <= off ->
  (total_len l <= off /\ find_app_chunk l off = Ret (length l)) \/
  exists j c, find_app_chunk l off = Ret j /\ l !! j = Some c /\
    ch_offset c <= off < ch_offset c + ch_datalen c.
Proof.
  intros Hl Hb Hoff. unfold find_app_chunk. destruct (decide (l = [])) as [->|Hne].
  { left. by split. }
  assert (forall (A : Type) (a b : A), match l with [] => a | _ => b end = b) as Hcase.
  { intros. by destruct l. }
  rewrite Hcase. destruct (upper_bound off l) as [|j] eqn:Eu.
  { destruct l as [|d l]; [done|]. pose proof Hl as (_ & Hd & _).
    pose proof (upper_bound_layout 0 0 (d :: l) off 0 d Hl eq_refl) as K. lia. }
  pose proof (upper_bound_le off l) as Hle.
  destruct (lookup_lt_is_Some_2 l j ltac:(lia)) as [c Hc]. rewrite Hc.
  cbn [access mbind outcome_bind].
  pose proof (proj1 (upper_bound_layout 0 0 l off j c Hl Hc) ltac:(lia)) as Hco.
  destruct (layout_lookup _ _ _ _ _ Hl Hc) as (_ & Eo & Hd0).
  pose proof (layout_end _ _ _ _ _ Hl Hc) as Hend.
  rewrite (proj2 (Z.leb_le _ _) Hco), to_size_t_small.
  2:{ pose proof (total_len_nonneg (take j l) (Forall_take _ _ _ (layout_ok _ _ _ Hl))). lia. }
  simpl. destruct (Z.ltb_spec off (ch_offset c + ch_datalen c)) as [Hlt|Hge].
  { right. by exists j, c. }
  left. destruct (decide (S j < length l)%nat) as [Hj|Hj].
  - destruct (lookup_lt_is_Some_2 l (S j) Hj) as [c' Hc'].
    destruct (layout_lookup _ _ _ _ _ Hl Hc') as (_ & Eo' & _).
    rewrite (total_len_take_S _ _ _ Hc) in Eo'.
    pose proof (proj2 (upper_bound_layout 0 0 l off (S j) c' Hl Hc') ltac:(lia)). lia.
  - split; [|f_equal; lia]. pose proof (total_len_take_S _ _ _ Hc) as E.
    rewrite total_len_take_all in E by lia. lia.
Qed.

(** * Gathering bytes *)

(** [gather] from a position inside the first chunk: as many bytes as asked
    for, or all that is left. *)
Lemma gather_spec l cur g len data :
  Forall sized l -> Forall chunk_ok l -> 0 <= cur -> 0 <= g <= len ->
  (l = [] \/ exists c l', l = c :: l' /\ cur <= ch_datalen c) ->
  let n := Z.min (len - g) (Z.max 0 (total_len l - cur)) in
  fst (gather l cur g len data) = g + n /\
  concat (snd (gather l cur g len data)) = concat data ++ slice cur n (bytes_of_chunks l).
Proof.
  revert cur g data. induction l as [|c l IH]; intros cur g data Hs Hok Hcur Hg Hfirst n.
  { assert (n = 0) as -> by (unfold n, total_len; simpl; lia).
    unfold slice. simpl. rewrite app_nil_r. split; [lia|done]. }
  destruct Hfirst as [?|(c' & l' & [= <- <-] & Hcc)]; [done|].
  apply Forall_cons in Hs as [Hc Hs]. apply Forall_cons in Hok as [Hc0 Hok].
  pose proof (total_len_nonneg l Hok) as Ht. unfold sized in Hc.
  cbn [gather]. unfold n. rewrite total_len_cons, bytes_of_chunks_cons.
  destruct (Z.ltb_spec g len) as [Hlt|Hge].
  2:{ replace (Z.min _ _) with 0 by lia. unfold slice. simpl. rewrite app_nil_r. split; [lia|done]. }
  set (b := if len <? ch_datalen c - cur + g then len - g else ch_datalen c - cur).
  assert (b = Z.min (len - g) (ch_datalen c - cur)) as Eb.
  { unfold b. destruct (Z.ltb_spec len (ch_datalen c - cur + g)); lia. }
  clearbody b.
  destruct (IH 0 (g + b) (data ++ [take (Z.to_nat b) (drop (Z.to_nat cur) (chunk_bytes c))]))
    as [I1 I2]; try done; try lia.
  { destruct l as [|d l]; [by left|]. right. apply Forall_cons in Hok as [? _].
    unfold chunk_ok in *. eauto. }
  rewrite I1, I2. split; [lia|]. rewrite concat_app. simpl. rewrite app_nil_r, <- app_assoc.
  f_equal. unfold slice. rewrite drop_app_le by lia.
  replace (Z.to_nat (Z.min (len - g) (Z.max 0 (ch_datalen c + total_len l - cur)))) with
    (Z.to_nat b + Z.to_nat (Z.min (len - (g + b)) (Z.max 0 (total_len l - 0))))%nat by lia.
  destruct (Z.le_gt_cases (len - g) (ch_datalen c - cur)) as [H1|H1].
  - replace (Z.min (len - (g + b)) _) with 0 by lia. simpl. rewrite app_nil_r, Nat.add_0_r.
    rewrite take_app_le; [done|]. rewrite length_drop. lia.
  - rewrite (take_ge (drop _ (chunk_bytes c))) by (rewrite length_drop; lia).
    rewrite take_app_add' by (rewrite length_drop; lia). done.
Qed.

(** What [get_bytes_internal] returns at an offset inside the data: the bytes
    from there, up to the length asked for; at the start of a chunk already
    sent, exactly that chunk. *)
Lemma get_bytes_internal_spec p off len :
  sender_ok p -> 0 <= off < num_bytes p -> 0 <= len ->
  (total_len (sent_chunks p) <= off \/
   exists k s, sent_chunks p !! k = Some s /\ ch_offset s = off) ->
  exists n data, get_bytes_internal p off len = Ret (n, data) /\
    concat data = slice off n (app_data p) /\
    (total_len (sent_chunks p) <= off -> n = Z.min len (num_bytes p - off)) /\
    (forall k s, sent_chunks p !! k = Some s -> ch_offset s = off -> n = ch_datalen s).
Proof.
  intros [Ha Hz Hn Hb Hs Hsp Hid Hsl _ _] Hoff Hlen Hsent. unfold get_bytes_internal, app_data.
  set (l := chunks (sbase p)) in *.
  destruct (find_app_chunk_spec l off Ha ltac:(lia) ltac:(lia)) as [[? _]|(j & c & -> & Hc & Hin)];
    [lia|]. cbn [mbind outcome_bind]. rewrite Hc.
  destruct (layout_lookup _ _ _ _ _ Ha Hc) as (_ & Eo & Hd0). simpl in Eo.
  pose proof (layout_ok _ _ _ Ha) as Hok.
  pose proof (total_len_nonneg _ (Forall_take _ j _ Hok)) as Ht0.
  rewrite (to_long_small (off - ch_offset c)) by lia.
  assert (forall len', 0 <= len' ->
    let r := gather (drop j l) (off - ch_offset c) 0 len' [] in
    fst r = Z.min len' (num_bytes p - off) /\
    concat (snd r) = slice off (Z.min len' (num_bytes p - off)) (bytes_of_chunks l)) as G.
  { intros len' Hl'. pose proof (total_len_take_drop l j) as Etd.
    destruct (gather_spec (drop j l) (off - ch_offset c) 0 len' []) as [G1 G2];
      try lia; [by apply Forall_drop|by apply Forall_drop| |].
    { right. rewrite (drop_S _ _ _ Hc). exists c, (drop (S j) l). split; [done|lia]. }
    replace (Z.min (len' - 0) _) with (Z.min len' (num_bytes p - off)) in * by lia.
    split; [lia|]. rewrite G2. simpl. unfold slice. f_equal.
    rewrite (drop_bytes_of_chunks l j off) by (done || lia). f_equal. lia. }
  pose proof (layout_ok _ _ _ Hs) as Hsok.
  destruct (find_app_chunk_spec (sent_chunks p) off Hs ltac:(lia) ltac:(lia))
    as [[Hge ->]|(k & s & -> & Hk & Hks)]; cbn [mbind outcome_bind].
  - rewrite (proj2 (lookup_ge_None _ _)) by done. cbn [mbind outcome_bind].
    destruct (G len Hlen) as [G1 G2]. destruct (gather _ _ _ _ _) as [n data]; simpl in *. subst n.
    eexists _, _. split; [done|]. split_and!; [done|done|].
    intros k s Hk Eoff. pose proof (layout_end _ _ _ _ _ Hs Hk).
    rewrite Forall_forall in Hsp. pose proof (Hsp s (list_elem_of_lookup_2 _ _ _ Hk)). 
    simpl in *. lia.
  - rewrite Hk.
    assert (forall k' s', sent_chunks p !! k' = Some s' -> ch_offset s' = off -> s' = s) as U.
    { intros k' s' Hk' E'. destruct (layout_lookup _ _ _ _ _ Hs Hk) as (_ & E1 & _).
      destruct (layout_lookup _ _ _ _ _ Hs Hk') as (_ & E2 & _).
      pose proof (total_len_take_S _ _ _ Hk) as T1. pose proof (total_len_take_S _ _ _ Hk') as T2.
      rewrite Forall_forall in Hsp. pose proof (Hsp s' (list_elem_of_lookup_2 _ _ _ Hk')) as P'.
      simpl in *. destruct (lt_eq_lt_dec k k') as [[Hlt| ->]|Hlt]; [|congruence|].
      - pose proof (total_len_take_le _ (S k) k' Hsok ltac:(lia)). lia.
      - pose proof (total_len_take_le _ (S k') k Hsok ltac:(lia)). lia. }
    pose proof (layout_end _ _ _ _ _ Hs Hk).
    destruct Hsent as [?|(k' & s' & Hk' & E')]; [lia|]. rewrite (U k' s' Hk' E') in E'.
    rewrite (proj2 (Z.eqb_eq _ _)) by done. cbn [assert_ mbind outcome_bind].
    rewrite to_long_small by lia.
    destruct (G (ch_datalen s) ltac:(lia)) as [G1 G2].
    destruct (gather _ _ _ _ _) as [n data]; simpl in *. subst n.
    replace (Z.min (ch_datalen s) (num_bytes p - off)) with (ch_datalen s) in * by lia.
    eexists _, _. split; [done|]. split_and!; [done|lia|].
    intros k2 s2 H2 E2. by rewrite (U k2 s2 H2 E2).
Qed.

(** * Handing out chunks *)

Lemma positive_length l :
  Forall (fun c => 0 < ch_datalen c) l -> Z.of_nat (length l) <= total_len l.
Proof.
  induction 1 as [|c l Hc Hl IH]; [done|]. rewrite total_len_cons. simpl length. lia.
Qed.

Lemma position_grow sent c seqno off :
  position_ok sent seqno off -> position_ok (sent ++ [c]) seqno off.
Proof.
  intros [H1 H2]. split; [rewrite length_app; lia|]. rewrite take_app_le; [done|lia].
Qed.

(** The position a connection is at, and that it is at a chunk boundary. *)
Lemma position_boundary p csock :
  sender_ok p ->
  exists seqno, get_next_seqno_to_send p csock = Ret seqno /\
    0 <= seqno <= Z.of_nat (length (sent_chunks p)) /\
    get_irob_offset p csock = total_len (take (Z.to_nat seqno) (sent_chunks p)) /\
    0 <= get_irob_offset p csock <= num_bytes p /\
    (forall s, sent_chunks p !! Z.to_nat seqno = Some s -> ch_offset s = get_irob_offset p csock).
Proof.
  intros [Ha Hz Hn Hb Hs Hsp Hid Hsl Hp _].
  specialize (Hp (null_index_if_single_sending p csock)) as [P1 P2].
  unfold get_next_seqno_to_send, get_irob_offset. cbv zeta.
  set (seqno := default 0 (next_seqnos_to_send p !! _)) in *.
  set (off := default 0 (irob_offsets p !! _)) in *.
  rewrite (proj2 (Z.leb_le _ _)) by lia. exists seqno.
  pose proof (layout_ok _ _ _ Hs) as Hok.
  pose proof (total_len_nonneg _ (Forall_take _ (Z.to_nat seqno) _ Hok)).
  pose proof (total_len_take_le _ (Z.to_nat seqno) (length (sent_chunks p)) Hok ltac:(lia)) as T.
  rewrite (total_len_take_all _ (length _)) in T by done. split_and!; try done; try lia.
  intros s Hk. destruct (layout_lookup _ _ _ _ _ Hs Hk) as (_ & E & _). lia.
Qed.

(** The two ways a connection moves on: over a chunk another connection has
    already cut, or by cutting a new one. *)
Lemma add_sent_chunk_spec p csock len now :
  sender_ok p -> 0 < len -> get_irob_offset p csock + len <= num_bytes p ->
  (forall s, sent_chunks p !! Z.to_nat (default 0 (next_seqnos_to_send p !!
     null_index_if_single_sending p csock)) = Some s -> ch_datalen s = len) ->
  exists p' seqno s, get_next_seqno_to_send p csock = Ret seqno /\
    add_sent_chunk p csock len now = Ret p' /\ sender_ok p' /\
    sbase p' = sbase p /\ resend_chunks p' = resend_chunks p /\
    get_irob_offset p' csock = get_irob_offset p csock + len /\
    (exists new, sent_chunks p' = sent_chunks p ++ new) /\
    sent_chunks p' !! Z.to_nat seqno = Some s /\
    ch_offset s = get_irob_offset p csock /\ ch_datalen s = len.
Proof.
  intros Hok Hlen Hfit Hsame.
  destruct (position_boundary p csock Hok) as (seqno & Eseq & Hseq & Eoff & Hoff & Hbd).
  pose proof Hok as [Ha Hz Hn Hb Hs Hsp Hid Hsl Hp Hr].
  assert (default 0 (next_seqnos_to_send p !! null_index_if_single_sending p csock) = seqno) as Ed.
  { unfold get_next_seqno_to_send in Eseq. destruct (_ <=? _); [|done]. by injection Eseq. }
  rewrite Ed in Hsame. pose proof (positive_length _ Hsp) as Hlenle.
  set (key := null_index_if_single_sending p csock) in *.
  set (off := get_irob_offset p csock) in *.
  unfold add_sent_chunk. rewrite Eseq. cbn [mbind outcome_bind]. fold key. fold off.
  rewrite (proj2 (Z.leb_le _ _)) by lia. cbn [assert_ mbind outcome_bind].
  rewrite !to_size_t_small by lia.
  destruct (Z.eqb_spec seqno (Z.of_nat (length (sent_chunks p)))) as [E|E].
  - assert (off = total_len (sent_chunks p)) as Eo.
    { rewrite Eoff. apply total_len_take_all. lia. }
    set (c := Chunk (irob_id (sbase p)) seqno off len None).
    eexists _, seqno, c. split; [done|]. split; [done|].
    assert (forall k, position_ok (sent_chunks p ++ [c])
      (default 0 (<[key:=seqno + 1]> (next_seqnos_to_send p) !! k))
      (default 0 (<[key:=off + len]> (irob_offsets p) !! k))) as Hp'.
    { intros k. rewrite !lookup_insert. case_decide.
      - simpl. split; [rewrite length_app; simpl; lia|].
        rewrite take_ge by (rewrite length_app; simpl; lia).
        rewrite total_len_app. unfold total_len at 2. simpl. lia.
      - by apply position_grow. }
    split_and!; try done; simpl.
    + split; simpl; try done.
      * apply layout_snoc. split; [done|]. simpl. lia.
      * apply Forall_app. split; [done|]. by apply Forall_singleton.
      * apply Forall_app. split; [done|]. by apply Forall_singleton.
      * rewrite total_len_app. unfold total_len at 2. simpl. lia.
      * eapply Forall_impl; [exact Hr|]. intros x Hx. simpl. apply elem_of_app. by left.
    + unfold get_irob_offset. simpl. fold key. unfold null_index_if_single_sending. simpl.
      fold (null_index_if_single_sending p csock). fold key. by rewrite lookup_insert_eq.
    + eauto.
    + rewrite E, Nat2Z.id. by rewrite list_lookup_middle.
  - destruct (lookup_lt_is_Some_2 (sent_chunks p) (Z.to_nat seqno) ltac:(lia)) as [s Hk].
    rewrite Hk. cbn [access mbind outcome_bind].
    pose proof (Hbd s Hk) as Es. pose proof (Hsame s Hk) as El.
    pose proof (layout_end _ _ _ _ _ Hs Hk).
    rewrite Es, Z.eqb_refl. cbn [assert_ mbind outcome_bind].
    rewrite El, to_long_small, Z.eqb_refl by lia. cbn [assert_ mbind outcome_bind].
    eexists _, seqno, s. split; [done|]. split; [done|].
    assert (forall k, position_ok (sent_chunks p)
      (default 0 (<[key:=seqno + 1]> (next_seqnos_to_send p) !! k))
      (default 0 (<[key:=off + len]> (irob_offsets p) !! k))) as Hp'.
    { intros k. rewrite !lookup_insert. case_decide; [|apply Hp]. simpl.
      split; [lia|]. replace (Z.to_nat (seqno + 1)) with (S (Z.to_nat seqno)) by lia.
      rewrite (total_len_take_S _ _ _ Hk). lia. }
    split_and!; try done; simpl.
    + unfold get_irob_offset. simpl. unfold null_index_if_single_sending. simpl.
      fold (null_index_if_single_sending p csock). fold key. by rewrite lookup_insert_eq.
    + exists []. by rewrite app_nil_r.
Qed.

(** The behaviour of [get_ready_bytes], with what it leaves alone. *)
Lemma get_ready_bytes_ok p csock requested now :
  sender_ok p -> requested < 2 ^ 63 ->
  exists r p', get_ready_bytes p csock requested now = Ret (r, p') /\
    sender_ok p' /\ sbase p' = sbase p /\
    (exists new, sent_chunks p' = sent_chunks p ++ new) /\
    concat (rb_data r) = slice (rb_offset r) (rb_len r) (app_data p) /\
    ((rb_len r = 0 /\ rb_data r = []) \/
     exists s, sent_chunks p' !! Z.to_nat (rb_seqno r) = Some s /\ ch_seqno s = rb_seqno r /\
       ch_offset s = rb_offset r /\ ch_datalen s = rb_len r) /\
    (resend_chunks p = [] ->
     (rb_len r = 0 <-> get_irob_offset p csock = num_bytes p) /\
     get_irob_offset p' csock = get_irob_offset p csock + rb_len r).
Proof.
  intros Hok Hreq.
  destruct (position_boundary p csock Hok) as (seqno & Eseq & Hseq & Eoff & Hoff & Hbd).
  pose proof Hok as [Ha Hz Hn Hb Hs Hsp Hid Hsl Hp Hr]. unfold get_ready_bytes. cbv zeta.
  destruct (resend_chunks p) as [|c rest] eqn:Er.
  - rewrite Eseq. cbn [mbind outcome_bind].
    set (off := get_irob_offset p csock) in *.
    rewrite (to_long_small (num_bytes p - off)) by lia.
    set (len := if requested <=? 0 then num_bytes p - off else requested).
    destruct (decide (off = num_bytes p)) as [E|E].
    + assert (get_bytes_internal p off len = Ret (0, [])) as ->.
      { unfold get_bytes_internal.
        destruct (find_app_chunk_spec _ off Ha ltac:(lia) ltac:(lia)) as [[_ ->]|(j & c & _ & Hc & ?)].
        - cbn [mbind outcome_bind]. by rewrite (proj2 (lookup_ge_None _ _)).
        - pose proof (layout_end _ _ _ _ _ Ha Hc). lia. }
      cbn [mbind outcome_bind]. eexists _, p. simpl. split; [done|].
      split_and!; try done; [exists []; by rewrite app_nil_r|by left|].
      intros _. split; [done|]. fold off. simpl. lia.
    + assert (0 < len) as Hlen.
      { unfold len. destruct (Z.leb_spec requested 0); lia. }
      destruct (get_bytes_internal_spec p off len Hok ltac:(lia) ltac:(lia))
        as (n & data & -> & Hdata & Hnew & Hold).
      { destruct (sent_chunks p !! Z.to_nat seqno) as [s|] eqn:Hk; [right; eauto|].
        apply lookup_ge_None in Hk. left. rewrite Eoff, total_len_take_all by lia. lia. }
      cbn [mbind outcome_bind].
      assert (0 < n /\ off + n <= num_bytes p) as [Hn0 Hfit].
      { destruct (sent_chunks p !! Z.to_nat seqno) as [s|] eqn:Hk.
        - rewrite (Hold _ _ Hk (Hbd s eq_refl)). pose proof (layout_end _ _ _ _ _ Hs Hk).
          rewrite Forall_forall in Hsp. pose proof (Hsp s (list_elem_of_lookup_2 _ _ _ Hk)).
          pose proof (Hbd s eq_refl). simpl in *. lia.
        - apply lookup_ge_None in Hk. rewrite Hnew; [lia|].
          rewrite Eoff, total_len_take_all by lia. lia. }
      rewrite (proj2 (Z.eqb_neq n 0)) by lia.
      destruct (add_sent_chunk_spec p csock n now Hok Hn0 Hfit)
        as (p' & seqno' & s & Eseq' & -> & Hok' & Eb & Ere & Eo' & Hnew' & Hk & Hs1 & Hs2).
      { intros s Hk. unfold get_next_seqno_to_send in Eseq. destruct (_ <=? _); [|done].
        injection Eseq as Eseq. rewrite Eseq in Hk. symmetry. by apply (Hold _ _ Hk), Hbd. }
      rewrite Eseq in Eseq'. injection Eseq' as <-.
      cbn [mbind outcome_bind]. eexists _, p'. simpl. split; [done|].
      split_and!; try done; [right; exists s; split_and!; try done|].
      { destruct (layout_lookup _ _ _ _ _ (so_sent p' Hok') Hk) as (-> & _). simpl. lia. }
      intros _. fold off. simpl. split; [lia|done].
  - apply Forall_cons in Hr as [Hc Hr]. apply list_elem_of_lookup in Hc as [k Hk].
    pose proof (layout_lookup _ _ _ _ _ Hs Hk) as (Esq & Eof & Hd).
    pose proof (layout_end _ _ _ _ _ Hs Hk).
    rewrite Forall_forall in Hsp. pose proof (Hsp c (list_elem_of_lookup_2 _ _ _ Hk)) as Hc0.
    pose proof (total_len_nonneg _ (Forall_take _ k _ (layout_ok _ _ _ Hs))).
    simpl in *. rewrite to_long_small by lia.
    assert (sender_ok (set_resend rest p)) as Hok'.
    { split; simpl; try done. by apply Forall_forall. }
    destruct (get_bytes_internal_spec (set_resend rest p) (ch_offset c) (ch_datalen c) Hok')
      as (n & data & -> & Hdata & _ & Hold); simpl; [lia|lia|eauto|].
    rewrite (Hold k c Hk eq_refl) in *. cbn [mbind outcome_bind]. rewrite Z.eqb_refl.
    cbn [assert_ mbind outcome_bind]. eexists _, (set_resend rest p). simpl. split; [done|].
    split_and!; try done; [exists []; by rewrite app_nil_r|].
    right. exists c. split_and!; try done. simpl. by replace (Z.to_nat (ch_seqno c)) with k by lia.
Qed.

(** C19: Whatever connection asks and however many bytes it asks for,
    [get_ready_bytes] returns without failing an assertion; what it returns is a
    slice of the application's data that is exactly one chunk of the fixed
    cutting [sent_chunks], which is only ever extended; a connection gets
    nothing only when it has been given everything, and otherwise moves on by
    what it was given. *)
Theorem get_ready_bytes_spec p csock requested now :
  sender_ok p -> requested < 2 ^ 63 ->
  exists r p', get_ready_bytes p csock requested now = Ret (r, p') /\
    sender_ok p' /\ app_data p' = app_data p /\
    (exists new, sent_chunks p' = sent_chunks p ++ new) /\
    concat (rb_data r) = slice (rb_offset r) (rb_len r) (app_data p) /\
    (rb_len r = 0 \/
     exists s, sent_chunks p' !! Z.to_nat (rb_seqno r) = Some s /\
       ch_offset s = rb_offset r /\ ch_datalen s = rb_len r) /\
    (resend_chunks p = [] ->
     (rb_len r = 0 <-> get_irob_offset p csock = num_bytes p) /\
     get_irob_offset p' csock = get_irob_offset p csock + rb_len r).
Proof.
  intros Hok Hreq. destruct (get_ready_bytes_ok p csock requested now Hok Hreq)
    as (r & p' & E & Hok' & Eb & Hnew & Hdata & Hlen & H). exists r, p'. unfold app_data in *. rewrite Eb.
  split_and!; try done. destruct Hlen as [[? _]|(s & ? & _ & ?)]; [by left|right; by exists s].
Qed.

(** * The other operations keep the invariant *)

Lemma position_nil : position_ok [] 0 0.
Proof. by split. Qed.

Lemma sender_new_ok id ds data labels rh arg now :
  Z.of_nat (length data) < 2 ^ 63 -> sender_ok (sender_new id ds data labels rh arg now).
Proof.
  intros Hlen. unfold sender_new, core_new.
  destruct (Z.ltb_spec 0 (Z.of_nat (length data))) as [H|H]; split; simpl; try done; try lia;
    try (intros k; rewrite !lookup_empty; apply position_nil); unfold total_len; simpl; try lia.
  by apply Forall_singleton.
Qed.

Lemma sender_add_chunk_ok p c :
  sender_ok p -> sized c -> num_bytes p + ch_datalen c < 2 ^ 63 ->
  let '(b, p') := sender_add_chunk p c in
  sender_ok p' /\ b = negb (complete (sbase p)) /\
  app_data p' = app_data p ++ (if b then chunk_bytes c else []).
Proof.
  intros [Ha Hz Hn Hb Hs Hsp Hid Hsl Hp Hr] Hc Hbd. unfold sender_add_chunk.
  destruct (complete (sbase p)); simpl; [by rewrite app_nil_r|].
  pose proof (layout_total _ _ _ Ha). unfold sized in Hc.
  rewrite to_size_t_small by lia. split_and!; try done.
  - split; simpl; try done; try lia.
    + apply layout_snoc. simpl. split_and!; try done; lia.
    + apply Forall_app. split; [done|]. by apply Forall_singleton.
    + rewrite total_len_app. unfold total_len at 2. simpl. lia.
  - unfold app_data. simpl. rewrite bytes_of_chunks_app.
    unfold bytes_of_chunks at 2. simpl. by rewrite app_nil_r.
Qed.

(** Turning redundancy on starts every connection that has no position of its
    own at the beginning; the invariant covers every key, so it is kept. *)
Lemma mark_send_on_all_networks_ok p : sender_ok p -> sender_ok (mark_send_on_all_networks p).
Proof. intros []. by split. Qed.

Lemma ack_ok p : sender_ok p -> sender_ok (ack p).
Proof. intros []. by split. Qed.

Lemma chunk_lt_iff c d :
  chunk_lt c d = true <-> ch_id c < ch_id d \/ (ch_id c = ch_id d /\ ch_seqno c < ch_seqno d).
Proof. unfold chunk_lt. rewrite orb_true_iff, andb_true_iff, !Z.ltb_lt, Z.eqb_eq. done. Qed.

Lemma chunk_equivalent_iff c d :
  OrdSet.equivalent chunk_lt c d = true <-> ch_id c = ch_id d /\ ch_seqno c = ch_seqno d.
Proof.
  unfold OrdSet.equivalent. rewrite andb_true_iff, !negb_true_iff, <- !not_true_iff_false,
    !chunk_lt_iff. lia.
Qed.

(** Chunks of one IROB's cutting that compare equal are the same chunk. *)
Lemma sent_equivalent p c d :
  sender_ok p -> c ∈ sent_chunks p -> d ∈ sent_chunks p ->
  OrdSet.equivalent chunk_lt c d = true -> c = d.
Proof.
  intros [_ _ _ _ Hs _ Hid _ _ _] Hc Hd E. rewrite Forall_forall in Hid.
  pose proof (Hid c Hc). pose proof (Hid d Hd).
  apply list_elem_of_lookup in Hc as [i Hi], Hd as [j Hj].
  destruct (layout_lookup _ _ _ _ _ Hs Hi) as (Ei & _), (layout_lookup _ _ _ _ _ Hs Hj) as (Ej & _).
  apply chunk_equivalent_iff in E as [_ E]. assert (i = j) as -> by lia. congruence.
Qed.

(** A mark adds the chunk and nothing else. *)
Lemma mark_not_received_spec p seqno c :
  sender_ok p -> 0 <= seqno -> sent_chunks p !! Z.to_nat seqno = Some c ->
  exists p', mark_not_received p seqno = Ret p' /\ sender_ok p' /\
    sent_chunks p' = sent_chunks p /\ app_data p' = app_data p /\
    forall d, d ∈ resend_chunks p' <-> d = c \/ d ∈ resend_chunks p.
Proof.
  intros Hok Hn Hc. unfold mark_not_received. pose proof (lookup_lt_Some _ _ _ Hc).
  rewrite (proj2 (Z.ltb_ge _ _)) by lia. rewrite Hc. cbn [access mbind outcome_bind].
  eexists. split; [done|]. pose proof (list_elem_of_lookup_2 _ _ _ Hc) as Hin.
  pose proof Hok as [? ? ? ? ? ? ? ? ? Hr].
  split_and!; try done.
  - split; simpl; try done. by apply OrdSet.insert_Forall.
  - intros d. simpl. split; [apply OrdSet.insert_elem|].
    intros [->|Hd]; [|by apply OrdSet.insert_keeps].
    destruct (OrdSet.insert_present chunk_lt c (resend_chunks p)) as (y & Hy & [->|E]); [done|].
    assert (y ∈ sent_chunks p) as Hys.
    { apply OrdSet.insert_elem in Hy as [->|Hy]; [done|]. rewrite Forall_forall in Hr. by apply Hr. }
    by rewrite <- (sent_equivalent p c y Hok Hin Hys E) in Hy.
Qed.

(** A resend request for a chunk number is served, ignored or undefined:
    beyond the chunks sent so far by more than one it is ignored, but the number
    just past the last chunk reads past the end of the queue. *)
Theorem mark_not_received_bounds p seqno :
  0 <= seqno ->
  (mark_not_received p seqno = Trap UndefinedBehaviour <->
     seqno = Z.of_nat (length (sent_chunks p))) /\
  (Z.of_nat (length (sent_chunks p)) < seqno -> mark_not_received p seqno = Ret p).
Proof.
  intros Hn. unfold mark_not_received.
  destruct (Z.ltb_spec (Z.of_nat (length (sent_chunks p))) seqno) as [Hlt|Hge].
  - split; [|done]. split; [done|lia].
  - split; [|lia]. destruct (sent_chunks p !! Z.to_nat seqno) as [c|] eqn:Hc; simpl.
    + apply lookup_lt_Some in Hc. split; [done|lia].
    + apply lookup_ge_None in Hc. split; [lia|done].
Qed.

Lemma mark_from_spec fuel i p :
  sender_ok p -> 0 <= i -> i + Z.of_nat fuel = Z.of_nat (length (sent_chunks p)) ->
  Z.of_nat (length (sent_chunks p)) < 2 ^ 63 ->
  exists p', mark_from fuel i p = Ret p' /\ sender_ok p' /\
    sent_chunks p' = sent_chunks p /\ app_data p' = app_data p /\
    forall d, d ∈ resend_chunks p' <->
      (d ∈ sent_chunks p /\ i <= ch_seqno d) \/ d ∈ resend_chunks p.
Proof.
  revert i p. induction fuel as [|fuel IH]; intros i p Hok Hi Hf Hb; simpl.
  - exists p. split_and!; try done. intros d. split; [by right|].
    intros [[Hd Hge]|?]; [|done]. apply list_elem_of_lookup in Hd as [k Hk].
    destruct (layout_lookup _ _ _ _ _ (so_sent p Hok) Hk) as (E & _).
    apply lookup_lt_Some in Hk. lia.
  - rewrite to_size_t_small by lia.
    destruct (lookup_lt_is_Some_2 (sent_chunks p) (Z.to_nat i) ltac:(lia)) as [c Hc].
    destruct (mark_not_received_spec p i c Hok Hi Hc) as (p1 & -> & Hok1 & E1 & E2 & E3).
    cbn [mbind outcome_bind].
    destruct (IH (i + 1) p1 Hok1) as (p2 & -> & Hok2 & F1 & F2 & F3); [lia|rewrite E1; lia|by rewrite E1|].
    exists p2. split_and!; try done; [congruence|congruence|].
    intros d. rewrite F3, E1, E3.
    destruct (layout_lookup _ _ _ _ _ (so_sent p Hok) Hc) as (Ec & _). split.
    + intros [[? ?]|[->|?]]; [left; split; [done|lia]| |by right].
      left. split; [by eapply list_elem_of_lookup_2|lia].
    + intros [[Hd Hge]|?]; [|tauto]. destruct (decide (d = c)) as [->|Hne]; [tauto|].
      left. split; [done|]. apply list_elem_of_lookup in Hd as [k Hk].
      destruct (layout_lookup _ _ _ _ _ (so_sent p Hok) Hk) as (Ek & _).
      assert (k <> Z.to_nat i) by congruence. lia.
Qed.

(** After a report that the receiver has everything before chunk [n],
    exactly the chunks from [n] on join those to be sent again. *)
Theorem mark_drop_point_spec p n :
  sender_ok p -> 0 <= n -> Z.of_nat (length (sent_chunks p)) < 2 ^ 31 ->
  exists p', mark_drop_point p n = Ret p' /\ sender_ok p' /\
    sent_chunks p' = sent_chunks p /\ app_data p' = app_data p /\
    forall d, d ∈ resend_chunks p' <->
      (d ∈ sent_chunks p /\ n <= ch_seqno d) \/ d ∈ resend_chunks p.
Proof.
  intros Hok Hn Hb. unfold mark_drop_point. rewrite to_int_small by lia.
  destruct (Z.le_gt_cases n (Z.of_nat (length (sent_chunks p)))) as [Hle|Hgt].
  - apply mark_from_spec; try done; lia.
  - replace (Z.to_nat _) with 0%nat by lia. exists p. split_and!; try done.
    intros d. split; [by right|]. intros [[Hd Hge]|?]; [|done].
    apply list_elem_of_lookup in Hd as [k Hk].
    destruct (layout_lookup _ _ _ _ _ (so_sent p Hok) Hk) as (E & _).
    apply lookup_lt_Some in Hk. lia.
Qed.

(** * An IROB of five bytes, evaluated *)

Definition demo_time : timeval := Timeval 0 0.
Definition demo_sender : PendingSenderIROB :=
  sender_new 7 [] [Byte.x61; Byte.x62; Byte.x63; Byte.x64; Byte.x65] 0 None 0 demo_time.

Lemma demo_sender_ok : sender_ok demo_sender.
Proof. apply sender_new_ok. simpl. lia. Qed.

(** The same IROB after one connection has taken two bytes, then the rest. *)
Definition demo_sender_sent : PendingSenderIROB :=
  match get_ready_bytes demo_sender (Some 1) 2 demo_time with
  | Ret (_, p) =>
      match get_ready_bytes p (Some 1) 0 demo_time with Ret (_, p') => p' | _ => p end
  | _ => demo_sender
  end.

Lemma get_ready_bytes_witness :
  exists r p', get_ready_bytes demo_sender (Some 1) 2 demo_time = Ret (r, p') /\
    concat (rb_data r) = [Byte.x61; Byte.x62] /\ sender_ok p'.
Proof.
  destruct (get_ready_bytes_spec demo_sender (Some 1) 2 demo_time demo_sender_ok ltac:(lia))
    as (r & p' & E & Hok & _ & _ & Hd & _).
  exists r, p'. split; [exact E|]. split; [|exact Hok]. rewrite Hd.
  vm_compute in E. injection E as <- <-. vm_compute. reflexivity.
Defined.

Lemma demo_sender_sent_ok :
  sender_ok demo_sender_sent.
Proof.
  split; try (vm_compute; by repeat constructor); try (vm_compute; lia).
  - intros k. destruct (decide (k = None)) as [->|Hk].
    + split; vm_compute; [by split|done].
    + assert (next_seqnos_to_send demo_sender_sent = {[None := 2]}) as -> by (vm_compute; reflexivity).
      assert (irob_offsets demo_sender_sent = {[None := 5]}) as -> by (vm_compute; reflexivity).
      rewrite !lookup_singleton_ne by done. split; [simpl; vm_compute; by split|done].
Qed.

Lemma mark_not_received_witness :
  mark_not_received demo_sender_sent 2 = Trap UndefinedBehaviour.
Proof.
  apply (mark_not_received_bounds demo_sender_sent 2 ltac:(lia)). vm_compute. reflexivity.
Defined.

Lemma mark_drop_point_witness :
  exists p', mark_drop_point demo_sender_sent 1 = Ret p' /\
    Chunk 7 1 2 3 None ∈ resend_chunks p' /\ Chunk 7 0 0 2 None ∉ resend_chunks p'.
Proof.
  destruct (mark_drop_point_spec demo_sender_sent 1 demo_sender_sent_ok ltac:(lia))
    as (p' & E & _ & _ & _ & H); [vm_compute; reflexivity|].
  exists p'. split; [exact E|]. rewrite !H. split.
  - left. split; [apply (bool_decide_unpack _); vm_compute; exact I|simpl; lia].
  - intros [[_ K]|K]; [simpl in K; lia|].
    vm_compute in K. by apply elem_of_nil in K.
Defined.
