(* ===== verification/ReceiverIrob.v ===== *)
(** [PendingReceiverIROB] of pending_receiver_irob.h/.cpp: an IROB at the
    receiver, the chunks that have arrived, and how far the application has
    read.

    [is_complete] carries the code's assertions, so the operations that call it
    may trap; the receiver's [is_complete] hides the base class's one (it is
    not const), and the base class's [subsume] calls the overridden
    [add_chunk]. *)

From S2P Require Import Prelude Labels Irob.

Record PendingReceiverIROB := ReceiverIROB {
  rbase : IrobCore;
  roffset : Z;                         (* size_t: into the partial chunk *)
  partial_chunk : irob_chunk_data;
  rnum_bytes : Z;                      (* ssize_t *)
  rexpected_bytes : Z;                 (* ssize_t, -1 until End_IROB *)
  expected_chunks : Z;                 (* int, -1 until End_IROB *)
  recvd_bytes : Z;                     (* ssize_t *)
  recvd_chunks : Z;                    (* int *)
  released : bool
}.

Definition set_rbase (f : IrobCore -> IrobCore) (p : PendingReceiverIROB) : PendingReceiverIROB :=
  ReceiverIROB (f (rbase p)) (roffset p) (partial_chunk p) (rnum_bytes p) (rexpected_bytes p)
    (expected_chunks p) (recvd_bytes p) (recvd_chunks p) (released p).
Definition set_reading (off : Z) (partial : irob_chunk_data) (num : Z) (p : PendingReceiverIROB)
    : PendingReceiverIROB :=
  ReceiverIROB (rbase p) off partial num (rexpected_bytes p) (expected_chunks p)
    (recvd_bytes p) (recvd_chunks p) (released p).
Definition set_expected (bytes nchunks : Z) (p : PendingReceiverIROB) : PendingReceiverIROB :=
  ReceiverIROB (rbase p) (roffset p) (partial_chunk p) (rnum_bytes p) bytes nchunks
    (recvd_bytes p) (recvd_chunks p) (released p).
Definition set_received (num bytes nchunks : Z) (p : PendingReceiverIROB) : PendingReceiverIROB :=
  ReceiverIROB (rbase p) (roffset p) (partial_chunk p) num (rexpected_bytes p)
    (expected_chunks p) bytes nchunks (released p).
Definition set_released (b : bool) (p : PendingReceiverIROB) : PendingReceiverIROB :=
  ReceiverIROB (rbase p) (roffset p) (partial_chunk p) (rnum_bytes p) (rexpected_bytes p)
    (expected_chunks p) (recvd_bytes p) (recvd_chunks p) b.

Implicit Types (p other : PendingReceiverIROB) (c : irob_chunk_data).

Definition has_data (c : irob_chunk_data) : bool := bool_decide (is_Some (ch_data c)).

Definition all_chunks_complete p : bool := forallb has_data (chunks (rbase p)).

Definition r_is_complete p : outcome bool :=
  assert_ ((recvd_bytes p <=? rexpected_bytes p) || (rexpected_bytes p =? -1)) ≫= fun _ =>
  assert_ ((expected_chunks p =? -1) || (recvd_chunks p <=? expected_chunks p)) ≫= fun _ =>
  if negb (rexpected_bytes p =? recvd_bytes p) then Ret false
  else if negb (expected_chunks p =? recvd_chunks p) then Ret false
  else Ret ((rexpected_bytes p =? recvd_bytes p) && (expected_chunks p =? recvd_chunks p) &&
            all_chunks_complete p && complete (rbase p)).

Definition no_chunk : irob_chunk_data := chunk_zero.

(** The constructor from a message. *)
Definition receiver_new (id : Z) (deps_array : list Z) (data : list byte) (labels : Z)
    : outcome PendingReceiverIROB :=
  let datalen := Z.of_nat (length data) in
  let b := core_new id deps_array data labels in
  let p := if 0 <? datalen
           then ReceiverIROB b 0 no_chunk datalen datalen 1 datalen 1 false
           else ReceiverIROB b 0 no_chunk datalen (-1) (-1) 0 0 false in
  if datalen =? 0 then Ret p
  else r_is_complete p ≫= fun ok => assert_ ok ≫= fun _ => Ret p.

(** The constructor of placeholders. *)
Definition receiver_placeholder (id : Z) : PendingReceiverIROB :=
  ReceiverIROB (core_placeholder id) 0 no_chunk 0 (-1) (-1) 0 0 false.

Definition r_add_chunk p c : outcome (bool * PendingReceiverIROB) :=
  r_is_complete p ≫= fun done : bool =>
  if negb done then
    assert_ (rnum_bytes p =? recvd_bytes p) ≫= fun _ =>
    let seqno := ch_seqno c in
    if negb (expected_chunks p =? -1) && (to_size_t (expected_chunks p) <=? seqno)
    then Ret (false, p)
    else
      let p := if Z.of_nat (length (chunks (rbase p))) <=? seqno
               then set_rbase (set_chunks (resize_to (Z.to_nat (seqno + 1)) chunk_zero)) p
               else p in
      access (chunks (rbase p) !! Z.to_nat seqno) ≫= fun existing =>
      if has_data existing then
        if negb (ch_offset c =? ch_offset existing) || negb (ch_datalen c =? ch_datalen existing)
        then Ret (false, p) else Ret (true, p)
      else
        Ret (true,
          set_received (to_long (rnum_bytes p + ch_datalen c)) (to_long (recvd_bytes p + ch_datalen c))
            (to_int (recvd_chunks p + 1))
            (set_rbase (set_chunks (fun l => <[Z.to_nat seqno := c]> l)) p))
  else Ret (false, p).

(** The chunks of a placeholder, added one by one. *)
Fixpoint add_chunks p (l : list irob_chunk_data) : outcome PendingReceiverIROB :=
  match l with
  | [] => Ret p
  | c :: l => r_add_chunk p c ≫= fun '(_, p') => add_chunks p' l
  end.

Definition r_subsume p other : outcome PendingReceiverIROB :=
  let p := set_rbase (set_dependents (fun d => d ∪ dependents (rbase other))) p in
  add_chunks p (chunks (rbase other)) ≫= fun p =>
  let p := set_rbase (set_complete (complete (rbase other))) p in
  Ret (ReceiverIROB (rbase p) (roffset other) (partial_chunk other) (rnum_bytes other)
         (rexpected_bytes other) (expected_chunks other) (recvd_bytes other)
         (recvd_chunks other) (released p)).

Definition is_ready p : bool :=
  negb (placeholder (rbase p)) && bool_decide (deps (rbase p) = ∅).

(** The seqnos not received yet, of the slots and of the chunks announced
    beyond them. *)
Fixpoint missing_slots (i : Z) (l : list irob_chunk_data) : list Z :=
  match l with
  | [] => []
  | c :: l => if has_data c then missing_slots (i + 1) l else i :: missing_slots (i + 1) l
  end.
Definition get_missing_chunks p : list Z :=
  let n := Z.of_nat (length (chunks (rbase p))) in
  missing_slots 0 (chunks (rbase p)) ++
  (if negb (expected_chunks p =? -1) && (n <? to_size_t (expected_chunks p))
   then (fun i : nat => n + Z.of_nat i) <$> seq 0 (Z.to_nat (to_size_t (expected_chunks p) - n))
   else []).

Definition next_chunk_seqno p : Z := to_int (Z.of_nat (length (chunks (rbase p)))).

Definition has_been_released p : bool := released p.
Definition release_irob p : PendingReceiverIROB := set_released true p.
Definition seen_end p : bool := negb (rexpected_bytes p =? -1).

Definition r_finish p (expected_bytes num_chunks : Z) : outcome (bool * PendingReceiverIROB) :=
  r_is_complete p ≫= fun done : bool =>
  if done then Ret (false, p)
  else
    let p := set_rbase (set_complete true) p in
    if (rexpected_bytes p =? -1) || (expected_chunks p =? -1) then
      assert_ ((rexpected_bytes p =? -1) && (expected_chunks p =? -1)) ≫= fun _ =>
      let p := set_expected expected_bytes num_chunks p in
      if to_size_t num_chunks <? Z.of_nat (length (chunks (rbase p)))
      then Ret (false, p) else Ret (true, p)
    else
      assert_ ((rexpected_bytes p =? expected_bytes) && (expected_chunks p =? num_chunks))
        ≫= fun _ => Ret (false, p).

(** [memcpy] of [n] bytes of a chunk, from [off] on. *)
Definition copy_from c (off n : Z) : outcome (list byte) :=
  match ch_data c with
  | Some d => Ret (take (Z.to_nat n) (drop (Z.to_nat off) d))
  | None => if n =? 0 then Ret [] else Trap UndefinedBehaviour
  end.

Fixpoint read_chunks (l : list irob_chunk_data) (len : Z) : outcome (list byte) :=
  match l with
  | [] => Ret []
  | c :: l =>
      if 0 <? len then
        let bytes := Z.min len (ch_datalen c) in
        copy_from c 0 bytes ≫= fun b =>
        read_chunks l (len - bytes) ≫= fun rest => Ret (b ++ rest)
      else Ret []
  end.

(** [read_data]: the bytes copied to the buffer. *)
Definition read_data p (len : Z) : outcome (list byte) :=
  match ch_data (partial_chunk p) with
  | Some _ =>
      let bytes := Z.min len (to_size_t (ch_datalen (partial_chunk p) - roffset p)) in
      assert_ (0 <? bytes) ≫= fun _ =>
      copy_from (partial_chunk p) (roffset p) bytes ≫= fun b =>
      read_chunks (chunks (rbase p)) (len - bytes) ≫= fun rest => Ret (b ++ rest)
  | None => read_chunks (chunks (rbase p)) len
  end.

(** The loop of [remove_bytes]: what is left of the queue, the offset and the
    partial chunk, and how many bytes went. *)
Fixpoint remove_chunks (l : list irob_chunk_data) (len off : Z) (partial : irob_chunk_data)
    (removed : Z) : list irob_chunk_data * Z * irob_chunk_data * Z :=
  match l with
  | [] => (l, off, partial, removed)
  | c :: l' =>
      if 0 <? len then
        let bytes := Z.min len (ch_datalen c) in
        if len <? ch_datalen c
        then remove_chunks l' (len - bytes) bytes c (removed + bytes)
        else remove_chunks l' (len - bytes) off partial (removed + bytes)
      else (l, off, partial, removed)
  end.

Definition remove_bytes p (len : Z) : outcome PendingReceiverIROB :=
  let '(first, off, partial) :=
    match ch_data (partial_chunk p) with
    | Some _ =>
        let avail := to_size_t (ch_datalen (partial_chunk p) - roffset p) in
        let bytes := Z.min len avail in
        if avail <=? len
        then (Some bytes, 0, Chunk (ch_id (partial_chunk p)) (ch_seqno (partial_chunk p))
                               (ch_offset (partial_chunk p)) 0 None)
        else (Some bytes, to_size_t (roffset p + bytes), partial_chunk p)
    | None => (None, roffset p, partial_chunk p)
    end in
  assert_ (match first with Some bytes => 0 <? bytes | None => true end) ≫= fun _ =>
  let used := default 0 first in
  let '(l, off, partial, removed) :=
    remove_chunks (chunks (rbase p)) (len - used) off partial used in
  Ret (set_reading off partial (to_long (rnum_bytes p - removed))
         (set_rbase (set_chunks (fun _ => l)) p)).

Definition numbytes p : Z := rnum_bytes p.
Definition recvdbytes p : Z := recvd_bytes p.

(** * The receiver's lattice objects *)

#[export] Instance receiver_IrobOps : IrobOps PendingReceiverIROB := {
  core := rbase;
  upd_core := set_rbase;
  subsume := r_subsume;
  make_placeholder := receiver_placeholder
}.

Lemma r_add_chunk_core p c b p' :
  r_add_chunk p c = Ret (b, p') ->
  exists f, rbase p' = set_chunks f (rbase p).
Proof.
  assert (rbase p = set_chunks (fun l => l) (rbase p)) as Hid by (by destruct (rbase p)).
  unfold r_add_chunk. intros E. apply bind_ret_inv in E as ([] & _ & E); simpl in E.
  { simplify_eq. eauto. }
  apply bind_ret_inv in E as (u & _ & E). destruct (_ && _) in E; [simplify_eq; eauto|].
  apply bind_ret_inv in E as (ex & _ & E).
  destruct (_ <=? ch_seqno c) in E; destruct (has_data ex) in E;
    try destruct (_ || _) in E; simplify_eq; simpl; try (eexists; reflexivity); eauto.
  eexists (fun l => <[_ := _]> (resize_to _ _ l)). reflexivity.
Qed.

Lemma add_chunks_core l p p' :
  add_chunks p l = Ret p' -> exists f, rbase p' = set_chunks f (rbase p).
Proof.
  revert p. induction l as [|c l IH]; intros p E; simpl in E.
  - injection E as <-. exists (fun l => l). by destruct (rbase p).
  - apply bind_ret_inv in E as ([b p1] & E1 & E2).
    apply r_add_chunk_core in E1 as [f Ef]. apply IH in E2 as [g Eg].
    exists (fun l => g (f l)). by rewrite Eg, Ef.
Qed.

#[export] Instance receiver_IrobLaws : IrobLaws PendingReceiverIROB.
Proof.
  split; try done.
  - intros f g o. simpl. intros E. unfold set_rbase. by rewrite E.
  - intros o. by destruct o.
  - intros p o r. simpl. unfold r_subsume. intros E. minv. subst r. simpl.
    apply add_chunks_core in Hm as [f ->]. by split_and!.
Qed.
