(* ===== verification/ReceiverSpec.v ===== *)
(** Correctness of the receiver's IROB (ReceiverIrob.v).

    [cut] is what the sender cut the IROB into: chunks numbered from 0 that
    cover its bytes.  [recv_ok cut p] says that [p] holds some of them, in their
    places.  Whatever chunks arrive, in whatever order and however often, the
    invariant is kept and no assertion fails; the IROB is complete exactly when
    End_IROB and every chunk have arrived, and then it reads as the sender's
    bytes. *)

From S2P Require Import Prelude Irob Chunks ReceiverIrob.

Implicit Types (p : PendingReceiverIROB) (c : irob_chunk_data) (l cut : list irob_chunk_data).

(** A sender's cutting. *)
Record cutting cut : Prop := {
  cut_layout : layout 0 0 cut;
  cut_sized : Forall sized cut;
  cut_data : Forall (fun c => has_data c = true) cut;
  cut_pos : Forall (fun c => 0 < ch_datalen c) cut;
  cut_bytes : total_len cut < 2 ^ 63;
  cut_count : Z.of_nat (length cut) < 2 ^ 31
}.

(** Each slot is empty or holds the chunk of its number. *)
Fixpoint slots_of l cut : Prop :=
  match l, cut with
  | [], _ => True
  | c :: l, d :: cut => (c = chunk_zero \/ c = d) /\ slots_of l cut
  | _ :: _, [] => False
  end.

Definition filled l : Z := Z.of_nat (length (List.filter has_data l)).

Lemma filled_cons c l : filled (c :: l) = (if has_data c then 1 else 0) + filled l.
Proof. unfold filled. simpl. destruct (has_data c); simpl length; lia. Qed.

Lemma filled_range l : 0 <= filled l <= Z.of_nat (length l).
Proof.
  induction l as [|c l IH]; [done|]. rewrite filled_cons. simpl length.
  destruct (has_data c); lia.
Qed.

Lemma slots_length l cut : slots_of l cut -> (length l <= length cut)%nat.
Proof.
  revert cut. induction l as [|c l IH]; intros [|d cut]; simpl; [lia|lia|done|].
  intros [_ H%IH]. lia.
Qed.

Lemma slots_lookup l cut i c :
  slots_of l cut -> l !! i = Some c -> c = chunk_zero \/ cut !! i = Some c.
Proof.
  revert cut i. induction l as [|x l IH]; intros [|d cut] [|i]; simpl; try done.
  - intros [[->| ->] _] [= <-]; auto.
  - intros [_ H]. by apply IH.
Qed.

Lemma slots_total l cut :
  slots_of l cut -> Forall chunk_ok cut -> 0 <= total_len l <= total_len cut.
Proof.
  revert cut. induction l as [|c l IH]; intros [|d cut]; try done; intros Hs Hok.
  - split; [done|]. by apply total_len_nonneg.
  - apply Forall_cons in Hok as [Hd Hok]. destruct Hs as [Hc Hs].
    pose proof (IH cut Hs Hok). rewrite !total_len_cons. unfold chunk_ok in Hd.
    destruct Hc as [->| ->]; simpl; lia.
Qed.

(** Full slots are the cutting. *)
Lemma slots_full l cut :
  slots_of l cut -> forallb has_data l = true -> length l = length cut -> l = cut.
Proof.
  revert cut. induction l as [|c l IH]; intros [|d cut]; simpl; try done.
  intros [Hc Hs] [Hd Hl]%andb_true_iff [= E]. destruct Hc as [->| ->]; [done|].
  f_equal. by apply IH.
Qed.

Lemma filled_full l : filled l = Z.of_nat (length l) <-> forallb has_data l = true.
Proof.
  induction l as [|c l IH]; [done|]. rewrite filled_cons. simpl forallb. simpl length.
  pose proof (filled_range l). rewrite andb_true_iff, <- IH.
  destruct (has_data c); naive_solver lia.
Qed.

Lemma slots_resize l cut n :
  slots_of l cut -> (length l <= n <= length cut)%nat -> slots_of (resize_to n chunk_zero l) cut.
Proof.
  intros Hs [Hn Hc]. rewrite resize_to_grow by done.
  revert cut n Hs Hn Hc. induction l as [|c l IH]; intros cut n Hs Hn Hc; simpl in *.
  - rewrite Nat.sub_0_r. clear Hn. revert cut Hc. induction n as [|n IHn]; intros [|d cut] Hc;
      simpl in *; try done; [lia|]. split; [by left|]. apply IHn. lia.
  - destruct cut as [|d cut]; [done|]. destruct Hs as [Hcd Hs]. destruct n as [|n]; [lia|].
    split; [done|]. simpl. apply IH; [done|lia|simpl in Hc; lia].
Qed.

Lemma slots_store l cut i c :
  slots_of l cut -> cut !! i = Some c -> slots_of (<[i := c]> l) cut.
Proof.
  revert cut i. induction l as [|x l IH]; intros [|d cut] [|i]; simpl; try done.
  - intros [_ H] [= ->]. auto.
  - intros [Hx H] Hc. split; [done|]. by apply IH.
Qed.

Lemma resize_zero l n :
  (length l <= n)%nat ->
  total_len (resize_to n chunk_zero l) = total_len l /\ filled (resize_to n chunk_zero l) = filled l.
Proof.
  intros Hn. rewrite resize_to_grow by done. unfold filled. rewrite total_len_app, List.filter_app.
  generalize (n - length l)%nat. intros k. rewrite length_app.
  assert (total_len (replicate k chunk_zero) = 0 /\
    length (List.filter has_data (replicate k chunk_zero)) = 0%nat) as [-> ->]; [|lia].
  induction k as [|k IH]; [done|]. simpl replicate. rewrite total_len_cons. by simpl.
Qed.

(** Filling an empty slot. *)
Lemma store_counts l i c :
  l !! i = Some chunk_zero -> has_data c = true ->
  total_len (<[i := c]> l) = total_len l + ch_datalen c /\ filled (<[i := c]> l) = filled l + 1.
Proof.
  revert i. induction l as [|x l IH]; intros [|i] Hi Hc; simpl in Hi; try done.
  - injection Hi as ->. simpl. rewrite !total_len_cons, !filled_cons, Hc. simpl. lia.
  - destruct (IH i Hi Hc) as [E1 E2]. simpl. rewrite !total_len_cons, !filled_cons. lia.
Qed.

(** * The invariant while chunks arrive *)

Record recv_ok cut p : Prop := {
  ro_slots : slots_of (chunks (rbase p)) cut;
  ro_bytes : recvd_bytes p = total_len (chunks (rbase p));
  ro_chunks : recvd_chunks p = filled (chunks (rbase p));
  ro_num : rnum_bytes p = recvd_bytes p;
  ro_end : (rexpected_bytes p = -1 /\ expected_chunks p = -1 /\ complete (rbase p) = false) \/
           (rexpected_bytes p = total_len cut /\ expected_chunks p = Z.of_nat (length cut) /\
            complete (rbase p) = true);
  ro_unread : roffset p = 0 /\ ch_data (partial_chunk p) = None
}.

Section arrival.
Context cut (Hcut : cutting cut).

(** Complete exactly when the end was announced and the slots are the cutting. *)
Lemma r_is_complete_spec p :
  recv_ok cut p ->
  exists b, r_is_complete p = Ret b /\
    (b = true <-> complete (rbase p) = true /\ chunks (rbase p) = cut).
Proof.
  intros [Hs Hb Hc Hn He Hu]. destruct Hcut as [Hl Hz Hd Hp Ht Hk].
  pose proof (slots_total _ _ Hs (layout_ok _ _ _ Hl)). pose proof (slots_length _ _ Hs).
  pose proof (filled_range (chunks (rbase p))). unfold r_is_complete, all_chunks_complete.
  destruct He as [(E1 & E2 & E3)|(E1 & E2 & E3)]; rewrite E1, E2, E3.
  - rewrite Z.eqb_refl, orb_true_r. cbn [orb assert_ mbind outcome_bind].
    exists false. split; [|split; [done|by intros []]].
    by rewrite (proj2 (Z.eqb_neq _ _)) by lia.
  - rewrite !(proj2 (Z.leb_le _ _)) by lia. rewrite orb_true_r. simpl.
    destruct (Z.eqb_spec (total_len cut) (recvd_bytes p)) as [Eb|Eb]; simpl.
    2:{ exists false. split; [done|]. split; [done|]. intros [_ Ec]. rewrite Ec in Hb. lia. }
    destruct (Z.eqb_spec (Z.of_nat (length cut)) (recvd_chunks p)) as [Ec|Ec]; simpl.
    + eexists. split; [done|]. rewrite andb_true_r. split.
      * intros Hf. split; [done|]. apply slots_full; try done. lia.
      * intros [_ ->]. apply forallb_forall. intros x Hx%list_elem_of_In.
        rewrite Forall_forall in Hd. by apply Hd.
    + exists false. split; [done|]. split; [done|]. intros [_ E]. rewrite E in Hc.
      assert (filled cut = Z.of_nat (length cut)); [|lia].
      apply filled_full, forallb_forall. intros x Hx%list_elem_of_In.
      rewrite Forall_forall in Hd. by apply Hd.
Qed.

(** A chunk of the cutting: stored if its slot is empty, ignored if it is
    there; in both cases it is there afterwards. *)
Lemma r_add_chunk_spec p c i :
  recv_ok cut p -> cut !! i = Some c ->
  exists b p', r_add_chunk p c = Ret (b, p') /\ recv_ok cut p' /\
    complete (rbase p') = complete (rbase p) /\
    (b = false -> r_is_complete p = Ret true) /\
    chunks (rbase p') !! i = Some c /\
    (forall j d, has_data d = true -> j <> i ->
       chunks (rbase p') !! j = Some d <-> chunks (rbase p) !! j = Some d).
Proof.
  intros Hok Hi. destruct (r_is_complete_spec p Hok) as (b & Eb & Hb).
  pose proof Hok as [Hs Hby Hch Hn He Hu]. pose proof Hcut as [Hl Hz Hd Hp Ht Hk].
  pose proof (lookup_lt_Some _ _ _ Hi) as Hlt.
  destruct (layout_lookup _ _ _ _ _ Hl Hi) as (Hseq & _ & Hc0). rewrite Z.add_0_l in Hseq.
  assert (has_data c = true) as Hcd.
  { rewrite Forall_forall in Hd. apply Hd. by eapply list_elem_of_lookup_2. }
  unfold r_add_chunk. rewrite Eb. cbn [mbind outcome_bind]. destruct b; cbn [negb].
  { destruct Hb as [[_ Ec] _]; [done|]. exists false, p. rewrite Ec. by split_and!. }
  clear Eb. rewrite Hn, Z.eqb_refl. cbn [assert_ mbind outcome_bind]. cbv zeta. rewrite Hseq.
  assert (negb (expected_chunks p =? -1) && (to_size_t (expected_chunks p) <=? Z.of_nat i) = false)
    as ->.
  { destruct He as [(_ & -> & _)|(_ & -> & _)]; [done|].
    rewrite to_size_t_small, (proj2 (Z.leb_gt _ _)) by lia. apply andb_false_r. }
  set (p1 := if _ <=? Z.of_nat i then _ else p).
  assert (recv_ok cut p1 /\ (i < length (chunks (rbase p1)))%nat /\
    complete (rbase p1) = complete (rbase p) /\ rexpected_bytes p1 = rexpected_bytes p /\
    (forall j d, has_data d = true ->
       chunks (rbase p1) !! j = Some d <-> chunks (rbase p) !! j = Some d))
    as (Hok1 & Hi1 & Ec1 & Ee1 & Hkeep).
  { unfold p1. destruct (Z.leb_spec (Z.of_nat (length (chunks (rbase p)))) (Z.of_nat i));
      [|by split_and!; try lia].
    replace (Z.to_nat (Z.of_nat i + 1)) with (S i) by lia.
    destruct (resize_zero (chunks (rbase p)) (S i) ltac:(lia)) as [R1 R2].
    simpl. split_and!; try done.
    - split; simpl; try done; try lia. apply slots_resize; [done|lia].
    - rewrite length_resize_to. lia.
    - intros j d Hj. rewrite resize_to_grow, lookup_app by lia.
      destruct (chunks (rbase p) !! j); [done|]. split; [|done].
      by intros [-> _]%lookup_replicate. }
  clearbody p1. pose proof Hok1 as [Hs1 Hb1 Hc1 Hn1 He1 Hu1]. rewrite Nat2Z.id.
  destruct (lookup_lt_is_Some_2 _ _ Hi1) as [ex Hex]. rewrite Hex.
  cbn [access mbind outcome_bind].
  destruct (slots_lookup _ _ _ _ Hs1 Hex) as [->|Hsame].
  - simpl. eexists true, _. split; [done|].
    destruct (store_counts _ _ _ Hex Hcd) as [T1 T2].
    assert (slots_of (<[i := c]> (chunks (rbase p1))) cut) as Hs2 by (by apply slots_store).
    pose proof (slots_total _ _ Hs2 (layout_ok _ _ _ Hl)). pose proof (slots_length _ _ Hs2) as Hl2.
    pose proof (filled_range (<[i := c]> (chunks (rbase p1)))).
    rewrite Hn1, !to_long_small, to_int_small by lia. simpl. split_and!; try done.
    + split; simpl; try done; lia.
    + by apply list_lookup_insert_eq.
    + intros j d Hd' Hj. rewrite list_lookup_insert_ne by done. by apply Hkeep.
  - rewrite Hsame in Hi. injection Hi as ->. rewrite Hcd, !Z.eqb_refl. simpl.
    exists true, p1. split_and!; try done. intros j d Hd' _. by apply Hkeep.
Qed.

(** End_IROB announces the cutting's size; a repeated one changes nothing. *)
Lemma r_finish_spec p :
  recv_ok cut p ->
  exists b p', r_finish p (total_len cut) (Z.of_nat (length cut)) = Ret (b, p') /\
    recv_ok cut p' /\ complete (rbase p') = true /\ chunks (rbase p') = chunks (rbase p).
Proof.
  intros Hok. destruct (r_is_complete_spec p Hok) as (b & Eb & Hb).
  pose proof Hok as [Hs Hby Hch Hn He Hu]. pose proof Hcut as [Hl Hz Hd Hp Ht Hk].
  unfold r_finish. rewrite Eb. cbn [mbind outcome_bind]. destruct b.
  { destruct Hb as [[Ec _] _]; [done|]. exists false, p. by split_and!. }
  pose proof (slots_length _ _ Hs). cbv zeta. simpl.
  destruct He as [(E1 & E2 & E3)|(E1 & E2 & E3)]; rewrite E1, E2.
  - simpl. rewrite to_size_t_small by lia. rewrite (proj2 (Z.ltb_ge _ _)) by lia.
    eexists _, _. split; [done|]. split_and!; try done. split; simpl; try done. right. done.
  - pose proof (layout_total _ _ _ Hl).
    rewrite !(proj2 (Z.eqb_neq _ (-1))), !Z.eqb_refl by lia. simpl.
    eexists _, _. split; [done|]. split_and!; try done. split; simpl; try done. right. done.
Qed.

(** ** Any arrival *)

Inductive arrival :=
| ArriveChunk (i : nat)      (* the chunk of that number, once more *)
| ArriveEnd.

Definition arrive (e : arrival) p : outcome PendingReceiverIROB :=
  match e with
  | ArriveChunk i =>
      access (cut !! i) ≫= fun c => r_add_chunk p c ≫= fun '(_, p') => Ret p'
  | ArriveEnd =>
      r_finish p (total_len cut) (Z.of_nat (length cut)) ≫= fun '(_, p') => Ret p'
  end.

Fixpoint arrivals (es : list arrival) p : outcome PendingReceiverIROB :=
  match es with
  | [] => Ret p
  | e :: es => arrive e p ≫= arrivals es
  end.

Definition arrival_ok (e : arrival) : Prop :=
  match e with ArriveChunk i => (i < length cut)%nat | ArriveEnd => True end.

Lemma arrive_spec e p :
  recv_ok cut p -> arrival_ok e ->
  exists p', arrive e p = Ret p' /\ recv_ok cut p' /\
    (complete (rbase p') = true <-> complete (rbase p) = true \/ e = ArriveEnd) /\
    (forall i c, cut !! i = Some c ->
       chunks (rbase p') !! i = Some c <->
       chunks (rbase p) !! i = Some c \/ e = ArriveChunk i).
Proof.
  intros Hok He. destruct e as [i|]; simpl in *.
  - destruct (lookup_lt_is_Some_2 _ _ He) as [c Hc]. rewrite Hc. cbn [access mbind outcome_bind].
    destruct (r_add_chunk_spec p c i Hok Hc) as (b & p' & -> & Hok' & Ec & _ & Hi & Hkeep).
    cbn [mbind outcome_bind]. exists p'. split_and!; try done.
    { rewrite Ec. split; [by left|]. by intros [?|?]. }
    intros j d Hj. assert (has_data d = true) as Hd.
    { pose proof (cut_data _ Hcut) as Hd. rewrite Forall_forall in Hd.
      apply Hd. by eapply list_elem_of_lookup_2. }
    destruct (decide (j = i)) as [->|Hne]; [|rewrite Hkeep by done; naive_solver].
    assert (d = c) as -> by congruence. naive_solver.
  - destruct (r_finish_spec p Hok) as (b & p' & -> & Hok' & Ec & Ech).
    cbn [mbind outcome_bind]. exists p'. split_and!; try done.
    { split; [by right|done]. }
    intros i c Hc. rewrite Ech. split; [by left|]. by intros [?|?].
Qed.

Lemma arrivals_spec es p :
  recv_ok cut p -> Forall arrival_ok es ->
  exists p', arrivals es p = Ret p' /\ recv_ok cut p' /\
    (complete (rbase p') = true <-> complete (rbase p) = true \/ ArriveEnd ∈ es) /\
    (forall i c, cut !! i = Some c ->
       chunks (rbase p') !! i = Some c <->
       chunks (rbase p) !! i = Some c \/ ArriveChunk i ∈ es).
Proof.
  intros Hok Hes. revert p Hok. induction Hes as [|e es He Hes IH]; intros p Hok; simpl.
  { exists p. split_and!; try done; [|intros i c Hc]; (split; [by left|]);
      intros [?|?%elem_of_nil]; done. }
  destruct (arrive_spec e p Hok He) as (p1 & -> & Hok1 & E1 & E2).
  destruct (IH p1 Hok1) as (p2 & E & Hok2 & F1 & F2).
  exists p2. split_and!; try done.
  - rewrite F1, E1, elem_of_cons. naive_solver.
  - intros i c Hc. rewrite (F2 i c Hc), (E2 i c Hc), elem_of_cons. naive_solver.
Qed.

Lemma receiver_new_ok id ds labels :
  exists p, receiver_new id ds [] labels = Ret p /\ recv_ok cut p /\
    complete (rbase p) = false /\ chunks (rbase p) = [].
Proof.
  eexists. split; [done|]. split; [|done]. split; simpl; try done. by left.
Qed.
End arrival.

(** * Reading *)

(** What the application has not read yet. *)
Definition unread p : list byte :=
  drop (Z.to_nat (roffset p)) (default [] (ch_data (partial_chunk p))) ++
  bytes_of_chunks (chunks (rbase p)).

(** The partial chunk, if any, has bytes left. *)
Definition partial_ok (off : Z) (c : irob_chunk_data) : Prop :=
  match ch_data c with
  | Some d => 0 <= off < ch_datalen c /\ sized c /\ ch_datalen c < 2 ^ 63
  | None => off = 0
  end.

Record reading_ok p : Prop := {
  rd_sized : Forall sized (chunks (rbase p));
  rd_data : Forall (fun c => has_data c = true) (chunks (rbase p));
  rd_small : Forall (fun c => ch_datalen c < 2 ^ 63) (chunks (rbase p));
  rd_partial : partial_ok (roffset p) (partial_chunk p);
  rd_num : rnum_bytes p = Z.of_nat (length (unread p));
  rd_bound : rnum_bytes p < 2 ^ 63
}.

Lemma chunk_bytes_data c : has_data c = true -> ch_data c = Some (chunk_bytes c).
Proof.
  unfold has_data, chunk_bytes. intros H%bool_decide_eq_true_1. by destruct H as [d ->].
Qed.

Lemma read_chunks_spec l len :
  Forall sized l -> Forall (fun c => has_data c = true) l -> 0 <= len ->
  read_chunks l len = Ret (take (Z.to_nat len) (bytes_of_chunks l)).
Proof.
  intros Hs Hd. revert len. induction l as [|c l IH]; intros len Hlen; simpl.
  { unfold bytes_of_chunks. simpl. by rewrite take_nil. }
  apply Forall_cons in Hs as [Hc Hs]. apply Forall_cons in Hd as [Hcd Hd]. unfold sized in Hc.
  destruct (Z.ltb_spec 0 len).
  2:{ replace (Z.to_nat len) with 0%nat by lia. done. }
  unfold copy_from. rewrite (chunk_bytes_data c Hcd). cbn [mbind outcome_bind].
  rewrite IH by (done || lia). simpl. rewrite bytes_of_chunks_cons. f_equal.
  destruct (Z.le_gt_cases len (ch_datalen c)).
  - replace (Z.to_nat (len - Z.min len (ch_datalen c))) with 0%nat by lia.
    rewrite take_0, app_nil_r, take_app_le by lia. f_equal. lia.
  - rewrite take_app, !(take_ge (chunk_bytes c)) by lia. f_equal. f_equal. lia.
Qed.

Lemma length_partial off c :
  partial_ok off c ->
  Z.of_nat (length (drop (Z.to_nat off) (default [] (ch_data c)))) =
    match ch_data c with Some _ => ch_datalen c - off | None => 0 end.
Proof.
  unfold partial_ok. destruct (ch_data c) as [d|] eqn:E; simpl.
  - intros (H1 & H2 & _). unfold sized, chunk_bytes in H2. rewrite E in H2. simpl in H2.
    rewrite length_drop. lia.
  - by rewrite drop_nil.
Qed.

(** [read_data] copies the next [len] bytes, or as many as there are. *)
Lemma read_data_spec p len :
  reading_ok p -> 0 < len -> read_data p len = Ret (take (Z.to_nat len) (unread p)).
Proof.
  intros [Hs Hd Hm Hp Hn Hb] Hlen. unfold read_data, unread.
  pose proof (length_partial _ _ Hp) as Hl. unfold partial_ok in Hp.
  destruct (ch_data (partial_chunk p)) as [d|] eqn:E; simpl in *.
  - destruct Hp as (H1 & H2 & H3). rewrite to_size_t_small by lia.
    rewrite (proj2 (Z.ltb_lt _ _)) by lia. cbn [assert_ mbind outcome_bind].
    unfold copy_from. rewrite E. cbn [mbind outcome_bind].
    rewrite read_chunks_spec by (done || lia). simpl. f_equal. rewrite take_app. f_equal.
    + destruct (Z.le_gt_cases len (ch_datalen (partial_chunk p) - roffset p)).
      * f_equal. lia.
      * rewrite !take_ge by lia. done.
    + f_equal. lia.
  - rewrite drop_nil. apply read_chunks_spec; [done..|lia].
Qed.

(** The queue after [remove_chunks]: the partial chunk it leaves, then the
    rest. *)
Lemma remove_chunks_spec l len removed :
  Forall sized l -> Forall (fun c => has_data c = true) l ->
  Forall (fun c => ch_datalen c < 2 ^ 63) l -> 0 <= len ->
  forall (part : irob_chunk_data), ch_data part = None ->
  let '(l', off', part', removed') := remove_chunks l len 0 part removed in
  Forall sized l' /\ Forall (fun c => has_data c = true) l' /\
  Forall (fun c => ch_datalen c < 2 ^ 63) l' /\ partial_ok off' part' /\
  drop (Z.to_nat off') (default [] (ch_data part')) ++ bytes_of_chunks l' =
    drop (Z.to_nat len) (bytes_of_chunks l) /\
  removed' = removed + Z.min len (total_len l).
Proof.
  intros Hs Hd Hm Hlen part Hpart. revert len removed Hlen.
  induction l as [|c l IH]; intros len removed Hlen; simpl.
  { unfold partial_ok. rewrite Hpart. simpl. unfold bytes_of_chunks, total_len. simpl.
    rewrite !drop_nil. split_and!; try done. lia. }
  pose proof Hs as [Hc Hs']%Forall_cons. pose proof Hd as [Hcd Hd']%Forall_cons.
  pose proof Hm as [Hcm Hm']%Forall_cons. unfold sized in Hc.
  assert (0 <= total_len l) by (rewrite <- (length_bytes_of_chunks l Hs'); lia).
  rewrite bytes_of_chunks_cons, total_len_cons.
  destruct (Z.ltb_spec 0 len).
  2:{ unfold partial_ok. rewrite Hpart. simpl.
      replace (Z.to_nat len) with 0%nat by lia. split_and!; try done. lia. }
  destruct (Z.ltb_spec len (ch_datalen c)) as [Hlt|Hge].
  - replace (len - Z.min len (ch_datalen c)) with 0 by lia.
    assert (forall off pt rm, remove_chunks l 0 off pt rm = (l, off, pt, rm)) as ->.
    { intros. by destruct l. }
    unfold partial_ok. rewrite (chunk_bytes_data c Hcd). simpl. split_and!; try done; try lia.
    rewrite drop_app_le by lia. f_equal. f_equal. lia.
  - replace (Z.min len (ch_datalen c)) with (ch_datalen c) by lia.
    specialize (IH Hs' Hd' Hm' (len - ch_datalen c) (removed + ch_datalen c) ltac:(lia)).
    destruct (remove_chunks l _ _ _ _) as [[[l' off'] part'] removed'].
    destruct IH as (I1 & I2 & I3 & I4 & I5 & ->). split_and!; try done; try lia.
    rewrite I5, drop_app_ge by lia. f_equal. lia.
Qed.

(** [remove_bytes] takes away exactly those bytes. *)
Lemma remove_bytes_spec p len :
  reading_ok p -> 0 <= len <= rnum_bytes p ->
  (len = 0 -> ch_data (partial_chunk p) = None) ->
  exists p', remove_bytes p len = Ret p' /\ reading_ok p' /\
    unread p' = drop (Z.to_nat len) (unread p) /\
    rexpected_bytes p' = rexpected_bytes p /\ expected_chunks p' = expected_chunks p /\
    recvd_bytes p' = recvd_bytes p /\ recvd_chunks p' = recvd_chunks p /\
    complete (rbase p') = complete (rbase p) /\ irob_id (rbase p') = irob_id (rbase p).
Proof.
  intros Hok Hlen Hz. pose proof Hok as [Hs Hd Hm Hp Hn Hb].
  pose proof (length_partial _ _ Hp) as Hl.
  assert (rnum_bytes p = Z.of_nat (length (drop (Z.to_nat (roffset p))
    (default [] (ch_data (partial_chunk p))))) + total_len (chunks (rbase p))) as Hnum.
  { rewrite Hn. unfold unread. rewrite length_app, Nat2Z.inj_add.
    by rewrite (length_bytes_of_chunks _ Hs). }
  unfold remove_bytes.
  assert (forall off part used,
    0 <= used <= len ->
    (ch_data part = None -> off = 0) ->
    (is_Some (ch_data part) -> len = used /\ partial_ok off part) ->
    drop (Z.to_nat off) (default [] (ch_data part)) ++ drop (Z.to_nat (len - used))
      (bytes_of_chunks (chunks (rbase p))) = drop (Z.to_nat len) (unread p) ->
    len - used <= total_len (chunks (rbase p)) ->
    exists p', (let '(l, off, partial, removed) :=
        remove_chunks (chunks (rbase p)) (len - used) off part used in
      Ret (set_reading off partial (to_long (rnum_bytes p - removed))
        (set_rbase (set_chunks (fun _ => l)) p))) = Ret p' /\ reading_ok p' /\
    unread p' = drop (Z.to_nat len) (unread p) /\
    rexpected_bytes p' = rexpected_bytes p /\ expected_chunks p' = expected_chunks p /\
    recvd_bytes p' = recvd_bytes p /\ recvd_chunks p' = recvd_chunks p /\
    complete (rbase p') = complete (rbase p) /\ irob_id (rbase p') = irob_id (rbase p)) as K.
  { intros off part used Hu Hnone Hsome Hun Htot.
    assert (forall l' off' part' removed', 
      Forall sized l' -> Forall (fun c => has_data c = true) l' ->
      Forall (fun c => ch_datalen c < 2 ^ 63) l' -> partial_ok off' part' ->
      drop (Z.to_nat off') (default [] (ch_data part')) ++ bytes_of_chunks l' =
        drop (Z.to_nat len) (unread p) -> removed' = len ->
      let p' := set_reading off' part' (to_long (rnum_bytes p - removed'))
        (set_rbase (set_chunks (fun _ => l')) p) in
      reading_ok p' /\ unread p' = drop (Z.to_nat len) (unread p)) as Fin.
    { intros l' off' part' removed' S1 S2 S3 S4 S5 ->. cbv zeta.
      rewrite to_long_small by lia. split; [|done]. split; simpl; try done; [|lia].
      unfold unread at 1. simpl. rewrite S5, length_drop. lia. }
    destruct (ch_data part) as [d|] eqn:Ed.
    - destruct (Hsome ltac:(eauto)) as [-> Hpo]. rewrite Z.sub_diag in *.
      assert (forall off pt rm, remove_chunks (chunks (rbase p)) 0 off pt rm =
        (chunks (rbase p), off, pt, rm)) as ->.
      { intros. by destruct (chunks (rbase p)). }
      eexists. split; [done|]. destruct (Fin (chunks (rbase p)) off part used) as [F1 F2];
        try done. by rewrite Ed.
    - rewrite (Hnone eq_refl) in *.
      pose proof (remove_chunks_spec (chunks (rbase p)) (len - used) used Hs Hd Hm ltac:(lia)
        part Ed) as R.
      destruct (remove_chunks _ _ _ _ _) as [[[l' off'] part'] removed'].
      destruct R as (R1 & R2 & R3 & R4 & R5 & R6).
      eexists. split; [done|]. destruct (Fin l' off' part' removed') as [F1 F2]; try done.
      + rewrite R5. by rewrite <- Hun.
      + lia. }
  unfold partial_ok in Hp. destruct (ch_data (partial_chunk p)) as [d|] eqn:E.
  - destruct Hp as (H1 & H2 & H3). rewrite to_size_t_small by lia.
    assert (len <> 0) by (intros ->; by specialize (Hz eq_refl)).
    destruct (Z.leb_spec (ch_datalen (partial_chunk p) - roffset p) len) as [Hle|Hgt].
    + rewrite (proj2 (Z.ltb_lt _ _)) by lia. cbn [assert_ mbind outcome_bind default].
      apply K; simpl; try done; try lia; try (by intros []). unfold unread. rewrite E. simpl in *.
      rewrite drop_app_ge by lia. f_equal. lia.
    + rewrite (proj2 (Z.ltb_lt _ _)) by lia. cbn [assert_ mbind outcome_bind default].
      rewrite to_size_t_small by lia. replace (Z.min len _) with len by lia.
      apply K; simpl; try done; try lia.
      * by rewrite E.
      * intros _. split; [done|]. unfold partial_ok. rewrite E. split_and!; try done; lia.
      * rewrite E. unfold unread. rewrite E. simpl in *. rewrite Z.sub_diag, drop_app_le by lia.
        simpl. rewrite drop_drop. f_equal. f_equal. lia.
      * rewrite <- (length_bytes_of_chunks _ Hs). lia.
  - cbn [assert_ mbind outcome_bind default]. apply K; try done; try lia.
    + by rewrite E; intros [].
    + unfold unread. rewrite E, Hp. simpl. by rewrite Z.sub_0_r.
Qed.

(** One step of the application: read up to [len] bytes and take them away. *)
Definition consume p (len : Z) : outcome (list byte * PendingReceiverIROB) :=
  read_data p len ≫= fun b =>
  remove_bytes p (Z.of_nat (length b)) ≫= fun p' => Ret (b, p').

Fixpoint consume_all p (lens : list Z) : outcome (list byte * PendingReceiverIROB) :=
  match lens with
  | [] => Ret ([], p)
  | len :: lens =>
      consume p len ≫= fun '(b, p1) =>
      consume_all p1 lens ≫= fun '(bs, p2) => Ret (b ++ bs, p2)
  end.

Lemma consume_spec p len :
  reading_ok p -> 0 < len ->
  exists p', consume p len = Ret (take (Z.to_nat len) (unread p), p') /\ reading_ok p' /\
    unread p' = drop (Z.to_nat len) (unread p) /\ recvd_bytes p' = recvd_bytes p.
Proof.
  intros Hok Hlen. unfold consume. rewrite read_data_spec by done. cbn [mbind outcome_bind].
  pose proof (rd_num _ Hok) as Hn. rewrite length_take.
  destruct (remove_bytes_spec p (Z.of_nat (Z.to_nat len `min` length (unread p))) Hok)
    as (p' & -> & Hok' & Hu & _ & _ & Hr & _).
  - lia.
  - intros Hz. pose proof (rd_partial _ Hok) as Hp. unfold partial_ok in Hp.
    destruct (ch_data (partial_chunk p)) as [d|] eqn:E; [|done].
    pose proof (length_partial _ _ (rd_partial _ Hok)) as Hl. rewrite E in Hl. simpl in Hl.
    unfold unread in Hz. rewrite E, length_app in Hz. simpl in Hz. lia.
  - cbn [mbind outcome_bind]. exists p'. split_and!; try done. rewrite Hu, Nat2Z.id.
    destruct (Nat.le_ge_cases (Z.to_nat len) (length (unread p))).
    + by rewrite Nat.min_l.
    + by rewrite Nat.min_r, !drop_ge by lia.
Qed.

(** C30: However the application sizes its reads, [read_data] and
    [remove_bytes] together pass it the IROB's bytes in order, each once, and
    [num_bytes] counts what is left. *)
Theorem consume_all_spec p lens :
  reading_ok p -> Forall (fun n => 0 < n) lens ->
  exists p', consume_all p lens = Ret (take (Z.to_nat (sumZ lens)) (unread p), p') /\
    reading_ok p' /\ unread p' = drop (Z.to_nat (sumZ lens)) (unread p) /\
    numbytes p' = Z.of_nat (length (unread p')).
Proof.
  intros Hok Hlens. revert p Hok. induction Hlens as [|len lens Hlen Hlens IH]; intros p Hok.
  { exists p. split_and!; try done. apply (rd_num _ Hok). }
  destruct (consume_spec p len Hok Hlen) as (p1 & E & Hok1 & Hu1 & _).
  destruct (IH p1 Hok1) as (p2 & E2 & Hok2 & Hu2 & Hn2).
  assert (0 <= sumZ lens).
  { apply sumZ_nonneg. eapply Forall_impl; [exact Hlens|]. simpl. lia. }
  simpl. rewrite E. cbn [mbind outcome_bind]. rewrite E2. cbn [mbind outcome_bind].
  replace (Z.to_nat (len + sumZ lens)) with (Z.to_nat len + Z.to_nat (sumZ lens))%nat by lia.
  exists p2. split_and!; try done.
  - rewrite Hu1, take_take_drop. done.
  - by rewrite Hu2, Hu1, drop_drop.
Qed.

(** A complete IROB nobody has read from yet. *)
Lemma complete_reading cut p :
  cutting cut -> recv_ok cut p -> chunks (rbase p) = cut ->
  reading_ok p /\ unread p = bytes_of_chunks cut.
Proof.
  intros [Hl Hz Hd Hp Ht Hk] [Hs Hb Hc Hn He [Hu1 Hu2]] E.
  assert (unread p = bytes_of_chunks cut) as Eu.
  { unfold unread. rewrite Hu2, E. simpl. by rewrite drop_nil. }
  split; [|done]. split; rewrite ?E; try done.
  - apply Forall_forall. intros c Hc'. apply list_elem_of_lookup in Hc' as [i Hi].
    pose proof (layout_end _ _ _ _ _ Hl Hi). destruct (layout_lookup _ _ _ _ _ Hl Hi) as (_ & E1 & _).
    pose proof (total_len_nonneg _ (Forall_take _ i _ (layout_ok _ _ _ Hl))). lia.
  - unfold partial_ok. by rewrite Hu2.
  - rewrite Eu, Hn, Hb, E. by rewrite (length_bytes_of_chunks _ Hz).
  - rewrite Hn, Hb, E. done.
Qed.

(** C20: For any order of arrival of the sender's chunks, with repetitions, and
    End_IROB anywhere among them, nothing traps; the IROB is complete exactly
    when End_IROB and every chunk have arrived, and then its bytes are the
    sender's. *)
Theorem reassembly cut es id ds labels :
  cutting cut -> Forall (arrival_ok cut) es ->
  exists p p' b, receiver_new id ds [] labels = Ret p /\ arrivals cut es p = Ret p' /\
    r_is_complete p' = Ret b /\
    (b = true <-> ArriveEnd ∈ es /\ forall i, (i < length cut)%nat -> ArriveChunk i ∈ es) /\
    (b = true -> forall len, 0 < len ->
       read_data p' len = Ret (take (Z.to_nat len) (bytes_of_chunks cut))).
Proof.
  intros Hcut Hes.
  destruct (receiver_new_ok cut id ds labels) as (p & Ep & Hok & Hc0 & Hch0).
  destruct (arrivals_spec cut Hcut es p Hok Hes) as (p' & Ea & Hok' & Hend & Hchk).
  destruct (r_is_complete_spec cut Hcut p' Hok') as (b & Eb & Hb).
  exists p, p', b. split_and!; try done.
  - rewrite Hb, Hend, Hc0. split.
    + intros [[?|Hin] E]; [done|]. split; [done|]. intros i Hi.
      destruct (lookup_lt_is_Some_2 _ _ Hi) as [c Hc].
      assert (chunks (rbase p') !! i = Some c) as Hl by (by rewrite E).
      apply Hchk in Hl as [Hl|?]; [|done|done]. by rewrite Hch0, lookup_nil in Hl.
    + intros [Hin Hall]. split; [by right|]. apply list_eq. intros i.
      destruct (cut !! i) as [c|] eqn:Hc.
      * apply (Hchk i c Hc). right. apply Hall. by eapply lookup_lt_Some.
      * apply lookup_ge_None in Hc. apply lookup_ge_None.
        pose proof (slots_length _ _ (ro_slots _ _ Hok')). lia.
  - intros -> len Hlen. destruct Hb as [[_ E] _]; [done|].
    destruct (complete_reading cut p' Hcut Hok' E) as [Hrd Hu].
    rewrite read_data_spec by done. by rewrite Hu.
Qed.

(** * What is missing *)

Lemma missing_slots_spec l k i :
  i ∈ missing_slots k l <->
  k <= i < k + Z.of_nat (length l) /\ exists c, l !! Z.to_nat (i - k) = Some c /\ has_data c = false.
Proof.
  revert k. induction l as [|c l IH]; intros k; simpl.
  { split; [by intros ?%elem_of_nil|]. lia. }
  assert (forall d, (k + 1 <= i < k + 1 + Z.of_nat (length l) /\
    exists c, l !! Z.to_nat (i - (k + 1)) = Some c /\ has_data c = false) ->
    k <= i < k + Z.of_nat (S (length l)) /\
    exists c, (d :: l) !! Z.to_nat (i - k) = Some c /\ has_data c = false) as Up.
  { intros d (Hi & x & Hx & Hd). split; [lia|]. exists x. split; [|done].
    replace (Z.to_nat (i - k)) with (S (Z.to_nat (i - (k + 1)))) by lia. done. }
  assert (forall d, (k <= i < k + Z.of_nat (S (length l)) /\
    exists c, (d :: l) !! Z.to_nat (i - k) = Some c /\ has_data c = false) ->
    (i = k /\ has_data d = false) \/ (k + 1 <= i < k + 1 + Z.of_nat (length l) /\
    exists c, l !! Z.to_nat (i - (k + 1)) = Some c /\ has_data c = false)) as Down.
  { intros d (Hi & x & Hx & Hd). destruct (decide (i = k)) as [->|Hne].
    - left. rewrite Z.sub_diag in Hx. simpl in Hx. by injection Hx as ->.
    - right. split; [lia|]. exists x. split; [|done].
      replace (Z.to_nat (i - k)) with (S (Z.to_nat (i - (k + 1)))) in Hx by lia. done. }
  destruct (has_data c) eqn:Hc.
  - rewrite IH. split; [apply Up|]. intros H%Down. destruct H as [[_ H]|H]; [congruence|done].
  - rewrite elem_of_cons, IH. split.
    + intros [->|H]; [|by apply Up]. split; [lia|]. exists c. by rewrite Z.sub_diag.
    + intros H%Down. destruct H as [[-> _]|H]; tauto.
Qed.

(** Once End_IROB has arrived, the chunk numbers requested again are
    exactly those of the sender's chunks that have not arrived. *)
Theorem get_missing_chunks_spec cut p i :
  cutting cut -> recv_ok cut p -> seen_end p = true ->
  i ∈ get_missing_chunks p <->
  0 <= i < Z.of_nat (length cut) /\ chunks (rbase p) !! Z.to_nat i <> cut !! Z.to_nat i.
Proof.
  intros [Hl Hz Hd Hp Ht Hk] [Hs Hb Hc Hn He Hu] Hend. unfold seen_end in Hend.
  destruct He as [(E1 & _)|(E1 & E2 & E3)]; [by rewrite E1 in Hend|].
  unfold get_missing_chunks. rewrite E2, to_size_t_small by lia.
  pose proof (slots_length _ _ Hs) as Hlen.
  rewrite (proj2 (Z.eqb_neq _ (-1))) by lia. cbn [negb andb].
  assert (0 <= i < Z.of_nat (length (chunks (rbase p))) ->
    (exists c, chunks (rbase p) !! Z.to_nat (i - 0) = Some c /\ has_data c = false) <->
    chunks (rbase p) !! Z.to_nat i <> cut !! Z.to_nat i) as Hslot.
  { intros Hi. rewrite Z.sub_0_r.
    destruct (lookup_lt_is_Some_2 (chunks (rbase p)) (Z.to_nat i) ltac:(lia)) as [c Ec].
    destruct (lookup_lt_is_Some_2 cut (Z.to_nat i) ltac:(lia)) as [d Ed].
    assert (has_data d = true).
    { rewrite Forall_forall in Hd. apply Hd. by eapply list_elem_of_lookup_2. }
    rewrite Ec, Ed. destruct (slots_lookup _ _ _ _ Hs Ec) as [->|Es].
    - split; [|eauto]. intros _ [= <-]. done.
    - rewrite Ed in Es. injection Es as ->. split; [|done].
      intros (x & [= <-] & Hx). congruence. }
  rewrite elem_of_app, missing_slots_spec, Z.add_0_l.
  assert (i ∈ (if Z.of_nat (length (chunks (rbase p))) <? Z.of_nat (length cut)
     then (fun k : nat => Z.of_nat (length (chunks (rbase p))) + Z.of_nat k) <$>
            seq 0 (Z.to_nat (Z.of_nat (length cut) - Z.of_nat (length (chunks (rbase p)))))
     else []) <-> Z.of_nat (length (chunks (rbase p))) <= i < Z.of_nat (length cut)) as ->.
  { destruct (Z.ltb_spec (Z.of_nat (length (chunks (rbase p)))) (Z.of_nat (length cut))).
    - rewrite list_elem_of_fmap. split.
      + intros (k & -> & Hk'%elem_of_seq). lia.
      + intros Hi. exists (Z.to_nat (i - Z.of_nat (length (chunks (rbase p))))).
        split; [lia|]. apply elem_of_seq. lia.
    - split; [by intros ?%elem_of_nil|lia]. }
  destruct (decide (0 <= i < Z.of_nat (length (chunks (rbase p))))) as [Hi|Hi].
  - rewrite <- (Hslot Hi). split; [intros [[_ ?]|?]; [split; [lia|done]|lia]|].
    intros [_ ?]. by left.
  - split.
    + intros [[? _]|Hi']; [lia|]. split; [lia|].
      rewrite (proj2 (lookup_ge_None _ _)) by lia.
      destruct (lookup_lt_is_Some_2 cut (Z.to_nat i) ltac:(lia)) as [d ->]. done.
    + intros [? _]. right. lia.
Qed.

(** * Replacing a placeholder

    Chunks and even End_IROB may arrive before Begin_IROB; they are kept in a
    placeholder that [subsume] hands over to the real IROB.  [add_chunk] is
    called for the empty slots too, with the zeroed chunk. *)

(** The last slot of a queue is never empty. *)
Definition tail_filled l : Prop := l = [] \/ exists l0 c, l = l0 ++ [c] /\ has_data c = true.

(** The state while the chunks [l1] of the placeholder have been added. *)
Record handing_over cut (l1 : list irob_chunk_data) p : Prop := {
  ho_end : rexpected_bytes p = -1 /\ expected_chunks p = -1;
  ho_bytes : recvd_bytes p = total_len (chunks (rbase p));
  ho_num : rnum_bytes p = recvd_bytes p;
  ho_slots : slots_of (chunks (rbase p)) cut;
  ho_prefix : exists k, l1 = chunks (rbase p) ++ replicate k chunk_zero
}.

Section handover.
Context cut (Hcut : cutting cut).

Lemma r_add_chunk_open p c l1 :
  handing_over cut l1 p ->
  r_add_chunk p c =
    let seqno := ch_seqno c in
    let p := if Z.of_nat (length (chunks (rbase p))) <=? seqno
             then set_rbase (set_chunks (resize_to (Z.to_nat (seqno + 1)) chunk_zero)) p else p in
    access (chunks (rbase p) !! Z.to_nat seqno) ≫= fun existing =>
    if has_data existing then
      if negb (ch_offset c =? ch_offset existing) || negb (ch_datalen c =? ch_datalen existing)
      then Ret (false, p) else Ret (true, p)
    else
      Ret (true,
        set_received (to_long (rnum_bytes p + ch_datalen c)) (to_long (recvd_bytes p + ch_datalen c))
          (to_int (recvd_chunks p + 1))
          (set_rbase (set_chunks (fun l => <[Z.to_nat seqno := c]> l)) p)).
Proof.
  intros [[E1 E2] Hb Hn Hs _].
  pose proof (slots_total _ _ Hs (layout_ok _ _ _ (cut_layout _ Hcut))).
  unfold r_add_chunk, r_is_complete. rewrite E1, E2, Z.eqb_refl, orb_true_r.
  cbn [orb assert_ mbind outcome_bind]. rewrite (proj2 (Z.eqb_neq (-1) (recvd_bytes p))) by lia.
  cbn [negb mbind outcome_bind]. rewrite Hn, Z.eqb_refl. done.
Qed.

Lemma hand_over_zero p l1 :
  handing_over cut l1 p -> (length l1 < length cut)%nat ->
  exists b p', r_add_chunk p chunk_zero = Ret (b, p') /\
    handing_over cut (l1 ++ [chunk_zero]) p'.
Proof.
  intros H Hlt. rewrite (r_add_chunk_open p chunk_zero l1 H).
  pose proof H as [[E1 E2] Hb Hn Hs [k Hk]].
  pose proof (slots_total _ _ Hs (layout_ok _ _ _ (cut_layout _ Hcut))) as Ht.
  pose proof (cut_bytes _ Hcut). cbv zeta. cbn [ch_seqno ch_datalen ch_offset chunk_zero].
  destruct (chunks (rbase p)) as [|d q] eqn:Eq.
  - unfold total_len in Hb. simpl in Hb. simpl. rewrite Eq. simpl.
    rewrite !Z.add_0_r, Hn, Hb, !to_long_small by lia. eexists _, _. split; [done|]. split; simpl; rewrite ?Eq; try done.
    + destruct cut as [|d' cut']; [simpl in Hlt; lia|]. by split; [left|].
    + exists k. simpl. rewrite Hk. simpl. by rewrite <- replicate_S_end.
  - rewrite (proj2 (Z.leb_gt _ _)) by (simpl length; lia). rewrite Eq.
    change (Z.to_nat 0) with 0%nat. cbn [lookup list_lookup access mbind outcome_bind].
    assert (exists k', l1 ++ [chunk_zero] = (d :: q) ++ replicate k' chunk_zero) as Hk'.
    { exists (S k). by rewrite Hk, <- app_assoc, <- replicate_S_end. }
    destruct (has_data d) eqn:Hd.
    + assert (forall b, exists b' p', (if b : bool then Ret (false, p) else Ret (true, p)) =
        Ret (b', p') /\ handing_over cut (l1 ++ [chunk_zero]) p') as K.
      { intros b. destruct b; eexists _, p; (split; [done|]); split; rewrite ?Eq; done. }
      apply K.
    + rewrite !Z.add_0_r, Hn, Hb, !to_long_small by lia.
      assert (d = chunk_zero) as ->.
      { destruct (slots_lookup _ _ 0 d Hs eq_refl) as [->|Hc]; [done|].
        pose proof (cut_data _ Hcut) as Hcd. rewrite Forall_forall in Hcd.
        rewrite (Hcd d (list_elem_of_lookup_2 _ _ _ Hc)) in Hd. done. }
      eexists _, _. split; [done|]. split; simpl; rewrite ?Eq; done.
Qed.

Lemma hand_over_chunk p l1 c :
  handing_over cut l1 p -> cut !! length l1 = Some c ->
  exists b p', r_add_chunk p c = Ret (b, p') /\ handing_over cut (l1 ++ [c]) p' /\
    chunks (rbase p') = l1 ++ [c].
Proof.
  intros H Hc. rewrite (r_add_chunk_open p c l1 H). pose proof H as [[E1 E2] Hb Hn Hs [k Hk]].
  destruct Hcut as [Hl Hz Hd Hp Ht Hcnt].
  destruct (layout_lookup _ _ _ _ _ Hl Hc) as (-> & _ & Hc0). rewrite Z.add_0_l.
  pose proof (lookup_lt_Some _ _ _ Hc) as Hlt.
  assert (has_data c = true) as Hcd.
  { rewrite Forall_forall in Hd. apply Hd. by eapply list_elem_of_lookup_2. }
  assert (length l1 = (length (chunks (rbase p)) + k)%nat) as Hlen.
  { rewrite Hk, length_app, length_replicate. done. }
  cbv zeta. rewrite (proj2 (Z.leb_le _ _)) by lia.
  replace (Z.to_nat (Z.of_nat (length l1) + 1)) with (S (length l1)) by lia.
  rewrite Nat2Z.id. cbn [rbase set_rbase chunks set_chunks rnum_bytes recvd_bytes recvd_chunks].
  assert (resize_to (S (length l1)) chunk_zero (chunks (rbase p)) = l1 ++ [chunk_zero]) as Er.
  { rewrite resize_to_grow by lia. rewrite Hk at 2. rewrite <- app_assoc. f_equal.
    rewrite <- replicate_S_end. f_equal. lia. }
  rewrite Er, list_lookup_middle by done. cbn [access mbind outcome_bind has_data].
  change (has_data chunk_zero) with false. cbv iota.
  destruct (resize_zero (chunks (rbase p)) (S (length l1)) ltac:(lia)) as [T1 _]. rewrite Er in T1.
  assert (<[length l1 := c]> (l1 ++ [chunk_zero]) = l1 ++ [c]) as Ei.
  { rewrite insert_app_r_alt, Nat.sub_diag by lia. done. }
  assert (slots_of (l1 ++ [c]) cut) as Hs2.
  { rewrite <- Ei. apply slots_store; [|done]. rewrite <- Er. apply slots_resize; [done|lia]. }
  pose proof (slots_total _ _ Hs2 (layout_ok _ _ _ Hl)) as Ht2.
  assert (total_len (l1 ++ [c]) = recvd_bytes p + ch_datalen c) as Et.
  { rewrite Hb, <- T1, !total_len_app. unfold total_len at 2 4. simpl. lia. }
  rewrite Hn, !to_long_small by lia.
  eexists _, _. split; [done|]. split; [split|]; simpl; rewrite ?Er, ?Ei; try done.
  exists 0%nat. simpl. by rewrite app_nil_r.
Qed.

Lemma add_chunks_handover l2 l1 p :
  handing_over cut l1 p -> slots_of (l1 ++ l2) cut ->
  exists p', add_chunks p l2 = Ret p' /\ handing_over cut (l1 ++ l2) p'.
Proof.
  revert l1 p. induction l2 as [|c l2 IH]; intros l1 p H Hs.
  { exists p. by rewrite app_nil_r. }
  pose proof (slots_length _ _ Hs) as Hlen. rewrite length_app in Hlen. simpl in Hlen.
  assert ((l1 ++ c :: l2) !! length l1 = Some c) as Hc by (by apply list_lookup_middle).
  assert (exists b p', r_add_chunk p c = Ret (b, p') /\ handing_over cut (l1 ++ [c]) p')
    as (b & p1 & E & H1).
  { destruct (slots_lookup _ _ _ _ Hs Hc) as [->|Hcut'].
    - apply hand_over_zero; [done|lia].
    - destruct (hand_over_chunk p l1 c H Hcut') as (b & p' & ? & ? & _). eauto. }
  simpl. rewrite E. cbn [mbind outcome_bind].
  destruct (IH (l1 ++ [c]) p1 H1) as (p2 & E2 & H2); [by rewrite <- app_assoc|].
  exists p2. by rewrite <- app_assoc in H2.
Qed.
End handover.

Lemma r_subsume_spec_core cut id ds labels p other :
  cutting cut -> receiver_new id ds [] labels = Ret p ->
  recv_ok cut other -> tail_filled (chunks (rbase other)) ->
  exists r, r_subsume p other = Ret r /\ recv_ok cut r /\
    chunks (rbase r) = chunks (rbase other) /\
    complete (rbase r) = complete (rbase other) /\
    deps (rbase r) = list_to_set ds /\ send_labels (rbase r) = Some labels /\
    dependents (rbase r) = dependents (rbase other) /\ placeholder (rbase r) = false.
Proof.
  intros Hcut [= <-] [Hs Hb Hc Hn He Hu] Htail. unfold r_subsume.
  set (p0 := set_rbase _ _).
  destruct (add_chunks_handover cut Hcut (chunks (rbase other)) [] p0) as (p' & E & H').
  { split; simpl; try done. by exists 0%nat. }
  { done. }
  rewrite E. cbn [mbind outcome_bind]. eexists. split; [done|].
  destruct (add_chunks_core _ _ _ E) as [f Ef].
  assert (chunks (rbase p') = chunks (rbase other)) as Ech.
  { destruct (ho_prefix _ _ _ H') as [k Hk]. simpl in Hk. destruct k as [|k].
    - by rewrite Hk, app_nil_r.
    - exfalso. rewrite replicate_S_end, app_assoc in Hk.
      destruct Htail as [Hnil|(l0 & c & El & Hd)].
      + rewrite Hnil in Hk. by destruct (chunks (rbase p') ++ replicate k chunk_zero).
      + rewrite El in Hk. apply app_inj_tail in Hk as [_ ->]. done. }
  simpl. rewrite Ef in Ech |- *. simpl in *. split_and!; try done.
  - split; simpl; rewrite ?Ech; done.
  - set_solver.
Qed.

(** A Begin_IROB that arrives after some of its chunks, or after its
    End_IROB, takes over all of them: the real IROB has the placeholder's
    chunks in their places, its counts and its dependents, and its own
    dependencies and labels. *)
Theorem r_subsume_spec cut id ds labels p other :
  cutting cut -> receiver_new id ds [] labels = Ret p ->
  recv_ok cut other -> tail_filled (chunks (rbase other)) ->
  exists r, r_subsume p other = Ret r /\ recv_ok cut r /\
    chunks (rbase r) = chunks (rbase other) /\
    complete (rbase r) = complete (rbase other) /\
    deps (rbase r) = list_to_set ds /\ send_labels (rbase r) = Some labels /\
    dependents (rbase r) = dependents (rbase other) /\ placeholder (rbase r) = false.
Proof. apply r_subsume_spec_core. Qed.

(** The condition on the placeholder's queue is kept by every arrival. *)
Lemma tail_filled_last l :
  tail_filled l <-> forall c, last l = Some c -> has_data c = true.
Proof.
  split.
  - intros [->|(l0 & c & -> & Hc)] d; [done|]. rewrite last_snoc. by intros [= <-].
  - intros H. destruct (decide (l = [])) as [->|Hne]; [by left|]. right.
    destruct (exists_last Hne) as (l0 & c & ->). exists l0, c. split; [done|].
    apply H. apply last_snoc.
Qed.

Lemma tail_filled_store l i c :
  (i < length l)%nat -> has_data c = true -> (tail_filled l \/ i = pred (length l)) ->
  tail_filled (<[i := c]> l).
Proof.
  intros Hi Hc H. apply tail_filled_last. intros d. rewrite last_lookup, length_insert.
  destruct (decide (i = pred (length l))) as [->|Hne].
  - rewrite list_lookup_insert_eq by done. by intros [= <-].
  - rewrite list_lookup_insert_ne by done. rewrite <- last_lookup.
    destruct H as [H|?]; [|done]. by apply tail_filled_last.
Qed.

Lemma arrive_tail cut e p p' :
  cutting cut -> recv_ok cut p -> arrival_ok cut e -> arrive cut e p = Ret p' ->
  tail_filled (chunks (rbase p)) -> tail_filled (chunks (rbase p')).
Proof.
  intros Hcut Hok He E Ht. destruct e as [i|]; simpl in *.
  2:{ destruct (r_finish_spec cut Hcut p Hok) as (b & q & Eq & _ & _ & Ech).
      rewrite Eq in E. injection E as <-. by rewrite Ech. }
  destruct (lookup_lt_is_Some_2 _ _ He) as [c Hc]. rewrite Hc in E. cbn [access mbind outcome_bind] in E.
  assert (has_data c = true) as Hcd.
  { pose proof (cut_data _ Hcut) as Hd. rewrite Forall_forall in Hd. apply Hd.
    by eapply list_elem_of_lookup_2. }
  destruct (layout_lookup _ _ _ _ _ (cut_layout _ Hcut) Hc) as (Hseq & _ & _).
  apply bind_ret_inv in E as ([b q] & E & [= ->]). unfold r_add_chunk in E.
  apply bind_ret_inv in E as ([] & _ & E); simpl in E; [by simplify_eq|].
  apply bind_ret_inv in E as (u & _ & E). destruct (_ && _) in E; [by simplify_eq|].
  rewrite Hseq, Z.add_0_l in E. apply bind_ret_inv in E as (ex & Hex & E).
  destruct (Z.leb_spec (Z.of_nat (length (chunks (rbase p)))) (Z.of_nat i)) as [Hle|Hgt]; simpl in Hex.
  - replace (Z.to_nat (Z.of_nat i + 1)) with (S i) in * by lia. rewrite Nat2Z.id in *.
    rewrite resize_to_grow, lookup_app_r in Hex by lia.
    destruct (replicate _ _ !! _) eqn:Er; [|done]. apply lookup_replicate in Er as [-> _].
    injection Hex as <-. simpl in E. injection E as _ <-. simpl.
    apply tail_filled_store; [rewrite length_resize_to; lia|done|].
    right. by rewrite length_resize_to.
  - destruct (has_data ex) in E; [destruct (_ || _) in E; by simplify_eq|].
    injection E as _ <-. simpl. apply tail_filled_store; [lia|done|by left].
Qed.

(** * Two chunks, evaluated *)

Definition demo_cut : list irob_chunk_data :=
  [Chunk 7 0 0 2 (Some [Byte.x61; Byte.x62]);
   Chunk 7 1 2 3 (Some [Byte.x63; Byte.x64; Byte.x65])].

Lemma demo_cutting : cutting demo_cut.
Proof. split; repeat constructor; done. Qed.

(** The second chunk twice, the end, the first chunk. *)
Definition demo_arrivals : list arrival :=
  [ArriveChunk 1; ArriveChunk 1; ArriveEnd; ArriveChunk 0].

Lemma demo_arrivals_ok : Forall (arrival_ok demo_cut) demo_arrivals.
Proof. repeat constructor. Qed.

Definition demo_received (es : list arrival) : PendingReceiverIROB :=
  match receiver_new 7 [] [] 0 with
  | Ret p => match arrivals demo_cut es p with Ret p' => p' | _ => p end
  | _ => receiver_placeholder 7
  end.

Lemma demo_received_ok es :
  Forall (arrival_ok demo_cut) es -> recv_ok demo_cut (demo_received es).
Proof.
  intros H. unfold demo_received.
  destruct (receiver_new_ok demo_cut 7 [] 0) as (p & -> & Hok & _).
  destruct (arrivals_spec demo_cut demo_cutting es p Hok H) as (p' & -> & Hok' & _). done.
Qed.

Lemma reassembly_witness :
  exists p p', receiver_new 7 [] [] 0 = Ret p /\ arrivals demo_cut demo_arrivals p = Ret p' /\
    read_data p' 4 = Ret [Byte.x61; Byte.x62; Byte.x63; Byte.x64].
Proof.
  destruct (reassembly demo_cut demo_arrivals 7 [] 0 demo_cutting demo_arrivals_ok)
    as (p & p' & b & E1 & E2 & E3 & Hb & Hr).
  exists p, p'. split; [exact E1|]. split; [exact E2|].
  rewrite (Hr (proj2 Hb ltac:(split; [set_solver|intros [|[|i]] Hi; simpl in Hi; [set_solver|set_solver|lia]])) 4 ltac:(lia)).
  vm_compute. reflexivity.
Defined.

Lemma consume_all_witness :
  exists p', consume_all (demo_received demo_arrivals) [1; 3] =
    Ret ([Byte.x61; Byte.x62; Byte.x63; Byte.x64], p') /\ numbytes p' = 1.
Proof.
  assert (reading_ok (demo_received demo_arrivals)) as Hrd.
  { apply (complete_reading demo_cut); [apply demo_cutting|apply demo_received_ok, demo_arrivals_ok|].
    vm_compute. reflexivity. }
  destruct (consume_all_spec (demo_received demo_arrivals) [1; 3] Hrd ltac:(by repeat constructor))
    as (p' & E & _ & Hu & Hn).
  exists p'. split; [rewrite E; vm_compute; reflexivity|]. rewrite Hn, Hu. vm_compute. reflexivity.
Defined.

Lemma get_missing_chunks_witness :
  0 ∈ get_missing_chunks (demo_received [ArriveChunk 1; ArriveEnd]).
Proof.
  apply (get_missing_chunks_spec demo_cut (demo_received [ArriveChunk 1; ArriveEnd]) 0
    demo_cutting (demo_received_ok [ArriveChunk 1; ArriveEnd] ltac:(repeat constructor))
    ltac:(vm_compute; reflexivity)).
  split; [simpl; lia|]. vm_compute. discriminate.
Defined.

Lemma r_subsume_witness :
  exists p r, receiver_new 7 [5] [] 0 = Ret p /\
    r_subsume p (demo_received [ArriveChunk 1; ArriveEnd]) = Ret r /\
    deps (rbase r) = {[5]} /\ complete (rbase r) = true.
Proof.
  eexists. destruct (r_subsume_spec demo_cut 7 [5] 0 _ (demo_received [ArriveChunk 1; ArriveEnd])
    demo_cutting eq_refl (demo_received_ok [ArriveChunk 1; ArriveEnd] ltac:(repeat constructor)))
    as (r & E & _ & _ & Hc & Hd & _).
  { right. eexists [chunk_zero], _. split; vm_compute; reflexivity. }
  exists r. split; [reflexivity|]. split; [exact E|]. split; [rewrite Hd; vm_compute; reflexivity|].
  rewrite Hc. vm_compute. reflexivity.
Defined.
