(* ===== verification/Transfer.v ===== *)
(** From the sender's IROB to the receiver's: the chunks the sender hands out
    (SenderSpec.v) are a cutting in the receiver's sense (ReceiverSpec.v), so
    whatever connections carry them, in whatever order and however often, the
    application at the other end reads the bytes the application gave. *)

From S2P Require Import Prelude Irob Chunks Control SenderIrob SenderSpec ReceiverIrob ReceiverSpec.

Implicit Types (p : PendingSenderIROB).

(** The chunk messages of an IROB: the sender's cutting with its bytes. *)
Definition wire_chunk p (s : irob_chunk_data) : irob_chunk_data :=
  Chunk (ch_id s) (ch_seqno s) (ch_offset s) (ch_datalen s)
    (Some (slice (ch_offset s) (ch_datalen s) (app_data p))).
Definition wire_cut p : list irob_chunk_data := wire_chunk p <$> sent_chunks p.

Lemma length_slice {A} off len (l : list A) :
  0 <= off -> 0 <= len -> off + len <= Z.of_nat (length l) ->
  Z.of_nat (length (slice off len l)) = len.
Proof. intros. unfold slice. rewrite length_take, length_drop. lia. Qed.

Lemma slice_app {A} off n m (l : list A) :
  0 <= off -> 0 <= n -> 0 <= m -> slice off n l ++ slice (off + n) m l = slice off (n + m) l.
Proof.
  intros. unfold slice.
  replace (Z.to_nat (n + m)) with (Z.to_nat n + Z.to_nat m)%nat by lia.
  replace (Z.to_nat (off + n)) with (Z.to_nat off + Z.to_nat n)%nat by lia.
  by rewrite <- drop_drop, take_take_drop.
Qed.

Lemma total_len_wire p l : total_len (wire_chunk p <$> l) = total_len l.
Proof.
  induction l as [|c l IH]; [done|]. cbn [fmap list_fmap]. by rewrite !total_len_cons, IH.
Qed.

Lemma layout_wire p n o l : layout n o l -> layout n o (wire_chunk p <$> l).
Proof.
  revert n o. induction l as [|c l IH]; intros n o; simpl; [done|].
  intros (? & ? & ? & ?). split_and!; try done. by apply IH.
Qed.

Lemma wire_bytes p n o l :
  layout n o l -> 0 <= o ->
  bytes_of_chunks (wire_chunk p <$> l) = slice o (total_len l) (app_data p).
Proof.
  revert n o. induction l as [|c l IH]; intros n o Hl Ho.
  - unfold bytes_of_chunks, slice. simpl. done.
  - pose proof (layout_total _ _ _ Hl) as Ht0. destruct Hl as (_ & E & H0 & Hl).
    pose proof (layout_total _ _ _ Hl).
    cbn [fmap list_fmap]. rewrite bytes_of_chunks_cons, total_len_cons.
    rewrite (IH _ _ Hl) by lia. unfold wire_chunk at 1, chunk_bytes. simpl.
    rewrite E. by rewrite slice_app.
Qed.

Lemma length_app_data p : sender_ok p -> Z.of_nat (length (app_data p)) = num_bytes p.
Proof. intros H. rewrite (so_num p H). apply length_bytes_of_chunks, (so_sized p H). Qed.

(** When every byte has been cut, the messages are a cutting of the data. *)
Lemma wire_cutting p :
  sender_ok p -> Z.of_nat (length (sent_chunks p)) < 2 ^ 31 -> cutting (wire_cut p).
Proof.
  intros Hok Hlen. pose proof (length_app_data p Hok) as Hd.
  pose proof Hok as [Ha Hz Hn Hb Hs Hsp Hid Hsl Hp Hr]. unfold wire_cut. split.
  - by apply layout_wire.
  - apply Forall_fmap, Forall_forall. intros c Hc. apply list_elem_of_lookup in Hc as [i Hi].
    destruct (layout_lookup _ _ _ _ _ Hs Hi) as (_ & E & H0).
    pose proof (layout_end _ _ _ _ _ Hs Hi).
    pose proof (total_len_nonneg _ (Forall_take _ i _ (layout_ok _ _ _ Hs))).
    unfold sized, wire_chunk, chunk_bytes. simpl. apply length_slice; lia.
  - apply Forall_fmap, Forall_forall. intros c _. done.
  - apply Forall_fmap. eapply Forall_impl; [exact Hsp|]. done.
  - rewrite total_len_wire. lia.
  - by rewrite length_fmap.
Qed.

Lemma all_chunked_total p :
  sender_ok p -> all_bytes_chunked p = true -> total_len (sent_chunks p) = num_bytes p.
Proof.
  intros [Ha Hz Hn Hb Hs Hsp Hid Hsl Hp Hr]. unfold all_bytes_chunked, expected_bytes.
  rewrite !sum_chunks_total by (eauto using layout_ok; lia). intros H%Z.eqb_eq. lia.
Qed.

(** C5: Once the sender has handed out every byte of an IROB, any arrival of
    its chunks and its End_IROB, whatever the order and the repetitions, makes
    the receiver's IROB complete, and the receiving application reads exactly
    the bytes the sending application wrote. *)
Theorem end_to_end p es id ds labels :
  sender_ok p -> all_bytes_chunked p = true -> Z.of_nat (length (sent_chunks p)) < 2 ^ 31 ->
  Forall (arrival_ok (wire_cut p)) es ->
  ArriveEnd ∈ es -> (forall i, (i < length (sent_chunks p))%nat -> ArriveChunk i ∈ es) ->
  exists q q', receiver_new id ds [] labels = Ret q /\ arrivals (wire_cut p) es q = Ret q' /\
    r_is_complete q' = Ret true /\ numbytes q' = num_bytes p /\
    forall len, 0 < len -> read_data q' len = Ret (take (Z.to_nat len) (app_data p)).
Proof.
  intros Hok Hall Hlen Hes Hend Hchunks. pose proof (wire_cutting p Hok Hlen) as Hcut.
  assert (bytes_of_chunks (wire_cut p) = app_data p) as Eb.
  { unfold wire_cut. rewrite (wire_bytes p 0 0) by (apply Hok || lia).
    rewrite all_chunked_total by done. unfold slice. simpl.
    apply take_ge. pose proof (length_app_data p Hok). lia. }
  destruct (receiver_new_ok (wire_cut p) id ds labels) as (q & Eq & Hq & Hc0 & Hch0).
  destruct (arrivals_spec _ Hcut es q Hq Hes) as (q' & Ea & Hq' & Hce & Hchk).
  destruct (r_is_complete_spec _ Hcut q' Hq') as (b & Ec & Hb).
  assert (chunks (rbase q') = wire_cut p) as Ech.
  { apply list_eq. intros i. destruct (wire_cut p !! i) as [c|] eqn:Hc.
    - apply (Hchk i c Hc). right. apply Hchunks. apply lookup_lt_Some in Hc.
      unfold wire_cut in Hc. by rewrite length_fmap in Hc.
    - apply lookup_ge_None in Hc. apply lookup_ge_None.
      pose proof (slots_length _ _ (ro_slots _ _ Hq')). lia. }
  assert (b = true) as -> by (apply Hb; split; [apply Hce; by right|done]).
  destruct (complete_reading _ q' Hcut Hq' Ech) as [Hrd Hu].
  exists q, q'. split_and!; try done.
  - unfold numbytes. rewrite (rd_num _ Hrd), Hu, Eb. by apply length_app_data.
  - intros len Hpos. rewrite read_data_spec by done. by rewrite Hu, Eb.
Qed.

Lemma end_to_end_witness :
  exists q q', receiver_new 7 [] [] 0 = Ret q /\
    arrivals (wire_cut demo_sender_sent) [ArriveChunk 1; ArriveEnd; ArriveChunk 1; ArriveChunk 0] q =
      Ret q' /\ read_data q' 3 = Ret [Byte.x61; Byte.x62; Byte.x63].
Proof.
  destruct (end_to_end demo_sender_sent
    [ArriveChunk 1; ArriveEnd; ArriveChunk 1; ArriveChunk 0] 7 [] 0 demo_sender_sent_ok)
    as (q & q' & E1 & E2 & _ & _ & Hr).
  - vm_compute. reflexivity.
  - vm_compute. reflexivity.
  - repeat constructor.
  - set_solver.
  - intros [|[|i]] Hi; vm_compute in Hi; [set_solver|set_solver|lia].
  - exists q, q'. split; [exact E1|]. split; [exact E2|]. rewrite (Hr 3 ltac:(lia)).
    vm_compute. reflexivity.
Defined.
