(* ===== verification/Lattice.v ===== *)
(** [PendingIROBLattice] of pending_irob.h/.cpp: the IROBs of one direction of
    a multi-socket, their dependencies, and the IROBs already finished.

    The deque of shared pointers is a list of optional objects; an object is
    reached through its slot, so a pointer obtained from [find] is the IROB's
    identifier and a mutation through it is [update_found].  The class is used
    with two kinds of objects (sender and receiver), so the file is generic in
    [IrobOps], and in the set of finished identifiers through [IdSet].  The
    membership lock is not modelled: each operation runs under it. *)

From S2P Require Import Prelude Labels Irob IntSet.

Record lattice (O IS : Type) := Lattice {
  pending_irobs : list (option O);
  offset : Z;                          (* size_t *)
  last_anon_irob_id : Z;
  count : Z;                           (* size_t *)
  min_dominator_set : gset Z;
  past_irobs : IS;
  dropped_irobs : IS
}.
Arguments Lattice {O IS}.
Arguments pending_irobs {O IS}.
Arguments offset {O IS}.
Arguments last_anon_irob_id {O IS}.
Arguments count {O IS}.
Arguments min_dominator_set {O IS}.
Arguments past_irobs {O IS}.
Arguments dropped_irobs {O IS}.

Section lattice_ops.
Context {O IS : Type} `{!IrobOps O} `{!IdSet IS}.
Abbreviation L := (lattice O IS).
Implicit Types (l : L) (p o : O) (id : Z).

Definition set_pending (f : list (option O) -> list (option O)) l : L :=
  Lattice (f (pending_irobs l)) (offset l) (last_anon_irob_id l) (count l)
    (min_dominator_set l) (past_irobs l) (dropped_irobs l).
Definition set_offset (z : Z) l : L :=
  Lattice (pending_irobs l) z (last_anon_irob_id l) (count l)
    (min_dominator_set l) (past_irobs l) (dropped_irobs l).
Definition set_last_anon (z : Z) l : L :=
  Lattice (pending_irobs l) (offset l) z (count l)
    (min_dominator_set l) (past_irobs l) (dropped_irobs l).
Definition set_count (z : Z) l : L :=
  Lattice (pending_irobs l) (offset l) (last_anon_irob_id l) z
    (min_dominator_set l) (past_irobs l) (dropped_irobs l).
Definition set_dominators (X : gset Z) l : L :=
  Lattice (pending_irobs l) (offset l) (last_anon_irob_id l) (count l)
    X (past_irobs l) (dropped_irobs l).
Definition set_past (s : IS) l : L :=
  Lattice (pending_irobs l) (offset l) (last_anon_irob_id l) (count l)
    (min_dominator_set l) s (dropped_irobs l).
Definition set_dropped (s : IS) l : L :=
  Lattice (pending_irobs l) (offset l) (last_anon_irob_id l) (count l)
    (min_dominator_set l) (past_irobs l) s.

Definition lattice_new : L := Lattice [] 0 (-1) 0 ∅ ids_empty ids_empty.

(** [int index = id - offset;] the subtraction is on [unsigned long]. *)
Definition slot_index id l : Z := to_int (id - offset l).
Definition size_int l : Z := to_int (Z.of_nat (length (pending_irobs l))).

Definition slot_at (index : Z) l : option O :=
  if (index <? 0) || (size_int l <=? index) then None
  else mjoin (pending_irobs l !! Z.to_nat index).

Definition find_locked id l : option O := slot_at (slot_index id l) l.

(** Mutation of an object through the pointer [find_locked] returns. *)
Definition update_found id (f : O -> O) l : L :=
  let index := slot_index id l in
  match slot_at index l with
  | Some o => set_pending (fun q => <[Z.to_nat index := Some (f o)]> q) l
  | None => l
  end.

(** [while (index < 0) { push_front(NULL); --offset; index = id - offset; }] *)
Fixpoint push_front_loop (fuel : nat) id l : L :=
  if slot_index id l <? 0 then
    match fuel with
    | S fuel =>
        push_front_loop fuel id
          (set_offset (to_size_t (offset l - 1)) (set_pending (cons None) l))
    | 0%nat => l
    end
  else l.

(** Grow the deque at either end until it has a slot for [id]. *)
Definition make_room id l : L :=
  let l := push_front_loop (Z.to_nat (- slot_index id l)) id l in
  let index := slot_index id l in
  if size_int l <=? index
  then set_pending (resize_to (Z.to_nat (index + 1)) None) l else l.

(** Put the object in its slot; a placeholder there is subsumed. *)
Definition fill_slot p l : outcome L :=
  let index := slot_index (irob_id (core p)) l in
  access (pending_irobs l !! Z.to_nat index) ≫= fun slot =>
  match slot with
  | Some o =>
      assert_ (negb (placeholder (core p))) ≫= fun _ =>
      assert_ (placeholder (core o)) ≫= fun _ =>
      assert_ (irob_id (core o) =? irob_id (core p)) ≫= fun _ =>
      subsume p o ≫= fun p' =>
      Ret (set_pending (fun q => <[Z.to_nat index := Some p']> q) l)
  | None => Ret (set_pending (fun q => <[Z.to_nat index := Some p]> q) l)
  end.

(** The first half of [insert_locked]: the checks and the placement of the
    object in its slot.  [None]: the function returns false. *)
Definition insert_place p l : outcome (option L) :=
  let id := irob_id (core p) in
  if ids_contains (past_irobs l) id then Ret None
  else
    let l := match pending_irobs l with [] => set_offset (to_size_t id) l | _ => l end in
    let have := match slot_at (slot_index id l) l with
                | Some o => negb (placeholder (core o))
                | None => false
                end in
    if have then Ret None
    else fill_slot p (make_room id l) ≫= fun l' => Ret (Some l').

Definition correct_deps p (infer_deps : bool) l : O * L :=
  let remove_past q := upd_core (remove_deps_if (ids_contains (past_irobs l))) q in
  let p := if infer_deps then p else remove_past p in
  let '(p, l) :=
    if infer_deps then
      let id := irob_id (core p) in
      if anonymous (core p) then
        if (0 <=? last_anon_irob_id l) && bool_decide (min_dominator_set l = ∅) then
          (upd_core (add_dep (last_anon_irob_id l)) p, set_last_anon id l)
        else
          (upd_core (set_deps (fun d => d ∪ min_dominator_set l)) p,
           set_last_anon id (set_dominators ∅ l))
      else
        let isect := deps (core p) ∩ min_dominator_set l in
        let p' := if (0 <=? last_anon_irob_id l) && bool_decide (isect = ∅)
                  then upd_core (add_dep (last_anon_irob_id l)) p else p in
        (p', set_dominators ({[id]} ∪ (min_dominator_set l ∖ isect)) l)
    else (p, l) in
  let p := if infer_deps then p else remove_past p in
  (p, l).

(** One round of the loop that registers the new IROB with a dependency. *)
Definition link_dep (pid : Z) l (dep : Z) : outcome L :=
  if ids_contains (past_irobs l) dep then Ret l
  else
    match find_locked dep l with
    | Some _ => Ret (update_found dep (upd_core (add_dependent pid)) l)
    | None =>
        insert_place (make_placeholder dep) l ≫= fun r =>
        match r with
        | None => Trap AssertFailed
        | Some l' => Ret (update_found dep (upd_core (add_dependent pid)) l')
        end
    end.

Fixpoint link_deps (pid : Z) (ds : list Z) l : outcome L :=
  match ds with
  | [] => Ret l
  | d :: ds => link_dep pid l d ≫= fun l' => link_deps pid ds l'
  end.

Definition insert_locked p (infer_deps : bool) l : outcome (bool * L) :=
  insert_place p l ≫= fun r =>
  match r with
  | None => Ret (false, l)
  | Some l1 =>
      if placeholder (core p) then Ret (true, l1)
      else
        let id := irob_id (core p) in
        access (find_locked id l1) ≫= fun p1 =>
        let '(p2, l2) := correct_deps p1 infer_deps l1 in
        let l3 := update_found id (fun _ => p2) l2 in
        link_deps id (ascending (deps (core p2))) l3 ≫= fun l4 =>
        Ret (true, set_count (to_size_t (count l4 + 1)) l4)
  end.

(** [while (!empty() && pending_irobs[0] == NULL) { pop_front(); offset++; }] *)
Fixpoint pop_front_nulls (q : list (option O)) (off : Z) : list (option O) * Z :=
  match q with
  | None :: q' => pop_front_nulls q' (to_size_t (off + 1))
  | _ => (q, off)
  end.

Definition notify_dependents id (ds : list Z) l : L :=
  foldl (fun l d => update_found d (upd_core (dep_satisfied id)) l) l ds.

Definition erase_locked id (at_receiver : bool) l : bool * L :=
  let index := slot_index id l in
  match slot_at index l with
  | None => (false, l)
  | Some victim =>
      let l := set_past (ids_insert (past_irobs l) id) l in
      let l := if at_receiver
               then set_dominators (min_dominator_set l ∖ {[id]}) l else l in
      let q := <[Z.to_nat index := None]> (pending_irobs l) in
      let '(q', off') := pop_front_nulls q (offset l) in
      let l := set_offset off' (set_pending (fun _ => q') l) in
      let l := if at_receiver
               then notify_dependents id (ascending (dependents (core victim))) l else l in
      (true, set_count (to_size_t (count l - 1)) l)
  end.

(** The breadth-first loop of [drop_irob_and_dependents]; [None] when the
    fuel runs out. *)
Fixpoint drop_loop (fuel : nat) (victims : list Z) l : option L :=
  match victims with
  | [] => Some l
  | v :: vs =>
      match fuel with
      | 0%nat => None
      | S fuel =>
          match find_locked v l with
          | None => drop_loop fuel vs l
          | Some o =>
              let l' := snd (erase_locked v false l) in
              drop_loop fuel (vs ++ ascending (dependents (core o)))
                (set_dropped (ids_insert (dropped_irobs l') v) l')
          end
      end
  end.

(** One unit for every live IROB and every dependent registered with one. *)
Definition slot_weight (s : option O) : nat :=
  match s with None => 0 | Some o => S (size (dependents (core o))) end.
Definition weight (q : list (option O)) : nat := sum_list_with slot_weight q.
Definition drop_fuel l : nat := S (weight (pending_irobs l)).

Definition drop_irob_and_dependents id l : option L := drop_loop (drop_fuel l) [id] l.

Definition past_irob_exists id l : bool := ids_contains (past_irobs l) id.
Definition is_empty l : bool := match pending_irobs l with [] => true | _ => false end.
Definition lattice_size l : Z := count l.
Definition clear l : L :=
  Lattice [] 0 (-1) 0 ∅ (ids_clear (past_irobs l)) (dropped_irobs l).

(** [for_each_by_ref(GetIDs)]. *)
Definition get_all_ids l : list Z :=
  omap (fun s => (fun o => irob_id (core o)) <$> s) (pending_irobs l).

Definition irob_was_dropped id l : bool := ids_contains (dropped_irobs l) id.
Definition irob_is_undeliverable p l : bool :=
  existsb (fun d => irob_was_dropped d l) (ascending (deps (core p))).

(** [get_oldest]; the null pointer for an empty lattice. *)
Definition get_oldest l : outcome (option O) :=
  match pending_irobs l with
  | [] => Ret None
  | front :: _ => assert_ (bool_decide (is_Some front)) ≫= fun _ => Ret front
  end.
End lattice_ops.
Arguments slot_weight {O _} s.
Arguments make_room : simpl never.
Arguments fill_slot : simpl never.
Arguments insert_place : simpl never.
Arguments correct_deps : simpl never.
