(* ===== verification/LatticeRep.v ===== *)
(** The abstract lattice and the refinement of the deque to it.

    Abstractly a lattice holds a finite map from identifiers to live IROBs.
    [rep] relates the deque to the map; it contains the class invariant that
    pending_irob.h states for the deque (first slot not null, slot [i] null or
    the IROB [i + offset]) and that no live IROB is also a past one.  Every
    operation of the deque is then shown to be the map operation.

    [lo, hi) is a window that contains the identifiers in use.  The slot
    arithmetic of the code is on 32-bit [int]s, and the window's width is what
    keeps it exact. *)

From S2P Require Import Prelude Irob IntSet Lattice.

Section rep.
Context {O IS : Type} `{!IrobOps O} `{!IrobLaws O} `{!IdSet IS} `{!IdSetLaws IS}.
Context (lo hi : Z).
Context (Hlo : 0 <= lo) (Hhi : hi <= 2 ^ 63) (Hwin : hi - lo < 2 ^ 31).
Abbreviation L := (lattice O IS).
Implicit Types (l : L) (p o : O) (id : Z) (m : gmap Z O).

(** The deque holds exactly the map, up to where its front is. *)
Record holds l m : Prop := {
  h_slot i o : pending_irobs l !! i = Some (Some o) ->
    m !! (offset l + Z.of_nat i) = Some o;
  h_map id o : m !! id = Some o ->
    lo <= id < hi /\ irob_id (core o) = id /\ offset l <= id /\
    pending_irobs l !! Z.to_nat (id - offset l) = Some (Some o);
  h_window : pending_irobs l <> [] ->
    lo <= offset l /\ offset l + Z.of_nat (length (pending_irobs l)) <= hi;
  h_offset : 0 <= offset l <= 2 ^ 63
}.

Record rep l m : Prop := {
  rep_holds : holds l m;
  rep_front : pending_irobs l <> [] -> exists o, pending_irobs l !! 0%nat = Some (Some o);
  rep_past id : is_Some (m !! id) -> ids_contains (past_irobs l) id = false
}.

(** The fields a placement leaves alone. *)
Record same_meta l l' : Prop := {
  sm_anon : last_anon_irob_id l' = last_anon_irob_id l;
  sm_count : count l' = count l;
  sm_dom : min_dominator_set l' = min_dominator_set l;
  sm_past : past_irobs l' = past_irobs l;
  sm_dropped : dropped_irobs l' = dropped_irobs l
}.

#[local] Instance same_meta_trans : Transitive same_meta.
Proof. intros ??? [] []. split; congruence. Qed.
#[local] Instance same_meta_refl : Reflexive same_meta.
Proof. by intros. Qed.

Lemma rep_new : rep lattice_new ∅.
Proof.
  split; [split|done|]; simpl; try done.
  intros id. rewrite lookup_empty. by intros [].
Qed.

Lemma rep_same_past l l' m :
  rep l m -> pending_irobs l' = pending_irobs l -> offset l' = offset l ->
  (forall id, is_Some (m !! id) -> ids_contains (past_irobs l') id = false) -> rep l' m.
Proof.
  intros [[H1 H2 H3 H4] H5 H6] Eq Eo Hp. split; [split| |done]; rewrite ?Eq, ?Eo; done.
Qed.

Lemma holds_nil l m : holds l m -> pending_irobs l = [] -> m = ∅.
Proof.
  intros H E. apply map_empty. intros id. destruct (m !! id) eqn:Hm; [|done].
  apply (h_map _ _ H) in Hm as (_ & _ & _ & Hq). by rewrite E in Hq.
Qed.

Lemma slot_index_exact l id :
  lo <= id < hi -> lo <= offset l <= hi -> slot_index id l = id - offset l.
Proof. intros. apply to_int_small. lia. Qed.

Lemma size_int_exact l :
  lo <= offset l -> offset l + Z.of_nat (length (pending_irobs l)) <= hi ->
  size_int l = Z.of_nat (length (pending_irobs l)).
Proof. intros. apply to_int_small. lia. Qed.

Lemma holds_in_range l m : holds l m -> pending_irobs l <> [] ->
  lo <= offset l /\ offset l + Z.of_nat (length (pending_irobs l)) <= hi /\
  (0 < length (pending_irobs l))%nat.
Proof.
  intros H Hne. destruct (h_window _ _ H Hne). split_and!; [done..|].
  destruct (pending_irobs l); [done|simpl; lia].
Qed.

(** The pointer [find_locked] returns is the map's entry. *)
Lemma find_holds l m id : holds l m -> lo <= id < hi -> find_locked id l = m !! id.
Proof.
  intros H Hid. unfold find_locked, slot_at.
  destruct (decide (pending_irobs l = [])) as [E|Hne].
  { rewrite (holds_nil l m H E), lookup_empty.
    replace (size_int l) with 0 by (unfold size_int; by rewrite E).
    destruct (Z.ltb_spec (slot_index id l) 0); simpl; [done|].
    by rewrite (proj2 (Z.leb_le _ _)) by lia. }
  destruct (holds_in_range l m H Hne) as (? & ? & ?).
  rewrite slot_index_exact, size_int_exact by lia.
  destruct (Z.ltb_spec (id - offset l) 0) as [Hn|Hn]; simpl.
  { destruct (m !! id) eqn:Hm; [|done]. apply (h_map _ _ H) in Hm. lia. }
  destruct (Z.leb_spec (Z.of_nat (length (pending_irobs l))) (id - offset l)); simpl.
  { destruct (m !! id) as [o|] eqn:Hm; [|done].
    apply (h_map _ _ H) in Hm as (_ & _ & _ & Hq%lookup_lt_Some). lia. }
  destruct (pending_irobs l !! Z.to_nat (id - offset l)) as [[o|]|] eqn:Hq; simpl.
  - apply (h_slot _ _ H) in Hq. symmetry. etrans; [|exact Hq]. f_equal. lia.
  - destruct (m !! id) as [o|] eqn:Hm; [|done].
    apply (h_map _ _ H) in Hm as (_ & _ & _ & Hq'). congruence.
  - destruct (m !! id) as [o|] eqn:Hm; [|done].
    apply (h_map _ _ H) in Hm as (_ & _ & _ & Hq'). congruence.
Qed.

Lemma find_rep l m id : rep l m -> lo <= id < hi -> find_locked id l = m !! id.
Proof. intros H. apply find_holds, H. Qed.

(** Writing a slot. *)
Lemma holds_store l m id o :
  holds l m -> lo <= id < hi -> irob_id (core o) = id ->
  offset l <= id < offset l + Z.of_nat (length (pending_irobs l)) ->
  holds (set_pending (fun q => <[Z.to_nat (id - offset l) := Some o]> q) l) (<[id := o]> m).
Proof.
  intros H Hid Eo Hr. split; simpl.
  - intros i o' Hi. destruct (decide (i = Z.to_nat (id - offset l))) as [->|Hne].
    + rewrite list_lookup_insert_eq in Hi by lia. injection Hi as <-.
      replace (_ + _) with id by lia. apply lookup_insert_eq.
    + rewrite list_lookup_insert_ne in Hi by done.
      rewrite lookup_insert_ne by lia. by apply (h_slot _ _ H).
  - intros id' o'. rewrite lookup_insert. case_decide as E.
    + intros [= ->]. subst id'. split_and!; try done || lia.
      apply list_lookup_insert_eq. lia.
    + intros Hm. destruct (h_map _ _ H _ _ Hm) as (? & ? & ? & Hq).
      split_and!; try done || lia. by rewrite list_lookup_insert_ne by lia.
  - rewrite length_insert. intros _. apply (h_window _ _ H).
    intros E. rewrite E in Hr. simpl in Hr. lia.
  - apply (h_offset _ _ H).
Qed.

Lemma front_insert (q : list (option O)) n o :
  (exists o', q !! 0%nat = Some (Some o')) ->
  exists o', <[n := Some o]> q !! 0%nat = Some (Some o').
Proof.
  intros [o' Hq]. destruct (decide (n = 0%nat)) as [->|].
  - exists o. apply list_lookup_insert_eq. by apply lookup_lt_Some in Hq.
  - exists o'. by rewrite list_lookup_insert_ne.
Qed.

Lemma update_found_rep l m id f :
  rep l m -> lo <= id < hi ->
  (forall o, irob_id (core (f o)) = irob_id (core o)) ->
  rep (update_found id f l) (alter f id m) /\ same_meta l (update_found id f l).
Proof.
  intros R Hid Hf. unfold update_found. fold (find_locked id l).
  rewrite (find_rep l m id R Hid). destruct (m !! id) as [o|] eqn:Hm.
  2:{ split; [|done]. replace (alter f id m) with m; [done|].
      symmetry. apply map_eq. intros j. rewrite lookup_alter. case_decide; [|done].
      subst. by rewrite Hm. }
  split; [|done]. pose proof (rep_holds _ _ R) as H.
  destruct (h_map _ _ H _ _ Hm) as (_ & Ho & Hoff & Hq).
  assert (Hne : pending_irobs l <> []) by (intros E; by rewrite E in Hq).
  destruct (holds_in_range l m H Hne) as (? & ? & ?).
  pose proof (lookup_lt_Some _ _ _ Hq).
  rewrite slot_index_exact by lia.
  replace (alter f id m) with (<[id := f o]> m).
  2:{ apply map_eq. intros j. rewrite lookup_insert, lookup_alter.
      case_decide; [subst; by rewrite Hm|done]. }
  split.
  - apply holds_store; try done; [by rewrite Hf|lia].
  - simpl. intros _. by apply front_insert, (rep_front _ _ R).
  - simpl. intros j. rewrite lookup_insert. case_decide; [subst; intros _|].
    + apply (rep_past _ _ R). by rewrite Hm.
    + apply (rep_past _ _ R).
Qed.

(** ** Placement *)

(** Making room at the front: as many null slots as the identifier is below
    the offset. *)
Lemma push_front_loop_eq n id l :
  0 <= id -> offset l = id + Z.of_nat n -> offset l <= 2 ^ 63 -> Z.of_nat n < 2 ^ 31 ->
  push_front_loop n id l =
    set_offset id (set_pending (fun q => replicate n None ++ q) l).
Proof.
  revert l. induction n as [|n IH]; intros l Hid Ho Hb Hn.
  - simpl. replace (slot_index id l) with 0.
    + destruct l as [q off la c d pa dr]; simpl in *. by replace id with off by lia.
    + symmetry. unfold slot_index. rewrite Ho. replace (id - _) with 0 by lia. done.
  - cbn [push_front_loop]. replace (slot_index id l) with (- Z.of_nat (S n)).
    2:{ unfold slot_index. rewrite Ho. rewrite to_int_small by lia. lia. }
    destruct (Z.ltb_spec (- Z.of_nat (S n)) 0); [|lia].
    rewrite to_size_t_small by lia.
    rewrite IH by (simpl; lia). unfold set_offset, set_pending; simpl. f_equal.
    change (None :: ?q) with ([None : option O] ++ q).
    by rewrite app_assoc, <- (replicate_S_end n None).
Qed.

Lemma holds_push_front n id l m :
  holds l m -> lo <= id -> offset l = id + Z.of_nat n -> 0 <= id ->
  pending_irobs l <> [] ->
  holds (set_offset id (set_pending (fun q => replicate n None ++ q) l)) m.
Proof.
  intros H Hid Ho H0 Hne. destruct (h_window _ _ H Hne). split; simpl.
  - intros i o Hi. apply lookup_app_Some in Hi as [Hi|[Hi Hq]].
    { by apply lookup_replicate in Hi as []. }
    rewrite length_replicate in *. apply (h_slot _ _ H) in Hq.
    replace (id + Z.of_nat i) with (offset l + Z.of_nat (i - n)) by lia. done.
  - intros id' o Hm. destruct (h_map _ _ H _ _ Hm) as (? & ? & ? & Hq).
    split_and!; try done || lia.
    rewrite lookup_app_r by (rewrite length_replicate; lia).
    rewrite length_replicate. rewrite <- Hq. f_equal. lia.
  - rewrite length_app, length_replicate. lia.
  - pose proof (h_offset _ _ H). lia.
Qed.

Lemma holds_resize n l m :
  holds l m -> pending_irobs l <> [] -> (length (pending_irobs l) <= n)%nat ->
  offset l + Z.of_nat n <= hi ->
  holds (set_pending (resize_to n None) l) m.
Proof.
  intros H Hne Hn Hb. destruct (h_window _ _ H Hne).
  split; simpl; rewrite ?(resize_to_grow n) by done.
  - intros i o Hi. apply lookup_app_Some in Hi as [Hi|[Hi Hq]].
    { by apply (h_slot _ _ H). }
    by apply lookup_replicate in Hq as [].
  - intros id' o Hm. destruct (h_map _ _ H _ _ Hm) as (? & ? & ? & Hq).
    split_and!; try done || lia. rewrite lookup_app_l; [done|].
    by apply lookup_lt_Some in Hq.
  - rewrite length_app, length_replicate. lia.
  - apply (h_offset _ _ H).
Qed.

(** After [make_room] the identifier has a slot, and the front slot is
    either filled or the one of the identifier. *)
Lemma make_room_spec l m id :
  rep l m -> lo <= id < hi -> pending_irobs l <> [] ->
  let l' := make_room id l in
  holds l' m /\ same_meta l l' /\
  offset l' <= id < offset l' + Z.of_nat (length (pending_irobs l')) /\
  slot_index id l' = id - offset l' /\
  (id = offset l' \/ exists o, pending_irobs l' !! 0%nat = Some (Some o)).
Proof.
  intros R Hid Hne. pose proof (rep_holds _ _ R) as H.
  destruct (holds_in_range l m H Hne) as (Hl1 & Hl2 & Hl3).
  pose proof (h_offset _ _ H) as Hoff.
  unfold make_room. rewrite slot_index_exact by lia.
  destruct (Z.lt_ge_cases id (offset l)) as [Hlt|Hge].
  - rewrite push_front_loop_eq by lia.
    set (n := Z.to_nat (- (id - offset l))).
    pose proof (holds_push_front n id l m H ltac:(lia) ltac:(lia) ltac:(lia) Hne) as H'.
    set (l1 := set_offset id _) in *.
    assert (Hlen : length (pending_irobs l1) = (n + length (pending_irobs l))%nat).
    { subst l1; simpl. by rewrite length_app, length_replicate. }
    assert (offset l1 = id) as Hol1 by done.
    rewrite slot_index_exact, size_int_exact by lia.
    rewrite Hol1, (proj2 (Z.leb_gt _ _)) by lia.
    split_and!; try done; try lia. apply slot_index_exact; lia.
  - replace (Z.to_nat (- (id - offset l))) with 0%nat by lia.
    assert (push_front_loop 0 id l = l) as ->.
    { cbn [push_front_loop]. by destruct (_ <? _). }
    rewrite slot_index_exact, size_int_exact by lia.
    destruct (Z.leb_spec (Z.of_nat (length (pending_irobs l))) (id - offset l)).
    + pose proof (rep_front _ _ R Hne) as [o Ho].
      assert (holds (set_pending (resize_to (Z.to_nat (id - offset l + 1)) None) l) m).
      { apply holds_resize; try done; lia. }
      set (l1 := set_pending _ l) in *.
      assert (length (pending_irobs l1) = Z.to_nat (id - offset l + 1)) as Hlen.
      { apply length_resize_to. }
      assert (offset l1 = offset l) as Hol1 by done.
      rewrite slot_index_exact by lia. rewrite Hol1, Hlen.
      split_and!; try done; try lia.
      right. exists o. subst l1; simpl. rewrite resize_to_grow by lia.
      rewrite lookup_app_l; [done|lia].
    + rewrite slot_index_exact by lia. split_and!; try done; try lia.
      right. by apply (rep_front _ _ R).
Qed.

(** Storing in the room made gives a lattice again. *)
Lemma store_rep l m l1 id o :
  rep l m -> lo <= id < hi -> irob_id (core o) = id ->
  ids_contains (past_irobs l) id = false ->
  holds l1 m -> same_meta l l1 ->
  offset l1 <= id < offset l1 + Z.of_nat (length (pending_irobs l1)) ->
  (id = offset l1 \/ exists o, pending_irobs l1 !! 0%nat = Some (Some o)) ->
  rep (set_pending (fun q => <[Z.to_nat (id - offset l1) := Some o]> q) l1) (<[id := o]> m).
Proof.
  intros R Hid Ho Hp H Hs Hr Hf. split.
  - by apply holds_store.
  - simpl. intros _. destruct Hf as [->|Hf]; [|by apply front_insert].
    exists o. rewrite Z.sub_diag. apply list_lookup_insert_eq. lia.
  - simpl. intros j. rewrite (sm_past _ _ Hs), lookup_insert.
    case_decide; [by subst|apply (rep_past _ _ R)].
Qed.

Lemma fill_slot_spec l m p :
  rep l m -> let id := irob_id (core p) in lo <= id < hi ->
  pending_irobs l <> [] -> ids_contains (past_irobs l) id = false ->
  match m !! id with
  | None => exists l', fill_slot p (make_room id l) = Ret l' /\
      rep l' (<[id := p]> m) /\ same_meta l l'
  | Some e =>
      forall r, placeholder (core p) = false -> placeholder (core e) = true ->
      subsume p e = Ret r ->
      exists l', fill_slot p (make_room id l) = Ret l' /\
        rep l' (<[id := r]> m) /\ same_meta l l'
  end.
Proof.
  intros R id Hid Hne Hp.
  destruct (make_room_spec l m id R Hid Hne) as (H & Hs & Hr & Hi & Hf).
  set (l1 := make_room id l) in *. unfold fill_slot. fold id. rewrite Hi.
  destruct (lookup_lt_is_Some_2 (pending_irobs l1) (Z.to_nat (id - offset l1))
    ltac:(lia)) as [slot Hslot].
  rewrite Hslot. destruct slot as [o|]; cbn [access mbind outcome_bind].
  - pose proof (h_slot _ _ H _ _ Hslot) as Hm.
    replace (offset l1 + _) with id in Hm by lia. rewrite Hm.
    intros r Hpp Hpe Hsub. rewrite Hpp, Hpe. cbn [negb assert_ mbind outcome_bind].
    destruct (h_map _ _ H _ _ Hm) as (_ & Hoid & _ & _).
    rewrite Hoid. fold id. rewrite Z.eqb_refl. cbn [assert_ mbind outcome_bind]. rewrite Hsub.
    eexists. split; [done|]. split; [|etrans; [exact Hs|done]].
    apply (store_rep l); try done. by apply subsume_core in Hsub as [-> _].
  - destruct (m !! id) as [e|] eqn:Hm.
    { apply (h_map _ _ H) in Hm as (_ & _ & _ & Hq). congruence. }
    eexists. split; [done|]. split; [|etrans; [exact Hs|done]].
    by apply (store_rep l).
Qed.

(** A placement over a placeholder returns only when [subsume] does. *)
Lemma fill_slot_subsumes l m p l' e :
  rep l m -> let id := irob_id (core p) in lo <= id < hi ->
  pending_irobs l <> [] -> m !! id = Some e ->
  fill_slot p (make_room id l) = Ret l' -> exists r, subsume p e = Ret r.
Proof.
  intros R id Hid Hne Hm. destruct (make_room_spec l m id R Hid Hne) as (H & _ & Hr & Hi & _).
  unfold fill_slot. fold id. rewrite Hi.
  destruct (h_map _ _ H _ _ Hm) as (_ & _ & _ & ->). intros E.
  cbn [access mbind outcome_bind] in E. minv. eauto.
Qed.

(** The first half of [insert_locked] on the map. *)
Lemma insert_place_spec l m p :
  rep l m -> let id := irob_id (core p) in lo <= id < hi ->
  if ids_contains (past_irobs l) id then insert_place p l = Ret None
  else match m !! id with
  | None => exists l', insert_place p l = Ret (Some l') /\
      rep l' (<[id := p]> m) /\ same_meta l l'
  | Some e =>
      if placeholder (core e) then
        forall r, placeholder (core p) = false -> subsume p e = Ret r ->
        exists l', insert_place p l = Ret (Some l') /\
          rep l' (<[id := r]> m) /\ same_meta l l'
      else insert_place p l = Ret None
  end.
Proof.
  intros R id Hid. unfold insert_place. fold id.
  destruct (ids_contains _ id) eqn:Hp; [done|].
  pose proof (rep_holds _ _ R) as H. fold (find_locked id l).
  destruct (decide (pending_irobs l = [])) as [E|Hne].
  - assert (Hm : m = ∅) by by apply (holds_nil l).
    rewrite E, Hm, lookup_empty.
    assert (R0 : rep (set_offset id l) ∅).
    { split; [split| |]; simpl; rewrite ?E; try done; [lia|].
      intros j. rewrite lookup_empty. by intros []. }
    replace (to_size_t id) with id by (rewrite to_size_t_small; lia).
    fold (find_locked id (set_offset id l)). rewrite (find_rep _ ∅) by done.
    rewrite lookup_empty. unfold make_room.
    replace (slot_index id (set_offset id l)) with 0
      by (unfold slot_index; simpl; by rewrite Z.sub_diag).
    assert (push_front_loop (Z.to_nat (- 0)) id (set_offset id l) = set_offset id l) as ->.
    { simpl. by destruct (_ <? _). }
    replace (slot_index id (set_offset id l)) with 0
      by (unfold slot_index; simpl; by rewrite Z.sub_diag).
    replace (size_int (set_offset id l)) with 0 by (unfold size_int; simpl; by rewrite E).
    simpl. unfold fill_slot. fold id.
    replace (slot_index id _) with 0 by (unfold slot_index; simpl; by rewrite Z.sub_diag).
    simpl. rewrite E. simpl.
    eexists. split; [done|]. split; [|done].
    split; [split| |]; simpl; rewrite ?E; simpl.
    + intros [|i] o; simpl; [|done]. intros [= <-]. rewrite Z.add_0_r. apply lookup_insert_eq.
    + intros id' o. rewrite lookup_insert. case_decide; [|by rewrite lookup_empty].
      intros [= <-]. subst id'. rewrite Z.sub_diag. split_and!; try done; lia.
    + lia.
    + lia.
    + eauto.
    + intros j. rewrite lookup_insert, lookup_empty.
      case_decide; [by subst|by intros []].
  - assert (forall (A : Type) (a b : A),
      match pending_irobs l with [] => a | _ => b end = b) as Hcase.
    { intros. by destruct (pending_irobs l). }
    rewrite !Hcase. fold (find_locked id l). rewrite (find_rep l m) by done.
    pose proof (fill_slot_spec l m p R Hid Hne Hp) as F. fold id in F.
    destruct (m !! id) as [e|].
    + destruct (placeholder (core e)); cbn [negb]; [|done].
      intros r Hpp Hsub. destruct (F r Hpp eq_refl Hsub) as (l' & -> & ? & ?).
      cbn [mbind outcome_bind]. eauto.
    + destruct F as (l' & -> & ? & ?). cbn [mbind outcome_bind]. eauto.
Qed.

Lemma insert_subsumes l m p infer l' e :
  rep l m -> let id := irob_id (core p) in lo <= id < hi ->
  m !! id = Some e -> insert_locked p infer l = Ret (true, l') -> exists r, subsume p e = Ret r.
Proof.
  intros R id Hid Hm E. unfold insert_locked in E.
  apply bind_ret_inv in E as ([l1|] & E & K); [|done]. clear K.
  unfold insert_place in E. fold id in E. destruct (ids_contains _ id); [done|].
  destruct (pending_irobs l) as [|s q] eqn:Eq.
  { by rewrite (holds_nil _ _ (rep_holds _ _ R) Eq), lookup_empty in Hm. }
  destruct (match slot_at _ l with Some _ => _ | None => _ end); [done|].
  apply bind_ret_inv in E as (l2 & E & _).
  eapply fill_slot_subsumes; eauto. by rewrite Eq.
Qed.

(** ** Erasure *)

Lemma pop_front_nulls_spec (q : list (option O)) off :
  0 <= off -> off + Z.of_nat (length q) <= 2 ^ 63 ->
  exists k, q = replicate k None ++ fst (pop_front_nulls q off) /\
    snd (pop_front_nulls q off) = off + Z.of_nat k /\
    (fst (pop_front_nulls q off) <> [] ->
     exists o, fst (pop_front_nulls q off) !! 0%nat = Some (Some o)).
Proof.
  revert off. induction q as [|[o|] q IH]; intros off H0 Hb; simpl in *.
  - exists 0%nat. split_and!; [done|simpl; lia|done].
  - exists 0%nat. split_and!; [done|simpl; lia|]. eauto.
  - rewrite to_size_t_small by lia.
    destruct (IH (off + 1)) as (k & Hq & Ho & Hf); [lia..|].
    exists (S k). split_and!; [|lia|done]. simpl. by rewrite <- Hq.
Qed.

Lemma holds_delete l m id v :
  holds l m -> m !! id = Some v ->
  holds (set_pending (fun q => <[Z.to_nat (id - offset l) := None]> q) l) (delete id m).
Proof.
  intros H Hm. destruct (h_map _ _ H _ _ Hm) as (_ & _ & Hoff & Hq).
  pose proof (lookup_lt_Some _ _ _ Hq). split; simpl.
  - intros i o Hi. destruct (decide (i = Z.to_nat (id - offset l))) as [->|Hne].
    { rewrite list_lookup_insert_eq in Hi by lia. done. }
    rewrite list_lookup_insert_ne in Hi by done.
    rewrite lookup_delete_ne by lia. by apply (h_slot _ _ H).
  - intros id' o'. rewrite lookup_delete. case_decide; [done|]. intros Hm'.
    destruct (h_map _ _ H _ _ Hm') as (? & ? & ? & ?). split_and!; try done || lia.
    by rewrite list_lookup_insert_ne by lia.
  - rewrite length_insert. intros _. apply (h_window _ _ H).
    intros E. by rewrite E in Hq.
  - apply (h_offset _ _ H).
Qed.

Lemma holds_pop l m k q :
  holds l m -> pending_irobs l = replicate k None ++ q ->
  holds (set_offset (offset l + Z.of_nat k) (set_pending (fun _ => q) l)) m.
Proof.
  intros H Eq. split; simpl.
  - intros i o Hi. pose proof (h_slot _ _ H (k + i) o) as Hs.
    rewrite Eq, lookup_app_r, length_replicate in Hs by (rewrite length_replicate; lia).
    replace (k + i - k)%nat with i in Hs by lia. specialize (Hs Hi).
    rewrite <- Hs. f_equal. lia.
  - intros id o Hm. destruct (h_map _ _ H _ _ Hm) as (? & ? & ? & Hq).
    rewrite Eq in Hq. apply lookup_app_Some in Hq as [Hq|[Hge Hq]].
    { by apply lookup_replicate in Hq as []. }
    rewrite length_replicate in *. split_and!; try done || lia.
    rewrite <- Hq. f_equal. lia.
  - intros Hne. destruct (h_window _ _ H) as [W1 W2].
    { rewrite Eq. by destruct (replicate k None). }
    rewrite Eq, length_app, length_replicate in W2. lia.
  - destruct (h_offset _ _ H). destruct k as [|k]; [lia|].
    destruct (h_window _ _ H) as [W1 W2]; [by rewrite Eq|].
    rewrite Eq, length_app, length_replicate in W2. lia.
Qed.

(** Erasing without notification, on the map. *)
Definition forget id l : L :=
  let q := <[Z.to_nat (slot_index id l) := None]> (pending_irobs l) in
  set_offset (snd (pop_front_nulls q (offset l)))
    (set_pending (fun _ => fst (pop_front_nulls q (offset l)))
      (set_past (ids_insert (past_irobs l) id) l)).

Lemma forget_rep l m id v :
  rep l m -> lo <= id < hi -> m !! id = Some v -> rep (forget id l) (delete id m).
Proof.
  intros R Hid Hm. pose proof (rep_holds _ _ R) as H.
  destruct (h_map _ _ H _ _ Hm) as (_ & _ & Hoff & Hq).
  assert (Hne : pending_irobs l <> []) by (intros E; by rewrite E in Hq).
  destruct (holds_in_range l m H Hne) as (? & ? & _).
  unfold forget. rewrite slot_index_exact by lia.
  pose proof (holds_delete l m id v H Hm) as Hd.
  set (q := <[_ := None]> (pending_irobs l)) in *.
  destruct (pop_front_nulls_spec q (offset l)) as (k & Eq & Eo & Hf).
  { pose proof (h_offset _ _ H). lia. }
  { subst q. rewrite length_insert. lia. }
  rewrite Eo. split.
  - eapply (holds_pop _ _ k) in Hd; [|exact Eq]. destruct Hd. by split.
  - exact Hf.
  - simpl. intros j [o Hj]. rewrite lookup_delete in Hj. case_decide; [done|].
    rewrite ids_contains_insert by (unfold LONG_MIN; lia).
    rewrite (proj2 (Z.eqb_neq j id)) by done. simpl. apply (rep_past _ _ R). eauto.
Qed.

(** Notification of the dependents, on the map. *)
Definition notify_map id (X : gset Z) m : gmap Z O :=
  map_imap (fun k o =>
    Some (if bool_decide (k ∈ X) then upd_core (dep_satisfied id) o else o)) m.

Lemma lookup_notify_map id X m k :
  notify_map id X m !! k =
    (fun o => if bool_decide (k ∈ X) then upd_core (dep_satisfied id) o else o) <$> m !! k.
Proof. unfold notify_map. rewrite map_lookup_imap. by destruct (m !! k). Qed.

Lemma notify_rep l m id ds :
  rep l m -> NoDup ds -> Forall (fun d => lo <= d < hi) ds ->
  rep (notify_dependents id ds l) (notify_map id (list_to_set ds) m) /\
  same_meta l (notify_dependents id ds l).
Proof.
  intros R Hnd. revert l m R. induction Hnd as [|d ds Hd Hnd IH]; intros l m R Hw; simpl.
  - split; [|done]. replace (notify_map id ∅ m) with m; [done|].
    apply map_eq. intros k. rewrite lookup_notify_map, bool_decide_eq_false_2 by set_solver.
    by destruct (m !! k).
  - apply Forall_cons in Hw as [Hdw Hw].
    destruct (update_found_rep l m d (upd_core (dep_satisfied id)) R Hdw) as [R1 S1].
    { intros o. by rewrite core_upd. }
    destruct (IH _ _ R1 Hw) as [R2 S2]. split; [|by etrans].
    replace (notify_map id ({[d]} ∪ list_to_set ds) m) with
      (notify_map id (list_to_set ds) (alter (upd_core (dep_satisfied id)) d m)); [done|].
    apply map_eq. intros k. rewrite !lookup_notify_map, lookup_alter.
    case_decide as E; [subst k|].
    + rewrite (bool_decide_eq_false_2 (d ∈ list_to_set ds)) by (rewrite elem_of_list_to_set; done).
      rewrite bool_decide_eq_true_2 by set_solver. by destruct (m !! d).
    + destruct (m !! k) as [o|]; [|done]. simpl. f_equal.
      apply bool_decide_if. set_solver.
Qed.

(** ** The whole invariant of a lattice in use *)

Definition in_window (d : Z) : Prop := lo <= d < hi.

Definition closed m : Prop :=
  map_Forall (fun _ o => forall d, d ∈ deps (core o) ∪ dependents (core o) -> in_window d) m.

Record lat_ok l m : Prop := {
  ok_rep : rep l m;
  ok_closed : closed m;
  ok_dom : forall d, d ∈ min_dominator_set l -> in_window d;
  ok_anon : last_anon_irob_id l = -1 \/ in_window (last_anon_irob_id l)
}.

Lemma lat_ok_new : lat_ok lattice_new ∅.
Proof.
  split; [apply rep_new|by apply map_Forall_empty|simpl; set_solver|by left].
Qed.

Lemma closed_notify id X m : closed m -> closed (notify_map id X m).
Proof.
  intros H k o. rewrite lookup_notify_map. destruct (m !! k) as [o'|] eqn:Hm; [|done].
  simpl. intros [= <-] d Hd. apply (H k o' Hm). case_bool_decide; [|done].
  rewrite core_upd in Hd. simpl in Hd. set_solver.
Qed.

(** [erase_locked] on the map: the IROB is gone and past, and at the receiver
    its dependents no longer wait for it. *)
Lemma erase_locked_spec l m id at_receiver :
  lat_ok l m -> lo <= id < hi ->
  match m !! id with
  | None => erase_locked id at_receiver l = (false, l)
  | Some v => exists l', erase_locked id at_receiver l = (true, l') /\
      lat_ok l' (if at_receiver then notify_map id (dependents (core v)) (delete id m)
                 else delete id m) /\
      past_irobs l' = ids_insert (past_irobs l) id /\
      dropped_irobs l' = dropped_irobs l /\
      last_anon_irob_id l' = last_anon_irob_id l /\
      min_dominator_set l' =
        (if at_receiver then min_dominator_set l ∖ {[id]} else min_dominator_set l) /\
      count l' = to_size_t (count l - 1)
  end.
Proof.
  intros [R Hc Hd Ha] Hid. unfold erase_locked. fold (find_locked id l).
  rewrite (find_rep l m) by done. destruct (m !! id) as [v|] eqn:Hm; [|done].
  pose proof (forget_rep l m id v R Hid Hm) as Rf. unfold forget in Rf.
  assert (Hcl : closed (delete id m)) by by apply map_Forall_delete.
  assert (Hdep : forall d, d ∈ dependents (core v) -> in_window d).
  { intros d Hdv. apply (Hc id v Hm). set_solver. }
  destruct at_receiver; simpl in *;
    destruct (pop_front_nulls _ (offset l)) as [q' off'] eqn:Eq; simpl in *.
  - set (l1 := set_offset off' _).
    assert (R1 : rep l1 (delete id m)).
    { eapply rep_same_past; [exact Rf|done|done|apply (rep_past _ _ Rf)]. }
    destruct (notify_rep l1 (delete id m) id (ascending (dependents (core v)))) as [R2 S2];
      [done|apply NoDup_ascending| |].
    { apply Forall_forall. intros d. rewrite elem_of_ascending. apply Hdep. }
    replace (list_to_set (ascending (dependents (core v)))) with (dependents (core v)) in R2.
    2:{ apply set_eq. intros d. by rewrite elem_of_list_to_set, elem_of_ascending. }
    eexists. split; [done|]. destruct S2 as [S1 S2 S3 S4 S5].
    split; [split|split_and!].
    + eapply rep_same_past; [exact R2|done|done|apply (rep_past _ _ R2)].
    + by apply closed_notify.
    + simpl. rewrite S3. simpl. intros d Hd'. apply Hd. set_solver.
    + simpl. by rewrite S1.
    + simpl. by rewrite S4.
    + simpl. by rewrite S5.
    + simpl. by rewrite S1.
    + simpl. by rewrite S3.
    + simpl. by rewrite S2.
  - eexists. split; [done|]. split; [split|split_and!]; try done.
    eapply rep_same_past; [exact Rf|done|done|apply (rep_past _ _ Rf)].
Qed.

(** ** Registration with the dependencies *)

Definition link_map (past : IS) (pid : Z) (X : gset Z) m : gmap Z O :=
  set_to_map (fun k => (k, upd_core (add_dependent pid) (default (make_placeholder k) (m !! k))))
    (filter (fun k => ids_contains past k = false) X) ∪ m.

Lemma lookup_link_map past pid X m k :
  link_map past pid X m !! k =
    if decide (k ∈ X /\ ids_contains past k = false)
    then Some (upd_core (add_dependent pid) (default (make_placeholder k) (m !! k)))
    else m !! k.
Proof.
  unfold link_map. rewrite lookup_union.
  set (f := fun k => (k, upd_core (add_dependent pid) (default (make_placeholder k) (m !! k)))).
  set (Y := filter _ X).
  assert (Hinj : forall y y', y ∈ Y -> y' ∈ Y -> (f y).1 = (f y').1 -> y = y') by done.
  case_decide as E.
  - assert (set_to_map (M := gmap Z O) f Y !! k = Some (f k).2) as ->.
    { apply lookup_set_to_map; [done|]. exists k. split; [|done].
      subst Y. apply elem_of_filter. tauto. }
    simpl. by destruct (m !! k).
  - assert (set_to_map (M := gmap Z O) f Y !! k = None) as ->.
    { destruct (set_to_map f Y !! k) eqn:Hl; [|done]. exfalso.
      apply lookup_set_to_map in Hl as (y & Hy & [= -> _]); [|done].
      subst Y. apply elem_of_filter in Hy. tauto. }
    by destruct (m !! k).
Qed.

Lemma link_map_cons past pid d ds m :
  d ∉ ds ->
  link_map past pid (list_to_set (d :: ds)) m =
  link_map past pid (list_to_set ds) (link_map past pid {[d]} m).
Proof.
  intros Hd. apply map_eq. intros k. rewrite !lookup_link_map. simpl.
  destruct (decide (k = d)) as [->|Hne].
  - rewrite (decide_False (P := d ∈ list_to_set ds /\ _)) by set_solver.
    destruct (decide (ids_contains past d = false)).
    + by rewrite !decide_True by set_solver.
    + by rewrite !decide_False by set_solver.
  - rewrite (decide_False (P := k ∈ {[d]} /\ _)) by set_solver.
    by apply decide_ext; set_solver.
Qed.

Lemma link_dep_spec l m pid d :
  rep l m -> in_window d ->
  exists l', link_dep pid l d = Ret l' /\
    rep l' (link_map (past_irobs l) pid {[d]} m) /\ same_meta l l'.
Proof.
  intros R Hd. unfold link_dep.
  assert (Hu : forall o, irob_id (core (upd_core (add_dependent pid) o)) = irob_id (core o)).
  { intros o. by rewrite core_upd. }
  assert (Heq : forall m1 : gmap Z O,
    (forall k, m1 !! k = link_map (past_irobs l) pid {[d]} m !! k) ->
    m1 = link_map (past_irobs l) pid {[d]} m) by (intros; by apply map_eq).
  destruct (ids_contains _ d) eqn:Hp.
  { exists l. split; [done|]. split; [|done]. rewrite <- (Heq m); [done|].
    intros k. rewrite lookup_link_map, decide_False; [done|].
    intros [->%elem_of_singleton ?]. congruence. }
  rewrite (find_rep l m) by done. destruct (m !! d) as [o|] eqn:Hm.
  - destruct (update_found_rep l m d (upd_core (add_dependent pid)) R Hd Hu) as [R1 S1].
    eexists. split; [done|]. split; [|done]. erewrite <- Heq; [exact R1|].
    intros k. rewrite lookup_link_map, lookup_alter. case_decide as E.
    + subst k. rewrite Hm, decide_True by (by rewrite elem_of_singleton). done.
    + rewrite decide_False by (rewrite elem_of_singleton; naive_solver). done.
  - pose proof (insert_place_spec l m (make_placeholder d) R) as F.
    assert (irob_id (core (make_placeholder (O := O) d)) = d) as Eid.
    { by rewrite core_make_placeholder. }
    cbv zeta in F. rewrite Eid, Hp, Hm in F. destruct (F Hd) as (l1 & -> & R1 & S1).
    cbn [mbind outcome_bind].
    destruct (update_found_rep _ _ d (upd_core (add_dependent pid)) R1 Hd Hu) as [R2 S2].
    eexists. split; [done|]. split; [|by etrans]. erewrite <- Heq; [exact R2|].
    intros k. rewrite lookup_link_map, lookup_alter. case_decide as E.
    + subst k. rewrite lookup_insert_eq, Hm, decide_True by (by rewrite elem_of_singleton).
      done.
    + rewrite lookup_insert_ne, decide_False by (rewrite ?elem_of_singleton; naive_solver).
      done.
Qed.

Lemma link_deps_spec pid ds l m :
  NoDup ds -> rep l m -> Forall in_window ds ->
  exists l', link_deps pid ds l = Ret l' /\
    rep l' (link_map (past_irobs l) pid (list_to_set ds) m) /\ same_meta l l'.
Proof.
  intros Hnd. revert l m. induction Hnd as [|d ds Hd Hnd IH]; intros l m R Hw.
  - exists l. split; [done|]. split; [|done].
    replace (link_map _ _ _ m) with m; [done|]. apply map_eq. intros k.
    rewrite lookup_link_map, decide_False; [done|set_solver].
  - apply Forall_cons in Hw as [Hdw Hw].
    destruct (link_dep_spec l m pid d R Hdw) as (l1 & E1 & R1 & S1).
    destruct (IH _ _ R1 Hw) as (l2 & E2 & R2 & S2).
    cbn [link_deps]. rewrite E1. cbn [mbind outcome_bind]. exists l2.
    split; [done|]. split; [|by etrans].
    rewrite link_map_cons by done. by rewrite (sm_past _ _ S1) in R2.
Qed.

Lemma closed_link past pid X m :
  in_window pid -> closed m -> closed (link_map past pid X m).
Proof.
  intros Hp H k o. rewrite lookup_link_map. case_decide; [|apply H].
  intros [= <-] d. rewrite core_upd. simpl. intros Hd.
  destruct (m !! k) as [o'|] eqn:Hm; simpl in Hd.
  - destruct (decide (d = pid)) as [->|]; [done|]. apply (H k o' Hm). set_solver.
  - rewrite core_make_placeholder in Hd. simpl in Hd.
    by assert (d = pid) as -> by set_solver.
Qed.

(** ** Dependency inference *)

(** The dependencies [correct_deps] leaves an IROB with. *)
Definition final_deps (infer_deps : bool) (c : IrobCore) l : gset Z :=
  if infer_deps then
    if anonymous c then
      if (0 <=? last_anon_irob_id l) && bool_decide (min_dominator_set l = ∅)
      then {[last_anon_irob_id l]} ∪ deps c else deps c ∪ min_dominator_set l
    else
      if (0 <=? last_anon_irob_id l) && bool_decide (deps c ∩ min_dominator_set l = ∅)
      then {[last_anon_irob_id l]} ∪ deps c else deps c
  else filter (fun d => ids_contains (past_irobs l) d = false) (deps c).

(** The last anonymous IROB and the dominators after it. *)
Definition next_anon (infer_deps : bool) (c : IrobCore) l : Z :=
  if infer_deps && anonymous c then irob_id c else last_anon_irob_id l.
Definition next_dominators (infer_deps : bool) (c : IrobCore) l : gset Z :=
  if infer_deps then
    if anonymous c then ∅
    else {[irob_id c]} ∪ (min_dominator_set l ∖ deps c)
  else min_dominator_set l.

Lemma correct_deps_spec p infer l :
  let '(p2, l2) := correct_deps p infer l in
  core p2 = set_deps (fun _ => final_deps infer (core p) l) (core p) /\
  pending_irobs l2 = pending_irobs l /\ offset l2 = offset l /\
  count l2 = count l /\ past_irobs l2 = past_irobs l /\ dropped_irobs l2 = dropped_irobs l /\
  last_anon_irob_id l2 = next_anon infer (core p) l /\
  min_dominator_set l2 = next_dominators infer (core p) l.
Proof.
  unfold correct_deps, final_deps, next_anon, next_dominators.
  destruct infer; simpl.
  - destruct (anonymous (core p)).
    + destruct (0 <=? last_anon_irob_id l), (decide (min_dominator_set l = ∅)) as [E|E];
        rewrite ?(bool_decide_eq_true_2 _ E), ?(bool_decide_eq_false_2 _ E); simpl;
        rewrite ?core_upd; by split_and!.
    + assert (min_dominator_set l ∖ (deps (core p) ∩ min_dominator_set l) =
              min_dominator_set l ∖ deps (core p)) as -> by set_solver.
      destruct (_ && _); simpl; rewrite ?core_upd; split_and!; try done.
      by destruct (core p).
  - rewrite !core_upd. split_and!; try done.
    unfold remove_deps_if, set_deps; simpl. f_equal.
    apply set_eq. intros d. rewrite !elem_of_filter. tauto.
Qed.

Lemma final_deps_window infer c l m :
  lat_ok l m -> (forall d, d ∈ deps c -> in_window d) ->
  forall d, d ∈ final_deps infer c l -> in_window d.
Proof.
  intros [_ _ Hd Ha] Hc d. unfold final_deps.
  assert (forall b, d ∈ (if (0 <=? last_anon_irob_id l) && b
                     then {[last_anon_irob_id l]} ∪ deps c else deps c) -> in_window d).
  { intros b. destruct (Z.leb_spec 0 (last_anon_irob_id l)); simpl; [|apply Hc].
    destruct b; [|apply Hc]. intros [->%elem_of_singleton|]%elem_of_union; [|by apply Hc].
    destruct Ha; [lia|done]. }
  destruct infer; [|intros ?%elem_of_filter; apply Hc; tauto].
  destruct (anonymous c); [|apply H].
  destruct (Z.leb_spec 0 (last_anon_irob_id l)); simpl.
  - case_bool_decide; [|set_solver].
    intros [->%elem_of_singleton|]%elem_of_union; [|by apply Hc]. destruct Ha; [lia|done].
  - set_solver.
Qed.

(** ** Insertion *)

Lemma insert_locked_rejects l m p infer :
  lat_ok l m -> in_window (irob_id (core p)) ->
  ids_contains (past_irobs l) (irob_id (core p)) = true \/
  (exists e, m !! irob_id (core p) = Some e /\ placeholder (core e) = false) ->
  insert_locked p infer l = Ret (false, l).
Proof.
  intros [R _ _ _] Hid Hr. unfold insert_locked.
  pose proof (insert_place_spec l m p R Hid) as F. cbv zeta in F.
  destruct (ids_contains (past_irobs l) (irob_id (core p))) eqn:Hp.
  { by rewrite F. }
  destruct Hr as [?|(e & He & Hpe)]; [done|]. rewrite He, Hpe in F. by rewrite F.
Qed.

Lemma insert_locked_placeholder l m id infer :
  lat_ok l m -> in_window id -> ids_contains (past_irobs l) id = false -> m !! id = None ->
  exists l', insert_locked (make_placeholder id) infer l = Ret (true, l') /\
    lat_ok l' (<[id := make_placeholder id]> m) /\ same_meta l l'.
Proof.
  intros [R Hc Hd Ha] Hid Hp Hm. unfold insert_locked.
  pose proof (insert_place_spec l m (make_placeholder id) R) as F.
  assert (irob_id (core (make_placeholder (O := O) id)) = id) as Eid.
  { by rewrite core_make_placeholder. }
  cbv zeta in F. rewrite Eid, Hp, Hm in F. destruct (F Hid) as (l' & -> & R' & S).
  cbn [mbind outcome_bind]. rewrite core_make_placeholder. simpl.
  exists l'. split; [done|]. split; [|done]. destruct S as [S1 S2 S3 S4 S5]. split.
  - done.
  - apply map_Forall_insert_2; [|done]. rewrite core_make_placeholder. simpl. set_solver.
  - by rewrite S3.
  - by rewrite S1.
Qed.

(** The object a new IROB becomes in its slot. *)
Definition settled p (e : option O) p1 : Prop :=
  match e with
  | None => p1 = p
  | Some e => placeholder (core e) = true /\ subsume p e = Ret p1
  end.

Lemma settled_core p e p1 :
  settled p e p1 ->
  irob_id (core p1) = irob_id (core p) /\ send_labels (core p1) = send_labels (core p) /\
  deps (core p1) = deps (core p) /\ anonymous (core p1) = anonymous (core p) /\
  placeholder (core p1) = placeholder (core p) /\
  dependents (core p1) =
    dependents (core p) ∪ from_option (fun o => dependents (core o)) ∅ e.
Proof.
  destruct e as [e|]; simpl.
  - intros [_ H]. apply subsume_core in H as (? & ? & ? & ? & ? & ?). by split_and!.
  - intros ->. split_and!; try done. set_solver.
Qed.

(** Replacing the object behind a pointer. *)
Lemma replace_found_rep l m id o o' :
  rep l m -> in_window id -> m !! id = Some o -> irob_id (core o') = id ->
  rep (update_found id (fun _ => o') l) (<[id := o']> m) /\
  same_meta l (update_found id (fun _ => o') l).
Proof.
  intros R Hid Hm Ho'. unfold update_found. fold (find_locked id l).
  rewrite (find_rep _ _ _ R), Hm by done. split; [|done].
  pose proof (rep_holds _ _ R) as H. destruct (h_map _ _ H id o Hm) as (_ & _ & Hoff & Hq).
  pose proof (lookup_lt_Some _ _ _ Hq).
  assert (Hne : pending_irobs l <> []) by (intros E; by rewrite E in Hq).
  destruct (holds_in_range _ _ H Hne) as (? & ? & ?).
  rewrite slot_index_exact by (unfold in_window in *; lia).
  apply (store_rep l); try done; try lia.
  - apply (rep_past _ _ R). by rewrite Hm.
  - right. by apply (rep_front _ _ R).
Qed.

(** What the inference reads and writes of the lattice. *)
Lemma correct_deps_snd p infer l :
  snd (correct_deps p infer l) =
    set_dominators (next_dominators infer (core p) l)
      (set_last_anon (next_anon infer (core p) l) l).
Proof.
  pose proof (correct_deps_spec p infer l) as C.
  destruct (correct_deps p infer l) as [p2 l2]. simpl.
  destruct C as (_ & C1 & C2 & C3 & C4 & C5 & C6 & C7).
  destruct l, l2; simpl in *. by subst.
Qed.

Lemma correct_deps_fst p infer l l' :
  same_meta l l' -> fst (correct_deps p infer l') = fst (correct_deps p infer l).
Proof.
  intros [S1 S2 S3 S4 S5]. unfold correct_deps. rewrite S1, S3, S4.
  destruct infer; [|done]. destruct (anonymous _); [|done]. by destruct (_ && _).
Qed.

Lemma next_meta infer c l l' :
  same_meta l l' ->
  next_anon infer c l' = next_anon infer c l /\
  next_dominators infer c l' = next_dominators infer c l /\
  final_deps infer c l' = final_deps infer c l.
Proof.
  intros [S1 S2 S3 S4 S5]. unfold next_anon, next_dominators, final_deps.
  by rewrite S1, S3, S4.
Qed.

Lemma insert_locked_spec l m p infer p1 :
  lat_ok l m -> let id := irob_id (core p) in in_window id ->
  placeholder (core p) = false ->
  (forall d, d ∈ deps (core p) ∪ dependents (core p) -> in_window d) ->
  ids_contains (past_irobs l) id = false ->
  settled p (m !! id) p1 ->
  let p2 := fst (correct_deps p1 infer l) in
  let D := final_deps infer (core p1) l in
  exists l', insert_locked p infer l = Ret (true, l') /\
    rep l' (link_map (past_irobs l) id D (<[id := p2]> m)) /\
    core p2 = set_deps (fun _ => D) (core p1) /\
    past_irobs l' = past_irobs l /\ dropped_irobs l' = dropped_irobs l /\
    last_anon_irob_id l' = next_anon infer (core p1) l /\
    min_dominator_set l' = next_dominators infer (core p1) l /\
    count l' = to_size_t (count l + 1).
Proof.
  intros Hok id Hid Hph Hw Hp Hset p2 D. pose proof Hok as [R Hc Hd Ha].
  destruct (settled_core _ _ _ Hset) as (Eid & _ & Edeps & _).
  assert (exists l1, insert_place p l = Ret (Some l1) /\ rep l1 (<[id := p1]> m) /\
    same_meta l l1) as (l1 & E1 & R1 & S).
  { pose proof (insert_place_spec l m p R Hid) as F. cbv zeta in F.
    fold id in F. rewrite Hp in F. unfold settled in Hset.
    destruct (m !! id) as [e|]; [|by subst p1].
    destruct Hset as [He Hs]. rewrite He in F. by apply F. }
  destruct (next_meta infer (core p1) l l1 S) as (N1 & N2 & N3).
  unfold insert_locked. rewrite E1. cbn [mbind outcome_bind]. rewrite Hph. fold id.
  rewrite (find_rep _ _ _ R1), lookup_insert_eq by done.
  cbn [access mbind outcome_bind].
  rewrite (surjective_pairing (correct_deps p1 infer l1)), correct_deps_snd,
    (correct_deps_fst p1 infer l l1 S), N1, N2. fold p2.
  set (l2 := set_dominators _ _).
  assert (Cp : core p2 = set_deps (fun _ => D) (core p1)).
  { subst p2 D. pose proof (correct_deps_spec p1 infer l) as C.
    destruct (correct_deps p1 infer l). apply C. }
  destruct (replace_found_rep l2 (<[id := p1]> m) id p1 p2) as [R3 T].
  { eapply rep_same_past; [exact R1|done|done|apply (rep_past _ _ R1)]. }
  { done. } { apply lookup_insert_eq. } { rewrite Cp. simpl. by rewrite Eid. }
  rewrite insert_insert_eq in R3. rewrite Cp. simpl deps.
  destruct (link_deps_spec id (ascending D) _ _ (NoDup_ascending D) R3) as (l4 & E4 & R4 & U).
  { apply Forall_forall. intros d. rewrite elem_of_ascending.
    apply (final_deps_window infer (core p1) l m Hok). rewrite Edeps. set_solver. }
  rewrite E4. cbn [mbind outcome_bind]. eexists. split; [done|].
  destruct S as [S1 S2 S3 S4 S5], T as [T1 T2 T3 T4 T5], U as [U1 U2 U3 U4 U5].
  replace (list_to_set (ascending D)) with D in R4
    by (apply set_eq; intros d; by rewrite elem_of_list_to_set, elem_of_ascending).
  rewrite T4 in R4. simpl in R4. rewrite S4 in R4. split_and!; simpl.
  - eapply rep_same_past; [exact R4|done|done|apply (rep_past _ _ R4)].
  - done.
  - rewrite U4, T4. simpl. by rewrite S4.
  - rewrite U5, T5. simpl. by rewrite S5.
  - by rewrite U1, T1.
  - by rewrite U3, T3.
  - rewrite U2, T2. simpl. by rewrite S2.
Qed.

(** The window part of the invariant after an insertion. *)
Lemma insert_locked_ok l m p infer p1 l' :
  lat_ok l m -> let id := irob_id (core p) in in_window id ->
  (forall d, d ∈ deps (core p) ∪ dependents (core p) -> in_window d) ->
  settled p (m !! id) p1 ->
  let p2 := fst (correct_deps p1 infer l) in
  let D := final_deps infer (core p1) l in
  rep l' (link_map (past_irobs l) id D (<[id := p2]> m)) ->
  core p2 = set_deps (fun _ => D) (core p1) ->
  last_anon_irob_id l' = next_anon infer (core p1) l ->
  min_dominator_set l' = next_dominators infer (core p1) l ->
  lat_ok l' (link_map (past_irobs l) id D (<[id := p2]> m)).
Proof.
  intros Hok id Hid Hw Hset p2 D R Cp Ea Ed. pose proof Hok as [_ Hc Hd Ha].
  destruct (settled_core _ _ _ Hset) as (Eid & _ & Edeps & _ & _ & Edts).
  fold id in Eid. split; [done| | |].
  - apply closed_link; [done|]. apply map_Forall_insert_2; [|done].
    rewrite Cp. simpl. intros d [Hd'|Hd']%elem_of_union.
    + eapply (final_deps_window infer (core p1) l m Hok); [|exact Hd'].
      rewrite Edeps. set_solver.
    + rewrite Edts in Hd'. fold id in Hd'. destruct (m !! id) as [e|] eqn:Hm; simpl in Hd'.
      * apply elem_of_union in Hd' as [?|?]; [apply Hw; set_solver|].
        apply (Hc id e Hm). set_solver.
      * apply Hw. set_solver.
  - rewrite Ed. unfold next_dominators.
    destruct infer; [destruct (anonymous _)|]; [set_solver| |done].
    intros d [->%elem_of_singleton|[? _]%elem_of_difference]%elem_of_union;
      [by rewrite Eid|auto].
  - rewrite Ea. unfold next_anon.
    destruct (infer && anonymous _); [right; by rewrite Eid|done].
Qed.
End rep.
