(* ===== verification/LatticeSpec.v ===== *)
(** What a lattice promises, and that the deque keeps the promise.

    The specification [alattice] keeps a finite map of live IROBs, the set of
    finished identifiers and the set of dropped ones.  [sim] relates a lattice
    of Lattice.v to it; [run_refines] is the simulation over any sequence of
    insertions and erasures, [drop_spec] the breadth-first removal of an IROB
    and everything that depends on it. *)

From stdpp Require Import relations.
From S2P Require Import Prelude Irob IntSet Lattice LatticeRep.

(** A finite set of integers is the reference implementation of [IdSet]. *)
#[export] Instance gset_IdSet : IdSet (gset Z) := {
  ids_empty := ∅;
  ids_insert s n := {[n]} ∪ s;
  ids_contains s n := bool_decide (n ∈ s);
  ids_clear _ := ∅
}.

#[export] Instance gset_IdSetLaws : IdSetLaws (gset Z).
Proof.
  split; simpl; intros.
  - apply bool_decide_eq_false_2. set_solver.
  - destruct (Z.eqb_spec n m) as [->|]; simpl.
    + apply bool_decide_eq_true_2. set_solver.
    + apply bool_decide_ext. set_solver.
  - apply bool_decide_eq_true_2. rewrite bool_decide_eq_true in *. set_solver.
  - apply bool_decide_eq_false_2. set_solver.
Qed.

Record alattice (O : Type) := ALattice {
  live : gmap Z O;
  finished : gset Z;
  dropped : gset Z;
  anon : Z;
  doms : gset Z
}.
Arguments ALattice {O}.
Arguments live {O}.
Arguments finished {O}.
Arguments dropped {O}.
Arguments anon {O}.
Arguments doms {O}.

Section spec.
Context {O : Type} `{!IrobOps O}.
Implicit Types (a : alattice O) (p o : O) (id : Z).

Definition spec_new : alattice O := ALattice ∅ ∅ ∅ (-1) ∅.

(** A known IROB: finished, or live and not a mere placeholder. *)
Definition known id a : bool :=
  bool_decide (id ∈ finished a) ||
  match live a !! id with Some e => negb (placeholder (core e)) | None => false end.

(** The dependencies an IROB is given: at the sender, its own and those that
    place it after the IROBs it must follow; at the receiver, its own unless
    already satisfied. *)
Definition spec_deps (infer_deps : bool) (c : IrobCore) a : gset Z :=
  if infer_deps then
    if anonymous c then
      if (0 <=? anon a) && bool_decide (doms a = ∅) then {[anon a]} ∪ deps c
      else deps c ∪ doms a
    else
      if (0 <=? anon a) && bool_decide (deps c ∩ doms a = ∅) then {[anon a]} ∪ deps c
      else deps c
  else deps c ∖ finished a.

Definition spec_anon (infer_deps : bool) (c : IrobCore) a : Z :=
  if infer_deps && anonymous c then irob_id c else anon a.

Definition spec_doms (infer_deps : bool) (c : IrobCore) a : gset Z :=
  if infer_deps then
    if anonymous c then ∅ else {[irob_id c]} ∪ (doms a ∖ deps c)
  else doms a.

Definition spec_insert p (infer_deps : bool) a : outcome (bool * alattice O) :=
  let id := irob_id (core p) in
  if known id a then Ret (false, a)
  else
    (match live a !! id with None => Ret p | Some e => subsume p e end) ≫= fun p1 =>
    let D := spec_deps infer_deps (core p1) a in
    let p2 := upd_core (set_deps (fun _ => D)) p1 in
    Ret (true, ALattice (link_map (finished a) id D (<[id := p2]> (live a)))
                 (finished a) (dropped a)
                 (spec_anon infer_deps (core p1) a) (spec_doms infer_deps (core p1) a)).

Definition spec_erase id (at_receiver : bool) a : bool * alattice O :=
  match live a !! id with
  | None => (false, a)
  | Some v =>
      let rest := delete id (live a) in
      (true, ALattice (if at_receiver then notify_map id (dependents (core v)) rest else rest)
               ({[id]} ∪ finished a) (dropped a) (anon a)
               (if at_receiver then doms a ∖ {[id]} else doms a))
  end.

(** One operation of a client. *)
Inductive lat_op :=
| OpInsert (p : O) (infer_deps : bool)
| OpErase (id : Z) (at_receiver : bool).

Definition spec_step (op : lat_op) a : outcome (bool * alattice O) :=
  match op with
  | OpInsert p infer => spec_insert p infer a
  | OpErase id at_receiver => Ret (spec_erase id at_receiver a)
  end.

Fixpoint spec_run (ops : list lat_op) a : outcome (list bool * alattice O) :=
  match ops with
  | [] => Ret ([], a)
  | op :: ops =>
      spec_step op a ≫= fun '(b, a') =>
      spec_run ops a' ≫= fun '(bs, a'') => Ret (b :: bs, a'')
  end.
End spec.
Arguments lat_op : clear implicits.

Section impl.
Context {O IS : Type} `{!IrobOps O} `{!IdSet IS}.

Definition impl_step (op : lat_op O) (l : lattice O IS) : outcome (bool * lattice O IS) :=
  match op with
  | OpInsert p infer => insert_locked p infer l
  | OpErase id at_receiver => Ret (erase_locked id at_receiver l)
  end.

Fixpoint impl_run (ops : list (lat_op O)) (l : lattice O IS)
    : outcome (list bool * lattice O IS) :=
  match ops with
  | [] => Ret ([], l)
  | op :: ops =>
      impl_step op l ≫= fun '(b, l') =>
      impl_run ops l' ≫= fun '(bs, l'') => Ret (b :: bs, l'')
  end.
End impl.

Section dropping.
Context {O : Type} `{!IrobOps O}.
Implicit Types (a : alattice O) (id : Z).

(** ** Dropping an IROB *)

(** The registered dependents, and the IROBs that go with [id]. *)
Definition dependent_edge a (k d : Z) : Prop :=
  exists o, live a !! k = Some o /\ d ∈ dependents (core o).
Definition doomed a id (v : Z) : Prop :=
  is_Some (live a !! v) /\ rtc (dependent_edge a) id v.

Definition spec_drop (R : gset Z) a : alattice O :=
  ALattice (filter (fun kv => kv.1 ∉ R) (live a)) (R ∪ finished a) (R ∪ dropped a)
    (anon a) (doms a).

Lemma lookup_spec_drop R a k :
  live (spec_drop R a) !! k = if decide (k ∈ R) then None else live a !! k.
Proof.
  simpl. case_decide as E.
  - apply map_lookup_filter_None. right. intros x _. simpl. tauto.
  - destruct (live a !! k) eqn:Hk.
    + by apply map_lookup_filter_Some.
    + apply map_lookup_filter_None. by left.
Qed.

Lemma spec_drop_empty a : spec_drop ∅ a = a.
Proof.
  destruct a as [m f d an do]. unfold spec_drop; simpl. f_equal; [|set_solver..].
  apply map_filter_id. set_solver.
Qed.

(** The invariant of the breadth-first loop: what is gone was doomed, what is
    queued is reachable, and no doomed IROB is forgotten. *)
Record drop_inv a id (R : gset Z) (vs : list Z) : Prop := {
  di_gone v : v ∈ R -> doomed a id v;
  di_queue v : v ∈ vs -> rtc (dependent_edge a) id v;
  di_start : id ∈ R \/ id ∈ vs \/ live a !! id = None;
  di_closed k d : k ∈ R -> dependent_edge a k d -> d ∈ R \/ d ∈ vs \/ live a !! d = None
}.

Lemma drop_inv_start a id : drop_inv a id ∅ [id].
Proof.
  split; [set_solver| | |set_solver].
  - by intros v ->%list_elem_of_singleton.
  - right; left. by apply list_elem_of_singleton.
Qed.

Lemma drop_inv_skip a id R v vs :
  drop_inv a id R (v :: vs) -> v ∈ R \/ live a !! v = None -> drop_inv a id R vs.
Proof.
  intros [H1 H2 H3 H4] Hv. split; [done|set_solver| |].
  - destruct H3 as [?|[Hi|?]]; [tauto| |tauto].
    apply elem_of_cons in Hi as [->|?]; tauto.
  - intros k d Hk Hd. destruct (H4 k d Hk Hd) as [?|[Hi|?]]; [tauto| |tauto].
    apply elem_of_cons in Hi as [->|?]; tauto.
Qed.

Lemma drop_inv_take a id R v vs o :
  drop_inv a id R (v :: vs) -> live a !! v = Some o ->
  drop_inv a id ({[v]} ∪ R) (vs ++ ascending (dependents (core o))).
Proof.
  intros [H1 H2 H3 H4] Hv. split.
  - intros u [->%elem_of_singleton|Hu]%elem_of_union; [|auto].
    split; [eauto|]. apply H2. set_solver.
  - intros u [Hu|Hu]%elem_of_app; [apply H2; set_solver|].
    apply elem_of_ascending in Hu. apply rtc_r with v; [apply H2; set_solver|].
    by exists o.
  - destruct H3 as [?|[Hi|?]]; [set_solver| |tauto].
    apply elem_of_cons in Hi as [->|?]; set_solver.
  - intros k d [->%elem_of_singleton|Hk]%elem_of_union Hd.
    + destruct Hd as (o' & Ho' & Hd). simplify_eq. right; left.
      apply elem_of_app. right. by apply elem_of_ascending.
    + destruct (H4 k d Hk Hd) as [?|[Hi|?]]; [set_solver| |tauto].
      apply elem_of_cons in Hi as [->|?]; set_solver.
Qed.

Lemma drop_inv_done a id R :
  drop_inv a id R [] -> forall v, v ∈ R <-> doomed a id v.
Proof.
  intros [H1 _ H3 H4] v. split; [auto|]. intros [Hv Hr].
  assert (forall u, rtc (dependent_edge a) id u -> u ∈ R \/ live a !! u = None) as K.
  { apply rtc_ind_r.
    - destruct H3 as [?|[?|?]]; [tauto|set_solver|tauto].
    - intros u w _ Hd [Hk|Hn].
      + destruct (H4 u w Hk Hd) as [?|[?|?]]; [tauto|set_solver|tauto].
      + destruct Hd as (o & Ho & _). congruence. }
  destruct (K v Hr) as [?|Hn]; [done|]. rewrite Hn in Hv. by destruct Hv.
Qed.

End dropping.

Section refinement.
Context {O IS : Type} `{!IrobOps O} `{!IrobLaws O} `{!IdSet IS} `{!IdSetLaws IS}.
Context (lo hi : Z).
Context (Hlo : 0 <= lo) (Hhi : hi <= 2 ^ 63) (Hwin : hi - lo < 2 ^ 31).
Abbreviation L := (lattice O IS).
Abbreviation in_window := (in_window lo hi).
Implicit Types (l : L) (a : alattice O) (p o : O) (id : Z).

Record sim l a : Prop := {
  sim_ok : lat_ok lo hi l (live a);
  sim_past id : ids_contains (past_irobs l) id = bool_decide (id ∈ finished a);
  sim_dropped id : ids_contains (dropped_irobs l) id = bool_decide (id ∈ dropped a);
  sim_anon : last_anon_irob_id l = anon a;
  sim_doms : min_dominator_set l = doms a
}.

(** An operation on identifiers of the window, with a real IROB. *)
Definition op_ok (op : lat_op O) : Prop :=
  match op with
  | OpInsert p _ =>
      in_window (irob_id (core p)) /\ placeholder (core p) = false /\
      forall d, d ∈ deps (core p) ∪ dependents (core p) -> in_window d
  | OpErase id _ => in_window id
  end.

Lemma sim_new : sim lattice_new spec_new.
Proof.
  split; simpl; try done; [by apply lat_ok_new| |];
    intros; rewrite ids_contains_empty; symmetry; apply bool_decide_eq_false_2; set_solver.
Qed.

Lemma link_map_ext `{!IdSet T1, !IdSet T2} (s : T1) (t : T2) pid X (m : gmap Z O) :
  (forall n, ids_contains s n = ids_contains t n) -> link_map s pid X m = link_map t pid X m.
Proof.
  intros E. apply map_eq. intros k. rewrite !lookup_link_map, E. done.
Qed.

Lemma correct_deps_upd p infer l :
  fst (correct_deps p infer l) =
    upd_core (set_deps (fun _ => final_deps infer (core p) l)) p.
Proof.
  remember (final_deps infer (core p) l) as D eqn:HD.
  assert (forall f, f (core p) = set_deps (fun _ => deps (f (core p))) (core p) ->
    deps (f (core p)) = D -> upd_core f p = upd_core (set_deps (fun _ => D)) p) as K.
  { intros f Hf Hd. apply upd_core_ext. by rewrite Hf, Hd. }
  unfold correct_deps. unfold final_deps in HD. destruct infer; simpl.
  - destruct (anonymous (core p)) eqn:Ea.
    + destruct ((0 <=? last_anon_irob_id l) && bool_decide _) eqn:Eb; simpl; by apply K.
    + destruct ((0 <=? last_anon_irob_id l) && bool_decide _) eqn:Eb; simpl; [by apply K|].
      rewrite <- (upd_core_id p) at 1. apply K; [by destruct (core p)|done].
  - rewrite upd_core_upd. apply K; [done|]. simpl. subst D.
    apply set_eq. intros d. rewrite !elem_of_filter. tauto.
Qed.

Lemma sim_spec_deps l a infer c : sim l a ->
  final_deps infer c l = spec_deps infer c a /\
  next_anon infer c l = spec_anon infer c a /\
  next_dominators infer c l = spec_doms infer c a.
Proof.
  intros [_ Hp _ Ha Hd]. unfold final_deps, spec_deps, next_anon, spec_anon,
    next_dominators, spec_doms. rewrite Ha, Hd. split_and!; try done.
  destruct infer; [done|]. apply set_eq. intros d.
  rewrite elem_of_filter, elem_of_difference, Hp, bool_decide_eq_false. tauto.
Qed.

(** Insertion of an object whose slot is empty or holds a placeholder. *)
Lemma insert_settled l a p infer p1 :
  sim l a -> op_ok (OpInsert p infer) -> let id := irob_id (core p) in
  id ∉ finished a -> settled p (live a !! id) p1 ->
  let D := spec_deps infer (core p1) a in
  exists l', insert_locked p infer l = Ret (true, l') /\ sim l' (ALattice
      (link_map (finished a) id D (<[id := upd_core (set_deps (fun _ => D)) p1]> (live a)))
      (finished a) (dropped a) (spec_anon infer (core p1) a) (spec_doms infer (core p1) a)).
Proof.
  intros S (Hid & Hph & Hw) id Hfin Hset D. pose proof S as [Hok Hp Hdr Ha Hd].
  destruct (insert_locked_spec lo hi Hlo Hhi Hwin l (live a) p infer p1 Hok Hid Hph Hw)
    as (l' & E & R & Cp & P1 & P2 & P3 & P4 & _);
    [by rewrite Hp, bool_decide_eq_false_2|done|].
  destruct (sim_spec_deps l a infer (core p1) S) as (D1 & D2 & D3).
  exists l'. split; [done|].
  pose proof (insert_locked_ok lo hi Hlo Hhi Hwin l (live a) p infer p1 l' Hok Hid Hw Hset R Cp P3 P4)
    as Hk.
  rewrite correct_deps_upd, D1, (link_map_ext (past_irobs l) (finished a)) in Hk by done.
  split; simpl; [exact Hk|by rewrite P1|by rewrite P2|congruence|congruence].
Qed.

Lemma insert_sim l a p infer :
  sim l a -> op_ok (OpInsert p infer) ->
  match spec_insert p infer a with
  | Ret (b, a') => exists l', insert_locked p infer l = Ret (b, l') /\ sim l' a'
  | _ => True
  end.
Proof.
  intros S Hop. pose proof Hop as (Hid & Hph & Hw). pose proof (sim_ok _ _ S) as Hok.
  unfold spec_insert, known. set (id := irob_id (core p)) in *.
  case_bool_decide as Hfin; simpl.
  { exists l. split; [|done]. eapply insert_locked_rejects; eauto.
    left. by rewrite (sim_past _ _ S), bool_decide_eq_true_2. }
  destruct (live a !! id) as [e|] eqn:He;
    [destruct (placeholder (core e)) eqn:Hpe|]; simpl.
  - destruct (subsume p e) as [p1| |] eqn:Hs; simpl; [|done..].
    apply insert_settled; try done. fold id. by rewrite He.
  - exists l. split; [|done]. eapply insert_locked_rejects; eauto.
  - apply insert_settled; try done. fold id. by rewrite He.
Qed.

(** Conversely, a successful insertion is one of the specification. *)
Lemma insert_sim_inv l a p infer l' :
  sim l a -> op_ok (OpInsert p infer) -> insert_locked p infer l = Ret (true, l') ->
  exists a', spec_insert p infer a = Ret (true, a') /\ sim l' a'.
Proof.
  intros S Hop E. pose proof (insert_sim l a p infer S Hop) as K.
  assert (exists r, spec_insert p infer a = Ret r) as [[b a'] Er].
  { unfold spec_insert. destruct (known _ a); [eauto|].
    destruct (live a !! _) as [x|] eqn:Hx; [|by eexists].
    destruct (insert_subsumes lo hi Hlo Hwin l (live a) p infer l' x) as [r ->];
      [apply (sim_ok _ _ S)|exact (proj1 Hop)|done|done|]. by eexists. }
  rewrite Er in *. destruct K as (l1 & E1 & S1). rewrite E in E1. injection E1 as <- <-. eauto.
Qed.

Lemma erase_sim l a id at_receiver :
  sim l a -> in_window id ->
  let '(b, a') := spec_erase id at_receiver a in
  exists l', erase_locked id at_receiver l = (b, l') /\ sim l' a'.
Proof.
  intros S Hid. pose proof S as [Hok Hp Hdr Ha Hd]. unfold spec_erase.
  pose proof (erase_locked_spec lo hi Hlo Hhi Hwin l (live a) id at_receiver Hok Hid) as E.
  destruct (live a !! id) as [v|]; [|eauto].
  destruct E as (l' & E & Hok' & P1 & P2 & P3 & P4 & _). exists l'. split; [done|].
  split; simpl; [done| | |by rewrite P3|].
  - intros n. rewrite P1, ids_contains_insert, Hp by (unfold LatticeRep.in_window, LONG_MIN in *; lia).
    destruct (Z.eqb_spec n id) as [->|]; simpl.
    + symmetry. apply bool_decide_eq_true_2. set_solver.
    + apply bool_decide_ext. set_solver.
  - by rewrite P2.
  - rewrite P4, Hd. by destruct at_receiver.
Qed.

Lemma step_sim l a op b a' :
  sim l a -> op_ok op -> spec_step op a = Ret (b, a') ->
  exists l', impl_step op l = Ret (b, l') /\ sim l' a'.
Proof.
  intros S Hop E. destruct op as [p infer|id rcv]; simpl in *.
  - pose proof (insert_sim l a p infer S Hop) as K. by rewrite E in K.
  - pose proof (erase_sim l a id rcv S Hop) as K. injection E as E. rewrite E in K.
    destruct K as (l' & -> & ?). eauto.
Qed.

Lemma run_sim ops l a bs a' :
  sim l a -> Forall op_ok ops -> spec_run ops a = Ret (bs, a') ->
  exists l', impl_run ops l = Ret (bs, l') /\ sim l' a'.
Proof.
  intros S Hops. revert l a bs a' S. induction Hops as [|op ops Hop Hops IH];
    intros l a bs a' S E; simpl in *.
  { injection E as <- <-. eauto. }
  apply bind_ret_inv in E as ([b a1] & E1 & E2).
  apply bind_ret_inv in E2 as ([bs1 a2] & E2 & [= <- <-]).
  destruct (step_sim _ _ _ _ _ S Hop E1) as (l1 & -> & S1).
  destruct (IH _ _ _ _ S1 E2) as (l2 & E3 & S2). simpl. rewrite E3. simpl. eauto.
Qed.

Lemma sim_drop_one l R a v o :
  sim l (spec_drop R a) -> in_window v -> live (spec_drop R a) !! v = Some o ->
  let l' := snd (erase_locked v false l) in
  sim (set_dropped (ids_insert (dropped_irobs l') v) l') (spec_drop ({[v]} ∪ R) a).
Proof.
  intros S Hv Hm l'. pose proof (erase_sim l _ v false S Hv) as E. unfold spec_erase in E.
  rewrite Hm in E. destruct E as (l1 & E & S1). assert (l' = l1) as -> by (subst l'; by rewrite E).
  destruct S1 as [[[H1 H2 H3] H4 H5 H6] P1 P2 P3 P4].
  split; simpl in *.
  - assert (filter (fun kv : Z * O => kv.1 ∉ {[v]} ∪ R) (live a) =
            delete v (filter (fun kv : Z * O => kv.1 ∉ R) (live a))) as ->.
    { apply map_eq. intros k. rewrite lookup_delete.
      change (spec_drop ({[v]} ∪ R) a).(live) with (live (spec_drop ({[v]} ∪ R) a)).
      pose proof (lookup_spec_drop ({[v]} ∪ R) a k) as K1. simpl in K1. rewrite K1.
      pose proof (lookup_spec_drop R a k) as K2. simpl in K2. rewrite K2.
      repeat case_decide; set_solver. }
    split; try done. split; try done. destruct H1; by split.
  - intros n. rewrite P1. apply bool_decide_ext. set_solver.
  - intros n. rewrite ids_contains_insert, P2 by (unfold LatticeRep.in_window, LONG_MIN in *; lia). destruct (Z.eqb_spec n v) as [->|]; simpl.
    + symmetry. apply bool_decide_eq_true_2. set_solver.
    + apply bool_decide_ext. set_solver.
  - done.
  - done.
Qed.

Lemma weight_pop (q : list (option O)) off :
  weight (fst (pop_front_nulls q off)) = weight q.
Proof. revert off. induction q as [|[o|] q IH]; intros off; simpl; [done..|]. by rewrite IH. Qed.

Lemma weight_clear (q : list (option O)) i o :
  q !! i = Some (Some o) ->
  (weight (<[i := None]> q) + S (size (dependents (core o))) = weight q)%nat.
Proof.
  revert i. induction q as [|s q IH]; intros [|i] Hq; simpl in *; try done.
  - injection Hq as ->. unfold weight. simpl. lia.
  - specialize (IH i Hq). unfold weight in *. simpl. lia.
Qed.

Lemma weight_erase l v o :
  find_locked v l = Some o ->
  (weight (pending_irobs (snd (erase_locked v false l)))
   + S (size (dependents (core o))) = weight (pending_irobs l))%nat.
Proof.
  unfold find_locked, erase_locked. intros E. rewrite E. simpl.
  pose proof (weight_pop (<[Z.to_nat (slot_index v l) := None]> (pending_irobs l)) (offset l)).
  destruct (pop_front_nulls _ _) as [q' off']; simpl in *.
  unfold slot_at in E. destruct (_ || _); [done|].
  destruct (pending_irobs l !! Z.to_nat (slot_index v l)) as [[o'|]|] eqn:Hq; try done.
  simpl in E. injection E as ->. rewrite H. by apply weight_clear.
Qed.

Lemma drop_loop_spec fuel vs l a id R :
  (length vs + weight (pending_irobs l) <= fuel)%nat ->
  sim l (spec_drop R a) -> closed lo hi (live a) -> Forall in_window vs ->
  drop_inv a id R vs ->
  exists R' l', drop_loop fuel vs l = Some l' /\ sim l' (spec_drop R' a) /\
    forall v, v ∈ R' <-> doomed a id v.
Proof.
  revert vs l R. induction fuel as [|fuel IH]; intros [|v vs] l R Hf S Hc Hw HI; simpl in Hf;
    try lia.
  1,2: exists R, l; split_and!; [done|done|by apply drop_inv_done].
  apply Forall_cons in Hw as [Hv Hw]. simpl.
  assert (find_locked v l = if decide (v ∈ R) then None else live a !! v) as Ef.
  { rewrite <- lookup_spec_drop. eapply find_rep; [done| |done]. apply (sim_ok _ _ S). }
  rewrite Ef. destruct (if decide (v ∈ R) then None else live a !! v) as [o|] eqn:Hl.
  - case_decide as HvR; [done|]. pose proof (weight_erase l v o Ef) as W.
    apply (IH _ _ ({[v]} ∪ R)); [| |done| |by apply drop_inv_take].
    + simpl. rewrite length_app, length_ascending. lia.
    + eapply sim_drop_one; try done. rewrite lookup_spec_drop. by rewrite decide_False.
    + apply Forall_app. split; [done|]. apply Forall_forall. intros d.
      rewrite elem_of_ascending. intros Hd. apply (Hc v o Hl). set_solver.
  - apply (IH _ _ R); try done; [lia|].
    apply (drop_inv_skip _ _ _ v); [done|]. case_decide; tauto.
Qed.

(** C9: From an empty lattice, any sequence of insertions and erasures on
    identifiers of a window of fewer than 2^31 behaves as the specification
    with a finite map: the same results, no trap, and every later lookup finds
    what the map holds. *)
Theorem run_refines ops bs a :
  Forall op_ok ops -> spec_run ops spec_new = Ret (bs, a) ->
  exists l, impl_run ops lattice_new = Ret (bs, l) /\
    (forall id, in_window id -> find_locked id l = live a !! id) /\
    (forall id, past_irob_exists id l = bool_decide (id ∈ finished a)) /\
    (is_empty l = true <-> live a = ∅).
Proof.
  intros Hops E. destruct (run_sim ops lattice_new spec_new bs a sim_new Hops E)
    as (l & E' & S). exists l. split; [done|]. pose proof (ok_rep _ _ _ _ (sim_ok _ _ S)) as R.
  split_and!.
  - intros id Hid. by eapply find_rep.
  - intros id. apply (sim_past _ _ S).
  - unfold is_empty. destruct (pending_irobs l) as [|s q] eqn:Eq.
    + split; [|done]. intros _. eapply holds_nil; [apply R|done].
    + split; [done|]. intros Hm. destruct (rep_front _ _ _ _ R) as [o Ho]; [by rewrite Eq|].
      apply (h_slot _ _ _ _ (rep_holds _ _ _ _ R)) in Ho. by rewrite Hm, lookup_empty in Ho.
Qed.
(** C21: [drop_irob_and_dependents] returns, and removes exactly the IROB and
    the live IROBs that transitively depend on it; they become past and
    dropped, and nothing else changes. *)
Theorem drop_refines l a id :
  sim l a -> in_window id ->
  exists R l', drop_irob_and_dependents id l = Some l' /\
    (forall v, v ∈ R <-> doomed a id v) /\ sim l' (spec_drop R a).
Proof.
  intros S Hid.
  destruct (drop_loop_spec (drop_fuel l) [id] l a id ∅) as (R & l' & E & S' & HR).
  - unfold drop_fuel. simpl. lia.
  - by rewrite spec_drop_empty.
  - apply (sim_ok _ _ S).
  - by apply Forall_singleton.
  - apply drop_inv_start.
  - by exists R, l'.
Qed.
End refinement.

(** ** Evaluation on the base class and a list-of-booleans bitset *)

Import ListBits.

Definition demo_ops : list (lat_op IrobCore) := [
  OpInsert (core_new 0 [] [] 0) true;                 (* an explicit IROB *)
  OpInsert (core_new 1 [] [Byte.x61] 0) true;         (* an anonymous one *)
  OpInsert (core_new 5 [3] [] 0) true;                (* names an unknown IROB 3 *)
  OpInsert (core_new 1 [] [Byte.x62] 0) true;         (* a duplicate *)
  OpErase 0 false
].

Lemma demo_ops_ok : Forall (op_ok 0 100) demo_ops.
Proof.
  unfold demo_ops, op_ok, LatticeRep.in_window. rewrite !Forall_cons. simpl.
  split_and!; try done; try lia; try apply Forall_nil_2;
    intros d Hd; set_unfold; naive_solver lia.
Qed.

Definition demo_spec : list bool * alattice IrobCore :=
  match spec_run demo_ops spec_new with Ret r => r | _ => ([], spec_new) end.

Lemma run_refines_witness :
  exists l : lattice IrobCore (IntSet.t (list bool)),
    impl_run demo_ops lattice_new = Ret ([true; true; true; false; true], l) /\
    find_locked 3 l = Some (add_dependent 5 (core_placeholder 3)) /\
    past_irob_exists 0 l = true.
Proof.
  destruct (run_refines (IS := IntSet.t (list bool)) 0 100 ltac:(lia) ltac:(lia) ltac:(lia)
    demo_ops (fst demo_spec) (snd demo_spec) demo_ops_ok) as (l & E & F & P & _).
  { vm_compute. reflexivity. }
  exists l. split; [exact E|]. split.
  - rewrite F by (split; lia). vm_compute. reflexivity.
  - rewrite P. vm_compute. reflexivity.
Defined.

Lemma drop_refines_witness :
  exists (l l' : lattice IrobCore (IntSet.t (list bool))) bs,
    impl_run demo_ops lattice_new = Ret (bs, l) /\
    drop_irob_and_dependents 1 l = Some l' /\
    irob_was_dropped 1 l' = true /\ irob_was_dropped 5 l' = true.
Proof.
  destruct (run_sim (IS := IntSet.t (list bool)) 0 100 ltac:(lia) ltac:(lia) ltac:(lia)
    demo_ops lattice_new spec_new (fst demo_spec) (snd demo_spec)
    (sim_new 0 100 ltac:(lia) ltac:(lia) ltac:(lia)) demo_ops_ok) as (l & E & S).
  { vm_compute. reflexivity. }
  destruct (drop_refines 0 100 ltac:(lia) ltac:(lia) ltac:(lia) l (snd demo_spec) 1 S)
    as (R & l' & D & HR & S'); [split; lia|].
  exists l, l', (fst demo_spec). split; [exact E|]. split; [exact D|].
  unfold irob_was_dropped. rewrite !(sim_dropped _ _ _ _ S').
  assert (forall v, doomed (snd demo_spec) 1 v -> v ∈ dropped (spec_drop R (snd demo_spec))) as K.
  { intros v Hv. change (v ∈ R ∪ dropped (snd demo_spec)). apply elem_of_union_l, HR, Hv. }
  split; apply bool_decide_eq_true_2, K.
  - split; [vm_compute; eauto|apply rtc_refl].
  - split; [vm_compute; eauto|]. apply rtc_once. eexists. split; [vm_compute; reflexivity|].
    apply (bool_decide_unpack _). vm_compute. exact I.
Defined.
