(* ===== verification/LatticeOrder.v ===== *)
(** The order the sender's lattice puts IROBs in (pending_irob.cpp,
    [correct_deps] with [infer_deps]).

    [sender_run] lists, in order, the IROBs a sender has inserted, with the
    dependencies the lattice gave each; acknowledged IROBs are erased and failed
    ones dropped in between.  The theorems say that the inferred dependencies
    place every anonymous IROB after all IROBs inserted before it, and every
    IROB after the last anonymous one: the receiver, which releases an IROB only
    when its dependencies are past, then delivers in that order. *)

From stdpp Require Import relations.
From S2P Require Import Prelude Irob IntSet Lattice LatticeRep LatticeSpec.

Record entry := Entry { e_id : Z; e_anonymous : bool; e_deps : gset Z }.

Section order.
Context {O IS : Type} `{!IrobOps O} `{!IrobLaws O} `{!IdSet IS} `{!IdSetLaws IS}.
Context (lo hi : Z).
Context (Hlo : 0 <= lo) (Hhi : hi <= 2 ^ 63) (Hwin : hi - lo < 2 ^ 31).
Abbreviation L := (lattice O IS).

(** The sender's operations on its lattice, with the history of insertions. *)
Inductive sender_run : list entry -> L -> Prop :=
| run_new : sender_run [] lattice_new
| run_insert h l p l' o :
    sender_run h l -> op_ok lo hi (OpInsert p true) ->
    insert_locked p true l = Ret (true, l') ->
    find_locked (irob_id (core p)) l' = Some o ->
    sender_run (h ++ [Entry (irob_id (core p)) (anonymous (core p)) (deps (core o))]) l'
| run_erase h l id :
    sender_run h l -> in_window lo hi id ->
    sender_run h (snd (erase_locked id false l))
| run_drop h l id l' :
    sender_run h l -> in_window lo hi id ->
    drop_irob_and_dependents id l = Some l' -> sender_run h l'.

(** The dependencies of the history. *)
Definition depends (h : list entry) (x y : Z) : Prop :=
  exists e, e ∈ h /\ e_id e = x /\ y ∈ e_deps e.

Lemma depends_mono h h' x y : depends h x y -> depends (h ++ h') x y.
Proof. intros (e & He & ?). exists e. split; [|done]. apply elem_of_app. by left. Qed.

Lemma tc_depends_mono h h' x y : tc (depends h) x y -> tc (depends (h ++ h')) x y.
Proof. apply tc_congruence with (f := fun x => x). apply depends_mono. Qed.

Lemma rtc_depends_mono h h' x y : rtc (depends h) x y -> rtc (depends (h ++ h')) x y.
Proof. apply rtc_congruence with (f := fun x => x). apply depends_mono. Qed.

(** What the last anonymous IROB and the dominator set stand for.  [before] has
    the history up to the last anonymous IROB, [after] the rest. *)
Record order_inv (h : list entry) (a : alattice O) : Prop := {
  oi_split : exists before after, h = before ++ after /\
    Forall (fun e => e_anonymous e = false) after /\
    (forall e, e ∈ after -> exists d, d ∈ doms a /\ rtc (depends h) d (e_id e)) /\
    ((before = [] /\ anon a = -1) \/
     exists b e, before = b ++ [e] /\ e_anonymous e = true /\ e_id e = anon a /\
       0 <= anon a /\ forall e', e' ∈ b -> tc (depends h) (anon a) (e_id e'));
  oi_doms d : d ∈ doms a -> 0 <= anon a -> tc (depends h) d (anon a)
}.

Lemma order_inv_same h a a' :
  anon a' = anon a -> doms a' = doms a -> order_inv h a -> order_inv h a'.
Proof. intros Ea Ed [H1 H2]. split; rewrite Ea, ?Ed; done. Qed.

(** Every earlier IROB is below the dominators or below the last anonymous one. *)
Lemma order_inv_cover h a e :
  order_inv h a -> e ∈ h ->
  (exists d, d ∈ doms a /\ rtc (depends h) d (e_id e)) \/
  (0 <= anon a /\ rtc (depends h) (anon a) (e_id e)).
Proof.
  intros [(before & after & Eh & _ & Haf & Hb) _] He.
  rewrite Eh in He. apply elem_of_app in He as [He|He]; [|left; auto].
  right. destruct Hb as [[-> _]|(b & e0 & -> & _ & Ei & Hn & Ht)]; [by apply elem_of_nil in He|].
  split; [done|]. apply elem_of_app in He as [He|He%list_elem_of_singleton].
  - by apply tc_rtc, Ht.
  - subst e. by rewrite Ei.
Qed.

(** An anonymous IROB [x] that depends on the dominators, or on the last
    anonymous IROB when there are none, is above everything. *)
Lemma anonymous_above h a x D :
  order_inv h a ->
  (doms a ⊆ D /\ (0 <= anon a -> doms a = ∅ -> anon a ∈ D)) ->
  forall e, e ∈ h -> tc (depends (h ++ [Entry x true D])) x (e_id e).
Proof.
  intros HI [HD Ha] e He. set (h' := h ++ _).
  assert (Hedge : forall d, d ∈ D -> depends h' x d).
  { intros d Hd. eexists. split; [apply elem_of_app; right; by apply list_elem_of_singleton|].
    done. }
  destruct (order_inv_cover h a e HI He) as [(d & Hd & Hr)|[Hn Hr]].
  - eapply tc_rtc_r; [apply tc_once, Hedge, HD, Hd|by apply rtc_depends_mono].
  - destruct (decide (doms a = ∅)) as [E|E].
    + eapply tc_rtc_r; [apply tc_once, Hedge, Ha; done|by apply rtc_depends_mono].
    + apply set_choose_L in E as [d Hd].
      eapply tc_rtc_r; [|by apply rtc_depends_mono].
      eapply tc_l; [apply Hedge, HD, Hd|]. by apply tc_depends_mono, (oi_doms _ _ HI).
Qed.

Lemma order_step_anonymous h a a' x D :
  order_inv h a -> 0 <= x ->
  (doms a ⊆ D /\ (0 <= anon a -> doms a = ∅ -> anon a ∈ D)) ->
  anon a' = x -> doms a' = ∅ -> order_inv (h ++ [Entry x true D]) a'.
Proof.
  intros HI Hx HD Ea Ed. split.
  - exists (h ++ [Entry x true D]), []. split; [by rewrite app_nil_r|]. split; [done|].
    split; [intros e He; by apply elem_of_nil in He|]. right.
    exists h, (Entry x true D). rewrite Ea. split_and!; try done.
    intros e He. by eapply anonymous_above.
  - rewrite Ed. set_solver.
Qed.

(** A non-anonymous IROB takes the place of the dominators it depends on. *)
Lemma order_step_explicit h a a' x D c :
  order_inv h a -> c ⊆ D ->
  (0 <= anon a -> c ∩ doms a = ∅ -> anon a ∈ D) ->
  anon a' = anon a -> doms a' = {[x]} ∪ (doms a ∖ c) ->
  order_inv (h ++ [Entry x false D]) a'.
Proof.
  intros HI Hc Ha Ea Ed. set (h' := h ++ [Entry x false D]).
  assert (Hedge : forall d, d ∈ D -> depends h' x d).
  { intros d Hd. eexists. split; [apply elem_of_app; right; by apply list_elem_of_singleton|].
    done. }
  pose proof HI as [(before & after & Eh & Han & Haf & Hb) Hd]. split.
  - exists before, (after ++ [Entry x false D]). split; [subst h' h; by rewrite app_assoc|].
    split; [apply Forall_app; split; [done|by apply Forall_singleton]|]. split.
    + intros e He. apply elem_of_app in He as [He|He%list_elem_of_singleton].
      2:{ subst e. exists x. split; [rewrite Ed; set_solver|apply rtc_refl]. }
      destruct (Haf e He) as (d & Hdm & Hr). destruct (decide (d ∈ c)) as [Hdc|Hdc].
      * exists x. split; [rewrite Ed; set_solver|].
        eapply rtc_l; [apply Hedge, Hc, Hdc|by apply rtc_depends_mono].
      * exists d. split; [rewrite Ed; set_solver|by apply rtc_depends_mono].
    + destruct Hb as [[Eb Em]|(b & e0 & Eb & ? & ? & ? & Ht)].
      * left. split; [done|]. by rewrite Ea.
      * right. exists b, e0. rewrite Ea. split_and!; try done.
        intros e' He'. by apply tc_depends_mono, Ht.
  - intros d. rewrite Ed, Ea. intros [->%elem_of_singleton|Hdm]%elem_of_union Hn.
    + destruct (decide (c ∩ doms a = ∅)) as [E|E].
      * apply tc_once, Hedge. by apply Ha.
      * apply set_choose_L in E as [d Hi]. apply elem_of_intersection in Hi as [H1 H2].
        eapply tc_l; [apply Hedge, Hc, H1|]. by apply tc_depends_mono, Hd.
    + apply tc_depends_mono, Hd; set_solver.
Qed.

(** An explicit IROB is above every earlier anonymous one. *)
Lemma explicit_above h a a' x D :
  order_inv h a -> order_inv (h ++ [Entry x false D]) a' -> anon a' = anon a -> x ∈ doms a' ->
  forall e, e ∈ h -> e_anonymous e = true -> tc (depends (h ++ [Entry x false D])) x (e_id e).
Proof.
  intros [(before & after & Eh & Han & _ & Hb) _] HI' Ea Hx e He Hae.
  rewrite Eh in He. apply elem_of_app in He as [He|He].
  2:{ rewrite Forall_forall in Han. by rewrite (Han e He) in Hae. }
  destruct Hb as [[-> _]|(b & e0 & -> & _ & Ei & Hn & Ht)]; [by apply elem_of_nil in He|].
  eapply tc_rtc_r; [apply (oi_doms _ _ HI' _ Hx); lia|]. rewrite Ea.
  apply rtc_depends_mono. apply elem_of_app in He as [He|He%list_elem_of_singleton].
  - by apply tc_rtc, Ht.
  - subst e. by rewrite Ei.
Qed.

(** Every IROB is above all earlier ones if it is anonymous, and above the
    earlier anonymous ones in any case. *)
Definition ordered (h : list entry) : Prop :=
  forall h1 e h2, h = h1 ++ e :: h2 -> forall e', e' ∈ h1 ->
  e_anonymous e || e_anonymous e' = true -> tc (depends h) (e_id e) (e_id e').

Lemma ordered_snoc h x :
  ordered h ->
  (forall e', e' ∈ h -> e_anonymous x || e_anonymous e' = true ->
     tc (depends (h ++ [x])) (e_id x) (e_id e')) ->
  ordered (h ++ [x]).
Proof.
  intros Hh Hx h1 e h2 E e' He' Hor. destruct (decide (h2 = [])) as [->|Hne].
  - apply app_inj_tail in E as [-> ->]. by apply Hx.
  - destruct (exists_last Hne) as (h3 & y & ->). rewrite app_comm_cons, app_assoc in E.
    apply app_inj_tail in E as [-> <-]. by eapply tc_depends_mono, Hh.
Qed.

Lemma order_step h a p a' o :
  order_inv h a -> in_window lo hi (irob_id (core p)) -> 
  spec_insert p true a = Ret (true, a') ->
  live a' !! irob_id (core p) = Some o ->
  let x := Entry (irob_id (core p)) (anonymous (core p)) (deps (core o)) in
  order_inv (h ++ [x]) a' /\
  forall e, e ∈ h -> e_anonymous x || e_anonymous e = true ->
    tc (depends (h ++ [x])) (e_id x) (e_id e).
Proof.
  intros HI Hid. unfold spec_insert. destruct (known _ a); [done|].
  set (id := irob_id (core p)) in *. intros E.
  apply bind_ret_inv in E as (p1 & Hs & [= <-]).
  assert (irob_id (core p1) = id /\ anonymous (core p1) = anonymous (core p)) as [Ei Ean].
  { destruct (live a !! id) as [e|].
    - apply subsume_core in Hs. by destruct Hs as (? & _ & _ & _ & ? & _).
    - by injection Hs as ->. }
  simpl. intros Ho. set (D := spec_deps true (core p1) a) in *.
  assert (deps (core o) = D) as ->.
  { rewrite lookup_link_map in Ho. case_decide; rewrite lookup_insert_eq in Ho;
      injection Ho as <-; simpl; by rewrite !core_upd. }
  cbn zeta. cbn [e_id e_anonymous]. rewrite <- Ean.
  set (a2 := ALattice _ _ _ _ _) in *.
  destruct (anonymous (core p1)) eqn:Ea.
  - assert (doms a ⊆ D /\ (0 <= anon a -> doms a = ∅ -> anon a ∈ D)) as HD.
    { unfold D, spec_deps. rewrite Ea. destruct (Z.leb_spec 0 (anon a)); simpl.
      - case_bool_decide as E0; [rewrite E0|]; set_solver.
      - split; [set_solver|lia]. }
    assert (anon a2 = id /\ doms a2 = ∅) as [Ean2 Edm2].
    { subst a2. unfold spec_anon, spec_doms. simpl. by rewrite ?Ea, ?Ei. }
    split; [|intros e He _; by eapply anonymous_above].
    apply (order_step_anonymous h a); [done|unfold in_window in Hid; lia|done..].
  - assert (anon a2 = anon a /\ doms a2 = {[id]} ∪ (doms a ∖ deps (core p1))) as [Ean2 Edm2].
    { subst a2. unfold spec_anon, spec_doms. simpl. by rewrite ?Ea, ?Ei. }
    assert (order_inv (h ++ [Entry id false D]) a2) as HI2.
    { apply (order_step_explicit h a _ _ _ (deps (core p1))); try done.
      - unfold D, spec_deps. rewrite Ea. case_match; set_solver.
      - intros Hn E0. unfold D, spec_deps.
        rewrite Ea, (proj2 (Z.leb_le 0 _)), bool_decide_eq_true_2 by done. simpl. set_solver. }
    split; [done|]. intros e He Hae. eapply explicit_above; try done.
    rewrite Edm2. set_solver.
Qed.

Lemma sender_run_inv h l :
  sender_run h l -> ordered h /\ exists a, sim lo hi l a /\ order_inv h a.
Proof.
  induction 1 as [|h l p l' o _ [Hh (a & S & HI)] Hop E Ef|h l id _ [Hh (a & S & HI)] Hid
                  |h l id l' _ [Hh (a & S & HI)] Hid E].
  - split; [by intros [|] ?|].
    exists spec_new. split; [by apply sim_new|]. split; [|set_solver].
    exists [], []. split_and!; try done; [|by left]. intros e He. by apply elem_of_nil in He.
  - destruct (insert_sim_inv lo hi Hlo Hhi Hwin l a p true l' S Hop E) as (a' & Es & S').
    destruct (order_step h a p a' o HI (proj1 Hop) Es) as [HI' Hn].
    { rewrite <- Ef. symmetry. eapply find_rep; [done|apply (sim_ok _ _ _ _ S')|exact (proj1 Hop)]. }
    split; [by apply ordered_snoc|by exists a'].
  - split; [done|]. pose proof (erase_sim lo hi Hlo Hhi Hwin l a id false S Hid) as K.
    destruct (spec_erase id false a) as [b a'] eqn:Es. destruct K as (l' & -> & S').
    exists a'. split; [done|]. unfold spec_erase in Es.
    destruct (live a !! id); injection Es as <- <-; [|done]. by eapply order_inv_same, HI.
  - split; [done|].
    destruct (drop_loop_spec lo hi Hlo Hhi Hwin (drop_fuel l) [id] l a id ∅)
      as (R & l1 & E1 & S' & _).
    + unfold drop_fuel. simpl. lia.
    + by rewrite spec_drop_empty.
    + apply (sim_ok _ _ _ _ S).
    + by apply Forall_singleton.
    + apply drop_inv_start.
    + unfold drop_irob_and_dependents in E. rewrite E1 in E. injection E as <-.
      exists (spec_drop R a). split; [done|]. by eapply order_inv_same, HI.
Qed.

(** C7: Whatever a sender has inserted, acknowledged and dropped so far, the
    dependencies its lattice gave the IROBs put every anonymous IROB
    (transitively) after all IROBs inserted before it, and every IROB after all
    anonymous ones inserted before it. *)
Theorem sender_order h l h1 e h2 e' :
  sender_run h l -> h = h1 ++ e :: h2 -> e' ∈ h1 ->
  e_anonymous e = true \/ e_anonymous e' = true ->
  tc (depends h) (e_id e) (e_id e').
Proof.
  intros Hr E He' Hor. destruct (sender_run_inv h l Hr) as [Ho _].
  eapply Ho; eauto. destruct Hor as [->| ->]; [done|apply orb_true_r].
Qed.
End order.

(** ** A sender's run, evaluated *)

Import ListBits.
Abbreviation base_lattice := (lattice IrobCore (IntSet.t (list bool))).

(** Explicit IROBs 0 and 1, the anonymous 2, then the explicit 3, with 0
    acknowledged in between. *)
Definition order_demo : list IrobCore :=
  [core_new 0 [] [] 0; core_new 1 [0] [] 0; core_new 2 [] [Byte.x61] 0; core_new 3 [] [] 0].

Definition order_insert (p : IrobCore) (l : base_lattice) : base_lattice :=
  match insert_locked p true l with Ret (_, l') => l' | _ => l end.

Definition order_demo_history : list entry :=
  [Entry 0 false ∅; Entry 1 false {[0]}; Entry 2 true {[1]}; Entry 3 false {[2]}].

Definition order_demo_lattice : base_lattice :=
  match order_demo with
  | [p0; p1; p2; p3] =>
      order_insert p3 (order_insert p2 (snd (erase_locked 0 false
        (order_insert p1 (order_insert p0 lattice_new)))))
  | _ => lattice_new
  end.

Lemma demo_insert_ok id ds data :
  0 <= id < 10 -> Forall (fun d => 0 <= d < 10) ds ->
  op_ok 0 10 (OpInsert (core_new id ds data 0) true).
Proof.
  intros Hid Hds. assert (forall d, d ∈ deps (core_new id ds data 0) ∪
    dependents (core_new id ds data 0) -> in_window 0 10 d) as Hw.
  { intros d. unfold core_new. destruct (0 <? _); simpl; rewrite Forall_forall in Hds;
      set_unfold; intros [?|?]; try done; by apply Hds. }
  unfold op_ok, core_new in *. destruct (0 <? _); by split_and!.
Qed.

Lemma demo_step h (l : base_lattice) p ds :
  op_ok 0 10 (OpInsert p true) ->
  match insert_locked p true l with
  | Ret (true, l') =>
      match find_locked (irob_id p) l' with
      | Some o => bool_decide (deps o = ds)
      | None => false
      end
  | _ => false
  end = true ->
  sender_run 0 10 h l ->
  sender_run 0 10 (h ++ [Entry (irob_id p) (anonymous p) ds]) (order_insert p l).
Proof.
  intros Hop E Hr. unfold order_insert.
  destruct (insert_locked p true l) as [[[] l']| |] eqn:Ei; try done.
  destruct (find_locked (irob_id p) l') as [o|] eqn:Ef; [|done].
  apply bool_decide_eq_true_1 in E as <-.
  exact (run_insert 0 10 h l p l' o Hr Hop Ei Ef).
Qed.

Lemma order_demo_run : sender_run 0 10 order_demo_history order_demo_lattice.
Proof.
  refine (demo_step [_; _; _] _ (core_new 3 [] [] 0) {[2]} _ _ _);
    [apply demo_insert_ok; [lia|by constructor]|vm_compute; reflexivity|].
  refine (demo_step [_; _] _ (core_new 2 [] [Byte.x61] 0) {[1]} _ _ _);
    [apply demo_insert_ok; [lia|by constructor]|vm_compute; reflexivity|].
  apply run_erase; [|split; lia].
  refine (demo_step [_] _ (core_new 1 [0] [] 0) {[0]} _ _ _);
    [apply demo_insert_ok; [lia|by repeat constructor]|vm_compute; reflexivity|].
  refine (demo_step [] _ (core_new 0 [] [] 0) ∅ _ _ _);
    [apply demo_insert_ok; [lia|by constructor]|vm_compute; reflexivity|apply run_new].
Qed.

Lemma sender_order_witness :
  tc (depends order_demo_history) 3 2 /\ tc (depends order_demo_history) 2 0.
Proof.
  split.
  - apply (sender_order 0 10 ltac:(lia) ltac:(lia) ltac:(lia) _ _
      [Entry 0 false ∅; Entry 1 false {[0]}; Entry 2 true {[1]}] (Entry 3 false {[2]}) []
      (Entry 2 true {[1]}) order_demo_run); [reflexivity|set_solver|by right].
  - apply (sender_order 0 10 ltac:(lia) ltac:(lia) ltac:(lia) _ _
      [Entry 0 false ∅; Entry 1 false {[0]}] (Entry 2 true {[1]}) [Entry 3 false {[2]}]
      (Entry 0 false ∅) order_demo_run); [reflexivity|set_solver|by left].
Defined.
