(* ===== verification/ReceiverLattice.v ===== *)
(** [PendingReceiverIROBLattice] of pending_receiver_irob.h/.cpp: which IROBs
    the application may read, and [recv].

    The base class part is a lattice of receiver IROBs.  [partially_read_irob]
    points to an object that is also in the lattice (it is erased only when it
    has been read), so it is the IROB's identifier.  The scheduling lock is held
    throughout, and released while [get_ready_irob] waits on the condition
    variable: waiting ends the run with [WouldWait], and waking up is running
    again in the state of that time.  [recv_env] has what the multi-socket's
    other fields and the clock decide. *)

From S2P Require Import Prelude Labels Scheduling Irob IntSet Control ReceiverIrob Lattice.

Record rlattice (IS : Type) := RLattice {
  rl_irobs : lattice PendingReceiverIROB IS;
  ready_irobs : PrioritySet.t;
  partially_read_irob : option Z
}.
Arguments RLattice {IS}.
Arguments rl_irobs {IS}.
Arguments ready_irobs {IS}.
Arguments partially_read_irob {IS}.

(** What [get_ready_irob] and [recv] read of the multi-socket. *)
Record recv_env := RecvEnv {
  env_no_more_data : bool;      (* remote_shutdown && csock_map->empty() *)
  env_shutting_down : bool;
  env_non_blocking : bool;
  env_timeout_expired : bool    (* read_timeout_expired(read_begin) *)
}.

Definition MSG_PEEK : Z := 0x2.
Definition MSG_WAITALL : Z := 0x100.

Section rlattice_ops.
Context {IS : Type} `{!IdSet IS}.
Abbreviation RL := (rlattice IS).
Implicit Types (r : RL) (id : Z) (p : PendingReceiverIROB).

Definition set_irobs (l : lattice PendingReceiverIROB IS) r : RL :=
  RLattice l (ready_irobs r) (partially_read_irob r).
Definition set_ready (s : PrioritySet.t) r : RL :=
  RLattice (rl_irobs r) s (partially_read_irob r).
Definition set_partial (o : option Z) r : RL := RLattice (rl_irobs r) (ready_irobs r) o.

Definition rlattice_new : RL := RLattice lattice_new [] None.

Definition rfind id r : option PendingReceiverIROB := find_locked id (rl_irobs r).
Definition rupdate id (f : PendingReceiverIROB -> PendingReceiverIROB) r : RL :=
  set_irobs (update_found id f (rl_irobs r)) r.

Definition data_is_ready r : bool :=
  bool_decide (is_Some (partially_read_irob r)) || negb (bool_decide (ready_irobs r = [])).

(** [release]; waking the selectors and the waiting readers is not modelled. *)
Definition release id (labels : Z) r : RL :=
  set_ready (PrioritySet.insert (sched_chunks id false labels) (ready_irobs r)) r.

(** The predicate [ReadyIROB]. *)
Definition ReadyIROB p : outcome bool :=
  r_is_complete p ≫= fun c : bool =>
  Ret (c && is_ready p && negb (has_been_released p)).

(** [release_if_ready] on the object in slot [id]. *)
Definition release_if_ready (is_ready : PendingReceiverIROB -> outcome bool) id p r : outcome RL :=
  is_ready p ≫= fun b : bool =>
  if b then
    get_send_labels (rbase p) ≫= fun labels =>
    Ret (release id labels (rupdate id release_irob r))
  else Ret r.

Fixpoint release_each (is_ready : PendingReceiverIROB -> outcome bool) (ids : list Z) r
    : outcome RL :=
  match ids with
  | [] => Ret r
  | id :: ids =>
      match rfind id r with
      | None => release_each is_ready ids r
      | Some p => release_if_ready is_ready id p r ≫= release_each is_ready ids
      end
  end.

Definition release_dependents (is_ready : PendingReceiverIROB -> outcome bool) p r : outcome RL :=
  release_each is_ready (ascending (dependents (rbase p))) r.

(** ** Finding data for the application *)

Inductive ready_result :=
| NullIrob                    (* shutting down *)
| SentinelIrob                (* nothing ready, and no waiting *)
| FoundIrob (id : Z) (p : PendingReceiverIROB)
| WouldWait.

(** The loop over the ready set: requests of IROBs already received are
    skipped.  The fuel is the number of requests; [pop] cannot fail on a
    non-empty set. *)
Fixpoint pop_ready (fuel : nat) (block_for_data : bool) (env : recv_env) r
    : ready_result * RL :=
  match PrioritySet.pop (ready_irobs r) with
  | None =>
      if env_no_more_data env then (NullIrob, r)
      else if negb block_for_data then (SentinelIrob, r)
      else if env_non_blocking env then (SentinelIrob, r)
      else if env_timeout_expired env then (SentinelIrob, r)
      else (WouldWait, r)
  | Some (d, rest) =>
      let r := set_ready rest r in
      match rfind (sd_id d) r with
      | Some p => (FoundIrob (sd_id d) p, r)
      | None => match fuel with
                | O => (WouldWait, r)
                | S fuel => pop_ready fuel block_for_data env r
                end
      end
  end.

Definition get_ready_irob (block_for_data : bool) (env : recv_env) r
    : outcome (ready_result * RL) :=
  match partially_read_irob r with
  | Some id =>
      access (rfind id r) ≫= fun p =>
      r_is_complete p ≫= fun c : bool =>
      assert_ c ≫= fun _ =>
      Ret (FoundIrob id p, set_partial None r)
  | None => Ret (pop_ready (length (ready_irobs r)) block_for_data env r)
  end.

(** ** recv *)

(** What the application has been given so far. *)
Record recv_acc := RecvAcc { acc_bytes : list byte; acc_labels : option Z }.
Definition bytes_passed (a : recv_acc) : Z := Z.of_nat (length (acc_bytes a)).

Inductive recv_result :=
| Received (a : recv_acc)         (* returns the bytes *)
| NoData                          (* -1 with EWOULDBLOCK *)
| Waiting (a : recv_acc).         (* asleep on the condition variable *)

(** One IROB passed to the application, entirely or in part; [true]: [break]. *)
Definition pass_irob id p (len flags : Z) (a : recv_acc) r : outcome (bool * recv_acc * RL) :=
  assert_ (is_ready p) ≫= fun _ =>
  r_is_complete p ≫= fun c : bool =>
  assert_ c ≫= fun _ =>
  (if bytes_passed a =? 0
   then get_send_labels (rbase p) ≫= fun l => Ret (Some l)
   else Ret (acc_labels a)) ≫= fun labels =>
  read_data p (len - bytes_passed a) ≫= fun b =>
  (if has_bits flags MSG_PEEK then Ret p
   else remove_bytes p (Z.of_nat (length b))) ≫= fun p' =>
  let r := rupdate id (fun _ => p') r in
  let a := RecvAcc (acc_bytes a ++ b) labels in
  r_is_complete p' ≫= fun c' : bool =>
  if c' && (numbytes p' =? 0) then
    let r := set_irobs (snd (erase_locked id true (rl_irobs r))) r in
    release_dependents ReadyIROB p' r ≫= fun r =>
    Ret (negb (has_bits flags MSG_WAITALL), a, r)
  else
    assert_ (bool_decide (partially_read_irob r = None)) ≫= fun _ =>
    Ret (false, a, set_partial (Some id) r).

(** The loop; [None] when the fuel runs out. *)
Fixpoint recv_loop (fuel : nat) (len flags : Z) (env : recv_env) (a : recv_acc) r
    : outcome (option (recv_result * RL)) :=
  if bytes_passed a <? len then
    match fuel with
    | O => Ret None
    | S fuel =>
        let block_for_data := (bytes_passed a =? 0) || has_bits flags MSG_WAITALL in
        get_ready_irob block_for_data env r ≫= fun '(res, r) =>
        match res with
        | NullIrob =>
            if env_shutting_down env then Ret (Some (Received a, r)) else Trap AssertFailed
        | SentinelIrob =>
            if bytes_passed a =? 0 then
              if env_non_blocking env || env_timeout_expired env
              then Ret (Some (NoData, r)) else Trap AssertFailed
            else Ret (Some (Received a, r))
        | WouldWait => Ret (Some (Waiting a, r))
        | FoundIrob id p =>
            assert_ (negb (numbytes p =? 0)) ≫= fun _ =>
            pass_irob id p len flags a r ≫= fun '(stop, a, r) =>
            if (stop : bool) then Ret (Some (Received a, r))
            else recv_loop fuel len flags env a r
        end
    end
  else Ret (Some (Received a, r)).

(** Every IROB passed gives at least one byte, so [len] rounds are enough. *)
Definition recv (len flags : Z) (env : recv_env) r : outcome (option (recv_result * RL)) :=
  recv_loop (Z.to_nat len) len flags env (RecvAcc [] None) r.
End rlattice_ops.
