(* ===== verification/ReceiverOrder.v ===== *)
(** The order the receiver's lattice enforces (pending_irob.cpp without
    inference, pending_receiver_irob.cpp).

    [receiver_run] is any sequence of what the receiving side does to its
    lattice: insert an IROB with the dependencies its Begin_IROB named, make a
    placeholder for one not announced yet, change an IROB's data, and erase an
    IROB the application has read.  [h] records the dependencies announced.
    The invariant: an announced dependency is either still waited for or past,
    and an IROB that waits for another is registered with it. *)

From S2P Require Import Prelude Irob IntSet Lattice LatticeRep LatticeSpec.

(** A change of an object that leaves its place in the lattice alone. *)
Definition same_links (c c' : IrobCore) : Prop :=
  irob_id c' = irob_id c /\ deps c' = deps c /\ dependents c' = dependents c /\
  placeholder c' = placeholder c.

Section order.
Context {O IS : Type} `{!IrobOps O} `{!IrobLaws O} `{!IdSet IS} `{!IdSetLaws IS}.
Context (lo hi : Z).
Context (Hlo : 0 <= lo) (Hhi : hi <= 2 ^ 63) (Hwin : hi - lo < 2 ^ 31).
Abbreviation L := (lattice O IS).
Implicit Types (l : L) (a : alattice O) (h : gmap Z (gset Z)).

Inductive receiver_run : gmap Z (gset Z) -> L -> Prop :=
| rr_new : receiver_run ∅ lattice_new
| rr_insert h l p l' :
    receiver_run h l -> op_ok lo hi (OpInsert p false) ->
    insert_locked p false l = Ret (true, l') ->
    receiver_run (<[irob_id (core p) := deps (core p)]> h) l'
| rr_placeholder h l id l' :
    receiver_run h l -> in_window lo hi id -> find_locked id l = None ->
    insert_locked (make_placeholder id) false l = Ret (true, l') -> receiver_run h l'
| rr_update h l id f :
    receiver_run h l -> in_window lo hi id ->
    (forall o, find_locked id l = Some o -> same_links (core o) (core (f o))) ->
    receiver_run h (update_found id f l)
| rr_erase h l id :
    receiver_run h l -> in_window lo hi id ->
    receiver_run h (snd (erase_locked id true l)).

Record waits_inv h a : Prop := {
  wi_known id D : h !! id = Some D -> is_Some (live a !! id) \/ id ∈ finished a;
  wi_deps id D o d : h !! id = Some D -> live a !! id = Some o -> d ∈ D ->
    d ∈ deps (core o) \/ d ∈ finished a;
  wi_links id o d : live a !! id = Some o -> d ∈ deps (core o) ->
    exists o', live a !! d = Some o' /\ id ∈ dependents (core o');
  wi_from id D o : h !! id = Some D -> live a !! id = Some o -> deps (core o) ⊆ D
}.

Lemma waits_new : waits_inv ∅ spec_new.
Proof.
  split; simpl; intros; [by rewrite lookup_empty in *..|]. by rewrite lookup_empty in *.
Qed.

(** The links after a registration: what was linked stays linked. *)
Lemma link_keeps (past : gset Z) pid X (m : gmap Z O) d o :
  m !! d = Some o ->
  exists o', link_map past pid X m !! d = Some o' /\ deps (core o') = deps (core o) /\
    dependents (core o) ⊆ dependents (core o').
Proof.
  intros Hd. rewrite lookup_link_map. case_decide; [|eauto].
  eexists. split; [done|]. rewrite core_upd, Hd. simpl. split; [done|set_solver].
Qed.

Lemma waits_insert h a p a' :
  waits_inv h a -> spec_insert p false a = Ret (true, a') ->
  waits_inv (<[irob_id (core p) := deps (core p)]> h) a'.
Proof.
  intros [Hk Hd Hl Hfrom] E. unfold spec_insert in E. destruct (known _ a) eqn:Hkn; [done|].
  set (id := irob_id (core p)) in *. apply bind_ret_inv in E as (p1 & Hs & [= <-]).
  unfold known in Hkn. apply orb_false_iff in Hkn as [Hnf Hph].
  apply bool_decide_eq_false_1 in Hnf.
  assert (deps (core p1) = deps (core p) /\
    forall e, live a !! id = Some e -> dependents (core e) ⊆ dependents (core p1)) as [Ed Hsub].
  { destruct (live a !! id) as [e|].
    - apply subsume_core in Hs as (_ & _ & ? & Hde & _). split; [done|].
      intros e' [= <-]. rewrite Hde. set_solver.
    - injection Hs as ->. done. }
  set (D := deps (core p1) ∖ finished a). set (p2 := upd_core _ p1).
  assert (core p2 = set_deps (fun _ => D) (core p1)) as Ecp by (subst p2; by rewrite core_upd).
  set (m' := link_map _ _ _ _).
  assert (Hm' : forall k, m' !! k =
    if decide (k ∈ D /\ bool_decide (k ∈ finished a) = false)
    then Some (upd_core (add_dependent id)
           (default (make_placeholder k) ((<[id := p2]> (live a)) !! k)))
    else (<[id := p2]> (live a)) !! k).
  { intros k. unfold m'. by rewrite lookup_link_map. }
  assert (Hinv : forall k o, m' !! k = Some o ->
    (k = id /\ deps (core o) = D) \/
    (k <> id /\ exists o0, live a !! k = Some o0 /\ deps (core o) = deps (core o0)) \/
    (k <> id /\ live a !! k = None /\ (k ∉ finished a) /\ deps (core o) = ∅)).
  { intros k o. rewrite Hm', lookup_insert. destruct (decide (id = k)) as [<-|Hne].
    - case_decide; intros [= <-]; left; split; try done; rewrite ?core_upd; simpl; by rewrite Ecp.
    - case_decide as Hc; [|intros Hk'; right; left; eauto].
      intros [= <-]. rewrite core_upd. simpl. right.
      destruct (live a !! k) as [o0|] eqn:Hk0; simpl; [left; eauto|right].
      destruct Hc as [_ Hc%bool_decide_eq_false_1].
      rewrite core_make_placeholder. simpl. done. }
  assert (Hup : forall k o0, live a !! k = Some o0 ->
    exists o, m' !! k = Some o /\ dependents (core o0) ⊆ dependents (core o)).
  { intros k o0 Hk0. destruct (decide (k = id)) as [->|Hne].
    - destruct (link_keeps (finished a) id D (<[id := p2]> (live a)) id p2) as (o & Ho & _ & Hds);
        [apply lookup_insert_eq|].
      exists o. split; [exact Ho|]. specialize (Hsub _ Hk0). rewrite Ecp in Hds. simpl in Hds.
      set_solver.
    - destruct (link_keeps (finished a) id D (<[id := p2]> (live a)) k o0) as (o & Ho & _ & Hds);
        [by rewrite lookup_insert_ne|]. eauto. }
  split; simpl.
  - intros k Dk. rewrite lookup_insert. case_decide as Ek.
    + intros _. subst k. left. fold D. fold p2. fold m'. rewrite Hm', lookup_insert_eq.
      case_decide; eauto.
    + intros Hkk. destruct (Hk k Dk Hkk) as [[o0 Ho0]|?]; [|by right]. left.
      destruct (Hup k o0 Ho0) as (o & Ho & _). eauto.
  - intros k Dk o d. rewrite lookup_insert. case_decide as Ek; intros HDk Ho Hdd.
    + injection HDk as <-. subst k. destruct (Hinv id o Ho) as [[_ ->]|[[? _]|[? _]]]; [|done..].
      destruct (decide (d ∈ finished a)); [by right|]. left. unfold D. rewrite Ed. set_solver.
    + destruct (Hinv k o Ho) as [[-> _]|[(_ & o0 & Ho0 & ->)|(_ & Hn & Hnf' & _)]]; [done| |].
      * by eapply Hd.
      * destruct (Hk k Dk HDk) as [[? ?]|?]; [congruence|done].
  - intros k o d Ho Hdd. destruct (Hinv k o Ho) as [[-> Edep]|[(Hne & o0 & Ho0 & Edep)|(_ & _ & _ & Edep)]].
    + rewrite Edep in Hdd. assert (d ∉ finished a) by (unfold D in Hdd; set_solver).
      exists (upd_core (add_dependent id)
        (default (make_placeholder d) ((<[id := p2]> (live a)) !! d))). split.
      * etrans; [exact (Hm' d)|]. rewrite decide_True; [done|]. split; [done|].
        by apply bool_decide_eq_false_2.
      * rewrite core_upd. simpl. set_solver.
    + rewrite Edep in Hdd. destruct (Hl k o0 d Ho0 Hdd) as (o' & Ho' & Hin).
      destruct (Hup d o' Ho') as (o2 & Ho2 & Hds). exists o2. split; [exact Ho2|]. set_solver.
    + rewrite Edep in Hdd. set_solver.
  - intros k Dk o. rewrite lookup_insert. case_decide as Ek; intros HDk Ho;
      destruct (Hinv k o Ho) as [[? ->]|[(? & o0 & Ho0 & ->)|(? & _ & _ & ->)]]; try congruence.
    + injection HDk as <-. unfold D. rewrite Ed. set_solver.
    + by eapply Hfrom.
    + set_solver.
Qed.

Lemma waits_erase h a id :
  waits_inv h a -> waits_inv h (snd (spec_erase id true a)).
Proof.
  intros [Hk Hd Hl Hfrom]. unfold spec_erase. destruct (live a !! id) as [v|] eqn:Hv; [|done]. simpl.
  assert (Hinv : forall k o, notify_map id (dependents (core v)) (delete id (live a)) !! k = Some o ->
    k <> id /\ exists o0, live a !! k = Some o0 /\ dependents (core o) = dependents (core o0) /\
      deps (core o) = (if decide (k ∈ dependents (core v)) then deps (core o0) ∖ {[id]}
                       else deps (core o0))).
  { intros k o. rewrite lookup_notify_map, lookup_delete. case_decide; [done|].
    destruct (live a !! k) as [o0|]; [|done]. simpl. intros [= <-]. split; [done|].
    exists o0. split; [done|]. case_bool_decide; case_decide; try done. by rewrite core_upd. }
  split; simpl.
  - intros k D HkD. destruct (decide (k = id)) as [->|Hne]; [right; set_solver|].
    destruct (Hk k D HkD) as [[o Ho]|?]; [left|right; set_solver].
    rewrite lookup_notify_map, lookup_delete_ne, Ho by done. eauto.
  - intros k D o d HkD Ho HdD. destruct (Hinv k o Ho) as (Hne & o0 & Ho0 & _ & ->).
    destruct (Hd k D o0 d HkD Ho0 HdD) as [?|?]; [|right; set_solver].
    destruct (decide (d = id)) as [->|]; [right; set_solver|]. left. case_decide; set_solver.
  - intros k o d Ho Hdd. destruct (Hinv k o Ho) as (Hne & o0 & Ho0 & _ & Edep).
    assert (d ∈ deps (core o0)) as Hd0 by (rewrite Edep in Hdd; case_decide; set_solver).
    destruct (Hl k o0 d Ho0 Hd0) as (o' & Ho' & Hin).
    assert (d <> id).
    { intros ->. rewrite Hv in Ho'. injection Ho' as <-. rewrite Edep, decide_True in Hdd by done.
      set_solver. }
    eexists. rewrite lookup_notify_map, lookup_delete_ne, Ho' by done. split; [done|].
    case_bool_decide; [by rewrite core_upd|done].
  - intros k D o HkD Ho. destruct (Hinv k o Ho) as (_ & o0 & Ho0 & _ & ->).
    pose proof (Hfrom k D o0 HkD Ho0). case_decide; set_solver.
Qed.

Lemma waits_placeholder h a id :
  waits_inv h a -> live a !! id = None -> id ∉ finished a ->
  waits_inv h (ALattice (<[id := make_placeholder id]> (live a)) (finished a) (dropped a)
                 (anon a) (doms a)).
Proof.
  intros [Hk Hd Hl Hfrom] Hn Hf. split; simpl.
  - intros k D HkD. destruct (Hk k D HkD) as [[o Ho]|?]; [left|by right].
    destruct (decide (k = id)) as [->|]; [congruence|]. rewrite lookup_insert_ne by done. eauto.
  - intros k D o d HkD. rewrite lookup_insert. case_decide as E; [|by eapply Hd].
    subst k. destruct (Hk id D HkD) as [[o' Ho']|?]; [congruence|done].
  - intros k o d. rewrite lookup_insert. case_decide as E.
    + intros [= <-]. rewrite core_make_placeholder. simpl. set_solver.
    + intros Ho Hdd. destruct (Hl k o d Ho Hdd) as (o' & Ho' & Hin). exists o'.
      split; [|done]. rewrite lookup_insert_ne; [done|]. congruence.
  - intros k D o HkD. rewrite lookup_insert. case_decide; [|by eapply Hfrom].
    intros [= <-]. rewrite core_make_placeholder. simpl. set_solver.
Qed.

Lemma waits_update h a id o o' :
  waits_inv h a -> live a !! id = Some o -> same_links (core o) (core o') ->
  waits_inv h (ALattice (<[id := o']> (live a)) (finished a) (dropped a) (anon a) (doms a)).
Proof.
  intros [Hk Hd Hl Hfrom] Ho (_ & Ed & Eds & _).
  assert (Hinv : forall k x, (<[id := o']> (live a)) !! k = Some x ->
    exists x0, live a !! k = Some x0 /\ deps (core x) = deps (core x0)).
  { intros k x. rewrite lookup_insert. case_decide as E; [|eauto].
    intros [= <-]. subst k. eauto. }
  split; simpl.
  - intros k D HkD. destruct (Hk k D HkD) as [[x Hx]|?]; [left|by right].
    rewrite lookup_insert. case_decide; eauto.
  - intros k D x d HkD Hx HdD. destruct (Hinv k x Hx) as (x0 & Hx0 & ->). by eapply Hd.
  - intros k x d Hx Hdd. destruct (Hinv k x Hx) as (x0 & Hx0 & E). rewrite E in Hdd.
    destruct (Hl k x0 d Hx0 Hdd) as (y & Hy & Hin). rewrite lookup_insert. case_decide as Ei; [|eauto].
    subst d. exists o'. split; [done|]. rewrite Ho in Hy. injection Hy as <-. by rewrite Eds.
  - intros k D x HkD Hx. destruct (Hinv k x Hx) as (x0 & Hx0 & ->). by eapply Hfrom.
Qed.

(** Changing an object in place, on the map. *)
Lemma update_sim l a id f o :
  sim lo hi l a -> in_window lo hi id -> live a !! id = Some o ->
  same_links (core o) (core (f o)) ->
  sim lo hi (update_found id f l)
    (ALattice (<[id := f o]> (live a)) (finished a) (dropped a) (anon a) (doms a)).
Proof.
  intros [[R Hc Hdm Han] Hp Hdr Ha Hd] Hid Ho (Ei & Ed & Eds & Eph).
  pose proof (find_rep lo hi Hwin l (live a) id R Hid) as Ef. rewrite Ho in Ef.
  assert (update_found id f l = update_found id (fun _ => f o) l) as ->.
  { unfold update_found. unfold find_locked in Ef. by rewrite Ef. }
  destruct (h_map _ _ _ _ (rep_holds _ _ _ _ R) id o Ho) as (_ & Eid & _).
  destruct (replace_found_rep lo hi Hwin l (live a) id o (f o) R Hid Ho) as [R' S];
    [congruence|]. destruct S as [S1 S2 S3 S4 S5].
  split; simpl; [|by rewrite S4|by rewrite S5|congruence|congruence].
  split; [done| |by rewrite S3|by rewrite S1].
  apply map_Forall_insert_2; [|done]. rewrite Ed, Eds. apply (Hc id o Ho).
Qed.

(** A placeholder for an IROB not announced yet. *)
Lemma placeholder_sim l a id :
  sim lo hi l a -> in_window lo hi id -> live a !! id = None -> id ∉ finished a ->
  exists l', insert_locked (make_placeholder id) false l = Ret (true, l') /\
    sim lo hi l' (ALattice (<[id := make_placeholder id]> (live a)) (finished a) (dropped a)
                   (anon a) (doms a)).
Proof.
  intros S Hid Hn Hf. pose proof (sim_ok _ _ _ _ S) as Hok.
  destruct (insert_locked_placeholder lo hi Hlo Hhi Hwin l (live a) id false Hok Hid)
    as (l1 & E1 & Hok1 & S1); [|done|].
  { rewrite (sim_past _ _ _ _ S). by apply bool_decide_eq_false_2. }
  exists l1. split; [done|]. destruct S1 as [S1 S2 S3 S4 S5]. destruct S as [_ P1 P2 P3 P4].
  split; simpl; [done|by rewrite S4|by rewrite S5|congruence|congruence].
Qed.

Lemma receiver_run_inv h l :
  receiver_run h l -> exists a, sim lo hi l a /\ waits_inv h a.
Proof.
  induction 1 as [|h l p l' _ (a & S & HI) Hop E|h l id l' _ (a & S & HI) Hid Hn E
                  |h l id f _ (a & S & HI) Hid Hf|h l id _ (a & S & HI) Hid].
  - exists spec_new. split; [by apply sim_new|apply waits_new].
  - destruct (insert_sim_inv lo hi Hlo Hhi Hwin l a p false l' S Hop E) as (a' & Es & S').
    exists a'. split; [done|]. by eapply waits_insert.
  - pose proof (sim_ok _ _ _ _ S) as Hok.
    rewrite (find_rep lo hi Hwin l (live a) id (ok_rep _ _ _ _ Hok) Hid) in Hn.
    assert (irob_id (core (make_placeholder (O := O) id)) = id) as Eid
      by (by rewrite core_make_placeholder).
    destruct (ids_contains (past_irobs l) id) eqn:Hp.
    { pose proof (insert_locked_rejects lo hi Hlo Hhi Hwin l (live a) (make_placeholder id) false
        Hok) as K. rewrite Eid in K. rewrite K in E by auto. done. }
    rewrite (sim_past _ _ _ _ S) in Hp. apply bool_decide_eq_false_1 in Hp.
    destruct (placeholder_sim l a id S Hid Hn Hp) as (l1 & E1 & S1).
    rewrite E in E1. injection E1 as <-. eexists. split; [done|]. by apply waits_placeholder.
  - pose proof (sim_ok _ _ _ _ S) as Hok.
    destruct (live a !! id) as [o|] eqn:Ho.
    + pose proof (find_rep lo hi Hwin l (live a) id (ok_rep _ _ _ _ Hok) Hid) as Ef.
      rewrite Ho in Ef. eexists. split; [by apply (update_sim l a id f o); auto|].
      by eapply waits_update; auto.
    + assert (update_found id f l = l) as ->; [|by exists a].
      pose proof (find_rep lo hi Hwin l (live a) id (ok_rep _ _ _ _ Hok) Hid) as Ef.
      rewrite Ho in Ef. unfold update_found. unfold find_locked in Ef. by rewrite Ef.
  - pose proof (erase_sim lo hi Hlo Hhi Hwin l a id true S Hid) as K.
    pose proof (waits_erase h a id HI) as HI'.
    destruct (spec_erase id true a) as [b a']. destruct K as (l' & -> & S'). by exists a'.
Qed.

(** C8: At the receiver, whatever has been inserted, announced late, filled
    and read so far, an IROB whose dependency set is empty has every dependency
    its Begin_IROB named among the IROBs the application has completely read. *)
Theorem ready_after_dependencies h l id o D d :
  receiver_run h l -> in_window lo hi id -> find_locked id l = Some o ->
  deps (core o) = ∅ -> h !! id = Some D -> d ∈ D -> past_irob_exists d l = true.
Proof.
  intros Hr Hid Hf He HD Hd. destruct (receiver_run_inv h l Hr) as (a & S & HI).
  rewrite (find_rep lo hi Hwin l (live a) id (ok_rep _ _ _ _ (sim_ok _ _ _ _ S)) Hid) in Hf.
  destruct (wi_deps _ _ HI id D o d HD Hf Hd) as [Hin|Hin]; [set_solver|].
  unfold past_irob_exists. rewrite (sim_past _ _ _ _ S). by apply bool_decide_eq_true_2.
Qed.

(** At the receiver, an IROB that still waits for a dependency is
    registered as a dependent of a live IROB or placeholder with that
    identifier, so that erasing the latter finds and notifies it. *)
Theorem waiting_is_registered h l id o d :
  receiver_run h l -> in_window lo hi id -> find_locked id l = Some o -> d ∈ deps (core o) ->
  exists o', find_locked d l = Some o' /\ id ∈ dependents (core o').
Proof.
  intros Hr Hid Hf Hd. destruct (receiver_run_inv h l Hr) as (a & S & HI).
  pose proof (ok_rep _ _ _ _ (sim_ok _ _ _ _ S)) as R.
  rewrite (find_rep lo hi Hwin l (live a) id R Hid) in Hf.
  destruct (wi_links _ _ HI id o d Hf Hd) as (o' & Ho' & Hin). exists o'. split; [|done].
  rewrite (find_rep lo hi Hwin l (live a) d R); [done|].
  apply (ok_closed _ _ _ _ (sim_ok _ _ _ _ S) id o Hf). set_solver.
Qed.
End order.

(** ** A run, evaluated: IROB 3 waits for 1, which is read *)

Import ListBits.

Definition insert_or_keep (p : IrobCore) (l : lattice IrobCore (IntSet.t (list bool)))
    : lattice IrobCore (IntSet.t (list bool)) :=
  match insert_locked p false l with Ret (_, l') => l' | _ => l end.

Definition demo_waiting : lattice IrobCore (IntSet.t (list bool)) :=
  insert_or_keep (core_new 1 [] [] 0) (insert_or_keep (core_new 3 [1] [] 0) lattice_new).
Definition demo_announced : gmap Z (gset Z) := <[1 := ∅]> (<[3 := {[1]}]> ∅).

Lemma demo_receiver_ok id ds :
  0 <= id < 10 -> Forall (fun d => 0 <= d < 10) ds ->
  op_ok 0 10 (OpInsert (core_new id ds [] 0) false).
Proof.
  intros Hid Hds. split_and!; [done|done|]. intros d. simpl. rewrite Forall_forall in Hds.
  set_unfold. intros [?|?]; [by apply Hds|done].
Qed.

Lemma demo_waiting_run : receiver_run 0 10 demo_announced demo_waiting.
Proof.
  unfold demo_announced, demo_waiting.
  assert (forall h p l, op_ok 0 10 (OpInsert p false) -> receiver_run 0 10 h l ->
    (match insert_locked p false l with Ret (true, _) => true | _ => false end) = true ->
    receiver_run 0 10 (<[irob_id p := deps p]> h) (insert_or_keep p l)) as K.
  { intros h p l Hop Hr E. unfold insert_or_keep.
    destruct (insert_locked p false l) as [[[] l']| |] eqn:Ei; try done.
    exact (rr_insert 0 10 h l p l' Hr Hop Ei). }
  apply (K _ (core_new 1 [] [] 0)); [by apply demo_receiver_ok; [|constructor]| |vm_compute; reflexivity].
  assert ({[1]} = deps (core_new 3 [1] [] 0)) as -> by (vm_compute; reflexivity).
  apply (K _ (core_new 3 [1] [] 0)); [|apply rr_new|vm_compute; reflexivity].
  apply demo_receiver_ok; [lia|by repeat constructor].
Qed.

Lemma waiting_is_registered_witness :
  exists o, find_locked 1 demo_waiting = Some o /\ 3 ∈ dependents o.
Proof.
  destruct (find_locked 3 demo_waiting) as [o3|] eqn:E3; [|vm_compute in E3; discriminate].
  apply (waiting_is_registered 0 10 ltac:(lia) ltac:(lia) ltac:(lia) demo_announced demo_waiting
    3 o3 1 demo_waiting_run ltac:(split; lia) E3).
  vm_compute in E3. injection E3 as <-. apply (bool_decide_unpack _). vm_compute. exact I.
Defined.

Lemma ready_after_dependencies_witness :
  past_irob_exists 1 (snd (erase_locked 1 true demo_waiting)) = true.
Proof.
  destruct (find_locked 3 (snd (erase_locked 1 true demo_waiting))) as [o3|] eqn:E3;
    [|vm_compute in E3; discriminate].
  apply (ready_after_dependencies 0 10 ltac:(lia) ltac:(lia) ltac:(lia) demo_announced
    (snd (erase_locked 1 true demo_waiting)) 3 o3 {[1]} 1).
  - apply rr_erase; [exact demo_waiting_run|split; lia].
  - split; lia.
  - exact E3.
  - vm_compute in E3. injection E3 as <-. vm_compute. reflexivity.
  - vm_compute. reflexivity.
  - set_solver.
Defined.
