(* ===== verification/RecvSpec.v ===== *)
(** Correctness of the receiver's [recv] (ReceiverLattice.v).

    [rl_inv] is the invariant of the receiving side: the lattice refines the
    abstract one, an IROB is released only when it is complete and its
    dependencies are past, a released IROB is queued or being read, and no
    deliverable IROB is left unreleased.  [recv] keeps it, never fails an
    assertion, passes the application the next bytes of one deliverable IROB,
    and waits only when there is none. *)

From S2P Require Import Prelude Labels Scheduling Irob IntSet Chunks Control ReceiverIrob.
From S2P Require Import ReceiverSpec Lattice LatticeRep LatticeSpec ReceiverLattice ReceiverOrder.

Implicit Types (o p : PendingReceiverIROB) (id : Z).

(** An IROB the application may be given. *)
Definition deliverable o : Prop := r_is_complete o = Ret true /\ is_ready o = true.

(** Completeness can be decided, and a complete IROB can be read and has bytes
    left; a real IROB has labels. *)
Definition obj_ok o : Prop :=
  (exists b, r_is_complete o = Ret b /\ (b = true -> reading_ok o /\ 0 < rnum_bytes o)) /\
  (placeholder (rbase o) = false -> is_Some (send_labels (rbase o))).

(** ** Objects *)

Lemma remove_bytes_frame p n p' :
  remove_bytes p n = Ret p' ->
  released p' = released p /\ exists f, rbase p' = set_chunks f (rbase p).
Proof.
  unfold remove_bytes. destruct (match ch_data _ with Some _ => _ | None => _ end) as [[first off] part].
  intros E. apply bind_ret_inv in E as (u & _ & E).
  destruct (remove_chunks _ _ _ _ _) as [[[l off'] part'] removed]. injection E as <-. simpl. eauto.
Qed.

Lemma complete_stays p p' :
  reading_ok p' -> r_is_complete p = Ret true ->
  rexpected_bytes p' = rexpected_bytes p -> expected_chunks p' = expected_chunks p ->
  recvd_bytes p' = recvd_bytes p -> recvd_chunks p' = recvd_chunks p ->
  complete (rbase p') = complete (rbase p) -> r_is_complete p' = Ret true.
Proof.
  intros Hr E E1 E2 E3 E4 E5. unfold r_is_complete in *. rewrite E1, E2, E3, E4, E5.
  destruct (assert_ (_ || (_ =? -1))); [|done..]. simpl in *.
  destruct (assert_ _); [|done..]. simpl in *.
  destruct (rexpected_bytes p =? recvd_bytes p); [|done]. simpl in *.
  destruct (expected_chunks p =? recvd_chunks p); [|done]. simpl in *.
  destruct (complete (rbase p)); [|by rewrite andb_false_r in E].
  assert (all_chunks_complete p' = true) as ->; [|done].
  apply forallb_forall. intros c Hc%list_elem_of_In. pose proof (rd_data _ Hr) as H.
  rewrite Forall_forall in H. by apply H.
Qed.

(** Everything but the links and the [released] flag is the same. *)
Record same_data o o' : Prop := {
  sd_roffset : roffset o' = roffset o;
  sd_partial : partial_chunk o' = partial_chunk o;
  sd_num : rnum_bytes o' = rnum_bytes o;
  sd_expected : rexpected_bytes o' = rexpected_bytes o;
  sd_echunks : expected_chunks o' = expected_chunks o;
  sd_recvd : recvd_bytes o' = recvd_bytes o;
  sd_rchunks : recvd_chunks o' = recvd_chunks o;
  sd_chunks : chunks (rbase o') = chunks (rbase o);
  sd_complete : complete (rbase o') = complete (rbase o);
  sd_placeholder : placeholder (rbase o') = placeholder (rbase o);
  sd_labels : send_labels (rbase o') = send_labels (rbase o)
}.

Lemma same_data_refl o : same_data o o.
Proof. by split. Qed.

Lemma same_data_trans o1 o2 o3 : same_data o1 o2 -> same_data o2 o3 -> same_data o1 o3.
Proof. intros [] []. split; congruence. Qed.

(** The same IROBs with the same data. *)
Definition same_objects (a a' : alattice PendingReceiverIROB) : Prop :=
  forall k, option_Forall2 same_data (live a !! k) (live a' !! k).

Lemma same_objects_refl a : same_objects a a.
Proof. intros k. destruct (live a !! k); constructor. apply same_data_refl. Qed.

Lemma same_objects_trans a1 a2 a3 : same_objects a1 a2 -> same_objects a2 a3 -> same_objects a1 a3.
Proof.
  intros H1 H2 k. specialize (H1 k). specialize (H2 k).
  destruct H1; inversion H2; subst; constructor. by eapply same_data_trans.
Qed.

(** All IROBs but [id] are the same, and [id] is live or past. *)
Definition same_but id (a a' : alattice PendingReceiverIROB) : Prop :=
  (forall k, k <> id -> option_Forall2 same_data (live a !! k) (live a' !! k)) /\
  (is_Some (live a' !! id) \/ id ∈ finished a').

Lemma same_data_is_complete o o' : same_data o o' -> r_is_complete o' = r_is_complete o.
Proof.
  intros [_ _ _ E1 E2 E3 E4 E5 E6 _ _]. unfold r_is_complete, all_chunks_complete.
  by rewrite E1, E2, E3, E4, E5, E6.
Qed.

Lemma same_data_unread o o' : same_data o o' -> unread o' = unread o.
Proof. intros [E1 E2 _ _ _ _ _ E5 _ _ _]. unfold unread. by rewrite E1, E2, E5. Qed.

Lemma same_data_reading o o' : same_data o o' -> reading_ok o -> reading_ok o'.
Proof.
  intros H [R1 R2 R3 R4 R5 R6]. pose proof (same_data_unread _ _ H) as Eu.
  destruct H as [E1 E2 E3 _ _ _ _ E5 _ _ _]. split; rewrite ?E1, ?E2, ?E3, ?E5, ?Eu; done.
Qed.

Lemma same_data_obj_ok o o' : same_data o o' -> obj_ok o -> obj_ok o'.
Proof.
  intros H [(b & Hb & Hc) Hl]. split.
  - exists b. rewrite (same_data_is_complete _ _ H). split; [done|]. intros Ht.
    destruct (Hc Ht) as [Hr Hpos]. split; [by eapply same_data_reading|]. by rewrite (sd_num _ _ H).
  - by rewrite (sd_placeholder _ _ H), (sd_labels _ _ H).
Qed.

(** What is left of an IROB after its first [n] bytes have been read. *)
Record rest_of (n : nat) p p' : Prop := {
  rs_complete : r_is_complete p' = Ret true;
  rs_reading : reading_ok p';
  rs_unread : unread p' = drop n (unread p);
  rs_some : 0 < rnum_bytes p';
  rs_placeholder : placeholder (rbase p') = placeholder (rbase p);
  rs_labels : send_labels (rbase p') = send_labels (rbase p)
}.

(** ** The ready set *)

Lemma queued_insert d (s : PrioritySet.t) :
  Forall (uniform no_time) s -> uniform no_time d ->
  forall id, (exists e, e ∈ PrioritySet.insert d s /\ sd_id e = id) <->
             id = sd_id d \/ exists e, e ∈ s /\ sd_id e = id.
Proof.
  intros Hs Hd id. split.
  - intros (e & He & <-). apply OrdSet.insert_elem in He as [->|He]; eauto.
  - intros [->|(e & He & <-)]; [|exists e; split; [by apply OrdSet.insert_keeps|done]].
    destruct (OrdSet.insert_present sched_lt d s) as (y & Hy & [->|E]); [eauto|].
    exists y. split; [done|]. apply (sched_equivalent_uniform no_time) in E as [_ E]; try done.
    apply OrdSet.insert_elem in Hy as [->|Hy]; [done|]. rewrite Forall_forall in Hs. by apply Hs.
Qed.

Section recv.
Context {IS : Type} `{!IdSet IS} `{!IdSetLaws IS}.
Context (lo hi : Z).
Context (Hlo : 0 <= lo) (Hhi : hi <= 2 ^ 63) (Hwin : hi - lo < 2 ^ 31).

(** What else is known of the objects: it does not depend on the links. *)
Context (Q : Z -> PendingReceiverIROB -> Prop).
Context (HQ_ok : forall id o, Q id o -> obj_ok o).
Context (HQ_same : forall id o o', Q id o -> same_data o o' -> Q id o').
Implicit Types (r : rlattice IS) (a : alattice PendingReceiverIROB) (h : gmap Z (gset Z)).

Definition queued r id : Prop :=
  partially_read_irob r = Some id \/ exists d, d ∈ ready_irobs r /\ sd_id d = id.

(** The invariant; [hand] is the IROB a running [recv] has taken from the
    queue, [X] those it has still to look at. *)
Record rl_inv (hand : option Z) (X : gset Z) h r a : Prop := {
  ri_sim : sim lo hi (rl_irobs r) a;
  ri_waits : waits_inv h a;
  ri_obj id o : live a !! id = Some o -> hand <> Some id -> Q id o;
  ri_rel id o : live a !! id = Some o -> released o = true -> deliverable o;
  ri_uniform : Forall (uniform no_time) (ready_irobs r);
  ri_queued id o : queued r id -> live a !! id = Some o -> released o = true;
  ri_window id : queued r id -> in_window lo hi id;
  ri_partial id : partially_read_irob r = Some id -> is_Some (live a !! id);
  ri_in_queue id o : live a !! id = Some o -> released o = true -> hand <> Some id -> queued r id;
  ri_no_stranded id o : live a !! id = Some o -> deliverable o -> id ∉ X -> released o = true;
  ri_stale id : queued r id -> is_Some (live a !! id) \/ id ∈ finished a
}.

Lemma rfind_inv hand X h r a id :
  rl_inv hand X h r a -> in_window lo hi id -> rfind id r = live a !! id.
Proof.
  intros H Hid. unfold rfind.
  exact (find_rep lo hi Hwin _ _ id (ok_rep _ _ _ _ (sim_ok _ _ _ _ (ri_sim _ _ _ _ _ H))) Hid).
Qed.

Lemma window_inv hand X h r a id o :
  rl_inv hand X h r a -> live a !! id = Some o -> in_window lo hi id.
Proof.
  intros H Ho. pose proof (ok_rep _ _ _ _ (sim_ok _ _ _ _ (ri_sim _ _ _ _ _ H))) as R.
  apply (h_map _ _ _ _ (rep_holds _ _ _ _ R) id o Ho).
Qed.

(** ** Taking an IROB from the queue *)

Lemma pop_ready_spec fuel block env h r a :
  rl_inv None ∅ h r a -> partially_read_irob r = None -> (length (ready_irobs r) <= fuel)%nat ->
  let '(res, r') := pop_ready fuel block env r in
  partially_read_irob r' = None /\
  match res with
  | FoundIrob id p =>
      rl_inv (Some id) ∅ h r' a /\ live a !! id = Some p /\ released p = true /\ Q id p
  | NullIrob => rl_inv None ∅ h r' a /\ ready_irobs r' = [] /\ env_no_more_data env = true
  | SentinelIrob =>
      rl_inv None ∅ h r' a /\ ready_irobs r' = [] /\
      (block = true -> env_non_blocking env || env_timeout_expired env = true)
  | WouldWait => rl_inv None ∅ h r' a /\ ready_irobs r' = [] /\ block = true
  end.
Proof.
  revert r. induction fuel as [|fuel IH]; intros r H Hp Hf.
  { simpl. destruct (ready_irobs r) eqn:Er; [|simpl in Hf; lia]. simpl.
    destruct (env_no_more_data env); [done|]. destruct block; simpl; [|done].
    destruct (env_non_blocking env); [done|]. by destruct (env_timeout_expired env). }
  simpl. destruct (ready_irobs r) as [|d rest] eqn:Er; simpl.
  { destruct (env_no_more_data env); [done|]. destruct block; simpl; [|done].
    destruct (env_non_blocking env); [done|]. by destruct (env_timeout_expired env). }
  set (r1 := set_ready rest r).
  assert (queued r (sd_id d)) as Hqd by (right; exists d; rewrite Er; set_solver).
  assert (forall id, queued r1 id -> queued r id) as Hsub.
  { intros id [?|(e & He & <-)]; [by left|]. right. exists e. rewrite Er. set_solver. }
  pose proof H as [I1 I2 I3 I4 I5 I6 I7 I8 I9 I10 I11].
  assert (rl_inv (Some (sd_id d)) ∅ h r1 a) as H1.
  { rewrite Er in I5. apply Forall_cons in I5 as [_ I5].
    split; [done|done| |done|done| | |done| |done|].
    - intros id o Ho _. by apply (I3 id o Ho).
    - intros id o Hq Ho. apply (I6 id o); [by apply Hsub|done].
    - intros id Hq. by apply I7, Hsub.
    - intros id o Ho Hrel Hne. destruct (I9 id o Ho Hrel ltac:(done)) as [?|(e & He & <-)]; [by left|].
      rewrite Er in He. apply elem_of_cons in He as [->|He]; [done|]. right. exists e. done.
    - intros id Hq. by apply I11, Hsub. }
  rewrite (rfind_inv _ _ _ _ _ _ H1) by (by apply I7).
  destruct (live a !! sd_id d) as [p|] eqn:Hl.
  - split; [done|]. split_and!; [done|done|by apply (I6 (sd_id d))|by apply (I3 (sd_id d))].
  - apply (IH r1); [|done|simpl in Hf; simpl; lia]. destruct H1. split; try done.
    intros id o Ho Hrel _. apply ri_in_queue0 with o; try done. congruence.
Qed.

(** ** Releasing dependents *)

Lemma release_inv X h r a id o labels :
  rl_inv None X h r a -> live a !! id = Some o -> deliverable o ->
  rl_inv None (X ∖ {[id]}) h (release id labels (rupdate id release_irob r))
    (ALattice (<[id := release_irob o]> (live a)) (finished a) (dropped a) (anon a) (doms a)).
Proof.
  intros H Ho Hdel. pose proof (window_inv _ _ _ _ _ _ _ H Ho) as Hid.
  pose proof H as [I1 I2 I3 I4 I5 I6 I7 I8 I9 I10 I11].
  assert (forall k, queued (release id labels (rupdate id release_irob r)) k <->
    k = id \/ queued r k) as Hq.
  { intros k. unfold queued. simpl.
    rewrite (queued_insert (sched_chunks id false labels) (ready_irobs r)) by done. simpl. tauto. }
  assert (Hdel' : deliverable (release_irob o)) by (destruct Hdel; by split).
  assert (Hobj' : Q id (release_irob o)) by (apply (HQ_same id o); [by apply I3|by split]).
  split; simpl.
  - by apply update_sim.
  - by eapply waits_update.
  - intros k x. rewrite lookup_insert. case_decide; [intros [= <-] _; by subst k|intros Hx _; by apply (I3 k)].
  - intros k x. rewrite lookup_insert. case_decide; [by intros [= <-]|apply I4].
  - by apply OrdSet.insert_Forall.
  - intros k x Hk. rewrite lookup_insert. case_decide; [by intros [= <-]|].
    apply Hq in Hk as [->|Hk]; [done|]. by apply I6.
  - intros k Hk. apply Hq in Hk as [->|Hk]; [done|by apply I7].
  - intros k Hk. rewrite lookup_insert. case_decide; [eauto|by apply I8].
  - intros k x. rewrite lookup_insert. case_decide as E.
    + intros _ _ _. apply Hq. left. done.
    + intros Hx Hrel Hne. apply Hq. right. by eapply I9.
  - intros k x. rewrite lookup_insert. case_decide as E; [by intros [= <-]|].
    intros Hx Hd Hk. eapply I10; [done|done|]. set_solver.
  - intros k Hk. rewrite lookup_insert. case_decide; [by left; eauto|].
    apply Hq in Hk as [->|Hk]; [done|]. by apply I11.
Qed.

Lemma release_each_spec ids X h r a :
  rl_inv None X h r a -> Forall (in_window lo hi) ids ->
  exists r' a', release_each ReadyIROB ids r = Ret r' /\
    rl_inv None (X ∖ list_to_set ids) h r' a' /\
    partially_read_irob r' = partially_read_irob r /\ finished a' = finished a /\
    same_objects a a'.
Proof.
  intros H Hw. revert X r a H. induction Hw as [|id ids Hid Hw IH]; intros X r a H; simpl.
  { exists r, a. rewrite difference_empty_L. split_and!; try done. apply same_objects_refl. }
  assert (forall X', X ∖ {[id]} ∖ list_to_set ids = X' -> X ∖ ({[id]} ∪ list_to_set ids) = X') as EX
    by (intros; set_solver).
  rewrite (rfind_inv _ _ _ _ _ _ H Hid). destruct (live a !! id) as [o|] eqn:Ho.
  2:{ assert (rl_inv None (X ∖ {[id]}) h r a) as H1.
      { destruct H. split; try done. intros k x Hx Hd Hk. eapply ri_no_stranded0; [done|done|].
        assert (k <> id) by congruence. set_solver. }
      destruct (IH _ _ _ H1) as (r' & a' & -> & H2 & ? & ? & ?). exists r', a'. by rewrite EX with (X' := X ∖ {[id]} ∖ list_to_set ids). }
  pose proof (HQ_ok _ _ (ri_obj _ _ _ _ _ H id o Ho ltac:(done))) as [(b & Hb & Hc) Hl].
  assert (ReadyIROB o = Ret (b && is_ready o && negb (released o))) as Er
    by (unfold ReadyIROB; by rewrite Hb).
  unfold release_if_ready. rewrite Er. cbn [mbind outcome_bind].
  destruct (b && is_ready o && negb (released o)) eqn:Hcond; cbn [mbind outcome_bind].
  - apply andb_true_iff in Hcond as [Hcond Hnr]. apply andb_true_iff in Hcond as [-> Hrd].
    unfold get_send_labels. destruct Hl as [labels ->].
    { unfold is_ready in Hrd. apply andb_true_iff in Hrd as [Hrd _]. by apply negb_true_iff in Hrd. }
    cbn [access mbind outcome_bind].
    pose proof (release_inv X h r a id o labels H Ho ltac:(by split)) as H1.
    destruct (IH _ _ _ H1) as (r' & a' & -> & H2 & Hp & Hf & Hsame). exists r', a'.
    rewrite EX with (X' := X ∖ {[id]} ∖ list_to_set ids) by done. split_and!; try done.
    eapply same_objects_trans; [|exact Hsame]. intros k. simpl. rewrite lookup_insert.
    case_decide; [subst k; rewrite Ho; constructor; by split|apply same_objects_refl].
  - assert (rl_inv None (X ∖ {[id]}) h r a) as H1.
    { pose proof H as [I1 I2 I3 I4 I5 I6 I7 I8 I9 I10 I11]. split; try done.
      intros k x Hx Hd Hk. destruct (decide (k = id)) as [->|Hne].
      - rewrite Ho in Hx. injection Hx as <-. destruct Hd as [Hd1 Hd2]. rewrite Hb in Hd1.
        injection Hd1 as ->. rewrite Hd2 in Hcond. simpl in Hcond. by apply negb_false_iff in Hcond.
      - eapply I10; [done|done|set_solver]. }
    destruct (IH _ _ _ H1) as (r' & a' & -> & H2 & Hp & Hf & Hsame). exists r', a'.
    by rewrite EX with (X' := X ∖ {[id]} ∖ list_to_set ids).
Qed.

(** ** Passing an IROB *)

(** The IROB in hand may be changed, as long as it stays deliverable. *)
Lemma update_inv h r a id o o' :
  rl_inv (Some id) ∅ h r a -> live a !! id = Some o ->
  same_links (rbase o) (rbase o') -> released o' = true -> deliverable o' ->
  rl_inv (Some id) ∅ h (rupdate id (fun _ => o') r)
    (ALattice (<[id := o']> (live a)) (finished a) (dropped a) (anon a) (doms a)).
Proof.
  intros H Ho Hs Hr Hd. pose proof (window_inv _ _ _ _ _ _ _ H Ho) as Hid.
  pose proof H as [I1 I2 I3 I4 I5 I6 I7 I8 I9 I10 I11]. split; simpl; try done.
  - by apply (update_sim lo hi Hwin _ _ id (fun _ => o') o).
  - by eapply waits_update.
  - intros k x. rewrite lookup_insert. case_decide as E; [intros _ Hn; congruence|apply I3].
  - intros k x. rewrite lookup_insert. case_decide; [by intros [= <-]|apply I4].
  - intros k x Hk. rewrite lookup_insert. case_decide; [by intros [= <-]|by apply I6].
  - intros k Hk. rewrite lookup_insert. case_decide; [eauto|by apply I8].
  - intros k x. rewrite lookup_insert. case_decide as E; [intros _ _ Hn; congruence|apply I9].
  - intros k x. rewrite lookup_insert. case_decide as E; [by intros [= <-]|apply I10].
  - intros k Hk. rewrite lookup_insert. case_decide; [by left; eauto|by apply I11].
Qed.

(** Putting it back as the partially read IROB. *)
Lemma partial_inv h r a id o :
  rl_inv (Some id) ∅ h r a -> live a !! id = Some o -> released o = true -> Q id o ->
  partially_read_irob r = None -> rl_inv None ∅ h (set_partial (Some id) r) a.
Proof.
  intros H Ho Hr Hob Hp. pose proof (window_inv _ _ _ _ _ _ _ H Ho) as Hid.
  pose proof H as [I1 I2 I3 I4 I5 I6 I7 I8 I9 I10 I11].
  assert (forall k, queued (set_partial (Some id) r) k -> k = id \/ queued r k) as Hq.
  { intros k [[= <-]|?]; [by left|right; by right]. }
  split; try done.
  - intros k x Hx _. destruct (decide (k = id)) as [->|]; [by simplify_eq|].
    apply (I3 k); [done|congruence].
  - intros k x Hk Hx. apply Hq in Hk as [->|Hk]; [by simplify_eq|by apply (I6 k)].
  - intros k Hk. apply Hq in Hk as [->|Hk]; [done|by apply I7].
  - intros k [= <-]. eauto.
  - intros k x Hx Hrel _. destruct (decide (k = id)) as [->|Hne]; [by left|].
    destruct (I9 k x Hx Hrel ltac:(congruence)) as [Hk|Hk]; [congruence|by right].
  - intros k Hk. apply Hq in Hk as [->|Hk]; [by left; eauto|by apply I11].
Qed.

(** Erasing it: its dependents are those that may have become deliverable. *)
Lemma erase_inv h r a id v :
  rl_inv (Some id) ∅ h r a -> live a !! id = Some v -> partially_read_irob r = None ->
  rl_inv None (dependents (rbase v)) h
    (set_irobs (snd (erase_locked id true (rl_irobs r))) r) (snd (spec_erase id true a)).
Proof.
  intros H Hv Hp. pose proof (window_inv _ _ _ _ _ _ _ H Hv) as Hid.
  pose proof H as [I1 I2 I3 I4 I5 I6 I7 I8 I9 I10 I11].
  pose proof (erase_sim lo hi Hlo Hhi Hwin _ a id true I1 Hid) as K.
  pose proof (waits_erase lo hi Hlo Hhi Hwin h a id I2) as I2'. unfold spec_erase in *. rewrite Hv in *.
  destruct K as (l' & -> & S'). cbn [snd] in *.
  assert (Hinv : forall k x, notify_map id (dependents (core v)) (delete id (live a)) !! k = Some x ->
    k <> id /\ exists x0, live a !! k = Some x0 /\ released x = released x0 /\
      same_data x0 x /\ (deliverable x0 -> deliverable x) /\
      (k ∉ dependents (rbase v) -> x = x0)).
  { intros k x. rewrite lookup_notify_map, lookup_delete. case_decide; [done|].
    destruct (live a !! k) as [x0|]; [|done]. simpl. intros [= <-]. split; [done|]. exists x0.
    case_bool_decide as Hin; [|by split_and!; try apply same_data_refl]. split_and!; try done.
    intros [D1 D2]. split; [by rewrite (same_data_is_complete x0)|]. unfold is_ready in *. simpl.
    apply andb_true_iff in D2 as [-> D2]. apply bool_decide_eq_true_1 in D2. simpl.
    apply bool_decide_eq_true_2. rewrite D2. set_solver. }
  split; simpl; try done.
  - intros k x Hx _. destruct (Hinv k x Hx) as (Hne & x0 & Hx0 & _ & Hob & _).
    apply (HQ_same k x0); [apply I3; [done|congruence]|done].
  - intros k x Hx Hrel. destruct (Hinv k x Hx) as (Hne & x0 & Hx0 & Er & _ & Hd & _).
    apply Hd, (I4 k); [done|congruence].
  - intros k x Hk Hx. destruct (Hinv k x Hx) as (_ & x0 & Hx0 & -> & _). by apply (I6 k).
  - intros k Hk. congruence.
  - intros k x Hx Hrel _. destruct (Hinv k x Hx) as (Hne & x0 & Hx0 & Er & _).
    apply (I9 k x0); [done|congruence|congruence].
  - intros k x Hx Hd Hk. destruct (Hinv k x Hx) as (_ & x0 & Hx0 & Er & _ & _ & Heq).
    rewrite (Heq Hk) in *. by apply (I10 k x0).
  - intros k Hk. destruct (I11 k Hk) as [[x Hx]|?]; [|right; set_solver].
    destruct (decide (k = id)) as [->|Hne]; [right; set_solver|left].
    rewrite lookup_notify_map, lookup_delete_ne, Hx by done. eauto.
Qed.

Lemma get_ready_irob_spec block env h r a :
  rl_inv None ∅ h r a ->
  exists res r', get_ready_irob block env r = Ret (res, r') /\
  partially_read_irob r' = None /\
  match res with
  | FoundIrob id p =>
      rl_inv (Some id) ∅ h r' a /\ live a !! id = Some p /\ released p = true /\ Q id p
  | NullIrob => rl_inv None ∅ h r' a /\ ready_irobs r' = [] /\ env_no_more_data env = true
  | SentinelIrob =>
      rl_inv None ∅ h r' a /\ ready_irobs r' = [] /\
      (block = true -> env_non_blocking env || env_timeout_expired env = true)
  | WouldWait => rl_inv None ∅ h r' a /\ ready_irobs r' = [] /\ block = true
  end.
Proof.
  intros H. unfold get_ready_irob. destruct (partially_read_irob r) as [id|] eqn:Hp.
  - destruct (ri_partial _ _ _ _ _ H id Hp) as [p Ho].
    pose proof (window_inv _ _ _ _ _ _ _ H Ho) as Hid.
    rewrite (rfind_inv _ _ _ _ _ _ H Hid), Ho. cbn [access mbind outcome_bind].
    pose proof H as [I1 I2 I3 I4 I5 I6 I7 I8 I9 I10 I11].
    assert (released p = true) as Hrel by (apply (I6 id); [by left|done]).
    destruct (I4 id p Ho Hrel) as [-> _]. cbn [assert_ mbind outcome_bind].
    eexists _, _. split; [done|]. split; [done|]. split_and!; [|done|done|by apply (I3 id)].
    split; try done.
    + intros k x Hx _. by apply (I3 k).
    + intros k x [?|Hk] Hx; [done|]. apply (I6 k); [by right|done].
    + intros k [?|Hk]; [done|]. apply I7. by right.
    + intros k x Hx Hr Hne. destruct (I9 k x Hx Hr ltac:(done)) as [Hk|Hk]; [congruence|by right].
    + intros k [?|Hk]; [done|]. apply I11. by right.
  - pose proof (pop_ready_spec (length (ready_irobs r)) block env h r a H Hp ltac:(done)) as K.
    destruct (pop_ready _ _ _ _) as [res r']. destruct K as [Hp' K]. eauto.
Qed.

(** With an empty queue and nothing partially read there is nothing to deliver. *)
Lemma nothing_deliverable h r a :
  rl_inv None ∅ h r a -> ready_irobs r = [] -> partially_read_irob r = None ->
  forall id o, live a !! id = Some o -> ~ deliverable o.
Proof.
  intros H Hq Hp id o Ho Hd. pose proof (ri_no_stranded _ _ _ _ _ H id o Ho Hd ltac:(set_solver)) as Hr.
  destruct (ri_in_queue _ _ _ _ _ H id o Ho Hr ltac:(done)) as [?|(d & Hin & _)]; [congruence|].
  rewrite Hq in Hin. by apply elem_of_nil in Hin.
Qed.
End recv.

Lemma rl_inv_mono {IS} `{!IdSet IS} lo hi (Q Q' : Z -> PendingReceiverIROB -> Prop) hand X h
    (r : rlattice IS) a :
  (forall k o, live a !! k = Some o -> hand <> Some k -> Q k o -> Q' k o) ->
  rl_inv lo hi Q hand X h r a -> rl_inv lo hi Q' hand X h r a.
Proof. intros HQ []. split; try done. intros k o Ho Hne. auto. Qed.

(** ** recv *)

Section passing.
Context {IS : Type} `{!IdSet IS} `{!IdSetLaws IS}.
Context (lo hi : Z).
Context (Hlo : 0 <= lo) (Hhi : hi <= 2 ^ 63) (Hwin : hi - lo < 2 ^ 31).
Context (Q Q' : Z -> PendingReceiverIROB -> Prop).
Context (HQ_ok : forall id o, Q id o -> obj_ok o).
Context (HQ_ok' : forall id o, Q' id o -> obj_ok o).
Context (HQ_same' : forall id o o', Q' id o -> same_data o o' -> Q' id o').
Implicit Types (r : rlattice IS) (a : alattice PendingReceiverIROB) (h : gmap Z (gset Z)).


Lemma pass_irob_spec h r a id p len flags acc (n := Z.to_nat (len - bytes_passed acc)) :
  rl_inv lo hi Q (Some id) ∅ h r a -> live a !! id = Some p -> released p = true -> Q id p ->
  (forall k o, k <> id -> Q k o -> Q' k o) -> (forall p', rest_of n p p' -> Q' id p') ->
  partially_read_irob r = None -> bytes_passed acc < len -> has_bits flags MSG_PEEK = false ->
  exists stop acc' r' a', pass_irob id p len flags acc r = Ret (stop, acc', r') /\
    rl_inv lo hi Q' None ∅ h r' a' /\
    finished a' = (if decide (length (unread p) <= n)%nat then {[id]} ∪ finished a else finished a) /\
    same_but id a a' /\ acc_bytes acc' = acc_bytes acc ++ take n (unread p) /\
    (bytes_passed acc = 0 -> acc_labels acc' = send_labels (rbase p)) /\
    (stop = true \/ has_bits flags MSG_WAITALL = true \/ bytes_passed acc' = len).
Proof.
  intros H0 Ho Hrel HQp Hother Hrest Hp Hlen Hpeek.
  destruct (HQ_ok _ _ HQp) as [(b & Hb & Hc) Hlab].
  assert (rl_inv lo hi Q' (Some id) ∅ h r a) as H.
  { eapply rl_inv_mono; [|exact H0]. intros k o _ Hne. apply Hother. congruence. }
  destruct (ri_rel _ _ _ _ _ _ _ _ H id p Ho Hrel) as [Hcomp Hrdy]. rewrite Hb in Hcomp.
  injection Hcomp as ->. destruct (Hc eq_refl) as [Hread Hpos].
  assert (placeholder (rbase p) = false) as Hph.
  { unfold is_ready in Hrdy. apply andb_true_iff in Hrdy as [Hr0 _]. by apply negb_true_iff in Hr0. }
  destruct (Hlab Hph) as [labels El].
  unfold pass_irob. rewrite Hrdy. cbn [assert_ mbind outcome_bind]. rewrite Hb.
  cbn [assert_ mbind outcome_bind].
  assert (exists lab, (if bytes_passed acc =? 0
     then get_send_labels (rbase p) ≫= (fun l => Ret (Some l)) else Ret (acc_labels acc)) = Ret lab /\
     (bytes_passed acc = 0 -> lab = send_labels (rbase p))) as (lab & -> & Hlab0).
  { unfold get_send_labels. rewrite El. cbn [access mbind outcome_bind].
    destruct (Z.eqb_spec (bytes_passed acc) 0); eexists; split; done. }
  cbn [mbind outcome_bind]. subst n. remember (len - bytes_passed acc) as n eqn:En.
  assert (0 < n) as Hn0 by lia.
  rewrite (read_data_spec p n) by (done || lia). cbn [mbind outcome_bind]. rewrite Hpeek.
  pose proof (rd_num _ Hread) as Hnum.
  destruct (remove_bytes_spec p (Z.of_nat (length (take (Z.to_nat n) (unread p)))) Hread)
    as (p' & Erm & Hread' & Hun & E1 & E2 & E3 & E4 & E5 & E6).
  { rewrite length_take. lia. }
  { rewrite length_take. lia. }
  rewrite Erm. cbn [mbind outcome_bind].
  destruct (remove_bytes_frame _ _ _ Erm) as [Erel [f Ef]].
  assert (r_is_complete p' = Ret true) as Hcomp' by (by apply (complete_stays p)).
  rewrite Hcomp'. cbn [mbind outcome_bind].
  assert (same_links (rbase p) (rbase p')) as Hsl by (rewrite Ef; by split_and!).
  assert (deliverable p') as Hdel'.
  { split; [done|]. unfold is_ready in *. by rewrite Ef. }
  pose proof (update_inv lo hi Hwin Q' h r a id p p' H Ho Hsl ltac:(congruence) Hdel') as H1.
  set (r1 := rupdate id _ r) in *. set (a1 := ALattice _ _ _ _ _) in *.
  assert (live a1 !! id = Some p') as Ho1 by apply lookup_insert_eq.
  rewrite length_take, Nat2Z.id in Hun.
  assert (rnum_bytes p' = Z.of_nat (length (unread p')) /\
    Z.of_nat (length (unread p')) = Z.max 0 (rnum_bytes p - n)) as [Hn' Hlen'].
  { split; [apply (rd_num _ Hread')|]. rewrite Hun, length_drop. lia. }
  destruct (numbytes p' =? 0) eqn:Hz; cbn [andb]; unfold numbytes in Hz.
  - apply Z.eqb_eq in Hz. rewrite decide_True by lia.
    pose proof (erase_inv lo hi Hlo Hhi Hwin Q' HQ_ok' HQ_same' h r1 a1 id p' H1 Ho1 Hp) as H2.
    destruct (release_each_spec lo hi Hlo Hhi Hwin Q' HQ_ok' HQ_same' (ascending (dependents (rbase p'))) _ h _ _ H2)
      as (r3 & a3 & E & H3 & _ & Hf & Hsame).
    { apply Forall_forall. intros d. rewrite elem_of_ascending. intros Hd.
      apply (ok_closed _ _ _ _ (sim_ok _ _ _ _ (ri_sim _ _ _ _ _ _ _ _ H1)) id p' Ho1). simpl. set_solver. }
    unfold release_dependents. rewrite E. cbn [mbind outcome_bind].
    eexists _, _, r3, a3. split; [done|]. split_and!.
    + replace ∅ with (dependents (rbase p') ∖ list_to_set (ascending (dependents (rbase p')))); [done|].
      apply set_eq. intros d. rewrite elem_of_difference, elem_of_list_to_set, elem_of_ascending. set_solver.
    + rewrite Hf. unfold spec_erase. rewrite Ho1. done.
    + unfold spec_erase in Hsame, Hf. rewrite Ho1 in Hsame, Hf. split; [|right; rewrite Hf; set_solver].
      intros k Hk. specialize (Hsame k). simpl in Hsame.
      rewrite lookup_notify_map, lookup_delete_ne, lookup_insert_ne in Hsame by done.
      destruct (live a !! k) as [x|]; simpl in Hsame; inversion Hsame; subst; constructor.
      eapply same_data_trans; [|done]. case_bool_decide; by split.
    + done.
    + done.
    + destruct (has_bits flags MSG_WAITALL); [by right; left|by left].
  - apply Z.eqb_neq in Hz. rewrite decide_False by lia.
    change (partially_read_irob r1) with (partially_read_irob r).
    rewrite bool_decide_eq_true_2 by done. cbn [assert_ mbind outcome_bind].
    eexists _, _, _, a1. split; [done|]. split_and!; try done.
    + apply (partial_inv lo hi Q' h r1 a1 id p'); try done; [congruence|]. apply Hrest.
      split; [done|done| |lia|by rewrite Ef|by rewrite Ef].
      rewrite Hun. f_equal. lia.
    + split; [|left; eauto]. intros k Hk. simpl. rewrite lookup_insert_ne by done. apply same_objects_refl.
    + right; right. unfold bytes_passed in *. simpl. rewrite length_app, length_take. lia.
Qed.

End passing.

Lemma rest_of_obj_ok n p p' : obj_ok p -> rest_of n p p' -> obj_ok p'.
Proof.
  intros [_ Hl] [R1 R2 R3 R4 R5 R6]. split; [|by rewrite R5, R6]. exists true. done.
Qed.

Section receiving.
Context {IS : Type} `{!IdSet IS} `{!IdSetLaws IS}.
Context (lo hi : Z).
Context (Hlo : 0 <= lo) (Hhi : hi <= 2 ^ 63) (Hwin : hi - lo < 2 ^ 31).
Context (Q : Z -> PendingReceiverIROB -> Prop).
Context (HQ_ok : forall id o, Q id o -> obj_ok o).
Context (HQ_same : forall id o o', Q id o -> same_data o o' -> Q id o').
Implicit Types (r : rlattice IS) (a : alattice PendingReceiverIROB) (h : gmap Z (gset Z)).

(** An ordinary [recv]; the last case is the only one that changes the IROBs. *)
Lemma recv_core h r a len flags env :
  rl_inv lo hi Q None ∅ h r a -> 0 < len ->
  has_bits flags MSG_PEEK = false -> has_bits flags MSG_WAITALL = false ->
  (env_no_more_data env = true -> env_shutting_down env = true) ->
  exists res r', recv len flags env r = Ret (Some (res, r')) /\
    ((rl_inv lo hi Q None ∅ h r' a /\
      match res with
      | Received acc => acc_bytes acc = [] /\ env_no_more_data env = true
      | NoData => True
      | Waiting acc => acc_bytes acc = []
      end /\ forall id o, live a !! id = Some o -> ~ deliverable o) \/
     exists id o acc, res = Received acc /\ live a !! id = Some o /\ Q id o /\ deliverable o /\
       acc_bytes acc = take (Z.to_nat len) (unread o) /\ acc_bytes acc <> [] /\
       acc_labels acc = send_labels (rbase o) /\
       (forall D d, h !! id = Some D -> d ∈ D -> d ∈ finished a) /\
       (forall Q' : Z -> PendingReceiverIROB -> Prop,
        (forall k x, Q' k x -> obj_ok x) ->
        (forall k x x', Q' k x -> same_data x x' -> Q' k x') ->
        (forall k x, k <> id -> Q k x -> Q' k x) ->
        (forall o', rest_of (Z.to_nat len) o o' -> Q' id o') ->
        exists a', rl_inv lo hi Q' None ∅ h r' a' /\
          finished a' = (if decide (length (unread o) <= Z.to_nat len)%nat
                         then {[id]} ∪ finished a else finished a) /\ same_but id a a')).
Proof.
  intros H Hlen Hpeek Hall Henv. unfold recv.
  destruct (Z.to_nat len) as [|fuel] eqn:Ef; [lia|].
  cbn [recv_loop]. change (bytes_passed (RecvAcc [] None)) with 0.
  rewrite (proj2 (Z.ltb_lt _ _) Hlen). cbn [Z.eqb orb].
  destruct (get_ready_irob_spec lo hi Hlo Hhi Hwin Q HQ_ok HQ_same true env h r a H) as (res & r1 & -> & Hp1 & Hres).
  cbn [mbind outcome_bind]. destruct res as [| |id p|].
  - destruct Hres as (H1 & Hq & Hn). rewrite (Henv Hn). eexists _, r1. split; [done|]. left.
    split_and!; try done. by apply (nothing_deliverable lo hi Hlo Hhi Hwin Q HQ_ok HQ_same h r1 a).
  - destruct Hres as (H1 & Hq & Hb). rewrite (Hb eq_refl). eexists _, r1. split; [done|].
    left. split_and!; try done. by apply (nothing_deliverable lo hi Hlo Hhi Hwin Q HQ_ok HQ_same h r1 a).
  - destruct Hres as (H1 & Ho & Hrel & HQp). destruct (HQ_ok _ _ HQp) as [(b & Hb & Hc) _].
    destruct (ri_rel _ _ _ _ _ _ _ _ H1 id p Ho Hrel) as [Hcomp Hrdy]. rewrite Hb in Hcomp.
    injection Hcomp as ->. destruct (Hc eq_refl) as [Hread Hpos].
    rewrite (proj2 (Z.eqb_neq _ _)) by (unfold numbytes; lia). cbn [negb assert_ mbind outcome_bind].
    assert (rl_inv lo hi (fun _ => obj_ok) (Some id) ∅ h r1 a) as H1'
      by (eapply rl_inv_mono; [|exact H1]; intros; by eapply HQ_ok).
    destruct (pass_irob_spec lo hi Hlo Hhi Hwin (fun _ => obj_ok) (fun _ => obj_ok) ltac:(done)
      ltac:(done) ltac:(intros i o o' ? ?; by eapply same_data_obj_ok)
      h r1 a id p len flags (RecvAcc [] None) H1' Ho Hrel (HQ_ok _ _ HQp) ltac:(done)
      ltac:(intros p'; apply rest_of_obj_ok; eauto) Hp1 Hlen Hpeek)
      as (stop & acc & r2 & a2 & Epass & _ & _ & _ & Hbytes & Hlab & Hstop).
    rewrite Epass. cbn [mbind outcome_bind]. change (bytes_passed (RecvAcc [] None)) with 0 in *.
    rewrite Z.sub_0_r in Hbytes. simpl in Hbytes.
    assert ((if stop then Ret (Some (Received acc, r2)) else recv_loop fuel len flags env acc r2) =
      Ret (Some (Received acc, r2))) as ->.
    { destruct stop; [done|]. destruct Hstop as [?|[?|Hl]]; [done|congruence|].
      destruct fuel; cbn [recv_loop]; by rewrite (proj2 (Z.ltb_ge _ _)) by lia. }
    eexists _, r2. split; [done|]. right. exists id, p, acc. rewrite <- Ef. split_and!; try done.
    + rewrite Hbytes. pose proof (rd_num _ Hread). destruct (unread p); simpl in *; [lia|].
      destruct (Z.to_nat len) eqn:?; [lia|done].
    + by apply Hlab.
    + intros D d HD Hd. destruct (wi_deps _ _ (ri_waits _ _ _ _ _ _ _ _ H1) id D p d HD Ho Hd) as [Hin|?]; [|done].
      unfold is_ready in Hrdy. apply andb_true_iff in Hrdy as [_ Hrdy].
      apply bool_decide_eq_true_1 in Hrdy. simpl in Hin. rewrite Hrdy in Hin. set_solver.
    + intros Q' HQ_ok' HQ_same' Hother Hrest.
      destruct (pass_irob_spec lo hi Hlo Hhi Hwin Q Q' HQ_ok HQ_ok' HQ_same' h r1 a id p len flags
        (RecvAcc [] None) H1 Ho Hrel HQp Hother) as (stop' & acc' & r2' & a2' & E & H2 & Hf & Hbut & _);
        [|done..|].
      { change (bytes_passed (RecvAcc [] None)) with 0. by rewrite Z.sub_0_r. }
      rewrite Epass in E. injection E as <- <- <-. exists a2'. split; [done|].
      change (bytes_passed (RecvAcc [] None)) with 0 in Hf. rewrite Z.sub_0_r in Hf. done.
  - destruct Hres as (H1 & Hq & _). eexists _, r1. split; [done|]. left.
    split_and!; try done. by apply (nothing_deliverable lo hi Hlo Hhi Hwin Q HQ_ok HQ_same h r1 a).
Qed.
End receiving.

(** C6: From a state in which every complete IROB has bytes to read (part of the invariant,
    [obj_ok]; one without data, which a peer can send, makes [recv] fail its
    assertion), an ordinary [recv] (of at least one byte, neither peeking nor insisting on
    the full length) never fails an assertion and keeps the invariant of the receiving side.  It
    returns the next bytes of one complete IROB all of whose announced
    dependencies the application has completely read, with that IROB's labels;
    it returns no bytes only at shutdown, and then, or when it blocks or
    reports that it would, no IROB is deliverable. *)
Theorem recv_spec {IS} `{!IdSet IS} `{!IdSetLaws IS} lo hi h (r : rlattice IS) a len flags env :
  0 <= lo -> hi <= 2 ^ 63 -> hi - lo < 2 ^ 31 ->
  rl_inv lo hi (fun _ => obj_ok) None ∅ h r a -> 0 < len ->
  has_bits flags MSG_PEEK = false -> has_bits flags MSG_WAITALL = false ->
  (env_no_more_data env = true -> env_shutting_down env = true) ->
  exists res r' a', recv len flags env r = Ret (Some (res, r')) /\
    rl_inv lo hi (fun _ => obj_ok) None ∅ h r' a' /\
    match res with
    | Received acc =>
        (acc_bytes acc = [] /\ env_no_more_data env = true /\
         forall id o, live a !! id = Some o -> ~ deliverable o) \/
        exists id o, live a !! id = Some o /\ deliverable o /\
          acc_bytes acc = take (Z.to_nat len) (unread o) /\ acc_bytes acc <> [] /\
          acc_labels acc = send_labels (rbase o) /\
          forall D d, h !! id = Some D -> d ∈ D -> d ∈ finished a
    | NoData => forall id o, live a !! id = Some o -> ~ deliverable o
    | Waiting acc => acc_bytes acc = [] /\ forall id o, live a !! id = Some o -> ~ deliverable o
    end.
Proof.
  intros Hlo Hhi Hwin H Hlen Hpeek Hall Henv.
  destruct (recv_core lo hi Hlo Hhi Hwin (fun _ => obj_ok) ltac:(done)
    ltac:(intros i o o' ? ?; by eapply same_data_obj_ok) h r a len flags env H Hlen Hpeek Hall Henv)
    as (res & r' & E & [(H' & Hres & Hnd)|(id & o & acc & -> & Ho & Hob & Hd & Hb & Hne & Hl & Hdep & Hrl)]).
  - exists res, r', a. split; [done|]. split; [done|]. destruct res; [left|..]; naive_solver.
  - destruct (Hrl (fun _ => obj_ok)) as (a' & H' & _);
      [done|by intros ? x x' ? ?; eapply same_data_obj_ok|done|by intros o'; apply rest_of_obj_ok|].
    exists (Received acc), r', a'. split; [done|]. split; [done|]. right. by exists id, o.
Qed.
