(* ===== verification/Chooser.v ===== *)
(** Choosing a network: network_chooser.cpp, network_chooser_impl.h/.cpp and
    redundancy_strategy.cpp, redundancy_strategy_trivial.h.

    [NetworkChooserImpl] is a class of implementations ([ChooserOps]): a round
    is [reset], a [consider] per candidate pair of interfaces, then
    [choose_networks], which may change the state ([chosen]).  [PreferredNetwork] and [LabelMatcher] are modelled here,
    the chooser built on the external instruments library in [Instruments].

    [LabelMatcher] asks [NetStats] for measured estimates, which are a
    parameter here.  Its pair members are value-initialised and are not touched
    by [reset]: they keep what an earlier round left in them.  [iface_RTT] goes
    through doubles, exactly so below 2^52 milliseconds. *)

From S2P Require Import Prelude Labels.

Abbreviation iface_pair := (net_interface * net_interface)%type.

Definition ULONG_MAX : Z := 2 ^ 64 - 1.
Definition iface_RTT (local_iface remote_iface : net_interface) : Z :=
  RTT local_iface + RTT remote_iface.

(** * The interface of a chooser *)

Class ChooserOps (C : Type) := {
  reset : C -> C;
  consider : iface_pair -> C -> C;
  choose_networks (send_label num_bytes : Z) : C -> option iface_pair;  (* None: returns false *)
  chosen (send_label num_bytes : Z) : C -> C                            (* the state it leaves *)
}.

(** The state of a round that considered [l], started from [c]. *)
Definition considered {C} `{!ChooserOps C} (l : list iface_pair) (c : C) : C :=
  foldl (fun c p => consider p c) (reset c) l.

(** * PreferredNetwork *)

Record PreferredNetwork := Preferred {
  preferred_type : Z;
  pn_match : option iface_pair                     (* has_match, local, remote *)
}.

#[export] Instance PreferredNetwork_ops : ChooserOps PreferredNetwork := {
  reset c := Preferred (preferred_type c) None;
  consider p c :=
    if negb (bool_decide (is_Some (pn_match c))) || matches_type (preferred_type c) p.1 p.2
    then Preferred (preferred_type c) (Some p) else c;
  choose_networks _ _ c := pn_match c;
  chosen _ _ c := c
}.

(** * LabelMatcher *)

(** [NetStats::get_estimate] by direction and addresses; [None]: no estimate. *)
Class NetEstimates := {
  estimate_bw_up : net_interface -> net_interface -> option Z;
  estimate_latency : net_interface -> net_interface -> option Z
}.

Record LabelMatcher := Matcher {
  max_bw : Z;                                      (* u_long *)
  min_RTT : Z;                                     (* u_long *)
  has_match : bool;
  has_wifi_match : bool;
  has_threeg_match : bool;
  max_bw_iface_pair : iface_pair;
  min_RTT_iface_pair : iface_pair;
  wifi_pair : iface_pair;
  threeg_pair : iface_pair
}.

Definition zero_iface : net_interface := NetInterface 0 0 0 0 0.
Definition zero_pair : iface_pair := (zero_iface, zero_iface).

Definition matcher_reset (c : LabelMatcher) : LabelMatcher :=
  Matcher 0 ULONG_MAX false false false (max_bw_iface_pair c) (min_RTT_iface_pair c)
    (wifi_pair c) (threeg_pair c).

(** A new matcher, as [NetworkChooser::create] leaves it. *)
Definition matcher_new : LabelMatcher :=
  matcher_reset (Matcher 0 0 false false false zero_pair zero_pair zero_pair zero_pair).

Section matcher.
Context `{!NetEstimates}.

(** The bandwidth and round-trip time [consider] ranks a pair by. *)
Definition pair_bw (p : iface_pair) : Z :=
  let bw := default (iface_bandwidth p.1 p.2) (estimate_bw_up p.1 p.2) in
  if iface_bandwidth p.1 p.2 =? 0 then 0 else bw.
Definition pair_RTT (p : iface_pair) : Z :=
  match estimate_latency p.1 p.2 with
  | None => iface_RTT p.1 p.2
  | Some r => to_size_t (r * 2)
  end.

Definition matcher_consider (p : iface_pair) (c : LabelMatcher) : LabelMatcher :=
  let bw := pair_bw p in
  let rtt := pair_RTT p in
  let better_bw := max_bw c <? bw in
  let better_RTT := rtt <? min_RTT c in
  let wifi := matches_type NET_TYPE_WIFI p.1 p.2 in
  let threeg := matches_type NET_TYPE_THREEG p.1 p.2 in
  Matcher
    (if better_bw then bw else max_bw c)
    (if better_RTT then rtt else min_RTT c)
    true
    (wifi || has_wifi_match c)
    (threeg || has_threeg_match c)
    (if better_bw then p else max_bw_iface_pair c)
    (if better_RTT then p else min_RTT_iface_pair c)
    (if wifi then p else wifi_pair c)
    (if threeg then p else threeg_pair c).

Definition matcher_choose (send_label : Z) (c : LabelMatcher) : option iface_pair :=
  if negb (has_match c) then None
  else if has_bits send_label CMM_LABEL_WIFI_ONLY then
    if negb (has_wifi_match c) then
      if fallback_allowed send_label && has_threeg_match c then Some (threeg_pair c) else None
    else Some (wifi_pair c)
  else if has_bits send_label CMM_LABEL_THREEG_ONLY then
    if negb (has_threeg_match c) then
      if fallback_allowed send_label && has_wifi_match c then Some (wifi_pair c) else None
    else Some (threeg_pair c)
  else
    let LABELMASK_FGBG := Z.lor CMM_LABEL_ONDEMAND CMM_LABEL_BACKGROUND in
    if has_bits send_label CMM_LABEL_SMALL && (min_RTT c <? ULONG_MAX)
    then Some (min_RTT_iface_pair c)
    else if has_bits send_label CMM_LABEL_LARGE then Some (max_bw_iface_pair c)
    else if has_bits send_label CMM_LABEL_ONDEMAND || negb (has_bits send_label LABELMASK_FGBG)
    then Some (min_RTT_iface_pair c)
    else if has_bits send_label CMM_LABEL_BACKGROUND || (send_label =? 0)
    then Some (max_bw_iface_pair c)
    else Some (max_bw_iface_pair c).

#[export] Instance LabelMatcher_ops : ChooserOps LabelMatcher := {
  reset := matcher_reset;
  consider := matcher_consider;
  choose_networks send_label _ := matcher_choose send_label;
  chosen _ _ c := c
}.
End matcher.

(** * Redundancy strategies and [NetworkChooser::create] *)

Definition INTNW_NEVER_REDUNDANT : Z := 0.
Definition ALWAYS_REDUNDANT : Z := 1.
Definition INTNW_REDUNDANT : Z := 2.
Definition CELLULAR_ONLY : Z := 3.
Definition WIFI_PREFERRED : Z := 4.

(** [RedundancyStrategy::create]: what [shouldTransmitRedundantly] answers. *)
Definition strategy_create (type : Z) : outcome bool :=
  if (type =? INTNW_NEVER_REDUNDANT) || (type =? CELLULAR_ONLY) || (type =? WIFI_PREFERRED)
  then Ret false
  else if type =? ALWAYS_REDUNDANT then Ret true
  else Trap AssertFailed.

(** The chooser on the instruments library, [IntNWInstrumentsNetworkChooser],
    with its own redundancy strategy: an interface, which [Instruments] implements. *)
Class InstrumentsChooser (I : Type) := {
  instruments_ops :: ChooserOps I;
  instruments_new : I;
  instruments_redundant : I -> bool
}.

Section create.
Context {I : Type} `{!InstrumentsChooser I} `{!NetEstimates}.

Inductive chooser_impl :=
| ImplPreferred (c : PreferredNetwork)
| ImplMatcher (c : LabelMatcher)
| ImplAlwaysRedundant (c : PreferredNetwork)       (* AlwaysRedundantChooser *)
| ImplInstruments (c : I).

(** The virtual calls. *)
#[export] Instance chooser_impl_ops : ChooserOps chooser_impl := {
  reset i :=
    match i with
    | ImplPreferred c => ImplPreferred (reset c)
    | ImplMatcher c => ImplMatcher (reset c)
    | ImplAlwaysRedundant c => ImplAlwaysRedundant (reset c)
    | ImplInstruments c => ImplInstruments (reset c)
    end;
  consider p i :=
    match i with
    | ImplPreferred c => ImplPreferred (consider p c)
    | ImplMatcher c => ImplMatcher (consider p c)
    | ImplAlwaysRedundant c => ImplAlwaysRedundant (consider p c)
    | ImplInstruments c => ImplInstruments (consider p c)
    end;
  choose_networks labels n i :=
    match i with
    | ImplPreferred c => choose_networks labels n c
    | ImplMatcher c => choose_networks labels n c
    | ImplAlwaysRedundant c => choose_networks labels n c
    | ImplInstruments c => choose_networks labels n c
    end;
  chosen labels n i :=
    match i with
    | ImplPreferred c => ImplPreferred (chosen labels n c)
    | ImplMatcher c => ImplMatcher (chosen labels n c)
    | ImplAlwaysRedundant c => ImplAlwaysRedundant (chosen labels n c)
    | ImplInstruments c => ImplInstruments (chosen labels n c)
    end
}.

(** [setRedundancyStrategy] and [shouldTransmitRedundantly]. *)
Definition shouldTransmitRedundantly (i : chooser_impl) : outcome bool :=
  match i with
  | ImplAlwaysRedundant _ => strategy_create ALWAYS_REDUNDANT
  | ImplInstruments c => Ret (instruments_redundant c)
  | ImplPreferred _ | ImplMatcher _ => strategy_create INTNW_NEVER_REDUNDANT
  end.

(** [NetworkChooser::create]. *)
Definition create (redundancy_strategy_type : Z) : outcome chooser_impl :=
  (if redundancy_strategy_type =? CELLULAR_ONLY
   then Ret (ImplPreferred (Preferred NET_TYPE_THREEG None))
   else if redundancy_strategy_type =? WIFI_PREFERRED
   then Ret (ImplPreferred (Preferred NET_TYPE_WIFI None))
   else if redundancy_strategy_type =? INTNW_NEVER_REDUNDANT then Ret (ImplMatcher matcher_new)
   else if redundancy_strategy_type =? INTNW_REDUNDANT then Ret (ImplInstruments instruments_new)
   else if redundancy_strategy_type =? ALWAYS_REDUNDANT
   then Ret (ImplAlwaysRedundant (Preferred NET_TYPE_WIFI None))
   else Trap AssertFailed) ≫= fun i => Ret (reset i).
End create.
Arguments chooser_impl : clear implicits.

(** * Correctness *)

Section matcher_spec.
Context `{!NetEstimates}.
Implicit Types (l : list iface_pair) (c : LabelMatcher) (p q : iface_pair).

(** What a round knows after considering [l]. *)
Record round_inv l c : Prop := {
  rv_match : has_match c = true <-> l <> [];
  rv_bw_max q : q ∈ l -> pair_bw q <= max_bw c;
  rv_bw_pair : 0 < max_bw c -> max_bw_iface_pair c ∈ l /\ pair_bw (max_bw_iface_pair c) = max_bw c;
  rv_bw_nonneg : 0 <= max_bw c;
  rv_RTT_min q : q ∈ l -> min_RTT c <= pair_RTT q;
  rv_RTT_pair : min_RTT c < ULONG_MAX ->
    min_RTT_iface_pair c ∈ l /\ pair_RTT (min_RTT_iface_pair c) = min_RTT c;
  rv_RTT_bound : min_RTT c <= ULONG_MAX;
  rv_wifi : if has_wifi_match c then wifi_pair c ∈ l /\
              matches_type NET_TYPE_WIFI (wifi_pair c).1 (wifi_pair c).2 = true
            else forall q, q ∈ l -> matches_type NET_TYPE_WIFI q.1 q.2 = false;
  rv_threeg : if has_threeg_match c then threeg_pair c ∈ l /\
                matches_type NET_TYPE_THREEG (threeg_pair c).1 (threeg_pair c).2 = true
              else forall q, q ∈ l -> matches_type NET_TYPE_THREEG q.1 q.2 = false
}.

Lemma round_inv_start c : round_inv [] (matcher_reset c).
Proof. split; simpl; try done; try lia; try set_solver. Qed.

Lemma round_inv_step l c p :
  round_inv l c -> round_inv (l ++ [p]) (matcher_consider p c).
Proof.
  intros [H1 H2 H3 H4 H5 H6 H7 H8 H9]. split; simpl.
  - split; [by destruct l|done].
  - intros q [Hq| ->%list_elem_of_singleton]%elem_of_app; [specialize (H2 q Hq)|];
      destruct (Z.ltb_spec (max_bw c) (pair_bw p)); lia.
  - destruct (Z.ltb_spec (max_bw c) (pair_bw p)); intros Hp; [set_solver|].
    destruct (H3 Hp). set_solver.
  - destruct (Z.ltb_spec (max_bw c) (pair_bw p)); lia.
  - intros q [Hq| ->%list_elem_of_singleton]%elem_of_app; [specialize (H5 q Hq)|];
      destruct (Z.ltb_spec (pair_RTT p) (min_RTT c)); lia.
  - destruct (Z.ltb_spec (pair_RTT p) (min_RTT c)); intros Hp; [set_solver|].
    destruct (H6 Hp). set_solver.
  - destruct (Z.ltb_spec (pair_RTT p) (min_RTT c)); lia.
  - destruct (matches_type NET_TYPE_WIFI p.1 p.2) eqn:E; simpl; [set_solver|].
    destruct (has_wifi_match c); [set_solver|].
    intros q [Hq| ->%list_elem_of_singleton]%elem_of_app; auto.
  - destruct (matches_type NET_TYPE_THREEG p.1 p.2) eqn:E; simpl; [set_solver|].
    destruct (has_threeg_match c); [set_solver|].
    intros q [Hq| ->%list_elem_of_singleton]%elem_of_app; auto.
Qed.

Lemma round_inv_considered l c : round_inv l (considered l c).
Proof.
  unfold considered. induction l as [|p l IH] using rev_ind; simpl; [apply round_inv_start|].
  rewrite foldl_app. by apply round_inv_step.
Qed.

(** Which candidates a label word ranks by bandwidth. *)
Definition by_bandwidth (labels : Z) : bool :=
  negb (has_bits labels CMM_LABEL_SMALL) &&
  (has_bits labels CMM_LABEL_LARGE ||
   (has_bits labels CMM_LABEL_BACKGROUND && negb (has_bits labels CMM_LABEL_ONDEMAND))).

Definition restricted (labels : Z) : bool :=
  has_bits labels CMM_LABEL_WIFI_ONLY || has_bits labels CMM_LABEL_THREEG_ONLY.

Lemma fgbg_mask labels :
  has_bits labels (Z.lor CMM_LABEL_ONDEMAND CMM_LABEL_BACKGROUND) =
  has_bits labels CMM_LABEL_ONDEMAND || has_bits labels CMM_LABEL_BACKGROUND.
Proof.
  unfold has_bits. rewrite Z.land_lor_distr_r.
  change CMM_LABEL_ONDEMAND with (2 ^ 2). change CMM_LABEL_BACKGROUND with (2 ^ 3).
  rewrite !land_pow2 by lia. by destruct (Z.testbit labels 2), (Z.testbit labels 3).
Qed.

(** Without a network restriction [LabelMatcher] picks one of the candidate
    pairs: one of highest bandwidth for a large or a background send, otherwise
    one of lowest round-trip time, provided a candidate with some bandwidth and a finite
    round-trip time exists. *)
Theorem matcher_unrestricted l c labels n :
  restricted labels = false ->
  (exists q, q ∈ l /\ 0 < pair_bw q) -> (exists q, q ∈ l /\ pair_RTT q < ULONG_MAX) ->
  exists p, choose_networks labels n (considered l c) = Some p /\ p ∈ l /\
    if by_bandwidth labels then forall q, q ∈ l -> pair_bw q <= pair_bw p
    else forall q, q ∈ l -> pair_RTT p <= pair_RTT q.
Proof.
  intros Hr (q1 & Hq1 & Hb) (q2 & Hq2 & Ht).
  destruct (round_inv_considered l c) as [H1 H2 H3 H4 H5 H6 H7 _ _]. simpl.
  set (c' := considered l c) in *. unfold restricted in Hr. apply orb_false_iff in Hr as [Hw Hg].
  unfold matcher_choose. rewrite (proj2 H1) by (by destruct l; [apply elem_of_nil in Hq1|]).
  rewrite Hw, Hg. simpl. pose proof (H2 q1 Hq1). pose proof (H5 q2 Hq2).
  destruct H3 as [B1 B2]; [lia|]. destruct H6 as [R1 R2]; [lia|].
  assert (Hbw : forall q, q ∈ l -> pair_bw q <= pair_bw (max_bw_iface_pair c'))
    by (intros q Hq; rewrite B2; auto).
  assert (HRTT : forall q, q ∈ l -> pair_RTT (min_RTT_iface_pair c') <= pair_RTT q)
    by (intros q Hq; rewrite R2; auto).
  rewrite (proj2 (Z.ltb_lt _ _)) by lia. rewrite fgbg_mask, andb_true_r. unfold by_bandwidth.
  destruct (has_bits labels CMM_LABEL_SMALL); simpl; [eauto|].
  destruct (has_bits labels CMM_LABEL_LARGE); simpl; [eauto|].
  destruct (has_bits labels CMM_LABEL_ONDEMAND); simpl; [rewrite andb_false_r; eauto|].
  destruct (has_bits labels CMM_LABEL_BACKGROUND); simpl; eauto.
Qed.

(** With exactly one network restriction [LabelMatcher] answers with a
    candidate of that type whenever there is one; with the fallback label it
    falls back to the other type, and without it to nothing. *)
Theorem matcher_restricted l c labels n (wifi := has_bits labels CMM_LABEL_WIFI_ONLY) :
  xorb wifi (has_bits labels CMM_LABEL_THREEG_ONLY) = true -> l <> [] ->
  let wanted := if wifi then NET_TYPE_WIFI else NET_TYPE_THREEG in
  let other := if wifi then NET_TYPE_THREEG else NET_TYPE_WIFI in
  match choose_networks labels n (considered l c) with
  | Some p =>
      p ∈ l /\ (matches_type wanted p.1 p.2 = true \/
        (fallback_allowed labels = true /\ matches_type other p.1 p.2 = true /\
         forall q, q ∈ l -> matches_type wanted q.1 q.2 = false))
  | None =>
      forall q, q ∈ l -> matches_type wanted q.1 q.2 = false /\
        (fallback_allowed labels = true -> matches_type other q.1 q.2 = false)
  end.
Proof.
  intros Hx Hl. destruct (round_inv_considered l c) as [H1 _ _ _ _ _ _ Hw Hg]. simpl.
  set (c' := considered l c) in *. unfold matcher_choose. rewrite (proj2 H1 Hl). simpl.
  unfold wifi in *. clear wifi. destruct (has_bits labels CMM_LABEL_WIFI_ONLY); simpl in *.
  - destruct (has_wifi_match c'); simpl; [naive_solver|].
    destruct (fallback_allowed labels); simpl; [|naive_solver].
    destruct (has_threeg_match c'); naive_solver.
  - rewrite Hx. destruct (has_threeg_match c'); simpl; [naive_solver|].
    destruct (fallback_allowed labels); simpl; [|naive_solver].
    destruct (has_wifi_match c'); naive_solver.
Qed.

(** When every candidate's bandwidth is zero, a large send is given the pair
    that an earlier round left behind: [reset] keeps [max_bw_iface_pair] and no
    candidate replaces it. *)
Theorem matcher_stale_pair l c labels n :
  restricted labels = false -> by_bandwidth labels = true -> l <> [] ->
  (forall q, q ∈ l -> pair_bw q = 0) ->
  choose_networks labels n (considered l c) = Some (max_bw_iface_pair c).
Proof.
  intros Hr Hby Hl Hz.
  assert (max_bw_iface_pair (considered l c) = max_bw_iface_pair c) as Hp.
  { clear Hl. unfold considered. assert (Hmax : max_bw (foldl (fun c p => matcher_consider p c) (matcher_reset c) l) = 0 /\
      max_bw_iface_pair (foldl (fun c p => matcher_consider p c) (matcher_reset c) l) = max_bw_iface_pair c);
      [|apply Hmax].
    induction l as [|p l IH] using rev_ind; [done|]. rewrite foldl_app. simpl.
    destruct IH as [-> ->]; [intros q Hq; apply Hz; set_solver|].
    rewrite (Hz p) by set_solver. done. }
  destruct (round_inv_considered l c) as [H1 _ _ _ _ _ _ _ _]. simpl. rewrite <- Hp.
  set (c' := considered l c) in *. unfold matcher_choose. rewrite (proj2 H1 Hl).
  unfold restricted in Hr. apply orb_false_iff in Hr as [-> ->]. simpl.
  unfold by_bandwidth in Hby. apply andb_true_iff in Hby as [Hs Hby].
  apply negb_true_iff in Hs as ->. simpl. rewrite fgbg_mask.
  destruct (has_bits labels CMM_LABEL_LARGE); [done|]. simpl in Hby.
  apply andb_true_iff in Hby as [-> Ho]. apply negb_true_iff in Ho as ->. done.
Qed.
End matcher_spec.

(** ** Witnesses *)

Definition no_estimates : NetEstimates := {|
  estimate_bw_up _ _ := None;
  estimate_latency _ _ := None
|}.

Definition no_instruments : InstrumentsChooser unit := {|
  instruments_ops := {| reset c := c; consider _ c := c; choose_networks _ _ _ := None; chosen _ _ c := c |};
  instruments_new := tt;
  instruments_redundant _ := false
|}.

Definition demo_wifi : iface_pair := (NetInterface 1 500 500 20 1, NetInterface 9 900 900 10 0).
Definition demo_3g : iface_pair := (NetInterface 2 80 40 200 2, NetInterface 9 900 900 10 0).
Definition demo_down : iface_pair := (NetInterface 2 0 0 200 2, NetInterface 9 900 900 10 0).

Lemma matcher_unrestricted_witness :
  exists p, @choose_networks _ (@LabelMatcher_ops no_estimates) CMM_LABEL_LARGE 0
    (@considered _ (@LabelMatcher_ops no_estimates) [demo_wifi; demo_3g] matcher_new) = Some p /\
    p ∈ [demo_wifi; demo_3g].
Proof.
  destruct (@matcher_unrestricted no_estimates [demo_wifi; demo_3g] matcher_new CMM_LABEL_LARGE 0)
    as (p & H1 & H2 & _).
  - reflexivity.
  - exists demo_wifi. split; [set_solver|]. reflexivity.
  - exists demo_wifi. split; [set_solver|]. reflexivity.
  - eauto.
Defined.

Lemma matcher_restricted_witness :
  exists p, @choose_networks _ (@LabelMatcher_ops no_estimates) CMM_LABEL_THREEG_ONLY 0
    (@considered _ (@LabelMatcher_ops no_estimates) [demo_wifi; demo_3g] matcher_new) = Some p /\
    p ∈ [demo_wifi; demo_3g].
Proof.
  pose proof (@matcher_restricted no_estimates [demo_wifi; demo_3g] matcher_new
    CMM_LABEL_THREEG_ONLY 0 eq_refl ltac:(done)) as H.
  exists demo_3g. split; [reflexivity|exact (proj1 H)].
Defined.

Lemma matcher_stale_pair_witness :
  exists c, @choose_networks _ (@LabelMatcher_ops no_estimates) CMM_LABEL_LARGE 0
    (@considered _ (@LabelMatcher_ops no_estimates) [demo_down] c) = Some demo_wifi /\
    demo_wifi ∉ [demo_down].
Proof.
  exists (@considered _ (@LabelMatcher_ops no_estimates) [demo_wifi; demo_3g] matcher_new).
  split.
  - rewrite (@matcher_stale_pair no_estimates [demo_down]).
    + reflexivity.
    + reflexivity.
    + reflexivity.
    + done.
    + intros q ->%list_elem_of_singleton. reflexivity.
  - intros H%list_elem_of_singleton. discriminate H.
Defined.
