(* ===== verification/Thunks.v ===== *)
(** Resume handlers: thunks.cpp.

    A handler registered for a label waits in the queue of its socket and label
    until a network for the label is available.  A [struct thunk] is reached
    from the queue and from the multiset [thunk_map], so thunks live in a heap
    and both hold handles.  The hash of queues is a [std::map] under
    [tq_key::operator<], walked to the lower bound.  A handler is a function
    pointer; what calling it does to the thunks is a parameter of the thread
    that fires them. *)

From S2P Require Import Prelude Scheduling.

Record thunk := Thunk {
  th_fn : option Z;                    (* resume_handler_t; None when cancelled *)
  th_arg : Z;
  th_send_labels : Z;
  th_sock : Z
}.

(** [thunk::operator<]. *)
Definition thunk_lt (a b : thunk) : bool :=
  (th_sock a <? th_sock b) || (th_send_labels a <? th_send_labels b) ||
  (default 0 (th_fn a) <? default 0 (th_fn b)) || (th_arg a <? th_arg b).

Record labeled_thunk_queue := TQ {
  tq_sock : Z;
  tq_send_labels : Z;
  thunk_map : list Z;                  (* std::multiset<thunk *> *)
  thunk_queue : list Z                 (* front first *)
}.

(** [tq_key::operator<]; the key of a queue is its socket and label. *)
Definition tq_lt (a b : labeled_thunk_queue) : bool :=
  (tq_sock a <? tq_sock b) || (tq_send_labels a <? tq_send_labels b).

Record thunk_state := Thunks {
  thunk_heap : gmap Z thunk;
  thunk_hash : list labeled_thunk_queue
}.

Definition thunks_empty : thunk_state := Thunks ∅ [].

Definition tq_find (sock labels : Z) (s : thunk_state) : option labeled_thunk_queue :=
  OrdSet.find tq_lt (TQ sock labels [] []) (thunk_hash s).

(** Change the queue a key finds. *)
Fixpoint tq_update (key : labeled_thunk_queue) (f : labeled_thunk_queue -> labeled_thunk_queue)
    (l : list labeled_thunk_queue) : list labeled_thunk_queue :=
  match l with
  | [] => []
  | q :: l' =>
      if tq_lt q key then q :: tq_update key f l' else if tq_lt key q then l else f q :: l'
  end.

Definition enqueue_handler (sock send_labels : Z) (fn arg : Z) (s : thunk_state) : thunk_state :=
  let key := TQ sock send_labels [] [] in
  let hash := match tq_find sock send_labels s with
              | None => OrdSet.insert tq_lt key (thunk_hash s)
              | Some _ => thunk_hash s
              end in
  let h := fresh (dom (thunk_heap s)) in
  Thunks (<[h := Thunk (Some fn) arg send_labels sock]> (thunk_heap s))
    (tq_update key (fun q => TQ (tq_sock q) (tq_send_labels q) (thunk_map q) (thunk_queue q ++ [h]))
       hash).

(** [equal_range] of a key in the multiset, in its order. *)
Definition equal_range (heap : gmap Z thunk) (key : thunk) (l : list Z) : list Z :=
  let lt_key h := match heap !! h with Some t => thunk_lt t key | None => false end in
  let key_lt h := match heap !! h with Some t => thunk_lt key t | None => false end in
  (fix take_range l := match l with
                       | [] => []
                       | h :: l' => if key_lt h then [] else h :: take_range l'
                       end)
    ((fix skip l := match l with
                    | [] => []
                    | h :: l' => if lt_key h then skip l' else l
                    end) l).

Definition cancel_thunks (q : labeled_thunk_queue) (fn arg : Z) (s : thunk_state)
    : Z * labeled_thunk_queue * gmap Z thunk :=
  let dummy := Thunk (Some fn) arg (tq_send_labels q) (tq_sock q) in
  let victims := equal_range (thunk_heap s) dummy (thunk_map q) in
  (Z.of_nat (length victims),
   TQ (tq_sock q) (tq_send_labels q) (filter (fun h => h ∉ victims) (thunk_map q)) (thunk_queue q),
   foldl (fun heap h => <[h := Thunk None 0 0 (-1)]> heap) (thunk_heap s) victims).

Definition cancel_thunk (sock send_labels : Z) (fn arg : Z) (s : thunk_state) : Z * thunk_state :=
  match tq_find sock send_labels s with
  | None => (0, s)
  | Some q =>
      let '(n, q', heap) := cancel_thunks q fn arg s in
      (n, Thunks heap (tq_update (TQ sock send_labels [] []) (fun _ => q') (thunk_hash s)))
  end.

Definition count_thunks (sock : Z) (s : thunk_state) : Z :=
  sumZ ((fun q => if tq_sock q =? sock then Z.of_nat (length (thunk_queue q)) else 0)
          <$> thunk_hash s).

(** [cancel_all_thunks]: the queues of the socket, erased one by one. *)
Definition cancel_all_thunks (sock : Z) (s : thunk_state) : thunk_state :=
  let victims := filter (fun q => tq_sock q = sock) (thunk_hash s) in
  foldl (fun s q =>
           Thunks (foldl (fun heap h => delete h heap) (thunk_heap s) (thunk_queue q))
             (OrdSet.erase_found tq_lt (TQ sock (tq_send_labels q) [] []) (thunk_hash s)))
    s victims.

(** ** The thread that fires a queue *)

(** A call a handler got. *)
Record thunk_call := Call { call_fn : Z; call_arg : Z }.

Section fire.
Context (run : thunk_call -> thunk_state -> thunk_state).

(** The second loop of [ThunkThreadFn], over the copy of the queue;
    [available] answers [net_available] after each thunk. *)
Fixpoint fire_copy (copy : list Z) (available : list bool) (s : thunk_state)
    : outcome (list thunk_call * thunk_state) :=
  match copy with
  | [] => Ret ([], s)
  | h :: copy =>
      access (thunk_heap s !! h) ≫= fun th =>
      let s' := match th_fn th with
                | Some fn => run (Call fn (th_arg th)) s
                | None => s
                end in
      let s' := Thunks (delete h (thunk_heap s')) (thunk_hash s') in
      let calls := match th_fn th with Some fn => [Call fn (th_arg th)] | None => [] end in
      if hd false available then
        fire_copy copy (tl available) s' ≫= fun '(rest, s'') => Ret (calls ++ rest, s'')
      else Ret (calls, s')
  end.

Definition ThunkThreadFn (key : labeled_thunk_queue) (available : list bool) (s : thunk_state)
    : outcome (list thunk_call * thunk_state) :=
  match tq_find (tq_sock key) (tq_send_labels key) s with
  | None => Ret ([], s)
  | Some q =>
      fire_copy (thunk_queue q) available
        (Thunks (thunk_heap s)
           (tq_update key (fun q => TQ (tq_sock q) (tq_send_labels q) (thunk_map q) [])
              (thunk_hash s)))
  end.
End fire.

(** ** What the queues do *)

Inductive thunk_op :=
| Enqueue (sock send_labels fn arg : Z)
| Cancel (sock send_labels fn arg : Z)
| CancelAll (sock : Z).

Definition thunk_step (s : thunk_state) (op : thunk_op) : thunk_state :=
  match op with
  | Enqueue sock labels fn arg => enqueue_handler sock labels fn arg s
  | Cancel sock labels fn arg => snd (cancel_thunk sock labels fn arg s)
  | CancelAll sock => cancel_all_thunks sock s
  end.

Definition thunk_run (ops : list thunk_op) : thunk_state := foldl thunk_step thunks_empty ops.

(** Nothing ever enters the multiset a cancellation searches. *)
Definition unindexed (s : thunk_state) : Prop :=
  Forall (fun q => thunk_map q = []) (thunk_hash s).

Lemma tq_update_Forall (P : labeled_thunk_queue -> Prop) key f l :
  (forall q, P q -> P (f q)) -> Forall P l -> Forall P (tq_update key f l).
Proof.
  intros Hf. induction 1 as [|q l Hq Hl IH]; simpl; [constructor|].
  destruct (tq_lt q key); [by constructor|]. destruct (tq_lt key q); constructor; auto.
Qed.

Lemma tq_find_Forall (P : labeled_thunk_queue -> Prop) key l q :
  Forall P l -> OrdSet.find tq_lt key l = Some q -> P q.
Proof.
  induction 1 as [|q' l Hq Hl IH]; simpl; [done|].
  destruct (tq_lt q' key); [done|]. destruct (tq_lt key q'); [done|]. by intros [= <-].
Qed.

Lemma erase_found_Forall (P : labeled_thunk_queue -> Prop) key l :
  Forall P l -> Forall P (OrdSet.erase_found tq_lt key l).
Proof.
  induction 1 as [|q l Hq Hl IH]; simpl; [constructor|].
  destruct (tq_lt q key); [by constructor|]. by destruct (tq_lt key q); [constructor|].
Qed.

Lemma cancel_unindexed sock labels fn arg s :
  unindexed s -> fst (cancel_thunk sock labels fn arg s) = 0 /\
    thunk_heap (snd (cancel_thunk sock labels fn arg s)) = thunk_heap s /\
    unindexed (snd (cancel_thunk sock labels fn arg s)).
Proof.
  intros H. unfold cancel_thunk. destruct (tq_find sock labels s) as [q|] eqn:E; [|done].
  pose proof (tq_find_Forall _ _ _ _ H E) as Hq. simpl in Hq.
  unfold cancel_thunks. rewrite Hq. simpl. split_and!; [done..|].
  apply tq_update_Forall; [|done]. intros. simpl. by rewrite filter_nil.
Qed.

Lemma step_unindexed s op : unindexed s -> unindexed (thunk_step s op).
Proof.
  intros H. destruct op as [sock labels fn arg|sock labels fn arg|sock]; simpl.
  - unfold enqueue_handler, unindexed. simpl. apply tq_update_Forall; [done|].
    destruct (tq_find sock labels s); [done|]. by apply OrdSet.insert_Forall.
  - by apply cancel_unindexed.
  - unfold cancel_all_thunks.
    generalize (filter (fun q => tq_sock q = sock) (thunk_hash s)). intros l. revert s H.
    induction l as [|q l IH]; intros s H; simpl; [done|]. apply IH. by apply erase_found_Forall.
Qed.

Lemma run_unindexed ops : unindexed (thunk_run ops).
Proof.
  unfold thunk_run. assert (unindexed thunks_empty) as H by constructor. revert H.
  generalize thunks_empty. induction ops as [|op ops IH]; intros s H; simpl; [done|].
  by apply IH, step_unindexed.
Qed.

(** Cancelling a resume handler never cancels anything: whatever was
    registered and cancelled before, [cancel_thunk] reports zero thunks and
    leaves every registered thunk as it was, because registering never enters
    the thunk in the multiset that cancelling searches. *)
Theorem cancel_finds_nothing ops sock labels fn arg :
  fst (cancel_thunk sock labels fn arg (thunk_run ops)) = 0 /\
  thunk_heap (snd (cancel_thunk sock labels fn arg (thunk_run ops))) = thunk_heap (thunk_run ops).
Proof. destruct (cancel_unindexed sock labels fn arg _ (run_unindexed ops)) as (? & ? & _). done. Qed.

(** Handlers that leave the thunks of the copied queue alone. *)
Definition well_behaved (run : thunk_call -> thunk_state -> thunk_state) : Prop :=
  forall c s h t, thunk_heap s !! h = Some t -> thunk_heap (run c s) !! h = Some t.

(** How many thunks are taken: one more than the answers that begin with yes. *)
Fixpoint taken (n : nat) (available : list bool) : nat :=
  match n with
  | O => O
  | S n => if hd false available then S (taken n (tl available)) else 1
  end.

(** The call a handle stands for. *)
Definition call_of (s : thunk_state) (h : Z) : list thunk_call :=
  match thunk_heap s !! h with
  | Some t => match th_fn t with Some fn => [Call fn (th_arg t)] | None => [] end
  | None => []
  end.

(** Firing a queue calls its handlers in the order they were registered and
    stops after the first one that leaves the network unavailable; the
    handlers after it were already taken off the queue, and are lost. *)
Theorem thunks_fire_in_order run copy available s :
  well_behaved run -> NoDup copy -> Forall (fun h => is_Some (thunk_heap s !! h)) copy ->
  exists s', fire_copy run copy available s =
    Ret (mjoin (call_of s <$> take (taken (length copy) available) copy), s').
Proof.
  intros Hrun. revert available s. induction copy as [|h copy IH]; intros available s Hn Hl.
  { exists s. done. }
  apply NoDup_cons in Hn as [Hh Hn]. apply Forall_cons in Hl as [[t Ht] Hl].
  cbn [fire_copy length taken]. rewrite Ht. cbn [access mbind outcome_bind].
  set (s1 := Thunks _ _).
  assert (forall k, k ∈ copy -> thunk_heap s1 !! k = thunk_heap s !! k) as Hsame.
  { intros k Hk. unfold s1. simpl. rewrite lookup_delete_ne by (intros ->; done).
    destruct (th_fn t) as [fn|]; [|done]. rewrite Forall_forall in Hl.
    destruct (Hl k Hk) as [t' E]. rewrite E. by apply Hrun. }
  assert (call_of s h = match th_fn t with Some fn => [Call fn (th_arg t)] | None => [] end) as Hc
    by (unfold call_of; by rewrite Ht).
  destruct (hd false available); cbn [take fmap list_fmap mjoin list_join]; rewrite Hc.
  - destruct (IH (tl available) s1 Hn) as [s' ->].
    { rewrite Forall_forall in Hl |- *. intros k Hk. rewrite Hsame by done. by apply Hl. }
    exists s'. cbn [mbind outcome_bind]. do 3 f_equal. unfold call_of.
    set (m := take _ copy). assert (forall k, k ∈ m -> k ∈ copy) as Hm.
    { intros k Hk. rewrite <- (take_drop (taken (length copy) (tl available)) copy).
      apply elem_of_app. by left. }
    clearbody m. induction m as [|k m IHm]; [done|]. cbn [fmap list_fmap mjoin list_join].
    rewrite (Hsame k) by (apply Hm; set_solver). f_equal. apply IHm. set_solver.
  - exists s1. by rewrite app_nil_r.
Qed.

Definition demo_thunks : thunk_state :=
  thunk_run [Enqueue 5 4 100 1; Enqueue 5 4 101 2; Enqueue 5 4 102 3].

Definition demo_copy : list Z := default [] (thunk_queue <$> tq_find 5 4 demo_thunks).

Lemma thunks_fire_in_order_witness :
  exists s', fire_copy (fun _ s => s) demo_copy [true; false] demo_thunks =
    Ret ([Call 100 1; Call 101 2], s').
Proof.
  destruct (thunks_fire_in_order (fun _ s => s) demo_copy [true; false] demo_thunks)
    as [s' Hs'].
  - intros c s h t Ht. exact Ht.
  - apply (bool_decide_unpack _). vm_compute. exact I.
  - repeat constructor; vm_compute; eauto.
  - exists s'. rewrite Hs'. vm_compute. reflexivity.
Defined.

(** The order of the queues' keys is not antisymmetric: two keys whose
    sockets and labels order them differently each precede the other. *)
Theorem tq_lt_conflict a b :
  tq_sock a < tq_sock b -> tq_send_labels b < tq_send_labels a ->
  tq_lt a b = true /\ tq_lt b a = true.
Proof.
  intros H1 H2. unfold tq_lt. rewrite (proj2 (Z.ltb_lt _ _) H1), (proj2 (Z.ltb_lt _ _) H2).
  by rewrite orb_true_r.
Qed.

Lemma tq_lt_conflict_witness : tq_lt (TQ 1 8 [] []) (TQ 2 4 [] []) = true.
Proof. apply (tq_lt_conflict (TQ 1 8 [] []) (TQ 2 4 [] [])); simpl; lia. Defined.
