(* ===== verification/Timeops.v ===== *)
(** Arithmetic on [struct timeval] and [struct timespec] (timeops.h/timeops.cpp).

    The operations are the macros of the header, field by field; [usecs] reads
    a time value as a number of microseconds, and on [normal] values the
    operations are those of the numbers.  Seconds are mathematical integers:
    signed overflow of a [time_t] would be undefined.  [convert_to_useconds]
    multiplies into a 64-bit [suseconds_t] and tests for the overflow. *)

From S2P Require Import Prelude.
From Stdlib Require Import Lia.

Definition MAX_SUBSECS : Z := 1000000.
Definition MAX_SUBSECS_nsec : Z := 1000000000.

Definition timer_zero : timeval := Timeval 0 0.

(** [timercmp(a, b, cmp)]. *)
Definition timercmp (cmp : Z -> Z -> bool) (a b : timeval) : bool :=
  if tv_sec a =? tv_sec b then cmp (tv_usec a) (tv_usec b) else cmp (tv_sec a) (tv_sec b).

Definition timerisset (a : timeval) : bool := negb (tv_sec a =? 0) || negb (tv_usec a =? 0).

Definition timeradd (a b : timeval) : timeval :=
  let sec := tv_sec a + tv_sec b in
  let usec := tv_usec a + tv_usec b in
  if MAX_SUBSECS <=? usec then Timeval (sec + 1) (usec - MAX_SUBSECS) else Timeval sec usec.

Definition timersub (a b : timeval) : timeval :=
  let sec := tv_sec a - tv_sec b in
  let usec := tv_usec a - tv_usec b in
  if usec <? 0 then Timeval (sec - 1) (usec + MAX_SUBSECS) else Timeval sec usec.

(** [TIMEDIFF(tvb, tve, tvr)]: the assertion, then [tvr]. *)
Definition TIMEDIFF (tvb tve : timeval) : outcome timeval :=
  assert_ ((tv_sec tvb <? tv_sec tve) ||
           ((tv_sec tve =? tv_sec tvb) && (tv_usec tvb <=? tv_usec tve))) ≫= fun _ =>
  if tv_usec tve <? tv_usec tvb
  then Ret (Timeval (tv_sec tve - tv_sec tvb - 1) (MAX_SUBSECS + tv_usec tve - tv_usec tvb))
  else Ret (Timeval (tv_sec tve - tv_sec tvb) (tv_usec tve - tv_usec tvb)).

(** [struct timespec]. *)
Record timespec := Timespec { ts_sec : Z; ts_nsec : Z }.

(** [TIME(struct timespec&)], given what gettimeofday answers. *)
Definition TIME_spec (now : timeval) : timespec := Timespec (tv_sec now) (tv_usec now * 1000).

Definition abs_time (now : timeval) (rel_time : timespec) : timespec :=
  let n := TIME_spec now in
  let sec := ts_sec n + ts_sec rel_time in
  let nsec := ts_nsec n + ts_nsec rel_time in
  if MAX_SUBSECS_nsec <=? nsec then Timespec (sec + 1) (nsec - MAX_SUBSECS_nsec)
  else Timespec sec nsec.

Definition convert_to_useconds (tv : timeval) : Z :=
  let useconds := to_long (tv_sec tv * 1000000) in
  if useconds <? tv_sec tv then 0 else to_long (useconds + tv_usec tv).

Definition convert_to_timeval (useconds : Z) : timeval :=
  let sec := useconds / 1000000 in
  Timeval sec (useconds - sec * 1000000).

(** * What they compute *)
Definition usecs (a : timeval) : Z := tv_sec a * 1000000 + tv_usec a.
Definition normal (a : timeval) : Prop := 0 <= tv_usec a < 1000000.

Section lemmas.
Implicit Types a b : timeval.

Lemma usecs_inj a b : normal a -> normal b -> usecs a = usecs b -> a = b.
Proof.
  destruct a as [s u], b as [s' u']. unfold normal, usecs. simpl. intros.
  assert (s = s') by lia. subst. f_equal. lia.
Qed.

Lemma timer_lt_cmp a b : timer_lt a b = timercmp Z.ltb a b.
Proof. reflexivity. Qed.

Lemma timercmp_lt a b : normal a -> normal b -> timercmp Z.ltb a b = (usecs a <? usecs b).
Proof.
  unfold normal, timercmp, usecs. intros.
  destruct (Z.eqb_spec (tv_sec a) (tv_sec b));
    [destruct (Z.ltb_spec (tv_usec a) (tv_usec b))|destruct (Z.ltb_spec (tv_sec a) (tv_sec b))];
    symmetry; rewrite ?Z.ltb_lt, ?Z.ltb_ge; lia.
Qed.
Lemma timercmp_swap f g a b :
  (forall x y, f x y = g y x) -> timercmp f a b = timercmp g b a.
Proof. intros H. unfold timercmp. rewrite (Z.eqb_sym (tv_sec b)). by rewrite !H. Qed.
Lemma timercmp_gt a b : normal a -> normal b -> timercmp Z.gtb a b = (usecs b <? usecs a).
Proof. intros. rewrite <- timercmp_lt by done. apply timercmp_swap. intros. apply Z.gtb_ltb. Qed.
Lemma timercmp_le a b : normal a -> normal b -> timercmp Z.leb a b = (usecs a <=? usecs b).
Proof.
  unfold normal, timercmp, usecs. intros.
  destruct (Z.eqb_spec (tv_sec a) (tv_sec b));
    [destruct (Z.leb_spec (tv_usec a) (tv_usec b))|destruct (Z.leb_spec (tv_sec a) (tv_sec b))];
    symmetry; rewrite ?Z.leb_le, ?Z.leb_gt; lia.
Qed.

Lemma usecs_add a b : usecs (timeradd a b) = usecs a + usecs b.
Proof. unfold timeradd, usecs, MAX_SUBSECS. case_match; simpl; lia. Qed.
Lemma normal_add a b : normal a -> normal b -> normal (timeradd a b).
Proof. unfold timeradd, normal, MAX_SUBSECS. intros. case_match; simpl; lia. Qed.
Lemma usecs_sub a b : usecs (timersub a b) = usecs a - usecs b.
Proof. unfold timersub, usecs, MAX_SUBSECS. case_match; simpl; lia. Qed.
Lemma normal_sub a b : normal a -> normal b -> normal (timersub a b).
Proof. unfold timersub, normal, MAX_SUBSECS. intros. case_match; simpl; lia. Qed.

Lemma normal_zero : normal timer_zero.
Proof. unfold normal. simpl. lia. Qed.

(** TIMEDIFF is subtraction, and its assertion is that time does not run back. *)
Lemma TIMEDIFF_sub a b : normal a -> normal b ->
  TIMEDIFF a b = if usecs a <=? usecs b then Ret (timersub b a) else Trap AssertFailed.
Proof.
  intros Ha Hb. unfold TIMEDIFF, timersub, MAX_SUBSECS.
  replace ((tv_sec a <? tv_sec b) || _) with (usecs a <=? usecs b).
  - destruct (usecs a <=? usecs b) eqn:E; [|done]. simpl.
    destruct (Z.ltb_spec (tv_usec b) (tv_usec a)), (Z.ltb_spec (tv_usec b - tv_usec a) 0);
      try lia; f_equal; f_equal; lia.
  - unfold usecs, normal in *.
    destruct (Z.leb_spec (tv_sec a * 1000000 + tv_usec a) (tv_sec b * 1000000 + tv_usec b));
      destruct (Z.ltb_spec (tv_sec a) (tv_sec b)), (Z.eqb_spec (tv_sec b) (tv_sec a)),
        (Z.leb_spec (tv_usec a) (tv_usec b)); simpl; try done; lia.
Qed.

Lemma usecs_convert u : usecs (convert_to_timeval u) = u.
Proof. unfold convert_to_timeval, usecs. simpl. lia. Qed.
Lemma normal_convert u : normal (convert_to_timeval u).
Proof. unfold convert_to_timeval, normal, tv_usec. pose proof (Z.div_mod u 1000000). pose proof (Z.mod_pos_bound u 1000000). lia. Qed.

Lemma convert_to_useconds_exact a :
  normal a -> 0 <= usecs a < 2 ^ 63 -> convert_to_useconds a = usecs a.
Proof.
  unfold normal, usecs, convert_to_useconds. intros.
  rewrite (to_long_small (tv_sec a * 1000000)) by lia.
  destruct (Z.ltb_spec (tv_sec a * 1000000) (tv_sec a)); [lia|].
  apply to_long_small. lia.
Qed.

Lemma convert_roundtrip u : 0 <= u < 2 ^ 63 -> convert_to_useconds (convert_to_timeval u) = u.
Proof.
  intros. rewrite convert_to_useconds_exact; [apply usecs_convert|apply normal_convert|].
  by rewrite usecs_convert.
Qed.
End lemmas.

#[export] Hint Resolve normal_add normal_sub normal_zero normal_convert : cmm.
Create Rewrite HintDb usecs.
#[export] Hint Rewrite usecs_add usecs_sub usecs_convert : usecs.
