(* ===== verification/Threads.v ===== *)
(** Starting a thread: CMMThread::start, ThreadFn and ThreadCleanup of
    cmm_thread.cpp, as the interleavings of the thread that calls start and the one it
    starts; join, detach and join_all on the set of joinable threads.

    A step is what one of the two does up to the next call on a mutex or condition
    variable.  pthread_cond_wait releases the mutex and waits in one step; whoever is
    woken, by a signal or for no reason, has to get the mutex again.  Run and Finish are a step
    each; Run ends by returning or by an exception that ThreadFn catches. *)

From S2P Require Import Prelude.

Inductive who := Starter | Started.
Inductive starter_pc :=
| S_lock | S_jlock | S_create | S_insert | S_test | S_waiting | S_woken | S_announce | S_unlock
| S_returned (ok : bool).
Inductive thread_pc :=
| T_none | T_lock | T_running | T_test | T_waiting | T_woken | T_unlock | T_run
| T_clean_lock | T_clean | T_finish | T_erase_lock | T_erase | T_done.

#[export] Instance who_eq_dec : EqDecision who.
Proof. solve_decision. Defined.
#[export] Instance starter_pc_eq_dec : EqDecision starter_pc.
Proof. solve_decision. Defined.
#[export] Instance thread_pc_eq_dec : EqDecision thread_pc.
Proof. solve_decision. Defined.

Record cthread := CThread {
  starter_at : starter_pc;
  thread_at : thread_pc;
  running : bool;
  exiting : bool;
  start_has_returned : bool;
  starter_mutex : option who;
  joinable_lock : option who;
  joinable : bool;              (* the thread is in joinable_threads *)
  detached : bool
}.
#[export] Instance cthread_eq_dec : EqDecision cthread.
Proof. solve_decision. Defined.

(** The constructor, and a caller of start. *)
Definition cthread_new : cthread := CThread S_lock T_none false false false None None false false.

Definition starter_to pc (c : cthread) : cthread :=
  CThread pc (thread_at c) (running c) (exiting c) (start_has_returned c) (starter_mutex c) (joinable_lock c) (joinable c) (detached c).
Definition thread_to pc (c : cthread) : cthread :=
  CThread (starter_at c) pc (running c) (exiting c) (start_has_returned c) (starter_mutex c) (joinable_lock c) (joinable c) (detached c).
Definition set_flags r e (c : cthread) : cthread :=
  CThread (starter_at c) (thread_at c) r e (start_has_returned c) (starter_mutex c) (joinable_lock c) (joinable c) (detached c).
Definition set_returned b (c : cthread) : cthread :=
  CThread (starter_at c) (thread_at c) (running c) (exiting c) b (starter_mutex c) (joinable_lock c) (joinable c) (detached c).
Definition set_mutex o (c : cthread) : cthread :=
  CThread (starter_at c) (thread_at c) (running c) (exiting c) (start_has_returned c) o (joinable_lock c) (joinable c) (detached c).
Definition set_jlock o (c : cthread) : cthread :=
  CThread (starter_at c) (thread_at c) (running c) (exiting c) (start_has_returned c) (starter_mutex c) o (joinable c) (detached c).
Definition set_joinable b (c : cthread) : cthread :=
  CThread (starter_at c) (thread_at c) (running c) (exiting c) (start_has_returned c) (starter_mutex c) (joinable_lock c) b (detached c).
Definition set_detached (c : cthread) : cthread :=
  CThread (starter_at c) (thread_at c) (running c) (exiting c) (start_has_returned c) (starter_mutex c) (joinable_lock c) (joinable c) true.

Definition lock_starter (w : who) (then_ : cthread -> cthread) (c : cthread) : list cthread :=
  match starter_mutex c with None => [then_ (set_mutex (Some w) c)] | Some _ => [] end.
Definition lock_joinable (w : who) (then_ : cthread -> cthread) (c : cthread) : list cthread :=
  match joinable_lock c with None => [then_ (set_jlock (Some w) c)] | Some _ => [] end.
(** pthread_cond_signal. *)
Definition signal_starter (c : cthread) : cthread :=
  if bool_decide (starter_at c = S_waiting) then starter_to S_woken c else c.
Definition signal_thread (c : cthread) : cthread :=
  if bool_decide (thread_at c = T_waiting) then thread_to T_woken c else c.

(** CMMThread::start. *)
Definition start (c : cthread) : list cthread :=
  match starter_at c with
  | S_lock => lock_starter Starter (fun c => starter_to S_jlock (set_returned false c)) c
  | S_jlock => lock_joinable Starter (starter_to S_create) c
  | S_create =>
      [starter_to S_insert (thread_to T_lock c);
       starter_to (S_returned false) (set_mutex None (set_jlock None c))]
  | S_insert => [starter_to S_test (set_jlock None (set_joinable true c))]
  | S_test =>
      if negb (running c) && negb (exiting c) then [starter_to S_waiting (set_mutex None c)]
      else [starter_to S_announce c]
  | S_waiting => []
  | S_woken => lock_starter Starter (starter_to S_test) c
  | S_announce => [signal_thread (starter_to S_unlock (set_returned true c))]
  | S_unlock => [starter_to (S_returned true) (set_mutex None c)]
  | S_returned _ => []
  end.

(** ThreadFn, with a Run that may call detach, and ThreadCleanup. *)
Definition ThreadFn (c : cthread) : list cthread :=
  match thread_at c with
  | T_none | T_waiting | T_done => []
  | T_lock => lock_starter Started (thread_to T_running) c
  | T_running => [signal_starter (thread_to T_test (set_flags true (exiting c) c))]
  | T_test =>
      if start_has_returned c then [thread_to T_unlock c]
      else [thread_to T_waiting (set_mutex None c)]
  | T_woken => lock_starter Started (thread_to T_test) c
  | T_unlock => [thread_to T_run (set_mutex None c)]
  | T_run =>
      thread_to T_clean_lock c ::
      lock_joinable Started (fun c => thread_to T_clean_lock (set_jlock None (set_detached (set_joinable false c)))) c
  | T_clean_lock => lock_starter Started (thread_to T_clean) c
  | T_clean => [signal_starter (thread_to T_finish (set_mutex None (set_flags false true c)))]
  | T_finish => [thread_to T_erase_lock c]
  | T_erase_lock => lock_joinable Started (thread_to T_erase) c
  | T_erase => [thread_to T_done (set_jlock None (set_joinable false c))]
  end.

(** Waking up for no reason. *)
Definition spurious (c : cthread) : list cthread :=
  (if bool_decide (starter_at c = S_waiting) then [starter_to S_woken c] else []) ++
  (if bool_decide (thread_at c = T_waiting) then [thread_to T_woken c] else []).

Definition next (c : cthread) : list cthread := start c ++ ThreadFn c.
Inductive thread_step : cthread -> cthread -> Prop :=
| thread_next c c' : c' ∈ next c -> thread_step c c'.
Inductive any_step : cthread -> cthread -> Prop :=
| any_next c c' : c' ∈ next c -> any_step c c'
| any_spurious c c' : c' ∈ spurious c -> any_step c c'.

(** ** The set of joinable threads: what the calls do that hold joinable_lock.
    [None] is a pthread_join that waits. *)
Section joinable.
Context (ended : Z -> bool).
(** The threads join_all takes at once. *)
Definition join_each (tids : list Z) : option (list Z) :=
  if forallb ended tids then Some tids else None.
(** join: what it joins, and the set. *)
Definition join (tid : Z) (is_running : bool) (threads : gset Z) : option (list Z * gset Z) :=
  l ← (if is_running then join_each [tid] else Some []);
  Some (l, threads ∖ {[tid]}).
Definition detach (tid : Z) (threads : gset Z) : gset Z := threads ∖ {[tid]}.
(** join_all; [arrivals]: what other threads add to the set during each of its rounds. *)
Fixpoint join_all (threads : gset Z) (arrivals : list (gset Z)) : option (list Z) :=
  if bool_decide (threads = ∅) then Some []
  else
    l ← join_each (ascending threads);
    match arrivals with
    | [] => Some l
    | new :: arrivals => r ← join_all new arrivals; Some (l ++ r)
    end.
End joinable.

(** ** Every interleaving *)
(** The states reached, by [fuel] rounds. *)
Fixpoint explore (fuel : nat) (seen todo : list cthread) : list cthread :=
  match fuel with
  | O => seen
  | S fuel =>
      let new := filter (fun c => c ∉ seen) (remove_dups (todo ≫= fun c => next c ++ spurious c)) in
      match new with [] => seen | _ => explore fuel (seen ++ new) new end
  end.
Definition all_states : list cthread := explore 60 [cthread_new] [cthread_new].

(** How many steps without a wake-up for no reason are left; [None]: more than [fuel]. *)
Fixpoint steps_left (fuel : nat) (c : cthread) : bool :=
  match fuel with
  | O => bool_decide (next c = [])
  | S fuel => forallb (steps_left fuel) (next c)
  end.

(** The thread is past the handshake. *)
Definition past_handshake (pc : thread_pc) : bool :=
  match pc with
  | T_run | T_clean_lock | T_clean | T_finish | T_erase_lock | T_erase | T_done => true
  | _ => false
  end.
Definition ran_up (pc : thread_pc) : bool :=
  match pc with T_none | T_lock | T_running => false | _ => true end.
(** Nothing is left to do, and nothing is held. *)
Definition over (c : cthread) : Prop :=
  ((starter_at c = S_returned true /\ thread_at c = T_done) \/ (starter_at c = S_returned false /\ thread_at c = T_none)) /\
  starter_mutex c = None /\ joinable_lock c = None /\ joinable c = false.
#[export] Instance over_dec c : Decision (over c).
Proof. unfold over. apply _. Defined.

Definition state_ok (c : cthread) : bool :=
  implb (past_handshake (thread_at c)) (bool_decide (starter_at c = S_returned true) && start_has_returned c) &&
  implb (bool_decide (starter_at c = S_returned true)) (ran_up (thread_at c)) &&
  implb (bool_decide (thread_at c = T_run)) (joinable c && bool_decide (starter_mutex c = None)) &&
  steps_left 21 c &&
  implb (bool_decide (next c = [])) (bool_decide (over c)).

Lemma all_states_closed :
  forallb (fun c => forallb (fun c' => bool_decide (c' ∈ all_states)) (next c ++ spurious c)) all_states = true.
Proof. by vm_compute. Qed.
Lemma all_states_ok : forallb state_ok all_states = true.
Proof. by vm_compute. Qed.

Lemma reached_in c : rtc any_step cthread_new c -> c ∈ all_states.
Proof.
  intros H. assert (cthread_new ∈ all_states) as H0 by (apply (bool_decide_eq_true_1 _); by vm_compute).
  induction H as [c|c c' c'' Hs _ IH]; [done|]. apply IH.
  pose proof all_states_closed as Hc. rewrite forallb_forall in Hc.
  specialize (Hc c (proj1 (list_elem_of_In _ _) H0)). rewrite forallb_forall in Hc.
  apply (bool_decide_eq_true_1 _), Hc, list_elem_of_In, elem_of_app. destruct Hs; auto.
Qed.
Lemma steps_left_spec fuel c n c' : steps_left fuel c = true -> nsteps thread_step n c c' -> (n <= fuel)%nat.
Proof.
  revert c n. induction fuel as [|fuel IH]; intros c n Hc Hn; destruct Hn as [|n c c1 c' Hs Hn]; try lia.
  - apply bool_decide_eq_true in Hc. destruct Hs as [c c1 Hs]. rewrite Hc in Hs. by apply elem_of_nil in Hs.
  - simpl in Hc. rewrite forallb_forall in Hc. destruct Hs as [c c1 Hs].
    apply list_elem_of_In in Hs. specialize (IH c1 n (Hc c1 Hs) Hn). lia.
Qed.

(** C24: The handshake of a new thread.  In every interleaving of a caller of start
    with the thread it starts, wake-ups for no reason included: Run begins only after start
    has let go of the thread's mutex, so that all that is left of start is its
    return, and with the thread in the set of joinable threads; start succeeds only
    once the thread has got going; no wake-up is lost: without wake-ups for no reason at most
    21 steps are left, and where none is possible both are done, no lock is held, and
    the thread is not in the set any more (or pthread_create had failed). *)
Theorem start_handshake c :
  rtc any_step cthread_new c ->
  (past_handshake (thread_at c) = true -> starter_at c = S_returned true /\ start_has_returned c = true) /\
  (starter_at c = S_returned true -> ran_up (thread_at c) = true) /\
  (thread_at c = T_run -> joinable c = true /\ starter_mutex c = None) /\
  (forall n c', nsteps thread_step n c c' -> (n <= 21)%nat) /\
  ((forall c', ~ thread_step c c') -> over c).
Proof.
  intros Hc. pose proof all_states_ok as Hok. rewrite forallb_forall in Hok.
  specialize (Hok c (proj1 (list_elem_of_In _ _) (reached_in c Hc))). unfold state_ok in Hok.
  rewrite !andb_true_iff, !implb_true_iff, !bool_decide_eq_true in Hok.
  destruct Hok as [[[[H1 H2] H3] H4] H5]. split_and!.
  - intros H. specialize (H1 H). by rewrite andb_true_iff, bool_decide_eq_true in H1.
  - done.
  - intros H. specialize (H3 H). by rewrite andb_true_iff, bool_decide_eq_true in H3.
  - intros n c'. by apply steps_left_spec.
  - intros H. apply H5. destruct (next c) as [|c' l] eqn:E; [done|]. destruct (H c').
    constructor. rewrite E. left.
Qed.

(** A run chosen by positions: of the starter waiting, a wake-up for no reason, the
    thread waiting for start to return. *)
Fixpoint follow (c : cthread) (choices : list nat) : option cthread :=
  match choices with
  | [] => Some c
  | i :: choices => c' ← (next c ++ spurious c) !! i; follow c' choices
  end.
Lemma follow_reached c choices c' : follow c choices = Some c' -> rtc any_step c c'.
Proof.
  revert c. induction choices as [|i choices IH]; intros c; simpl; [by intros [= ->]|].
  intros (c1 & Hc1 & E)%bind_Some. eapply rtc_l; [|by apply IH].
  apply list_elem_of_lookup_2, elem_of_app in Hc1 as [?|?]; [by apply any_next|by apply any_spurious].
Qed.

Lemma start_handshake_witness : exists c,
  follow cthread_new [0; 0; 0; 0; 0; 1; 0; 0; 0; 0; 0; 0; 0; 0; 0; 0; 0; 0]%nat = Some c /\ thread_at c = T_run /\
  joinable c = true /\ starter_at c = S_returned true.
Proof.
  eexists. split; [vm_compute; reflexivity|]. split; [reflexivity|].
  match goal with |- joinable ?c = true /\ _ => destruct (start_handshake c) as (H1 & _ & H3 & _) end.
  - apply (follow_reached _ [0; 0; 0; 0; 0; 1; 0; 0; 0; 0; 0; 0; 0; 0; 0; 0; 0; 0]%nat). vm_compute. reflexivity.
  - split; [exact (proj1 (H3 eq_refl))|exact (proj1 (H1 eq_refl))].
Defined.
