(* ===== verification/LockingMap.v ===== *)
(** The containers of pthread_util.h: LockWrappedQueue, LockWrappedMap, and
    LockingMap, whose accessors hold the lock of one entry.

    An operation of LockingMap is split where it gives up one lock before it asks
    for the next: [insert] and [find] leave their accessor wanting the lock of the
    entry, [acquire] is the moment it gets it.  Accessors are numbered; entries are
    shared pointers, so one that has been erased lives on for the accessors that
    have it.  The iterators without locks ("not thread-safe") are left out. *)

From S2P Require Import Prelude.

(** ** LockWrappedQueue and LockWrappedMap: one lock, held throughout *)
Section wrapped.
Context {V : Type}.
Definition push (v : V) (q : list V) : list V := q ++ [v].
(** [None]: it waits on the condition variable. *)
Definition pop (q : list V) : option (V * list V) :=
  match q with [] => None | v :: q => Some (v, q) end.

Definition wrapped_insert (key : Z) (v : V) (m : gmap Z V) : bool * gmap Z V :=
  match m !! key with Some _ => (false, m) | None => (true, <[key := v]> m) end.
Definition wrapped_find (key : Z) (m : gmap Z V) : option V := m !! key.
Definition wrapped_erase (key : Z) (m : gmap Z V) : bool * gmap Z V :=
  (bool_decide (is_Some (m !! key)), delete key m).
End wrapped.

(** ** LockingMap *)
Section locking.
Context {V : Type} (v0 : V).               (* ValueType() *)

(** struct node; who holds its lock is in the accessors. *)
Record node := Node { n_key : Z; n_val : V }.

Inductive accessor_state :=
| Wants (n : Z) (writer : bool)            (* between the map's lock and the entry's *)
| Holds (n : Z) (writer : bool).

Record lmap := LMap {
  the_map : gmap Z Z;                      (* the entry of a key *)
  nodes : gmap Z node;
  accessors : gmap Z accessor_state;       (* those that are not empty *)
  next_node : Z
}.
Definition lmap_empty : lmap := LMap ∅ ∅ ∅ 0.
Definition set_acc (a : Z) (x : accessor_state) (s : lmap) : lmap := LMap (the_map s) (nodes s) (<[a := x]> (accessors s)) (next_node s).
Definition drop_acc (a : Z) (s : lmap) : lmap := LMap (the_map s) (nodes s) (delete a (accessors s)) (next_node s).
Definition set_val (n : Z) (v : V) (s : lmap) : lmap :=
  LMap (the_map s) (alter (fun x => Node (n_key x) v) n (nodes s)) (accessors s) (next_node s).

(** [insert] and [find] with an empty accessor, up to the entry's lock. *)
Definition insert (a key : Z) (s : lmap) : bool * lmap :=
  match the_map s !! key with
  | Some _ => (false, s)
  | None =>
      let n := next_node s in
      (true, LMap (<[key := n]> (the_map s)) (<[n := Node key v0]> (nodes s)) (<[a := Wants n true]> (accessors s)) (n + 1))
  end.
Definition find (a key : Z) (writer : bool) (s : lmap) : bool * lmap :=
  match the_map s !! key with
  | None => (false, s)
  | Some n => (true, set_acc a (Wants n writer) s)
  end.

(** The lock of an entry: one writer, or readers. *)
Definition in_the_way (n : Z) (writer : bool) (x : accessor_state) : bool :=
  match x with Holds m w => (m =? n) && (w || writer) | Wants _ _ => false end.
Definition can_lock (writer : bool) (n : Z) (s : lmap) : bool :=
  bool_decide (map_Forall (fun _ x => in_the_way n writer x = false) (accessors s)).
(** [None]: it waits. *)
Definition acquire (a : Z) (s : lmap) : option lmap :=
  match accessors s !! a with
  | Some (Wants n writer) => if can_lock writer n s then Some (set_acc a (Holds n writer) s) else None
  | _ => None
  end.
Definition release (a : Z) (s : lmap) : lmap :=
  match accessors s !! a with Some (Holds _ _) => drop_acc a s | _ => s end.
(** [ac->second], to read, and to assign by one that may write. *)
Definition value (a : Z) (s : lmap) : option V :=
  match accessors s !! a with Some (Holds n _) => n_val <$> nodes s !! n | _ => None end.
Definition assign (a : Z) (v : V) (s : lmap) : lmap :=
  match accessors s !! a with Some (Holds n true) => set_val n v s | _ => s end.
Definition erase (key : Z) (s : lmap) : bool * lmap :=
  match the_map s !! key with
  | None => (false, s)
  | Some _ => (true, LMap (delete key (the_map s)) (nodes s) (accessors s) (next_node s))
  end.
(** erase(accessor): by the key of its entry. *)
Definition erase_accessor (a : Z) (s : lmap) : option (bool * lmap) :=
  match accessors s !! a with
  | Some (Holds n _) => x ← nodes s !! n; Some (erase (n_key x) s)
  | _ => None
  end.

(** ** Any threads, any order: a step on behalf of an accessor *)
Inductive lstep : Z -> lmap -> lmap -> Prop :=
| l_insert a key s : accessors s !! a = None -> lstep a s (snd (insert a key s))
| l_find a key writer s : accessors s !! a = None -> lstep a s (snd (find a key writer s))
| l_acquire a s s' : acquire a s = Some s' -> lstep a s s'
| l_release a s : lstep a s (release a s)
| l_assign a v s : lstep a s (assign a v s)
| l_erase a key s : lstep a s (snd (erase key s)).
Inductive lreach : lmap -> Prop :=
| lreach_empty : lreach lmap_empty
| lreach_step a s s' : lreach s -> lstep a s s' -> lreach s'.

(** Every key has an entry of its own; an accessor's entry exists; a writer is alone. *)
Record lmap_ok (s : lmap) : Prop := {
  ok_mapped : forall key n, the_map s !! key = Some n -> exists x, nodes s !! n = Some x /\ n_key x = key;
  ok_fresh : forall n x, nodes s !! n = Some x -> n < next_node s;
  ok_target : forall a x, accessors s !! a = Some x -> is_Some (nodes s !! match x with Wants n _ | Holds n _ => n end);
  ok_alone : forall a b n w, accessors s !! a = Some (Holds n true) -> accessors s !! b = Some (Holds n w) -> a = b
}.

Lemma empty_ok : lmap_ok lmap_empty.
Proof. split; simpl; intros *; by rewrite ?lookup_empty. Qed.

(** An accessor that gets to want an entry. *)
Lemma wants_ok a n w s :
  lmap_ok s -> is_Some (nodes s !! n) -> lmap_ok (set_acc a (Wants n w) s).
Proof.
  intros [Hm Hf Ht Ha] Hn. split; simpl; try done.
  - intros b x. rewrite lookup_insert_Some. intros [[_ <-]|[_ E]]; [done|by apply (Ht b)].
  - intros b c m w'. rewrite !lookup_insert_Some. intros [[_ ?]|[_ E1]] [[_ ?]|[_ E2]]; try done. by eapply Ha.
Qed.
Lemma insert_ok a key s : lmap_ok s -> lmap_ok (snd (insert a key s)).
Proof.
  intros [Hm Hf Ht Ha]. unfold insert. destruct (the_map s !! key) eqn:Ek; [done|].
  assert (nodes s !! next_node s = None) as Hn.
  { destruct (nodes s !! next_node s) as [x|] eqn:E; [|done]. apply Hf in E. lia. }
  simple refine (wants_ok a (next_node s) true (LMap (<[key := next_node s]> (the_map s)) (<[next_node s := Node key v0]> (nodes s))
    (accessors s) (next_node s + 1)) _ _); [|simpl; rewrite lookup_insert_eq; eauto].
  split; simpl; try done.
  - intros k n. rewrite lookup_insert_Some. intros [[-> <-]|[Hk E]].
    + exists (Node k v0). by rewrite lookup_insert_eq.
    + destruct (Hm k n E) as (x & Hx & Hk'). exists x. rewrite lookup_insert_ne; [done|congruence].
  - intros n x. rewrite lookup_insert_Some. intros [[<- _]|[_ E]]; [lia|]. apply Hf in E. lia.
  - intros b x E. destruct (Ht b x E) as [y Hy]. destruct x as [n w|n w]; rewrite lookup_insert_ne by congruence; eauto.
Qed.
Lemma find_ok a key w s : lmap_ok s -> lmap_ok (snd (find a key w s)).
Proof.
  intros Hok. unfold find. destruct (the_map s !! key) as [n|] eqn:Ek; [|done].
  apply wants_ok; [done|]. destruct (ok_mapped _ Hok key n Ek) as (x & Hx & _). eauto.
Qed.
Lemma acquire_ok a s s' : lmap_ok s -> acquire a s = Some s' -> lmap_ok s'.
Proof.
  intros [Hm Hf Ht Ha]. unfold acquire. destruct (accessors s !! a) as [[n w|]|] eqn:E; try done.
  destruct (can_lock w n s) eqn:Hl; [|done]. intros [= <-]. apply bool_decide_eq_true in Hl.
  split; simpl; try done.
  - intros b x. rewrite lookup_insert_Some. intros [[_ <-]|[_ Eb]]; [exact (Ht a _ E)|by apply (Ht b)].
  - intros b c m w'. rewrite !lookup_insert_Some. intros [[-> [= <- ->]]|[Hb E1]] [[-> H2]|[Hc E2]].
    + done.
    + specialize (Hl c _ E2). simpl in Hl. rewrite Z.eqb_refl, orb_true_r in Hl. done.
    + injection H2 as -> ->. specialize (Hl b _ E1). simpl in Hl. by rewrite Z.eqb_refl in Hl.
    + by eapply Ha.
Qed.
Lemma release_ok a s : lmap_ok s -> lmap_ok (release a s).
Proof.
  intros [Hm Hf Ht Ha]. unfold release. destruct (accessors s !! a) as [[|n w]|]; try done. split; simpl; try done.
  - intros b x. rewrite lookup_delete_Some. intros [_ E]. by apply (Ht b).
  - intros b c m w'. rewrite !lookup_delete_Some. intros [_ E1] [_ E2]. by eapply Ha.
Qed.
Lemma assign_ok a v s : lmap_ok s -> lmap_ok (assign a v s).
Proof.
  intros [Hm Hf Ht Ha]. unfold assign. destruct (accessors s !! a) as [[|n [|]]|]; try done. split; simpl; try done.
  - intros k m E. destruct (Hm k m E) as (x & Hx & Hk). rewrite lookup_alter. destruct (decide (n = m)) as [->|].
    + rewrite Hx. eexists. split; [done|exact Hk].
    + eauto.
  - intros m x. rewrite lookup_alter. destruct (decide (n = m)) as [->|]; [|apply Hf].
    destruct (nodes s !! m) eqn:E; [|done]. intros _. by eapply Hf.
  - intros b x E. destruct (Ht b x E) as [y Hy].
    destruct x as [k w|k w]; rewrite lookup_alter; (destruct (decide (n = k)) as [->|]; [rewrite Hy|]; eauto).
Qed.
Lemma erase_ok key s : lmap_ok s -> lmap_ok (snd (erase key s)).
Proof.
  intros [Hm Hf Ht Ha]. unfold erase. destruct (the_map s !! key); [|done]. split; simpl; try done.
  intros k n. rewrite lookup_delete_Some. intros [_ E]. by apply Hm.
Qed.
Lemma lreach_ok s : lreach s -> lmap_ok s.
Proof.
  induction 1 as [|a s s' _ IH Hs]; [apply empty_ok|].
  destruct Hs; [by apply insert_ok|by apply find_ok|by eapply acquire_ok|by apply release_ok|by apply assign_ok|by apply erase_ok].
Qed.

(** Another accessor's step leaves an accessor and the value it reads alone. *)
Lemma other_steps a b s s' :
  lmap_ok s -> lstep b s s' -> b <> a -> accessors s' !! a = accessors s !! a.
Proof.
  intros Hok Hs Hne. destruct Hs as [b key s _|b key w s _|b s s' E|b s|b v s|b key s].
  - unfold insert. destruct (the_map s !! key); [done|]. simpl. by rewrite lookup_insert_ne.
  - unfold find. destruct (the_map s !! key); [|done]. simpl. by rewrite lookup_insert_ne.
  - unfold acquire in E. destruct (accessors s !! b) as [[n w|]|]; try done. destruct (can_lock w n s); [|done].
    injection E as <-. simpl. by rewrite lookup_insert_ne.
  - unfold release. destruct (accessors s !! b) as [[|]|]; try done. simpl. by rewrite lookup_delete_ne.
  - unfold assign. by destruct (accessors s !! b) as [[|n [|]]|].
  - unfold erase. by destruct (the_map s !! key).
Qed.
Lemma other_nodes a b n w s s' :
  lmap_ok s -> lstep b s s' -> b <> a -> accessors s !! a = Some (Holds n w) -> nodes s' !! n = nodes s !! n.
Proof.
  intros Hok Hs Hne Ha. destruct Hs as [b key s _|b key w' s _|b s s' E|b s|b v s|b key s].
  - unfold insert. destruct (the_map s !! key); [done|]. simpl. rewrite lookup_insert_ne; [done|]. intros En.
    destruct (ok_target _ Hok a _ Ha) as [x Hx]. apply (ok_fresh _ Hok) in Hx. lia.
  - unfold find. by destruct (the_map s !! key).
  - unfold acquire in E. destruct (accessors s !! b) as [[m w'|]|]; try done. destruct (can_lock w' m s); [|done].
    by injection E as <-.
  - unfold release. by destruct (accessors s !! b) as [[|]|].
  - unfold assign. destruct (accessors s !! b) as [[|m [|]]|] eqn:Eb; try done. simpl.
    rewrite lookup_alter_ne; [done|]. intros ->. by destruct (ok_alone _ Hok b a n w Eb Ha).
  - unfold erase. by destruct (the_map s !! key).
Qed.
End locking.
Arguments lmap : clear implicits.
Arguments node : clear implicits.

(** The locks of the entries do their work.  In every state that accessors in any number can
    reach in any order of their steps, an accessor that holds an entry for writing is the
    only one that holds it; while an accessor holds an entry, no step of any other, not even an
    erasure, changes the accessor or the value it sees; and distinct keys have distinct
    entries. *)
Theorem locking_map_safe {V} (v0 : V) s :
  lreach v0 s ->
  (forall a b n w, accessors s !! a = Some (Holds n true) -> accessors s !! b = Some (Holds n w) -> a = b) /\
  (forall a b n w s', accessors s !! a = Some (Holds n w) -> lstep v0 b s s' -> b <> a ->
     accessors s' !! a = Some (Holds n w) /\ is_Some (value a s) /\ value a s' = value a s) /\
  (forall k1 k2 n, the_map s !! k1 = Some n -> the_map s !! k2 = Some n -> k1 = k2).
Proof.
  intros Hs. pose proof (lreach_ok v0 s Hs) as Hok. split_and!; [apply Hok| |].
  - intros a b n w s' Ha Hst Hne. pose proof (other_steps v0 a b s s' Hok Hst Hne) as Ea.
    rewrite Ha in Ea. split; [done|]. unfold value. rewrite Ha, Ea, (other_nodes v0 a b n w s s' Hok Hst Hne Ha).
    split; [|done]. apply fmap_is_Some. exact (ok_target _ Hok a _ Ha).
  - intros k1 k2 n H1 H2. destruct (ok_mapped _ Hok _ _ H1) as (x & Hx & <-).
    destruct (ok_mapped _ Hok _ _ H2) as (y & Hy & <-). congruence.
Qed.

(** ** Between the two locks

    Steps of two accessors, of a map from keys to numbers whose ValueType() is 0. *)
Definition step_insert (a key : Z) (s : lmap Z) : lmap Z := snd (insert 0 a key s).
Definition step_find (a key : Z) (s : lmap Z) : lmap Z := snd (find a key true s).
Definition step_acquire (a : Z) (s : lmap Z) : lmap Z := default s (acquire a s).
Definition step_erase (key : Z) (s : lmap Z) : lmap Z := snd (erase key s).

(** A new entry is in the map before its inserter has its lock: accessor 2 finds it,
    gets it, and sees the value nobody has assigned yet, while the inserter waits. *)
Lemma insert_overtaken : exists s, lreach 0 s /\
  accessors s !! 1 = Some (Wants 0 true) /\ acquire 1 s = None /\ value 2 s = Some 0.
Proof.
  exists (step_acquire 2 (step_find 2 7 (step_insert 1 7 lmap_empty))). split; [|by vm_compute].
  eapply (lreach_step _ 2 (step_find 2 7 (step_insert 1 7 lmap_empty))); [|by apply l_acquire].
  eapply (lreach_step _ 2 (step_insert 1 7 lmap_empty)); [|by apply (l_find 0 2 7 true)].
  eapply (lreach_step _ 1 lmap_empty); [constructor|by apply (l_insert 0 1 7)].
Qed.
(** What [find] has found may be erased before its accessor gets it; a key of the
    same name inserted meanwhile is another entry, and both can be held for writing. *)
Lemma find_stale : exists s, lreach 0 s /\ accessors s !! 2 = Some (Holds 0 true) /\ the_map s !! 7 = Some 1 /\
  accessors s !! 3 = Some (Holds 1 true).
Proof.
  set (s1 := step_insert 1 7 lmap_empty). set (s2 := step_find 2 7 s1). set (s3 := step_erase 7 s2).
  set (s4 := step_insert 3 7 s3). set (s5 := step_acquire 3 s4).
  exists (step_acquire 2 s5). split; [|by vm_compute].
  eapply (lreach_step _ 2 s5); [|by apply l_acquire]. eapply (lreach_step _ 3 s4); [|by apply l_acquire].
  eapply (lreach_step _ 3 s3); [|by apply (l_insert 0 3 7)]. eapply (lreach_step _ 2 s2); [|by apply (l_erase 0 2 7)].
  eapply (lreach_step _ 2 s1); [|by apply (l_find 0 2 7 true)].
  eapply (lreach_step _ 1 lmap_empty); [constructor|by apply (l_insert 0 1 7)].
Qed.
