(* ===== verification/Listener.v ===== *)
(** Making the listening socket of a multi-socket: the constructor of ListenerThread
    (cmm_internal_listener.cpp), which looks for a free port from
    INTERNAL_LISTEN_PORT on.  What the listener thread does with a connection is in [Bootstrap].

    The result of every system call is an argument: [listen_try] holds those for one socket,
    the list of them those for one run of the outer loop each. *)

From S2P Require Import Prelude.

Definition INTERNAL_LISTEN_PORT : Z := 42424.
Definition EADDRINUSE : Z := 98.

Record listen_try := Try {
  try_socket : Z;                     (* socket(2) *)
  try_bind : Z -> option Z;           (* errno for a port in host byte order *)
  try_listen : option Z
}.

(** Which port it is bound to, or the errno; port 0 lets the system choose.  [None]: out of fuel. *)
Fixpoint bind_loop (fuel : nat) (bind : Z -> option Z) (port : Z) : option (Z + Z) :=
  match fuel with
  | O => None
  | S fuel =>
      match bind port with
      | None => Some (inl port)
      | Some e => if e =? EADDRINUSE then bind_loop fuel bind (wrap_u 16 (port + 1)) else Some (inr e)
      end
  end.
(** 42424 .. 65535, then 0. *)
Definition port_fuel : nat := Z.to_nat (2 ^ 16 - INTERNAL_LISTEN_PORT + 1).

(** The socket that is left open and the port its bind asked for, or the number thrown;
    and the sockets closed on the way.  [None]: more attempts are needed than given. *)
Fixpoint listen_loop (tries : list listen_try) (closed : list Z) : option ((Z * Z + Z) * list Z) :=
  match tries with
  | [] => None
  | t :: tries =>
      if try_socket t <? 0 then Some (inr (-1), closed)
      else
        match bind_loop port_fuel (try_bind t) INTERNAL_LISTEN_PORT with
        | None => None
        | Some (inr _) => Some (inr (-1), closed ++ [try_socket t])
        | Some (inl port) =>
            match try_listen t with
            | None => Some (inl (try_socket t, port), closed)
            | Some e =>
                if e =? EADDRINUSE then listen_loop tries (closed ++ [try_socket t])
                else Some (inr (-1), closed ++ [try_socket t])
            end
        end
  end.

(** [sockname]: the port getsockname(2) tells, [None] when it fails. *)
Definition ListenerThread (tries : list listen_try) (sockname : option Z) : option ((Z * Z + Z) * list Z) :=
  r ← listen_loop tries [];
  match r with
  | (inr rc, closed) => Some (inr rc, closed)
  | (inl (sock, _), closed) =>
      match sockname with
      | None => Some (inr (-1), closed ++ [sock])
      | Some listen_port => Some (inl (sock, listen_port), closed)
      end
  end.

(** ** What it comes to *)
Definition opened (tries : list listen_try) : list Z := filter (fun fd => 0 <= fd) (try_socket <$> tries).

Lemma bind_loop_spec fuel bind port r :
  0 <= port < 2 ^ 16 -> bind_loop fuel bind port = Some (inl r) ->
  bind r = None /\ 0 <= r < 2 ^ 16 /\ (port <= r -> forall q, port <= q < r -> bind q = Some EADDRINUSE).
Proof.
  revert port. induction fuel as [|fuel IH]; intros port Hp; simpl; [done|].
  destruct (bind port) as [e|] eqn:E; [|intros [= <-]; split_and!; [done|lia|lia|intros; lia]].
  destruct (Z.eqb_spec e EADDRINUSE) as [->|]; [|done]. intros Hl.
  destruct (IH (wrap_u 16 (port + 1))) as (H1 & H2 & H3); [by apply wrap_u_range|done|].
  split_and!; [done|lia|lia|]. intros Hle q Hq. destruct (decide (q = port)) as [->|Hne]; [done|].
  destruct (decide (port + 1 = 2 ^ 16)); [lia|]. rewrite wrap_u_small in H3 by lia. apply H3; lia.
Qed.

(** The search ends, since a port that the system chooses is always to be had. *)
Lemma bind_loop_ends bind port :
  bind 0 = None -> 0 < port < 2 ^ 16 -> exists r, bind_loop (Z.to_nat (2 ^ 16 - port + 1)) bind port = Some r.
Proof.
  intros H0. remember (Z.to_nat (2 ^ 16 - port + 1)) as fuel eqn:Hf.
  revert port Hf. induction fuel as [|fuel IH]; intros port Hf Hp; [lia|]. simpl.
  destruct (bind port) as [e|]; [|by eexists]. destruct (e =? EADDRINUSE); [|by eexists].
  destruct (decide (port + 1 = 2 ^ 16)) as [E|E].
  - rewrite E. replace (wrap_u 16 (2 ^ 16)) with 0 by reflexivity.
    destruct fuel as [|fuel]; [lia|]. simpl. rewrite H0. by eexists.
  - rewrite wrap_u_small by lia. apply IH; lia.
Qed.

(** The port a socket was bound to: the first that is free, or one the system chose. *)
Definition bound_first (t : listen_try) (port : Z) : Prop :=
  try_bind t port = None /\
  (port = 0 \/ INTERNAL_LISTEN_PORT <= port < 2 ^ 16 /\
     forall q, INTERNAL_LISTEN_PORT <= q < port -> try_bind t q = Some EADDRINUSE).

Lemma opened_cons t tries :
  opened (t :: tries) = (if try_socket t <? 0 then [] else [try_socket t]) ++ opened tries.
Proof.
  unfold opened. rewrite fmap_cons, filter_cons.
  destruct (Z.ltb_spec (try_socket t) 0); [by rewrite decide_False by lia|by rewrite decide_True by lia].
Qed.

Lemma bind_first t port :
  bind_loop port_fuel (try_bind t) INTERNAL_LISTEN_PORT = Some (inl port) ->
  try_bind t port = None /\ 0 <= port < 2 ^ 16 /\
  (INTERNAL_LISTEN_PORT <= port -> forall q, INTERNAL_LISTEN_PORT <= q < port -> try_bind t q = Some EADDRINUSE).
Proof. apply bind_loop_spec. unfold INTERNAL_LISTEN_PORT. lia. Qed.

(** Only port 0 is tried below the first one, since the search wraps there and port 0 is free. *)
Lemma bind_from fuel bind port r :
  bind 0 = None -> 0 <= port < 2 ^ 16 -> bind_loop fuel bind port = Some (inl r) -> r = 0 \/ port <= r.
Proof.
  intros H0. revert port. induction fuel as [|fuel IH]; intros port Hp; simpl; [done|].
  destruct (bind port) as [e|] eqn:E; [|intros [= <-]; lia]. destruct (e =? EADDRINUSE); [|done].
  destruct (decide (port + 1 = 2 ^ 16)) as [Ew|Ew].
  - rewrite Ew. replace (wrap_u 16 (2 ^ 16)) with 0 by reflexivity. intros H. left.
    destruct fuel as [|fuel]; [done|]. simpl in H. rewrite H0 in H. by injection H as <-.
  - rewrite wrap_u_small by lia. intros H. apply IH in H; lia.
Qed.

Lemma listen_loop_spec tries closed r out :
  Forall (fun t => try_bind t 0 = None) tries -> listen_loop tries closed = Some (r, out) ->
  exists used rest x, tries = used ++ rest /\ out = closed ++ x /\
  match r with
  | inl (sock, port) =>
      opened used = x ++ [sock] /\ exists t, last used = Some t /\ try_socket t = sock /\ try_listen t = None /\ bound_first t port
  | inr rc => rc = -1 /\ opened used = x
  end.
Proof.
  intros Hz. revert closed. induction Hz as [|t tries Hz0 Hz IH]; intros closed; [done|]. cbn [listen_loop].
  pose proof (opened_cons t []) as Ho. destruct (try_socket t <? 0) eqn:Es.
  { intros [= <- <-]. exists [t], tries, []. by rewrite app_nil_r, Ho. }
  destruct (bind_loop _ _ _) as [[port|e]|] eqn:Eb; [| |done].
  2:{ intros [= <- <-]. exists [t], tries, [try_socket t]. by rewrite Ho. }
  destruct (try_listen t) as [e|] eqn:El.
  - destruct (e =? EADDRINUSE).
    + intros H. destruct (IH _ H) as (used & rest & x & -> & -> & Hr).
      exists (t :: used), rest, (try_socket t :: x). rewrite <- app_assoc. split_and!; [done|done|].
      rewrite opened_cons, Es. destruct r as [[sock p]|rc]; [|by destruct Hr as [-> ->]].
      destruct Hr as (-> & t' & Hl & Hr). split; [done|]. exists t'. split; [|done].
      destruct used; [done|]. exact Hl.
    + intros [= <- <-]. exists [t], tries, [try_socket t]. by rewrite Ho.
  - intros [= <- <-]. exists [t], tries, []. rewrite app_nil_r, Ho. split_and!; [done..|].
    exists t. split_and!; [done..|]. destruct (bind_first t port Eb) as (H1 & H2 & H3). split; [done|].
    apply bind_from in Eb as [?|Hge]; [by left| |done|unfold INTERNAL_LISTEN_PORT; lia]. right. split; [lia|auto].
Qed.

(** The constructor of the listener.  With a system that can always choose a port itself
    it ends as soon as one listen(2) does not lose a race for the port; on failure every socket it
    made is closed, on success every one but the last, which is bound to the first
    free port from INTERNAL_LISTEN_PORT on, or to one of the system's choice. *)
Theorem listener_created tries sockname :
  Forall (fun t => try_bind t 0 = None) tries ->
  (Exists (fun t => try_listen t <> Some EADDRINUSE) tries -> is_Some (ListenerThread tries sockname)) /\
  forall r closed, ListenerThread tries sockname = Some (r, closed) ->
    exists used, used `prefix_of` tries /\
    match r with
    | inl (sock, listen_port) =>
        opened used = closed ++ [sock] /\ sockname = Some listen_port /\
        exists t port, last used = Some t /\ try_socket t = sock /\ try_listen t = None /\ bound_first t port
    | inr rc => rc < 0 /\ opened used = closed
    end.
Proof.
  intros Hz. split.
  - intros Hex. unfold ListenerThread. assert (forall closed, is_Some (listen_loop tries closed)) as Hs.
    { induction Hz as [|t tries Hz0 Hz IH]; [by apply Exists_nil in Hex|]. intros closed. cbn [listen_loop].
      destruct (try_socket t <? 0); [done|].
      destruct (bind_loop_ends (try_bind t) INTERNAL_LISTEN_PORT Hz0) as [res Hr]; [unfold INTERNAL_LISTEN_PORT; lia|].
      change (bind_loop port_fuel (try_bind t) INTERNAL_LISTEN_PORT = Some res) in Hr. rewrite Hr.
      destruct res as [port|e]; [|done]. destruct (try_listen t) as [e|] eqn:El; [|done].
      destruct (Z.eqb_spec e EADDRINUSE) as [->|]; [|done]. apply IH.
      apply Exists_cons in Hex as [Hex|Hex]; [by rewrite El in Hex|done]. }
    destruct (Hs []) as [[[[sock port]|rc] closed] ->]; simpl; [by destruct sockname|done].
  - intros r closed. unfold ListenerThread. intros ([r' out] & Hl & H)%bind_Some.
    destruct (listen_loop_spec _ _ _ _ Hz Hl) as (used & rest & x & -> & -> & Hr). simpl in *.
    exists used. split; [by eexists|]. destruct r' as [[sock port]|rc].
    + destruct Hr as (Ho & t & Ht). destruct sockname; injection H as <- <-; [|done].
      split_and!; [done..|]. exists t, port. destruct Ht as (? & ? & ? & ?). done.
    + injection H as <- <-. destruct Hr as [-> Ho]. done.
Qed.
