(* ===== verification/Scout.v ===== *)
(** The scout, the daemon that tells the processes which networks there are:
    scout/libcmm_scout.cpp, and the messages of libcmm_ipc.h.

    The scout holds the set of interfaces and a table of subscribers; its listener
    thread serves a round of descriptors that select(2) reports, the main thread changes
    the set and notifies everyone.  A step is one round or one change; steps of the
    two threads are interleaved only between the parts of a subscription.  Of the
    ways main chooses the changes, a replayed trace and the commands of the control socket
    are modelled, the command line and sleeping are not.

    [sub_written] is what has been written whole to a connection since it was accepted;
    what accept(2), read(2) and write(2) answer is an argument of the step or the parameter
    [write_rc].  A set of descriptors is a [gset Z]; the limit of select(2) is left out. *)

From S2P Require Import Prelude Labels Timeops.
From stdpp Require Import strings.
#[local] Open Scope Z_scope.

Definition CMM_MSG_SUBSCRIBE : Z := 1.
Definition CMM_MSG_UNSUBSCRIBE : Z := 2.
Definition CMM_MSG_IFACE_LABELS : Z := 3.
Definition CMM_MSG_IFACE_DOWN : Z := 4.
Definition CMM_MSG_GET_IFACES : Z := 5.
Definition CMM_MSG_IS_IP_CONNECTED : Z := 6.

Record cmm_msg := Msg { opcode : Z; msg_rc : Z; msg_pid : Z; msg_iface : net_interface }.

Record subscriber_proc := Sub { ipc_sock : Z; sub_pid : Z }.

Record scout := Scout {
  net_interfaces : gmap Z net_interface;
  subscriber_procs : gmap Z subscriber_proc;   (* by descriptor, or so it is meant *)
  active_fds : gset Z;
  maxfd : Z;
  open_socks : gset Z;
  sub_written : gmap Z (list cmm_msg)
}.
Definition set_net f (s : scout) : scout := Scout (f (net_interfaces s)) (subscriber_procs s) (active_fds s) (maxfd s) (open_socks s) (sub_written s).
Definition set_subs f (s : scout) : scout := Scout (net_interfaces s) (f (subscriber_procs s)) (active_fds s) (maxfd s) (open_socks s) (sub_written s).
Definition set_active f m (s : scout) : scout := Scout (net_interfaces s) (subscriber_procs s) (f (active_fds s)) m (open_socks s) (sub_written s).
Definition set_open f (s : scout) : scout := Scout (net_interfaces s) (subscriber_procs s) (active_fds s) (maxfd s) (f (open_socks s)) (sub_written s).
Definition set_written f (s : scout) : scout := Scout (net_interfaces s) (subscriber_procs s) (active_fds s) (maxfd s) (open_socks s) (f (sub_written s)).

Definition zero_iface : net_interface := NetInterface 0 0 0 0 0.
Definition EINVAL : Z := 22.

(** What a read of a message gives. *)
Inductive read_result := Whole (m : cmm_msg) | Short.

Section scout.
Context (control : Z).                          (* scout_control_ipc_sock *)
Context (sizeof_msg : Z) (write_rc : gmap Z (list cmm_msg) -> Z -> cmm_msg -> Z).

Definition close (fd : Z) : M scout unit := modify (set_open (fun X => X ∖ {[fd]})).

Definition write (fd : Z) (m : cmm_msg) : M scout Z :=
  s ← get;
  let rc := write_rc (sub_written s) fd m in
  when (rc =? sizeof_msg) (modify (set_written (fun w => <[fd := default [] (w !! fd) ++ [m]]> w)));;
  mret rc.

Definition notify_subscriber_of_event (fd : Z) (iface : net_interface) (op : Z) : M scout Z :=
  write fd (Msg op 0 0 iface).

(** A negative result ends it. *)
Fixpoint notify_each (fd op : Z) (ifaces : list net_interface) : M scout Z :=
  match ifaces with
  | [] => mret 0
  | i :: ifaces =>
      rc ← notify_subscriber_of_event fd i op;
      if rc <? 0 then mret rc else notify_each fd op ifaces
  end.
Definition notify_subscriber (fd : Z) (changed_ifaces down_ifaces : list net_interface) : M scout Z :=
  rc ← notify_each fd CMM_MSG_IFACE_LABELS changed_ifaces;
  if rc <? 0 then mret rc else notify_each fd CMM_MSG_IFACE_DOWN down_ifaces.

(** The interfaces in the order of the map. *)
Definition iface_list (m : gmap Z net_interface) : list net_interface := omap (fun ip => m !! ip) (ascending (dom m)).
Definition init_subscriber (fd : Z) : M scout Z :=
  s ← get; notify_subscriber fd (iface_list (net_interfaces s)) [].

(** The entry is found by its key. *)
Definition remove_subscriber (key : Z) : M scout unit :=
  s ← get;
  match subscriber_procs s !! key with
  | None => mret tt
  | Some sub => close (ipc_sock sub);; modify (set_subs (delete key))
  end.

Fixpoint notify_keys (keys : list Z) (changed_ifaces down_ifaces : list net_interface) : M scout (list Z) :=
  match keys with
  | [] => mret []
  | key :: keys =>
      s ← get;
      match subscriber_procs s !! key with
      | None => notify_keys keys changed_ifaces down_ifaces
      | Some sub =>
          rc ← notify_subscriber (ipc_sock sub) changed_ifaces down_ifaces;
          failed ← notify_keys keys changed_ifaces down_ifaces;
          mret (if rc <? 0 then key :: failed else failed)
      end
  end.
Fixpoint remove_each (keys : list Z) : M scout unit :=
  match keys with [] => mret tt | key :: keys => remove_subscriber key;; remove_each keys end.
Definition notify_all_subscribers (changed_ifaces down_ifaces : list net_interface) : M scout unit :=
  s ← get;
  failed_procs ← notify_keys (ascending (dom (subscriber_procs s))) changed_ifaces down_ifaces;
  remove_each failed_procs.

(** ** The listener thread *)

(** A process subscribes.  The table is searched for the process identifier, though
    its keys are descriptors; [insert] fails for a key that is there, and the
    accessor is then empty. *)
Definition subscribe_entry (fd pid : Z) : M scout Z :=
  s ← get;
  match subscriber_procs s !! pid with
  | Some sub => close (ipc_sock sub);; mret pid
  | None =>
      match subscriber_procs s !! fd with
      | Some _ => lift (Trap AssertFailed)
      | None => modify (set_subs <[fd := Sub 0 pid]>);; mret fd
      end
  end.
(** After it has been told the interfaces, or not. *)
Definition subscribe_finish (key fd rc : Z) : M scout unit :=
  if rc <? 0 then close fd;; modify (set_subs (delete key))
  else
    modify (set_subs (alter (fun sub => Sub fd (sub_pid sub)) key));;
    s ← get;
    modify (set_active (fun X => {[fd]} ∪ X) (Z.max fd (maxfd s))).
Definition subscribe (fd pid : Z) : M scout unit :=
  key ← subscribe_entry fd pid;
  rc ← init_subscriber fd;
  subscribe_finish key fd rc.

Definition answer_is_connected (fd : Z) (m : cmm_msg) : M scout unit :=
  s ← get;
  let iface := default zero_iface (net_interfaces s !! ip_addr (msg_iface m)) in
  rc ← write fd (Msg (opcode m) (if ip_addr iface =? 0 then -1 else 1) (msg_pid m) (msg_iface m));
  close fd.

Definition answer_get_ifaces (fd : Z) : M scout unit :=
  rc ← init_subscriber fd;
  when (0 <=? rc) (notify_subscriber_of_event fd zero_iface CMM_MSG_IFACE_LABELS;; mret tt);;
  close fd.

(** A new connection and its first message: whether it is counted as served. *)
Definition handle_connection (fd : Z) (r : read_result) : M scout bool :=
  modify (set_open (fun X => {[fd]} ∪ X));;
  modify (set_written (fun w => <[fd := []]> w));;
  match r with
  | Short => close fd;; mret false
  | Whole m =>
      (if opcode m =? CMM_MSG_GET_IFACES then answer_get_ifaces fd
       else if opcode m =? CMM_MSG_IS_IP_CONNECTED then answer_is_connected fd m
       else subscribe fd (msg_pid m));;
      mret true
  end.

(** The loop over the descriptors; whatever a subscriber sends, or its end, takes it
    out of the table. *)
Fixpoint scan (socks : list Z) (fds : gset Z) (ready_fds : Z) : M scout unit :=
  match socks with
  | [] => mret tt
  | fd :: socks =>
      if ready_fds =? 0 then mret tt
      else if bool_decide (fd ∈ fds) then
        s ← get;
        match subscriber_procs s !! fd with
        | Some _ =>
            remove_subscriber fd;;
            s ← get;
            modify (set_active (fun X => X ∖ {[fd]}) (maxfd s));;
            scan socks fds (ready_fds - 1)
        | None => lift (Trap AssertFailed)
        end
      else scan socks fds ready_fds
  end.

(** What accept(2) gives: an error, or a descriptor and what is read from it. *)
Inductive accept_result := AcceptError (errno : Z) | Accepted (fd : Z) (r : read_result).

Definition scan_all (fds : gset Z) (ready_fds : Z) : M scout unit :=
  s ← get; scan (seqZ 0 (maxfd s + 1)) fds ready_fds.

(** One round, for the set of descriptors that select(2) reports, not empty; [false]: the thread ends. *)
Definition listener_round (fds : gset Z) (a : accept_result) : M scout bool :=
  let ready_fds := Z.of_nat (size fds) in
  if bool_decide (control ∈ fds) then
    match a with
    | AcceptError errno => if errno =? EINVAL then mret false else scan_all fds (ready_fds - 1);; mret true
    | Accepted fd r =>
        served ← handle_connection fd r;
        if (served : bool) && (ready_fds - 1 =? 0) then mret true
        else scan_all fds (if served then ready_fds - 1 else ready_fds);; mret true
    end
  else scan_all fds ready_fds;; mret true.

(** ** The main thread *)
Definition iface_up (iface : net_interface) : M scout unit :=
  modify (set_net <[ip_addr iface := iface]>);; notify_all_subscribers [iface] [].
Definition iface_down (iface : net_interface) : M scout unit :=
  modify (set_net (delete (ip_addr iface)));; notify_all_subscribers [] [iface].

(** The listener thread is done: the connections that are left. *)
Fixpoint close_subscribers (keys : list Z) : M scout unit :=
  match keys with
  | [] => mret tt
  | key :: keys =>
      s ← get;
      match subscriber_procs s !! key with Some sub => close (ipc_sock sub) | None => mret tt end;;
      close_subscribers keys
  end.
Definition listener_end : M scout unit :=
  s ← get; close_subscribers (ascending (dom (subscriber_procs s)));; close control.

(** A command from the control socket, about the background interface. *)
Definition control_command (cmd : string) (bg_iface : net_interface) : M scout unit :=
  if bool_decide (cmd = "bg_down"%string) then iface_down bg_iface
  else if bool_decide (cmd = "bg_up"%string) then iface_up bg_iface
  else mret tt.

(** stopScoutIPC of the Java service; the thread then ends. *)
Definition stopScoutIPC : M scout unit := modify (set_net (fun _ => ∅)).
(** updateNetwork of the Java service. *)
Definition updateNetwork (iface : net_interface) (down : bool) : M scout unit :=
  if down then iface_down iface else iface_up iface.

Record trace_slice := Slice {
  sl_start : timeval;
  wifi_bw_down : Z; wifi_bw_up : Z; wifi_RTT : Z;
  cellular_bw_down : Z; cellular_bw_up : Z; cellular_RTT : Z
}.
(** One slice of a replayed trace; [emu_start]: what the emulation box says.  [false]: the
    scout stops. *)
Definition emulate_slice (slice : trace_slice) (emu_start : timeval) (cellular_iface wifi_iface : net_interface) : M scout bool :=
  if negb (bool_decide (emu_start = sl_start slice)) then mret false
  else
    let cellular := NetInterface (ip_addr cellular_iface) (cellular_bw_down slice) (cellular_bw_up slice)
                      (cellular_RTT slice) (net_type cellular_iface) in
    let wifi := NetInterface (ip_addr wifi_iface) (wifi_bw_down slice) (wifi_bw_up slice)
                  (wifi_RTT slice) (net_type wifi_iface) in
    s ← get;
    let gone := bandwidth_up wifi =? 0 in
    let down_ifaces := if gone && bool_decide (is_Some (net_interfaces s !! ip_addr wifi)) then [wifi] else [] in
    let changed_ifaces := (if gone then [] else [wifi]) ++ [cellular] in
    modify (set_net (fun m => <[ip_addr cellular := cellular]>
                                (if gone then delete (ip_addr wifi) m else <[ip_addr wifi := wifi]> m)));;
    notify_all_subscribers changed_ifaces down_ifaces;;
    mret true.
End scout.

(** The interfaces main starts with. *)
Definition initial_interfaces (fg_iface : net_interface) (bg_iface : option net_interface) (read_socket : bool) : gmap Z net_interface :=
  match bg_iface with
  | None => {[ip_addr fg_iface := fg_iface]}
  | Some bg =>
      let ifs := <[ip_addr bg := bg]> {[ip_addr fg_iface := fg_iface]} in
      if read_socket then ifs else delete (ip_addr bg) ifs
  end.

(** One turn of main's loop over a trace of [n] slices: the slice to emulate, if
    the turn has one, and the cursor. *)
Definition replay_turn (n cur_trace_slice : nat) : outcome (option nat * nat) :=
  if bool_decide (S cur_trace_slice = n) then Ret (None, 0%nat)
  else assert_ (bool_decide (S cur_trace_slice < n)%nat);; Ret (Some cur_trace_slice, S cur_trace_slice).
(** The slices that so many turns emulate. *)
Fixpoint replay (turns n cur_trace_slice : nat) : outcome (list nat) :=
  match turns with
  | O => Ret []
  | S turns =>
      r ← replay_turn n cur_trace_slice;
      l ← replay turns n r.2;
      Ret (match r.1 with Some i => i :: l | None => l end)
  end.

(** The trace as get_trace checks it: starts relative to the first, and growing. *)
Fixpoint check_starts (trace_start last_slice_start : timeval) (starts : list timeval) : option (list timeval) :=
  match starts with
  | [] => Some []
  | t :: starts =>
      let t := timersub t trace_start in
      if timercmp Z.gtb t last_slice_start
      then l ← check_starts trace_start t starts; Some (t :: l)
      else None
  end.
Definition get_trace (starts : list timeval) : option (list timeval) :=
  match starts with
  | [] => None
  | t :: starts =>
      if forallb (fun x => 0 <=? tv_sec x) (t :: starts)
      then l ← check_starts t timer_zero starts; Some (timer_zero :: l)
      else None
  end.
