(* ===== verification/ScoutSpec.v ===== *)
(** What the scout of [Scout] promises its subscribers: each of them has been told
    what it needs to know the interfaces there are; and when the listener thread dies. *)

From S2P Require Import Prelude Logic Labels Timeops Scout.
From stdpp Require Import strings.
#[local] Open Scope Z_scope.

(** What a subscriber makes of a message: the handler of libcmm_ipc.cpp and the
    set of interfaces of cmm_socket_impl.cpp. *)
Definition learn (m : gmap Z net_interface) (msg : cmm_msg) : gmap Z net_interface :=
  if opcode msg =? CMM_MSG_IFACE_LABELS then iface_insert (msg_iface msg) m
  else if opcode msg =? CMM_MSG_IFACE_DOWN then iface_erase (msg_iface msg) m
  else m.
Definition knows (w : list cmm_msg) : gmap Z net_interface := foldl learn ∅ w.

(** What the messages say: of each interface the last one holds, with all it
    says of it. *)
Definition update (m : gmap Z net_interface) (msg : cmm_msg) : gmap Z net_interface :=
  if opcode msg =? CMM_MSG_IFACE_LABELS then <[ip_addr (msg_iface msg) := msg_iface msg]> m
  else if opcode msg =? CMM_MSG_IFACE_DOWN then delete (ip_addr (msg_iface msg)) m
  else m.
Definition told (w : list cmm_msg) : gmap Z net_interface := foldl update ∅ w.

Definition written (s : scout) (fd : Z) : list cmm_msg := default [] (sub_written s !! fd).
Definition tells (op : Z) (i : net_interface) : cmm_msg := Msg op 0 0 i.
Definition tidings (changed down : list net_interface) : list cmm_msg :=
  (tells CMM_MSG_IFACE_LABELS <$> changed) ++ (tells CMM_MSG_IFACE_DOWN <$> down).

(** Only what is written changes. *)
Definition same_but_written (s s' : scout) : Prop := s' = set_written (fun _ => sub_written s') s.

(** ** The scout's invariant *)
(** [D]: the interfaces that the subscribers have been told of. *)
Record scout_inv (control : Z) (D : gmap Z net_interface) (s : scout) : Prop := {
  ok_filed : map_Forall (fun ip i => ip_addr i = ip) (net_interfaces s);
  ok_key : map_Forall (fun fd sub => ipc_sock sub = fd) (subscriber_procs s);
  ok_open : dom (subscriber_procs s) ⊆ open_socks s ∖ {[control]};
  ok_active : active_fds s ∩ open_socks s ⊆ {[control]} ∪ dom (subscriber_procs s);
  ok_max : set_Forall (fun fd => 0 <= fd <= maxfd s) (active_fds s);
  ok_control : control ∈ active_fds s;
  ok_listens : control ∈ open_socks s;
  ok_told : forall fd, fd ∈ dom (subscriber_procs s) -> told (written s fd) = D
}.
Definition scout_ok (control : Z) (s : scout) : Prop := scout_inv control (net_interfaces s) s.

Definition scout_start (control : Z) (net : gmap Z net_interface) : scout :=
  Scout net ∅ {[control]} control {[control]} ∅.

(** ** Learning *)
Lemma told_app w w' : told (w ++ w') = foldl update (told w) w'.
Proof. apply foldl_app. Qed.
Lemma dom_insert_iface i m : dom (iface_insert i m) = {[ip_addr i]} ∪ dom m.
Proof.
  unfold iface_insert. destruct (m !! ip_addr i) eqn:E; [|set_solver].
  apply elem_of_dom_2 in E. set_solver.
Qed.

(** A subscriber keeps what it was first told of an interface, but it has the
    interfaces that it was told of last. *)
Lemma dom_knows w : dom (knows w) = dom (told w).
Proof.
  unfold knows, told. assert (forall m m', dom m = dom m' -> dom (foldl learn m w) = dom (foldl update m' w)) as H; [|by apply H].
  induction w as [|msg w IH]; intros m m' E; simpl; [done|]. apply IH. unfold learn, update.
  destruct (_ =? _); [by rewrite dom_insert_iface, dom_insert_L, E|].
  destruct (_ =? _); [unfold iface_erase; by rewrite !dom_delete_L, E|done].
Qed.

(** Told every interface there is. *)
Lemma told_each (net : gmap Z net_interface) l m :
  (forall i, i ∈ l -> net !! ip_addr i = Some i) ->
  forall ip, foldl update m (tells CMM_MSG_IFACE_LABELS <$> l) !! ip =
    if bool_decide (ip ∈ ip_addr <$> l) then net !! ip else m !! ip.
Proof.
  revert m. induction l as [|i l IH]; intros m Hl ip.
  - by rewrite bool_decide_false by apply not_elem_of_nil.
  - rewrite !fmap_cons. cbn [foldl].
    change (update m (tells CMM_MSG_IFACE_LABELS i)) with (<[ip_addr i := i]> m).
    rewrite IH by (intros j Hj; apply Hl; by right).
    destruct (bool_decide_reflect (ip ∈ ip_addr <$> l)) as [Hin|Hni].
    + by rewrite bool_decide_true by by right.
    + destruct (decide (ip = ip_addr i)) as [->|Hne].
      * rewrite bool_decide_true by left. rewrite lookup_insert_eq. symmetry. apply Hl. left.
      * rewrite bool_decide_false by (rewrite elem_of_cons; tauto). by rewrite lookup_insert_ne.
Qed.
Lemma told_ifaces net :
  map_Forall (fun ip i => ip_addr i = ip) net -> told (tidings (iface_list net) []) = net.
Proof.
  intros Hf. assert (forall i, i ∈ iface_list net <-> net !! ip_addr i = Some i) as Hl.
  { intros i. unfold iface_list. rewrite list_elem_of_omap. split.
    - intros (k & _ & Hi). pose proof (Hf _ _ Hi) as E; simpl in E. by rewrite E.
    - intros Hi. exists (ip_addr i). split; [|done]. apply elem_of_ascending. by eapply elem_of_dom_2. }
  unfold told, tidings. rewrite app_nil_r. apply map_eq. intros ip.
  rewrite (told_each net) by (intros; by apply Hl). destruct (bool_decide_reflect (ip ∈ ip_addr <$> iface_list net)) as [|Hni]; [done|].
  rewrite lookup_empty. destruct (net !! ip) as [i|] eqn:E; [|done]. exfalso. apply Hni, list_elem_of_fmap.
  pose proof (Hf _ _ E) as Ei; simpl in Ei. exists i. split; [done|]. apply Hl. by rewrite Ei.
Qed.

Section told.
Context (control sizeof_msg : Z) (write_rc : gmap Z (list cmm_msg) -> Z -> cmm_msg -> Z).
Context (Hsize : 0 < sizeof_msg)
  (Hwhole : forall w fd m, write_rc w fd m < 0 \/ write_rc w fd m = sizeof_msg).
Abbreviation notify_each := (notify_each sizeof_msg write_rc).
Abbreviation notify_subscriber := (notify_subscriber sizeof_msg write_rc).
Abbreviation notify_keys := (notify_keys sizeof_msg write_rc).
Abbreviation notify_all := (notify_all_subscribers sizeof_msg write_rc).

(** ** Writing *)
Lemma notify_each_spec fd op l s :
  exists rc s', notify_each fd op l s = (Ret rc, s') /\ same_but_written s s' /\
    (forall k, k <> fd -> written s' k = written s k) /\
    (0 <= rc -> written s' fd = written s fd ++ (tells op <$> l)).
Proof.
  revert s. induction l as [|i l IH]; intros s; simpl.
  - exists 0, s. split_and!; [done|by destruct s|done|]. intros _. by rewrite app_nil_r.
  - unfold notify_subscriber_of_event, write, when, get, modify, mbind, M_bind, mret, M_ret.
    fold (tells op i).
    destruct (Hwhole (sub_written s) fd (tells op i)) as [Hneg|Heq].
    + destruct (write_rc _ _ _ =? sizeof_msg) eqn:E; [lia|].
      eexists _, s. replace (_ <? 0) with true by lia. split_and!; [done|by destruct s|done|lia].
    + rewrite Heq, Z.eqb_refl. replace (sizeof_msg <? 0) with false by lia.
      destruct (IH (set_written (fun w => <[fd := default [] (w !! fd) ++ [tells op i]]> w) s))
        as (rc & s' & E & Hs & Ho & Hw).
      eexists rc, s'. split_and!; [exact E| | |].
      * unfold same_but_written in *. rewrite Hs at 1. by destruct s.
      * intros k Hk. rewrite (Ho k Hk). unfold written, set_written; simpl. by rewrite lookup_insert_ne.
      * intros Hrc. rewrite (Hw Hrc). unfold written, set_written; simpl. rewrite lookup_insert_eq; simpl.
        by rewrite <- app_assoc.
Qed.

Lemma same_trans s1 s2 s3 : same_but_written s1 s2 -> same_but_written s2 s3 -> same_but_written s1 s3.
Proof. unfold same_but_written. intros E1 E2. rewrite E2, E1. by destruct s1. Qed.

Lemma notify_subscriber_spec fd changed down s :
  exists rc s', notify_subscriber fd changed down s = (Ret rc, s') /\ same_but_written s s' /\
    (forall k, k <> fd -> written s' k = written s k) /\
    (0 <= rc -> written s' fd = written s fd ++ tidings changed down).
Proof.
  unfold notify_subscriber.
  destruct (notify_each_spec fd CMM_MSG_IFACE_LABELS changed s) as (rc & s1 & E1 & Hs1 & Ho1 & Hw1).
  rewrite (M_bind_ret _ _ _ _ _ E1). destruct (rc <? 0) eqn:Hrc.
  - exists rc, s1. split_and!; [done..|lia].
  - destruct (notify_each_spec fd CMM_MSG_IFACE_DOWN down s1) as (rc2 & s2 & E2 & Hs2 & Ho2 & Hw2).
    exists rc2, s2. split_and!; [done|by eapply same_trans| |].
    + intros k Hk. by rewrite Ho2, Ho1.
    + intros H2. rewrite Hw2, Hw1 by lia. unfold tidings. by rewrite app_assoc.
Qed.

Lemma notify_keys_spec keys changed down s :
  NoDup keys -> map_Forall (fun fd sub => ipc_sock sub = fd) (subscriber_procs s) ->
  exists failed s', notify_keys keys changed down s = (Ret failed, s') /\ same_but_written s s' /\
    (forall k, k ∉ keys -> written s' k = written s k) /\
    (forall k, k ∈ keys -> k ∈ dom (subscriber_procs s) ->
       k ∈ failed \/ written s' k = written s k ++ tidings changed down) /\
    (forall k, k ∈ failed -> k ∈ keys).
Proof.
  revert s. induction keys as [|key keys IH]; intros s Hnd Hkey; simpl.
  { exists [], s. split_and!; [done|by destruct s|done|set_solver|done]. }
  apply NoDup_cons in Hnd as [Hni Hnd].
  rewrite (M_bind_ret get _ s s s eq_refl).
  destruct (subscriber_procs s !! key) as [sub|] eqn:Ekey.
  - pose proof (Hkey _ _ Ekey) as Hsock; simpl in Hsock. rewrite Hsock.
    destruct (notify_subscriber_spec key changed down s) as (rc & s1 & E1 & Hs1 & Ho1 & Hw1).
    rewrite (M_bind_ret _ _ _ _ _ E1).
    destruct (IH s1 Hnd) as (failed & s2 & E2 & Hs2 & Ho2 & Hw2 & Hf2).
    { by rewrite Hs1. }
    rewrite (M_bind_ret _ _ _ _ _ E2).
    exists (if rc <? 0 then key :: failed else failed), s2. split_and!; [done|by eapply same_trans| | |].
    + intros k Hk. rewrite Ho2, Ho1; set_solver.
    + intros k [->|Hk]%elem_of_cons Hd.
      * destruct (rc <? 0) eqn:Hrc; [left; set_solver|right]. rewrite Ho2 by done. apply Hw1; lia.
      * destruct (Hw2 k Hk) as [?|Hk2]; [by rewrite Hs1|left; destruct (rc <? 0); set_solver|].
        right. rewrite Hk2, Ho1; [done|set_solver].
    + intros k. destruct (rc <? 0); set_solver.
  - destruct (IH s Hnd Hkey) as (failed & s2 & E2 & Hs2 & Ho2 & Hw2 & Hf2).
    exists failed, s2. split_and!; [done|done|intros; apply Ho2; set_solver| |set_solver].
    intros k [->|Hk]%elem_of_cons Hd; [|by apply Hw2]. by apply elem_of_dom in Hd as [? ?]; simplify_eq.
Qed.

(** ** Losing subscribers *)
Definition lost (s s' : scout) : Prop :=
  net_interfaces s' = net_interfaces s /\ active_fds s' = active_fds s /\ maxfd s' = maxfd s /\
    subscriber_procs s' ⊆ subscriber_procs s /\
    open_socks s' = open_socks s ∖ (dom (subscriber_procs s) ∖ dom (subscriber_procs s')).

Lemma same_lost s s' : same_but_written s s' -> lost s s'.
Proof. intros ->. unfold lost; simpl. split_and!; [done..|]. set_solver. Qed.
Lemma lost_trans s1 s2 s3 : lost s1 s2 -> lost s2 s3 -> lost s1 s3.
Proof.
  intros (? & ? & ? & Hs1 & E1) (? & ? & ? & Hs2 & E2). unfold lost.
  split_and!; [congruence..|by etrans|]. apply subseteq_dom in Hs1, Hs2.
  rewrite E2, E1. apply set_eq. intros x. destruct (decide (x ∈ dom (subscriber_procs s2))); set_solver.
Qed.
Lemma lost_ok D D' s s' :
  scout_inv control D s -> lost s s' ->
  (forall k, k ∈ dom (subscriber_procs s') -> told (written s' k) = D') -> scout_inv control D' s'.
Proof.
  intros [? Hkey ? Hact] (E1 & E2 & E3 & Hsub & E5) Htold. pose proof (subseteq_dom _ _ Hsub) as Hdom.
  split; rewrite ?E1, ?E2, ?E3; try done.
  - intros k sub Hk. by eapply Hkey, lookup_weaken.
  - rewrite E5. set_solver.
  - rewrite E5. intros x [Hx1 [Hx2 Hx3]%elem_of_difference]%elem_of_intersection.
    rewrite elem_of_difference in Hx3. destruct (decide (x ∈ dom (subscriber_procs s'))); [by apply elem_of_union_r|].
    assert (x ∈ active_fds s ∩ open_socks s) as Hx by (by apply elem_of_intersection).
    apply Hact, elem_of_union in Hx as [Hx|Hx]; [by apply elem_of_union_l|]. by destruct Hx3.
  - rewrite E5. set_solver.
Qed.

Lemma remove_subscriber_lost key s :
  map_Forall (fun fd sub => ipc_sock sub = fd) (subscriber_procs s) ->
  returns (remove_subscriber key) s (fun _ s' =>
    lost s s' /\ sub_written s' = sub_written s /\ subscriber_procs s' = delete key (subscriber_procs s)).
Proof.
  intros Hkey. unfold remove_subscriber. apply returns_bind, returns_get.
  destruct (subscriber_procs s !! key) as [sub|] eqn:E.
  - apply returns_bind, returns_modify, returns_modify. simpl. pose proof (Hkey _ _ E) as Hs; simpl in Hs.
    apply elem_of_dom_2 in E. unfold lost; simpl. rewrite Hs. split_and!; try done; [apply delete_subseteq|].
    rewrite dom_delete_L. f_equal. apply set_eq. intros x. destruct (decide (x = key)); set_solver.
  - apply returns_ret. split_and!; [by apply same_lost; destruct s|done|by rewrite delete_id].
Qed.
Lemma remove_each_lost keys s :
  map_Forall (fun fd sub => ipc_sock sub = fd) (subscriber_procs s) ->
  returns (remove_each keys) s (fun _ s' =>
    lost s s' /\ sub_written s' = sub_written s /\ forall k, k ∈ keys -> k ∉ dom (subscriber_procs s')).
Proof.
  revert s. induction keys as [|key keys IH]; intros s Hkey; simpl.
  { apply returns_ret. split_and!; [by apply same_lost; destruct s|done|set_solver]. }
  eapply returns_step; [by apply remove_subscriber_lost|]. intros [] s1 (Hl & Hw & E).
  eapply returns_mono; [apply IH; rewrite E; by apply map_Forall_delete|].
  intros [] s2 (Hl2 & Hw2 & Hk). split_and!; [by eapply lost_trans|congruence|].
  destruct Hl2 as (_ & _ & _ & Hsub & _). apply subseteq_dom in Hsub. rewrite E, dom_delete_L in Hsub.
  set_solver.
Qed.

Lemma notify_all_spec changed down s :
  map_Forall (fun fd sub => ipc_sock sub = fd) (subscriber_procs s) ->
  returns (notify_all changed down) s (fun _ s' =>
    lost s s' /\ forall k, k ∈ dom (subscriber_procs s') -> written s' k = written s k ++ tidings changed down).
Proof.
  intros Hkey. unfold notify_all_subscribers. apply returns_bind, returns_get.
  destruct (notify_keys_spec (ascending (dom (subscriber_procs s))) changed down s (NoDup_ascending _) Hkey)
    as (failed & s1 & E1 & Hs1 & _ & Hw1 & _).
  apply returns_bind. exists failed, s1. split; [done|]. eapply returns_mono.
  { apply remove_each_lost. by rewrite Hs1. }
  intros [] s2 (Hl & Hw & Hk). split; [by eapply lost_trans; [apply same_lost|]|]. intros k Hd.
  assert (k ∈ dom (subscriber_procs s)) as Hd1.
  { destruct Hl as (_ & _ & _ & Hsub & _). apply subseteq_dom in Hsub. rewrite Hs1 in Hsub. simpl in Hsub. set_solver. }
  destruct (Hw1 k) as [Hf|E]; [by apply elem_of_ascending|done|by destruct (Hk k Hf)|].
  rewrite <- E. unfold written. by rewrite Hw.
Qed.

(** ** The main thread's steps *)
Lemma inv_net D f s :
  scout_inv control D s -> map_Forall (fun ip i => ip_addr i = ip) (f (net_interfaces s)) ->
  scout_inv control D (set_net f s).
Proof. intros [] Hf. by split. Qed.

Lemma announce_ok s f changed down :
  scout_ok control s -> map_Forall (fun ip i => ip_addr i = ip) (f (net_interfaces s)) ->
  f (net_interfaces s) = foldl update (net_interfaces s) (tidings changed down) ->
  returns (notify_all changed down) (set_net f s) (fun _ => scout_ok control).
Proof.
  intros Hok Hf Hdom. pose proof (inv_net _ f s Hok Hf) as Hinv.
  eapply returns_mono; [by apply notify_all_spec, Hinv|]. intros [] s' [Hl Hw].
  pose proof Hl as (Hnet & _ & _ & Hsub & _). apply subseteq_dom in Hsub.
  unfold scout_ok. rewrite Hnet. eapply lost_ok; [exact Hinv|done|].
  intros k Hk. rewrite Hw, told_app by done.
  change (net_interfaces (set_net f s)) with (f (net_interfaces s)). rewrite Hdom.
  change (written (set_net f s) k) with (written s k). by rewrite (ok_told _ _ _ Hok k (Hsub k Hk)).
Qed.

Lemma iface_up_ok iface s :
  scout_ok control s -> returns (iface_up sizeof_msg write_rc iface) s (fun _ => scout_ok control).
Proof.
  intros Hok. unfold iface_up. apply returns_bind, returns_modify, announce_ok; [done| |done].
  apply map_Forall_insert_2; [done|apply Hok].
Qed.
Lemma iface_down_ok iface s :
  scout_ok control s -> returns (iface_down sizeof_msg write_rc iface) s (fun _ => scout_ok control).
Proof.
  intros Hok. unfold iface_down. apply returns_bind, returns_modify, announce_ok; [done| |done].
  apply map_Forall_delete, Hok.
Qed.
Lemma emulate_slice_ok slice t c w s :
  ip_addr c <> ip_addr w -> scout_ok control s ->
  returns (emulate_slice sizeof_msg write_rc slice t c w) s (fun _ => scout_ok control).
Proof.
  intros Hne Hok. unfold emulate_slice. destruct (bool_decide _); simpl; [|by apply returns_ret].
  apply returns_bind, returns_get, returns_bind, returns_modify.
  eapply returns_step; [apply announce_ok; [done| |]|intros [] s' Hs'; by apply returns_ret].
  - simpl. destruct (_ =? 0); apply map_Forall_insert_2; simpl; try done;
      [apply map_Forall_delete, Hok|apply map_Forall_insert_2; [done|apply Hok]].
  - unfold tidings. destruct (wifi_bw_up slice =? 0) eqn:Ew; cbn [app]; [|by rewrite app_nil_r].
    destruct (bool_decide _) eqn:E; cbn.
    + by rewrite delete_insert_ne.
    + apply bool_decide_eq_false, eq_None_not_Some in E. cbn in E. by rewrite delete_id.
Qed.

(** ** The listener *)
(** What is written to others. *)
Definition only_to (fd : Z) (s s' : scout) : Prop := forall k, k <> fd -> written s' k = written s k.

Lemma init_subscriber_spec fd s :
  returns (init_subscriber sizeof_msg write_rc fd) s (fun rc s' =>
    same_but_written s s' /\ only_to fd s s' /\
    (0 <= rc -> written s' fd = written s fd ++ tidings (iface_list (net_interfaces s)) [])).
Proof.
  unfold init_subscriber. apply returns_bind, returns_get.
  destruct (notify_subscriber_spec fd (iface_list (net_interfaces s)) [] s) as (rc & s' & E & ? & ? & ?).
  by exists rc, s'.
Qed.

(** A connection that does not stay: nothing but what was written to it is different. *)
Definition served_only (fd : Z) (s s' : scout) : Prop :=
  net_interfaces s' = net_interfaces s /\ subscriber_procs s' = subscriber_procs s /\
  active_fds s' = active_fds s /\ maxfd s' = maxfd s /\ open_socks s' = open_socks s /\ only_to fd s s'.
(** One that subscribes. *)
Definition subscribed (fd pid : Z) (s s' : scout) : Prop :=
  net_interfaces s' = net_interfaces s /\ subscriber_procs s' = <[fd := Sub fd pid]> (subscriber_procs s) /\
  active_fds s' = {[fd]} ∪ active_fds s /\ maxfd s' = Z.max fd (maxfd s) /\
  open_socks s' = {[fd]} ∪ open_socks s /\ only_to fd s s' /\
  written s' fd = tidings (iface_list (net_interfaces s)) [].

Definition opened (fd : Z) (s : scout) : scout :=
  set_written (fun w => <[fd := []]> w) (set_open (fun X => {[fd]} ∪ X) s).
Lemma opened_only fd s : only_to fd s (opened fd s).
Proof. intros k Hk. unfold written, opened; simpl. by rewrite lookup_insert_ne. Qed.
Lemma close_served fd s s' :
  fd ∉ open_socks s -> same_but_written (opened fd s) s' -> only_to fd s s' ->
  served_only fd s (set_open (fun X => X ∖ {[fd]}) s').
Proof. intros Hfd -> Ho. unfold served_only; simpl. split_and!; try done. set_solver. Qed.

Lemma subscribe_spec fd pid s :
  fd ∉ open_socks s -> dom (subscriber_procs s) ⊆ open_socks s -> pid ∉ dom (subscriber_procs s) ->
  returns (subscribe sizeof_msg write_rc fd pid) (opened fd s) (fun _ s' =>
    served_only fd s s' \/ subscribed fd pid s s').
Proof.
  intros Hfd Hsub Hpid. unfold subscribe, subscribe_entry, subscribe_finish.
  assert (subscriber_procs s !! fd = None) as Hno by (apply not_elem_of_dom; set_solver).
  apply not_elem_of_dom in Hpid.
  apply returns_bind, returns_bind, returns_get. simpl. rewrite Hpid, Hno.
  apply returns_bind, returns_modify, returns_ret.
  eapply returns_step; [apply init_subscriber_spec|]. intros rc s1 (Hs & Ho & Hw).
  assert (only_to fd s s1) as Ho'.
  { intros k Hk. rewrite Ho by done. by apply (opened_only fd s). }
  destruct (rc <? 0) eqn:Hrc.
  - apply returns_bind, returns_modify, returns_modify. left. unfold served_only. rewrite Hs; simpl.
    split_and!; try done; [by rewrite delete_insert_id|set_solver].
  - apply returns_bind, returns_modify, returns_bind, returns_get, returns_modify. right.
    assert (written s1 fd = tidings (iface_list (net_interfaces s)) []) as Hw1.
    { rewrite Hw by lia. unfold written, opened; simpl. by rewrite lookup_insert_eq. }
    unfold subscribed. rewrite Hs; simpl. split_and!; try done. by rewrite alter_insert_eq.
Qed.

Lemma write_only fd m s :
  returns (write sizeof_msg write_rc fd m) s (fun _ s' => same_but_written s s' /\ only_to fd s s').
Proof.
  unfold write. apply returns_bind, returns_get.
  eapply returns_step with (P := fun _ s' => same_but_written s s' /\ only_to fd s s').
  - apply returns_when; [intros _; apply returns_modify|intros _; by destruct s].
    split; [done|]. intros k Hk. unfold written; simpl. by rewrite lookup_insert_ne.
  - intros [] s' H. by apply returns_ret.
Qed.

Definition asks_to_subscribe (r : read_result) : option Z :=
  match r with
  | Whole m => if (opcode m =? CMM_MSG_GET_IFACES) || (opcode m =? CMM_MSG_IS_IP_CONNECTED) then None else Some (msg_pid m)
  | Short => None
  end.
Definition is_whole (r : read_result) : bool := match r with Whole _ => true | Short => false end.

Lemma handle_connection_spec fd r s :
  fd ∉ open_socks s -> dom (subscriber_procs s) ⊆ open_socks s ->
  (forall pid, asks_to_subscribe r = Some pid -> pid ∉ dom (subscriber_procs s)) ->
  returns (handle_connection sizeof_msg write_rc fd r) s (fun served s' =>
    served = is_whole r /\ (served_only fd s s' \/ exists pid, subscribed fd pid s s')).
Proof.
  intros Hfd Hsub Hpid. unfold handle_connection. apply returns_bind, returns_modify, returns_bind, returns_modify.
  fold (opened fd s). destruct r as [m|]; simpl.
  2:{ apply returns_bind, returns_modify, returns_ret. split; [done|]. left.
      apply close_served; [done|by destruct s|apply opened_only]. }
  eapply returns_step with (P := fun _ s' => served_only fd s s' \/ exists pid, subscribed fd pid s s').
  2:{ intros [] s' H. by apply returns_ret. }
  simpl in Hpid. destruct (opcode m =? CMM_MSG_GET_IFACES); [|destruct (opcode m =? CMM_MSG_IS_IP_CONNECTED)]; simpl in Hpid.
  - unfold answer_get_ifaces. eapply returns_step; [apply init_subscriber_spec|]. intros rc s1 (Hs & Ho & _).
    eapply returns_step with (P := fun _ s' => same_but_written s1 s' /\ only_to fd s1 s').
    + apply returns_when; [intros _|intros _; by destruct s1].
      eapply returns_step; [apply write_only|]. intros rc' s' H. by apply returns_ret.
    + intros _ s2 [Hs2 Ho2]. apply returns_modify. left. apply close_served; [done|by eapply same_trans|].
      intros k Hk. rewrite Ho2, Ho by done. by apply opened_only.
  - unfold answer_is_connected. apply returns_bind, returns_get.
    eapply returns_step; [apply write_only|].
    intros _ s2 [Hs2 Ho2]. apply returns_modify. left. apply close_served; [done..|].
    intros k Hk. rewrite Ho2 by done. by apply opened_only.
  - eapply returns_mono; [by apply subscribe_spec, Hpid|]. intros _ s' [?|?]; [by left|right; eauto].
Qed.

Lemma served_ok fd s s' :
  fd ∉ open_socks s -> scout_ok control s -> served_only fd s s' -> scout_ok control s'.
Proof.
  intros Hfd [] (E1 & E2 & E3 & E4 & E5 & Ho). unfold scout_ok. split; rewrite ?E1, ?E2, ?E3, ?E4, ?E5; try done.
  intros k Hk. rewrite Ho; [auto|set_solver].
Qed.
Lemma subscribed_ok fd pid s s' :
  0 <= fd -> fd ∉ open_socks s -> scout_ok control s -> subscribed fd pid s s' -> scout_ok control s'.
Proof.
  intros H0 Hfd [] (E1 & E2 & E3 & E4 & E5 & Ho & Hw). unfold scout_ok.
  split; rewrite ?E1, ?E2, ?E3, ?E4, ?E5; try done.
  - by apply map_Forall_insert_2.
  - rewrite dom_insert_L. clear - ok_open0 Hfd ok_listens0. set_solver.
  - rewrite dom_insert_L. clear - ok_active0 Hfd. set_solver.
  - intros x. rewrite elem_of_union. intros [->%elem_of_singleton|Hx]; [lia|].
    specialize (ok_max0 x Hx); simpl in ok_max0. lia.
  - by apply elem_of_union_r.
  - by apply elem_of_union_r.
  - intros k. rewrite dom_insert, elem_of_union, elem_of_singleton. destruct (decide (k = fd)) as [->|Hne].
    + intros _. rewrite Hw. by apply told_ifaces.
    + intros [?|Hk]; [done|]. rewrite Ho; auto.
Qed.

Lemma lost_subscribers s s' : lost s s' -> subscriber_procs s' ⊆ subscriber_procs s.
Proof. intros H. apply H. Qed.

(** A subscriber that is served and leaves. *)
Lemma scan_one_ok D fd s :
  scout_inv control D s -> fd ∈ dom (subscriber_procs s) ->
  returns (remove_subscriber fd) s (fun _ s1 =>
    let s' := set_active (fun X => X ∖ {[fd]}) (maxfd s1) s1 in
    scout_inv control D s' /\ subscriber_procs s' = delete fd (subscriber_procs s) /\ net_interfaces s' = net_interfaces s).
Proof.
  intros Hok Hfd. eapply returns_mono; [by apply remove_subscriber_lost, Hok|].
  intros [] s1 (Hl & Hw & E). split_and!; [|done|apply Hl].
  assert (scout_inv control D s1) as [].
  { eapply lost_ok; [done..|]. intros k Hk. unfold written. rewrite Hw. apply Hok. rewrite E in Hk. set_solver. }
  split; simpl; try done.
  - set_solver.
  - intros x Hx. apply ok_max0. set_solver.
  - pose proof (ok_open _ _ _ Hok). set_solver.
Qed.

Lemma scan_ok D socks fds n s :
  scout_inv control D s ->
  scout_inv control D (snd (scan socks fds n s)) /\
  net_interfaces (snd (scan socks fds n s)) = net_interfaces s.
Proof.
  revert n s. induction socks as [|fd socks IH]; intros n s Hok; simpl; [done|].
  destruct (n =? 0); [done|]. destruct (bool_decide _); [|by apply IH].
  rewrite (M_bind_ret get _ s s s eq_refl). destruct (subscriber_procs s !! fd) eqn:E; [|done].
  apply elem_of_dom_2 in E. destruct (scan_one_ok D fd s Hok E) as ([] & s1 & E1 & Hok1 & _ & Hnet).
  rewrite (M_bind_ret _ _ _ _ _ E1), (M_bind_ret get _ s1 s1 s1 eq_refl).
  erewrite (M_bind_ret (modify _)) by done. destruct (IH (n - 1) _ Hok1) as [H1 H2]. split; [exact H1|].
  by rewrite H2.
Qed.

(** The descriptors it gets to, and whether one of them is nobody's. *)
Definition hits (socks : list Z) (fds : gset Z) : list Z := filter (fun fd => fd ∈ fds) socks.
Lemma scan_traps D socks fds n s :
  0 <= n -> NoDup socks -> scout_inv control D s ->
  (exists t, fst (scan socks fds n s) = Trap t) <->
  Exists (fun fd => fd ∉ dom (subscriber_procs s)) (take (Z.to_nat n) (hits socks fds)).
Proof.
  revert n s. induction socks as [|fd socks IH]; intros n s Hn Hnd Hok; simpl.
  { unfold hits. rewrite filter_nil, take_nil, Exists_nil. split; [by intros [? ?]|done]. }
  apply NoDup_cons in Hnd as [Hni Hnd].
  destruct (n =? 0) eqn:En.
  { replace (Z.to_nat n) with 0%nat by lia. rewrite take_0, Exists_nil. split; [by intros [? ?]|done]. }
  unfold hits. rewrite filter_cons. destruct (decide (fd ∈ fds)) as [Hin|Hin].
  2:{ rewrite bool_decide_false by done. by apply IH. }
  rewrite bool_decide_true by done. rewrite (M_bind_ret get _ s s s eq_refl).
  replace (Z.to_nat n) with (S (Z.to_nat (n - 1))) by lia. rewrite firstn_cons, Exists_cons.
  destruct (subscriber_procs s !! fd) eqn:E.
  - apply elem_of_dom_2 in E. destruct (scan_one_ok D fd s Hok E) as ([] & s1 & E1 & Hok1 & Esub & _).
    rewrite (M_bind_ret _ _ _ _ _ E1), (M_bind_ret get _ s1 s1 s1 eq_refl).
    erewrite (M_bind_ret (modify _)) by done. rewrite (IH (n - 1) _ ltac:(lia) Hnd Hok1), Esub.
    split; [intros H; right|intros [H|H]; [done|]].
    + rewrite Exists_exists in H |- *. destruct H as (x & Hx & Hs). exists x. split; [done|].
      rewrite dom_delete_L, elem_of_difference, elem_of_singleton in Hs.
      assert (x <> fd); [|tauto]. intros ->. apply Hni.
      apply elem_of_take in Hx as (k & Hk & _). apply list_elem_of_lookup_2, list_elem_of_filter in Hk. tauto.
    + eapply Exists_impl; [exact H|]. intros x. rewrite dom_delete_L, elem_of_difference. tauto.
  - split; [intros _; left; by apply not_elem_of_dom|]. intros _. by eexists.
Qed.

(** ** Rounds *)
(** select(2) reports descriptors that are watched and open; accept(2) gives one
    that is not; no process that subscribes has a descriptor in use for its identifier. *)
Definition round_ok (s : scout) (fds : gset Z) (a : accept_result) : Prop :=
  fds ⊆ active_fds s ∩ open_socks s /\
  match a with
  | AcceptError _ => True
  | Accepted fd r =>
      0 <= fd /\ fd ∉ open_socks s /\
      forall pid, asks_to_subscribe r = Some pid -> pid ∉ dom (subscriber_procs s)
  end.

Lemma handle_ok fd r s :
  0 <= fd -> fd ∉ open_socks s -> (forall pid, asks_to_subscribe r = Some pid -> pid ∉ dom (subscriber_procs s)) ->
  scout_ok control s ->
  returns (handle_connection sizeof_msg write_rc fd r) s (fun served s' =>
    served = is_whole r /\ scout_ok control s' /\ dom (subscriber_procs s) ⊆ dom (subscriber_procs s') /\
    active_fds s ⊆ active_fds s' ).
Proof.
  intros H0 Hfd Hpid Hok. eapply returns_mono.
  { apply handle_connection_spec; [done| |done]. pose proof (ok_open _ _ _ Hok). set_solver. }
  intros served s' [-> [H|[pid H]]].
  - split_and!; [done|by eapply served_ok| |]; destruct H as (_ & E1 & E2 & _); by rewrite ?E1, ?E2.
  - split_and!; [done|by eapply subscribed_ok| |]; destruct H as (_ & E1 & E2 & _);
      rewrite ?E1, ?E2, ?dom_insert_L; apply union_subseteq_r.
Qed.

Lemma bind_state {S A} (m : M S A) s (b : bool) : snd ((m ≫= fun _ => mret b) s) = snd (m s).
Proof. unfold mbind, M_bind. by destruct (m s) as [[] ?]. Qed.
Lemma bind_trap {S A} (m : M S A) s (b : bool) :
  (exists t, fst ((m ≫= fun _ => mret b) s) = Trap t) <-> (exists t, fst (m s) = Trap t).
Proof. unfold mbind, M_bind. destruct (m s) as [[] ?]; simpl; split; intros [? ?]; by eauto. Qed.

Lemma scan_all_ok fds n s : scout_ok control s -> scout_ok control (snd (scan_all fds n s)).
Proof.
  intros Hok. unfold scan_all. rewrite (M_bind_ret get _ s s s eq_refl).
  destruct (scan_ok _ (seqZ 0 (maxfd s + 1)) fds n s Hok) as [H E]. unfold scout_ok. by rewrite E.
Qed.
Abbreviation round := (listener_round control sizeof_msg write_rc).
Lemma round_keeps s fds a :
  scout_ok control s -> round_ok s fds a -> scout_ok control (snd (round fds a s)).
Proof.
  intros Hok [_ Ha]. unfold listener_round. destruct (bool_decide _).
  2:{ rewrite bind_state. by apply scan_all_ok. }
  destruct a as [e|fd r].
  - destruct (e =? EINVAL); [done|]. rewrite bind_state. by apply scan_all_ok.
  - destruct Ha as (H0 & Hfd & Hpid).
    destruct (handle_ok fd r s H0 Hfd Hpid Hok) as (served & s1 & E & _ & Hok1 & _).
    rewrite (M_bind_ret _ _ _ _ _ E). destruct (served && _); [done|]. rewrite bind_state. by apply scan_all_ok.
Qed.

(** Nothing but the listening descriptor is nobody's. *)
Lemma scan_all_traps fds n s :
  0 <= n -> scout_ok control s -> fds ⊆ {[control]} ∪ dom (subscriber_procs s) -> fds ⊆ active_fds s ->
  (exists t, fst (scan_all fds n s) = Trap t) <->
  control ∈ take (Z.to_nat n) (hits (seqZ 0 (maxfd s + 1)) fds).
Proof.
  intros Hn Hok Hfds _. unfold scan_all. rewrite (M_bind_ret get _ s s s eq_refl).
  rewrite (scan_traps (net_interfaces s)); [|done|apply NoDup_seqZ|done]. rewrite Exists_exists. split.
  - intros (x & Hx & Hs). assert (x ∈ fds) as Hin.
    { apply elem_of_take in Hx as (k & Hk & _). apply list_elem_of_lookup_2, list_elem_of_filter in Hk. tauto. }
    assert (x = control) as <- by set_solver. done.
  - intros H. exists control. split; [done|]. pose proof (ok_open _ _ _ Hok). set_solver.
Qed.

Lemma hits_all fds s : scout_ok control s -> fds ⊆ active_fds s -> hits (seqZ 0 (maxfd s + 1)) fds ≡ₚ elements fds.
Proof.
  intros Hok Hfds. apply NoDup_Permutation; [apply NoDup_filter, NoDup_seqZ|apply NoDup_elements|].
  intros x. unfold hits. rewrite list_elem_of_filter, elem_of_seqZ, elem_of_elements. split; [tauto|].
  intros Hx. split; [done|]. pose proof (ok_max _ _ _ Hok x (Hfds x Hx)); simpl in *. lia.
Qed.
Lemma hits_sorted n fds : StronglySorted Z.lt (hits (seqZ 0 n) fds).
Proof.
  unfold hits, seqZ. generalize (Z.to_nat n) 0%nat. intros k.
  induction k as [|k IH]; intros b; [constructor|]. rewrite <- cons_seq, fmap_cons, filter_cons.
  destruct (decide _); [|apply IH]. constructor; [apply IH|].
  apply Forall_forall. intros x [_ (y & -> & Hy%elem_of_seq)%list_elem_of_fmap]%list_elem_of_filter. lia.
Qed.

(** All but the last of a sorted list: what has something above it. *)
Lemma elem_of_all_but_last x (l : list Z) :
  StronglySorted Z.lt l -> x ∈ take (length l - 1) l <-> x ∈ l /\ exists y, y ∈ l /\ x < y.
Proof.
  induction 1 as [|a l Hs IH Ha].
  { simpl. rewrite elem_of_nil. tauto. }
  rewrite Forall_forall in Ha. destruct l as [|b l].
  { simpl. rewrite elem_of_nil, list_elem_of_singleton. split; [done|].
    intros (-> & y & ->%list_elem_of_singleton & ?). lia. }
  replace (length (a :: b :: l) - 1)%nat with (S (length (b :: l) - 1)) by (simpl; lia).
  rewrite firstn_cons, elem_of_cons, IH, (elem_of_cons _ x a). split.
  - intros [->|(Hx & y & Hy & ?)]; [|split; [by right|exists y; split; [by right|done]]].
    split; [by left|]. exists b. split; [right; left|apply Ha; left].
  - intros [[->|Hx] (y & [->|Hy]%elem_of_cons & ?)]; [by left|by left| |right; eauto].
    specialize (Ha x Hx). lia.
Qed.

(** Trapping: a round whose new connection comes with anything else that is ready
    after the listening descriptor, or brings no message. *)
Definition deadly (fds : gset Z) (a : accept_result) : Prop :=
  control ∈ fds /\
  match a with
  | AcceptError e => e <> EINVAL /\ exists fd, fd ∈ fds /\ control < fd
  | Accepted _ Short => True
  | Accepted _ (Whole _) => exists fd, fd ∈ fds /\ control < fd
  end.

Lemma control_reached fds s :
  scout_ok control s -> fds ⊆ active_fds s -> control ∈ fds ->
  (control ∈ take (Z.to_nat (Z.of_nat (size fds) - 1)) (hits (seqZ 0 (maxfd s + 1)) fds) <->
     exists fd, fd ∈ fds /\ control < fd) /\
  control ∈ take (Z.to_nat (Z.of_nat (size fds))) (hits (seqZ 0 (maxfd s + 1)) fds).
Proof.
  intros Hok Hfds Hc. pose proof (hits_all fds s Hok Hfds) as Hp. pose proof (hits_sorted (maxfd s + 1) fds) as Hs.
  assert (length (hits (seqZ 0 (maxfd s + 1)) fds) = size fds) as Hlen by (by rewrite Hp).
  assert (forall x, x ∈ hits (seqZ 0 (maxfd s + 1)) fds <-> x ∈ fds) as Hin.
  { intros x. by rewrite Hp, elem_of_elements. }
  split.
  - replace (Z.to_nat _) with (length (hits (seqZ 0 (maxfd s + 1)) fds) - 1)%nat by lia.
    rewrite elem_of_all_but_last by done. setoid_rewrite Hin. tauto.
  - rewrite take_ge by lia. by apply Hin.
Qed.

Lemma round_trap_iff s fds a :
  scout_ok control s -> round_ok s fds a -> (exists t, fst (round fds a s) = Trap t) <-> deadly fds a.
Proof.
  intros Hok [Hfds Ha].
  assert (fds ⊆ active_fds s) as Hact by set_solver.
  assert (fds ⊆ {[control]} ∪ dom (subscriber_procs s)) as Hown by (pose proof (ok_active _ _ _ Hok); set_solver).
  unfold listener_round, deadly. destruct (bool_decide _) eqn:Hc.
  2:{ apply bool_decide_eq_false in Hc. rewrite bind_trap, scan_all_traps by (done || lia). split; [|tauto].
      intros (k & Hk & _)%elem_of_take. by apply list_elem_of_lookup_2, list_elem_of_filter in Hk as []. }
  apply bool_decide_eq_true in Hc.
  assert (size fds <> 0%nat) by (intros Hz%size_empty_inv; set_solver).
  destruct a as [e|fd r].
  - destruct (Z.eqb_spec e EINVAL) as [->|He]; [split; [by intros [? ?]|tauto]|].
    rewrite bind_trap, scan_all_traps by (done || lia).
    destruct (control_reached fds s Hok Hact Hc) as [-> _]. tauto.
  - destruct Ha as (H0 & Hfd & Hpid).
    destruct (handle_ok fd r s H0 Hfd Hpid Hok) as (served & s1 & E & -> & Hok1 & Hsub & Hact1).
    rewrite (M_bind_ret _ _ _ _ _ E).
    assert (fds ⊆ active_fds s1) as Hact2 by (etrans; [exact Hact|done]).
    destruct (control_reached fds s1 Hok1 Hact2 Hc) as [H1 H2].
    destruct r as [m|]; simpl.
    + destruct (Z.eqb_spec (Z.of_nat (size fds) - 1) 0) as [Hz|Hz].
      * rewrite Hz, take_0, elem_of_nil in H1. split; [by intros [? ?]|]. intros [_ Hex]. tauto.
      * rewrite bind_trap, scan_all_traps; [tauto|lia|done|set_solver|done].
    + rewrite bind_trap, scan_all_traps; [tauto|lia|done|set_solver|done].
Qed.

(** ** Histories *)
Inductive scout_event :=
| Listener (fds : gset Z) (a : accept_result)
| Changed (iface : net_interface) (down : bool)
| Command (cmd : string) (bg_iface : net_interface)
| Replayed (slice : trace_slice) (emu_start : timeval) (cellular wifi : net_interface).

Definition scout_step (e : scout_event) (s : scout) : scout :=
  match e with
  | Listener fds a => snd (round fds a s)
  | Changed iface down => snd (updateNetwork sizeof_msg write_rc iface down s)
  | Command cmd bg => snd (control_command sizeof_msg write_rc cmd bg s)
  | Replayed slice t c w => snd (emulate_slice sizeof_msg write_rc slice t c w s)
  end.
Definition event_ok (s : scout) (e : scout_event) : Prop :=
  match e with
  | Listener fds a => round_ok s fds a
  | Changed _ _ | Command _ _ => True
  | Replayed _ _ c w => ip_addr c <> ip_addr w
  end.
Fixpoint history_ok (s : scout) (es : list scout_event) : Prop :=
  match es with
  | [] => True
  | e :: es => event_ok s e /\ history_ok (scout_step e s) es
  end.
Definition scout_run (s : scout) (es : list scout_event) : scout := foldl (fun s e => scout_step e s) s es.

Lemma returns_snd {A} (m : M scout A) s (Q : scout -> Prop) : returns m s (fun _ => Q) -> Q (snd (m s)).
Proof. intros (a & s' & E & H). by rewrite E. Qed.
Lemma run_ok s es : scout_ok control s -> history_ok s es -> scout_ok control (scout_run s es).
Proof.
  revert s. induction es as [|e es IH]; intros s Hok; [done|]. simpl. intros [He Hes]. apply IH; [|done].
  destruct e as [fds a|iface [|]|cmd bg|slice t c w]; simpl.
  - by apply round_keeps.
  - exact (returns_snd _ _ _ (iface_down_ok iface s Hok)).
  - exact (returns_snd _ _ _ (iface_up_ok iface s Hok)).
  - unfold control_command. destruct (bool_decide _); [exact (returns_snd _ _ _ (iface_down_ok bg s Hok))|].
    destruct (bool_decide _); [exact (returns_snd _ _ _ (iface_up_ok bg s Hok))|done].
  - by apply returns_snd, emulate_slice_ok.
Qed.
Lemma start_ok net :
  0 <= control -> map_Forall (fun ip i => ip_addr i = ip) net -> scout_ok control (scout_start control net).
Proof. clear Hsize Hwhole write_rc sizeof_msg. intros H0 Hnet. split; simpl; try done; try set_solver. Qed.
End told.

(** A trace of one slice is never replayed; a longer one never fails, and its last
    slice is never emulated. *)
Lemma replay_single turns : replay turns 1 0 = Ret [].
Proof. induction turns as [|turns IH]; [done|]. simpl. by rewrite IH. Qed.
Lemma replay_all turns n cur :
  (S cur <= n)%nat -> exists l, replay turns n cur = Ret l /\ Forall (fun i => S i < n)%nat l.
Proof.
  revert cur. induction turns as [|turns IH]; intros cur Hc; [by exists []|]. simpl. unfold replay_turn.
  case_bool_decide as E; simpl.
  - destruct (IH 0%nat ltac:(lia)) as (l & -> & Hl). by exists l.
  - rewrite bool_decide_true by lia. simpl. destruct (IH (S cur) ltac:(lia)) as (l & -> & Hl).
    exists (cur :: l). split; [done|]. constructor; [lia|done].
Qed.

(** C29: Every subscriber knows the interfaces there are.  However rounds of the listener thread,
    changes of the network, commands and slices of a trace follow each other, and whichever
    writes fail: every process in the scout's table is filed under its open connection, and
    what the messages written to that connection say last of each interface, its bandwidths,
    round-trip time and type included, is exactly what the scout holds; in particular the
    subscriber, whose set keeps what it was first told of an interface, has the scout's
    addresses.  A subscriber that could not be told has been dropped.  A round and a change are each one
    step, so a change in the middle of a subscription is left out ([update_missed]); no
    process that subscribes has a descriptor in use as its identifier, and the two
    interfaces of a trace differ in address ([history_ok]). *)
Theorem subscribers_in_step control sizeof_msg write_rc net es fd sub :
  0 < sizeof_msg -> (forall w fd m, write_rc w fd m < 0 \/ write_rc w fd m = sizeof_msg) ->
  0 <= control -> map_Forall (fun ip i => ip_addr i = ip) net ->
  history_ok control sizeof_msg write_rc (scout_start control net) es ->
  let s := scout_run control sizeof_msg write_rc (scout_start control net) es in
  subscriber_procs s !! fd = Some sub ->
  ipc_sock sub = fd /\ fd ∈ open_socks s /\ told (written s fd) = net_interfaces s /\
  dom (knows (written s fd)) = dom (net_interfaces s).
Proof.
  intros Hsize Hwhole H0 Hnet Hes s Hfd.
  assert (scout_ok control s) as Hok by (by apply (run_ok control sizeof_msg write_rc); [..|apply start_ok|]).
  pose proof (ok_key _ _ _ Hok _ _ Hfd) as Hk. apply elem_of_dom_2 in Hfd.
  pose proof (ok_told _ _ _ Hok _ Hfd) as Ht. split_and!; [done| |done|by rewrite dom_knows, Ht].
  pose proof (ok_open _ _ _ Hok). set_solver.
Qed.

(** C37: What kills the listener thread.  A round in a state that a history led to
    ends in the assertion that "never happens" just when the listening descriptor is ready
    and either the new connection brought no whole message, or something else is ready whose
    descriptor is above the listening one and the thread goes on (it does unless accept(2)
    fails with EINVAL). *)
Theorem connections_kill_the_scout control sizeof_msg write_rc net es fds a :
  0 < sizeof_msg -> (forall w fd m, write_rc w fd m < 0 \/ write_rc w fd m = sizeof_msg) ->
  0 <= control -> map_Forall (fun ip i => ip_addr i = ip) net ->
  history_ok control sizeof_msg write_rc (scout_start control net) es ->
  let s := scout_run control sizeof_msg write_rc (scout_start control net) es in
  round_ok s fds a ->
  (exists t, fst (listener_round control sizeof_msg write_rc fds a s) = Trap t) <->
  control ∈ fds /\
  match a with
  | Accepted _ Short => True
  | Accepted _ (Whole _) => exists fd, fd ∈ fds /\ control < fd
  | AcceptError e => e <> EINVAL /\ exists fd, fd ∈ fds /\ control < fd
  end.
Proof.
  intros Hsize Hwhole H0 Hnet Hes s Hr. apply round_trap_iff; [done..| |done].
  by apply (run_ok control sizeof_msg write_rc); [..|apply start_ok|].
Qed.

(** ** A small history: a subscription, a network that comes and one that goes, a
    subscriber that cannot be told. *)
Definition wifi0 : net_interface := NetInterface 10 100 100 20 1.
Definition cell0 : net_interface := NetInterface 11 50 50 90 2.
Definition net0 : gmap Z net_interface := {[10 := wifi0]}.
Definition subscribe_msg (pid : Z) : cmm_msg := Msg CMM_MSG_SUBSCRIBE 0 pid zero_iface.
Definition writes0 : gmap Z (list cmm_msg) -> Z -> cmm_msg -> Z := fun w fd _ =>
  if (fd =? 5) && bool_decide (length (default [] (w !! fd)) = 2%nat) then -1 else 40.
Definition history0 : list scout_event :=
  [Listener {[3]} (Accepted 4 (Whole (subscribe_msg 500)));
   Listener {[3]} (Accepted 5 (Whole (subscribe_msg 501)));
   Changed cell0 false; Changed wifi0 true].

Lemma writes0_whole w fd m : writes0 w fd m < 0 \/ writes0 w fd m = 40.
Proof. unfold writes0. destruct (_ && _); [by left|by right]. Qed.
Lemma net0_filed : map_Forall (fun ip i => ip_addr i = ip) net0.
Proof. by apply map_Forall_singleton. Qed.
Ltac by_evaluation := apply (bool_decide_eq_true_1 _); vm_compute; reflexivity.
Ltac this_round := split; [by_evaluation|split_and!; [done|by_evaluation|intros ? [= <-]; by_evaluation]].
Lemma history0_ok : history_ok 3 40 writes0 (scout_start 3 net0) history0.
Proof. split; [|split; [|done]]; this_round. Qed.

Lemma subscribers_in_step_witness :
  let s := scout_run 3 40 writes0 (scout_start 3 net0) history0 in
  (ipc_sock (Sub 4 500) = 4 /\ 4 ∈ open_socks s /\ told (written s 4) = net_interfaces s /\
   dom (knows (written s 4)) = dom (net_interfaces s)) /\
  subscriber_procs s !! 5 = None /\ dom (net_interfaces s) = {[11]}.
Proof.
  split; [|split; by vm_compute].
  apply (subscribers_in_step 3 40 writes0 net0 history0 4 (Sub 4 500));
    [done|apply writes0_whole|done|apply net0_filed|apply history0_ok|by vm_compute].
Defined.

Lemma connections_kill_the_scout_witness :
  let s := scout_run 3 40 writes0 (scout_start 3 net0) history0 in
  (exists t, fst (listener_round 3 40 writes0 {[3; 4]} (Accepted 6 (Whole (subscribe_msg 502))) s) = Trap t) /\
  (exists t, fst (listener_round 3 40 writes0 {[3]} (Accepted 6 Short) s) = Trap t).
Proof.
  split; eapply (connections_kill_the_scout 3 40 writes0 net0 history0);
    try done; try apply writes0_whole; try apply net0_filed; try apply history0_ok.
  - this_round.
  - split; [set_solver|]. exists 4. split; [set_solver|lia].
  - split; [by_evaluation|split_and!; [done|by_evaluation|done]].
Defined.

(** ** An update in the middle of a subscription

    Between the entry in the table and the end of the subscription the entry's
    descriptor is 0, and the main thread does not wait for the entry's lock when it
    notifies: what it has to tell goes to descriptor 0. *)
Definition interrupted_subscription (update : M scout unit) (fd pid : Z) : M scout unit :=
  modify (set_open (fun X => {[fd]} ∪ X));;
  key ← subscribe_entry fd pid;
  rc ← init_subscriber 40 writes0 fd;
  update;;
  subscribe_finish key fd rc.
Lemma update_missed :
  let s := snd (interrupted_subscription (iface_up 40 writes0 cell0) 4 500 (scout_start 3 net0)) in
  subscriber_procs s !! 4 = Some (Sub 4 500) /\ dom (knows (written s 4)) = {[10]} /\ dom (net_interfaces s) = {[10; 11]}.
Proof. by vm_compute. Qed.
