(* ===== verification/Shmem.v ===== *)
(** The memory shared with the other processes that use the library and with
    the scout: libcmm_shmem.cpp.

    For every pair of addresses the shared segment holds the time of the last
    foreground data, and it holds the processes.  Every process keeps a table of
    all connections on a pair, its own and those of the others, which it gets as
    duplicated descriptors; through them it sees how many bytes wait on a network
    altogether.  A connection is announced by two datagrams, one that says what it is and
    one that carries the descriptor (libancillary/).  [dups] are the duplicates
    that are open; [new_fd] is the number the kernel gives the next one, if it has one.  Whether a
    datagram can be sent is a parameter.  The operations are those between
    ipc_shmem_init and ipc_shmem_deinit; a child of fork(2) is not modelled, nor is the
    build for Android, where the functions do nothing. *)

From S2P Require Import Prelude.

(** [struct iface_pair]: local and remote address. *)
Definition iface_pair : Type := Z * Z.
(** The order of [proc_sock_info] looks at the process and its descriptor only;
    the local one is the value. *)
Definition proc_sock : Type := Z * Z.
Definition sock_set : Type := gmap proc_sock Z.

Record fd_sharing_packet := Packet {
  pk_ifaces : iface_pair;
  pk_pid : Z;
  pk_remote_fd : Z;
  pk_remove_fd : bool
}.

(** What is sent to another process: a packet, or one byte that carries a
    descriptor. *)
Inductive datagram :=
| Header (p : fd_sharing_packet)
| Descriptor (fd : Z).

(** FDSharingThread: about to receive a packet, or the descriptor that belongs to
    the packet it has received. *)
Inductive fd_thread :=
| Ready
| Awaiting (p : fd_sharing_packet)
| Ended.

Record shmem := Shmem {
  fg_data_map : gmap iface_pair Z;         (* last_fg_tv_sec *)
  intnw_pids : gset Z;
  all_intnw_csockets : gmap iface_pair sock_set;
  fd_sharing_thread : fd_thread;
  dups : gset Z;
  sent : list (Z * datagram)
}.

Definition set_fg_data f (s : shmem) : shmem := Shmem (f (fg_data_map s)) (intnw_pids s)
  (all_intnw_csockets s) (fd_sharing_thread s) (dups s) (sent s).
Definition set_pids f (s : shmem) : shmem := Shmem (fg_data_map s) (f (intnw_pids s))
  (all_intnw_csockets s) (fd_sharing_thread s) (dups s) (sent s).
Definition set_csockets f (s : shmem) : shmem := Shmem (fg_data_map s) (intnw_pids s)
  (f (all_intnw_csockets s)) (fd_sharing_thread s) (dups s) (sent s).
Definition set_thread t (s : shmem) : shmem := Shmem (fg_data_map s) (intnw_pids s)
  (all_intnw_csockets s) t (dups s) (sent s).
Definition set_dups f (s : shmem) : shmem := Shmem (fg_data_map s) (intnw_pids s)
  (all_intnw_csockets s) (fd_sharing_thread s) (f (dups s)) (sent s).
Definition add_sent d (s : shmem) : shmem := Shmem (fg_data_map s) (intnw_pids s)
  (all_intnw_csockets s) (fd_sharing_thread s) (dups s) (sent s ++ [d]).

(** ** get_unsent_bytes of common.cpp

    [linux]: the macro LINUX, which nothing in the build defines.  The answers of
    ioctl(2) and getsockopt(2) for a descriptor, or their errors. *)
Definition get_unsent_bytes (linux : bool) (siocoutq tcpi_unacked : Z -> option Z) (fd : Z) : Z :=
  if linux then
    match siocoutq fd with
    | None => -1
    | Some bytes_in_send_buffer =>
        match tcpi_unacked fd with
        | None => bytes_in_send_buffer
        | Some unacked => to_int (bytes_in_send_buffer - unacked)
        end
    end
  else 0.

Section shmem.
Context (self : Z).                                        (* getpid() *)
Context (send_ok : shmem -> Z -> datagram -> bool).
Context (new_fd : gset Z -> option Z).

Definition close_dup (fd : Z) : M shmem unit := modify (set_dups (fun X => X ∖ {[fd]})).
Fixpoint close_dups (fds : list Z) : M shmem unit :=
  match fds with [] => mret tt | fd :: fds => close_dup fd;; close_dups fds end.

(** The set of a pair; [operator[]] makes an empty one. *)
Definition socks_on (i : iface_pair) (s : shmem) : sock_set := default ∅ (all_intnw_csockets s !! i).
Definition make_entry (i : iface_pair) (m : gmap iface_pair sock_set) : gmap iface_pair sock_set :=
  match m !! i with Some _ => m | None => <[i := ∅]> m end.

Definition ipc_add_iface_pair (i : iface_pair) : M shmem bool :=
  s ← get;
  match fg_data_map s !! i with
  | Some _ => mret false
  | None => modify (set_fg_data <[i := 0]>);; modify (set_csockets (make_entry i));; mret true
  end.

(** The duplicates in a set; this process's own sockets are not. *)
Definition foreign (m : sock_set) : list Z := (map_to_list m) ≫= fun x => if x.1.1 =? self then [] else [x.2].

Definition ipc_remove_iface_pair (i : iface_pair) : M shmem bool :=
  s ← get;
  match fg_data_map s !! i with
  | None => mret false
  | Some _ =>
      modify (set_fg_data (delete i));;
      (match all_intnw_csockets s !! i with
       | Some m => close_dups (foreign m);; modify (set_csockets (delete i))
       | None => mret tt
       end);;
      mret true
  end.

Definition insert_sock (k : proc_sock) (fd : Z) (m : sock_set) : sock_set :=
  match m !! k with Some _ => m | None => <[k := fd]> m end.

Definition add_or_remove_csocket (i : iface_pair) (pid remote_fd local_fd : Z) (remove_fd : bool) : M shmem unit :=
  s ← get;
  (match all_intnw_csockets s !! i with
   | None => ipc_add_iface_pair i
   | Some _ => mret false
   end);;
  if remove_fd then
    s ← get;
    (match socks_on i s !! (pid, remote_fd) with
     | Some fd => when (negb (pid =? self)) (close_dup fd)
     | None => mret tt
     end);;
    modify (set_csockets (fun m => <[i := delete (pid, remote_fd) (default ∅ (m !! i))]> m))
  else
    modify (set_csockets (fun m => <[i := insert_sock (pid, remote_fd) local_fd (default ∅ (m !! i))]> m)).

(** ** Processes *)
Definition add_proc (pid : Z) : M shmem unit := modify (set_pids (fun X => {[pid]} ∪ X)).

Definition of_proc (pid : Z) (x : proc_sock * Z) : bool := (x.1.1 =? pid) && negb (pid =? self).
Definition remove_proc (pid : Z) : M shmem unit :=
  s ← get;
  close_dups (map_to_list (all_intnw_csockets s) ≫= fun e : iface_pair * sock_set =>
              map_to_list e.2 ≫= fun x => if of_proc pid x then [x.2] else []);;
  modify (set_csockets (fmap (filter (fun x : proc_sock * Z => of_proc pid x = false))));;
  modify (set_pids (fun X => X ∖ {[pid]})).

(** The first process makes the segment; without its socket the thread ends at
    once. *)
Definition ipc_shmem_init (create bind_ok : bool) : M shmem unit :=
  when create (modify (set_fg_data (fun _ => ∅));; modify (set_pids (fun _ => ∅)));;
  modify (set_csockets (fun _ => ∅));;
  add_proc self;;
  modify (set_thread (if bind_ok then Ready else Ended));;
  s ← get;
  modify (set_csockets (fun m => m ∪ fmap (fun _ : Z => ∅) (fg_data_map s))).

Definition ipc_shmem_deinit (creator : bool) : M shmem unit :=
  modify (set_thread Ended);;
  remove_proc self;;
  modify (set_csockets (fun _ => ∅));;
  when creator (modify (set_fg_data (fun _ => ∅));; modify (set_pids (fun _ => ∅))).

(** ** Telling the others *)
Definition send_datagram (target : Z) (d : datagram) : M shmem bool :=
  s ← get;
  if send_ok s target d then modify (add_sent (target, d));; mret true else mret false.

Definition send_fd_sharing_packet (p : fd_sharing_packet) (target : Z) : M shmem bool :=
  ok ← send_datagram target (Header p);
  if ok : bool then
    if pk_remove_fd p then mret true else send_datagram target (Descriptor (pk_remote_fd p))
  else mret false.

Definition send_local_csocket_fd (i : iface_pair) (target local_fd : Z) (remove_fd : bool) : M shmem bool :=
  send_fd_sharing_packet (Packet i self local_fd remove_fd) target.

(** The processes that could not be reached. *)
Fixpoint send_each (i : iface_pair) (local_fd : Z) (remove_fd : bool) (pids : list Z) : M shmem (list Z) :=
  match pids with
  | [] => mret []
  | pid :: pids =>
      ok ← (if pid =? self then mret true else send_local_csocket_fd i pid local_fd remove_fd);
      failed ← send_each i local_fd remove_fd pids;
      mret (if (ok : bool) then failed else pid :: failed)
  end.
Fixpoint remove_each (pids : list Z) : M shmem unit :=
  match pids with [] => mret tt | pid :: pids => remove_proc pid;; remove_each pids end.

Definition send_csocket_to_all_pids (i : iface_pair) (local_fd : Z) (remove_fd : bool) : M shmem bool :=
  s ← get;
  failed ← send_each i local_fd remove_fd (ascending (intnw_pids s));
  remove_each failed;;
  mret true.

Definition ipc_add_csocket (i : iface_pair) (local_fd : Z) : M shmem bool :=
  add_or_remove_csocket i self local_fd local_fd false;; send_csocket_to_all_pids i local_fd false.
Definition ipc_remove_csocket (i : iface_pair) (local_fd : Z) : M shmem bool :=
  add_or_remove_csocket i self local_fd local_fd true;; send_csocket_to_all_pids i local_fd true.

(** ** FDSharingThread: one datagram arrives

    A datagram of another length than a packet ends the thread; ancil_recv_fd
    takes any datagram, and answers -1 for one that carries no descriptor and when
    there is no number for it. *)
Definition share (p : fd_sharing_packet) (fd : Z) : M shmem unit :=
  add_or_remove_csocket (pk_ifaces p) (pk_pid p) (pk_remote_fd p) fd (pk_remove_fd p);;
  modify (set_thread Ready).

Definition receive_datagram (d : datagram) : M shmem unit :=
  s ← get;
  match fd_sharing_thread s, d with
  | Ready, Header p =>
      if pk_pid p =? -1 then modify (set_thread Ended)
      else if pk_remove_fd p then share p (-1)
      else modify (set_thread (Awaiting p))
  | Ready, Descriptor _ => modify (set_thread Ended)
  | Awaiting p, Descriptor _ =>
      match new_fd (dups s) with
      | Some fd => modify (set_dups (fun X => {[fd]} ∪ X));; share p fd
      | None => share p (-1)
      end
  | Awaiting p, Header _ => share p (-1)
  | Ended, _ => mret tt
  end.

Fixpoint receive_all (ds : list datagram) : M shmem unit :=
  match ds with [] => mret tt | d :: ds => receive_datagram d;; receive_all ds end.

(** ** What it is for *)
Definition ipc_last_fg_tv_sec (i : iface_pair) (s : shmem) : Z := default 0 (fg_data_map s !! i).
Definition ipc_set_last_fg_tv_sec (i : iface_pair) (secs : Z) : M shmem unit :=
  modify (set_fg_data (alter (fun _ => to_int secs) i)).
Definition ipc_update_fg_timestamp (i : iface_pair) (now : timeval) : M shmem unit :=
  ipc_set_last_fg_tv_sec i (tv_sec now).

(** [unsent]: get_unsent_bytes of common.cpp. *)
Definition count_bytes (unsent : Z -> Z) (bytes fd : Z) : Z :=
  if unsent fd <? 0 then bytes else to_size_t (bytes + unsent fd).
Definition ipc_total_bytes_inflight (unsent : Z -> Z) (i : iface_pair) (s : shmem) : Z :=
  match fg_data_map s !! i, all_intnw_csockets s !! i with
  | Some _, Some m => foldl (count_bytes unsent) 0 (snd <$> map_to_list m)
  | _, _ => 0
  end.
End shmem.
