(* ===== verification/ShmemSpec.v ===== *)
(** What the processes know of each other's connections: libcmm_shmem.cpp.

    The duplicates that are open are those of the table ([shared_descriptors]);
    whoever receives all announcements of a process has its connections in the
    table ([announced_connections]), unless two processes announce at once
    ([interleaved_announcements]). *)

From S2P Require Import Prelude Shmem.

Lemma M_bind_assoc {S A B C} (m : M S A) (f : A -> M S B) (g : B -> M S C) s :
  ((m ≫= f) ≫= g) s = (m ≫= fun a => f a ≫= g) s.
Proof. unfold mbind, M_bind. by destruct (m s) as [[]]. Qed.

Section spec.
Context (self : Z).
Implicit Types (s : shmem) (i : iface_pair) (k : proc_sock) (fd : Z).

Abbreviation add_or_remove_csocket := (add_or_remove_csocket self).
Abbreviation remove_proc := (remove_proc self).

(** ** The table, entry by entry *)
Definition entry s i k : option Z := socks_on i s !! k.

Lemma set_dups_ext f g s : f (dups s) ≡ g (dups s) -> set_dups f s = set_dups g s.
Proof. unfold set_dups. intros H. by rewrite (leibniz_equiv _ _ H). Qed.

Lemma close_dups_eq fds s : close_dups fds s = (Ret tt, set_dups (fun X => X ∖ list_to_set fds) s).
Proof.
  revert s. induction fds as [|fd fds IH]; intros s; simpl.
  - unfold mret, M_ret. f_equal. trans (set_dups id s); [by destruct s|]. apply set_dups_ext. set_solver.
  - unfold mbind, M_bind, close_dup, modify. rewrite IH. f_equal.
    trans (set_dups (fun X => X ∖ {[fd]} ∖ list_to_set fds) s); [done|]. apply set_dups_ext. set_solver.
Qed.

(** What an operation may do to the table and the descriptors: drop some foreign
    entries with their duplicates, ... *)
Record drops (P : iface_pair -> proc_sock -> Prop) s s' : Prop := {
  dr_gone i k : P i k -> entry s' i k = None;
  dr_kept i k : ~ P i k -> entry s' i k = entry s i k;
  dr_dups fd : fd ∈ dups s' <->
    fd ∈ dups s /\ ~ exists i k, P i k /\ k.1 <> self /\ entry s i k = Some fd
}.

(** ... or make one. *)
Record gains i k fd s s' : Prop := {
  ga_new : entry s' i k = Some (default fd (entry s i k));
  ga_kept i' k' : (i', k') <> (i, k) -> entry s' i' k' = entry s i' k';
  ga_dups : dups s' = dups s
}.

(** [s'] has the entries and the duplicates of [s]. *)
Definition same_table s s' : Prop := dups s' = dups s /\ forall i k, entry s' i k = entry s i k.

(** The fields it does not touch. *)
Record frame s s' : Prop := {
  fr_pids : intnw_pids s' = intnw_pids s;
  fr_thread : fd_sharing_thread s' = fd_sharing_thread s;
  fr_sent : sent s' = sent s
}.

Lemma entry_update (f : sock_set -> sock_set) i s i' k :
  entry (set_csockets (fun m => <[i := f (default ∅ (m !! i))]> m) s) i' k =
  if decide (i' = i) then f (socks_on i s) !! k else entry s i' k.
Proof.
  unfold entry, socks_on. simpl. destruct (decide (i' = i)) as [->|Hi].
  - by rewrite lookup_insert_eq.
  - by rewrite lookup_insert_ne.
Qed.

Lemma lookup_insert_sock k fd m k' :
  insert_sock k fd m !! k' = if decide (k' = k) then Some (default fd (m !! k)) else m !! k'.
Proof.
  unfold insert_sock. destruct (decide (k' = k)) as [->|], (m !! k) eqn:E; simpl.
  - done.
  - apply lookup_insert_eq.
  - done.
  - by apply lookup_insert_ne.
Qed.

Lemma remove_proc_spec pid s :
  exists s', remove_proc pid s = (Ret tt, s') /\ drops (fun _ k => k.1 = pid /\ pid <> self) s s' /\
    intnw_pids s' = intnw_pids s ∖ {[pid]} /\ fd_sharing_thread s' = fd_sharing_thread s /\ sent s' = sent s.
Proof.
  unfold Shmem.remove_proc. unfold mbind at 1, M_bind at 1. simpl.
  unfold mbind at 1, M_bind at 1. rewrite close_dups_eq. eexists. split; [done|].
  split; [|done]. split; simpl.
  - intros i k [<- Hp]. unfold entry, socks_on. simpl. rewrite lookup_fmap.
    destruct (all_intnw_csockets s !! i) as [m|]; [|done]. simpl. apply map_lookup_filter_None.
    right. intros x _. unfold of_proc. simpl. rewrite Z.eqb_refl. apply Z.eqb_neq in Hp. by rewrite Hp.
  - intros i k Hk. unfold entry, socks_on. simpl. rewrite lookup_fmap.
    destruct (all_intnw_csockets s !! i) as [m|]; [|done]. simpl.
    destruct (m !! k) as [x|] eqn:E.
    + apply map_lookup_filter_Some. split; [done|]. unfold of_proc. simpl.
      destruct (Z.eqb_spec k.1 pid), (Z.eqb_spec pid self); naive_solver.
    + apply map_lookup_filter_None. by left.
  - intros fd. rewrite elem_of_difference, elem_of_list_to_set, list_elem_of_bind.
    apply and_iff_compat_l, not_iff_compat. split.
    + intros ([i m] & H & Hm). apply elem_of_map_to_list in Hm. apply list_elem_of_bind in H as ([k x] & H & Hx).
      apply elem_of_map_to_list in Hx. simpl in *. unfold of_proc in H. simpl in H.
      destruct (Z.eqb_spec k.1 pid) as [Ek|]; simpl in H; [|set_solver].
      destruct (Z.eqb_spec pid self) as [|Ep]; simpl in H; [set_solver|].
      apply list_elem_of_singleton in H as ->. exists i, k. unfold entry, socks_on. rewrite Hm. simpl.
      split_and!; [done|done|by subst|done].
    + intros (i & k & [Ek Ep] & _ & He). unfold entry, socks_on in He.
      destruct (all_intnw_csockets s !! i) as [m|] eqn:Em; [|done]. simpl in He.
      exists (i, m). split; [|by apply elem_of_map_to_list]. apply list_elem_of_bind. exists (k, fd).
      split; [|by apply elem_of_map_to_list]. unfold of_proc. simpl. rewrite Ek, Z.eqb_refl.
      apply Z.eqb_neq in Ep. rewrite Ep. set_solver.
Qed.

Lemma ipc_remove_iface_pair_eq i s : exists s', ipc_remove_iface_pair self i s = (Ret (bool_decide (is_Some (fg_data_map s !! i))), s') /\
  match fg_data_map s !! i with
  | None => s' = s
  | Some _ => drops (fun i' _ => i' = i) s s' /\ fg_data_map s' = delete i (fg_data_map s) /\ frame s s'
  end.
Proof.
  unfold ipc_remove_iface_pair. unfold mbind at 1, M_bind at 1. simpl.
  destruct (fg_data_map s !! i); [|by eexists].
  unfold mbind at 1, M_bind at 1. simpl. destruct (all_intnw_csockets s !! i) as [m|] eqn:Em.
  - unfold mbind at 1, M_bind at 1. unfold mbind at 1, M_bind at 1. rewrite close_dups_eq. simpl.
    eexists. split; [done|]. split; [|done]. split; simpl.
    + intros i' k ->. unfold entry, socks_on. simpl. by rewrite lookup_delete_eq.
    + intros i' k Hi. unfold entry, socks_on. simpl. by rewrite lookup_delete_ne.
    + intros fd. rewrite elem_of_difference, elem_of_list_to_set.
      apply and_iff_compat_l, not_iff_compat. unfold foreign. rewrite list_elem_of_bind. split.
      * intros ([k x] & H & Hx). apply elem_of_map_to_list in Hx. simpl in H.
        destruct (Z.eqb_spec k.1 self); [set_solver|]. apply list_elem_of_singleton in H as ->.
        exists i, k. unfold entry, socks_on. by rewrite Em.
      * intros (? & k & -> & Hk & He). unfold entry, socks_on in He. rewrite Em in He. simpl in He.
        exists (k, fd). split; [|by apply elem_of_map_to_list]. simpl. apply Z.eqb_neq in Hk. rewrite Hk. set_solver.
  - eexists. split; [done|]. split; [|done]. split; simpl.
    + intros i' k ->. unfold entry, socks_on. simpl. by rewrite Em.
    + done.
    + intros fd. split; [|naive_solver]. intros H. split; [done|]. intros (? & k & -> & _ & He).
      unfold entry, socks_on in He. by rewrite Em in He.
Qed.

Lemma ipc_add_iface_pair_spec i s :
  exists s', ipc_add_iface_pair i s = (Ret (bool_decide (fg_data_map s !! i = None)), s') /\
    frame s s' /\ same_table s s' /\ is_Some (fg_data_map s' !! i).
Proof.
  unfold ipc_add_iface_pair, mbind, M_bind. simpl.
  destruct (fg_data_map s !! i) as [x|] eqn:Ex; simpl; eexists; (split; [done|]); split_and!; [done..| |done|split|].
  - by rewrite Ex.
  - done.
  - intros i' k. unfold entry, socks_on, make_entry. simpl. destruct (all_intnw_csockets s !! i) as [m|] eqn:Em; [done|].
    destruct (decide (i' = i)) as [->|]; [by rewrite lookup_insert_eq, Em|by rewrite lookup_insert_ne].
  - simpl. by rewrite lookup_insert_eq.
Qed.

(** The pair gets its set first, whether or not the other processes know it. *)
Lemma make_pair_spec i s :
  exists b s1, (match all_intnw_csockets s !! i with
                | None => ipc_add_iface_pair i
                | Some _ => mret false
                end) s = (Ret b, s1) /\ frame s s1 /\ same_table s s1.
Proof.
  destruct (all_intnw_csockets s !! i) as [m|]; [by exists false, s|].
  destruct (ipc_add_iface_pair_spec i s) as (s1 & E & Hf & Ht & _). eauto.
Qed.

Lemma add_or_remove_spec i pid rfd fd rm s :
  exists s', add_or_remove_csocket i pid rfd fd rm s = (Ret tt, s') /\ frame s s' /\
    if rm : bool then drops (fun i' k => i' = i /\ k = (pid, rfd)) s s' else gains i (pid, rfd) fd s s'.
Proof.
  unfold add_or_remove_csocket, Shmem.add_or_remove_csocket. unfold mbind at 1, M_bind at 1. simpl.
  unfold mbind at 1, M_bind at 1. destruct (make_pair_spec i s) as (b & s1 & -> & [Hf1 Hf2 Hf3] & [Hd He]).
  destruct rm; simpl.
  - unfold mbind at 1, M_bind at 1. simpl. unfold mbind at 1, M_bind at 1.
    change (socks_on i s1 !! (pid, rfd)) with (entry s1 i (pid, rfd)). rewrite He.
    set (s2 := match entry s i (pid, rfd) with
               | Some fd => if negb (pid =? self) then set_dups (fun X => X ∖ {[fd]}) s1 else s1
               | None => s1 end).
    assert ((match entry s i (pid, rfd) with
             | Some fd0 => when (negb (pid =? self)) (close_dup fd0) | None => mret tt end) s1 = (Ret tt, s2)) as ->.
    { subst s2. destruct (entry s i (pid, rfd)); [|done]. unfold when. by destruct (negb _). }
    assert (all_intnw_csockets s2 = all_intnw_csockets s1) as Hm by (subst s2; destruct (entry _ _ _); [destruct (negb _)|]; done).
    eexists. split; [done|]. split; [by subst s2; destruct (entry _ _ _); [destruct (negb _)|]|]. split.
    + intros i' k [-> ->]. rewrite (entry_update (delete (pid, rfd))), decide_True by done. apply lookup_delete_eq.
    + intros i' k Hk. rewrite (entry_update (delete (pid, rfd))), <- He. unfold entry, socks_on. rewrite Hm.
      destruct (decide (i' = i)) as [->|]; [|done]. apply lookup_delete_ne. naive_solver.
    + intros x. simpl. subst s2. destruct (entry s i (pid, rfd)) as [fd0|] eqn:E0; simpl.
      * destruct (Z.eqb_spec pid self) as [->|Hp]; simpl; rewrite Hd.
        -- split; [|naive_solver]. intros H. split; [done|]. intros (? & ? & [-> ->] & Hk & _). done.
        -- rewrite elem_of_difference, elem_of_singleton. apply and_iff_compat_l, not_iff_compat. split.
           ++ intros ->. by exists i, (pid, rfd).
           ++ intros (? & ? & [-> ->] & _ & Hx). congruence.
      * rewrite Hd. split; [|naive_solver]. intros H. split; [done|]. intros (? & ? & [-> ->] & _ & Hx). congruence.
  - eexists. split; [done|]. split; [done|]. split; [| |done].
    + rewrite (entry_update (insert_sock (pid, rfd) fd)), decide_True by done.
      rewrite lookup_insert_sock, decide_True by done. by rewrite <- He.
    + intros i' k Hk. rewrite (entry_update (insert_sock (pid, rfd) fd)), <- He.
      destruct (decide (i' = i)) as [->|]; [|done]. rewrite lookup_insert_sock, decide_False by congruence. done.
Qed.

Context (send_ok : shmem -> Z -> datagram -> bool) (new_fd : gset Z -> option Z).

(** ** Runs of one process

    The other processes change the shared segment at any time. *)
Inductive ipc_event :=
| AddIfacePair (i : iface_pair)
| RemoveIfacePair (i : iface_pair)
| AddCsocket (i : iface_pair) (fd : Z)
| RemoveCsocket (i : iface_pair) (fd : Z)
| Receive (d : datagram)
| OthersDo (fg : gmap iface_pair Z) (pids : gset Z).

Definition run_event (e : ipc_event) : M shmem unit :=
  match e with
  | AddIfacePair i => ipc_add_iface_pair i;; mret tt
  | RemoveIfacePair i => ipc_remove_iface_pair self i;; mret tt
  | AddCsocket i fd => ipc_add_csocket self send_ok i fd;; mret tt
  | RemoveCsocket i fd => ipc_remove_csocket self send_ok i fd;; mret tt
  | Receive d => receive_datagram self new_fd d
  | OthersDo fg pids => modify (set_fg_data (fun _ => fg));; modify (set_pids (fun _ => pids))
  end.
Fixpoint run_events (es : list ipc_event) : M shmem unit :=
  match es with [] => mret tt | e :: es => run_event e;; run_events es end.

(** Nobody else announces connections of this process. *)
Definition others_datagram (e : ipc_event) : Prop :=
  match e with Receive (Header p) => pk_pid p <> self | _ => True end.

(** A descriptor that arrives is that of a connection not in the table yet. *)
Definition first_announcement s (e : ipc_event) : Prop :=
  match e, fd_sharing_thread s with
  | Receive (Descriptor _), Awaiting p => socks_on (pk_ifaces p) s !! (pk_pid p, pk_remote_fd p) = None
  | _, _ => True
  end.
Fixpoint announced_once (es : list ipc_event) s : Prop :=
  match es with
  | [] => True
  | e :: es => first_announcement s e /\ announced_once es (snd (run_event e s))
  end.

(** ** Sending *)
Definition add_all_sent l s : shmem := Shmem (fg_data_map s) (intnw_pids s)
  (all_intnw_csockets s) (fd_sharing_thread s) (dups s) (sent s ++ l).

Lemma send_each_spec i fd rm pids s :
  exists failed l, send_each self send_ok i fd rm pids s = (Ret failed, add_all_sent l s) /\ failed ⊆ pids.
Proof.
  revert s. induction pids as [|pid pids IH]; intros s; simpl.
  - exists [], []. split; [|done]. unfold add_all_sent. rewrite app_nil_r. by destruct s.
  - assert (exists (ok : bool) l, (if pid =? self then mret true else send_local_csocket_fd self send_ok i pid fd rm) s
              = (Ret ok, add_all_sent l s)) as (ok & l & E).
    { destruct (pid =? self); [exists true, []; unfold add_all_sent; rewrite app_nil_r; by destruct s|].
      unfold send_local_csocket_fd, send_fd_sharing_packet, send_datagram, mbind, M_bind. simpl.
      destruct (send_ok s pid _); simpl; [|exists false, []; unfold add_all_sent; rewrite app_nil_r; by destruct s].
      destruct rm; [by eexists _, _|]. simpl.
      destruct (send_ok _ pid _); simpl; [exists true, [(pid, Header (Packet i self fd false)); (pid, Descriptor fd)]|by eexists _, _].
      unfold add_all_sent, add_sent. simpl. by rewrite <- (assoc_L (++)). }
    rewrite (M_bind_ret _ _ _ _ _ E). destruct (IH (add_all_sent l s)) as (failed & l' & E' & Hf).
    rewrite (M_bind_ret _ _ _ _ _ E'). exists (if ok then failed else pid :: failed), (l ++ l').
    split; [|destruct ok; set_solver]. unfold add_all_sent. simpl. by rewrite (assoc_L (++)).
Qed.

(** ** The invariant *)
Definition holds s fd : Prop := exists i k, k.1 <> self /\ entry s i k = Some fd /\ fd <> -1.

(** A thread that awaits a descriptor has the packet of another process. *)
Definition awaited_ok s : Prop :=
  forall p, fd_sharing_thread s = Awaiting p -> pk_pid p <> self /\ pk_remove_fd p = false.

Record duplicates_ok s : Prop := {
  do_open fd : holds s fd -> fd ∈ dups s;
  do_inj i k i' k' fd : entry s i k = Some fd -> entry s i' k' = Some fd -> k.1 <> self -> k'.1 <> self ->
    fd <> -1 -> (i, k) = (i', k');
  do_awaited : awaited_ok s
}.
Lemma awaited_same s s' : fd_sharing_thread s' = fd_sharing_thread s -> awaited_ok s -> awaited_ok s'.
Proof. unfold awaited_ok. by intros ->. Qed.
Definition no_leak s : Prop := forall fd, fd ∈ dups s -> holds s fd.

Lemma holds_drops P s s' fd : drops P s s' -> holds s' fd -> holds s fd /\ forall i k, k.1 <> self -> entry s i k = Some fd -> fd <> -1 ->
  duplicates_ok s -> ~ P i k.
Proof.
  intros D (i & k & Hk & He & Hfd).
  assert (~ P i k) as HP by (intros HP; rewrite (dr_gone _ _ _ D _ _ HP) in He; done).
  rewrite (dr_kept _ _ _ D _ _ HP) in He. split; [by exists i, k|].
  intros i' k' Hk' He' _ Hok. by pose proof (do_inj _ Hok _ _ _ _ _ He He' Hk Hk' Hfd) as [= <- <-].
Qed.

Lemma drops_ok P s s' : drops P s s' -> awaited_ok s' -> duplicates_ok s -> duplicates_ok s'.
Proof.
  intros D Ht Hok. split; [| |done].
  - intros fd Hh. destruct (holds_drops _ _ _ _ D Hh) as [Hh' HP]. apply (dr_dups _ _ _ D).
    split; [by apply (do_open _ Hok)|]. intros (i & k & HPk & Hk & He).
    destruct Hh as (_ & _ & _ & _ & Hfd). by apply (HP i k).
  - intros i k i' k' fd He He' Hk Hk' Hfd.
    assert (forall i k, entry s' i k = Some fd -> entry s i k = Some fd) as K.
    { intros i0 k0 E. rewrite <- (dr_kept _ _ _ D); [done|]. intros HP. by rewrite (dr_gone _ _ _ D _ _ HP) in E. }
    eapply (do_inj _ Hok); eauto.
Qed.

Lemma drops_no_leak P s s' : drops P s s' -> duplicates_ok s -> (forall i k, Decision (P i k)) -> no_leak s -> no_leak s'.
Proof.
  intros D Hok HP Hn fd Hfd. apply (dr_dups _ _ _ D) in Hfd as [Hfd Hno].
  destruct (Hn _ Hfd) as (i & k & Hk & He & Hne). exists i, k. split_and!; [done| |done].
  destruct (HP i k); [exfalso; apply Hno; eauto|]. by rewrite (dr_kept _ _ _ D).
Qed.

Lemma same_ok s s' : same_table s s' -> awaited_ok s' ->
  duplicates_ok s -> duplicates_ok s'.
Proof.
  intros [Hd He] Ht Hok. split; [| |done].
  - intros fd (i & k & Hk & E & Hfd). rewrite Hd. rewrite He in E. apply (do_open _ Hok). by exists i, k.
  - intros i k i' k' fd. rewrite !He. apply (do_inj _ Hok).
Qed.

Lemma same_no_leak s s' : same_table s s' -> no_leak s -> no_leak s'.
Proof.
  intros [Hd He] Hn fd. rewrite Hd. intros (i & k & Hk & E & Hfd)%Hn. exists i, k. by rewrite He.
Qed.

Lemma gains_inv i k fd s s' i' k' x : gains i k fd s s' -> entry s' i' k' = Some x ->
  entry s i' k' = Some x \/ (i' = i /\ k' = k /\ x = fd /\ entry s i k = None).
Proof.
  intros G. destruct (decide ((i', k') = (i, k))) as [[= -> ->]|Hne].
  - rewrite (ga_new _ _ _ _ _ G). destruct (entry s i k) as [y|]; simpl; intros [= <-]; auto.
  - rewrite (ga_kept _ _ _ _ _ G) by done. auto.
Qed.
Lemma gains_old i k fd s s' i' k' x : gains i k fd s s' -> entry s i' k' = Some x -> entry s' i' k' = Some x.
Proof.
  intros G E. destruct (decide ((i', k') = (i, k))) as [[= -> ->]|Hne].
  - by rewrite (ga_new _ _ _ _ _ G), E.
  - by rewrite (ga_kept _ _ _ _ _ G).
Qed.

Lemma gains_ok i k fd s s' : gains i k fd s s' ->
  awaited_ok s' ->
  (k.1 <> self -> fd <> -1 -> fd ∈ dups s /\ ~ holds s fd) -> duplicates_ok s -> duplicates_ok s'.
Proof.
  intros G Ht Hfresh Hok. split; [| |done].
  - intros x (i' & k' & Hk & E & Hx). rewrite (ga_dups _ _ _ _ _ G).
    destruct (gains_inv _ _ _ _ _ _ _ _ G E) as [E'|(-> & -> & -> & _)]; [|by apply Hfresh].
    apply (do_open _ Hok). by exists i', k'.
  - intros i1 k1 i2 k2 x E1 E2 H1 H2 Hx.
    destruct (gains_inv _ _ _ _ _ _ _ _ G E1) as [F1|(-> & -> & -> & _)],
      (gains_inv _ _ _ _ _ _ _ _ G E2) as [F2|(-> & -> & Hfd & _)]; subst; try done.
    + by apply (do_inj _ Hok _ _ _ _ x).
    + destruct Hfresh as [_ []]; [done..|]. by exists i1, k1.
    + destruct Hfresh as [_ []]; [done..|]. by exists i2, k2.
Qed.

Lemma gains_no_leak i k fd s s' : gains i k fd s s' ->
  (forall x, x ∈ dups s -> holds s x \/ (x = fd /\ entry s i k = None /\ k.1 <> self /\ fd <> -1)) -> no_leak s'.
Proof.
  intros G H x Hx. rewrite (ga_dups _ _ _ _ _ G) in Hx. destruct (H _ Hx) as [(i' & k' & Hk & E & Hn)|(-> & E & Hk & Hn)].
  - exists i', k'. by rewrite (gains_old _ _ _ _ _ _ _ _ G E).
  - exists i, k. rewrite (ga_new _ _ _ _ _ G), E. done.
Qed.

(** A step keeps the invariant, and leaks nothing if [once]. *)
Definition step_ok s (once : Prop) (m : M shmem unit) : Prop :=
  duplicates_ok s -> exists s', m s = (Ret tt, s') /\ duplicates_ok s' /\ (once -> no_leak s -> no_leak s').

Lemma step_drops s P o m s' : m s = (Ret tt, s') -> drops P s s' -> (forall i k, Decision (P i k)) ->
  (awaited_ok s -> awaited_ok s') -> step_ok s o m.
Proof.
  intros E D HP Ht Hok. exists s'. split_and!; [done|eapply drops_ok; [done|by apply Ht, do_awaited|done]|]. intros _. by eapply drops_no_leak.
Qed.
Lemma step_same s o m s' : m s = (Ret tt, s') -> same_table s s' ->
  (awaited_ok s -> awaited_ok s') -> step_ok s o m.
Proof.
  intros E D Ht Hok. exists s'. split_and!; [done|eapply same_ok; [done|by apply Ht, do_awaited|done]|]. intros _. by apply same_no_leak.
Qed.

Lemma step_bind s o (m1 : M shmem unit) (m2 : unit -> M shmem unit) :
  step_ok s o m1 -> (forall s1, m1 s = (Ret tt, s1) -> step_ok s1 o (m2 tt)) -> step_ok s o (m1 ≫= m2).
Proof.
  intros H1 H2 Hok. destruct (H1 Hok) as (s1 & E1 & Hok1 & Hn1). destruct (H2 _ E1 Hok1) as (s2 & E2 & Hok2 & Hn2).
  exists s2. rewrite (M_bind_ret _ _ _ _ _ E1). split_and!; [done..|]. auto.
Qed.

Lemma step_assoc {A B} s o (m : M shmem A) (f : A -> M shmem B) g :
  step_ok s o (m ≫= fun a => f a ≫= g) -> step_ok s o ((m ≫= f) ≫= g).
Proof. unfold step_ok. by rewrite M_bind_assoc. Qed.

Lemma step_remove_each pids s o : step_ok s o (remove_each self pids).
Proof.
  revert s. induction pids as [|pid pids IH]; intros s; simpl.
  - by eapply step_same.
  - apply step_bind; [|intros; apply IH].
    destruct (remove_proc_spec pid s) as (s' & E & D & _ & Ht & _). eapply step_drops; [done|done|apply _|]. by apply awaited_same.
Qed.

Lemma same_add_sent l s : same_table s (add_all_sent l s).
Proof. done. Qed.

Lemma step_send i fd rm s o : step_ok s o (send_csocket_to_all_pids self send_ok i fd rm;; mret tt).
Proof.
  destruct (send_each_spec i fd rm (ascending (intnw_pids s)) s) as (failed & l & E & _).
  assert (send_csocket_to_all_pids self send_ok i fd rm s = (remove_each self failed;; mret true) (add_all_sent l s)) as Es.
  { unfold send_csocket_to_all_pids. unfold mbind at 1, M_bind at 1. simpl. by rewrite (M_bind_ret _ _ _ _ _ E). }
  intros Hok. destruct (step_remove_each failed (add_all_sent l s) o) as (s' & E' & Hok' & Hn).
  { eapply same_ok; [apply same_add_sent| |done]. apply (do_awaited _ Hok). }
  exists s'. split_and!; [|done|].
  - assert (send_csocket_to_all_pids self send_ok i fd rm s = (Ret true, s')) as E1.
    { by rewrite Es, (M_bind_ret _ _ _ _ _ E'). }
    by rewrite (M_bind_ret _ _ _ _ _ E1).
  - intros Ho Hl. apply Hn; [done|]. by eapply same_no_leak.
Qed.

(** Its own connections: nothing is duplicated. *)
Lemma step_own i fd rm s o : step_ok s o (add_or_remove_csocket i self fd fd rm).
Proof.
  destruct (add_or_remove_spec i self fd fd rm s) as (s' & E & [_ Ht _] & H). destruct rm.
  - eapply step_drops; [done|done|apply _|by apply awaited_same].
  - intros Hok. exists s'. split_and!; [done| |].
    + eapply gains_ok; [done| |done|done]. by apply (awaited_same s), do_awaited.
    + intros _ Hn. eapply gains_no_leak; [done|]. auto.
Qed.

Context (Hnew : forall X fd, new_fd X = Some fd -> 0 <= fd /\ fd ∉ X).

(** What a datagram announces or takes back. *)
Lemma share_spec p fd s :
  exists s', share self p fd s = (Ret tt, s') /\ fd_sharing_thread s' = Ready /\
    if pk_remove_fd p then drops (fun i k => i = pk_ifaces p /\ k = (pk_pid p, pk_remote_fd p)) s s'
    else gains (pk_ifaces p) (pk_pid p, pk_remote_fd p) fd s s'.
Proof.
  destruct (add_or_remove_spec (pk_ifaces p) (pk_pid p) (pk_remote_fd p) fd (pk_remove_fd p) s) as (s1 & E & _ & H).
  exists (set_thread Ready s1). unfold share. rewrite (M_bind_ret _ _ _ _ _ E). split_and!; [done..|].
  destruct (pk_remove_fd p), H; by split.
Qed.

Lemma awaited_ready s : fd_sharing_thread s = Ready -> awaited_ok s.
Proof. intros E p. by rewrite E. Qed.

Lemma step_share_nothing p s o : pk_pid p <> self -> step_ok s o (share self p (-1)).
Proof.
  intros Hp. destruct (share_spec p (-1) s) as (s' & E & Ht%awaited_ready & H). destruct (pk_remove_fd p).
  - eapply step_drops; [done|done|apply _|done].
  - intros Hok. exists s'. split_and!; [done|by eapply gains_ok|].
    intros _ Hn. eapply gains_no_leak; [done|]. auto.
Qed.

(** A descriptor comes in. *)
Lemma step_share p s : fd_sharing_thread s = Awaiting p ->
  step_ok s (entry s (pk_ifaces p) (pk_pid p, pk_remote_fd p) = None)
    (match new_fd (dups s) with
     | Some fd => modify (set_dups (fun X => {[fd]} ∪ X));; share self p fd
     | None => share self p (-1)
     end).
Proof.
  intros Hth Hok. destruct (do_awaited _ Hok _ Hth) as [Hp Hrm].
  destruct (new_fd (dups s)) as [fd|] eqn:Efd; [|by apply step_share_nothing].
  destruct (Hnew _ _ Efd) as [Hpos Hfresh]. unfold mbind, M_bind. simpl. set (s1 := set_dups _ s).
  destruct (share_spec p fd s1) as (s' & E & Ht%awaited_ready & H). rewrite Hrm in H. exists s'.
  assert (~ holds s fd) as Hh by (intros ?; by apply Hfresh, (do_open _ Hok)).
  split_and!; [done| |].
  - eapply gains_ok; [done|done| |].
    + intros _ _. split; [|done]. subst s1. simpl. set_solver.
    + split; [|apply (do_inj _ Hok)|by apply (awaited_same s), do_awaited].
      intros x Hx%(do_open _ Hok). subst s1. simpl. set_solver.
  - intros Ho Hn. eapply gains_no_leak; [done|]. intros x Hx. subst s1. simpl in Hx.
    apply elem_of_union in Hx as [->%elem_of_singleton|Hx]; [right|left; by apply Hn].
    split_and!; [done..|lia].
Qed.

Lemma step_receive d s : others_datagram (Receive d) ->
  step_ok s (first_announcement s (Receive d)) (receive_datagram self new_fd d).
Proof.
  intros Hd Hok. unfold receive_datagram. unfold mbind at 1, M_bind at 1. simpl.
  revert Hok. destruct (fd_sharing_thread s) as [|p|] eqn:Eth, d as [q|x]; simpl in Hd.
  - destruct (pk_pid q =? -1); [by eapply step_same|]. destruct (pk_remove_fd q) eqn:Er; [by apply step_share_nothing|].
    eapply step_same; [done|done|]. intros _ ? [= <-]. done.
  - by eapply step_same.
  - intros Hok. apply step_share_nothing; [|done]. by apply (do_awaited _ Hok _ Eth).
  - by apply step_share.
  - by eapply step_same.
  - by eapply step_same.
Qed.

Lemma step_event e s : others_datagram e -> step_ok s (first_announcement s e) (run_event e).
Proof.
  intros He. destruct e as [i|i|i fd|i fd|d|fg pids]; simpl.
  - destruct (ipc_add_iface_pair_spec i s) as (s' & E & [_ Ht _] & H & _).
    eapply step_same; [by rewrite (M_bind_ret _ _ _ _ _ E)|done|by apply awaited_same].
  - destruct (ipc_remove_iface_pair_eq i s) as (s' & E & H).
    destruct (fg_data_map s !! i) as [x|].
    + destruct H as (D & _ & [_ Ht _]).
      eapply step_drops; [by rewrite (M_bind_ret _ _ _ _ _ E)|done|intros; cbn beta; apply _|by apply awaited_same].
    + subst s'. by eapply step_same; [by rewrite (M_bind_ret _ _ _ _ _ E)|..].
  - apply step_assoc, step_bind; [apply step_own|intros; apply step_send].
  - apply step_assoc, step_bind; [apply step_own|intros; apply step_send].
  - by apply step_receive.
  - by eapply step_same.
Qed.

Lemma run_events_ok es s : Forall others_datagram es -> step_ok s (announced_once es s) (run_events es).
Proof.
  intros Hes. revert s. induction Hes as [|e es He Hes IH]; intros s; simpl; [by eapply step_same|].
  intros Hok. destruct (step_event e s He Hok) as (s1 & E & Hok1 & Hn1).
  rewrite (M_bind_ret _ _ _ _ _ E), E. simpl. destruct (IH s1 Hok1) as (s2 & E2 & Hok2 & Hn2).
  exists s2. split_and!; [done..|]. intros [Ho Hos] Hn. auto.
Qed.

(** C26: from ipc_shmem_init on, whatever the process does and sees of the other
    processes, and whatever datagrams it receives that come from others
    ([others_datagram]): the calls return, every connection of another process in the
    table has an open duplicate, unless its descriptor could not be received (-1, which
    happens when announcements interleave), and no two have the same; as long as no
    connection is announced twice, nothing else stays open. *)
Theorem shared_descriptors create bind_ok es s :
  dups s = ∅ -> Forall others_datagram es ->
  let start := snd (ipc_shmem_init self create bind_ok s) in
  exists s', run_events es start = (Ret tt, s') /\
    (forall i k fd, k.1 <> self -> entry s' i k = Some fd -> fd <> -1 -> fd ∈ dups s') /\
    (forall i k i' k' fd, entry s' i k = Some fd -> entry s' i' k' = Some fd ->
       k.1 <> self -> k'.1 <> self -> fd <> -1 -> (i, k) = (i', k')) /\
    (announced_once es start -> forall fd, fd ∈ dups s' ->
       exists i k, k.1 <> self /\ entry s' i k = Some fd).
Proof.
  intros Hd Hes start.
  assert (dups start = ∅ /\ (forall i k, entry start i k = None) /\ awaited_ok start) as (Hd0 & He0 & Ht0).
  { subst start. unfold ipc_shmem_init. destruct create; simpl; (split; [done|]); (split; [|by destruct bind_ok]);
      intros i k; unfold entry, socks_on; simpl; rewrite (left_id_L ∅ (∪)), lookup_fmap.
    - by rewrite lookup_empty.
    - by destruct (fg_data_map s !! i). }
  destruct (run_events_ok es start Hes) as (s' & E & Hok & Hn).
  { split; [| |done].
    - intros fd (i & k & _ & E & _). by rewrite He0 in E.
    - intros i k i' k' fd E. by rewrite He0 in E. }
  exists s'. split; [done|]. split_and!.
  - intros i k fd Hk E' Hfd. apply (do_open _ Hok). by exists i, k.
  - apply (do_inj _ Hok).
  - intros Ho fd Hfd. destruct (Hn Ho) with fd as (i & k & ? & ? & _); [|done|by exists i, k].
    intros fd'. by rewrite Hd0.
Qed.
End spec.

(** ** One process announces, another listens *)
Section announce.
Context (A B : Z) (send_ok : shmem -> Z -> datagram -> bool) (new_fd : gset Z -> option Z).
Context (HAB : A <> B) (HA : A <> -1) (Hsend : forall s d, send_ok s B d = true).

(** What A does with its connections, and what it says of it. *)
Definition connection_change : Type := iface_pair * Z * bool.
Definition announced (c : connection_change) : fd_sharing_packet := Packet c.1.1 A c.1.2 c.2.
Definition change_csocket (c : connection_change) : M shmem bool :=
  (if c.2 then ipc_remove_csocket else ipc_add_csocket) A send_ok c.1.1 c.1.2.
Fixpoint change_csockets (cs : list connection_change) : M shmem unit :=
  match cs with [] => mret tt | c :: cs => change_csocket c;; change_csockets cs end.

Definition announcement (p : fd_sharing_packet) : list datagram :=
  if pk_remove_fd p then [Header p] else [Header p; Descriptor (pk_remote_fd p)].
Definition sent_to (target : Z) (l : list (Z * datagram)) : list datagram :=
  l ≫= fun x => if x.1 =? target then [x.2] else [].

Lemma sent_to_app t l1 l2 : sent_to t (l1 ++ l2) = sent_to t l1 ++ sent_to t l2.
Proof. apply bind_app. Qed.

Lemma announcement_app_inj p q l l' : announcement p ++ l = announcement q ++ l' -> p = q /\ l = l'.
Proof.
  unfold announcement. destruct (pk_remove_fd p) eqn:Ep, (pk_remove_fd q) eqn:Eq; simpl; intros [= <- H]; try congruence; eauto.
Qed.
Lemma announcement_inj ps qs : (ps ≫= announcement) = (qs ≫= announcement) -> ps = qs.
Proof.
  assert (forall p (l : list datagram), announcement p ++ l <> []) as Hne.
  { intros p l. unfold announcement. by destruct (pk_remove_fd p). }
  revert qs. induction ps as [|p ps IH]; intros [|q qs]; simpl; intros H; [done|by destruct (Hne q _ (eq_sym H))|by destruct (Hne p _ H)|].
  apply announcement_app_inj in H as [-> H]. f_equal. auto.
Qed.

(** Entries of one process in two tables: after the same announcement they agree. *)
Definition agree (sA sB : shmem) : Prop := forall i fd, is_Some (entry sB i (A, fd)) <-> is_Some (entry sA i (A, fd)).
Definition announced_entry (p : fd_sharing_packet) s s' : Prop :=
  forall i fd, is_Some (entry s' i (A, fd)) <->
    if decide (i = pk_ifaces p /\ (A, fd) = (pk_pid p, pk_remote_fd p)) then pk_remove_fd p = false
    else is_Some (entry s i (A, fd)).

Lemma drops_announced C p s s' : pk_remove_fd p = true ->
  drops C (fun i k => i = pk_ifaces p /\ k = (pk_pid p, pk_remote_fd p)) s s' -> announced_entry p s s'.
Proof.
  intros Hp D i fd. destruct (decide _) as [H|H].
  - rewrite (dr_gone _ _ _ _ D) by done. rewrite Hp. split; [by intros []|done].
  - by rewrite (dr_kept _ _ _ _ D).
Qed.
Lemma gains_announced p fd s s' : pk_remove_fd p = false ->
  gains (pk_ifaces p) (pk_pid p, pk_remote_fd p) fd s s' -> announced_entry p s s'.
Proof.
  intros Hp G i fd'. destruct (decide _) as [[-> ->]|H].
  - rewrite (ga_new _ _ _ _ _ G). by rewrite Hp.
  - rewrite (ga_kept _ _ _ _ _ G); [done|]. intros [= -> ? ?]. apply H. by subst.
Qed.

Lemma agree_announced p sA sA' sB sB' :
  announced_entry p sA sA' -> announced_entry p sB sB' -> agree sA sB -> agree sA' sB'.
Proof. intros HsA HsB H i fd. rewrite (HsA i fd), (HsB i fd). by destruct (decide _). Qed.
Lemma agree_other p sA sB sB' : pk_pid p <> A -> announced_entry p sB sB' -> agree sA sB -> agree sA sB'.
Proof. intros Hp HsB H i fd. rewrite (HsB i fd), decide_False by naive_solver. apply H. Qed.

(** The receiver of a whole announcement. *)
Lemma receive_announcement p s : pk_pid p <> -1 -> fd_sharing_thread s = Ready ->
  exists s', receive_all B new_fd (announcement p) s = (Ret tt, s') /\ fd_sharing_thread s' = Ready /\ announced_entry p s s'.
Proof.
  intros Hp Ht. unfold announcement. destruct (pk_remove_fd p) eqn:Er; simpl.
  - destruct (share_spec B p (-1) s) as (s' & E & Ht' & H). rewrite Er in H. exists s'.
    split; [|split; [done|by eapply drops_announced]].
    assert (receive_datagram B new_fd (Header p) s = (Ret tt, s')) as Ed.
    { unfold receive_datagram, mbind, M_bind. simpl. rewrite Ht. apply Z.eqb_neq in Hp. by rewrite Hp, Er. }
    by rewrite (M_bind_ret _ _ _ _ _ Ed).
  - assert (receive_datagram B new_fd (Header p) s = (Ret tt, set_thread (Awaiting p) s)) as Ed.
    { unfold receive_datagram, mbind, M_bind. simpl. rewrite Ht. apply Z.eqb_neq in Hp. by rewrite Hp, Er. }
    rewrite (M_bind_ret _ _ _ _ _ Ed).
    set (s1 := match new_fd (dups s) with
               | Some fd => set_dups (fun X => {[fd]} ∪ X) (set_thread (Awaiting p) s)
               | None => set_thread (Awaiting p) s end).
    destruct (share_spec B p (default (-1) (new_fd (dups s))) s1) as (s' & E & Ht' & H). rewrite Er in H.
    exists s'. split; [|split; [done|]].
    + assert (receive_datagram B new_fd (Descriptor (pk_remote_fd p)) (set_thread (Awaiting p) s) = (Ret tt, s')) as Ed'.
      { unfold receive_datagram, mbind, M_bind. simpl. subst s1. by destruct (new_fd (dups s)). }
      by rewrite (M_bind_ret _ _ _ _ _ Ed').
    + apply gains_announced in H; [|done]. intros i k. rewrite (H i k). subst s1. by destruct (new_fd (dups s)).
Qed.

Lemma receive_all_app ds ds' s :
  receive_all B new_fd (ds ++ ds') s = (receive_all B new_fd ds;; receive_all B new_fd ds') s.
Proof.
  revert s. induction ds as [|d ds IH]; intros s; [done|]. simpl. rewrite M_bind_assoc. unfold mbind, M_bind.
  destruct (receive_datagram B new_fd d s) as [[] s']; [apply IH|done..].
Qed.

(** The sender: its announcement reaches B. *)
Lemma send_one pid i fd rm s ok s' :
  (if pid =? A then mret true else send_local_csocket_fd A send_ok i pid fd rm) s = (Ret ok, s') ->
  sent_to B (sent s') = sent_to B (sent s) ++ (if decide (B = pid) then announcement (Packet i A fd rm) else []) /\
  (B = pid -> ok = true).
Proof.
  destruct (Z.eqb_spec pid A) as [->|Hp].
  { intros [= <- <-]. by rewrite decide_False, app_nil_r. }
  unfold send_local_csocket_fd, send_fd_sharing_packet, send_datagram, mbind, M_bind, announcement. simpl.
  destruct (decide (B = pid)) as [<-|Hne].
  - rewrite Hsend. simpl. destruct rm; [|rewrite Hsend]; intros [= <- <-]; simpl;
      rewrite !sent_to_app, <- ?(assoc_L (++)); simpl; by rewrite Z.eqb_refl.
  - assert (forall d s, sent_to B (sent (add_sent (pid, d) s)) = sent_to B (sent s)) as Ha.
    { intros d s0. simpl. rewrite sent_to_app. simpl. rewrite (proj2 (Z.eqb_neq _ _)) by done. by rewrite !app_nil_r. }
    rewrite app_nil_r. destruct (send_ok s pid _); [|by intros [= <- <-]].
    destruct rm; simpl; [|destruct (send_ok _ pid _)]; intros [= <- <-]; by rewrite !Ha.
Qed.

Lemma send_each_to i fd rm pids s failed s' : NoDup pids ->
  send_each A send_ok i fd rm pids s = (Ret failed, s') ->
  sent_to B (sent s') = sent_to B (sent s) ++ (if decide (B ∈ pids) then announcement (Packet i A fd rm) else []) /\ B ∉ failed.
Proof.
  intros Hnd. revert s failed s'. induction Hnd as [|pid pids Hpid Hnd IH]; intros s failed s'; cbn [send_each].
  { intros [= <- <-]. rewrite decide_False by set_solver. rewrite app_nil_r. split; [done|set_solver]. }
  intros (ok & s1 & E1 & (failed' & s2 & E2 & [= <- <-])%M_bind_inv)%M_bind_inv.
  apply IH in E2 as [-> Hf]. apply send_one in E1 as [-> Hok].
  split; [|destruct ok; [done|]; set_solver].
  rewrite <- (assoc_L (++)). f_equal. destruct (decide (B = pid)) as [Heq|Hne].
  - rewrite (decide_False (P := B ∈ pids)), decide_True by set_solver. apply app_nil_r.
  - simpl app. apply decide_ext. set_solver.
Qed.

Lemma remove_each_keeps pids s : B ∉ pids -> exists s', remove_each A pids s = (Ret tt, s') /\
  sent s' = sent s /\ (B ∈ intnw_pids s -> B ∈ intnw_pids s') /\ forall i fd, entry s' i (A, fd) = entry s i (A, fd).
Proof.
  revert s. induction pids as [|pid pids IH]; intros s HB; [by exists s|]. simpl.
  destruct (remove_proc_spec A pid s) as (s1 & E & D & Hp & _ & Hs). rewrite (M_bind_ret _ _ _ _ _ E).
  destruct (IH s1) as (s' & E' & Hs' & Hp' & He); [set_solver|]. exists s'. split_and!; [done|by rewrite Hs'| |].
  - intros ?. apply Hp'. rewrite Hp. set_solver.
  - intros i fd. rewrite He. apply (dr_kept _ _ _ _ D). intros [? ?]. by simplify_eq/=.
Qed.

(** One change: B is told, the table follows. *)
Lemma change_spec c s : B ∈ intnw_pids s ->
  exists b s', change_csocket c s = (Ret b, s') /\ B ∈ intnw_pids s' /\
    sent_to B (sent s') = sent_to B (sent s) ++ announcement (announced c) /\ announced_entry (announced c) s s'.
Proof.
  destruct c as [[i fd] rm]. intros HB. destruct (add_or_remove_spec A i A fd fd rm s) as (s1 & E & [Hp _ Hs] & H).
  destruct (send_each A send_ok i fd rm (ascending (intnw_pids s1)) s1) as [o s2] eqn:E2.
  destruct (send_each_spec A send_ok i fd rm (ascending (intnw_pids s1)) s1) as (failed & l & E2' & _).
  rewrite E2' in E2. injection E2 as <- <-. pose proof (send_each_to _ _ _ _ _ _ _ (NoDup_ascending _) E2') as [Hto Hf].
  rewrite decide_True in Hto by (rewrite Hp; by apply elem_of_ascending).
  destruct (remove_each_keeps failed (add_all_sent l s1) Hf) as (s3 & E3 & Hs3 & Hp3 & He3).
  exists true, s3. split_and!.
  - assert (change_csocket (i, fd, rm) s = (add_or_remove_csocket A i A fd fd rm;; send_csocket_to_all_pids A send_ok i fd rm) s) as ->
      by by destruct rm.
    rewrite (M_bind_ret _ _ _ _ _ E). unfold send_csocket_to_all_pids. unfold mbind at 1, M_bind at 1. simpl.
    rewrite (M_bind_ret _ _ _ _ _ E2'). by rewrite (M_bind_ret _ _ _ _ _ E3).
  - apply Hp3. simpl. by rewrite Hp.
  - rewrite Hs3, Hto. by rewrite Hs.
  - assert (announced_entry (announced (i, fd, rm)) s s1) as Ha.
    { destruct rm; [by eapply drops_announced|by eapply gains_announced]. }
    intros i' fd'. rewrite He3. apply Ha.
Qed.

(** C27: B keeps up with A, once it has caught up: when B's table has A's connections at the start
    (a process that starts later is never told of the ones there are), A opens and closes
    connections and B, among the announcements of others, each of which arrives as a
    pair of datagrams that nothing interrupts, takes in those of A, then B has
    exactly A's connections in its table, and its thread goes on. *)
Theorem announced_connections cs ps sA sB :
  B ∈ intnw_pids sA -> fd_sharing_thread sB = Ready -> Forall (fun p => pk_pid p <> -1) ps ->
  (forall i fd, is_Some (entry sB i (A, fd)) <-> is_Some (entry sA i (A, fd))) ->
  exists sA', change_csockets cs sA = (Ret tt, sA') /\
    (sent_to B (sent sA') = sent_to B (sent sA) ++ (filter (fun p => pk_pid p = A) ps ≫= announcement) ->
     exists sB', receive_all B new_fd (ps ≫= announcement) sB = (Ret tt, sB') /\ fd_sharing_thread sB' = Ready /\
       forall i fd, is_Some (entry sB' i (A, fd)) <-> is_Some (entry sA' i (A, fd))).
Proof.
  intros HB Ht Hps Hag.
  assert (exists sA', change_csockets cs sA = (Ret tt, sA') /\
    sent_to B (sent sA') = sent_to B (sent sA) ++ ((announced <$> cs) ≫= announcement)) as (sA' & E & Hs).
  { clear Ht Hag. revert sA HB. induction cs as [|c cs IH]; intros sA HB.
    - exists sA. by rewrite app_nil_r.
    - destruct (change_spec c sA HB) as (b & s1 & E1 & HB1 & Hs1 & _). destruct (IH s1 HB1) as (s2 & E2 & Hs2).
      exists s2. simpl. rewrite (M_bind_ret _ _ _ _ _ E1). split; [done|]. by rewrite Hs2, Hs1, <- (assoc_L (++)). }
  exists sA'. split; [done|]. rewrite Hs. intros Heq%app_inv_head%announcement_inj. clear Hs.
  revert cs sA sB sA' HB Ht Hag E Heq. induction Hps as [|p ps Hp Hps IH]; intros cs sA sB sA' HB Ht Hag E Heq.
  - destruct cs; [|done]. injection E as <-. by exists sB.
  - destruct (receive_announcement p sB Hp Ht) as (sB1 & EB & Ht1 & HaB).
    cbn [mbind list_bind]. rewrite receive_all_app, (M_bind_ret _ _ _ _ _ EB).
    rewrite filter_cons in Heq. destruct (decide (pk_pid p = A)) as [HpA|HpA].
    + destruct cs as [|c cs]; [done|]. injection Heq as Hc Heq. simpl in E.
      destruct (change_spec c sA HB) as (b & s1 & E1 & HB1 & _ & HaA). rewrite (M_bind_ret _ _ _ _ _ E1) in E.
      apply (IH cs s1 sB1 sA'); try done. rewrite <- Hc in HaB. by eapply agree_announced.
    + apply (IH cs sA sB1 sA'); try done. by eapply agree_other.
Qed.
End announce.

(** C36: two processes announce at once, and their datagrams interleave: the
    descriptor of the first is taken from the packet of the second, so the
    first's connection is entered without a descriptor, the second's not at all,
    and the thread ends: whatever arrives from then on changes nothing. *)
Theorem interleaved_announcements self new_fd p q s :
  fd_sharing_thread s = Ready -> pk_pid p <> -1 -> pk_remove_fd p = false ->
  exists s', fd_sharing_thread s' = Ended /\ dups s' = dups s /\
    entry s' (pk_ifaces p) (pk_pid p, pk_remote_fd p) =
      Some (default (-1) (entry s (pk_ifaces p) (pk_pid p, pk_remote_fd p))) /\
    (forall i k, (i, k) <> (pk_ifaces p, (pk_pid p, pk_remote_fd p)) -> entry s' i k = entry s i k) /\
    forall x rest, receive_all self new_fd (Header p :: Header q :: Descriptor x :: rest) s = (Ret tt, s').
Proof.
  intros Ht Hp Hrm. destruct (share_spec self p (-1) (set_thread (Awaiting p) s)) as (s1 & E & Ht1 & H).
  rewrite Hrm in H. exists (set_thread Ended s1). split_and!.
  - done.
  - apply (ga_dups _ _ _ _ _ H).
  - apply (ga_new _ _ _ _ _ H).
  - apply (ga_kept _ _ _ _ _ H).
  - intros x rest. cbn [receive_all].
    assert (receive_datagram self new_fd (Header p) s = (Ret tt, set_thread (Awaiting p) s)) as E1.
    { unfold receive_datagram, mbind, M_bind. simpl. rewrite Ht. apply Z.eqb_neq in Hp. by rewrite Hp, Hrm. }
    assert (receive_datagram self new_fd (Header q) (set_thread (Awaiting p) s) = (Ret tt, s1)) as E2 by done.
    assert (receive_datagram self new_fd (Descriptor x) s1 = (Ret tt, set_thread Ended s1)) as E3.
    { unfold receive_datagram, mbind, M_bind. simpl. by rewrite Ht1. }
    rewrite (M_bind_ret _ _ _ _ _ E1), (M_bind_ret _ _ _ _ _ E2), (M_bind_ret _ _ _ _ _ E3).
    induction rest as [|d rest IH]; [done|]. cbn [receive_all].
    assert (receive_datagram self new_fd d (set_thread Ended s1) = (Ret tt, set_thread Ended s1)) as E4 by done.
    by rewrite (M_bind_ret _ _ _ _ _ E4).
Qed.

(** the processes share the list of pairs: the process that removes one first
    closes its duplicates on the pair, and no others; a process that comes later is
    told that the pair is gone already and keeps its duplicates open. *)
Theorem pair_removed_once self i s :
  (forall x, fg_data_map s !! i = Some x ->
     exists s', ipc_remove_iface_pair self i s = (Ret true, s') /\ fg_data_map s' = delete i (fg_data_map s) /\
       (forall i' k, entry s' i' k = if decide (i' = i) then None else entry s i' k) /\
       (forall fd, fd ∈ dups s' <-> fd ∈ dups s /\ ~ exists k, k.1 <> self /\ entry s i k = Some fd)) /\
  (fg_data_map s !! i = None -> ipc_remove_iface_pair self i s = (Ret false, s)).
Proof.
  destruct (ipc_remove_iface_pair_eq self i s) as (s' & E & H). split.
  - intros x Hx. rewrite Hx in H, E. exists s'. destruct H as (D & Hfg & _). split_and!; [done|done| |].
    + intros i' k. case_decide; [by apply (dr_gone _ _ _ _ D)|by apply (dr_kept _ _ _ _ D)].
    + intros fd. rewrite (dr_dups _ _ _ _ D). apply and_iff_compat_l, not_iff_compat. naive_solver.
  - intros Hn. rewrite Hn in H, E. by subst s'.
Qed.

Lemma count_bytes_sum unsent fds b :
  foldl (count_bytes unsent) (to_size_t b) fds = to_size_t (b + sumZ ((fun fd => Z.max 0 (unsent fd)) <$> fds)).
Proof.
  revert b. induction fds as [|fd fds IH]; intros b; simpl; [by rewrite Z.add_0_r|].
  unfold count_bytes at 2. destruct (Z.ltb_spec (unsent fd) 0).
  - rewrite IH. f_equal. unfold fmap; lia.
  - assert (to_size_t (to_size_t b + unsent fd) = to_size_t (b + unsent fd)) as -> by apply Zplus_mod_idemp_l.
    rewrite IH. f_equal. unfold fmap; lia.
Qed.

(** C40: the bytes that wait on a pair are the sum over its connections, of all
    processes, as far as the system gives it, modulo 2^64; and they are 0, whatever
    waits, in a program built without LINUX, as the Makefile does. *)
Theorem inflight_spec linux outq unacked i s :
  ipc_total_bytes_inflight (get_unsent_bytes linux outq unacked) i s =
  if linux && bool_decide (is_Some (fg_data_map s !! i)) then
    to_size_t (sumZ ((fun x => Z.max 0 (get_unsent_bytes true outq unacked x.2)) <$> map_to_list (socks_on i s)))
  else 0.
Proof.
  unfold ipc_total_bytes_inflight, socks_on. destruct (fg_data_map s !! i); simpl; [|by rewrite andb_false_r].
  rewrite andb_true_r. destruct (all_intnw_csockets s !! i) as [m|]; simpl.
  - pose proof (count_bytes_sum (get_unsent_bytes linux outq unacked) (snd <$> map_to_list m) 0) as E.
    change (to_size_t 0) with 0 in E. rewrite E. rewrite Z.add_0_l, <- list_fmap_compose. destruct linux; [done|].
    replace (sumZ _) with 0; [done|]. symmetry. clear E. induction (map_to_list m) as [|x l IH]; [done|exact IH].
  - by destruct linux.
Qed.

(** ** Instances *)
Definition empty_shmem : shmem := Shmem ∅ ∅ ∅ Ended ∅ [].
Definition next_fd (X : gset Z) : option Z := Some (1 + foldr Z.max 9 (elements X)).

Lemma next_fd_new X fd : next_fd X = Some fd -> 0 <= fd /\ fd ∉ X.
Proof.
  intros [= <-].
  assert (9 <= foldr Z.max 9 (elements X) /\ forall x, x ∈ elements X -> x <= foldr Z.max 9 (elements X)) as [H9 H].
  { induction (elements X) as [|y l IH]; simpl; [set_solver|]. destruct IH as [? IH].
    split; [lia|]. intros x [->|Hx%IH]%elem_of_cons; lia. }
  split; [lia|]. intros HX%elem_of_elements%H. lia.
Qed.

(** Process 5 hears of two connections of process 7, of which one goes away, while
    it has one itself. *)
Lemma shared_descriptors_witness :
  let es := [AddCsocket (1, 2) 3; Receive (Header (Packet (1, 2) 7 4 false)); Receive (Descriptor 4);
             Receive (Header (Packet (1, 2) 7 5 false)); Receive (Descriptor 5);
             Receive (Header (Packet (1, 2) 7 4 true))] in
  let start := snd (ipc_shmem_init 5 true true empty_shmem) in
  let s := snd (run_events 5 (fun _ _ _ => true) next_fd es start) in
  elements (dups s) = [11] /\ (11 ∈ dups s -> exists i k, k.1 <> 5 /\ entry s i k = Some 11).
Proof.
  intros es start s. split; [vm_compute; reflexivity|].
  destruct (shared_descriptors 5 (fun _ _ _ => true) next_fd next_fd_new true true es empty_shmem) as (s' & E & _ & _ & H).
  - reflexivity.
  - repeat constructor; simpl; lia.
  - assert (s = s') as -> by (change s' with (snd (Ret tt : outcome unit, s')); rewrite <- E; reflexivity).
    apply H. vm_compute. repeat split.
Defined.

(** Process 7 opens two connections and closes one; process 5 hears of it, and of
    one of process 9. *)
Lemma announced_connections_witness :
  let cs := [((1, 2), 4, false); ((1, 2), 5, false); ((1, 2), 4, true)] in
  let ps := [Packet (1, 2) 7 4 false; Packet (1, 2) 9 4 false; Packet (1, 2) 7 5 false; Packet (1, 2) 7 4 true] in
  let sA := snd (change_csockets 7 (fun _ _ _ => true) cs (set_pids (fun _ => {[5; 7]}) empty_shmem)) in
  let sB := snd (receive_all 5 next_fd (ps ≫= announcement) (set_thread Ready empty_shmem)) in
  sent sA = [(5, Header (Packet (1, 2) 7 4 false)); (5, Descriptor 4); (5, Header (Packet (1, 2) 7 5 false));
             (5, Descriptor 5); (5, Header (Packet (1, 2) 7 4 true))] /\
  (is_Some (entry sB (1, 2) (7, 5)) <-> is_Some (entry sA (1, 2) (7, 5))).
Proof.
  intros cs ps sA sB. split; [vm_compute; reflexivity|].
  destruct (announced_connections 7 5 (fun _ _ _ => true) next_fd ltac:(lia) ltac:(lia) ltac:(done) cs ps
    (set_pids (fun _ => {[5; 7]}) empty_shmem) (set_thread Ready empty_shmem)) as (sA' & EA & H).
  - vm_compute. reflexivity.
  - reflexivity.
  - repeat constructor; simpl; lia.
  - intros i fd. by vm_compute.
  - assert (sA = sA') as <- by (change sA' with (snd (Ret tt : outcome unit, sA')); rewrite <- EA; reflexivity).
    destruct H as (sB' & EB & _ & H); [vm_compute; reflexivity|].
    assert (sB = sB') as -> by (change sB' with (snd (Ret tt : outcome unit, sB')); rewrite <- EB; reflexivity).
    apply H.
Defined.

Lemma interleaved_announcements_witness :
  let s := set_thread Ready empty_shmem in
  let s' := snd (receive_all 5 next_fd [Header (Packet (1, 2) 7 4 false); Header (Packet (1, 2) 9 6 false);
                                        Descriptor 4; Descriptor 6; Header (Packet (1, 2) 7 4 true)] s) in
  fd_sharing_thread s' = Ended /\ entry s' (1, 2) (7, 4) = Some (-1).
Proof.
  intros s s'.
  destruct (interleaved_announcements 5 next_fd (Packet (1, 2) 7 4 false) (Packet (1, 2) 9 6 false) s)
    as (s1 & Ht & _ & He & _ & H); [reflexivity|simpl; lia|reflexivity|].
  specialize (H 4 [Descriptor 6; Header (Packet (1, 2) 7 4 true)]).
  assert (s' = s1) as -> by (change s1 with (snd (Ret tt : outcome unit, s1)); rewrite <- H; reflexivity).
  split; [exact Ht|]. refine (eq_trans He _). vm_compute. reflexivity.
Defined.

(** Process 5 has a duplicate of a connection of process 7. *)
Lemma pair_removed_once_witness :
  let s := snd (receive_all 5 next_fd [Header (Packet (1, 2) 7 4 false); Descriptor 4] (set_thread Ready empty_shmem)) in
  elements (dups s) = [10] /\
  (exists s', ipc_remove_iface_pair 5 (1, 2) s = (Ret true, s') /\ 10 ∉ dups s') /\
  let other := set_fg_data (delete (1, 2)) s in
  ipc_remove_iface_pair 5 (1, 2) other = (Ret false, other).
Proof.
  intros s. split; [vm_compute; reflexivity|]. split.
  - destruct (proj1 (pair_removed_once 5 (1, 2) s) 0) as (s' & E & _ & _ & H); [vm_compute; reflexivity|].
    exists s'. split; [exact E|]. rewrite H. intros [_ Hno]. apply Hno. exists (7, 4).
    split; [simpl; lia|vm_compute; reflexivity].
  - apply (pair_removed_once 5 (1, 2)). vm_compute. reflexivity.
Defined.
