(* ===== verification/Doubles.v ===== *)
(** IEEE 754 binary64 as the C++ code uses it.

    A [double] is a [spec_float] of the Standard Library's executable
    specification of floating point, with 53 bits of precision and exponents
    below 1024; rounding is to nearest, ties to even.  Conversions to unsigned
    integers truncate towards zero; the value of a conversion whose argument does not fit
    is left open by C++, and so is what an uninitialised variable holds: both are
    parameters ([Unspecified]). *)

From S2P Require Import Prelude.
From Stdlib Require Import ZArith SpecFloat Lia.

Definition double : Type := spec_float.
Definition prec : Z := 53.
Definition emax : Z := 1024.

Declare Scope double_scope.
Delimit Scope double_scope with D.
Bind Scope double_scope with double.

Notation "x + y" := (SFadd prec emax x y) : double_scope.
Notation "x - y" := (SFsub prec emax x y) : double_scope.
Notation "x * y" := (SFmul prec emax x y) : double_scope.
Notation "x / y" := (SFdiv prec emax x y) : double_scope.

(** The comparisons [x < y], [x <= y], [x == y]; all are false on a NaN. *)
Abbreviation dlt := SFltb.
Abbreviation dle := SFleb.
Abbreviation deq := SFeqb.
Definition fabs (x : double) : double := SFabs x.

(** The conversion of an integer, rounded. *)
Definition of_Z (z : Z) : double := binary_normalize prec emax z 0 false.
Definition dzero : double := S754_zero false.

(** A literal such as 0.9 is the double nearest to the quotient, which is what
    the division of the two exact integers gives. *)
Definition ratio (n d : Z) : double := (of_Z n / of_Z d)%D.

(** A [float] literal, rounded to 24 bits, as a double (the conversion is exact). *)
Definition float_ratio (n d : Z) : double :=
  match SFdiv 24 128 (binary_normalize 24 128 n 0 false) (binary_normalize 24 128 d 0 false) with
  | S754_finite s m e => binary_normalize prec emax (cond_Zopp s (Zpos m)) e s
  | x => x
  end.

(** The integral part; none for infinities and NaN. *)
Definition trunc (x : double) : option Z :=
  match x with
  | S754_zero _ => Some 0
  | S754_finite s m e => Some (cond_Zopp s (if 0 <=? e then Zpos m * 2 ^ e else Zpos m / 2 ^ (- e)))
  | _ => None
  end.

(** What C++ leaves open: conversions out of range, by width, and the value of the n-th read of an
    uninitialised variable. *)
Class Unspecified := {
  bad_conversion : Z -> double -> Z;
  uninitialised : nat -> double
}.

Section conversions.
Context `{!Unspecified}.

Definition to_unsigned (w : Z) (x : double) : Z :=
  match trunc x with
  | Some z => if (0 <=? z) && (z <? 2 ^ w) then z else wrap_u w (bad_conversion w x)
  | None => wrap_u w (bad_conversion w x)
  end.
Lemma to_unsigned_range w x : 0 <= w -> 0 <= to_unsigned w x < 2 ^ w.
Proof.
  intros Hw. unfold to_unsigned. destruct (trunc x) as [z|]; [|by apply wrap_u_range].
  destruct (_ && _) eqn:E; [|by apply wrap_u_range]. apply andb_prop in E as [?%Z.leb_le ?%Z.ltb_lt]. lia.
Qed.

Definition to_u_long : double -> Z := to_unsigned 64.
Definition to_useconds_t : double -> Z := to_unsigned 32.
End conversions.
