(* ===== verification/Sampler.v ===== *)
(** The scout's sampler of up and down times from a file of percentages and values:
    cdf_sampler.h, cdf_sampler.cpp, on binary64 numbers.

    The map from percentages to values is the list of its pairs in ascending
    order.  random(3) is a list of draws; [None] is a result for which more of them
    are needed. *)

From S2P Require Import Prelude Doubles.
From Stdlib Require Import SpecFloat.

Inductive cdf_error := OpenFailed | InvalidData | NotInvertible | NoData.
Abbreviation cdf_map := (list (double * double)).

(** operator[] and assignment, for a percentage that is not there yet. *)
Fixpoint cdf_insert (percent val : double) (m : cdf_map) : cdf_map :=
  match m with
  | [] => [(percent, val)]
  | (p, v) :: m => if dlt percent p then (percent, val) :: (p, v) :: m else (p, v) :: cdf_insert percent val m
  end.
(** [find] by the order of the map. *)
Definition cdf_mem (percent : double) (m : cdf_map) : bool :=
  existsb (fun x => negb (dlt percent x.1) && negb (dlt x.1 percent)) m.

(** The lines (value, percentage) as far as fscanf reads them. *)
Fixpoint read_lines (lines : list (double * double)) (percent : double) (m : cdf_map) : cdf_error + cdf_map :=
  match lines with
  | [] => if dlt percent dzero then inl NoData else inr m
  | (val, percent) :: lines =>
      if dlt percent dzero then inl InvalidData
      else if cdf_mem percent m then inl NotInvertible
      else read_lines lines percent (cdf_insert percent val m)
  end.
Definition read_distribution (file : option (list (double * double))) : cdf_error + cdf_map :=
  match file with None => inl OpenFailed | Some lines => read_lines lines (of_Z (-1)) [] end.

Definition RAND_MAX : Z := 2 ^ 31 - 1.
Definition randDouble (random : Z) : double := (of_Z random / (of_Z RAND_MAX + of_Z 1))%D.

Definition upper_bound (alpha : double) (m : cdf_map) : option nat :=
  fst <$> list_find (fun x => dlt alpha x.1 = true) m.

(** The value for [alpha] between two points. *)
Definition interpolate (lower upper : double * double) (alpha : double) : double :=
  if deq alpha lower.1 then lower.2
  else if deq alpha upper.1 then upper.2
  else
    let slope := ((upper.2 - lower.2) / (upper.1 - lower.1))%D in
    let delta := (alpha - lower.1)%D in
    (lower.2 + slope * delta)%D.

(** One draw: [Ret None] is to draw again.  A reverse iterator made from [upper]
    already stands for the element before it, and is advanced once more. *)
Definition try_quantile (alpha : double) (m : cdf_map) : outcome (option double) :=
  match upper_bound alpha m with
  | None => Trap UndefinedBehaviour
  | Some O => Ret None
  | Some i =>
      upper ← access (m !! i);
      match (i - 1)%nat with
      | O => Ret None
      | S j => lower ← access (m !! j); Ret (Some (interpolate lower upper alpha))
      end
  end.
Fixpoint sample_quantile (randoms : list Z) (m : cdf_map) : outcome (option (double * list Z)) :=
  match randoms with
  | [] => Ret None
  | r :: randoms =>
      x ← try_quantile (randDouble r) m;
      match x with Some x => Ret (Some (x, randoms)) | None => sample_quantile randoms m end
  end.

Record sampler := Sampler { sp_map : cdf_map; sp_samples : list double; sp_next : nat }.

(** The samples drawn in advance; every one uses up a draw at least. *)
Fixpoint presample (fuel : nat) (duration total : double) (m : cdf_map) (samples : list double) (randoms : list Z)
    : outcome (option (list double * list Z)) :=
  match fuel with
  | O => Ret None
  | S fuel =>
      if dlt total duration then
        x ← sample_quantile randoms m;
        match x with
        | None => Ret None
        | Some (sample, randoms) => presample fuel duration (total + sample)%D m (samples ++ [sample]) randoms
        end
      else Ret (Some (samples, randoms))
  end.
Definition CDFSampler (file : option (list (double * double))) (duration : double) (randoms : list Z)
    : cdf_error + outcome (option (sampler * list Z)) :=
  match read_distribution file with
  | inl e => inl e
  | inr m => inr
      (if dlt dzero duration then
         r ← presample (S (length randoms)) duration dzero m [] randoms;
         Ret (match r with Some (samples, randoms) => Some (Sampler m samples 0, randoms) | None => None end)
       else Ret (Some (Sampler m [] 0, randoms)))
  end.

Definition sample (randoms : list Z) (s : sampler) : outcome (option (double * list Z)) * sampler :=
  match sp_samples s !! sp_next s with
  | Some x => (Ret (Some (x, randoms)), Sampler (sp_map s) (sp_samples s) (S (sp_next s)))
  | None => (sample_quantile randoms (sp_map s), s)
  end.

(** ** What a draw gives *)
Lemma upper_bound_Some alpha m i :
  upper_bound alpha m = Some i <->
  (exists x : double * double, m !! i = Some x /\ dlt alpha x.1 = true) /\ forall j (x : double * double), (j < i)%nat -> m !! j = Some x -> dlt alpha x.1 = false.
Proof.
  unfold upper_bound. rewrite fmap_Some. split.
  - intros ([k x] & H & ->). apply list_find_Some in H as (H1 & H2 & H3). simpl. split; [eauto|].
    intros j y Hj Hy. apply not_true_iff_false. exact (H3 j y Hy Hj).
  - intros ((x & Hx & Hd) & Hbefore). exists (i, x). split; [|done]. apply list_find_Some. split_and!; [done..|].
    intros j y Hy Hj Ht. exact (eq_true_false_abs _ Ht (Hbefore j y Hj Hy)).
Qed.
Lemma upper_bound_None alpha m :
  upper_bound alpha m = None <-> Forall (fun x => dlt alpha x.1 = false) m.
Proof.
  unfold upper_bound. rewrite fmap_None, list_find_None. apply Forall_proper; [|done].
  intros x. by rewrite not_true_iff_false.
Qed.

(** The quantile function as it is.  A draw is undefined behaviour when no percentage
    is above it; when only the first or the first two are, it is drawn again, so that
    the first interval of the distribution is never sampled; otherwise the
    value is interpolated between the point above the draw and the one two places
    before it, not the one just before. *)
Theorem try_quantile_spec alpha m :
  (try_quantile alpha m = Trap UndefinedBehaviour <-> Forall (fun x => dlt alpha x.1 = false) m) /\
  (try_quantile alpha m = Ret None <-> exists i, (i < 2)%nat /\ upper_bound alpha m = Some i) /\
  (forall v, try_quantile alpha m = Ret (Some v) <->
     exists i lower upper, upper_bound alpha m = Some (S (S i)) /\ m !! i = Some lower /\ m !! S (S i) = Some upper /\
       v = interpolate lower upper alpha).
Proof.
  unfold try_quantile. rewrite <- upper_bound_None. destruct (upper_bound alpha m) as [i|] eqn:E.
  2:{ split_and!; [done|split; [done|by intros (i & _ & ?)]|].
      intros v; split; [done|by intros (i & lower & upper & ? & _)]. }
  apply upper_bound_Some in E as [(x & Hx & _) _]. destruct i as [|[|i]].
  - split_and!; [done|split; [eauto|done]|]. intros v; split; [done|by intros (i & lower & upper & ? & _)].
  - rewrite Hx. simpl. split_and!; [done|split; [eauto|done]|]. intros v; split; [done|by intros (i & lower & upper & ? & _)].
  - rewrite Hx. simpl. destruct (lookup_lt_is_Some_2 m i) as [y Hy]; [apply lookup_lt_Some in Hx; lia|].
    rewrite Hy. simpl. split_and!; [done|split; [done|]|].
    + intros (j & Hj & [= <-]). lia.
    + intros v. split; [intros [= <-]; by exists i, y, x|].
      intros (j & lower & upper & [= <-] & Hl & Hu & ->). by simplify_eq.
Qed.

(** A distribution of two points is never sampled, however often one draws. *)
Theorem two_points_never_sampled p q randoms :
  Forall (fun r => dlt (randDouble r) q.1 = true) randoms -> sample_quantile randoms [p; q] = Ret None.
Proof.
  induction 1 as [|r randoms Hr _ IH]; [done|]. simpl.
  destruct (try_quantile_spec (randDouble r) [p; q]) as (_ & [_ H2] & _).
  rewrite H2; [exact IH|]. destruct (dlt (randDouble r) p.1) eqn:E.
  - exists 0%nat. split; [lia|]. apply upper_bound_Some. split; [by exists p|]. intros; lia.
  - exists 1%nat. split; [lia|]. apply upper_bound_Some. split; [by exists q|].
    intros [|j] x Hj Hx; [by injection Hx as <-|lia].
Qed.
