(* ===== verification/FlipFlop.v ===== *)
(** The flip-flop filter of flipflop_estimate.h/.cpp.

    [FlipFlopEstimate] smooths observations by two exponentially weighted
    moving averages, an agile and a stable one, and picks one of them by whether
    the last observation was within its control limits.  The vector of named pointers to the five
    numbers is the record's fields in order.  Loading and saving as text is not
    modelled (the formatting of doubles by the standard library's streams). *)

From S2P Require Import Prelude Doubles.

#[local] Open Scope double_scope.

Definition STABLE_GAIN : double := ratio 9 10.
Definition AGILE_GAIN : double := ratio 1 10.
Definition MOVING_RANGE_GAIN : double := ratio 9 10.
Definition CENTER_LINE_GAIN : double := ratio 1 10.
Definition STDDEV_ESTIMATOR : double := float_ratio 1128 1000.

Record FlipFlopEstimate := FlipFlop {
  stable_estimate : double;
  agile_estimate : double;
  last_spot_value : double;
  moving_range : double;
  center_line : double;
  out_of_control : bool;
  valid : bool
}.

(** The constructor, [init] and the fields it sets. *)
Definition flipflop_init : FlipFlopEstimate :=
  FlipFlop dzero dzero dzero dzero dzero false false.

(** The update [EWMA = gain * EWMA + (1 - gain) * spot]. *)
Definition update_EWMA (EWMA spot gain : double) : double :=
  gain * EWMA + (of_Z 1 - gain) * spot.

Definition calc_limit_distance (f : FlipFlopEstimate) : double :=
  of_Z 3 * moving_range f / STDDEV_ESTIMATOR.

Definition spot_value_within_limits (f : FlipFlopEstimate) (spot_value : double) : bool :=
  let limit_distance := calc_limit_distance f in
  let lower := center_line f - limit_distance in
  let upper := center_line f + limit_distance in
  dle lower spot_value && dle spot_value upper.

(** [get_estimate(double&)]: the value written, when there is one. *)
Definition get_estimate_d (f : FlipFlopEstimate) : option double :=
  if negb (valid f) then None
  else Some (if out_of_control f then stable_estimate f else agile_estimate f).

(** The updates of [add_observation]. *)
Definition observed (f : FlipFlopEstimate) (new_spot_value : double) : FlipFlopEstimate :=
  let new_MR_value := fabs (new_spot_value - last_spot_value f) in
  if negb (valid f) then
    FlipFlop new_spot_value new_spot_value new_spot_value (moving_range f) new_spot_value
      (out_of_control f) true
  else
    let agile := update_EWMA (agile_estimate f) new_spot_value AGILE_GAIN in
    let stable := update_EWMA (stable_estimate f) new_spot_value STABLE_GAIN in
    let within := spot_value_within_limits f new_spot_value in
    let range :=
      if deq (moving_range f) dzero || within
      then update_EWMA (moving_range f) new_MR_value MOVING_RANGE_GAIN else moving_range f in
    let center := update_EWMA (center_line f) new_spot_value CENTER_LINE_GAIN in
    FlipFlop stable agile new_spot_value range center (negb within) true.

(** The assertion is that of [dbg_print]. *)
Definition add_observation (f : FlipFlopEstimate) (new_spot_value : double) : outcome FlipFlopEstimate :=
  let f' := observed f new_spot_value in
  assert_ (bool_decide (is_Some (get_estimate_d f'))) ≫= fun _ => Ret f'.

(** [reset]: [init], then the observation. *)
Definition flipflop_reset (f : FlipFlopEstimate) (new_spot_value : double) : outcome FlipFlopEstimate :=
  add_observation flipflop_init new_spot_value.

Section rounding.
Context `{!Unspecified}.

Definition round_nearest (val : double) : Z := to_u_long (val + ratio 1 2).

(** [get_estimate(u_long&)]: the result and what is written, which without
    observations is the rounded content of the uninitialised local [float_est]. *)
Definition get_estimate (f : FlipFlopEstimate) (junk : nat) : bool * Z :=
  match get_estimate_d f with
  | Some est => (true, round_nearest est)
  | None => (false, round_nearest (uninitialised junk))
  end.
End rounding.

(** * What the filter computes

    The reference: the averages over the whole sequence of observations, each
    on its own, and the limits of the last step. *)
Definition ewma (gain : double) (first : double) (obs : list double) : double :=
  foldl (fun e x => update_EWMA e x gain) first obs.

(** The moving range over the observations after the first, with the last
    observation and the center line it is compared against. *)
Fixpoint range_of (range last center : double) (obs : list double) : double :=
  match obs with
  | [] => range
  | x :: obs =>
      let d := of_Z 3 * range / STDDEV_ESTIMATOR in
      let within := dle (center - d) x && dle x (center + d) in
      range_of (if deq range dzero || within then update_EWMA range (fabs (x - last)) MOVING_RANGE_GAIN else range)
        x (update_EWMA center x AGILE_GAIN) obs
  end.

(** The limits the last of [x :: obs ++ [y]] is judged by. *)
Definition in_limits (first : double) (obs : list double) (y : double) : bool :=
  let d := of_Z 3 * range_of dzero first first obs / STDDEV_ESTIMATOR in
  let center := ewma AGILE_GAIN first obs in
  dle (center - d) y && dle y (center + d).

Definition observe (f : FlipFlopEstimate) (obs : list double) : outcome FlipFlopEstimate :=
  foldl (fun o x => o ≫= fun f => add_observation f x) (Ret f) obs.

(** The state after [first :: obs]. *)
Definition after (first : double) (obs : list double) (f : FlipFlopEstimate) : Prop :=
  valid f = true /\
  stable_estimate f = ewma STABLE_GAIN first obs /\
  agile_estimate f = ewma AGILE_GAIN first obs /\
  center_line f = ewma AGILE_GAIN first obs /\
  last_spot_value f = default first (last obs) /\
  moving_range f = range_of dzero first first obs /\
  out_of_control f = match rev obs with [] => false | y :: o => negb (in_limits first (rev o) y) end.

Lemma ewma_snoc g first obs y : ewma g first (obs ++ [y]) = update_EWMA (ewma g first obs) y g.
Proof. unfold ewma. by rewrite foldl_app. Qed.

Lemma range_of_snoc r l c obs y :
  range_of r l c (obs ++ [y]) =
  let range := range_of r l c obs in
  let d := of_Z 3 * range / STDDEV_ESTIMATOR in
  let center := ewma AGILE_GAIN c obs in
  let within := dle (center - d) y && dle y (center + d) in
  if deq range dzero || within
  then update_EWMA range (fabs (y - default l (last obs))) MOVING_RANGE_GAIN else range.
Proof.
  revert r l c. induction obs as [|x obs IH]; intros; [done|]. cbn [app range_of]. rewrite IH.
  replace (default l (last (x :: obs))) with (default x (last obs)); [done|].
  rewrite last_cons. by destruct (last obs).
Qed.

Lemma observe_snoc f obs y : observe f (obs ++ [y]) = observe f obs ≫= fun f => add_observation f y.
Proof. unfold observe. by rewrite foldl_app. Qed.

Lemma add_observation_ret f x : add_observation f x = Ret (observed f x).
Proof.
  unfold add_observation. rewrite bool_decide_eq_true_2; [done|].
  unfold observed, get_estimate_d. destruct (valid f); eexists; reflexivity.
Qed.

Lemma add_observation_after first obs y f :
  after first obs f -> exists f', add_observation f y = Ret f' /\ after first (obs ++ [y]) f'.
Proof.
  intros (V & Hs & Ha & Hc & Hl & Hr & _). eexists. split; [apply add_observation_ret|].
  unfold after, observed. rewrite V. unfold spot_value_within_limits, calc_limit_distance. simpl. rewrite !ewma_snoc, range_of_snoc, last_snoc, rev_unit.
  rewrite Hs, Ha, Hc, Hr, Hl. unfold in_limits. rewrite rev_involutive. by split_and!.
Qed.

Lemma observe_after first obs :
  exists f, observe flipflop_init (first :: obs) = Ret f /\ after first obs f.
Proof.
  induction obs as [|y obs (f & E & H)] using rev_ind.
  - eexists. split; [reflexivity|]. by split_and!.
  - destruct (add_observation_after first obs y f H) as (f' & E' & H'). exists f'. split; [|done].
    rewrite app_comm_cons, observe_snoc, E. exact E'.
Qed.

Lemma observe_init_valid f obs :
  observe flipflop_init obs = Ret f -> valid f = bool_decide (obs <> []).
Proof.
  destruct obs as [|x obs]; [by intros [= <-]|]. destruct (observe_after x obs) as (f' & E & V & _).
  rewrite E. intros [= <-]. by rewrite V.
Qed.

(** For every sequence of observations the filter computes what the averages
    over the whole sequence say: no assertion fails; without observations there is no
    estimate, and writing it as a u_long writes the rounded content of an
    uninitialised variable; after one observation the estimate is that observation; after more, it is the
    agile average if the last observation is within three deviations of the
    agile average of the earlier ones, and the stable average if not (the
    center line is always the agile average). *)
Theorem flipflop_spec `{!Unspecified} obs n :
  exists f, observe flipflop_init obs = Ret f /\
  match obs with
  | [] => get_estimate_d f = None /\ get_estimate f n = (false, round_nearest (uninitialised n))
  | first :: rest =>
      center_line f = agile_estimate f /\
      let est :=
        match rev rest with
        | [] => first
        | y :: earlier =>
            ewma (if in_limits first (rev earlier) y then AGILE_GAIN else STABLE_GAIN) first rest
        end in
      get_estimate_d f = Some est /\ get_estimate f n = (true, round_nearest est)
  end.
Proof.
  destruct obs as [|first rest]; [by eexists|].
  destruct (observe_after first rest) as (f & E & V & Hs & Ha & Hc & _ & _ & Ho). exists f. split; [done|].
  split; [congruence|]. unfold get_estimate, get_estimate_d. rewrite V, Ho, Hs, Ha. simpl.
  destruct (rev rest) as [|y e] eqn:R; [|by destruct in_limits].
  apply (f_equal (@rev _)) in R. rewrite rev_involutive in R. by subst.
Qed.
