(* ===== verification/Instruments.v ===== *)
(** The chooser on the instruments library: intnw_instruments_network_chooser.h/.cpp
    and intnw_instruments_net_stats_wrapper.h/.cpp.

    The library (libinstruments, libpowertutor) is not in the repository: every call
    of it, and of the clock, is logged ([ic_calls]), and what it answers is a
    parameter that sees all calls so far ([InstrumentsLibrary]).  The functions the
    library calls back ([network_transfer_time] and its siblings) are operations of
    the model, as are the callbacks of asynchronous decisions, which are run by
    [run_decision], [pre_reevaluation] and [run_reevaluation].

    The mutex of the wrapper ([NetworkChooser::lock]) is part of the state: it is an
    error-checking mutex, so that unlocking one that is not held, or
    locking it twice, fails an assertion; before [setWrapper] there is none.  What
    other threads do while it is released is not modelled.  The files of the
    library's errors and the text of the session length are left out: a loaded
    session length is an argument of the constructor.  So is timing for debug output. *)

From S2P Require Import Prelude Labels Timeops Doubles FlipFlop Chooser.

Inductive network := Wifi | Cellular.
#[export] Instance network_eq_dec : EqDecision network.
Proof. solve_decision. Defined.

(** The estimators of the library, two or three per network. *)
Inductive estimate_kind := BandwidthUp | Rtt | SessionDuration.
Definition estimator : Type := network * estimate_kind.
(** [instruments_context_t]; [None]: NULL. *)
Definition instruments_context : Type := option Z.

(** [instruments_strategy_t]: the three that are registered, or another pointer. *)
Inductive strategy := StrategyWifi | StrategyCellular | StrategyRedundant | OtherStrategy.
#[export] Instance strategy_eq_dec : EqDecision strategy.
Proof. solve_decision. Defined.

Definition NETWORK_CHOICE_WIFI : Z := 0.
Definition NETWORK_CHOICE_CELLULAR : Z := 1.
Definition NETWORK_CHOICE_BOTH : Z := 2.
Definition strategies : list strategy := [StrategyWifi; StrategyCellular; StrategyRedundant].

Record labeled_data := LabeledData { ld_send_label : Z; ld_bytelen : Z }.
#[export] Instance labeled_data_eq_dec : EqDecision labeled_data.
Proof. solve_decision. Defined.

(** What is passed where the library takes a [void *]: the data, or a number cast to
    a pointer. *)
Inductive chooser_arg := ArgData (d : labeled_data) | ArgNumber (n : Z).

Definition chooser_arg_less (l r : labeled_data) : bool :=
  (ld_send_label l <? ld_send_label r) ||
  ((ld_send_label l =? ld_send_label r) && (ld_bytelen l <? ld_bytelen r)).
Definition chooser_arg_copier (a : chooser_arg) : outcome labeled_data :=
  match a with ArgData d => Ret d | ArgNumber _ => Trap UndefinedBehaviour end.

Inductive EvalMethod := TRUSTED_ORACLE | CONFIDENCE_BOUNDS | CONFIDENCE_BOUNDS_WEIGHTED | BAYESIAN.
#[export] Instance EvalMethod_eq_dec : EqDecision EvalMethod.
Proof. solve_decision. Defined.

(** The values of intnw_config.h. *)
Class InstrumentsConfig := {
  getWifiFailoverDelay : double;
  session_distribution : option (double * double);     (* shape and scale *)
  getEstimatorErrorEvalMethod : EvalMethod;
  getDisableBandwidthError : bool;
  shouldLoadErrors : bool;
  shouldSaveErrors : bool
}.
Definition use_session_distribution `{!InstrumentsConfig} : bool := bool_decide (is_Some session_distribution).

(** What the library runs later. *)
Inductive job :=
| DecisionJob (irob_id singular_type : Z)               (* getRedundancyDecisionCallback *)
| ReevaluationJob (irob_id : Z) (chosen_network : network).

Inductive inst_call :=
| GetTime
| AddObservation (e : estimator) (observation estimate : double)
| ResetEstimatorError (e : estimator)
| SetAtLeast (e : estimator) (bound : double)
| ClearConditions (e : estimator)
| EstimatorValue (ctx : instruments_context) (e : estimator)
| ProbabilityInRange (lower upper : double)
| RefreshEnergyCalculators
| EnergyCost (n : network) (datalen bandwidth rtt_ms : Z)
| RestoreEvaluator
| SaveEvaluator
| ChooseNonredundant (d : labeled_data)
| ChooseStrategyAsync (arg : chooser_arg) (j : job)
| ScheduleReevaluation (arg : chooser_arg) (j : job) (delay : double)
| LastStrategyTime (s : strategy)
| StrategyTime (ctx : instruments_context) (s : strategy) (d : labeled_data)
| StrategyEnergy (ctx : instruments_context) (s : strategy) (d : labeled_data)
| StrategyData (ctx : instruments_context) (s : strategy) (d : labeled_data)
| SetFixedWeights (energy data : double)
| SetBudgets (goal : timeval) (energy data : Z)
| EnergyConsumed
| MobileBytesConsumed
| ReportEnergy (mJ : Z)
| ReportData (bytes : Z)
| UpdateWeights
| EnergyWeight
| DataWeight.

(** The answer to the last of the calls so far. *)
Class InstrumentsLibrary := {
  lib_double : list inst_call -> double;
  lib_int : list inst_call -> Z;
  lib_strategy : list inst_call -> strategy;
  lib_time : list inst_call -> timeval;
  TYPE_WIFI : Z                                        (* libpowertutor's enumeration *)
}.

(** * State *)

(** [InstrumentsWrappedNetStats]. *)
Record wrapped_stats := WStats {
  session_duration : FlipFlopEstimate;
  first_update : bool;
  ws_last_bw_estimate : double;
  ws_last_RTT_estimate : double;
  first_bw_up_estimate : double;
  first_RTT_estimate : double
}.
Definition wrapped_stats_new : wrapped_stats := WStats flipflop_init true dzero dzero dzero dzero.

Record ichooser := IChooser {
  ic_has_match : bool;
  ic_lock : option bool;                 (* None: no wrapper yet; Some held *)
  wifi_present : bool;
  cellular_present : bool;
  wifi_begin : timeval;
  needs_reevaluation : bool;
  chosen_strategy_type : Z;
  chosen_singular_strategy_type : Z;
  ic_wifi : iface_pair;                  (* wifi_local, wifi_remote *)
  ic_cellular : iface_pair;
  label_matcher : LabelMatcher;
  wifi_stats : wrapped_stats;
  cellular_stats : wrapped_stats;
  energy_spent_mJ : Z;                   (* static *)
  data_spent_bytes : Z;                  (* static *)
  ic_calls : list inst_call
}.

Definition set_candidates hm wp cp w g m (c : ichooser) : ichooser := IChooser hm (ic_lock c) wp cp (wifi_begin c)
  (needs_reevaluation c) (chosen_strategy_type c) (chosen_singular_strategy_type c) w g m
  (wifi_stats c) (cellular_stats c) (energy_spent_mJ c) (data_spent_bytes c) (ic_calls c).
Definition set_chosen ne ct st (c : ichooser) : ichooser := IChooser (ic_has_match c) (ic_lock c) (wifi_present c)
  (cellular_present c) (wifi_begin c) ne ct st (ic_wifi c) (ic_cellular c) (label_matcher c)
  (wifi_stats c) (cellular_stats c) (energy_spent_mJ c) (data_spent_bytes c) (ic_calls c).
Definition set_ic_lock l (c : ichooser) : ichooser := IChooser (ic_has_match c) l (wifi_present c)
  (cellular_present c) (wifi_begin c) (needs_reevaluation c) (chosen_strategy_type c) (chosen_singular_strategy_type c)
  (ic_wifi c) (ic_cellular c) (label_matcher c)
  (wifi_stats c) (cellular_stats c) (energy_spent_mJ c) (data_spent_bytes c) (ic_calls c).
Definition set_wifi_begin t (c : ichooser) : ichooser := IChooser (ic_has_match c) (ic_lock c) (wifi_present c)
  (cellular_present c) t (needs_reevaluation c) (chosen_strategy_type c) (chosen_singular_strategy_type c)
  (ic_wifi c) (ic_cellular c) (label_matcher c)
  (wifi_stats c) (cellular_stats c) (energy_spent_mJ c) (data_spent_bytes c) (ic_calls c).
Definition set_wifi_stats w (c : ichooser) : ichooser := IChooser (ic_has_match c) (ic_lock c) (wifi_present c)
  (cellular_present c) (wifi_begin c) (needs_reevaluation c) (chosen_strategy_type c) (chosen_singular_strategy_type c)
  (ic_wifi c) (ic_cellular c) (label_matcher c)
  w (cellular_stats c) (energy_spent_mJ c) (data_spent_bytes c) (ic_calls c).
Definition set_cellular_stats w (c : ichooser) : ichooser := IChooser (ic_has_match c) (ic_lock c) (wifi_present c)
  (cellular_present c) (wifi_begin c) (needs_reevaluation c) (chosen_strategy_type c) (chosen_singular_strategy_type c)
  (ic_wifi c) (ic_cellular c) (label_matcher c)
  (wifi_stats c) w (energy_spent_mJ c) (data_spent_bytes c) (ic_calls c).
Definition set_spent e d (c : ichooser) : ichooser := IChooser (ic_has_match c) (ic_lock c) (wifi_present c)
  (cellular_present c) (wifi_begin c) (needs_reevaluation c) (chosen_strategy_type c) (chosen_singular_strategy_type c)
  (ic_wifi c) (ic_cellular c) (label_matcher c) (wifi_stats c) (cellular_stats c) e d (ic_calls c).
Definition set_calls l (c : ichooser) : ichooser := IChooser (ic_has_match c) (ic_lock c) (wifi_present c)
  (cellular_present c) (wifi_begin c) (needs_reevaluation c) (chosen_strategy_type c) (chosen_singular_strategy_type c)
  (ic_wifi c) (ic_cellular c) (label_matcher c)
  (wifi_stats c) (cellular_stats c) (energy_spent_mJ c) (data_spent_bytes c) l.

Definition stats_of (n : network) (c : ichooser) : wrapped_stats :=
  match n with Wifi => wifi_stats c | Cellular => cellular_stats c end.
Definition upd_stats (n : network) (f : wrapped_stats -> wrapped_stats) (c : ichooser) : ichooser :=
  match n with Wifi => set_wifi_stats (f (wifi_stats c)) c | Cellular => set_cellular_stats (f (cellular_stats c)) c end.

(** std::max on doubles. *)
Definition dmax (a b : double) : double := if dlt a b then b else a.
Definition one : double := of_Z 1.

Section instruments.
Context `{!Unspecified} `{!NetEstimates} `{!InstrumentsConfig} `{!InstrumentsLibrary}.
Abbreviation IM := (M ichooser).

Definition ask (x : inst_call) : IM unit := modify (fun c => set_calls (ic_calls c ++ [x]) c).
Definition ask_double (x : inst_call) : IM double := ask x;; gets (fun c => lib_double (ic_calls c)).
Definition ask_int (x : inst_call) : IM Z := ask x;; gets (fun c => lib_int (ic_calls c)).
Definition ask_strategy (x : inst_call) : IM strategy := ask x;; gets (fun c => lib_strategy (ic_calls c)).
Definition ask_time : IM timeval := ask GetTime;; gets (fun c => lib_time (ic_calls c)).

(** [NetworkChooserImpl::lock], [unlock]. *)
Definition lock : IM unit :=
  c ← get;
  match ic_lock c with
  | None => lift (Trap UndefinedBehaviour)
  | Some held => lift (assert_ (negb held));; modify (set_ic_lock (Some true))
  end.
Definition unlock : IM unit :=
  c ← get;
  match ic_lock c with
  | None => lift (Trap UndefinedBehaviour)
  | Some held => lift (assert_ held);; modify (set_ic_lock (Some false))
  end.

(** * InstrumentsWrappedNetStats *)

Definition get_estimator_value (ctx : instruments_context) (e : estimator) : IM double :=
  ask_double (EstimatorValue ctx e).
Definition get_bandwidth_up ctx (n : network) : IM double := get_estimator_value ctx (n, BandwidthUp).
Definition get_rtt ctx (n : network) : IM double := get_estimator_value ctx (n, Rtt).
Definition get_session_duration ctx (n : network) : IM double := get_estimator_value ctx (n, SessionDuration).

(** [InstrumentsWrappedNetStats::getWifiFailurePenalty]. *)
Definition failure_penalty (n : network) (ctx : instruments_context)
    (transfer_time current_wifi_duration penalty : double) : IM double :=
  let wifi_failover_window := getWifiFailoverDelay in
  if use_session_distribution then
    let failure_window_end := (current_wifi_duration + transfer_time + wifi_failover_window)%D in
    fail_prob ← ask_double (ProbabilityInRange current_wifi_duration failure_window_end);
    mret (penalty * fail_prob)%D
  else
    match ctx with
    | Some _ =>
        predicted_wifi_duration ← get_session_duration ctx n;
        mret (if dle (predicted_wifi_duration - wifi_failover_window)%D current_wifi_duration then penalty else dzero)
    | None => mret dzero
    end.

(** With the mutex released: the library locks the subscribers of the estimator. *)
Definition add_observation_unlocked (e : estimator) (observation estimate : double) : IM unit :=
  unlock;; ask (AddObservation e observation estimate);; lock.

Definition first_bw (n : network) (est : double) : IM unit :=
  modify (upd_stats n (fun w => WStats (session_duration w) (first_update w) (ws_last_bw_estimate w)
    (ws_last_RTT_estimate w) (if first_update w then est else first_bw_up_estimate w) (first_RTT_estimate w))).
Definition last_bw (n : network) (est : double) : IM unit :=
  modify (upd_stats n (fun w => WStats (session_duration w) (first_update w) est
    (ws_last_RTT_estimate w) (first_bw_up_estimate w) (first_RTT_estimate w))).
Definition first_and_last_RTT (n : network) (est : double) : IM unit :=
  modify (upd_stats n (fun w => WStats (session_duration w) (first_update w) (ws_last_bw_estimate w)
    est (first_bw_up_estimate w) (if first_update w then est else first_RTT_estimate w))).

Definition bandwidth_observed : bool :=
  negb getDisableBandwidthError ||
  negb (bool_decide (getEstimatorErrorEvalMethod = CONFIDENCE_BOUNDS)
        || bool_decide (getEstimatorErrorEvalMethod = CONFIDENCE_BOUNDS_WEIGHTED)).

(** The body of the loop of [update]. *)
Definition update_body (n : network) (bw_up bw_estimate RTT_seconds RTT_estimate : double) : IM unit :=
  when (dlt dzero bw_up)
    (when bandwidth_observed
       (add_observation_unlocked (n, BandwidthUp) bw_up bw_estimate;; first_bw n bw_estimate);;
     last_bw n bw_estimate);;
  when (dlt dzero RTT_seconds)
    (add_observation_unlocked (n, Rtt) RTT_seconds RTT_estimate;; first_and_last_RTT n RTT_estimate).

Definition was_first_update (n : network) : IM bool :=
  c ← get;
  modify (upd_stats n (fun w => WStats (session_duration w) false (ws_last_bw_estimate w)
    (ws_last_RTT_estimate w) (first_bw_up_estimate w) (first_RTT_estimate w)));;
  mret (first_update (stats_of n c)).

(** [do ... while (was_first_update())], with fuel; [false]: it has run out. *)
Fixpoint update_loop (fuel : nat) (n : network) (bw_up bw_estimate RTT_seconds RTT_estimate : double) : IM bool :=
  match fuel with
  | O => mret false
  | S fuel =>
      update_body n bw_up bw_estimate RTT_seconds RTT_estimate;;
      again ← was_first_update n;
      if again : bool then update_loop fuel n bw_up bw_estimate RTT_seconds RTT_estimate else mret true
  end.

(** The loop runs at most twice. *)
Definition update (n : network) (bw_up bw_estimate RTT_seconds RTT_estimate : double) : IM unit :=
  if deq bw_up dzero && deq RTT_seconds dzero then mret tt
  else update_loop 2 n bw_up bw_estimate RTT_seconds RTT_estimate;; mret tt.

Definition set_session (n : network) (f : FlipFlopEstimate) : IM unit :=
  modify (upd_stats n (fun w => WStats f (first_update w) (ws_last_bw_estimate w)
    (ws_last_RTT_estimate w) (first_bw_up_estimate w) (first_RTT_estimate w))).

Definition seconds_of (t : timeval) : double := (of_Z (tv_sec t) + of_Z (tv_usec t) / of_Z 1000000)%D.

Definition addSessionDuration (n : network) (duration : timeval) : IM unit :=
  c ← get;
  f ← lift (add_observation (session_duration (stats_of n c)) (seconds_of duration));
  set_session n f;;
  match get_estimate_d f with
  | None => mret tt
  | Some duration_est =>
      when (negb use_session_distribution)
        (add_observation_unlocked (n, SessionDuration) (seconds_of duration) duration_est)
  end.

(** [f]: what the file holds. *)
Definition loadSessionLength (n : network) (f : FlipFlopEstimate) : IM unit :=
  set_session n f;;
  match get_estimate_d f with
  | None => lift (Trap AssertFailed)
  | Some duration_est =>
      when (negb use_session_distribution) (ask (AddObservation (n, SessionDuration) duration_est duration_est))
  end.

Definition setWifiSessionLengthBound (n : network) (cur_session_length : double) : IM unit :=
  when (negb use_session_distribution) (ask (SetAtLeast (n, SessionDuration) cur_session_length)).
Definition setRttLowerBound (n : network) (min_rtt : double) : IM unit := ask (SetAtLeast (n, Rtt) min_rtt).
Definition clearRttLowerBound (n : network) : IM unit := ask (ClearConditions (n, Rtt)).

Definition resetError (n : network) : IM unit :=
  c ← get;
  let w := stats_of n c in
  ask (AddObservation (n, BandwidthUp) (first_bw_up_estimate w) (first_bw_up_estimate w));;
  ask (AddObservation (n, Rtt) (first_RTT_estimate w) (first_RTT_estimate w));;
  ask (ResetEstimatorError (n, BandwidthUp));;
  ask (ResetEstimatorError (n, Rtt)).

(** * The costs of a strategy *)

(** Wrappers against bogus values. *)
Definition getBandwidthUp ctx (n : network) : IM double :=
  bw ← get_bandwidth_up ctx n; mret (dmax one bw).
Definition getRttSeconds ctx (n : network) : IM double :=
  rtt_seconds ← get_rtt ctx n; mret (dmax dzero rtt_seconds).

Definition getCurrentWifiDuration : IM double :=
  c ← get;
  if negb (tv_sec (wifi_begin c) =? 0) then
    now ← ask_time;
    duration ← lift (TIMEDIFF (wifi_begin c) now);
    mret (seconds_of duration)
  else mret dzero.

Definition getWifiFailurePenalty ctx (n : network) (transfer_time penalty : double) : IM double :=
  match n with
  | Cellular => mret dzero
  | Wifi =>
      current_wifi_duration ← getCurrentWifiDuration;
      failure_penalty Wifi ctx transfer_time current_wifi_duration penalty
  end.

Definition averageWifiFailoverPenalty : double := (getWifiFailoverDelay / of_Z 2)%D.

(** [data] is NULL or points to the labels and the size. *)
Definition data_label (data : option labeled_data) : Z := default 0 (ld_send_label <$> data).
Definition data_bytelen (data : option labeled_data) : Z := default 0 (ld_bytelen <$> data).

(** The bandwidth, the round-trip time and the time of the transfer. *)
Definition transfer_estimates ctx (n : network) (data : option labeled_data) : IM (double * double * double) :=
  bw ← getBandwidthUp ctx n;
  rtt_seconds ← getRttSeconds ctx n;
  mret (bw, rtt_seconds, (of_Z (data_bytelen data) / bw + rtt_seconds)%D).

Definition calculateTransferTime ctx (n : network) (data : option labeled_data) : IM double :=
  e ← transfer_estimates ctx n data;
  let tx_time := e.2 in
  wifi_failure_penalty ←
    (if has_bits (data_label data) CMM_LABEL_WIFI_ONLY then mret dzero
     else getWifiFailurePenalty ctx n tx_time averageWifiFailoverPenalty);
  mret (tx_time + wifi_failure_penalty)%D.

(** The conversions are those of the arguments to [size_t]. *)
Definition estimate_energy_cost (n : network) (datalen : Z) (bandwidth rtt_ms : double) : IM double :=
  cost ← ask_int (EnergyCost n (to_size_t datalen) (to_u_long bandwidth) (to_u_long rtt_ms));
  mret (of_Z cost).

Definition calculateTransferEnergy ctx (n : network) (data : option labeled_data) : IM double :=
  lift (assert_ (bool_decide (is_Some ctx)));;
  e ← transfer_estimates ctx n data;
  let '(bw, rtt_seconds, tx_time) := e in
  wifi_failure_penalty ←
    (if bool_decide (n = Wifi) && negb (has_bits (data_label data) CMM_LABEL_WIFI_ONLY) then
       cellular_bw ← get_bandwidth_up None Cellular;
       cellular_rtt_seconds ← get_rtt None Cellular;
       cellular_fallback_energy ←
         estimate_energy_cost Cellular (data_bytelen data) cellular_bw (cellular_rtt_seconds * of_Z 1000)%D;
       getWifiFailurePenalty ctx n tx_time cellular_fallback_energy
     else mret dzero);
  cost ← estimate_energy_cost n (data_bytelen data) bw (rtt_seconds * of_Z 1000)%D;
  mret (cost + wifi_failure_penalty)%D.

Definition calculateTransferMobileData ctx (n : network) (data : option labeled_data) : IM double :=
  match n with
  | Wifi =>
      if has_bits (data_label data) CMM_LABEL_WIFI_ONLY then mret dzero
      else
        e ← transfer_estimates ctx Wifi data;
        getWifiFailurePenalty ctx Wifi e.2 (of_Z (data_bytelen data))
  | Cellular => mret (of_Z (data_bytelen data))
  end.

(** * IntNWInstrumentsNetworkChooser *)

Definition getStrategyIndex (s : strategy) : outcome Z :=
  match list_find (fun x => s = x) strategies with
  | Some (i, _) => Ret (Z.of_nat i)
  | None => Trap AssertFailed
  end.
(** [strategies[i]]. *)
Definition strategy_at (i : Z) : outcome strategy :=
  if i <? 0 then Trap UndefinedBehaviour else access (strategies !! Z.to_nat i).

(** [loaded]: the session length of the statistics file, when one is configured. *)
Definition chooser_blank : ichooser :=
  IChooser false None false false timer_zero true (-1) (-1) zero_pair zero_pair
    (Matcher 0 0 false false false zero_pair zero_pair zero_pair zero_pair)
    wrapped_stats_new wrapped_stats_new 0 0 [].
Definition to_time_t (x : double) : Z :=
  match trunc x with
  | Some z => if (- 2 ^ 63 <=? z) && (z <? 2 ^ 63) then z else to_long (bad_conversion 64 x)
  | None => to_long (bad_conversion 64 x)
  end.
Definition construct (loaded : option FlipFlopEstimate) : IM unit :=
  ask RefreshEnergyCalculators;;
  when shouldLoadErrors (ask RestoreEvaluator);;
  match loaded with
  | Some f => loadSessionLength Wifi f
  | None => addSessionDuration Wifi (Timeval (to_time_t getWifiFailoverDelay) 0)
  end.

(** [NetworkChooser::create] for this implementation, up to [setWrapper]. *)
Definition reset_chooser : IM unit :=
  modify (fun c => set_chosen true (-1) (-1)
    (set_candidates false false false (ic_wifi c) (ic_cellular c) (reset (label_matcher c)) c)).
Definition create_chooser (loaded : option FlipFlopEstimate) : IM unit :=
  construct loaded;; reset_chooser;; modify (set_ic_lock (Some false)).

Definition consider_pair (p : iface_pair) : IM unit :=
  modify (fun c => set_candidates true (wifi_present c) (cellular_present c) (ic_wifi c) (ic_cellular c)
                     (consider p (label_matcher c)) c);;
  if matches_type NET_TYPE_WIFI p.1 p.2 then
    modify (fun c => set_candidates true true (cellular_present c) p (ic_cellular c) (label_matcher c) c)
  else if matches_type NET_TYPE_THREEG p.1 p.2 then
    modify (fun c => set_candidates true (wifi_present c) true (ic_wifi c) p (label_matcher c) c)
  else lift (Trap AssertFailed).

Definition chooseNetwork (send_label bytelen : Z) : IM Z :=
  current ← getCurrentWifiDuration;
  setWifiSessionLengthBound Wifi current;;
  ask RefreshEnergyCalculators;;
  chosen ← ask_strategy (ChooseNonredundant (LabeledData send_label bytelen));
  lift (getStrategyIndex chosen).

Definition choose (send_label num_bytes : Z) : IM (option iface_pair) :=
  c ← get;
  if num_bytes =? 0 then mret (choose_networks send_label num_bytes (label_matcher c))
  else
    lift (assert_ (ic_has_match c));;
    lift (assert_ (wifi_present c || cellular_present c));;
    if negb (wifi_present c) || negb (cellular_present c) || has_network_restriction send_label then
      match choose_networks send_label num_bytes (label_matcher c) with
      | None => mret None
      | Some p =>
          (if negb (wifi_present c) || has_bits send_label CMM_LABEL_THREEG_ONLY then
             modify (set_chosen (needs_reevaluation c) NETWORK_CHOICE_CELLULAR NETWORK_CHOICE_CELLULAR)
           else if negb (cellular_present c) || has_bits send_label CMM_LABEL_WIFI_ONLY then
             modify (set_chosen (needs_reevaluation c) NETWORK_CHOICE_WIFI NETWORK_CHOICE_WIFI)
           else mret tt);;
          mret (Some p)
      end
    else
      when (needs_reevaluation c)
        (getCurrentWifiDuration;;
         singular ← chooseNetwork send_label (to_int num_bytes);
         modify (fun c => set_chosen false (chosen_strategy_type c) singular c));;
      c ← get;
      if chosen_singular_strategy_type c =? NETWORK_CHOICE_WIFI then mret (Some (ic_wifi c))
      else
        lift (assert_ (chosen_singular_strategy_type c =? NETWORK_CHOICE_CELLULAR));;
        mret (Some (ic_cellular c)).

(** ** Redundancy *)

Definition is_redundant (chosen_singular_strategy_type chosen_strategy_type : Z) : bool :=
  negb (chosen_strategy_type =? -1) &&
  ((chosen_strategy_type =? NETWORK_CHOICE_BOTH) ||
   negb (chosen_singular_strategy_type =? chosen_strategy_type)).

(** [RedundancyStrategy::shouldTransmitRedundantly]. *)
Definition should_transmit_redundantly : IM bool :=
  if bool_decide (getEstimatorErrorEvalMethod = TRUSTED_ORACLE) then mret false
  else
    c ← get;
    lift (assert_ (ic_has_match c));;
    mret (is_redundant (chosen_singular_strategy_type c) (chosen_strategy_type c)).

Definition checkRedundancyAsync (irob_id send_labels expected_bytes : Z) : IM unit :=
  if bool_decide (getEstimatorErrorEvalMethod = TRUSTED_ORACLE) then mret tt
  else
    c ← get;
    current ← getCurrentWifiDuration;
    setWifiSessionLengthBound Wifi current;;
    ask RefreshEnergyCalculators;;
    ask (ChooseStrategyAsync (ArgData (LabeledData send_labels (to_int expected_bytes)))
           (DecisionJob irob_id (chosen_singular_strategy_type c))).

(** The callback of a decision: what it passes to [CSockMapping::onRedundancyDecision]. *)
Definition run_decision (singular_type : Z) (s : strategy) : IM (Z * Z) :=
  type ← lift (getStrategyIndex s);
  modify (fun c => set_chosen (needs_reevaluation c) type (chosen_singular_strategy_type c) c);;
  mret (singular_type, type).

(** A case analysis on NUM_STRATEGIES is left out: it is 3. *)
Definition getSingularStrategyNotChosen : IM strategy :=
  c ← get;
  if chosen_strategy_type c =? NETWORK_CHOICE_BOTH then lift (Trap AssertFailed)
  else lift (strategy_at (Z.rem (chosen_strategy_type c + 1) 2)).

Definition getReevaluationDelay (already_reevaluated : bool) : IM double :=
  delay ←
    (if already_reevaluated then mret (ratio 2 10)
     else
       c ← get;
       chosen_strategy ← lift (strategy_at (chosen_strategy_type c));
       best_singular_time ← ask_double (LastStrategyTime chosen_strategy);
       delay ← (if chosen_strategy_type c =? NETWORK_CHOICE_WIFI then
                  penalty ← getWifiFailurePenalty None Wifi dzero averageWifiFailoverPenalty;
                  mret (best_singular_time - penalty)%D
                else mret best_singular_time);
       mret (delay * of_Z 2)%D);
  mret (dmax dzero delay).

(** The IROB is named by its identifier; its number of bytes is cast to a pointer. *)
Definition scheduleReevaluation (irob_id expected_bytes : Z) (already_reevaluated : bool) : IM unit :=
  c ← get;
  lift (assert_ (negb (chosen_strategy_type c =? NETWORK_CHOICE_BOTH)));;
  let chosen_network := if chosen_strategy_type c =? NETWORK_CHOICE_WIFI then Wifi else Cellular in
  lift (strategy_at (chosen_strategy_type c));;                          (* strategy_names[...] *)
  reeval_delay ← getReevaluationDelay already_reevaluated;
  ask (ScheduleReevaluation (ArgNumber expected_bytes) (ReevaluationJob irob_id chosen_network) reeval_delay).

(** The two callbacks of a re-evaluation; [min_rtt]: the time since the IROB was sent. *)
Definition pre_reevaluation (n : network) (min_rtt : double) : IM unit := setRttLowerBound n min_rtt.
Definition run_reevaluation (n : network) (s : strategy) : IM (Z * Z) :=
  c ← get;
  r ← run_decision (chosen_singular_strategy_type c) s;
  clearRttLowerBound n;;
  mret r.

(** ** Budgets *)
Definition setFixedResourceWeights (energyWeight dataWeight : double) : IM unit :=
  ask (SetFixedWeights energyWeight dataWeight).
Definition setAdaptiveResourceBudgets (goalTime : double) (energyBudgetMilliJoules dataBudgetBytes : Z) : IM unit :=
  let sec := to_time_t goalTime in
  let usec := to_time_t ((goalTime - of_Z sec) * of_Z 1000000)%D in
  modify (set_spent 0 0);;
  ask (SetBudgets (Timeval sec usec) energyBudgetMilliJoules dataBudgetBytes).
Definition updateResourceWeights : IM unit :=
  new_energy ← ask_int EnergyConsumed;
  new_data ← ask_int MobileBytesConsumed;
  c ← get;
  ask (ReportEnergy (to_int (new_energy - energy_spent_mJ c)));;
  ask (ReportData (to_int (new_data - data_spent_bytes c)));;
  ask UpdateWeights;;
  modify (set_spent new_energy new_data).
Definition getEnergyWeight : IM double := ask_double EnergyWeight.
Definition getDataWeight : IM double := ask_double DataWeight.

(** ** Reports *)
Definition report_stats (network_type : Z) (new_bw new_bw_estimate new_latency new_latency_estimate : double) : IM unit :=
  n ← (if network_type =? NET_TYPE_WIFI then mret Wifi
       else if network_type =? NET_TYPE_THREEG then mret Cellular
       else lift (Trap AssertFailed));
  update n new_bw new_bw_estimate new_latency new_latency_estimate;;
  modify (fun c => set_chosen true (chosen_strategy_type c) (chosen_singular_strategy_type c) c).

Definition network_setup (network_type : Z) : IM unit :=
  c ← get;
  when ((network_type =? TYPE_WIFI) && (tv_sec (wifi_begin c) =? 0))
    (now ← ask_time; modify (set_wifi_begin now)).

Definition network_teardown (network_type : Z) : IM unit :=
  c ← get;
  when ((network_type =? TYPE_WIFI) && negb (tv_sec (wifi_begin c) =? 0))
    (now ← ask_time;
     diff ← lift (TIMEDIFF (wifi_begin c) now);
     modify (set_wifi_begin timer_zero);;
     unlock;;
     addSessionDuration Wifi diff;;
     resetError Wifi;;
     lock).

(** ** Estimates for the application *)
Definition getChosenStrategy (net_restriction_labels : Z) : IM strategy :=
  c ← get;
  lift (assert_ (negb (has_bits net_restriction_labels CMM_LABEL_WIFI_ONLY) ||
                 negb (has_bits net_restriction_labels CMM_LABEL_THREEG_ONLY)));;
  if has_bits net_restriction_labels CMM_LABEL_WIFI_ONLY then mret StrategyWifi
  else if has_bits net_restriction_labels CMM_LABEL_THREEG_ONLY then mret StrategyCellular
  else if negb (chosen_strategy_type c =? -1) then lift (strategy_at (chosen_strategy_type c))
  else if negb (chosen_singular_strategy_type c =? -1) then lift (strategy_at (chosen_singular_strategy_type c))
  else lift (Trap AssertFailed).

Definition getEstimatedTransferTime ctx s (send_label bytes : Z) : IM double :=
  ask_double (StrategyTime ctx s (LabeledData send_label (to_int bytes))).
Definition getEstimatedTransferEnergy ctx s (send_label bytes : Z) : IM double :=
  ask_double (StrategyEnergy ctx s (LabeledData send_label (to_int bytes))).
Definition getEstimatedTransferData ctx s (send_label bytes : Z) : IM double :=
  ask_double (StrategyData ctx s (LabeledData send_label (to_int bytes))).

Definition get_rtt_estimator (net_restriction_labels : Z) : option estimator :=
  if has_bits net_restriction_labels CMM_LABEL_WIFI_ONLY then Some (Wifi, Rtt)
  else if has_bits net_restriction_labels CMM_LABEL_THREEG_ONLY then Some (Cellular, Rtt)
  else None.

Definition saveToFile : IM unit := when shouldSaveErrors (ask SaveEvaluator).

(** * The wrapper of network_chooser.cpp

    [PthreadScopedLock]: the mutex is held during a call, also when it throws.  The
    guard of [getGuardedChooser] does the same for a whole round. *)
Definition guarded {A} (m : IM A) : IM A := lock;; x ← m; unlock;; mret x.

Definition reportNetStats (network_type : Z) (new_bw new_bw_estimate new_latency new_latency_estimate : double) : IM unit :=
  guarded (report_stats network_type new_bw new_bw_estimate new_latency new_latency_estimate).
Definition reportNetworkSetup (network_type : Z) : IM unit := guarded (network_setup network_type).
Definition reportNetworkTeardown (network_type : Z) : IM unit := guarded (network_teardown network_type).
Definition chooser_shouldTransmitRedundantly : IM bool := guarded should_transmit_redundantly.
Definition chooser_checkRedundancyAsync (irob_id send_labels expected_bytes : Z) : IM unit :=
  guarded (checkRedundancyAsync irob_id send_labels expected_bytes).
Definition chooser_scheduleReevaluation (irob_id expected_bytes : Z) (already_reevaluated : bool) : IM unit :=
  guarded (scheduleReevaluation irob_id expected_bytes already_reevaluated).
Definition chooser_saveToFile : IM unit := guarded saveToFile.
Definition chooser_get_rtt_estimator (net_restriction_labels : Z) : IM (option estimator) :=
  guarded (mret (get_rtt_estimator net_restriction_labels)).

(** ** As the chooser of a multi-socket

    The interface of choosers has no failed assertions: the instance carries
    whether one has failed, after which the process would be gone. *)
Definition instruments_chooser : Type := ichooser * bool.
Definition run_op {A} (m : IM A) (c : instruments_chooser) : option A * instruments_chooser :=
  if c.2 then (None, c)
  else match m c.1 with
       | (Ret a, c') => (Some a, (c', false))
       | (_, c') => (None, (c', true))
       end.

#[export] Instance instruments_chooser_ops : ChooserOps instruments_chooser := {
  reset c := snd (run_op reset_chooser c);
  consider p c := snd (run_op (consider_pair p) c);
  choose_networks labels n c := mjoin (fst (run_op (choose labels n) c));
  chosen labels n c := snd (run_op (choose labels n) c)
}.
#[export] Instance instruments_chooser_impl : InstrumentsChooser instruments_chooser := {
  instruments_ops := instruments_chooser_ops;
  instruments_new := snd (run_op (create_chooser None) (chooser_blank, false));
  instruments_redundant c := default false (fst (run_op should_transmit_redundantly c))
}.
End instruments.
