(* ===== verification/InstrumentsSpec.v ===== *)
(** The chooser on the instruments library: what a round answers
    ([instruments_choice]), that a fallback to WiFi is recorded as cellular
    ([fallback_recorded_wrong]), that a first measurement counts twice
    ([update_spec]), and that without a configured session distribution the chooser
    fails ([no_distribution_fails]). *)

From S2P Require Import Prelude Labels Timeops Doubles FlipFlop Chooser Instruments.

Section spec.
Context `{!Unspecified} `{!NetEstimates} `{!InstrumentsConfig} `{!InstrumentsLibrary}.
Implicit Types (c : ichooser) (l : list iface_pair) (p : iface_pair) (n : network).

(** ** A round *)
Fixpoint consider_all l : M ichooser unit :=
  match l with [] => mret tt | p :: l => consider_pair p;; consider_all l end.
Definition round l (send_label num_bytes : Z) : M ichooser (option iface_pair) :=
  reset_chooser;; consider_all l;; choose send_label num_bytes.

(** The network a pair counts for. *)
Definition net_of p : option network :=
  if matches_type NET_TYPE_WIFI p.1 p.2 then Some Wifi
  else if matches_type NET_TYPE_THREEG p.1 p.2 then Some Cellular else None.
Definition pairs_of n l : list iface_pair := filter (fun p => net_of p = Some n) l.
Definition offers n l : bool := bool_decide (pairs_of n l <> []).

(** The state after [l], before the choice. *)
Definition after_round l c : ichooser :=
  set_chosen true (-1) (-1)
    (set_candidates (bool_decide (l <> [])) (offers Wifi l) (offers Cellular l)
       (default (ic_wifi c) (last (pairs_of Wifi l))) (default (ic_cellular c) (last (pairs_of Cellular l)))
       (considered l (label_matcher c)) c).

Lemma pairs_of_snoc n l p : pairs_of n (l ++ [p]) = pairs_of n l ++ (if decide (net_of p = Some n) then [p] else []).
Proof. unfold pairs_of. rewrite filter_app. by rewrite filter_cons, filter_nil. Qed.

Lemma consider_after l c p : net_of p <> None -> consider_pair p (after_round l c) = (Ret tt, after_round (l ++ [p]) c).
Proof.
  intros Hp. unfold consider_pair, mbind, M_bind. simpl.
  assert (considered (l ++ [p]) (label_matcher c) = matcher_consider p (considered l (label_matcher c))) as Ec.
  { unfold considered. by rewrite foldl_app. }
  unfold after_round, offers. rewrite !pairs_of_snoc, Ec, (bool_decide_true (l ++ [p] <> [])) by (by destruct l).
  unfold net_of in *. destruct (matches_type NET_TYPE_WIFI p.1 p.2).
  - rewrite decide_True, decide_False, app_nil_r, last_snoc by done.
    rewrite (bool_decide_true (_ ++ _ <> [])) by (by destruct (pairs_of Wifi l)). done.
  - destruct (matches_type NET_TYPE_THREEG p.1 p.2); [|done].
    rewrite decide_False, decide_True, app_nil_r, last_snoc by done.
    rewrite (bool_decide_true (_ ++ _ <> [])) by (by destruct (pairs_of Cellular l)). done.
Qed.

Lemma consider_all_after l l0 c : Forall (fun p => net_of p <> None) l ->
  consider_all l (after_round l0 c) = (Ret tt, after_round (l0 ++ l) c).
Proof.
  intros Hl. revert l0. induction Hl as [|p l Hp Hl IH]; intros l0; simpl; [by rewrite app_nil_r|].
  unfold mbind at 1, M_bind at 1. rewrite consider_after by done. rewrite IH. by rewrite <- (assoc_L (++)).
Qed.

Lemma round_eq l c labels bytes : Forall (fun p => net_of p <> None) l ->
  round l labels bytes c = choose labels bytes (after_round l c).
Proof.
  intros Hl. unfold round. unfold mbind at 1, M_bind at 1. simpl.
  unfold mbind at 1, M_bind at 1. change (set_chosen true (-1) (-1) _) with (after_round [] c).
  by rewrite consider_all_after.
Qed.

(** The clock does not run backwards over the WiFi session. *)
Definition session_clock c : Prop :=
  tv_sec (wifi_begin c) = 0 \/ forall calls, exists d, TIMEDIFF (wifi_begin c) (lib_time calls) = Ret d.






Lemma choose_delegated c labels bytes :
  bytes <> 0 -> ic_has_match c = true -> wifi_present c || cellular_present c = true ->
  negb (wifi_present c) || negb (cellular_present c) || has_network_restriction labels = true ->
  exists c', choose labels bytes c = (Ret (choose_networks labels bytes (label_matcher c)), c') /\ ic_calls c' = ic_calls c /\
    (choose_networks labels bytes (label_matcher c) <> None ->
       chosen_singular_strategy_type c' = chosen_strategy_type c' /\
       chosen_strategy_type c' =
         if negb (wifi_present c) || has_bits labels CMM_LABEL_THREEG_ONLY
         then NETWORK_CHOICE_CELLULAR else NETWORK_CHOICE_WIFI).
Proof.
  intros Hb Hm Hsome Hdel. unfold choose. unfold mbind at 1, M_bind at 1. cbn [get].
  rewrite (proj2 (Z.eqb_neq bytes 0)), Hm, Hsome, Hdel by done. unfold mbind at 1, M_bind at 1. simpl.
  destruct (matcher_choose labels (label_matcher c)) as [p|] eqn:Em; [|by exists c].
  destruct (negb (wifi_present c) || has_bits labels CMM_LABEL_THREEG_ONLY) eqn:E1.
  - eexists. split; [done|]. by split.
  - apply orb_false_iff in E1 as [E1 E2]. rewrite E1 in Hdel. simpl in Hdel.
    assert (negb (cellular_present c) || has_bits labels CMM_LABEL_WIFI_ONLY = true) as ->.
    { destruct (cellular_present c); [|done]. simpl in *. rewrite has_restriction_bits in Hdel.
      change CMM_LABEL_THREEG_ONLY with (2 ^ 17) in E2. change CMM_LABEL_WIFI_ONLY with (2 ^ 16).
      rewrite has_bits_testbit in E2 |- * by lia. unfold wifi_only, threeg_only in Hdel. rewrite E2 in Hdel.
      by destruct (Z.testbit labels 16). }
    eexists. split; [done|]. by split.
Qed.


(** a message that may only use cellular, with fallback, while there is only
    WiFi, goes over WiFi, but is recorded as sent by cellular: what the application
    then learns about the chosen network is wrong. *)
Theorem fallback_recorded_wrong l c labels bytes :
  offers Wifi l = true -> offers Cellular l = false -> Forall (fun p => net_of p <> None) l -> bytes <> 0 ->
  has_bits labels CMM_LABEL_WIFI_ONLY = false -> has_bits labels CMM_LABEL_THREEG_ONLY = true ->
  fallback_allowed labels = true ->
  exists p c', round l labels bytes c = (Ret (Some p), c') /\ net_of p = Some Wifi /\
    fst (getChosenStrategy 0 c') = Ret StrategyCellular.
Proof.
  intros Hw Hg Hty Hb Hnw Hng Hf. rewrite round_eq by done.
  apply bool_decide_eq_true in Hw. apply bool_decide_eq_false in Hg. apply dec_stable in Hg.
  assert (l <> []) as Hl by by (intros ->; apply Hw).
  assert (forall q, q ∈ l -> matches_type NET_TYPE_WIFI q.1 q.2 = true) as Hall.
  { intros q Hq. rewrite Forall_forall in Hty. specialize (Hty q Hq). unfold net_of in Hty.
    destruct (matches_type NET_TYPE_WIFI q.1 q.2) eqn:Ew; [done|]. exfalso.
    assert (q ∈ pairs_of Cellular l) as Hin; [|rewrite Hg in Hin; by apply elem_of_nil in Hin].
    apply list_elem_of_filter. split; [|done]. unfold net_of. rewrite Ew. by destruct (matches_type NET_TYPE_THREEG q.1 q.2). }
  pose proof (round_inv_considered l (label_matcher c)) as [Hm _ _ _ _ _ _ Hrw Hrg].
  set (m := considered l (label_matcher c)) in *.
  assert (has_wifi_match m = true) as Hwm.
  { destruct (has_wifi_match m); [done|]. destruct l as [|q l]; [done|].
    pose proof (Hall q ltac:(set_solver)) as H'. by rewrite (Hrw q ltac:(set_solver)) in H'. }
  rewrite Hwm in Hrw. destruct Hrw as [Hin _].
  assert (exists p, matcher_choose labels m = Some p /\ p ∈ l) as (p & Ep & Hp).
  { unfold matcher_choose. rewrite (proj2 Hm Hl), Hnw, Hng, Hf, Hwm. simpl. destruct (has_threeg_match m); naive_solver. }
  destruct (choose_delegated (after_round l c) labels bytes) as (c' & E & _ & Hs).
  - done.
  - by apply bool_decide_true.
  - apply orb_true_iff. left. by apply bool_decide_true.
  - simpl. unfold offers at 2. by rewrite Hg, orb_true_r.
  - change (choose_networks labels bytes (label_matcher (after_round l c))) with (matcher_choose labels m) in *.
    rewrite Ep in *. destruct (Hs ltac:(done)) as [_ Hst]. rewrite Hng, orb_true_r in Hst.
    exists p, c'. split_and!; [done| |].
    + unfold net_of. by rewrite Hall.
    + unfold getChosenStrategy, mbind, M_bind. simpl. by rewrite Hst.
Qed.

(** ** Measurements

    The observations a measurement gives the library. *)
Definition observations n (bw_up bw_estimate RTT_seconds RTT_estimate : double) : list inst_call :=
  (if dlt dzero bw_up && bandwidth_observed then [AddObservation (n, BandwidthUp) bw_up bw_estimate] else []) ++
  (if dlt dzero RTT_seconds then [AddObservation (n, Rtt) RTT_seconds RTT_estimate] else []).

(** What one pass of the loop does to the records. *)
Definition noted (bw_up bw_estimate RTT_seconds RTT_estimate : double) (w : wrapped_stats) : wrapped_stats :=
  WStats (session_duration w) (first_update w)
    (if dlt dzero bw_up then bw_estimate else ws_last_bw_estimate w)
    (if dlt dzero RTT_seconds then RTT_estimate else ws_last_RTT_estimate w)
    (if dlt dzero bw_up && bandwidth_observed && first_update w then bw_estimate else first_bw_up_estimate w)
    (if dlt dzero RTT_seconds && first_update w then RTT_estimate else first_RTT_estimate w).
Definition not_first (w : wrapped_stats) : wrapped_stats :=
  WStats (session_duration w) false (ws_last_bw_estimate w) (ws_last_RTT_estimate w)
    (first_bw_up_estimate w) (first_RTT_estimate w).
Definition reported n calls w c : ichooser := set_calls (ic_calls c ++ calls) (upd_stats n (fun _ => w) c).

Lemma reported_reported n calls calls' w w' c :
  reported n calls' w' (reported n calls w c) = reported n (calls ++ calls') w' c.
Proof. unfold reported. rewrite (assoc_L (++)). by destruct n. Qed.
Lemma reported_nothing n c : reported n [] (stats_of n c) c = c.
Proof. unfold reported. rewrite app_nil_r. by destruct n, c. Qed.
Lemma stats_reported n calls w c : stats_of n (reported n calls w c) = w.
Proof. by destruct n. Qed.
Lemma lock_reported n calls w c : ic_lock (reported n calls w c) = ic_lock c.
Proof. by destruct n. Qed.

Lemma add_observation_held n k o est c : ic_lock c = Some true ->
  add_observation_unlocked (n, k) o est c = (Ret tt, reported n [AddObservation (n, k) o est] (stats_of n c) c).
Proof.
  intros Hl. unfold add_observation_unlocked, unlock, lock, ask, mbind, M_bind. simpl. rewrite Hl. simpl.
  f_equal. destruct c. simpl in *. subst. by destruct n.
Qed.
Lemma modify_reported n f c : modify (upd_stats n f) c = (Ret tt, reported n [] (f (stats_of n c)) c).
Proof. unfold reported, modify. rewrite app_nil_r. by destruct n, c. Qed.

Lemma update_body_eq n a b r e c : ic_lock c = Some true ->
  update_body n a b r e c = (Ret tt, reported n (observations n a b r e) (noted a b r e (stats_of n c)) c).
Proof.
  intros Hl. set (w := stats_of n c).
  set (w1 := WStats (session_duration w) (first_update w) (if dlt dzero a then b else ws_last_bw_estimate w)
               (ws_last_RTT_estimate w)
               (if dlt dzero a && bandwidth_observed && first_update w then b else first_bw_up_estimate w) (first_RTT_estimate w)).
  set (c1 := reported n (if dlt dzero a && bandwidth_observed then [AddObservation (n, BandwidthUp) a b] else []) w1 c).
  assert (when (dlt dzero a)
    (when bandwidth_observed (add_observation_unlocked (n, BandwidthUp) a b;; first_bw n b);; last_bw n b) c = (Ret tt, c1)) as E.
  { subst c1 w1. unfold when. destruct (dlt dzero a); simpl.
    - unfold mbind at 1, M_bind at 1. destruct bandwidth_observed; simpl.
      + unfold mbind at 1, M_bind at 1. rewrite add_observation_held by done. unfold first_bw, last_bw.
        by rewrite modify_reported, modify_reported, !reported_reported, !stats_reported.
      + unfold last_bw. by rewrite modify_reported.
    - trans (Ret tt : outcome unit, reported n [] w c); [by unfold w; rewrite reported_nothing|]. by destruct w. }
  unfold update_body. rewrite (M_bind_ret _ _ _ _ _ E). unfold when, observations, noted. fold w.
  destruct (dlt dzero r); simpl.
  - unfold mbind at 1, M_bind at 1. rewrite add_observation_held by by (subst c1; rewrite lock_reported).
    unfold first_and_last_RTT. subst c1. by rewrite modify_reported, !reported_reported, !stats_reported, app_nil_r.
  - subst c1 w1. by rewrite app_nil_r.
Qed.

Lemma was_first_update_eq n c :
  was_first_update n c = (Ret (first_update (stats_of n c)), reported n [] (not_first (stats_of n c)) c).
Proof. unfold was_first_update, reported, mbind, M_bind. simpl. rewrite app_nil_r. by destruct n, c. Qed.

(** a measurement reaches the library as one observation per positive value,
    the network's first as two, so that there is an error to learn from; it is
    recorded as the last and, if it is the first, as the first; a call with two
    zeros does nothing.  Two rounds of the loop are enough. *)
Theorem update_spec n bw_up bw_estimate RTT_seconds RTT_estimate c :
  ic_lock c = Some true ->
  let w := stats_of n c in
  let obs := observations n bw_up bw_estimate RTT_seconds RTT_estimate in
  update n bw_up bw_estimate RTT_seconds RTT_estimate c =
    (Ret tt, if deq bw_up dzero && deq RTT_seconds dzero then c
             else reported n (if first_update w then obs ++ obs else obs)
                    (not_first (noted bw_up bw_estimate RTT_seconds RTT_estimate w)) c) /\
  forall fuel, (2 <= fuel)%nat ->
    fst (update_loop fuel n bw_up bw_estimate RTT_seconds RTT_estimate c) = Ret true.
Proof.
  intros Hl w obs. set (a := bw_up). set (b := bw_estimate). set (r := RTT_seconds). set (e := RTT_estimate).
  assert (forall fuel, update_loop (2 + fuel) n a b r e c =
    (Ret true, reported n (if first_update w then obs ++ obs else obs) (not_first (noted a b r e w)) c)) as E.
  { intros fuel. cbn [update_loop Nat.add]. unfold mbind at 1, M_bind at 1. rewrite update_body_eq by done.
    unfold mbind at 1, M_bind at 1. rewrite was_first_update_eq, reported_reported, stats_reported, app_nil_r.
    change (first_update (noted a b r e (stats_of n c))) with (first_update w). fold w obs.
    destruct (first_update w) eqn:Ef; [|done].
    unfold mbind at 1, M_bind at 1. rewrite update_body_eq by by rewrite lock_reported.
    unfold mbind at 1, M_bind at 1. rewrite was_first_update_eq, !reported_reported, !stats_reported, app_nil_r. simpl.
    do 2 f_equal. unfold not_first, noted. simpl. rewrite Ef, !andb_false_r, !andb_true_r.
    by destruct (dlt dzero a), (dlt dzero r). }
  split.
  - unfold update. destruct (_ && _); [done|]. by rewrite (M_bind_ret _ _ _ _ _ (E 0%nat)).
  - intros [|[|fuel]] Hf; [lia..|]. by rewrite (E fuel : update_loop (S (S fuel)) n a b r e c = _).
Qed.

(** ** Without a session distribution

    The constructor is run before there is a wrapper, and the end of a WiFi session
    with its mutex released already. *)
Definition session_started c : Prop := tv_sec (wifi_begin c) <> 0.

Lemma add_observation_valid f x : exists f' est, add_observation f x = Ret f' /\ get_estimate_d f' = Some est.
Proof.
  unfold add_observation, observed. destruct (valid f); simpl; [|by eexists _, _].
  unfold get_estimate_d. simpl. by eexists _, _.
Qed.

Definition with_session (f : FlipFlopEstimate) (w : wrapped_stats) : wrapped_stats :=
  WStats f (first_update w) (ws_last_bw_estimate w) (ws_last_RTT_estimate w) (first_bw_up_estimate w) (first_RTT_estimate w).

Lemma addSessionDuration_eq n d c f :
  add_observation (session_duration (stats_of n c)) (seconds_of d) = Ret f ->
  exists est, addSessionDuration n d c =
    (if use_session_distribution then fun c => (Ret tt, c)
     else add_observation_unlocked (n, SessionDuration) (seconds_of d) est)
      (reported n [] (with_session f (stats_of n c)) c).
Proof.
  intros E. destruct (add_observation_valid (session_duration (stats_of n c)) (seconds_of d)) as (f' & est & E' & Hest).
  rewrite E in E'. injection E' as <-. exists est. unfold addSessionDuration.
  unfold mbind at 1, M_bind at 1. cbn [get]. unfold mbind at 1, M_bind at 1, lift. rewrite E.
  unfold mbind at 1, M_bind at 1, set_session. rewrite modify_reported, Hest. unfold when.
  by destruct use_session_distribution.
Qed.

Lemma unlocked_twice e o est c : ic_lock c = Some false -> fst (add_observation_unlocked e o est c) = Trap AssertFailed.
Proof. intros Hl. unfold add_observation_unlocked, unlock, mbind, M_bind. simpl. by rewrite Hl. Qed.
Lemma unlocked_without_wrapper e o est c : ic_lock c = None -> fst (add_observation_unlocked e o est c) = Trap UndefinedBehaviour.
Proof. intros Hl. unfold add_observation_unlocked, unlock, mbind, M_bind. simpl. by rewrite Hl. Qed.

Lemma trap_bind {A B} (m : M ichooser A) (f : A -> M ichooser B) c t : fst (m c) = Trap t -> fst ((m ≫= f) c) = Trap t.
Proof. unfold mbind, M_bind. destruct (m c) as [[] ?]; simpl; congruence. Qed.

Lemma construct_eq c f : add_observation (session_duration (wifi_stats c)) (seconds_of (Timeval (to_time_t getWifiFailoverDelay) 0)) = Ret f ->
  exists est calls, construct None c =
    (if use_session_distribution then fun c => (Ret tt, c)
     else add_observation_unlocked (Wifi, SessionDuration) (seconds_of (Timeval (to_time_t getWifiFailoverDelay) 0)) est)
      (reported Wifi [] (with_session f (wifi_stats c)) (set_calls calls c)).
Proof.
  intros E. unfold construct. unfold mbind at 1, M_bind at 1. cbn [ask modify].
  unfold mbind at 1, M_bind at 1, when.
  set (calls := (ic_calls c ++ [RefreshEnergyCalculators]) ++ (if shouldLoadErrors then [RestoreEvaluator] else [])).
  destruct (addSessionDuration_eq Wifi (Timeval (to_time_t getWifiFailoverDelay) 0) (set_calls calls c) f E) as (est & E1).
  exists est, calls. etrans; [|exact E1]. subst calls. destruct shouldLoadErrors; [done|]. by rewrite app_nil_r.
Qed.

(** The end of a session, up to the note of its length. *)
Definition session_ended c : ichooser :=
  set_ic_lock (Some false) (set_wifi_begin timer_zero (set_calls (ic_calls c ++ [GetTime]) c)).
Lemma teardown_eq c d : session_started c -> TIMEDIFF (wifi_begin c) (lib_time (ic_calls c ++ [GetTime])) = Ret d ->
  ic_lock c = Some true ->
  network_teardown TYPE_WIFI c = (addSessionDuration Wifi d;; resetError Wifi;; lock) (session_ended c).
Proof.
  intros Hs Ed Hl. unfold network_teardown. unfold mbind at 1, M_bind at 1. cbn [get].
  rewrite Z.eqb_refl, (proj2 (Z.eqb_neq (tv_sec (wifi_begin c)) 0)) by done. simpl.
  unfold ask_time, ask, unlock. unfold mbind at 1, M_bind at 1. unfold mbind at 1, M_bind at 1. simpl.
  unfold mbind at 1, M_bind at 1, lift. rewrite Ed. unfold mbind at 1, M_bind at 1. simpl.
  unfold mbind at 1, M_bind at 1. unfold mbind at 1, M_bind at 1. simpl. by rewrite Hl.
Qed.

Lemma reset_and_lock c : ic_lock c = Some false ->
  exists c', (resetError Wifi;; lock) c = (Ret tt, c') /\ ic_lock c' = Some true /\
    wifi_begin c' = wifi_begin c /\ wifi_stats c' = wifi_stats c.
Proof.
  intros Hl. unfold resetError, ask, lock, mbind, M_bind. simpl. rewrite Hl. simpl. by eexists.
Qed.

(** with a session distribution configured a chooser can be created, and when a WiFi
    session ends its length is noted with the mutex held before and after;
    without one, creating the chooser locks a mutex that does not exist yet, unless a session
    length is loaded, and the end of a session releases the mutex twice, an error that ends
    the process in an assertion. *)
Theorem no_distribution_fails c :
  (if use_session_distribution then
     exists c', create_chooser None chooser_blank = (Ret tt, c') /\ ic_lock c' = Some false
   else fst (create_chooser None chooser_blank) = Trap UndefinedBehaviour) /\
  (session_started c -> session_clock c -> ic_lock c = Some true ->
   if use_session_distribution then
     exists c' d f, network_teardown TYPE_WIFI c = (Ret tt, c') /\ ic_lock c' = Some true /\
       wifi_begin c' = timer_zero /\ TIMEDIFF (wifi_begin c) (lib_time (ic_calls c ++ [GetTime])) = Ret d /\
       add_observation (session_duration (wifi_stats c)) (seconds_of d) = Ret f /\ session_duration (wifi_stats c') = f
   else fst (network_teardown TYPE_WIFI c) = Trap AssertFailed).
Proof.
  split.
  - destruct (add_observation_valid (session_duration (wifi_stats chooser_blank)) (seconds_of (Timeval (to_time_t getWifiFailoverDelay) 0)))
      as (f & _ & E & _).
    destruct (construct_eq chooser_blank f E) as (est & calls & E1). unfold create_chooser.
    destruct use_session_distribution.
    + rewrite (M_bind_ret _ _ _ _ _ E1). eexists. split; [done|done].
    + apply trap_bind. rewrite E1. by apply unlocked_without_wrapper.
  - intros Hs Hc Hl. destruct Hc as [?|Hc]; [done|]. destruct (Hc (ic_calls c ++ [GetTime])) as (d & Ed).
    destruct (add_observation_valid (session_duration (wifi_stats c)) (seconds_of d)) as (f & _ & Ef & _).
    rewrite (teardown_eq c d) by done.
    destruct (addSessionDuration_eq Wifi d (session_ended c) f Ef) as (est & E1).
    destruct use_session_distribution.
    + cbv beta in E1. rewrite (M_bind_ret _ _ _ _ _ E1).
      destruct (reset_and_lock (reported Wifi [] (with_session f (stats_of Wifi (session_ended c))) (session_ended c)))
        as (c' & -> & Hl' & Hb & Hw); [done|].
      exists c', d, f. split_and!; [done|done|by rewrite Hb|done|done|by rewrite Hw].
    + apply trap_bind. rewrite E1. by apply unlocked_twice.
Qed.

(** Every re-evaluation that is scheduled hands the library a number of bytes in
    place of a pointer, which the registered copy function dereferences. *)
Lemma reevaluation_argument irob_id bytes already c c' :
  scheduleReevaluation irob_id bytes already c = (Ret tt, c') ->
  exists arg j delay, last (ic_calls c') = Some (ScheduleReevaluation arg j delay) /\
    chooser_arg_copier arg = Trap UndefinedBehaviour.
Proof.
  unfold scheduleReevaluation.
  intros (? & ? & _ & (? & ? & _ & (? & ? & _ & (delay & c1 & _ & [= <-])%M_bind_inv)%M_bind_inv)%M_bind_inv)%M_bind_inv.
  simpl. eexists _, _, delay. split; [by apply last_snoc|done].
Qed.

(** A decision: the answer of the library is recorded, and from then on messages are
    sent redundantly if it is the redundant strategy or not the network chosen
    for the message. *)
Lemma decision_recorded singular s c :
  s <> OtherStrategy -> ic_has_match c = true -> getEstimatorErrorEvalMethod <> TRUSTED_ORACLE ->
  exists type c', run_decision singular s c = (Ret (singular, type), c') /\ strategy_at type = Ret s /\
    should_transmit_redundantly c' =
      (Ret (bool_decide (s = StrategyRedundant) || negb (chosen_singular_strategy_type c =? type)), c').
Proof.
  intros Hs Hm He. unfold run_decision, should_transmit_redundantly, mbind, M_bind.
  destruct s; [..|done]; simpl; eexists _, _; (split; [done|]); (split; [done|]); simpl;
    rewrite (bool_decide_false (_ = TRUSTED_ORACLE)) by done; simpl; rewrite Hm; done.
Qed.
End spec.

(** ** Instances *)
#[local] Existing Instance no_estimates.
#[local] Instance demo_unspecified : Unspecified := {| bad_conversion _ _ := 0; uninitialised _ := dzero |}.
#[local] Instance demo_config : InstrumentsConfig := {|
  getWifiFailoverDelay := of_Z 10; session_distribution := None; getEstimatorErrorEvalMethod := CONFIDENCE_BOUNDS;
  getDisableBandwidthError := false; shouldLoadErrors := false; shouldSaveErrors := false
|}.
#[local] Instance demo_library : InstrumentsLibrary := {|
  lib_double _ := of_Z 1; lib_int _ := 0; lib_strategy _ := StrategyCellular; lib_time _ := Timeval 100 0; TYPE_WIFI := 1
|}.
(** Held by the caller, with a WiFi session since second 60. *)
Definition demo_chooser : ichooser := set_wifi_begin (Timeval 60 0) (set_ic_lock (Some true) chooser_blank).


Lemma fallback_recorded_wrong_witness :
  let labels := Z.lor CMM_LABEL_THREEG_ONLY CMM_LABEL_FALLBACK_ALLOWED in
  exists p c', round [demo_wifi] labels 1000 demo_chooser = (Ret (Some p), c') /\
    net_of p = Some Wifi /\ fst (getChosenStrategy 0 c') = Ret StrategyCellular.
Proof.
  intros labels. apply (fallback_recorded_wrong [demo_wifi] demo_chooser labels 1000);
    [reflexivity|reflexivity|repeat constructor; discriminate|discriminate|reflexivity|reflexivity|reflexivity].
Defined.

(** The first measurement of the cellular network. *)
Lemma update_spec_witness :
  exists c', update Cellular dzero dzero (of_Z 2) (of_Z 2) demo_chooser = (Ret tt, c') /\
    ic_calls c' = [AddObservation (Cellular, Rtt) (of_Z 2) (of_Z 2); AddObservation (Cellular, Rtt) (of_Z 2) (of_Z 2)].
Proof.
  destruct (update_spec Cellular dzero dzero (of_Z 2) (of_Z 2) demo_chooser eq_refl) as [E _].
  eexists. split; [exact E|]. vm_compute. reflexivity.
Defined.

Lemma no_distribution_fails_witness :
  fst (create_chooser None chooser_blank) = Trap UndefinedBehaviour /\
  fst (network_teardown TYPE_WIFI demo_chooser) = Trap AssertFailed.
Proof.
  destruct (no_distribution_fails demo_chooser) as [H1 H2].
  split; [exact H1|apply H2].
  - discriminate.
  - right. intros calls. exists (Timeval 40 0). reflexivity.
  - reflexivity.
Defined.
