(* ===== verification/NetStats.v ===== *)
(** The passive network measurements of net_stats.h/net_stats.cpp.

    Every connection has a [NetStats]; the connections share the cache of
    estimates per pair of addresses, the table of bytes transferred per IROB and
    network, and the set of IROBs found striped over several networks (the
    static members).  A method is an action on one object and the statics
    ([env]); [on_stats] runs it on an object of a [world] of several.  What
    [time_getter] answers, in the order of the calls, is a parameter, as are
    the two configuration values used.  Calls of [reportNetStats] on the network
    chooser are recorded.

    [InvalidEstimateException] is the result [None] of [RTT]: both callers
    catch it. *)

From S2P Require Import Prelude.
From S2P Require Import IntSet.
From S2P Require Import Labels.
From S2P Require Import Timeops.
From S2P Require Import Doubles.
From S2P Require Import FlipFlop.
From S2P Require Import Chooser.

(** gettimeofday, or the function set for tests. *)
Class TimeGetter := { time_getter : nat -> timeval }.
Class StatsConfig := {
  getUseBreadcrumbsEstimates : bool;
  getRecordFailoverLatency : bool
}.

(** * Queuing delay *)
Record QueuingDelay := QDelay {
  last_msg_time : timeval;
  last_msg_qdelay : timeval;
  last_msg_size : Z;       (* size_t *)
  last_bw_estimate : Z;    (* u_long *)
  qd_last_irob : Z
}.

Definition qdelay_init : QueuingDelay := QDelay timer_zero (Timeval (-1) 0) 0 0 (-1).

Section qdelay.
Context `{!Unspecified}.

Definition time_to_send (msg_size bw_estimate : Z) : timeval :=
  let bw_seconds := (of_Z msg_size / of_Z bw_estimate)%D in
  let bw_time_usecs := to_useconds_t (bw_seconds * of_Z 1000000)%D in
  convert_to_timeval bw_time_usecs.

Definition get_queuable_time (q : QueuingDelay) (irob_id : Z) : timeval :=
  if negb (irob_id =? qd_last_irob q) then timer_zero
  else
    let queuable_time := timeradd (last_msg_time q) (last_msg_qdelay q) in
    timeradd queuable_time (time_to_send (last_msg_size q) (last_bw_estimate q)).

Definition add_message (q : QueuingDelay) (msg_size bw_estimate irob_id : Z) (cur_msg_time : timeval)
    : outcome (timeval * QueuingDelay) :=
  if tv_sec (last_msg_qdelay q) =? -1 then
    let d := Timeval 0 (tv_usec (last_msg_qdelay q)) in
    Ret (d, QDelay cur_msg_time d msg_size bw_estimate irob_id)
  else if bw_estimate =? 0 then Ret (timer_zero, q)
  else if (irob_id =? qd_last_irob q) && negb (irob_id =? -1) then
    Ret (timer_zero, QDelay (last_msg_time q) (last_msg_qdelay q)
                       (to_size_t (last_msg_size q + msg_size)) bw_estimate (qd_last_irob q))
  else
    let prev_bw_time := time_to_send (last_msg_size q) (last_bw_estimate q) in
    let qdelay_calc := timeradd (last_msg_qdelay q) prev_bw_time in
    (if timercmp Z.ltb (last_msg_time q) cur_msg_time
     then TIMEDIFF (last_msg_time q) cur_msg_time else Ret timer_zero) ≫= fun diff =>
    let qdelay := if timercmp Z.gtb qdelay_calc diff then timersub qdelay_calc diff else timer_zero in
    Ret (qdelay, QDelay cur_msg_time qdelay msg_size bw_estimate irob_id).
End qdelay.

(** * The measurement of one IROB *)
Record IROBMeasurement := Measurement {
  m_id : Z;
  total_size : Z;          (* size_t *)
  arrival_time : timeval;
  last_activity : timeval;
  ack_time : timeval;
  failure_time : timeval;
  total_delay : timeval;
  finished : bool
}.

Definition measurement_new : IROBMeasurement :=
  let t := Timeval (-1) (-1) in
  Measurement (-1) 0 t t (Timeval (-1) 0) (Timeval (-1) 0) timer_zero false.

Definition set_id (id : Z) m : IROBMeasurement :=
  Measurement id (total_size m) (arrival_time m) (last_activity m) (ack_time m) (failure_time m)
    (total_delay m) (finished m).
Definition finish m : IROBMeasurement :=
  Measurement (m_id m) (total_size m) (arrival_time m) (last_activity m) (ack_time m) (failure_time m)
    (total_delay m) true.
Definition add_delay (delay : timeval) m : IROBMeasurement :=
  Measurement (m_id m) (total_size m) (arrival_time m) (last_activity m) (ack_time m) (failure_time m)
    (timeradd (total_delay m) delay) (finished m).
(** [ack]; [t] is [*real_time] or the time of the call. *)
Definition measurement_ack (t : timeval) m : IROBMeasurement :=
  Measurement (m_id m) (total_size m) (arrival_time m) (last_activity m) t (failure_time m)
    (total_delay m) (finished m).
Definition mark_failed (now : timeval) m : IROBMeasurement :=
  Measurement (m_id m) (total_size m) (arrival_time m) (last_activity m) (ack_time m) now
    (total_delay m) (finished m).

Section measurement.
Context `{!Unspecified}.

(** [add_bytes]; the scheduling delay is computed (with the assertion of
    TIMEDIFF) and only printed. *)
Definition add_bytes (bytes : Z) (queuable_time : timeval) (bw_est : Z) (now : timeval) m
    : outcome IROBMeasurement :=
  (if tv_sec (arrival_time m) =? -1 then Ret now
   else
     let queuable_time :=
       if timercmp Z.ltb (last_activity m) queuable_time then queuable_time else last_activity m in
     let bw_time := time_to_send (total_size m) bw_est in
     let self_queuable_time := timeradd (arrival_time m) bw_time in
     let queuable_time :=
       if timercmp Z.gtb queuable_time self_queuable_time then queuable_time else self_queuable_time in
     (if timercmp Z.ltb queuable_time now then TIMEDIFF queuable_time now else Ret timer_zero) ≫= fun _ =>
     Ret (arrival_time m)) ≫= fun arrival =>
  Ret (Measurement (m_id m) (to_size_t (total_size m + bytes)) arrival now (ack_time m)
         (failure_time m) (total_delay m) (finished m)).
End measurement.

(** [RTT]; [None] is the exception. *)
Definition measured_RTT m : outcome (option timeval) :=
  assert_ (negb (tv_sec (ack_time m) =? -1) || negb (tv_sec (failure_time m) =? -1)) ≫= fun _ =>
  assert_ ((tv_sec (ack_time m) =? -1) || (tv_sec (failure_time m) =? -1)) ≫= fun _ =>
  let finish_time := if negb (tv_sec (ack_time m) =? -1) then ack_time m else failure_time m in
  assert_ (timercmp Z.leb (arrival_time m) finish_time) ≫= fun _ =>
  TIMEDIFF (arrival_time m) finish_time ≫= fun rtt =>
  if timercmp Z.leb rtt (total_delay m) then Ret None
  else Ret (Some (timersub rtt (total_delay m))).

(** * Bytes per IROB and network *)
Abbreviation network := (Z * Z)%type.   (* local and remote s_addr *)

Record IROBTransfersPerNetwork := Transfers {
  total_bytes : Z;                          (* size_t *)
  transfers_by_network : gmap network Z
}.
Definition transfers_new : IROBTransfersPerNetwork := Transfers 0 ∅.

(** [getValueRef]: the entry is made if there is none. *)
Definition getValue (t : IROBTransfersPerNetwork) (n : network) : Z :=
  default 0 (transfers_by_network t !! n).
Definition setValue (n : network) (v : Z) (t : IROBTransfersPerNetwork) : IROBTransfersPerNetwork :=
  Transfers (total_bytes t) (<[n := v]> (transfers_by_network t)).

Definition transfers_add (n : network) (bytes : Z) t : IROBTransfersPerNetwork :=
  setValue n (to_size_t (getValue t n + bytes)) t.
Definition transfers_has_all (t : IROBTransfersPerNetwork) (n : network)
    : outcome (bool * IROBTransfersPerNetwork) :=
  assert_ (0 <? total_bytes t) ≫= fun _ =>
  Ret (total_bytes t <=? getValue t n, setValue n (getValue t n) t).
Definition transfers_report (total : Z) (t : IROBTransfersPerNetwork) : outcome IROBTransfersPerNetwork :=
  let t' := if total_bytes t =? 0 then Transfers total (transfers_by_network t) else t in
  assert_ (total_bytes t' =? total) ≫= fun _ => Ret t'.
Definition transfers_remove (n : network) t : IROBTransfersPerNetwork :=
  Transfers (total_bytes t) (delete n (transfers_by_network t)).

(** The table of all IROBs; [operator[]] makes the entry. *)
Abbreviation IROBTransfers := (gmap Z IROBTransfersPerNetwork).
Definition transfers_of (T : IROBTransfers) (id : Z) : IROBTransfersPerNetwork :=
  default transfers_new (T !! id).
Definition removeAll (n : network) (T : IROBTransfers) : IROBTransfers :=
  omap (fun t => let t' := transfers_remove n t in
                 if bool_decide (transfers_by_network t' = ∅) then None else Some t') T.

(** * The statistics of a connection *)
Definition NET_STATS_LATENCY : Z := 0.
Definition NET_STATS_BW_UP : Z := 1.
Definition NET_STATS_BW_DOWN : Z := 2.
Definition NUM_ESTIMATES : Z := 3.

(** The vector of three estimates, by type. *)
Record Estimates := Ests { est_latency : FlipFlopEstimate; est_bw_up : FlipFlopEstimate; est_bw_down : FlipFlopEstimate }.
Definition estimates_new : Estimates := Ests flipflop_init flipflop_init flipflop_init.
Definition estimate_at (E : Estimates) (type : Z) : option FlipFlopEstimate :=
  match type with 0 => Some (est_latency E) | 1 => Some (est_bw_up E) | 2 => Some (est_bw_down E) | _ => None end.

Record estimate_set := EstSet {
  es_estimates : Estimates;
  es_error_estimators_initialized : bool;
  es_last_RTT : timeval;
  es_last_srv_time : timeval;
  es_last_req_size : Z;
  es_last_irob : Z
}.

Section stats.
Context {IS : Type} `{!IdSet IS}.

Record NetStats := Stats {
  local_addr : Z;
  remote_addr : Z;
  outgoing_qdelay : QueuingDelay;
  net_estimates : Estimates;
  error_estimators_initialized : bool;
  last_RTT : timeval;
  last_srv_time : timeval;
  last_req_size : Z;
  last_irob : Z;
  irob_measurements : gmap Z IROBMeasurement;
  past_irobs : IS
}.

(** [chooser->reportNetStats(network_type, new_bw, bw_estimate, new_latency, latency_estimate)]. *)
Record net_report := NetReport {
  rep_type : Z; rep_bw : double; rep_bw_est : double; rep_latency : double; rep_latency_est : double
}.

(** The static members, the reports made, and how often the time and an
    uninitialised variable were read. *)
Record statics := Statics {
  stats_cache : gmap network estimate_set;
  irob_transfers : IROBTransfers;
  striped_irobs : IS;
  reports : list net_report;
  clock_reads : nat;
  junk_reads : nat
}.
Definition statics_new : statics := Statics ∅ ∅ ids_empty [] 0 0.

Record env := Env { this : NetStats; shared : statics }.

Definition network_of (st : NetStats) : network := (local_addr st, remote_addr st).

Definition set_qdelay q st := Stats (local_addr st) (remote_addr st) q (net_estimates st)
  (error_estimators_initialized st) (last_RTT st) (last_srv_time st) (last_req_size st) (last_irob st)
  (irob_measurements st) (past_irobs st).
Definition set_estimates E st := Stats (local_addr st) (remote_addr st) (outgoing_qdelay st) E
  (error_estimators_initialized st) (last_RTT st) (last_srv_time st) (last_req_size st) (last_irob st)
  (irob_measurements st) (past_irobs st).
Definition set_error_init b st := Stats (local_addr st) (remote_addr st) (outgoing_qdelay st)
  (net_estimates st) b (last_RTT st) (last_srv_time st) (last_req_size st) (last_irob st)
  (irob_measurements st) (past_irobs st).
Definition set_last rtt srv size st := Stats (local_addr st) (remote_addr st) (outgoing_qdelay st)
  (net_estimates st) (error_estimators_initialized st) rtt srv size (last_irob st)
  (irob_measurements st) (past_irobs st).
Definition set_last_irob id st := Stats (local_addr st) (remote_addr st) (outgoing_qdelay st)
  (net_estimates st) (error_estimators_initialized st) (last_RTT st) (last_srv_time st)
  (last_req_size st) id (irob_measurements st) (past_irobs st).
Definition upd_measurements (f : gmap Z IROBMeasurement -> gmap Z IROBMeasurement) st :=
  Stats (local_addr st) (remote_addr st) (outgoing_qdelay st)
  (net_estimates st) (error_estimators_initialized st) (last_RTT st) (last_srv_time st)
  (last_req_size st) (last_irob st) (f (irob_measurements st)) (past_irobs st).
Definition upd_past (f : IS -> IS) st := Stats (local_addr st) (remote_addr st) (outgoing_qdelay st)
  (net_estimates st) (error_estimators_initialized st) (last_RTT st) (last_srv_time st)
  (last_req_size st) (last_irob st) (irob_measurements st) (f (past_irobs st)).

Definition upd_cache f c := Statics (f (stats_cache c)) (irob_transfers c) (striped_irobs c) (reports c)
  (clock_reads c) (junk_reads c).
Definition upd_transfers f c := Statics (stats_cache c) (f (irob_transfers c)) (striped_irobs c) (reports c)
  (clock_reads c) (junk_reads c).
Definition upd_striped f c := Statics (stats_cache c) (irob_transfers c) (f (striped_irobs c)) (reports c)
  (clock_reads c) (junk_reads c).
Definition upd_reports f c := Statics (stats_cache c) (irob_transfers c) (striped_irobs c) (f (reports c))
  (clock_reads c) (junk_reads c).
Definition upd_clock f c := Statics (stats_cache c) (irob_transfers c) (striped_irobs c) (reports c)
  (f (clock_reads c)) (junk_reads c).
Definition upd_junk f c := Statics (stats_cache c) (irob_transfers c) (striped_irobs c) (reports c)
  (clock_reads c) (f (junk_reads c)).

Definition upd_this (f : NetStats -> NetStats) (e : env) : env := Env (f (this e)) (shared e).
Definition upd_shared (f : statics -> statics) (e : env) : env := Env (this e) (f (shared e)).

Context `{!Unspecified} `{!TimeGetter} `{!StatsConfig}.

Definition get_time : M env timeval := fun e =>
  (Ret (time_getter (clock_reads (shared e))), upd_shared (upd_clock S) e).

(** [net_estimates.estimates[type].get_estimate(value)]. *)
Definition estimate_of (f : FlipFlopEstimate) : M env (bool * Z) := fun e =>
  (Ret (get_estimate f (junk_reads (shared e))), upd_shared (upd_junk S) e).

Definition observe_bw_up (x : double) : M env unit :=
  E ← gets (net_estimates ∘ this);
  f ← lift (add_observation (est_bw_up E) x);
  modify (upd_this (set_estimates (Ests (est_latency E) f (est_bw_down E)))).
Definition observe_latency (x : double) : M env unit :=
  E ← gets (net_estimates ∘ this);
  f ← lift (add_observation (est_latency E) x);
  modify (upd_this (set_estimates (Ests f (est_bw_up E) (est_bw_down E)))).

Definition get_bw_up : M env (bool * Z) := E ← gets (net_estimates ∘ this); estimate_of (est_bw_up E).
Definition get_latency : M env (bool * Z) := E ← gets (net_estimates ∘ this); estimate_of (est_latency E).

(** [get_estimate(bw_est) && get_estimate(latency_est)]. *)
Definition both_estimates : M env (bool * Z * Z) :=
  get_bw_up ≫= fun (b : bool * Z) =>
  if b.1 then
    get_latency ≫= fun (l : bool * Z) => mret (l.1, b.2, l.2)
  else mret (false, b.2, 0).

Definition reportNetStats (r : net_report) : M env unit :=
  modify (upd_shared (upd_reports (fun l => l ++ [r]))).

(** ** The cache *)
Definition saved (st : NetStats) : estimate_set :=
  EstSet (net_estimates st) (error_estimators_initialized st) (last_RTT st) (last_srv_time st)
    (last_req_size st) (last_irob st).

Definition cache_save : M env unit := fun e =>
  (Ret tt, upd_shared (upd_cache <[network_of (this e) := saved (this e)]>) e).

Definition stats_are_cached : M env bool :=
  e ← get; mret (bool_decide (is_Some (stats_cache (shared e) !! network_of (this e)))).

(** Only estimates that have a value are copied. *)
Definition restore_one (cached mine : FlipFlopEstimate) : M env FlipFlopEstimate :=
  estimate_of cached ≫= fun (r : bool * Z) => mret (if r.1 then cached else mine).

Definition cache_restore : M env bool :=
  e ← get;
  match stats_cache (shared e) !! network_of (this e) with
  | None => mret false
  | Some c =>
      let E := net_estimates (this e) in
      l ← restore_one (est_latency (es_estimates c)) (est_latency E);
      u ← restore_one (est_bw_up (es_estimates c)) (est_bw_up E);
      d ← restore_one (est_bw_down (es_estimates c)) (est_bw_down E);
      modify (upd_this (fun st =>
        set_last_irob (es_last_irob c)
          (set_last (es_last_RTT c) (es_last_srv_time c) (es_last_req_size c)
             (set_error_init (es_error_estimators_initialized c) (set_estimates (Ests l u d) st)))));;
      mret true
  end.

(** The two functions [get_estimate], of an object and, from the cache, of a pair. *)
Definition stats_get_estimate (type : Z) : M env (bool * Z) :=
  E ← gets (net_estimates ∘ this);
  match (if NUM_ESTIMATES <=? type then None else estimate_at E type) with
  | Some f => estimate_of f
  | None => mret (false, 0)
  end.

Definition cached_estimate (c : statics) (local remote type : Z) : bool * Z :=
  match (if NUM_ESTIMATES <=? type then None
         else c' ← stats_cache c !! (local, remote); estimate_at (es_estimates c') type) with
  | Some f => get_estimate f (junk_reads c)
  | None => (false, 0)
  end.

(** ** Construction, updates from the scout, destruction *)
Definition stats_blank (local_iface remote_iface : net_interface) : NetStats :=
  Stats (ip_addr local_iface) (ip_addr remote_iface) qdelay_init estimates_new false
    (Timeval (-1) 0) (Timeval (-1) 0) 0 (-1) ∅ ids_empty.

Definition construct (local_iface remote_iface : net_interface) : M env unit :=
  modify (upd_this (fun _ => stats_blank local_iface remote_iface));;
  cached ← stats_are_cached;
  let init_stats := getUseBreadcrumbsEstimates || negb cached in
  (if init_stats then mret true else cache_restore) ≫= fun _ =>
  (if init_stats then
     let init_bandwidth := iface_bandwidth local_iface remote_iface in
     let init_latency := iface_RTT local_iface remote_iface / 2 in
     when (0 <? init_bandwidth) (observe_bw_up (of_Z init_bandwidth));;
     when (0 <? init_latency) (observe_latency (of_Z init_latency))
   else mret tt);;
  cache_save.

Definition milliseconds (ms : Z) : double := (of_Z ms / of_Z 1000)%D.

Definition getStats (network_type : Z) : M env unit :=
  st ← gets this;
  when (getUseBreadcrumbsEstimates || negb (error_estimators_initialized st))
    (both_estimates ≫= fun (r : bool * Z * Z) => let '(have, bw_est, latency_est) := r in
     when have
       (reportNetStats (NetReport network_type (of_Z bw_est) (of_Z bw_est)
                          (milliseconds latency_est) (milliseconds latency_est));;
        when (negb (error_estimators_initialized st))
          (cache_save;; modify (upd_this (set_error_init true))))).

(** [has_chooser]: the chooser passed is not NULL. *)
Definition stats_update (local_iface remote_iface : net_interface) (has_chooser : bool) (network_type : Z)
    : M env unit :=
  let spot_bandwidth := iface_bandwidth local_iface remote_iface in
  let spot_latency := iface_RTT local_iface remote_iface / 2 in
  when (0 <? spot_bandwidth) (observe_bw_up (of_Z spot_bandwidth));;
  when (0 <? spot_latency) (observe_latency (of_Z spot_latency));;
  when (has_chooser && (0 <? spot_bandwidth) && (0 <? spot_latency))
    (both_estimates ≫= fun (r : bool * Z * Z) => let '(have, bw_est, latency_est) := r in
     when have
       (reportNetStats (NetReport network_type (of_Z spot_bandwidth) (of_Z bw_est)
                          (milliseconds spot_latency) (milliseconds latency_est))));;
  cache_save.

Definition destroy : M env unit :=
  cache_save;;
  modify (fun e => upd_shared (upd_transfers (removeAll (network_of (this e)))) e).

(** ** What the sender thread reports *)
Definition report_total_irob_bytes (irob_id total : Z) : M env unit :=
  T ← gets (irob_transfers ∘ shared);
  t ← lift (transfers_report total (transfers_of T irob_id));
  modify (upd_shared (upd_transfers <[irob_id := t]>)).

Definition erase_measurement (irob_id : Z) : M env unit :=
  modify (upd_this (upd_measurements (delete irob_id))).

Definition put_measurement (irob_id : Z) (m : IROBMeasurement) : M env unit :=
  modify (upd_this (upd_measurements <[irob_id := m]>)).

(** The bytes are entered unless the IROB is known to be striped; the result says whether it is. *)
Definition enter_transfer (irob_id bytes : Z) : M env bool :=
  e ← get;
  if ids_contains (striped_irobs (shared e)) irob_id then mret true
  else
    modify (upd_shared (upd_transfers (fun T =>
      <[irob_id := transfers_add (network_of (this e)) bytes (transfers_of T irob_id)]> T)));;
    mret false.

(** The last IROB is taken to be finished when another one is sent. *)
Definition switch_irob (irob_id : Z) : M env unit :=
  st ← gets this;
  when (negb (irob_id =? last_irob st))
    ((match irob_measurements st !! last_irob st with
      | Some m => put_measurement (last_irob st) (finish m)
      | None => mret tt
      end);;
     modify (upd_this (set_last_irob irob_id))).

Definition add_to_qdelay (bytes bw_est irob_id : Z) : M env timeval :=
  now ← get_time;
  q ← gets (outgoing_qdelay ∘ this);
  lift (add_message q bytes bw_est irob_id now) ≫= fun (r : timeval * QueuingDelay) =>
  modify (upd_this (set_qdelay r.2));;
  mret r.1.

Definition report_irob_send_event (irob_id bytes : Z) : M env unit :=
  enter_transfer irob_id bytes ≫= fun (irob_was_striped : bool) =>
  st ← gets this;
  if ids_contains (past_irobs st) irob_id then mret tt
  else if irob_was_striped then erase_measurement irob_id
  else
    get_bw_up ≫= fun (b : bool * Z) => let bw_est := b.2 in
    switch_irob irob_id;;
    st ← gets this;
    let m := set_id irob_id (default measurement_new (irob_measurements st !! irob_id)) in
    put_measurement irob_id m;;
    if finished m then
      erase_measurement irob_id;;
      modify (upd_this (upd_past (fun p => ids_insert p irob_id)))
    else
      let queuable_time := get_queuable_time (outgoing_qdelay st) irob_id in
      now ← get_time;
      m ← lift (add_bytes bytes queuable_time bw_est now m);
      put_measurement irob_id m;;
      qdelay ← add_to_qdelay bytes bw_est irob_id;
      put_measurement irob_id (add_delay qdelay m).

(** The result is what is written to [*qdelay]. *)
Definition report_non_irob_send_event (bytes : Z) : M env timeval :=
  get_bw_up ≫= fun (b : bool * Z) =>
  add_to_qdelay bytes b.2 (-1).

(** ** Acknowledgements *)

(** The result of [calculate_bw_latency]: bandwidth and latency. *)
Definition calculate_bw_latency (latency_RTT bw_RTT latency_srv_time bw_srv_time : timeval) (bw_req_size : Z)
    : double * double :=
  let latency :=
    if timercmp Z.gtb latency_RTT latency_srv_time then
      let diff := timersub latency_RTT latency_srv_time in
      (of_Z (convert_to_useconds diff) / of_Z 1000 / of_Z 2)%D
    else dzero in
  let bw :=
    if dlt dzero latency && timercmp Z.gtb bw_RTT bw_srv_time then
      let diff := timersub bw_RTT bw_srv_time in
      (of_Z bw_req_size /
         (of_Z (convert_to_useconds diff) / of_Z 1000000 - of_Z 2 * latency / of_Z 1000))%D
    else dzero in
  (bw, latency).

(** The denominator of the bandwidth estimate from two large transfers. *)
Definition bw_denominator (last_RTT RTT last_srv_time srv_time : timeval) : outcome timeval :=
  let RTT_diff_pos := timercmp Z.ltb last_RTT RTT in
  (if RTT_diff_pos then TIMEDIFF last_RTT RTT else TIMEDIFF RTT last_RTT) ≫= fun RTT_diff =>
  let srv_time_diff_pos := timercmp Z.ltb last_srv_time srv_time in
  (if srv_time_diff_pos then TIMEDIFF last_srv_time srv_time
   else TIMEDIFF srv_time last_srv_time) ≫= fun srv_time_diff =>
  if (RTT_diff_pos && srv_time_diff_pos) || negb (RTT_diff_pos || srv_time_diff_pos)
  then Ret (timeradd RTT_diff srv_time_diff)
  else if RTT_diff_pos then Ret (timersub RTT_diff srv_time_diff)
  else if srv_time_diff_pos then Ret (timersub RTT_diff srv_time_diff)
  else assert_ false ≫= fun _ => Ret timer_zero.

(** [((RTT - srv_time)/1000 - req_size/bw*1000) / 2]. *)
Definition latency_given_bw (RTT srv_time : timeval) (req_size : Z) (bw : double) : double :=
  let diff := if timercmp Z.gtb RTT srv_time then timersub RTT srv_time else timer_zero in
  ((of_Z (convert_to_useconds diff) / of_Z 1000 - of_Z req_size / bw * of_Z 1000) / of_Z 2)%D.

(** The local variables [bw_obs, latency_obs, bw_valid, lat_valid, valid_result]. *)
Record spot := Spot {
  bw_obs : Z; latency_obs : Z; bw_valid : bool; lat_valid : bool; valid_result : bool
}.

Definition MIN_SIZE_FOR_BW_ESTIMATE : Z := 3000.

Definition spot_of_pair (p : double * double) : spot :=
  let '(bw, latency) := p in
  Spot (round_nearest bw) (round_nearest latency) (dlt dzero bw) (dlt dzero latency)
    (dlt dzero bw || dlt dzero latency).

(** The comparison with the previous measurement; [st] holds the latter. *)
Definition spot_values (st : NetStats) (RTT srv_time : timeval) (req_size : Z) : M env spot :=
  let last_size := last_req_size st in
  let size_diff := if last_size <? req_size then req_size - last_size else last_size - req_size in
  if (MIN_SIZE_FOR_BW_ESTIMATE <=? size_diff) &&
     ((MIN_SIZE_FOR_BW_ESTIMATE <=? req_size) || (MIN_SIZE_FOR_BW_ESTIMATE <=? last_size)) then
    if req_size <? MIN_SIZE_FOR_BW_ESTIMATE then
      lift (assert_ (MIN_SIZE_FOR_BW_ESTIMATE <=? last_size));;
      mret (spot_of_pair (calculate_bw_latency RTT (last_RTT st) srv_time (last_srv_time st) last_size))
    else if last_size <? MIN_SIZE_FOR_BW_ESTIMATE then
      lift (assert_ (MIN_SIZE_FOR_BW_ESTIMATE <=? req_size));;
      mret (spot_of_pair (calculate_bw_latency (last_RTT st) RTT (last_srv_time st) srv_time req_size))
    else
      lift (bw_denominator (last_RTT st) RTT (last_srv_time st) srv_time) ≫= fun (denominator : timeval) =>
      let bw := (of_Z size_diff / of_Z (convert_to_useconds denominator) * of_Z 1000000)%D in
      let latency := latency_given_bw RTT srv_time req_size bw in
      mret (Spot (round_nearest bw) (round_nearest latency) (dlt dzero bw) (dlt dzero latency)
              (dlt dzero bw && dlt dzero latency))
  else
    get_bw_up ≫= fun (b : bool * Z) =>
    if b.1 then
      let latency := latency_given_bw RTT srv_time req_size (of_Z b.2) in
      mret (Spot 0 (round_nearest latency) false (dlt dzero latency) (dlt dzero latency))
    else mret (Spot 0 0 false false false).

(** The striping check: whether the acknowledgement is to be ignored. *)
Definition ack_striped (irob_id : Z) : M env bool :=
  e ← get;
  if ids_contains (striped_irobs (shared e)) irob_id then mret true
  else
    lift (transfers_has_all (transfers_of (irob_transfers (shared e)) irob_id) (network_of (this e)))
      ≫= fun (r : bool * IROBTransfersPerNetwork) =>
    modify (upd_shared (upd_transfers <[irob_id := r.2]>));;
    if r.1 then mret false
    else
      modify (upd_shared (upd_striped (fun X => ids_insert X irob_id)));;
      mret true.

(** The two numbers [*bw_out], [*latency_seconds_out] of a new measurement. *)
Definition measure (RTT srv_time : timeval) (req_size : Z) : M env (option (double * double)) :=
  st ← gets this;
  (if negb (tv_sec (last_RTT st) =? -1) then
     v ← spot_values st RTT srv_time req_size;
     if valid_result v then
       when (bw_valid v) (observe_bw_up (of_Z (bw_obs v)));;
       when (lat_valid v) (observe_latency (of_Z (latency_obs v)));;
       get_bw_up;;
       get_latency;;
       mret (Some (of_Z (bw_obs v), milliseconds (latency_obs v)))
     else mret None
   else mret None) ≫= fun out =>
  modify (upd_this (set_last RTT srv_time req_size));;
  mret out.

(** [report_ack]; the result is what the call returns, with the values written
    when it returns true. *)
Definition report_ack (irob_id : Z) (srv_time ack_qdelay : timeval) (real_time : option timeval)
    : M env (option (double * double)) :=
  if tv_usec srv_time =? -1 then mret None
  else
    ack_striped irob_id ≫= fun (striped : bool) =>
    if striped then mret None
    else
      st ← gets this;
      match irob_measurements st !! irob_id with
      | None => mret None
      | Some m =>
          erase_measurement irob_id;;
          now ← match real_time with Some t => mret t | None => get_time end;
          let m := measurement_ack now (add_delay ack_qdelay m) in
          r ← lift (measured_RTT m);
          match r with
          | None => mret None
          | Some RTT =>
              out ← measure RTT srv_time (total_size m);
              cache_save;;
              mret out
          end
      end.

(** ** Failures *)

(** The loop of [mark_irob_failures]: the greatest delay and whether there is one. *)
Fixpoint mark_each (l : list (Z * IROBMeasurement)) (max_delay : timeval) (failure : bool)
    : M env (timeval * bool) :=
  match l with
  | [] => mret (max_delay, failure)
  | (_, m) :: l =>
      now ← get_time;
      r ← lift (measured_RTT (mark_failed now m));
      match r with
      | Some delay =>
          if timercmp Z.ltb max_delay delay then mark_each l delay true else mark_each l max_delay failure
      | None => mark_each l max_delay failure
      end
  end.

(** The measurements in the order of the map. *)
Definition measurements_list (st : NetStats) : list (Z * IROBMeasurement) :=
  omap (fun id => m ← irob_measurements st !! id; Some (id, m))
    (ascending (dom (irob_measurements st))).

(** The result is [*latency_seconds_out] when the call returns true. *)
Definition mark_irob_failures (network_type : Z) : M env (option double) :=
  st ← gets this;
  mark_each (measurements_list st) timer_zero false ≫= fun (r : timeval * bool) =>
  modify (upd_this (upd_measurements (fun _ => ∅)));;
  if r.2 then
    let latency_ms := (of_Z (convert_to_useconds r.1) / of_Z 1000 / of_Z 2)%D in
    let latency_seconds := (latency_ms / of_Z 1000)%D in
    when getRecordFailoverLatency
      (observe_latency (of_Z (round_nearest latency_ms));;
       get_latency ≫= fun (l : bool * Z) =>
       when l.1 (reportNetStats (NetReport network_type dzero dzero latency_seconds (milliseconds l.2))));;
    mret (Some latency_seconds)
  else mret None.

Definition stats_remove (irob_id : Z) : M env unit := erase_measurement irob_id.
End stats.
Arguments NetStats IS : clear implicits.
Arguments statics IS : clear implicits.
Arguments env IS : clear implicits.

(** What the choosers use ([NetStats::get_estimate] on the cache). *)
Definition cached_estimates `{!Unspecified} {IS} (c : statics IS) : NetEstimates := {|
  estimate_bw_up l r :=
    let e := cached_estimate c (ip_addr l) (ip_addr r) NET_STATS_BW_UP in if e.1 then Some e.2 else None;
  estimate_latency l r :=
    let e := cached_estimate c (ip_addr l) (ip_addr r) NET_STATS_LATENCY in if e.1 then Some e.2 else None
|}.

(** * Several connections *)
Record world IS := World { objects : gmap Z (NetStats IS); globals : statics IS }.
Arguments World {IS} _ _.
Arguments objects {IS} _.
Arguments globals {IS} _.

Definition on_stats {IS A} (h : Z) (m : M (env IS) A) : M (world IS) A := fun w =>
  match objects w !! h with
  | None => (Trap UndefinedBehaviour, w)
  | Some st =>
      let '(o, e) := m (Env st (globals w)) in (o, World (<[h := this e]> (objects w)) (shared e))
  end.
