(* ===== verification/NetStatsSpec.v ===== *)
(** What the network measurements compute and where they fail.

    The queuing delays are those of the recurrence the code cites, and so the
    longest backlog over all earlier messages; an IROB once found striped never
    contributes to any estimate; two ordinary courses of events fail an
    assertion: an IROB's total is reported again after a dependency was
    acknowledged, and an acknowledgement arrives after the connection that
    carried the IROB is gone. *)

From S2P Require Import Prelude.
From S2P Require Import Logic.
From S2P Require Import IntSet.
From S2P Require Import Labels.
From S2P Require Import Irob.
From S2P Require Import SenderIrob.
From S2P Require Import Timeops.
From S2P Require Import Doubles.
From S2P Require Import FlipFlop.
From S2P Require Import Chooser.
From S2P Require Import NetStats.
From Stdlib Require Import Lia.

(** * Queuing delay *)
Section delay.
Context `{!Unspecified}.

Record message := Msg { msg_size : Z; msg_bw : Z; msg_irob : Z; msg_time : timeval }.

(** One [add_message] per message. *)
Fixpoint send_all (q : QueuingDelay) (l : list message) : outcome (list timeval * QueuingDelay) :=
  match l with
  | [] => Ret ([], q)
  | m :: l =>
      add_message q (msg_size m) (msg_bw m) (msg_irob m) (msg_time m) ≫= fun '(d, q') =>
      send_all q' l ≫= fun '(ds, q'') => Ret (d :: ds, q'')
  end.

(** The time a message takes on the network and the time it was sent, in microseconds. *)
Definition tx (m : message) : Z := usecs (time_to_send (msg_size m) (msg_bw m)).
Definition at_ (m : message) : Z := usecs (msg_time m).

(** The recurrence of the comment, over the earlier messages, latest first. *)
Fixpoint qdelay (earlier : list message) (m : message) : Z :=
  match earlier with
  | [] => 0
  | p :: earlier => Z.max (qdelay earlier p + tx p - (at_ m - at_ p)) 0
  end.

(** How long the latest [k] of the earlier messages keep the network busy
    beyond the time [t], had it been idle before; and the longest of these. *)
Fixpoint worst_backlog (earlier : list message) (busy t : Z) : Z :=
  match earlier with
  | [] => 0
  | p :: earlier => Z.max (busy + tx p - (t - at_ p)) (worst_backlog earlier (busy + tx p) t)
  end.

Lemma tx_nonneg m : 0 <= tx m.
Proof. unfold tx, time_to_send. rewrite usecs_convert. by apply to_unsigned_range. Qed.

Lemma worst_backlog_time earlier b t d : worst_backlog earlier (b + d) (t + d) = worst_backlog earlier b t.
Proof.
  revert b. induction earlier as [|p e IH]; intros; simpl; [done|].
  rewrite <- (IH (b + tx p)). replace (b + d + tx p) with (b + tx p + d) by lia. lia.
Qed.
Lemma worst_backlog_shift earlier b t x :
  Z.max x (worst_backlog earlier (b + x) t) = Z.max 0 (worst_backlog earlier b t + x).
Proof.
  revert b. induction earlier as [|p e IH]; intros; simpl; [lia|].
  specialize (IH (b + tx p)). replace (b + x + tx p) with (b + tx p + x) by lia. lia.
Qed.

(** The recurrence unrolled. *)
Lemma qdelay_backlog earlier m : qdelay earlier m = worst_backlog earlier 0 (at_ m).
Proof.
  revert m. induction earlier as [|p e IH]; intros; simpl; [done|]. rewrite IH.
  set (x := tx p - (at_ m - at_ p)).
  assert (worst_backlog e (0 + tx p) (at_ m) = worst_backlog e (0 + x) (at_ p)) as ->.
  { rewrite <- (worst_backlog_time e (0 + x) (at_ p) (at_ m - at_ p)). unfold x. f_equal; lia. }
  replace (worst_backlog e 0 (at_ p) + tx p - _) with (worst_backlog e 0 (at_ p) + x) by (unfold x; lia).
  rewrite Z.max_comm, <- worst_backlog_shift. fold x. unfold x. lia.
Qed.

(** What the object knows after [p], sent after [earlier]. *)
Definition follows (earlier : list message) (p : message) (q : QueuingDelay) : Prop :=
  last_msg_time q = msg_time p /\ last_msg_size q = msg_size p /\
  last_bw_estimate q = msg_bw p /\ qd_last_irob q = msg_irob p /\
  normal (last_msg_qdelay q) /\ usecs (last_msg_qdelay q) = qdelay earlier p.

(** A message with an estimate, after another IROB than [p] and not before it. *)
Definition succeeds (p m : message) : Prop :=
  normal (msg_time m) /\ msg_bw m <> 0 /\ (msg_irob m <> msg_irob p \/ msg_irob m = -1) /\ at_ p <= at_ m.
Fixpoint sequence (p : message) (l : list message) : Prop :=
  match l with [] => True | m :: l => succeeds p m /\ sequence m l end.

Lemma qdelay_nonneg e m : 0 <= qdelay e m.
Proof. destruct e; simpl; lia. Qed.

Lemma add_message_next earlier p q m :
  normal (msg_time p) -> follows earlier p q -> succeeds p m ->
  exists d q', add_message q (msg_size m) (msg_bw m) (msg_irob m) (msg_time m) = Ret (d, q') /\
    normal d /\ usecs d = qdelay (p :: earlier) m /\ follows (p :: earlier) m q'.
Proof.
  intros Hp (Ht & Hs & Hb & Hi & Hn & Hq) (Hm & Hbw & Hid & Hle). unfold add_message.
  pose proof (qdelay_nonneg earlier p) as H0. rewrite <- Hq in H0.
  destruct (Z.eqb_spec (tv_sec (last_msg_qdelay q)) (-1)) as [E|_].
  { unfold usecs, normal in *. rewrite E in H0. lia. }
  destruct (Z.eqb_spec (msg_bw m) 0); [done|].
  replace (_ && _) with false; cycle 1.
  { rewrite Hi. destruct Hid as [Hid| ->]; [|by rewrite andb_false_r].
    apply Z.eqb_neq in Hid. by rewrite Hid. }
  rewrite Ht, Hs, Hb. fold (at_ p).
  assert (exists diff, (if timercmp Z.ltb (msg_time p) (msg_time m)
            then TIMEDIFF (msg_time p) (msg_time m) else Ret timer_zero) = Ret diff /\
            normal diff /\ usecs diff = at_ m - at_ p) as (diff & -> & Hd & Ed).
  { rewrite timercmp_lt by done. fold (at_ p) (at_ m). destruct (Z.ltb_spec (at_ p) (at_ m)).
    - rewrite TIMEDIFF_sub by done. fold (at_ p) (at_ m).
      destruct (Z.leb_spec (at_ p) (at_ m)); [|lia].
      eexists. split; [done|]. split; [by apply normal_sub|apply usecs_sub].
    - exists timer_zero. split; [done|]. split; [apply normal_zero|]. unfold timer_zero, usecs. simpl. lia. }
  simpl. set (calc := timeradd _ _).
  assert (normal calc) by (apply normal_add; [done|apply normal_convert]).
  assert (usecs calc = qdelay earlier p + tx p) as Ec by (unfold calc; by rewrite usecs_add, Hq).
  rewrite timercmp_gt by done. eexists _, _. split; [reflexivity|]. unfold follows. simpl.
  assert (normal (if usecs diff <? usecs calc then timersub calc diff else timer_zero)).
  { case_match; [by apply normal_sub|apply normal_zero]. }
  assert (usecs (if usecs diff <? usecs calc then timersub calc diff else timer_zero) =
          Z.max (qdelay earlier p + tx p - (at_ m - at_ p)) 0).
  { destruct (Z.ltb_spec (usecs diff) (usecs calc)); [rewrite usecs_sub; lia|]. change (usecs timer_zero) with 0. lia. }
  by split_and!.
Qed.

Lemma send_all_next earlier p q l :
  normal (msg_time p) -> follows earlier p q -> sequence p l ->
  exists ds q', send_all q l = Ret (ds, q') /\ length ds = length l /\
    forall i m d, l !! i = Some m -> ds !! i = Some d ->
      normal d /\ usecs d = qdelay (rev (take i l) ++ p :: earlier) m.
Proof.
  revert earlier p q. induction l as [|m l IH]; intros e p q Hp Hf Hl; simpl.
  { by exists [], q. }
  destruct Hl as [Hm Hl]. destruct (add_message_next e p q m Hp Hf Hm) as (d & q' & -> & Hn & Hd & Hf').
  simpl. destruct (IH (p :: e) m q' (proj1 Hm) Hf' Hl) as (ds & q'' & -> & Hlen & Hds). simpl.
  exists (d :: ds), q''. split; [done|]. split; [simpl; lia|]. intros [|i] m' d'; simpl.
  - by intros [= <-] [= <-].
  - intros. rewrite <- app_assoc. by apply Hds.
Qed.

(** C34: When the bandwidth estimate is known, the clock does not run back and neighbouring messages belong
    to different IROBs (or to none), the queuing delay computed for each message is the
    documented recurrence over the messages before it, starting at zero, and
    equals the longest backlog: the greatest excess, over all numbers of
    latest messages, of their transmission times over the time passed since the first of them. *)
Theorem queuing_delay_spec first l :
  normal (msg_time first) -> sequence first l ->
  exists ds q, send_all qdelay_init (first :: l) = Ret (ds, q) /\ length ds = S (length l) /\
    forall i m d, (first :: l) !! i = Some m -> ds !! i = Some d ->
      let earlier := rev (take i (first :: l)) in
      usecs d = qdelay earlier m /\ usecs d = worst_backlog earlier 0 (at_ m).
Proof.
  intros Hn Hl. destruct (send_all_next [] first
      (QDelay (msg_time first) timer_zero (msg_size first) (msg_bw first) (msg_irob first)) l Hn)
    as (ds & q & E & Hlen & Hds); [by split_and!|done|].
  exists (timer_zero :: ds), q. split.
  { transitivity (mbind (M:=outcome) (fun '(ds, q') => Ret (timer_zero :: ds, q'))
      (send_all (QDelay (msg_time first) timer_zero (msg_size first) (msg_bw first) (msg_irob first)) l));
      [reflexivity|by rewrite E]. }
  split; [simpl; lia|]. intros [|i] m d; simpl.
  - by intros [= <-] [= <-].
  - intros Hi Hd. destruct (Hds i m d Hi Hd) as [_ E']. rewrite <- qdelay_backlog. by split.
Qed.
End delay.

(** * Striped IROBs *)

(** The invariants of this file need no ghost value. *)
#[local] Instance no_ghost : Ghost unit := {| gle := eq |}.

Section striping.
Context {IS : Type} `{IdSetLaws IS} `{!Unspecified} `{!TimeGetter} `{!StatsConfig}.
Implicit Types (e : env IS) (w : world IS).

(** The calls of the other parts of the program on the statistics of a connection. *)
Inductive call :=
| CNew (l r : net_interface)
| CSend (id bytes : Z)
| CSendOther (bytes : Z)
| CTotal (id total : Z)
| CAck (id : Z) (srv_time qdelay : timeval) (real_time : option timeval)
| CFailures (network_type : Z)
| CUpdate (l r : net_interface) (has_chooser : bool) (network_type : Z)
| CGetStats (network_type : Z)
| CRemove (id : Z)
| CDestroy.

Definition call_body (c : call) : M (env IS) unit :=
  match c with
  | CNew l r => construct l r
  | CSend id bytes => report_irob_send_event id bytes
  | CSendOther bytes => report_non_irob_send_event bytes;; mret tt
  | CTotal id total => report_total_irob_bytes id total
  | CAck id s q t => report_ack id s q t;; mret tt
  | CFailures t => mark_irob_failures t;; mret tt
  | CUpdate l r b t => stats_update l r b t
  | CGetStats t => getStats t
  | CRemove id => stats_remove id
  | CDestroy => destroy
  end.

(** The call [c] on the object [h]; a constructor makes the object first, the
    destructor frees it. *)
Definition exec (hc : Z * call) : M (world IS) unit :=
  let '(h, c) := hc in
  (match c with
   | CNew l r => modify (fun w => World (<[h := stats_blank l r]> (objects w)) (globals w))
   | _ => mret tt
   end);;
  on_stats h (call_body c);;
  match c with
  | CDestroy => modify (fun w => World (delete h (objects w)) (globals w))
  | _ => mret tt
  end.

Fixpoint exec_all (l : list (Z * call)) : M (world IS) unit :=
  match l with [] => mret tt | c :: l => exec c;; exec_all l end.

Section marked.
Context (id : Z).

Definition marked (c : statics IS) : Prop := ids_contains (striped_irobs c) id = true.
Definition e_marked (_ : unit) e : Prop := marked (shared e).
Definition w_marked (_ : unit) w : Prop := marked (globals w).

Lemma keeps_this f : keeps e_marked (modify (upd_this f)).
Proof. apply keeps_modify. intros [] e He. by exists tt. Qed.
Lemma keeps_transfers f : keeps e_marked (modify (upd_shared (upd_transfers f))).
Proof. apply keeps_modify. intros [] e He. by exists tt. Qed.
Lemma keeps_removed : keeps e_marked (modify (fun e => upd_shared (upd_transfers (removeAll (network_of (this e)))) e)).
Proof. apply keeps_modify. intros [] e He. by exists tt. Qed.
Lemma keeps_reports f : keeps e_marked (modify (upd_shared (upd_reports f))).
Proof. apply keeps_modify. intros [] e He. by exists tt. Qed.
Lemma keeps_mark i : keeps e_marked (modify (upd_shared (upd_striped (fun X => ids_insert X i)))).
Proof. apply keeps_modify. intros [] e He. exists tt. split; [done|]. by apply ids_contains_insert_mono. Qed.
Lemma keeps_get_time : keeps e_marked get_time.
Proof. intros [] e He. by exists tt. Qed.
Lemma keeps_estimate_of f : keeps e_marked (estimate_of f).
Proof. intros [] e He. by exists tt. Qed.
Lemma keeps_cache_save : keeps e_marked cache_save.
Proof. intros [] e He. by exists tt. Qed.

#[local] Hint Resolve keeps_this keeps_transfers keeps_removed keeps_reports keeps_mark keeps_get_time
  keeps_estimate_of keeps_cache_save : cmm.
#[local] Ltac keeps_all :=
  repeat first [solve [auto 1 with cmm] | progress cbv zeta | keeps_step].

Lemma keeps_bw_up : keeps e_marked get_bw_up.
Proof. unfold get_bw_up. keeps_all. Qed.
Lemma keeps_latency : keeps e_marked get_latency.
Proof. unfold get_latency. keeps_all. Qed.
Lemma keeps_observe_bw x : keeps e_marked (observe_bw_up x).
Proof. unfold observe_bw_up. keeps_all. Qed.
Lemma keeps_observe_latency x : keeps e_marked (observe_latency x).
Proof. unfold observe_latency. keeps_all. Qed.
Lemma keeps_report r : keeps e_marked (reportNetStats r).
Proof. unfold reportNetStats. keeps_all. Qed.
#[local] Hint Resolve keeps_bw_up keeps_latency keeps_observe_bw keeps_observe_latency keeps_report : cmm.

Lemma keeps_both : keeps e_marked both_estimates.
Proof. unfold both_estimates. keeps_all. Qed.
Lemma keeps_erase_entry i : keeps e_marked (erase_measurement i).
Proof. unfold erase_measurement. keeps_all. Qed.
Lemma keeps_put i m : keeps e_marked (put_measurement i m).
Proof. unfold put_measurement. keeps_all. Qed.
Lemma keeps_qdelay b v i : keeps e_marked (add_to_qdelay b v i).
Proof. unfold add_to_qdelay. keeps_all. Qed.
#[local] Hint Resolve keeps_both keeps_erase_entry keeps_put keeps_qdelay : cmm.

Lemma keeps_restore : keeps e_marked cache_restore.
Proof. unfold cache_restore, restore_one. keeps_all. Qed.
Lemma keeps_mark_each l d b : keeps e_marked (mark_each l d b).
Proof. revert d b. induction l as [|[i m] l IH]; intros; simpl; keeps_all. Qed.
Lemma keeps_spots st r s z : keeps e_marked (spot_values st r s z).
Proof. unfold spot_values. keeps_all. Qed.
#[local] Hint Resolve keeps_restore keeps_mark_each keeps_spots : cmm.
Lemma keeps_measure r s z : keeps e_marked (measure r s z).
Proof. unfold measure. keeps_all. Qed.
Lemma keeps_ack_striped i : keeps e_marked (ack_striped i).
Proof. unfold ack_striped. keeps_all. Qed.
Lemma keeps_switch i : keeps e_marked (switch_irob i).
Proof. unfold switch_irob. keeps_all. Qed.
Lemma keeps_enter i b : keeps e_marked (enter_transfer i b).
Proof. unfold enter_transfer. keeps_all. Qed.
#[local] Hint Resolve keeps_measure keeps_ack_striped keeps_switch keeps_enter : cmm.

Lemma keeps_call c : keeps e_marked (call_body c).
Proof.
  destruct c; simpl; unfold construct, stats_are_cached, report_irob_send_event, report_non_irob_send_event,
    report_total_irob_bytes, report_ack, mark_irob_failures, stats_update, getStats, stats_remove, destroy;
    keeps_all.
Qed.

Lemma keeps_on_stats {A} h (m : M (env IS) A) : keeps e_marked m -> keeps w_marked (on_stats h m).
Proof.
  intros Hm [] w Hw. unfold on_stats. destruct (objects w !! h) as [st|]; [|by exists tt].
  destruct (Hm tt (Env st (globals w)) Hw) as ([] & _ & He & _).
  destruct (m (Env st (globals w))) as [o e]. by exists tt.
Qed.

Lemma keeps_exec hc : keeps w_marked (exec hc).
Proof.
  destruct hc as [h c]. unfold exec. apply keeps_bind.
  - destruct c; try apply keeps_ret. apply keeps_modify. intros [] w Hw. by exists tt.
  - intros _. apply keeps_bind; [apply keeps_on_stats, keeps_call|]. intros _.
    destruct c; try apply keeps_ret. apply keeps_modify. intros [] w Hw. by exists tt.
Qed.

Lemma keeps_exec_all l : keeps w_marked (exec_all l).
Proof.
  induction l as [|c l IH]; simpl; [apply keeps_ret|]. apply keeps_bind; [apply keeps_exec|done].
Qed.
End marked.

Lemma striped_ignored id s q t e :
  marked id (shared e) -> report_ack id s q t e = (Ret None, e).
Proof.
  intros Hm. unfold report_ack. destruct (tv_usec s =? -1); [done|].
  etransitivity; [apply M_bind_ret; unfold ack_striped; etransitivity; [by apply M_bind_ret|]|].
  - unfold marked in Hm. by rewrite Hm.
  - done.
Qed.
(** The bytes of an IROB reported sent by the connection and its total. *)
Definition bytes_on (c : statics IS) (id : Z) (n : network) : Z := getValue (transfers_of (irob_transfers c) id) n.
Definition total_of (c : statics IS) (id : Z) : Z := total_bytes (transfers_of (irob_transfers c) id).

Lemma ack_first_striped id s q t e :
  0 <= id -> tv_usec s <> -1 -> 0 < total_of (shared e) id -> bytes_on (shared e) id (network_of (this e)) < total_of (shared e) id ->
  exists c, report_ack id s q t e = (Ret None, Env (this e) c) /\ marked id c.
Proof.
  intros Hid Hs Ht Hb. destruct (ids_contains (striped_irobs (shared e)) id) eqn:E.
  { exists (shared e). rewrite striped_ignored by done. by destruct e. }
  unfold report_ack. apply Z.eqb_neq in Hs. rewrite Hs. unfold total_of, bytes_on in *.
  apply Z.ltb_lt in Ht. apply Z.leb_gt in Hb.
  assert (exists c, ack_striped id e = (Ret true, Env (this e) c) /\ marked id c) as (c & E' & Hm).
  { unfold ack_striped. eexists. split.
    - etransitivity; [by apply M_bind_ret|]. rewrite E.
      etransitivity; [apply M_bind_ret; unfold lift, transfers_has_all; rewrite Ht; simpl; by rewrite Hb|].
      etransitivity; [by apply M_bind_ret|]. simpl. etransitivity; [by apply M_bind_ret|]. reflexivity.
    - simpl. apply ids_contains_insert_eq. unfold LONG_MIN. lia. }
  exists c. split; [|done]. etransitivity; [exact (M_bind_ret _ _ _ _ _ E')|]. reflexivity.
Qed.

(** C25: When an acknowledgement with a valid service time (one whose microseconds are not
    -1) arrives over a connection that carried fewer
    bytes of the IROB than its total, which is known, it changes no statistics, and the IROB is
    remembered: whatever calls are then made, on whatever connections (new and
    destroyed ones included), no acknowledgement of it over any connection is
    ever measured; it changes nothing at all.  (One with an invalid service time is ignored
    too, but not remembered.) *)
Theorem striped_never_measured w h st id s q t :
  objects w !! h = Some st -> 0 <= id -> tv_usec s <> -1 -> 0 < total_of (globals w) id ->
  bytes_on (globals w) id (network_of st) < total_of (globals w) id ->
  exists w1, on_stats h (report_ack id s q t) w = (Ret None, w1) /\ objects w1 = objects w /\
    forall l h' st' s' q' t', let w2 := (exec_all l w1).2 in
      objects w2 !! h' = Some st' -> on_stats h' (report_ack id s' q' t') w2 = (Ret None, w2).
Proof.
  intros Hh Hid Hs Ht Hb. unfold on_stats at 1. rewrite Hh.
  destruct (ack_first_striped id s q t (Env st (globals w)) Hid Hs Ht Hb) as (c & -> & Hm).
  eexists. split; [done|]. split; [by simpl; apply insert_id|]. intros l h' st' s' q' t' Hh'.
  destruct (keeps_exec_all id l tt (World (<[h := st]> (objects w)) c) Hm) as ([] & _ & Hm' & _). simpl in *.
  set (w2 := (exec_all l _).2) in *.
  unfold on_stats. rewrite Hh', striped_ignored by done. simpl. rewrite insert_id by done. by destruct w2.
Qed.

(** ** Acknowledgements without a total *)
Lemma ack_without_total id s q t e :
  tv_usec s <> -1 -> ids_contains (striped_irobs (shared e)) id = false -> total_of (shared e) id <= 0 ->
  (report_ack id s q t e).1 = Trap AssertFailed.
Proof.
  intros Hs Hm Ht. unfold report_ack. apply Z.eqb_neq in Hs. rewrite Hs. unfold total_of in Ht.
  apply Z.ltb_ge in Ht.
  assert (ack_striped id e = (Trap AssertFailed, e)) as E.
  { unfold ack_striped. etransitivity; [by apply M_bind_ret|]. rewrite Hm.
    unfold mbind, M_bind, lift, transfers_has_all. by rewrite Ht. }
  unfold mbind at 1, M_bind at 1. by rewrite E.
Qed.

(** The IROB was sent over networks in [X] only. *)
Lemma removeAll_only (T : IROBTransfers) id t n :
  T !! id = Some t -> dom (transfers_by_network t) ⊆ {[n]} -> removeAll n T !! id = None.
Proof.
  intros E Hd. unfold removeAll. rewrite lookup_omap, E. simpl. rewrite bool_decide_eq_true_2; [done|].
  apply map_eq. intros k. rewrite lookup_empty. destruct (decide (k = n)) as [->|Hk]; [apply lookup_delete_eq|].
  rewrite lookup_delete_ne by done. apply not_elem_of_dom. set_solver.
Qed.

(** When the connection that carried an IROB is destroyed, the record of
    its total goes with it, and the acknowledgement of the IROB that then arrives over another
    connection fails the assertion that a total is known: the process is ended. *)
Theorem orphaned_ack_traps w h st h' st' id T s q t :
  h <> h' -> objects w !! h = Some st -> objects w !! h' = Some st' ->
  irob_transfers (globals w) !! id = Some T -> dom (transfers_by_network T) ⊆ {[network_of st]} ->
  ids_contains (striped_irobs (globals w)) id = false -> tv_usec s <> -1 ->
  exists w1, exec (h, CDestroy) w = (Ret tt, w1) /\
    (on_stats h' (report_ack id s q t) w1).1 = Trap AssertFailed.
Proof.
  intros Hne Hh Hh' HT Hd Hm Hs. eexists. split.
  - unfold exec. etransitivity; [by apply M_bind_ret|].
    etransitivity; [apply M_bind_ret; unfold on_stats; rewrite Hh; reflexivity|]. reflexivity.
  - unfold on_stats. simpl. rewrite lookup_delete_ne, lookup_insert_ne, Hh' by done.
    match goal with |- context [report_ack id s q t ?e] => pose proof (ack_without_total id s q t e Hs Hm) as H' end.
    match type of H' with ?A -> _ => assert A as Ht end.
    { unfold total_of, transfers_of. simpl. by rewrite (removeAll_only _ _ _ _ HT Hd). }
    specialize (H' Ht). destruct (report_ack _ _ _ _ _). done.
Qed.

(** ** Totals that change *)
Lemma report_total_ret id total e :
  total_of (shared e) id = 0 \/ total_of (shared e) id = total ->
  exists c, report_total_irob_bytes id total e = (Ret tt, Env (this e) c) /\ total_of c id = total.
Proof.
  intros H'. unfold report_total_irob_bytes, total_of in *.
  set (t := transfers_of (irob_transfers (shared e)) id) in *.
  assert (exists t', transfers_report total t = Ret t' /\ total_bytes t' = total) as (t' & E & Ht).
  { unfold transfers_report. destruct (Z.eqb_spec (total_bytes t) 0) as [E|E].
    - simpl. rewrite Z.eqb_refl. by eexists.
    - assert (total_bytes t = total) as E' by lia. rewrite E', Z.eqb_refl. by exists t. }
  eexists. split.
  - etransitivity; [by apply M_bind_ret|]. etransitivity; [apply M_bind_ret; unfold lift, gets; simpl; fold t; by rewrite E|].
    reflexivity.
  - unfold transfers_of. simpl. by rewrite lookup_insert_eq.
Qed.

Lemma report_total_traps id total e :
  total_of (shared e) id <> 0 -> total_of (shared e) id <> total ->
  (report_total_irob_bytes id total e).1 = Trap AssertFailed.
Proof.
  intros Hz Hn. unfold report_total_irob_bytes, total_of, mbind, M_bind, gets, lift, transfers_report in *. simpl.
  apply Z.eqb_neq in Hz, Hn. rewrite Hz. simpl. by rewrite Hn.
Qed.

(** A satisfied dependency makes the count of network bytes smaller by one identifier. *)
Lemma total_mod l a b :
  foldl (fun n c => to_size_t (n + (ch_datalen c + b))) a l mod 2 ^ 64 =
  (a + foldr (fun c n => ch_datalen c + b + n) 0 l) mod 2 ^ 64.
Proof.
  revert a. induction l as [|c l IH]; intros; simpl; [f_equal; lia|]. rewrite IH. unfold to_size_t, wrap_u.
  rewrite Zplus_mod_idemp_l. f_equal. lia.
Qed.

Lemma total_shrinks hdr p d :
  d ∈ deps (sbase p) ->
  get_total_network_bytes hdr (set_sbase (dep_satisfied d) p) <> get_total_network_bytes hdr p.
Proof.
  intros Hd E. apply (f_equal (fun x => x mod 2 ^ 64)) in E. unfold get_total_network_bytes in E.
  rewrite !total_mod in E. simpl in E. unfold to_size_t, wrap_u in E. rewrite !Zplus_mod_idemp_l in E.
  rewrite (size_difference (deps (sbase p)) {[d]}), size_singleton in E by set_solver.
  assert (1 <= size (deps (sbase p)))%nat.
  { apply Nat.le_succ_l, Nat.neq_0_lt_0, size_non_empty_iff. set_solver. }
  set (x := foldr _ _ _) in E. set (n := size _) in *.
  assert ((8 * 1) mod 2 ^ 64 = 0) as C; [|vm_compute in C; discriminate].
  replace (8 * 1) with ((hdr * 2 + Z.of_nat n * 8 + x) - (hdr * 2 + Z.of_nat (n - 1) * 8 + x)) by lia.
  by rewrite Zminus_mod, E, Z.sub_diag.
Qed.

(** The total a sender thread reports for an IROB is accepted the first
    time, and again as long as it stays the same; but when a dependency of the IROB is acknowledged in
    between, the next report (of the End_IROB, of a chunk sent again) gives
    a smaller total and fails the assertion that totals never change: the
    process is ended. *)
Theorem changed_total_traps hdr p d id e :
  total_of (shared e) id = 0 -> get_total_network_bytes hdr p <> 0 -> d ∈ deps (sbase p) ->
  exists c, report_total_irob_bytes id (get_total_network_bytes hdr p) e = (Ret tt, Env (this e) c) /\
    (report_total_irob_bytes id (get_total_network_bytes hdr p) (Env (this e) c)).1 = Ret tt /\
    (report_total_irob_bytes id (get_total_network_bytes hdr (set_sbase (dep_satisfied d) p))
       (Env (this e) c)).1 = Trap AssertFailed.
Proof.
  intros Hz Hn Hd. destruct (report_total_ret id (get_total_network_bytes hdr p) e) as (c & E & Ht); [by left|].
  exists c. split; [done|]. split.
  - destruct (report_total_ret id (get_total_network_bytes hdr p) (Env (this e) c)) as (c' & -> & _); [by right|done].
  - apply report_total_traps; simpl; rewrite Ht; [done|]. symmetry. by apply total_shrinks.
Qed.
End striping.

(** * The bandwidth denominator

    The comment's formula is the size difference over
    [RTT - last_RTT + last_srv_time - srv_time]; the code adds where it should
    subtract and the other way round. *)
Lemma bw_denominator_spec last_RTT RTT last_srv srv :
  normal last_RTT -> normal RTT -> normal last_srv -> normal srv ->
  let a := usecs RTT - usecs last_RTT in
  let b := usecs srv - usecs last_srv in
  exists d, bw_denominator last_RTT RTT last_srv srv = Ret d /\
    usecs d = (if Bool.eqb (0 <? a) (0 <? b) then Z.abs a + Z.abs b else Z.abs a - Z.abs b) /\
    (usecs d = Z.abs (a - b) <-> b = 0 \/ (a = 0 /\ b < 0)).
Proof.
  intros ???? a b. unfold bw_denominator. rewrite !timercmp_lt, !TIMEDIFF_sub by done.
  assert (forall x y, (if usecs x <? usecs y then if usecs x <=? usecs y then Ret (timersub y x) else Trap AssertFailed
            else if usecs y <=? usecs x then Ret (timersub x y) else Trap AssertFailed) =
          Ret (if usecs x <? usecs y then timersub y x else timersub x y)) as E.
  { intros. destruct (Z.ltb_spec (usecs x) (usecs y)), (Z.leb_spec (usecs x) (usecs y)),
      (Z.leb_spec (usecs y) (usecs x)); try done; lia. }
  rewrite !E. simpl.
  destruct (Z.ltb_spec (usecs last_RTT) (usecs RTT)), (Z.ltb_spec (usecs last_srv) (usecs srv)); simpl;
    (eexists; split; [reflexivity|]); rewrite ?usecs_add, ?usecs_sub;
    destruct (Z.ltb_spec 0 a), (Z.ltb_spec 0 b); unfold a, b in *; simpl; lia.
Qed.

(** * Evaluated

    Two messages of 1000 bytes at 1000 bytes per second, half a second apart;
    an IROB of 2000 bytes of which one of two connections carried 800. *)
Module demo.
Import IntSet.ListBits.

#[export] Instance unspecified : Unspecified := {| bad_conversion _ _ := 0; uninitialised _ := dzero |}.
#[export] Instance clock : TimeGetter := {| time_getter n := Timeval (100 + Z.of_nat n) 0 |}.
#[export] Instance config : StatsConfig := {| getUseBreadcrumbsEstimates := false; getRecordFailoverLatency := true |}.

Abbreviation IS := (IntSet.t (list bool)).

Definition msg1 : message := Msg 1000 1000 1 (Timeval 10 0).
Definition msg2 : message := Msg 1000 1000 2 (Timeval 10 500000).

Definition wifi : net_interface := NetInterface 1 1000 1000 100 1.
Definition cell : net_interface := NetInterface 2 1000 1000 100 2.
Definition peer : net_interface := NetInterface 3 1000 1000 100 0.

(** Connection 1 over WiFi, 2 over the cellular network. *)
Definition carried : world IS :=
  (exec_all [(1, CNew wifi peer); (2, CNew cell peer); (1, CSend 7 1200); (2, CSend 7 800); (1, CTotal 7 2000)]
     (World ∅ statics_new)).2.
Definition carried_by_one : world IS :=
  (exec_all [(1, CNew wifi peer); (2, CNew cell peer); (1, CSend 7 2000); (1, CTotal 7 2000)]
     (World ∅ statics_new)).2.
Definition dependent : PendingSenderIROB := set_sbase (set_deps (fun _ => {[6]})) (sender_new 7 [] [] 0 None 0 timer_zero).
End demo.
Import IntSet.ListBits demo.

Lemma queuing_delay_witness :
  exists ds q, send_all qdelay_init [msg1; msg2] = Ret (ds, q) /\ length ds = 2%nat /\
    forall i m d, [msg1; msg2] !! i = Some m -> ds !! i = Some d ->
      let earlier := rev (take i [msg1; msg2]) in
      usecs d = qdelay earlier m /\ usecs d = worst_backlog earlier 0 (at_ m).
Proof.
  apply (queuing_delay_spec msg1 [msg2]).
  - unfold normal. simpl. lia.
  - unfold sequence, succeeds, normal, at_, usecs. simpl. split_and!; lia.
Defined.

Example queuing_delay_value : send_all qdelay_init [msg1; msg2] =
  Ret ([Timeval 0 0; Timeval 0 500000], QDelay (Timeval 10 500000) (Timeval 0 500000) 1000 1000 2).
Proof. vm_compute. reflexivity. Qed.

Lemma striped_never_measured_witness :
  exists w1, on_stats 1 (report_ack 7 (Timeval 0 0) (Timeval 0 0) None) carried = (Ret None, w1) /\
    objects w1 = objects carried /\
    forall l h' st' s' q' t', let w2 := (exec_all l w1).2 in
      objects w2 !! h' = Some st' -> on_stats h' (report_ack 7 s' q' t') w2 = (Ret None, w2).
Proof.
  destruct (objects carried !! 1) as [st|] eqn:E; [|vm_compute in E; discriminate].
  apply (striped_never_measured carried 1 st); [done|lia|done|vm_compute; reflexivity|].
  vm_compute in E. injection E as <-. vm_compute. reflexivity.
Defined.

Lemma orphaned_ack_traps_witness :
  exists w1, exec (1, CDestroy) carried_by_one = (Ret tt, w1) /\
    (on_stats 2 (report_ack 7 (Timeval 0 0) (Timeval 0 0) None) w1).1 = Trap AssertFailed.
Proof.
  destruct (objects carried_by_one !! 1) as [st|] eqn:E; [|vm_compute in E; discriminate].
  destruct (objects carried_by_one !! 2) as [st'|] eqn:E'; [|vm_compute in E'; discriminate].
  destruct (irob_transfers (globals carried_by_one) !! 7) as [T|] eqn:ET; [|vm_compute in ET; discriminate].
  apply (orphaned_ack_traps carried_by_one 1 st 2 st' 7 T);
    [discriminate|exact E|exact E'|exact ET| |vm_compute; reflexivity|discriminate].
  vm_compute in E, ET. injection E as <-. injection ET as <-.
  apply (bool_decide_eq_true_1 _). vm_compute. reflexivity.
Defined.

Lemma changed_total_traps_witness :
  let e := Env (stats_blank (IS := IS) wifi peer) statics_new in
  exists c, report_total_irob_bytes 7 (get_total_network_bytes 40 dependent) e = (Ret tt, Env (this e) c) /\
    (report_total_irob_bytes 7 (get_total_network_bytes 40 dependent) (Env (this e) c)).1 = Ret tt /\
    (report_total_irob_bytes 7 (get_total_network_bytes 40 (set_sbase (dep_satisfied 6) dependent))
       (Env (this e) c)).1 = Trap AssertFailed.
Proof.
  intros e. apply (changed_total_traps 40 dependent 6 7 e).
  - vm_compute. reflexivity.
  - vm_compute. discriminate.
  - apply (bool_decide_eq_true_1 _). vm_compute. reflexivity.
Defined.
