(* ===== verification/MultiSocket.v ===== *)
(** The state of a multi-socket and its connections: the fields of
    [CMMSocketImpl] (cmm_socket.private.h) that its operations read and write,
    [CSocket] (csocket.h/.cpp) and [CSockMapping] (csocket_mapping.h/.cpp).

    A [CSocketPtr] is a handle into [sk_csocks]; a set of pointers is iterated
    in the order of the handles.  The locks are not modelled: a function that
    holds [scheduling_state_lock] throughout is one step, and one that releases
    it to wait ends there ([CsockWait]).  The statics of the class are fields
    too.  What the operating system decides is a [kernel]. *)

From S2P Require Import Prelude Labels Scheduling Irob IntSet Control SenderIrob ReceiverIrob.
From S2P Require Import Lattice ReceiverLattice Chooser Thunks.

Record kernel := Kernel {
  get_unsent_bytes : Z -> Z;           (* bytes in a csocket's send buffer *)
  new_address : gset Z -> Z;           (* where a new CSocket is allocated *)
  socket_fails : bool;                 (* socket(2) in the constructor of CSocket *)
  fcntl_nonblock : bool                (* fcntl(sock, F_GETFL) & O_NONBLOCK *)
}.

Record CSocket := CSock {
  local_iface : net_interface;
  remote_iface : net_interface;
  connected : bool;
  cs_indexes : IROBSchedulingIndexes;
  busy : bool
}.

(** The constructor. *)
Definition csocket_new (local remote : net_interface) : CSocket :=
  CSock local remote false indexes_empty false.

Definition set_cs_indexes (f : IROBSchedulingIndexes -> IROBSchedulingIndexes) (c : CSocket)
    : CSocket :=
  CSock (local_iface c) (remote_iface c) (connected c) (f (cs_indexes c)) (busy c).
Definition set_cs_iface (iface : net_interface) (local : bool) (c : CSocket) : CSocket :=
  if local then CSock iface (remote_iface c) (connected c) (cs_indexes c) (busy c)
  else CSock (local_iface c) iface (connected c) (cs_indexes c) (busy c).

Definition cs_pair (c : CSocket) : iface_pair := (local_iface c, remote_iface c).
Definition cs_ips (c : CSocket) : Z * Z := (ip_addr (local_iface c), ip_addr (remote_iface c)).

Definition fits_net_restriction (labels : Z) (c : CSocket) : bool :=
  network_fits_restriction labels (local_iface c) (remote_iface c).

Definition network_type (c : CSocket) : outcome Z :=
  if fits_net_restriction CMM_LABEL_WIFI_ONLY c then Ret NET_TYPE_WIFI
  else assert_ (fits_net_restriction CMM_LABEL_THREEG_ONLY c) ≫= fun _ => Ret NET_TYPE_THREEG.

Definition bottleneck_iface (c : CSocket) : net_interface :=
  if bandwidth_down (remote_iface c) <? bandwidth_up (local_iface c)
  then remote_iface c else local_iface c.

Definition is_busy (k : kernel) (h : Z) (c : CSocket) : bool :=
  busy c || negb (bool_decide (new_irobs (cs_indexes c) = [])) ||
  negb (bool_decide (new_chunks (cs_indexes c) = [])) || (0 <? get_unsent_bytes k h).

Definition CMM_UNDELIVERABLE : Z := -3.
Definition CMM_BLOCKING : Z := -3.
Definition CMM_INVALID_RC : Z := -10.
Definition INADDR_LOOPBACK : Z := 0x7f000001.

Section state.
Context {IS I : Type}.

Record CMMSocketImpl := MSock {
  sk_csocks : gmap Z CSocket;   (* every CSocket object *)
  available_csocks : gset Z;   (* CSockMapping::available_csocks *)
  network_chooser : chooser_impl I;   (* CSockMapping::network_chooser *)
  local_ifaces : gmap Z net_interface;
  remote_ifaces : gmap Z net_interface;
  changed_local_ifaces : gmap Z net_interface;
  down_local_ifaces : gmap Z net_interface;
  outgoing_irobs : lattice sender_obj IS;
  incoming_irobs : rlattice IS;
  irob_indexes : IROBSchedulingIndexes;
  shutting_down : bool;
  remote_shutdown : bool;
  goodbye_sent : bool;
  sending_goodbye : bool;
  accepting_side : bool;
  remote_listener_port : Z;
  non_blocking : bool;
  receive_timeout : timeval;
  bootstrap_status : option Z;   (* bootstrapper->status(), None without one *)
  net_restriction_stats : gmap Z (Z * Z);   (* bytes sent, bytes received *)
  failure_timeouts : gmap Z (Z * Z);   (* seconds, nanoseconds *)
  app_threads : gmap Z Z;   (* AppThread::rc *)
  g_next_irob : Z;   (* static *)
  irob_sock_hash : gmap Z Z;   (* static *)
  thunks : thunk_state;   (* thunk_hash of thunks.cpp *)
  sock : Z   (* mc_socket_t *)
}.

Definition upd_sk_csocks (f : gmap Z CSocket -> gmap Z CSocket) (s : CMMSocketImpl) : CMMSocketImpl :=
  MSock (f (sk_csocks s)) (available_csocks s) (network_chooser s) (local_ifaces s)
    (remote_ifaces s) (changed_local_ifaces s) (down_local_ifaces s) (outgoing_irobs s)
    (incoming_irobs s) (irob_indexes s) (shutting_down s) (remote_shutdown s) (goodbye_sent s)
    (sending_goodbye s) (accepting_side s) (remote_listener_port s) (non_blocking s)
    (receive_timeout s) (bootstrap_status s) (net_restriction_stats s) (failure_timeouts s)
    (app_threads s) (g_next_irob s) (irob_sock_hash s) (thunks s) (sock s).
Definition upd_available_csocks (f : gset Z -> gset Z) (s : CMMSocketImpl) : CMMSocketImpl :=
  MSock (sk_csocks s) (f (available_csocks s)) (network_chooser s) (local_ifaces s)
    (remote_ifaces s) (changed_local_ifaces s) (down_local_ifaces s) (outgoing_irobs s)
    (incoming_irobs s) (irob_indexes s) (shutting_down s) (remote_shutdown s) (goodbye_sent s)
    (sending_goodbye s) (accepting_side s) (remote_listener_port s) (non_blocking s)
    (receive_timeout s) (bootstrap_status s) (net_restriction_stats s) (failure_timeouts s)
    (app_threads s) (g_next_irob s) (irob_sock_hash s) (thunks s) (sock s).
Definition upd_network_chooser (f : chooser_impl I -> chooser_impl I) (s : CMMSocketImpl) : CMMSocketImpl :=
  MSock (sk_csocks s) (available_csocks s) (f (network_chooser s)) (local_ifaces s)
    (remote_ifaces s) (changed_local_ifaces s) (down_local_ifaces s) (outgoing_irobs s)
    (incoming_irobs s) (irob_indexes s) (shutting_down s) (remote_shutdown s) (goodbye_sent s)
    (sending_goodbye s) (accepting_side s) (remote_listener_port s) (non_blocking s)
    (receive_timeout s) (bootstrap_status s) (net_restriction_stats s) (failure_timeouts s)
    (app_threads s) (g_next_irob s) (irob_sock_hash s) (thunks s) (sock s).
Definition upd_local_ifaces (f : gmap Z net_interface -> gmap Z net_interface) (s : CMMSocketImpl) : CMMSocketImpl :=
  MSock (sk_csocks s) (available_csocks s) (network_chooser s) (f (local_ifaces s))
    (remote_ifaces s) (changed_local_ifaces s) (down_local_ifaces s) (outgoing_irobs s)
    (incoming_irobs s) (irob_indexes s) (shutting_down s) (remote_shutdown s) (goodbye_sent s)
    (sending_goodbye s) (accepting_side s) (remote_listener_port s) (non_blocking s)
    (receive_timeout s) (bootstrap_status s) (net_restriction_stats s) (failure_timeouts s)
    (app_threads s) (g_next_irob s) (irob_sock_hash s) (thunks s) (sock s).
Definition upd_remote_ifaces (f : gmap Z net_interface -> gmap Z net_interface) (s : CMMSocketImpl) : CMMSocketImpl :=
  MSock (sk_csocks s) (available_csocks s) (network_chooser s) (local_ifaces s)
    (f (remote_ifaces s)) (changed_local_ifaces s) (down_local_ifaces s) (outgoing_irobs s)
    (incoming_irobs s) (irob_indexes s) (shutting_down s) (remote_shutdown s) (goodbye_sent s)
    (sending_goodbye s) (accepting_side s) (remote_listener_port s) (non_blocking s)
    (receive_timeout s) (bootstrap_status s) (net_restriction_stats s) (failure_timeouts s)
    (app_threads s) (g_next_irob s) (irob_sock_hash s) (thunks s) (sock s).
Definition upd_changed_local_ifaces (f : gmap Z net_interface -> gmap Z net_interface) (s : CMMSocketImpl) : CMMSocketImpl :=
  MSock (sk_csocks s) (available_csocks s) (network_chooser s) (local_ifaces s) (remote_ifaces s)
    (f (changed_local_ifaces s)) (down_local_ifaces s) (outgoing_irobs s) (incoming_irobs s)
    (irob_indexes s) (shutting_down s) (remote_shutdown s) (goodbye_sent s) (sending_goodbye s)
    (accepting_side s) (remote_listener_port s) (non_blocking s) (receive_timeout s)
    (bootstrap_status s) (net_restriction_stats s) (failure_timeouts s) (app_threads s)
    (g_next_irob s) (irob_sock_hash s) (thunks s) (sock s).
Definition upd_down_local_ifaces (f : gmap Z net_interface -> gmap Z net_interface) (s : CMMSocketImpl) : CMMSocketImpl :=
  MSock (sk_csocks s) (available_csocks s) (network_chooser s) (local_ifaces s) (remote_ifaces s)
    (changed_local_ifaces s) (f (down_local_ifaces s)) (outgoing_irobs s) (incoming_irobs s)
    (irob_indexes s) (shutting_down s) (remote_shutdown s) (goodbye_sent s) (sending_goodbye s)
    (accepting_side s) (remote_listener_port s) (non_blocking s) (receive_timeout s)
    (bootstrap_status s) (net_restriction_stats s) (failure_timeouts s) (app_threads s)
    (g_next_irob s) (irob_sock_hash s) (thunks s) (sock s).
Definition upd_outgoing_irobs (f : lattice sender_obj IS -> lattice sender_obj IS) (s : CMMSocketImpl) : CMMSocketImpl :=
  MSock (sk_csocks s) (available_csocks s) (network_chooser s) (local_ifaces s) (remote_ifaces s)
    (changed_local_ifaces s) (down_local_ifaces s) (f (outgoing_irobs s)) (incoming_irobs s)
    (irob_indexes s) (shutting_down s) (remote_shutdown s) (goodbye_sent s) (sending_goodbye s)
    (accepting_side s) (remote_listener_port s) (non_blocking s) (receive_timeout s)
    (bootstrap_status s) (net_restriction_stats s) (failure_timeouts s) (app_threads s)
    (g_next_irob s) (irob_sock_hash s) (thunks s) (sock s).
Definition upd_incoming_irobs (f : rlattice IS -> rlattice IS) (s : CMMSocketImpl) : CMMSocketImpl :=
  MSock (sk_csocks s) (available_csocks s) (network_chooser s) (local_ifaces s) (remote_ifaces s)
    (changed_local_ifaces s) (down_local_ifaces s) (outgoing_irobs s) (f (incoming_irobs s))
    (irob_indexes s) (shutting_down s) (remote_shutdown s) (goodbye_sent s) (sending_goodbye s)
    (accepting_side s) (remote_listener_port s) (non_blocking s) (receive_timeout s)
    (bootstrap_status s) (net_restriction_stats s) (failure_timeouts s) (app_threads s)
    (g_next_irob s) (irob_sock_hash s) (thunks s) (sock s).
Definition upd_irob_indexes (f : IROBSchedulingIndexes -> IROBSchedulingIndexes) (s : CMMSocketImpl) : CMMSocketImpl :=
  MSock (sk_csocks s) (available_csocks s) (network_chooser s) (local_ifaces s) (remote_ifaces s)
    (changed_local_ifaces s) (down_local_ifaces s) (outgoing_irobs s) (incoming_irobs s)
    (f (irob_indexes s)) (shutting_down s) (remote_shutdown s) (goodbye_sent s)
    (sending_goodbye s) (accepting_side s) (remote_listener_port s) (non_blocking s)
    (receive_timeout s) (bootstrap_status s) (net_restriction_stats s) (failure_timeouts s)
    (app_threads s) (g_next_irob s) (irob_sock_hash s) (thunks s) (sock s).
Definition upd_shutting_down (f : bool -> bool) (s : CMMSocketImpl) : CMMSocketImpl :=
  MSock (sk_csocks s) (available_csocks s) (network_chooser s) (local_ifaces s) (remote_ifaces s)
    (changed_local_ifaces s) (down_local_ifaces s) (outgoing_irobs s) (incoming_irobs s)
    (irob_indexes s) (f (shutting_down s)) (remote_shutdown s) (goodbye_sent s)
    (sending_goodbye s) (accepting_side s) (remote_listener_port s) (non_blocking s)
    (receive_timeout s) (bootstrap_status s) (net_restriction_stats s) (failure_timeouts s)
    (app_threads s) (g_next_irob s) (irob_sock_hash s) (thunks s) (sock s).
Definition upd_remote_shutdown (f : bool -> bool) (s : CMMSocketImpl) : CMMSocketImpl :=
  MSock (sk_csocks s) (available_csocks s) (network_chooser s) (local_ifaces s) (remote_ifaces s)
    (changed_local_ifaces s) (down_local_ifaces s) (outgoing_irobs s) (incoming_irobs s)
    (irob_indexes s) (shutting_down s) (f (remote_shutdown s)) (goodbye_sent s)
    (sending_goodbye s) (accepting_side s) (remote_listener_port s) (non_blocking s)
    (receive_timeout s) (bootstrap_status s) (net_restriction_stats s) (failure_timeouts s)
    (app_threads s) (g_next_irob s) (irob_sock_hash s) (thunks s) (sock s).
Definition upd_goodbye_sent (f : bool -> bool) (s : CMMSocketImpl) : CMMSocketImpl :=
  MSock (sk_csocks s) (available_csocks s) (network_chooser s) (local_ifaces s) (remote_ifaces s)
    (changed_local_ifaces s) (down_local_ifaces s) (outgoing_irobs s) (incoming_irobs s)
    (irob_indexes s) (shutting_down s) (remote_shutdown s) (f (goodbye_sent s))
    (sending_goodbye s) (accepting_side s) (remote_listener_port s) (non_blocking s)
    (receive_timeout s) (bootstrap_status s) (net_restriction_stats s) (failure_timeouts s)
    (app_threads s) (g_next_irob s) (irob_sock_hash s) (thunks s) (sock s).
Definition upd_sending_goodbye (f : bool -> bool) (s : CMMSocketImpl) : CMMSocketImpl :=
  MSock (sk_csocks s) (available_csocks s) (network_chooser s) (local_ifaces s) (remote_ifaces s)
    (changed_local_ifaces s) (down_local_ifaces s) (outgoing_irobs s) (incoming_irobs s)
    (irob_indexes s) (shutting_down s) (remote_shutdown s) (goodbye_sent s)
    (f (sending_goodbye s)) (accepting_side s) (remote_listener_port s) (non_blocking s)
    (receive_timeout s) (bootstrap_status s) (net_restriction_stats s) (failure_timeouts s)
    (app_threads s) (g_next_irob s) (irob_sock_hash s) (thunks s) (sock s).
Definition upd_net_restriction_stats (f : gmap Z (Z * Z) -> gmap Z (Z * Z)) (s : CMMSocketImpl) : CMMSocketImpl :=
  MSock (sk_csocks s) (available_csocks s) (network_chooser s) (local_ifaces s) (remote_ifaces s)
    (changed_local_ifaces s) (down_local_ifaces s) (outgoing_irobs s) (incoming_irobs s)
    (irob_indexes s) (shutting_down s) (remote_shutdown s) (goodbye_sent s) (sending_goodbye s)
    (accepting_side s) (remote_listener_port s) (non_blocking s) (receive_timeout s)
    (bootstrap_status s) (f (net_restriction_stats s)) (failure_timeouts s) (app_threads s)
    (g_next_irob s) (irob_sock_hash s) (thunks s) (sock s).
Definition upd_failure_timeouts (f : gmap Z (Z * Z) -> gmap Z (Z * Z)) (s : CMMSocketImpl) : CMMSocketImpl :=
  MSock (sk_csocks s) (available_csocks s) (network_chooser s) (local_ifaces s) (remote_ifaces s)
    (changed_local_ifaces s) (down_local_ifaces s) (outgoing_irobs s) (incoming_irobs s)
    (irob_indexes s) (shutting_down s) (remote_shutdown s) (goodbye_sent s) (sending_goodbye s)
    (accepting_side s) (remote_listener_port s) (non_blocking s) (receive_timeout s)
    (bootstrap_status s) (net_restriction_stats s) (f (failure_timeouts s)) (app_threads s)
    (g_next_irob s) (irob_sock_hash s) (thunks s) (sock s).
Definition upd_app_threads (f : gmap Z Z -> gmap Z Z) (s : CMMSocketImpl) : CMMSocketImpl :=
  MSock (sk_csocks s) (available_csocks s) (network_chooser s) (local_ifaces s) (remote_ifaces s)
    (changed_local_ifaces s) (down_local_ifaces s) (outgoing_irobs s) (incoming_irobs s)
    (irob_indexes s) (shutting_down s) (remote_shutdown s) (goodbye_sent s) (sending_goodbye s)
    (accepting_side s) (remote_listener_port s) (non_blocking s) (receive_timeout s)
    (bootstrap_status s) (net_restriction_stats s) (failure_timeouts s) (f (app_threads s))
    (g_next_irob s) (irob_sock_hash s) (thunks s) (sock s).
Definition upd_g_next_irob (f : Z -> Z) (s : CMMSocketImpl) : CMMSocketImpl :=
  MSock (sk_csocks s) (available_csocks s) (network_chooser s) (local_ifaces s) (remote_ifaces s)
    (changed_local_ifaces s) (down_local_ifaces s) (outgoing_irobs s) (incoming_irobs s)
    (irob_indexes s) (shutting_down s) (remote_shutdown s) (goodbye_sent s) (sending_goodbye s)
    (accepting_side s) (remote_listener_port s) (non_blocking s) (receive_timeout s)
    (bootstrap_status s) (net_restriction_stats s) (failure_timeouts s) (app_threads s)
    (f (g_next_irob s)) (irob_sock_hash s) (thunks s) (sock s).
Definition upd_irob_sock_hash (f : gmap Z Z -> gmap Z Z) (s : CMMSocketImpl) : CMMSocketImpl :=
  MSock (sk_csocks s) (available_csocks s) (network_chooser s) (local_ifaces s) (remote_ifaces s)
    (changed_local_ifaces s) (down_local_ifaces s) (outgoing_irobs s) (incoming_irobs s)
    (irob_indexes s) (shutting_down s) (remote_shutdown s) (goodbye_sent s) (sending_goodbye s)
    (accepting_side s) (remote_listener_port s) (non_blocking s) (receive_timeout s)
    (bootstrap_status s) (net_restriction_stats s) (failure_timeouts s) (app_threads s)
    (g_next_irob s) (f (irob_sock_hash s)) (thunks s) (sock s).
Definition upd_thunks (f : thunk_state -> thunk_state) (s : CMMSocketImpl) : CMMSocketImpl :=
  MSock (sk_csocks s) (available_csocks s) (network_chooser s) (local_ifaces s) (remote_ifaces s)
    (changed_local_ifaces s) (down_local_ifaces s) (outgoing_irobs s) (incoming_irobs s)
    (irob_indexes s) (shutting_down s) (remote_shutdown s) (goodbye_sent s) (sending_goodbye s)
    (accepting_side s) (remote_listener_port s) (non_blocking s) (receive_timeout s)
    (bootstrap_status s) (net_restriction_stats s) (failure_timeouts s) (app_threads s)
    (g_next_irob s) (irob_sock_hash s) (f (thunks s)) (sock s).
Definition upd_accepting_side (f : bool -> bool) (s : CMMSocketImpl) : CMMSocketImpl :=
  MSock (sk_csocks s) (available_csocks s) (network_chooser s) (local_ifaces s) (remote_ifaces s)
    (changed_local_ifaces s) (down_local_ifaces s) (outgoing_irobs s) (incoming_irobs s)
    (irob_indexes s) (shutting_down s) (remote_shutdown s) (goodbye_sent s) (sending_goodbye s)
    (f (accepting_side s)) (remote_listener_port s) (non_blocking s) (receive_timeout s)
    (bootstrap_status s) (net_restriction_stats s) (failure_timeouts s) (app_threads s)
    (g_next_irob s) (irob_sock_hash s) (thunks s) (sock s).
Definition upd_remote_listener_port (f : Z -> Z) (s : CMMSocketImpl) : CMMSocketImpl :=
  MSock (sk_csocks s) (available_csocks s) (network_chooser s) (local_ifaces s) (remote_ifaces s)
    (changed_local_ifaces s) (down_local_ifaces s) (outgoing_irobs s) (incoming_irobs s)
    (irob_indexes s) (shutting_down s) (remote_shutdown s) (goodbye_sent s) (sending_goodbye s)
    (accepting_side s) (f (remote_listener_port s)) (non_blocking s) (receive_timeout s)
    (bootstrap_status s) (net_restriction_stats s) (failure_timeouts s) (app_threads s)
    (g_next_irob s) (irob_sock_hash s) (thunks s) (sock s).
Definition upd_non_blocking (f : bool -> bool) (s : CMMSocketImpl) : CMMSocketImpl :=
  MSock (sk_csocks s) (available_csocks s) (network_chooser s) (local_ifaces s) (remote_ifaces s)
    (changed_local_ifaces s) (down_local_ifaces s) (outgoing_irobs s) (incoming_irobs s)
    (irob_indexes s) (shutting_down s) (remote_shutdown s) (goodbye_sent s) (sending_goodbye s)
    (accepting_side s) (remote_listener_port s) (f (non_blocking s)) (receive_timeout s)
    (bootstrap_status s) (net_restriction_stats s) (failure_timeouts s) (app_threads s)
    (g_next_irob s) (irob_sock_hash s) (thunks s) (sock s).
Definition upd_receive_timeout (f : timeval -> timeval) (s : CMMSocketImpl) : CMMSocketImpl :=
  MSock (sk_csocks s) (available_csocks s) (network_chooser s) (local_ifaces s) (remote_ifaces s)
    (changed_local_ifaces s) (down_local_ifaces s) (outgoing_irobs s) (incoming_irobs s)
    (irob_indexes s) (shutting_down s) (remote_shutdown s) (goodbye_sent s) (sending_goodbye s)
    (accepting_side s) (remote_listener_port s) (non_blocking s) (f (receive_timeout s))
    (bootstrap_status s) (net_restriction_stats s) (failure_timeouts s) (app_threads s)
    (g_next_irob s) (irob_sock_hash s) (thunks s) (sock s).
Definition upd_bootstrap_status (f : option Z -> option Z) (s : CMMSocketImpl) : CMMSocketImpl :=
  MSock (sk_csocks s) (available_csocks s) (network_chooser s) (local_ifaces s) (remote_ifaces s)
    (changed_local_ifaces s) (down_local_ifaces s) (outgoing_irobs s) (incoming_irobs s)
    (irob_indexes s) (shutting_down s) (remote_shutdown s) (goodbye_sent s) (sending_goodbye s)
    (accepting_side s) (remote_listener_port s) (non_blocking s) (receive_timeout s)
    (f (bootstrap_status s)) (net_restriction_stats s) (failure_timeouts s) (app_threads s)
    (g_next_irob s) (irob_sock_hash s) (thunks s) (sock s).

End state.
Arguments CMMSocketImpl : clear implicits.

Section mapping.
Context {IS I : Type} `{!IdSet IS} `{!InstrumentsChooser I} `{!NetEstimates}.
Context (k : kernel).
Abbreviation SK := (CMMSocketImpl IS I).
Implicit Types (s : SK) (h labels num_bytes : Z).

(** The constructors of [CMMSocketImpl] and [CSockMapping], in a process that
    has sent nothing yet; [accepting_side] is first written on connection. *)
Definition msock_new (sock : Z) : outcome SK :=
  create INTNW_NEVER_REDUNDANT ≫= fun chooser =>
  Ret (MSock ∅ ∅ chooser ∅ ∅ ∅ ∅ lattice_new rlattice_new indexes_empty false false false false
         false 0 false (Timeval 0 0) None ∅ ∅ ∅ 0 ∅ thunks_empty sock).

(** ** Small helpers on the state *)

Definition upd_csock h (f : CSocket -> CSocket) s : SK := upd_sk_csocks (alter f h) s.

(** The object behind a [CSocketPtr]. *)
Definition deref h : M SK CSocket := fun s => (access (sk_csocks s !! h), s).

(** The csockets of the mapping with their objects, in the order of the set. *)
Definition csock_list s : list (Z * CSocket) :=
  omap (fun h => pair h <$> sk_csocks s !! h) (ascending (available_csocks s)).

Definition ifaces_of (m : gmap Z net_interface) : list net_interface :=
  omap (fun ip => m !! ip) (ascending (dom m)).

Definition isLoopbackOnly s : bool :=
  match ifaces_of (local_ifaces s) with
  | [the_iface] => ip_addr the_iface =? htonl INADDR_LOOPBACK
  | _ => false
  end.

(** ** CSockMapping: queries *)

Definition csock_count s : Z := Z.of_nat (size (available_csocks s)).
Definition count_connected s : Z :=
  Z.of_nat (length (filter (fun hc => connected hc.2 = true) (csock_list s))).
Definition csocks_empty s : bool := bool_decide (available_csocks s = ∅).

(** [find_csock] under a predicate that may change the state. *)
Fixpoint find_first (pred : Z * CSocket -> M SK bool) (l : list (Z * CSocket)) : M SK (option Z) :=
  match l with
  | [] => mret None
  | hc :: l =>
      b ← pred hc;
      if (b : bool) then mret (Some hc.1) else find_first pred l
  end.

Definition find_csock (pred : Z * CSocket -> M SK bool) : M SK (option Z) :=
  l ← gets csock_list; find_first pred l.

Definition find_csock_pure (pred : Z * CSocket -> bool) : M SK (option Z) :=
  find_csock (fun hc => mret (pred hc)).

(** [IfaceMatcher]: interfaces are equal when their addresses are. *)
Definition csock_by_ifaces (local remote : net_interface) : M SK (option Z) :=
  find_csock_pure (fun hc => bool_decide (cs_ips hc.2 = (ip_addr local, ip_addr remote))).

Definition get_idle_csock : M SK (option Z) :=
  find_csock_pure (fun hc => negb (is_busy k hc.1 hc.2)).

Definition can_satisfy_network_restrictions labels : M SK bool :=
  r ← find_csock_pure (fun hc => fits_net_restriction labels hc.2);
  mret (bool_decide (is_Some r)).

(** ** Choosing a pair of interfaces *)

(** The candidate pairs of [get_iface_pair_locked_internal]. *)
Definition candidates labels s : list iface_pair :=
  filter (fun p : iface_pair => type_fits_restriction (get_network_type p.1 p.2) labels = true)
    (l ← ifaces_of (local_ifaces s); r ← ifaces_of (remote_ifaces s); [(l, r)]).

Definition get_iface_pair_locked labels num_bytes : M SK (option iface_pair) :=
  s ← get;
  if isLoopbackOnly s then
    l ← lift (access (head (ifaces_of (local_ifaces s))));
    r ← lift (access (head (ifaces_of (remote_ifaces s))));
    mret (Some (l, r))
  else
    let cands := candidates labels s in
    let c := considered cands (network_chooser s) in
    modify (upd_network_chooser (fun _ => match cands with [] => c | _ => chosen labels num_bytes c end));;
    mret (match cands with [] => None | _ => choose_networks labels num_bytes c end).

Definition csock_matches labels num_bytes (c : CSocket) : M SK bool :=
  if labels =? 0 then mret true
  else
    r ← get_iface_pair_locked labels num_bytes;
    mret (match r with
          | None => false
          | Some p => bool_decide (cs_ips c = (ip_addr p.1, ip_addr p.2))
          end).

Definition csock_with_labels labels num_bytes : M SK (option Z) :=
  find_csock (fun hc => csock_matches labels num_bytes hc.2).

(** The map [lookup] of [connected_csock_with_labels]. *)
Fixpoint build_lookup (l : list (Z * CSocket)) (m : gmap (Z * Z) Z) : outcome (gmap (Z * Z) Z) :=
  match l with
  | [] => Ret m
  | (h, c) :: l =>
      assert_ (bool_decide (m !! cs_ips c = None)) ≫= fun _ =>
      build_lookup l (<[cs_ips c := h]> m)
  end.

Definition connected_csock_with_labels labels num_bytes : M SK (option Z) :=
  s ← get;
  if isLoopbackOnly s then mret (head (ascending (available_csocks s)))
  else if csocks_empty s then mret None
  else
    let conn := filter (fun hc => connected hc.2 = true) (csock_list s) in
    let c := considered (cs_pair ∘ snd <$> conn) (network_chooser s) in
    modify (upd_network_chooser (fun _ => c));;
    lookup ← lift (build_lookup conn ∅);
    match conn with
    | [] => mret None
    | _ =>
        modify (upd_network_chooser (fun _ => chosen labels num_bytes c));;
        match choose_networks labels num_bytes c with
        | None => mret None
        | Some p =>
            match lookup !! (ip_addr p.1, ip_addr p.2) with
            | Some h => mret (Some h)
            | None => lift (Trap AssertFailed)
            end
        end
    end.

(** ** Data checks: [should_data_check], [data_check_all_irobs] *)

Definition should_data_check (p : PendingSenderIROB) (local_ip remote_ip label_mask : Z)
    : outcome bool :=
  get_send_labels (sbase p) ≫= fun labels =>
  Ret (wasSentOn local_ip remote_ip p && ((label_mask =? 0) || has_bits label_mask labels) &&
       (negb (has_network_restriction labels) || fallback_allowed labels)).

(** [dynamic_cast<PendingSenderIROB*>] and [ASSERT(psirob)]. *)
Definition the_sender (o : option sender_obj) : outcome PendingSenderIROB :=
  match o ≫= as_sender with Some p => Ret p | None => Trap AssertFailed end.

Fixpoint data_check_each (ids : list Z) (local_ip remote_ip label_mask : Z) : M SK unit :=
  match ids with
  | [] => mret tt
  | id :: ids =>
      s ← get;
      p ← lift (the_sender (find_locked id (outgoing_irobs s)));
      b ← lift (should_data_check p local_ip remote_ip label_mask);
      when b (modify (upd_irob_indexes (index_insert WAITING_DATA_CHECKS
                (with_data_check true (sched_chunks id false 0)))));;
      data_check_each ids local_ip remote_ip label_mask
  end.

Definition data_check_all_irobs (local_ip remote_ip label_mask : Z) : M SK unit :=
  s ← get; data_check_each (get_all_ids (outgoing_irobs s)) local_ip remote_ip label_mask.

(** ** New csockets *)

(** [accepted]: the connection comes from the listener. *)
Definition make_new_csocket (local remote : net_interface) (accepted : bool) : M SK Z :=
  existing ← csock_by_ifaces local remote;
  match existing, accepted with
  | Some h, false => mret h
  | _, _ =>
      match existing with
      | Some h => modify (upd_available_csocks (fun a => a ∖ {[h]}))
      | None => mret tt
      end;;
      if negb accepted && socket_fails k then throw RuntimeError
      else
        s ← get;
        let h := new_address k (dom (sk_csocks s)) in
        modify (upd_sk_csocks (fun m => <[h := csocket_new local remote]> m));;
        modify (upd_available_csocks (fun a => {[h]} ∪ a));;
        when (bool_decide (is_Some existing))
          (data_check_all_irobs (ip_addr local) (ip_addr remote) 0);;
        mret h
  end.

Definition new_csock_with_labels labels num_bytes : M SK (option Z) :=
  r ← csock_with_labels labels num_bytes;
  match r with
  | Some h => mret (Some h)
  | None =>
      p ← get_iface_pair_locked labels num_bytes;
      match p with
      | None => mret None
      | Some (l, r) => h ← make_new_csocket l r false; mret (Some h)
      end
  end.

(** [check_redundancy]; [decided] is [is_redundant] of the chosen strategies
    when an asynchronous decision brings them. *)
Definition check_redundancy (p : PendingSenderIROB) (decided : option bool)
    : M SK PendingSenderIROB :=
  s ← get;
  if count_connected s <=? 1 then mret p
  else
    can ← lift (can_be_redundant (sbase p));
    if negb (can : bool) then mret p
    else
      redundant ← match decided with
                  | Some b => mret b
                  | None => lift (shouldTransmitRedundantly (network_chooser s))
                  end;
      mret (if (redundant : bool) then mark_send_on_all_networks p else p).

(** The first, non-null result of a sequence of attempts. *)
Definition or_else (a b : M SK (option Z)) : M SK (option Z) :=
  r ← a; match r with Some h => mret (Some h) | None => b end.

(** [CSockMapping::get_csock]: the return code, the csocket, and the IROB as
    [check_redundancy] leaves it. *)
Definition map_get_csock (p : option PendingSenderIROB)
    : M SK (Z * option Z * option PendingSenderIROB) :=
  labels ← match p with Some p => lift (get_send_labels (sbase p)) | None => mret 0 end;
  let num_bytes := match p with
                   | Some p => if complete (sbase p) then expected_bytes p else 0
                   | None => 0
                   end in
  pair ← get_iface_pair_locked labels num_bytes;
  csock ← match pair with
          | Some (local, remote) =>
              or_else (connected_csock_with_labels labels num_bytes)
                (or_else (new_csock_with_labels labels num_bytes)
                   (csock_by_ifaces local remote))
          | None => mret None
          end;
  p' ← match p with
       | Some p => q ← check_redundancy p None; mret (Some q)
       | None => mret None
       end;
  match csock with
  | Some h => mret (0, Some h, p')
  | None =>
      ok ← can_satisfy_network_restrictions labels;
      mret (if (ok : bool) then CMM_FAILED else CMM_UNDELIVERABLE, None, p')
  end.

(** [remove_csock], up to the measurements it reports. *)
Definition remove_csock h : M SK unit :=
  modify (upd_available_csocks (fun a => a ∖ {[h]}));;
  c ← deref h;
  t ← lift (network_type c);
  let _ : Z := t in mret tt.

(** [AddRequestIfNotSent] over every csocket. *)
Definition add_request_if_not_sent (p : PendingSenderIROB) (data : IROBSchedulingData) h (c : CSocket)
    : CSocket :=
  if negb (sd_chunks_ready data) then
    if negb (was_announced p (Some h)) then set_cs_indexes (index_insert NEW_IROBS data) c else c
  else if 0 <? num_ready_bytes p (Some h) then set_cs_indexes (index_insert NEW_CHUNKS data) c
  else c.

Definition pass_request_to_all_senders (p : PendingSenderIROB) (data : IROBSchedulingData)
    : M SK unit :=
  if sd_data_check data then mret tt
  else
    s ← get;
    modify (fun s' => foldl (fun s' h => upd_csock h (add_request_if_not_sent p data h) s') s'
                        (ascending (available_csocks s))).

(** ** Interfaces coming and going: [CSockMapping::setup], [teardown] *)

Definition matching_csocks (iface : net_interface) (local : bool) s : list Z :=
  fst <$> filter (fun hc : Z * CSocket =>
    ip_addr (if local then local_iface hc.2 else remote_iface hc.2) = ip_addr iface)
    (csock_list s).

Fixpoint setup_connections (iface : net_interface) (need_data_check : bool)
    (remotes : list net_interface) : M SK unit :=
  match remotes with
  | [] => mret tt
  | r :: remotes =>
      existing ← csock_by_ifaces iface r;
      (if need_data_check || negb (bool_decide (is_Some existing))
       then h ← make_new_csocket iface r false; let _ : Z := h in mret tt
       else mret tt);;
      setup_connections iface need_data_check remotes
  end.

Fixpoint setup_matches (hs : list Z) (iface : net_interface) (local : bool) : M SK unit :=
  match hs with
  | [] => mret tt
  | h :: hs =>
      modify (upd_csock h (set_cs_iface iface local));;
      c ← deref h;
      t ← lift (network_type c);
      let _ : Z := t in setup_matches hs iface local
  end.

Definition map_setup (iface : net_interface) (local make_connection need_data_check : bool)
    : M SK unit :=
  s ← get;
  setup_matches (matching_csocks iface local s) iface local;;
  if negb make_connection || accepting_side s then mret tt
  else if local then setup_connections iface need_data_check (ifaces_of (remote_ifaces s))
  else mret tt.

Definition map_teardown (iface : net_interface) (local : bool) : M SK unit :=
  s ← get;
  modify (upd_available_csocks
            (fun a => a ∖ list_to_set (matching_csocks iface local s))).

Definition get_iface_by_addr (m : gmap Z net_interface) (ip : Z) : option net_interface := m !! ip.
End mapping.
