(* ===== verification/Socket.v ===== *)
(** The operations of a multi-socket: cmm_socket_impl.cpp.

    First what the application calls (sending data in IROBs), then what the
    receiver threads call when a message arrives, then shutting down and the
    changes of interfaces.  An operation of the application returns a code
    ([Done]) or goes to sleep until a network for its labels appears
    ([Blocked]); when it wakes up it goes on with [resume_get_csock].
    Condition-variable broadcasts and timing output are not modelled. *)

From S2P Require Import Prelude Labels Scheduling Irob IntSet Control SenderIrob ReceiverIrob.
From S2P Require Import Lattice ReceiverLattice Chooser Thunks MultiSocket.

(** A call that may block. *)
Inductive api (A : Type) :=
| Done (a : A)
| Blocked (labels : Z).
Arguments Done {A} a.
Arguments Blocked {A} labels.

(** What [get_csock] comes back with. *)
Inductive csock_result :=
| CsockOk (h : Z)               (* returns 0 *)
| CsockRc (rc : Z)              (* a negative code *)
| CsockWait (labels : Z).       (* asleep in wait_for_labels *)

(** What [mc_recv] comes back with. *)
Inductive mc_recv_result :=
| NotConnected                  (* -1 with EAGAIN or ENOTCONN *)
| RecvDone (r : recv_result)
| RecvOutOfFuel.

Section socket.
Context {IS I : Type} `{!IdSet IS} `{!InstrumentsChooser I} `{!NetEstimates}.
Context (k : kernel) (now : timeval).
Abbreviation SK := (CMMSocketImpl IS I).
Implicit Types (s : SK) (h id labels : Z) (p : PendingSenderIROB).

Definition is_non_blocking s : bool := non_blocking s || fcntl_nonblock k.

Definition read_timeout_expired (read_begin : timeval) s : bool :=
  let rt := receive_timeout s in
  if (tv_sec rt =? 0) && (tv_usec rt =? 0) then false
  else
    let sum_us := tv_usec read_begin + tv_usec rt in
    let abstimeout := if 1000000 <=? sum_us
                      then Timeval (tv_sec read_begin + tv_sec rt + 1) (sum_us - 1000000)
                      else Timeval (tv_sec read_begin + tv_sec rt) sum_us in
    negb (timer_lt now abstimeout).

Definition will_block_on_read s : bool :=
  negb (data_is_ready (incoming_irobs s)) && negb (shutting_down s).

(** Run [m], catching [std::runtime_error]. *)
Definition catch_runtime {A} (m : M SK A) (handler : M SK A) : M SK A := fun s =>
  match m s with
  | (Throw RuntimeError, s') => handler s'
  | r => r
  end.

Definition register_thunk labels (fn arg : Z) : M SK unit :=
  modify (fun s => upd_thunks (enqueue_handler (sock s) labels fn arg) s).

(** ** get_csock *)

Definition get_csock (p : option PendingSenderIROB) (blocking : bool)
    : M SK (csock_result * option PendingSenderIROB) :=
  labels ← match p with Some p => lift (get_send_labels (sbase p)) | None => mret 0 end;
  let '(handler, arg) := match p with Some p => get_thunk p | None => (None, 0) end in
  catch_runtime
    (r ← map_get_csock k p;
     let '(rc, csock, p') := r in
     s ← get;
     match csock with
     | None =>
         if rc =? CMM_UNDELIVERABLE then mret (CsockRc rc, p')
         else match handler with
              | Some fn => register_thunk labels fn arg;; mret (CsockRc CMM_DEFERRED, p')
              | None =>
                  if blocking && negb (is_non_blocking s) then mret (CsockWait labels, p')
                  else mret (CsockRc CMM_FAILED, p')
              end
     | Some h =>
         match handler with
         | Some fn =>
             if has_bits labels CMM_LABEL_BACKGROUND then
               c ← deref h;
               if is_busy k h c then
                 idle ← get_idle_csock k;
                 match idle with
                 | Some h' => mret (CsockOk h', p')
                 | None => register_thunk labels fn arg;; mret (CsockRc CMM_DEFERRED, p')
                 end
               else mret (CsockOk h, p')
             else mret (CsockOk h, p')
         | None => mret (CsockOk h, p')
         end
     end)
    (mret (CsockRc CMM_FAILED, p)).

(** Waking up in [wait_for_labels] with the code [rc]. *)
Definition resume_get_csock labels (rc : Z) : M SK csock_result :=
  if rc <? 0 then mret (CsockRc CMM_FAILED)
  else catch_runtime
         (r ← new_csock_with_labels k labels 0;
          mret (match r with Some h => CsockOk h | None => CsockWait labels end))
         (mret (CsockRc CMM_FAILED)).

(** ** Sending *)

(** Work on the object of an IROB of the sender's lattice. *)
Definition upd_sender id (f : PendingSenderIROB -> PendingSenderIROB) s : SK :=
  upd_outgoing_irobs (update_found id (fun o =>
    match o with SenderIrob p => SenderIrob (f p) | BaseIrob c => BaseIrob c end)) s.

(** [addSchedulingData]; [check_redundancy_async] only starts an evaluation,
    whose decision comes back through [onRedundancyDecision]. *)
Definition addSchedulingData h (ty : index_type) p (data : IROBSchedulingData) : M SK unit :=
  c ← deref h;
  (if connected c then modify (upd_csock h (set_cs_indexes (index_insert ty data)))
   else modify (upd_irob_indexes (index_insert ty data)));;
  can ← lift (can_be_redundant (sbase p));
  let _ : bool := can in mret tt.

(** [outgoing_irobs.insert(pirob)] and [ASSERT(success)]. *)
Definition insert_outgoing p : M SK unit :=
  s ← get;
  r ← lift (insert_locked (SenderIrob p) true (outgoing_irobs s));
  let '(success, l) := r in
  lift (assert_ success);;
  modify (upd_outgoing_irobs (fun _ => l)).

(** [begin_irob] once it has a csocket. *)
Definition begin_irob_with p h : M SK Z :=
  s ← get;
  if irob_is_undeliverable (SenderIrob p) (outgoing_irobs s) then mret CMM_UNDELIVERABLE
  else
    insert_outgoing p;;
    labels ← lift (get_send_labels (sbase p));
    addSchedulingData h NEW_IROBS p (sched_chunks (irob_id (sbase p)) false labels);;
    mret 0.

Definition begin_irob (next_irob : Z) (deps_array : list Z) labels (rh : option Z) (rh_arg : Z)
    : M SK (api Z) :=
  s ← get;
  if shutting_down s then mret (Done CMM_FAILED)
  else
    let p := sender_new next_irob deps_array [] labels rh rh_arg now in
    r ← get_csock (Some p) true;
    match r with
    | (CsockRc rc, _) => mret (Done rc)
    | (CsockWait l, _) => mret (Blocked l)
    | (CsockOk h, p') => rc ← begin_irob_with (default p p') h; mret (Done rc)
    end.

(** The end of [end_irob], under the lock and with a csocket; [labels] are those
    to wait for when the IROB's status says so. *)
Definition end_irob_with id h labels : M SK (api Z) :=
  s ← get;
  o ← lift (access (find_locked id (outgoing_irobs s)));
  let st := status (core o) in
  let fail rc := modify (fun s => upd_outgoing_irobs (fun l => snd (erase_locked id false l)) s);;
                 mret (Done rc) in
  if (st <? 0) && (st =? CMM_DEFERRED) then fail CMM_DEFERRED
  else if (st <? 0) && (st =? CMM_BLOCKING) then mret (Blocked labels)
  else if st <? 0 then fail CMM_FAILED
  else
    modify (upd_outgoing_irobs (update_found id (upd_core (fun c => snd (core_finish c)))));;
    s ← get;
    p ← lift (the_sender (find_locked id (outgoing_irobs s)));
    when (was_announced p (Some h) && negb (end_was_announced p (Some h)) &&
          complete (sbase p) && all_bytes_chunked p)
      (addSchedulingData h FINISHED_IROBS p (sched_chunks id false 0));;
    mret (Done 0).

Definition end_irob id : M SK (api Z) :=
  s ← get;
  if shutting_down s then mret (Done CMM_FAILED)
  else match find_locked id (outgoing_irobs s) with
       | None => mret (Done (-1))
       | Some o =>
           if complete (core o) then mret (Done (-1))
           else
             labels ← lift (get_send_labels (core o));
             r ← get_csock (as_sender o) false;
             match r.2 with Some p' => modify (upd_sender id (fun _ => p')) | None => mret tt end;;
             match r.1 with
             | CsockOk h => end_irob_with id h labels
             | _ =>
                 r ← get_csock None true;
                 match r.1 with
                 | CsockOk h => end_irob_with id h 0
                 | CsockRc rc => mret (Done rc)
                 | CsockWait l => mret (Blocked l)
                 end
             end
       end.

(** The end of [irob_chunk]. *)
Definition irob_chunk_with id h (buf : list byte) labels : M SK Z :=
  let len := Z.of_nat (length buf) in
  modify (upd_sender id (fun p => snd (sender_add_chunk p (Chunk id 0 0 len (Some buf)))));;
  s ← get;
  p ← lift (the_sender (find_locked id (outgoing_irobs s)));
  when (was_announced p (Some h)) (addSchedulingData h NEW_CHUNKS p (sched_chunks id true labels));;
  mret len.

Definition irob_chunk id (buf : list byte) : M SK (api Z) :=
  s ← get;
  if shutting_down s then mret (Done CMM_FAILED)
  else match find_locked id (outgoing_irobs s) with
       | None =>
           mret (Done (if irob_was_dropped id (outgoing_irobs s)
                       then CMM_UNDELIVERABLE else CMM_FAILED))
       | Some o =>
           if complete (core o) then mret (Done CMM_FAILED)
           else
             p ← lift (the_sender (Some o));
             labels ← lift (get_send_labels (sbase p));
             r ← get_csock (Some p) true;
             match r.2 with Some p' => modify (upd_sender id (fun _ => p')) | None => mret tt end;;
             match r.1 with
             | CsockRc rc => mret (Done rc)
             | CsockWait l => mret (Blocked l)
             | CsockOk h => rc ← irob_chunk_with id h buf labels; mret (Done rc)
             end
       end.

(** [validate_default_irob] *)
Definition validate_default_irob p : M SK (csock_result * option PendingSenderIROB) :=
  s ← get;
  if shutting_down s then mret (CsockRc CMM_FAILED, Some p) else get_csock (Some p) true.

Definition send_default_irob p h : M SK Z :=
  insert_outgoing p;;
  labels ← lift (get_send_labels (sbase p));
  addSchedulingData h NEW_IROBS p (sched_chunks (irob_id (sbase p)) false labels);;
  s ← get;
  q ← lift (the_sender (find_locked (irob_id (sbase p)) (outgoing_irobs s)));
  mret (to_int (expected_bytes q)).

Definition default_irob (next_irob : Z) (buf : list byte) labels (rh : option Z) (rh_arg : Z)
    : M SK (api Z) :=
  let p := sender_new next_irob [] buf labels rh rh_arg now in
  r ← validate_default_irob p;
  match r with
  | (CsockRc rc, _) => mret (Done rc)
  | (CsockWait l, _) => mret (Blocked l)
  | (CsockOk h, p') =>
      rc ← send_default_irob (default p p') h;
      lift (assert_ (to_size_t rc =? Z.of_nat (length buf)));;
      mret (Done rc)
  end.

(** The copying loop of [default_irob_writev]. *)
Definition default_irob_writev (next_irob : Z) (vec : list (list byte)) (total_bytes : Z) labels
    (rh : option Z) (rh_arg : Z) : M SK (api Z) :=
  let data := mjoin vec in
  lift (assert_ (Z.of_nat (length data) =? total_bytes));;
  let p := sender_new next_irob [] data labels rh rh_arg now in
  r ← validate_default_irob p;
  match r with
  | (CsockRc rc, _) => mret (Done rc)
  | (CsockWait l, _) => mret (Blocked l)
  | (CsockOk h, p') =>
      rc ← send_default_irob (default p p') h;
      lift (assert_ (rc =? total_bytes));;
      mret (Done rc)
  end.

Definition next_irob_id : M SK Z :=
  s ← get; modify (upd_g_next_irob (fun n => to_long (n + 1)));; mret (g_next_irob s).

Definition ENOTCONN : Z := 107.
Definition connect_status s : Z := default ENOTCONN (bootstrap_status s).

Definition mc_send (buf : list byte) labels (rh : option Z) (arg : Z) : M SK (api Z) :=
  s ← get;
  if to_long (Z.of_nat (length buf)) <? 0 then mret (Done (-1))
  else if negb (connect_status s =? 0) then mret (Done (-1))
  else id ← next_irob_id; default_irob id buf labels rh arg.

(** The sum of the lengths in [mc_writev]; [None] on overflow. *)
Fixpoint total_bytes (vec : list (list byte)) (total : Z) : option Z :=
  match vec with
  | [] => Some total
  | v :: vec =>
      let t := to_long (total + Z.of_nat (length v)) in
      if t <? total then None else total_bytes vec t
  end.

Definition mc_writev (vec : list (list byte)) labels (rh : option Z) (arg : Z) : M SK (api Z) :=
  s ← get;
  if bool_decide (vec = []) then mret (Done 0)
  else if negb (connect_status s =? 0) then mret (Done (-1))
  else match total_bytes vec 0 with
       | None => mret (Done (-1))
       | Some n => id ← next_irob_id; default_irob_writev id vec n labels rh arg
       end.

Definition mc_begin_irob (deps_array : list Z) labels (rh : option Z) (rh_arg : Z)
    : M SK (api Z) :=
  id ← next_irob_id;
  r ← begin_irob id deps_array labels rh rh_arg;
  match r with
  | Blocked l => mret (Blocked l)
  | Done rc =>
      if rc <? 0 then mret (Done rc)
      else
        s ← get;
        lift (assert_ (bool_decide (irob_sock_hash s !! id = None)));;
        modify (upd_irob_sock_hash (fun m => <[id := sock s]> m));;
        mret (Done id)
  end.

Definition mc_end_irob id : M SK (api Z) :=
  r ← end_irob id;
  match r with
  | Done rc =>
      when (rc =? 0) (modify (upd_irob_sock_hash (fun m => delete id m)));; mret (Done rc)
  | Blocked l => mret (Blocked l)
  end.

Definition mc_irob_send id (buf : list byte) : M SK (api Z) := irob_chunk id buf.

(** [int buflen]: the sum wraps. *)
Definition mc_irob_writev id (vec : list (list byte)) : M SK (api Z) :=
  if bool_decide (vec = []) then mret (Done (-1))
  else if existsb (fun v => bool_decide (v = [])) vec then mret (Done (-1))
  else
    let buflen := foldl (fun n v => to_int (n + Z.of_nat (length v))) 0 vec in
    if buflen <? 0 then throw BadArrayLength
    else if buflen =? Z.of_nat (length (mjoin vec)) then mc_irob_send id (mjoin vec)
    else lift (Trap UndefinedBehaviour).

(** [irob_relabel] is not implemented. *)
Definition irob_relabel id (new_labels : Z) : M SK Z := mret 0.

(** For testing: [drop_irob_and_dependents]. *)
Definition sk_drop_irob_and_dependents id : M SK unit :=
  modify (upd_outgoing_irobs (fun l => default l (drop_irob_and_dependents id l))).

(** ** Messages that arrive for the sender *)

Definition remove_if_unneeded id : M SK unit :=
  s ← get;
  p ← lift (the_sender (find_locked id (outgoing_irobs s)));
  when (is_acked p && complete (sbase p))
    (modify (upd_outgoing_irobs (fun l => snd (erase_locked id false l)))).

Definition ack_received id : M SK unit :=
  s ← get;
  match find_locked id (outgoing_irobs s) with
  | None => if past_irob_exists id (outgoing_irobs s) then mret tt else throw CMMException
  | Some o =>
      p ← lift (the_sender (Some o));
      modify (upd_sender id ack);;
      let _ : PendingSenderIROB := p in remove_if_unneeded id
  end.

(** Insert a request in the multi-socket's own indexes. *)
Definition schedule (ty : index_type) (data : IROBSchedulingData) : M SK unit :=
  modify (upd_irob_indexes (index_insert ty data)).

Definition resend_request_received id (request seqno next_chunk : Z) : M SK unit :=
  s ← get;
  match find_locked id (outgoing_irobs s) with
  | None => if past_irob_exists id (outgoing_irobs s) then mret tt else throw CMMException
  | Some o =>
      p ← lift (the_sender (Some o));
      labels ← lift (get_send_labels (sbase p));
      when (has_bits request CMM_RESEND_REQUEST_DEPS)
        (schedule NEW_IROBS (sched_chunks id false labels));;
      p ← (if has_bits request CMM_RESEND_REQUEST_DATA then
             p' ← lift (mark_not_received p seqno);
             modify (upd_sender id (fun _ => p'));;
             schedule NEW_CHUNKS (sched_chunks id true labels);; mret p'
           else mret p);
      when (has_bits request CMM_RESEND_REQUEST_END)
        (when (complete (sbase p) && all_bytes_chunked p)
           (schedule FINISHED_IROBS (sched_chunks id false labels));;
         p' ← lift (mark_drop_point p next_chunk);
         modify (upd_sender id (fun _ => p'));;
         schedule NEW_CHUNKS (sched_chunks id true labels))
  end.

(** ** Messages that arrive for the receiver *)

(** The service time that tells the other end to ignore the measurement. *)
Definition inval_time : timeval := Timeval 0 (-1).

(** What a data check asks for. *)
Definition data_check_request (p : PendingReceiverIROB) : Z :=
  let r := CMM_RESEND_REQUEST_NONE in
  let r := if placeholder (rbase p) then Z.lor r CMM_RESEND_REQUEST_DEPS else r in
  let r := if bool_decide (get_missing_chunks p = []) then r
           else Z.lor r CMM_RESEND_REQUEST_DATA in
  if seen_end p then Z.lor r CMM_RESEND_REQUEST_END else r.

Definition data_check_requested id : M SK unit :=
  s ← get;
  match rfind id (incoming_irobs s) with
  | None =>
      if past_irob_exists id (rl_irobs (incoming_irobs s))
      then schedule WAITING_ACKS (sched_ack id inval_time 0)
      else schedule RESEND_REQUESTS (sched_resend id CMM_RESEND_REQUEST_ALL 0)
  | Some p =>
      let reqtype := data_check_request p in
      if reqtype =? CMM_RESEND_REQUEST_NONE
      then schedule WAITING_ACKS (sched_ack id inval_time 0)
      else schedule RESEND_REQUESTS (sched_resend id reqtype 0)
  end.

(** ** Shutting down *)

Definition goodbye (remote_initiated : bool) : M SK unit :=
  s ← get;
  if shutting_down s then mret tt
  else
    modify (upd_shutting_down (fun _ => true));;
    when remote_initiated
      (data_check_all_irobs 0 0 0;; modify (upd_remote_shutdown (fun _ => true)));;
    ok ← (if 0 <? remote_listener_port s then
            r ← get_csock None false;
            mret (match r.1 with CsockOk _ => true | _ => false end)
          else mret false);
    when (negb ok)
      (modify (upd_remote_shutdown (fun _ => true));; modify (upd_goodbye_sent (fun _ => true))).

Definition goodbye_acked : M SK unit :=
  s ← get;
  lift (assert_ (shutting_down s));;
  modify (upd_remote_shutdown (fun _ => true)).

(** ** Interfaces *)

Definition setup (iface : net_interface) (local : bool) : M SK unit :=
  s ← get;
  if isLoopbackOnly s then mret tt
  else
    let iface_set := if local then local_ifaces s else remote_ifaces s in
    let need_data_check :=
      match iface_set !! ip_addr iface with
      | Some old =>
          ((bandwidth_up old =? 0) && negb (bandwidth_up iface =? 0)) ||
          ((bandwidth_down old =? 0) && negb (bandwidth_down iface =? 0))
      | None => false
      end in
    let make_connection := bool_decide (bootstrap_status s = Some 0) in
    map_setup k iface local make_connection need_data_check;;
    if local then
      when (bool_decide (is_Some (local_ifaces s !! ip_addr iface)))
        (modify (upd_local_ifaces (iface_erase iface));;
         modify (upd_changed_local_ifaces (fun m => iface_insert iface (iface_erase iface m))));;
      modify (upd_local_ifaces (iface_insert iface))
    else
      when (bool_decide (is_Some (remote_ifaces s !! ip_addr iface)))
        (modify (upd_remote_ifaces (iface_erase iface)));;
      modify (upd_remote_ifaces (iface_insert iface)).

(** [teardown]; restarting the bootstrapper is not modelled. *)
Definition teardown (iface : net_interface) (local : bool) : M SK unit :=
  s ← get;
  if isLoopbackOnly s then mret tt
  else
    map_teardown iface local;;
    (if local then
       modify (upd_local_ifaces (iface_erase iface));;
       modify (upd_down_local_ifaces (iface_insert iface))
     else modify (upd_remote_ifaces (iface_erase iface)));;
    if local then data_check_all_irobs (ip_addr iface) 0 0
    else data_check_all_irobs 0 (ip_addr iface) 0.

Definition net_available labels : M SK bool :=
  r ← get_iface_pair_locked labels 0; mret (bool_decide (is_Some r)).

(** ** Blocking and waking application threads *)

Definition prepare_app_operation (self : Z) : M SK unit :=
  modify (upd_app_threads (fun m => <[self := CMM_INVALID_RC]> m)).

Definition signal_completion (requester_tid rc : Z) : M SK unit :=
  s ← get;
  when (negb (requester_tid =? 0) && bool_decide (is_Some (app_threads s !! requester_tid)))
    (modify (upd_app_threads (fun m => <[requester_tid := rc]> m))).

(** [wait_for_completion]: [None] while the thread sleeps; [timed_out]: the
    wait ended with [ETIMEDOUT]. *)
Definition wait_for_completion (self : Z) (timed_out : bool) : M SK (option Z) :=
  s ← get;
  let rc := default CMM_INVALID_RC (app_threads s !! self) in
  mret (if rc =? CMM_INVALID_RC then if timed_out then Some CMM_FAILED else None else Some rc).

Definition mc_get_failure_timeout labels (ts : bool) s : Z * option (Z * Z) :=
  if ts then (0, Some (default (-1, 0) (failure_timeouts s !! labels))) else (-1, None).
Definition mc_set_failure_timeout labels (ts : option (Z * Z)) : M SK Z :=
  match ts with
  | Some t => modify (upd_failure_timeouts (fun m => <[labels := t]> m));; mret 0
  | None => mret (-1)
  end.

(** ** Redundancy decisions, and the counters of misplaced bytes *)

Definition onRedundancyDecision (data : IROBSchedulingData) (decided : bool) : M SK unit :=
  s ← get;
  match find_locked (sd_id data) (outgoing_irobs s) with
  | None => mret tt
  | Some o =>
      p ← lift (the_sender (Some o));
      p' ← check_redundancy p (Some decided);
      modify (upd_sender (sd_id data) (fun _ => p'));;
      when (should_send_on_all_networks p')
        (pass_request_to_all_senders p' data;;
         modify (upd_sender (sd_id data) onReevaluationDone))
  end.

Definition sk_update_net_restriction_stats (labels bytes_sent bytes_recvd : Z) : M SK unit :=
  let restriction_labels := to_int (Z.land labels ALL_NETWORK_RESTRICTIONS) in
  modify (upd_net_restriction_stats (fun m =>
    let '(sent, recvd) := default (0, 0) (m !! restriction_labels) in
    <[restriction_labels := (to_size_t (sent + bytes_sent), to_size_t (recvd + bytes_recvd))]> m)).

Definition update_net_restriction_stats h (labels bytes_sent bytes_recvd : Z) : M SK unit :=
  c ← deref h;
  when (negb (fits_net_restriction labels c) && negb (fallback_allowed labels))
    (sk_update_net_restriction_stats labels bytes_sent bytes_recvd).

(** [mc_recv], with the fields [recv] reads. *)
Definition mc_recv (count flags : Z) (read_begin : timeval) : M SK mc_recv_result :=
  s ← get;
  if negb (connect_status s =? 0) then mret NotConnected
  else
    let env := RecvEnv (remote_shutdown s && csocks_empty s) (shutting_down s)
                 (is_non_blocking s) (read_timeout_expired read_begin s) in
    r ← lift (recv count flags env (incoming_irobs s));
    match r with
    | Some (res, inc) => modify (upd_incoming_irobs (fun _ => inc));; mret (RecvDone res)
    | None => mret RecvOutOfFuel
    end.
End socket.
