(* ===== verification/Options.v ===== *)
(** Socket options and addresses: mc_setsockopt, mc_getsockopt,
    set_all_sockopts, mc_getpeername and mc_getsockname of cmm_socket_impl.cpp,
    and mc_shutdown.

    The options that were set are kept as bytes by level and name, for
    connections made later.  System calls on a descriptor of the process or on the descriptor
    of a connection are recorded, and what they answer, given the calls before, is the
    parameter [OS]. *)

From S2P Require Import Prelude Labels Scheduling Irob IntSet Control SenderIrob ReceiverIrob.
From S2P Require Import Lattice ReceiverLattice Chooser Thunks MultiSocket Socket.

(** A descriptor of the process, or that of a CSocket. *)
Inductive target := Fd (fd : Z) | CsockFd (h : Z).

Inductive os_call :=
| OsSocket (family type protocol : Z)
| OsClose (t : target)
| OsShutdown (t : target) (how : Z)
| OsSetsockopt (t : target) (level optname : Z) (optval : list byte)
| OsGetsockopt (t : target) (level optname : Z)
| OsFcntlNonblock (t : target)
| OsGetpeername (t : target)
| OsGetsockname (t : target)
| OsListen (t : target) (backlog : Z)
| OsAccept (t : target)
| OsConnect (t : target) (addr : option Z)
| OsSocketpair
| OsWrite (t : target) (buf : list byte)
| OsSend (t : target) (buf : list byte) (flags : Z)
| OsWritev (t : target) (vec : list (list byte))
| OsRead (t : target) (count : Z)
| OsRecv (t : target) (count flags : Z).

(** The result, errno should it be negative, and the bytes handed back. *)
Class OS := { os_answer : list os_call -> os_call -> Z * Z * list byte }.

Definition SOL_SOCKET : Z := 1.
Definition SO_ERROR : Z := 4.
Definition SO_RCVTIMEO : Z := 20.
Definition SO_SNDTIMEO : Z := 21.
Definition O_NONBLOCK : Z := 2048.
Definition SO_CMM_REDUNDANCY_STRATEGY : Z := 0x4002.
Definition NUM_REDUNDANCY_STRATEGY_TYPES : Z := 5.
Definition EFAULT : Z := 14.
Definition EINVAL : Z := 22.
Definition ENOPROTOOPT : Z := 92.
Definition sizeof_timeval : Z := 16.
Definition sizeof_int : Z := 4.
Definition SHUT_RD : Z := 0.
Definition SHUT_WR : Z := 1.
Definition SHUT_RDWR : Z := 2.

(** Little-endian integers in a buffer. *)
Definition le_decode (l : list byte) : Z := foldr (fun b n => Z.of_N (Byte.to_N b) + 256 * n) 0 l.
Definition decode_timeval (l : list byte) : timeval :=
  Timeval (to_long (le_decode (take 8 l))) (to_long (le_decode (drop 8 l))).

(** What [mc_getsockopt] puts in the caller's buffer. *)
Inductive optvalue := VInt (n : Z) | VTimeval (t : timeval) | VBytes (l : list byte).

Section options.
Context {IS I : Type} `{!IdSet IS} `{!InstrumentsChooser I} `{!NetEstimates} `{!OS}.
Context (k : kernel).
Abbreviation SK := (CMMSocketImpl IS I).

Record mcsock := McSock {
  mc_sk : SK;
  sockopts : gmap Z (gmap Z (option (list byte)));   (* None: optval is NULL *)
  redundancy_strategy_type : Z;        (* of CSockMapping *)
  select_shut : bool;                  (* the pipes are shut down *)
  write_ready_shut : bool;
  sys_log : list os_call;
  mc_errno : Z
}.

Definition with_sk (s : SK) (m : mcsock) : mcsock :=
  McSock s (sockopts m) (redundancy_strategy_type m) (select_shut m) (write_ready_shut m) (sys_log m) (mc_errno m).
Definition set_sockopts f m : mcsock :=
  McSock (mc_sk m) (f (sockopts m)) (redundancy_strategy_type m) (select_shut m) (write_ready_shut m) (sys_log m) (mc_errno m).
Definition set_strategy_type t m : mcsock :=
  McSock (mc_sk m) (sockopts m) t (select_shut m) (write_ready_shut m) (sys_log m) (mc_errno m).
Definition set_shut r w m : mcsock :=
  McSock (mc_sk m) (sockopts m) (redundancy_strategy_type m) (select_shut m || r) (write_ready_shut m || w)
    (sys_log m) (mc_errno m).
Definition set_log l m : mcsock :=
  McSock (mc_sk m) (sockopts m) (redundancy_strategy_type m) (select_shut m) (write_ready_shut m) l (mc_errno m).
Definition set_errno e m : mcsock :=
  McSock (mc_sk m) (sockopts m) (redundancy_strategy_type m) (select_shut m) (write_ready_shut m) (sys_log m) e.

Definition on_msk {A} (m : M SK A) : M mcsock A := zoom mc_sk with_sk m.

(** A system call. *)
Definition sys (c : os_call) : M mcsock (Z * list byte) :=
  m ← get;
  let '(rc, err, out) := os_answer (sys_log m) c in
  modify (set_log (sys_log m ++ [c]));;
  when (rc <? 0) (modify (set_errno err));;
  mret (rc, out).
Definition sys_rc (c : os_call) : M mcsock Z := sys c ≫= fun (r : Z * list byte) => mret r.1.

Definition fail_with (e : Z) : M mcsock Z := modify (set_errno e);; mret (-1).

(** The options by level and name, in the order of the maps; an entry without a
    value is set too, with a null pointer and length zero. *)
Definition options_list (m : gmap Z (gmap Z (option (list byte)))) : list (Z * Z * list byte) :=
  level ← ascending (dom m); name ← ascending (dom (default ∅ (m !! level)));
  match default ∅ (m !! level) !! name with Some v => [(level, name, default [] v)] | None => [] end.

Fixpoint set_each (t : target) (l : list (Z * Z * list byte)) : M mcsock Z :=
  match l with
  | [] => mret 0
  | (level, name, v) :: l =>
      rc ← sys_rc (OsSetsockopt t level name v);
      if rc <? 0 then mret rc else set_each t l
  end.
Definition set_all_sockopts (t : target) : M mcsock Z :=
  m ← get; set_each t (options_list (sockopts m)).

(** [struct set_sock_opt]: its constructor initialises [optname] with 0. *)
Record set_sock_opt := SetSockOpt { so_level : Z; so_optname : Z; so_optval : list byte }.
Definition set_sock_opt_new (l o : Z) (v : list byte) : set_sock_opt := SetSockOpt l 0 v.
Definition set_sock_opt_call (f : set_sock_opt) (h : Z) : M mcsock Z :=
  if so_optname f =? O_NONBLOCK then sys_rc (OsFcntlNonblock (CsockFd h))
  else sys_rc (OsSetsockopt (CsockFd h) (so_level f) (so_optname f) (so_optval f)).

(** [CSockMapping::for_each]. *)
Fixpoint for_each (f : Z -> M mcsock Z) (l : list Z) : M mcsock Z :=
  match l with
  | [] => mret 0
  | h :: l => rc ← f h; if rc <? 0 then mret rc else for_each f l
  end.

(** [CSockMapping::set_redundancy_strategy]. *)
Definition map_set_redundancy_strategy (type : Z) : M mcsock unit :=
  c ← lift (create type);
  on_msk (modify (upd_network_chooser (fun _ => c)));;
  modify (set_strategy_type type).

Definition option_entry (level optname : Z) (m : gmap Z (gmap Z (option (list byte)))) : option (list byte) :=
  default None (default ∅ (m !! level) !! optname).
Definition store_option (level optname : Z) (v : option (list byte)) (m : gmap Z (gmap Z (option (list byte)))) :=
  <[level := <[optname := v]> (default ∅ (m !! level))]> m.

Definition mc_setsockopt (level optname : Z) (optval : list byte) : M mcsock Z :=
  let optlen := Z.of_nat (length optval) in
  if optname =? SO_CMM_REDUNDANCY_STRATEGY then
    if negb (optlen =? 4) then fail_with EINVAL
    else
      let type := to_int (le_decode optval) in
      if (type <? INTNW_NEVER_REDUNDANT) || (NUM_REDUNDANCY_STRATEGY_TYPES <=? type) then fail_with EINVAL
      else map_set_redundancy_strategy type;; mret 0
  else
    when (optname =? O_NONBLOCK)
      (on_msk (modify (upd_non_blocking (fun _ => existsb (fun b => negb (bool_decide (b = Byte.x00))) optval))));;
    if (optname =? SO_RCVTIMEO) && negb (optlen =? sizeof_timeval) then fail_with EINVAL
    else
      when (optname =? SO_RCVTIMEO) (on_msk (modify (upd_receive_timeout (fun _ => decode_timeval optval))));;
      if (optname =? O_NONBLOCK) || (optname =? SO_RCVTIMEO) || (optname =? SO_SNDTIMEO) then mret 0
      else
        s ← on_msk get;
        sys (OsSetsockopt (Fd (sock s)) level optname optval);;
        rc ← for_each (set_sock_opt_call (set_sock_opt_new level optname optval)) (ascending (available_csocks s));
        if rc <? 0 then mret rc
        else modify (set_sockopts (store_option level optname (Some optval)));; mret 0.

(** [optlen]: what the caller passed in [*optlen], if neither pointer is NULL. *)
Definition mc_getsockopt (level optname : Z) (optlen : option Z) : M mcsock (Z * option optvalue) :=
  match optlen with
  | None => rc ← fail_with EFAULT; mret (rc, None)
  | Some optlen =>
      s ← on_msk get;
      if optname =? SO_ERROR then
        if negb (level =? SOL_SOCKET) then rc ← fail_with ENOPROTOOPT; mret (rc, None)
        else if optlen <? sizeof_int then lift (Trap UndefinedBehaviour)
        else mret (0, Some (VInt (default 0 (bootstrap_status s))))
      else if optname =? SO_RCVTIMEO then
        if optlen <? sizeof_timeval then rc ← fail_with EINVAL; mret (rc, None)
        else mret (0, Some (VTimeval (receive_timeout s)))
      else
        csock ← on_msk (csock_with_labels 0 0);
        match csock with
        | Some h =>
            sys (OsGetsockopt (CsockFd h) level optname) ≫= fun (r : Z * list byte) => mret (r.1, Some (VBytes r.2))
        | None =>
            (* [sockopts[level][optname]] makes the entry *)
            modify (set_sockopts (fun m => store_option level optname (option_entry level optname m) m));;
            m ← get;
            match option_entry level optname (sockopts m) with
            | Some v =>
                (* the whole value is copied, whatever the buffer's length *)
                if optlen <? Z.of_nat (length v) then lift (Trap UndefinedBehaviour)
                else mret (0, Some (VBytes v))
            | None =>
                sys (OsGetsockopt (Fd (sock s)) level optname) ≫= fun (r : Z * list byte) =>
                mret (r.1, Some (VBytes r.2))
            end
        end
  end.

Definition mc_getpeername : M mcsock (Z * list byte) :=
  csock ← on_msk (csock_with_labels 0 0);
  match csock with
  | None => rc ← fail_with ENOTCONN; mret (rc, [])
  | Some h => sys (OsGetpeername (CsockFd h))
  end.

Definition mc_getsockname : M mcsock (Z * list byte) :=
  csock ← on_msk (csock_with_labels 0 0);
  match csock with
  | None => s ← on_msk get; sys (OsGetsockname (Fd (sock s)))
  | Some h => sys (OsGetsockname (CsockFd h))
  end.

(** [mc_shutdown] and [mc_interrupt_waiters] act on the pipes select waits on. *)
Definition mc_shutdown (how : Z) : M mcsock Z :=
  on_msk (goodbye k false);;
  modify (set_shut ((how =? SHUT_RD) || (how =? SHUT_RDWR)) ((how =? SHUT_WR) || (how =? SHUT_RDWR)));;
  mret 0.

Definition mc_num_networks : M mcsock Z := s ← on_msk get; mret (csock_count s).
End options.
Arguments mcsock : clear implicits.
