(* ===== verification/Select.v ===== *)
(** select(2) and poll(2) on multi-sockets: the second part of
    cmm_socket_impl.cpp's system-call shim.

    A multi-socket's file descriptor is a dummy.  [mc_select] and [mc_poll]
    replace it by the reading end of one of two pipes, which hold a byte when a
    read, or a write, would not block, ask the operating system, and translate its
    answer back.  The table [cmm_sock_hash] is a finite map; the system call is an
    argument, with what the other threads do to the table while it waits. *)

From S2P Require Import Prelude Labels Scheduling Irob IntSet SenderIrob ReceiverIrob.
From S2P Require Import Lattice ReceiverLattice Chooser Thunks MultiSocket Socket.

(** ** fd_set *)

Abbreviation fd_set := (gset Z).
Definition FD_SETSIZE : Z := 1024.
Definition fd_valid (fd : Z) : bool := (0 <=? fd) && (fd <? FD_SETSIZE).

(** The macros index an array of FD_SETSIZE bits. *)
Definition FD_ISSET (fd : Z) (X : fd_set) : outcome bool :=
  access (if fd_valid fd then Some (bool_decide (fd ∈ X)) else None).
Definition FD_SET (fd : Z) (X : fd_set) : outcome fd_set :=
  access (if fd_valid fd then Some ({[fd]} ∪ X) else None).
Definition FD_CLR (fd : Z) (X : fd_set) : outcome fd_set :=
  access (if fd_valid fd then Some (X ∖ {[fd]}) else None).

Definition mcSocketOsfdPairList : Type := list (Z * Z).
Definition EINPROGRESS : Z := 115.
Definition EINTR : Z := 4.

Section shim.
Context {IS I : Type}.
Abbreviation SK := (CMMSocketImpl IS I).

(** What the shim uses of a multi-socket.  A pipe's flag says that a byte is in
    it; more than one makes no difference. *)
Record msocket := MSel {
  ms_sk : SK;
  select_pipe : Z;                         (* select_pipe[0] *)
  write_ready_pipe : Z;                    (* write_ready_pipe[0] *)
  select_byte : bool;
  write_ready_byte : bool;
  csock_osfd : Z -> Z                      (* CSocket::osfd *)
}.

Definition set_select_byte (b : bool) (m : msocket) : msocket :=
  MSel (ms_sk m) (select_pipe m) (write_ready_pipe m) b (write_ready_byte m) (csock_osfd m).
Definition set_write_ready_byte (b : bool) (m : msocket) : msocket :=
  MSel (ms_sk m) (select_pipe m) (write_ready_pipe m) (select_byte m) b (csock_osfd m).

Abbreviation hash := (gmap Z msocket).
Implicit Types (H : hash) (l : mcSocketOsfdPairList) (X : fd_set).

(** ** To real file descriptors *)

Fixpoint push_osfds (mc_sock : Z) (osfds : list Z) : outcome mcSocketOsfdPairList :=
  match osfds with
  | [] => Ret []
  | osfd :: osfds =>
      assert_ (0 <? osfd) ≫= fun _ =>
      push_osfds mc_sock osfds ≫= fun l => Ret ((mc_sock, osfd) :: l)
  end.

Definition get_real_fds (m : msocket) : outcome mcSocketOsfdPairList :=
  push_osfds (sock (ms_sk m)) (csock_osfd m <$> (csock_list (ms_sk m)).*1).

(** Writing on a multi-socket without a bootstrapper follows a null pointer. *)
Definition get_fds_for_select (s : Z) (reading writing : bool) : M hash mcSocketOsfdPairList :=
  H ← get;
  m ← lift (access (H !! s));
  if reading then
    lift (assert_ (negb writing));;
    modify (alter (set_select_byte (data_is_ready (incoming_irobs (ms_sk m)))) s);;
    mret [(sock (ms_sk m), select_pipe m)]
  else if writing then
    status ← lift (access (bootstrap_status (ms_sk m)));
    when (negb (status =? EINPROGRESS)) (modify (alter (set_write_ready_byte true) s));;
    mret [(sock (ms_sk m), write_ready_pipe m)]
  else lift (get_real_fds m).

(** The multi-sockets of the set are taken out, their pipes are listed. *)
Fixpoint take_mc_sockets (ss : list Z) (reading writing : bool) X : M hash (fd_set * mcSocketOsfdPairList) :=
  match ss with
  | [] => mret (X, [])
  | s :: ss =>
      b ← lift (FD_ISSET s X);
      H ← get;
      if b && bool_decide (is_Some (H !! s)) then
        X' ← lift (FD_CLR s X);
        l ← get_fds_for_select s reading writing;
        r ← take_mc_sockets ss reading writing X';
        mret (r.1, l ++ r.2)
      else take_mc_sockets ss reading writing X
  end.

Fixpoint put_osfds l X (maxosfd : Z) : outcome (fd_set * Z) :=
  match l with
  | [] => Ret (X, maxosfd)
  | (s, osfd) :: l =>
      FD_CLR s X ≫= fun X1 => FD_SET osfd X1 ≫= fun X2 => put_osfds l X2 (Z.max maxosfd osfd)
  end.

(** From [nfds - 1] down to 0. *)
Definition make_real_fd_set (nfds : Z) X (maxosfd : Z) (reading writing : bool)
    : M hash (fd_set * mcSocketOsfdPairList * Z) :=
  r ← take_mc_sockets (reverse (seqZ 0 nfds)) reading writing X;
  p ← lift (put_osfds r.2 r.1 maxosfd);
  mret (p.1, r.2, p.2).

(** ** And back *)

(** The number of duplicates, and the set. *)
Fixpoint make_mc_fd_set l X : outcome (Z * fd_set) :=
  match l with
  | [] => Ret (0, X)
  | (s, osfd) :: l =>
      FD_ISSET osfd X ≫= fun (b : bool) =>
      if b then
        FD_CLR osfd X ≫= fun X1 =>
        FD_ISSET s X1 ≫= fun (dup : bool) =>
        (if dup then Ret X1 else FD_SET s X1) ≫= fun X2 =>
        make_mc_fd_set l X2 ≫= fun '(dups, X3) =>
        Ret ((if dup then 1 else 0) + dups, X3)
      else make_mc_fd_set l X
  end.

(** ** select *)

(** A pipe that waits for writability is read from: it moves to the read set for
    the call, and what became readable moves back. *)
Fixpoint to_read l (R W : fd_set) : outcome (fd_set * fd_set) :=
  match l with
  | [] => Ret (R, W)
  | (_, fd) :: l =>
      FD_ISSET fd W ≫= fun b => assert_ b ≫= fun _ =>
      FD_CLR fd W ≫= fun W' => FD_SET fd R ≫= fun R' => to_read l R' W'
  end.
Fixpoint from_read l (R W : fd_set) : outcome (fd_set * fd_set) :=
  match l with
  | [] => Ret (R, W)
  | (_, fd) :: l =>
      FD_ISSET fd R ≫= fun (b : bool) =>
      if b then FD_SET fd W ≫= fun W' => FD_CLR fd R ≫= fun R' => from_read l R' W'
      else from_read l R W
  end.

Definition will_block_on_read (m : msocket) : bool :=
  negb (data_is_ready (incoming_irobs (ms_sk m))) && negb (shutting_down (ms_sk m)).

(** The pipes of what is ready are emptied; [true]: a reader was interrupted. *)
Fixpoint empty_pipes (fds : list Z) (R W : fd_set) : M hash bool :=
  match fds with
  | [] => mret false
  | i :: fds =>
      r ← lift (FD_ISSET i R);
      w ← lift (FD_ISSET i W);
      H ← get;
      b ← match H !! i with
          | Some m =>
              when (r : bool) (modify (alter (set_select_byte false) i));;
              when (w : bool) (modify (alter (set_write_ready_byte false) i));;
              mret (r && will_block_on_read m)
          | None => mret false
          end;
      b' ← empty_pipes fds R W;
      mret (b || b')
  end.

(** What select(2) answers: the sets it leaves behind, and what happened
    meanwhile. *)
Record select_answer := SelectAnswer {
  sa_rc : Z;
  sa_errno : Z;
  sa_read : fd_set;
  sa_write : fd_set;
  sa_except : fd_set;
  sa_meanwhile : hash -> hash
}.

Record select_result := SelectResult {
  sr_rc : Z;
  sr_errno : Z;
  sr_read : option fd_set;
  sr_write : option fd_set;
  sr_except : option fd_set
}.

Definition real_set (nfds : Z) (fds : option fd_set) (maxosfd : Z) (reading writing : bool)
    : M hash (fd_set * mcSocketOsfdPairList * Z) :=
  match fds with
  | Some X => make_real_fd_set nfds X maxosfd reading writing
  | None => mret (∅, [], maxosfd)
  end.

Definition mc_select (select : Z -> fd_set -> fd_set -> fd_set -> select_answer) (nfds : Z)
    (readfds writefds exceptfds : option fd_set) : M hash select_result :=
  e ← real_set nfds exceptfds (nfds - 1) false false;
  let '(E, el, max1) := e in
  w ← real_set nfds writefds max1 false true;
  let '(W, wl, max2) := w in
  r ← real_set nfds readfds max2 true false;
  let '(R, rl, maxosfd) := r in
  rw ← lift (to_read wl R W);
  let a := select (maxosfd + 1) rw.1 rw.2 E in
  modify (sa_meanwhile a);;
  if sa_rc a <=? 0 then mret (SelectResult (sa_rc a) (sa_errno a) readfds writefds exceptfds)
  else
    rw ← lift (from_read wl (sa_read a) (sa_write a));
    r ← lift (make_mc_fd_set rl rw.1);
    w ← lift (make_mc_fd_set wl rw.2);
    e ← lift (make_mc_fd_set el (sa_except a));
    interrupted ← empty_pipes (seqZ 0 nfds) r.2 w.2;
    let given (o : option fd_set) (X : fd_set) := (fun _ => X) <$> o in
    mret (SelectResult (if (interrupted : bool) then -1 else sa_rc a - r.1 - w.1 - e.1)
            (if (interrupted : bool) then EINTR else sa_errno a)
            (given readfds r.2) (given writefds w.2) (given exceptfds e.2)).

(** ** poll *)

Definition POLLIN : Z := 1.
Definition POLLOUT : Z := 4.

Record pollfd := PollFd {
  pf_fd : Z;
  pf_events : Z;                           (* short *)
  pf_revents : Z
}.
Definition set_revents (r : Z) (p : pollfd) : pollfd := PollFd (pf_fd p) (pf_events p) r.

(** The entry for a descriptor a multi-socket gave; its pipes are polled for
    reading only. *)
Definition real_pollfd (m : msocket) (p : pollfd) (osfd : Z) : outcome pollfd :=
  if osfd =? select_pipe m then
    assert_ (has_bits (pf_events p) POLLIN) ≫= fun _ => Ret (PollFd osfd POLLIN (pf_revents p))
  else if osfd =? write_ready_pipe m then
    assert_ (has_bits (pf_events p) POLLOUT) ≫= fun _ => Ret (PollFd osfd POLLIN (pf_revents p))
  else Ret (PollFd osfd (pf_events p) (pf_revents p)).

Fixpoint real_pollfds (m : msocket) (p : pollfd) l : outcome (list pollfd) :=
  match l with
  | [] => Ret []
  | (_, osfd) :: l =>
      real_pollfd m p osfd ≫= fun r => real_pollfds m p l ≫= fun rs => Ret (r :: rs)
  end.

(** [osfds_to_pollfds]: the pointer into the caller's array is an index. *)
Definition point_to (i : nat) (rs : list pollfd) (to : gmap Z nat) : gmap Z nat :=
  foldl (fun to r => <[pf_fd r := i]> to) to rs.

(** [None]: a multi-socket that nothing can be polled for, ENOTCONN. *)
Fixpoint build_pollfds (i : nat) (fds : list pollfd) (to : gmap Z nat) : M hash (option (list pollfd * gmap Z nat)) :=
  match fds with
  | [] => mret (Some ([], to))
  | p :: fds =>
      H ← get;
      rs ← match H !! pf_fd p with
           | None => mret [p]
           | Some m =>
               l1 ← (if has_bits (pf_events p) POLLIN then get_fds_for_select (pf_fd p) true false else mret []);
               l2 ← (if has_bits (pf_events p) POLLOUT then get_fds_for_select (pf_fd p) false true else mret []);
               lift (real_pollfds m p (l1 ++ l2))
           end;
      match rs with
      | [] => mret None
      | _ =>
          r ← build_pollfds (S i) fds (point_to i rs to);
          mret (prod_map (app rs) id <$> r)
      end
  end.

(** A byte in the write-ready pipe means that the multi-socket is writable. *)
Definition mapped_revents (m : msocket) (r : pollfd) : Z :=
  if (pf_fd r =? write_ready_pipe m) && has_bits (pf_revents r) POLLIN then POLLOUT else pf_revents r.

(** The loop over what poll(2) answered.  Whether an entry is a multi-socket's is
    looked up at its own position in the caller's array. *)
Fixpoint poll_results (i : nat) (real fds : list pollfd) (to : gmap Z nat) (seen : fd_set) (rc : Z)
    : M hash (Z * list pollfd) :=
  match real with
  | [] => mret (rc, fds)
  | r :: real =>
      j ← lift (match to !! pf_fd r with Some j => Ret j | None => Trap AssertFailed end);
      orig ← lift (access (fds !! j));
      p ← lift (access (fds !! i));
      H ← get;
      revents ← match H !! pf_fd p with
                | None => mret (pf_revents r)
                | Some m =>
                    let rev := Z.lor (pf_revents orig) (mapped_revents m r) in
                    when (has_bits rev POLLIN) (modify (alter (set_select_byte false) (pf_fd p)));;
                    when (has_bits rev POLLOUT) (modify (alter (set_write_ready_byte false) (pf_fd p)));;
                    mret rev
                end;
      let ready := has_bits revents (Z.lor POLLIN POLLOUT) in
      poll_results (S i) real (<[j := set_revents revents orig]> fds) to
        (if ready then {[pf_fd orig]} ∪ seen else seen)
        (if ready && bool_decide (pf_fd orig ∈ seen) then rc - 1 else rc)
  end.

(** What poll(2) answers: its value, and the returned events of every entry. *)
Record poll_answer := PollAnswer {
  pa_rc : Z;
  pa_revents : list Z;
  pa_meanwhile : hash -> hash
}.

Inductive poll_result :=
| PollNotConnected (fds : list pollfd)     (* -1, ENOTCONN *)
| Polled (rc : Z) (fds : list pollfd).

Definition mc_poll (poll : list pollfd -> poll_answer) (fds : list pollfd) : M hash poll_result :=
  let fds := set_revents 0 <$> fds in
  b ← build_pollfds 0 fds ∅;
  match b with
  | None => mret (PollNotConnected fds)
  | Some (real, to) =>
      let a := poll real in
      modify (pa_meanwhile a);;
      if pa_rc a <=? 0 then mret (Polled (pa_rc a) fds)
      else
        r ← poll_results 0 (zip_with set_revents (pa_revents a) real) fds to ∅ (pa_rc a);
        mret (Polled r.1 r.2)
  end.
End shim.
Arguments msocket : clear implicits.
