(* ===== verification/Bootstrap.v ===== *)
(** Making and accepting connections: the bootstrapping of cmm_socket_impl.cpp,
    cmm_conn_bootstrapper.cpp and the listener of cmm_internal_listener.cpp.

    The two ends first exchange a HELLO and the lists of their interfaces over a
    bootstrap socket.  What arrives on it is a list of headers ([None]: an error or
    an early end), the results of send(2) a list of booleans.  The listener thread
    then accepts the other connections.  Reporting interface pairs to the scout is
    not modelled. *)

From S2P Require Import Prelude Labels Scheduling Irob IntSet Control SenderIrob ReceiverIrob.
From S2P Require Import Lattice ReceiverLattice Chooser Thunks MultiSocket Socket Select.

Definition ECONNREFUSED : Z := 111.
Definition EISCONN : Z := 106.
Definition EALREADY : Z := 114.
Definition EINVAL : Z := 22.

Section bootstrap.
Context {IS I : Type} `{!IdSet IS} `{!InstrumentsChooser I} `{!NetEstimates}.
Context (k : kernel).
Abbreviation SK := (CMMSocketImpl IS I).
Implicit Types (s : SK) (h : Z).

(** The bootstrapper.  [bs_in]: what its socket receives; [bs_sends]: the results
    of its send calls, all good when the list ends; [bs_others]: what the other
    threads do to the multi-socket each time the bootstrapper waits, and whether one
    of them restarts it; [bs_connects]: whether the connection attempt of a csocket
    succeeds. *)
Record boot := Boot {
  bs_sk : SK;
  bs_strategy : Z;                         (* CSockMapping::redundancy_strategy_type *)
  bs_listener : option Z;                  (* listener_thread->port() *)
  bs_retry : bool;                         (* ConnBootstrapper::retry *)
  bs_signalled : bool;                     (* a byte is in write_ready_pipe *)
  bs_in : list (option CMMSocketControlHdr);
  bs_sends : list bool;
  bs_out : list CMMSocketControlHdr;
  bs_others : list ((SK -> SK) * bool);
  bs_connects : Z -> bool
}.

Definition with_boot_sk (s : SK) (b : boot) : boot :=
  Boot s (bs_strategy b) (bs_listener b) (bs_retry b) (bs_signalled b) (bs_in b) (bs_sends b) (bs_out b)
    (bs_others b) (bs_connects b).
Definition set_strategy (z : Z) (b : boot) : boot :=
  Boot (bs_sk b) z (bs_listener b) (bs_retry b) (bs_signalled b) (bs_in b) (bs_sends b) (bs_out b)
    (bs_others b) (bs_connects b).
Definition set_retry (r : bool) (b : boot) : boot :=
  Boot (bs_sk b) (bs_strategy b) (bs_listener b) r (bs_signalled b) (bs_in b) (bs_sends b) (bs_out b)
    (bs_others b) (bs_connects b).
Definition set_signalled (b : boot) : boot :=
  Boot (bs_sk b) (bs_strategy b) (bs_listener b) (bs_retry b) true (bs_in b) (bs_sends b) (bs_out b)
    (bs_others b) (bs_connects b).
Definition set_in (l : list (option CMMSocketControlHdr)) (b : boot) : boot :=
  Boot (bs_sk b) (bs_strategy b) (bs_listener b) (bs_retry b) (bs_signalled b) l (bs_sends b) (bs_out b)
    (bs_others b) (bs_connects b).
Definition set_sent (l : list bool) (o : list CMMSocketControlHdr) (b : boot) : boot :=
  Boot (bs_sk b) (bs_strategy b) (bs_listener b) (bs_retry b) (bs_signalled b) (bs_in b) l o
    (bs_others b) (bs_connects b).
Definition set_others (l : list ((SK -> SK) * bool)) (b : boot) : boot :=
  Boot (bs_sk b) (bs_strategy b) (bs_listener b) (bs_retry b) (bs_signalled b) (bs_in b) (bs_sends b)
    (bs_out b) l (bs_connects b).

Definition on_boot {A} (m : M SK A) : M boot A := zoom bs_sk with_boot_sk m.

(** [restart], on an interface that went down: only the connecting side retries. *)
Definition restart : M boot unit :=
  b ← get; if accepting_side (bs_sk b) then mret tt else modify (set_retry true).

(** The bootstrapper waits. *)
Definition meanwhile : M boot unit :=
  b ← get;
  match bs_others b with
  | [] => mret tt
  | (f, restarted) :: l =>
      modify (set_others l);; on_boot (modify f);; when restarted restart
  end.

Definition recv_hdr : M boot CMMSocketControlHdr :=
  meanwhile;;
  b ← get;
  match bs_in b with
  | [] => throw (IntError (-1))
  | hdr :: rest =>
      modify (set_in rest);;
      match hdr with Some hdr => mret hdr | None => throw (IntError (-1)) end
  end.

Definition send_hdr (hdr : CMMSocketControlHdr) : M boot unit :=
  b ← get;
  match bs_sends b with
  | false :: l => modify (set_sent l (bs_out b));; throw (IntError (-1))
  | l => modify (set_sent (tail l) (bs_out b ++ [hdr]))
  end.

(** ** The exchange *)

(** [true]: the zero address that ends the list. *)
Definition recv_remote_listener : M boot bool :=
  hdr ← recv_hdr;
  if negb (wrap_s 16 (ntohs (hdr_type hdr)) =? CMM_CONTROL_MSG_NEW_INTERFACE) then throw (IntError (-1))
  else
    match hdr_op hdr with
    | OpNewInterface i =>
        let new_listener := NetInterface (ip_addr i) (ntohl (bandwidth_down i)) (ntohl (bandwidth_up i))
                              (ntohl (RTT i)) (to_int (ntohl (net_type i))) in
        if ip_addr new_listener =? 0 then mret true
        else
          s ← on_boot get;
          when (accepting_side s)
            (on_boot (modify (upd_remote_ifaces (fun m => iface_insert new_listener (iface_erase new_listener m)))));;
          mret false
    | _ => lift (Trap UndefinedBehaviour)
    end.

Definition set_redundancy_strategy (type : Z) : M boot unit :=
  c ← lift (create type);
  on_boot (modify (upd_network_chooser (fun _ => c)));;
  modify (set_strategy type).

(** The number of remote interfaces. *)
Definition recv_hello : M boot Z :=
  hdr ← recv_hdr;
  if negb (ntohs (hdr_type hdr) =? CMM_CONTROL_MSG_HELLO) then throw (IntError (-1))
  else
    match hdr_op hdr with
    | OpHello port num type =>
        on_boot (modify (upd_remote_listener_port (fun _ => port)));;
        s ← on_boot get;
        when (accepting_side s) (set_redundancy_strategy (to_int (ntohl type)));;
        mret (to_int (ntohl num))
    | _ => lift (Trap UndefinedBehaviour)
    end.

(** [num_ifaces] is not used.  As many rounds as there are headers are enough. *)
Fixpoint recv_listeners (fuel : nat) : M boot unit :=
  match fuel with
  | O => throw (IntError (-1))
  | S fuel => done ← recv_remote_listener; if (done : bool) then mret tt else recv_listeners fuel
  end.
Definition recv_remote_listeners (num_ifaces : Z) : M boot unit :=
  b ← get; recv_listeners (length (bs_in b)).

Definition send_hello : M boot unit :=
  b ← get;
  match bs_listener b with
  | None => lift (Trap AssertFailed)
  | Some port =>
      send_hdr (Hdr (htons CMM_CONTROL_MSG_HELLO) 0
        (OpHello port (htonl (Z.of_nat (size (local_ifaces (bs_sk b))))) (htonl (bs_strategy b))))
  end.

Definition send_local_listener (iface : net_interface) : M boot unit :=
  send_hdr (Hdr (htons CMM_CONTROL_MSG_NEW_INTERFACE) 0
    (OpNewInterface (NetInterface (ip_addr iface) (htonl (bandwidth_down iface)) (htonl (bandwidth_up iface))
                       (htonl (RTT iface)) (htonl (net_type iface))))).

Fixpoint send_listeners (l : list net_interface) : M boot unit :=
  match l with
  | [] => mret tt
  | i :: l => send_local_listener i;; send_listeners l
  end.

Definition sentinel : net_interface := NetInterface 0 0 0 0 0.

Definition send_local_listeners : M boot unit :=
  b ← get;
  lift (assert_ (bool_decide (is_Some (bs_listener b))));;
  send_listeners (ifaces_of (local_ifaces (bs_sk b)));;
  send_local_listener sentinel.

Fixpoint setup_all (l : list net_interface) (local make_connection : bool) : M SK unit :=
  match l with
  | [] => mret tt
  | i :: l => map_setup k i local make_connection false;; setup_all l local make_connection
  end.

Definition startup_csocks : M SK unit :=
  s ← get;
  setup_all (ifaces_of (remote_ifaces s)) false false;;
  s ← get;
  setup_all (ifaces_of (local_ifaces s)) true true.

(** Every csocket is waited for; one must have made it. *)
Definition set_connected (b : bool) (c : CSocket) : CSocket :=
  CSock (local_iface c) (remote_iface c) b (cs_indexes c) (busy c).
Definition makes_it (b : boot) (hc : Z * CSocket) : bool := connected hc.2 || bs_connects b hc.1.

Definition wait_for_connections : M boot unit :=
  meanwhile;;
  b ← get;
  let l := csock_list (bs_sk b) in
  on_boot (modify (fun s => foldl (fun s hc => upd_csock hc.1 (set_connected (makes_it b hc)) s) s l));;
  if existsb (makes_it b) l then mret tt else throw (IntError (-1)).

(** ** ConnBootstrapper *)

Inductive connect_result :=
| SocketFails
| BindFails (errno : Z)
| ConnectFails (errno : Z)
| Connects.

Definition set_status (z : Z) : M boot unit := on_boot (modify (upd_bootstrap_status (fun _ => Some z))).

(** [false]: [Run] returns. *)
Definition open_bootstrap_sock (c : connect_result) : M boot bool :=
  s ← on_boot get;
  match c with
  | SocketFails => mret false
  | _ =>
      match ifaces_of (local_ifaces s), c with
      | [], _ => mret false
      | _, BindFails e => set_status e;; throw (IntError (-1))
      | _, ConnectFails e => meanwhile;; set_status e;; throw (IntError (-1))
      | _, _ => meanwhile;; mret true
      end
  end.

Definition exchange (accepting : bool) : M boot unit :=
  if accepting then
    num_ifaces ← recv_hello;
    send_hello;;
    recv_remote_listeners num_ifaces;;
    on_boot startup_csocks;;
    wait_for_connections;;
    send_local_listeners
  else
    send_hello;;
    num_ifaces ← recv_hello;
    on_boot startup_csocks;;
    wait_for_connections;;
    send_local_listeners;;
    recv_remote_listeners num_ifaces.

Definition catch_int {A} (m handler : M boot A) : M boot A := fun b =>
  match m b with
  | (Throw (IntError _), b') => handler b'
  | r => r
  end.

Definition attempt_failed : M boot bool :=
  b ← get;
  (if bs_retry b then set_status EINPROGRESS
   else when (negb (bool_decide (bootstrap_status (bs_sk b) = Some EINPROGRESS))) (set_status ECONNREFUSED));;
  mret true.

(** The body of the loop; [None]: the socket is an accepted one. *)
Definition attempt (c : option connect_result) : M boot bool :=
  modify (set_retry false);;
  catch_int
    (ok ← (match c with Some c => open_bootstrap_sock c | None => mret true end);
     if (ok : bool) then exchange (bool_decide (c = None));; set_status 0;; mret true
     else mret false)
    attempt_failed.

(** Whether the byte is written, or [None] when the list of results is too short.
    Only the connecting side can retry. *)
Fixpoint Run_loop (l : list (option connect_result)) : M boot (option bool) :=
  match l with
  | [] => mret None
  | c :: l =>
      ok ← attempt c;
      b ← get;
      if negb ok then mret (Some false) else if bs_retry b then Run_loop l else mret (Some true)
  end.

Definition Run (l : list (option connect_result)) : M boot (option bool) :=
  r ← Run_loop l;
  when (bool_decide (r = Some true)) (modify set_signalled);;
  mret r.

(** [CMMThread::ThreadFn] ends the thread on [std::exception]. *)
Definition catch_thread (m : M boot (option bool)) : M boot (option bool) := fun b =>
  match m b with
  | (Throw RuntimeError, b') => (Ret (Some false), b')
  | r => r
  end.

(** ** connection_bootstrap, mc_connect *)

Inductive listener_start :=
| ListenerAt (port : Z)
| ListenerThrows (rc : Z)                  (* its constructor *)
| ListenerStartFails (rc : Z).             (* pthread_create *)

Definition localhost : net_interface := NetInterface (htonl INADDR_LOOPBACK) 100000000 100000000 0 0.
Definition bootstrap_iface (ip : Z) : net_interface := NetInterface ip 1250000 1250000 0 0.

Definition init_ifaces (remote_ip : Z) (accepting : bool) (ifaces : gmap Z net_interface) : M SK unit :=
  if remote_ip =? htonl INADDR_LOOPBACK then
    modify (upd_local_ifaces (iface_insert localhost));;
    modify (upd_remote_ifaces (iface_insert localhost))
  else
    modify (upd_local_ifaces (fun _ => ifaces));;
    when (negb accepting) (modify (upd_remote_ifaces (iface_insert (bootstrap_iface remote_ip)))).

(** [l]: as for [Run]; when the multi-socket is non-blocking the bootstrapper runs
    later.  A listener thread that does not start is deleted, and then told to
    stop.  [None]: [l] is too short. *)
Definition connection_bootstrap (remote_ip : Z) (accepting : bool) (ifaces : gmap Z net_interface)
    (listener : listener_start) (l : list (option connect_result)) : M boot (option Z) :=
  on_boot (modify (upd_accepting_side (fun _ => accepting)));;
  match listener with
  | ListenerThrows rc => mret (Some rc)
  | ListenerStartFails _ => lift (Trap UndefinedBehaviour)
  | ListenerAt port =>
      modify (fun b => Boot (bs_sk b) (bs_strategy b) (Some port) (bs_retry b) (bs_signalled b) (bs_in b)
                         (bs_sends b) (bs_out b) (bs_others b) (bs_connects b));;
      on_boot (init_ifaces remote_ip accepting ifaces);;
      set_status EINPROGRESS;;
      b ← get;
      if is_non_blocking k (bs_sk b) then mret (Some 0)
      else
        r ← catch_thread (Run l);
        b ← get;
        mret (match r with
              | None => None
              | Some _ => Some (if bool_decide (bootstrap_status (bs_sk b) = Some 0) then 0 else -1)
              end)
  end.

(** The return code and, where the code sets it, errno. *)
Definition mc_connect (serv_addr : option Z) (ifaces : gmap Z net_interface) (listener : listener_start)
    (l : list (option connect_result)) : M boot (option (Z * option Z)) :=
  b ← get;
  match bootstrap_status (bs_sk b) with
  | Some st =>
      mret (Some (CMM_FAILED,
        if st =? 0 then Some EISCONN else if st =? EINPROGRESS then Some EALREADY else None))
  | None =>
      match serv_addr with
      | None => mret (Some (CMM_FAILED, Some EINVAL))
      | Some ip =>
          r ← connection_bootstrap ip false ifaces listener l;
          mret ((fun rc => (rc, None)) <$> r)
      end
  end.

(** ** The listener thread *)

(** [CMMSocket::interface_up] is the process's; [uninitialised] is what an automatic
    variable holds. *)
Definition add_connection (interface_up : net_interface -> M SK unit) (uninitialised : net_interface)
    (local_addr : Z) (remote_iface : net_interface) : M SK Z :=
  s ← get;
  local_iface ← match get_iface_by_addr (local_ifaces s) local_addr with
                | Some i => mret i
                | None =>
                    let i := NetInterface local_addr (bandwidth_down uninitialised) (bandwidth_up uninitialised)
                               (RTT uninitialised) (net_type uninitialised) in
                    interface_up i;; mret i
                end;
  s ← get;
  when (negb (bool_decide (is_Some (get_iface_by_addr (remote_ifaces s) (ip_addr remote_iface)))))
    (Socket.setup k remote_iface false);;
  make_new_csocket k local_iface remote_iface true.

(** One round of [Run], on the address and the first header of an accepted
    connection; [None]: getsockname(2) or recv(2) fails.  The csocket, if one is
    made. *)
Definition accept_connection (interface_up : net_interface -> M SK unit) (uninitialised : net_interface)
    (local_addr : option Z) (hdr : option CMMSocketControlHdr) : M SK (option Z) :=
  s ← get;
  match local_addr with
  | None => mret None
  | Some addr =>
      match get_iface_by_addr (local_ifaces s) addr, hdr with
      | Some _, Some hdr =>
          if negb (ntohs (hdr_type hdr) =? CMM_CONTROL_MSG_NEW_INTERFACE) then mret None
          else
            match hdr_op hdr with
            | OpNewInterface i =>
                catch_runtime
                  (h ← add_connection interface_up uninitialised addr
                         (NetInterface (ip_addr i) (ntohl (bandwidth_down i)) (ntohl (bandwidth_up i))
                            (ntohl (RTT i)) (to_int (ntohl (net_type i))));
                   mret (Some h))
                  (mret None)
            | _ => lift (Trap UndefinedBehaviour)
            end
      | _, _ => mret None
      end
  end.
End bootstrap.
Arguments boot : clear implicits.
