(* ===== verification/Process.v ===== *)
(** The process: the static members of CMMSocketImpl, the two kinds of CMMSocket,
    opening, listening, accepting, closing and interface changes
    (cmm_socket.cpp, cmm_socket_impl.cpp, cmm_socket_passthrough.cpp).

    The statics [g_next_irob], [irob_sock_hash] and the thunks are the
    process's: they are put into the state of a multi-socket when one of its operations
    runs ([load]), and taken back afterwards ([save]).  [errno] is modelled where the library's code
    writes it and where a recorded system call fails. *)

From S2P Require Import Prelude Labels Scheduling Irob IntSet Control SenderIrob ReceiverIrob.
From S2P Require Import Lattice ReceiverLattice Chooser Thunks MultiSocket Socket Select Options Bootstrap.

Definition PF_INET : Z := 2.
Definition AF_INET : Z := 2.
Definition SOCK_STREAM : Z := 1.
Definition EBADF : Z := 9.
Definition EAGAIN : Z := 11.
Definition EPIPE : Z := 32.
Definition ENOTSOCK : Z := 88.

(** What [mc_recv] comes back with, of a socket of the system or of a multi-socket. *)
Inductive recv_value :=
| SysRecv (rc : Z) (buf : list byte)
| MsockRecv (r : mc_recv_result).

Section process.
Context {IS I : Type} `{!IdSet IS} `{!InstrumentsChooser I} `{!NetEstimates} `{!OS}.
Context (k : kernel) (now : timeval).
Abbreviation SK := (CMMSocketImpl IS I).
Abbreviation MS := (mcsock IS I).

Record process := Process {
  cmm_sock_hash : gmap Z MS;
  cmm_listeners : gset Z;
  static_ifaces : gmap Z net_interface;      (* CMMSocketImpl::ifaces *)
  next_irob : Z;                             (* CMMSocketImpl::g_next_irob *)
  sock_of_irob : gmap Z Z;                   (* CMMSocketImpl::irob_sock_hash *)
  thunk_hash : thunk_state;
  os_log : list os_call;
  errno : Z
}.
Implicit Types (p : process) (s : SK) (fd id labels : Z).

Definition set_hash f p : process :=
  Process (f (cmm_sock_hash p)) (cmm_listeners p) (static_ifaces p) (next_irob p) (sock_of_irob p) (thunk_hash p)
    (os_log p) (errno p).
Definition set_listeners f p : process :=
  Process (cmm_sock_hash p) (f (cmm_listeners p)) (static_ifaces p) (next_irob p) (sock_of_irob p) (thunk_hash p)
    (os_log p) (errno p).
Definition set_ifaces f p : process :=
  Process (cmm_sock_hash p) (cmm_listeners p) (f (static_ifaces p)) (next_irob p) (sock_of_irob p) (thunk_hash p)
    (os_log p) (errno p).
Definition set_thunk_hash f p : process :=
  Process (cmm_sock_hash p) (cmm_listeners p) (static_ifaces p) (next_irob p) (sock_of_irob p) (f (thunk_hash p))
    (os_log p) (errno p).
Definition set_os l e p : process :=
  Process (cmm_sock_hash p) (cmm_listeners p) (static_ifaces p) (next_irob p) (sock_of_irob p) (thunk_hash p) l e.
Definition set_process_errno (e : Z) p : process := set_os (os_log p) e p.

Definition load p (m : MS) : MS :=
  set_log (os_log p) (set_errno (errno p) (with_sk (upd_thunks (fun _ => thunk_hash p)
    (upd_irob_sock_hash (fun _ => sock_of_irob p) (upd_g_next_irob (fun _ => next_irob p) (mc_sk m)))) m)).
Definition save fd (m : MS) p : process :=
  Process (<[fd := m]> (cmm_sock_hash p)) (cmm_listeners p) (static_ifaces p) (g_next_irob (mc_sk m))
    (irob_sock_hash (mc_sk m)) (thunks (mc_sk m)) (sys_log m) (mc_errno m).

(** Work on the multi-socket of a descriptor. *)
Definition on_sock {A} fd (m : M MS A) : M process A := fun p =>
  match cmm_sock_hash p !! fd with
  | Some sk => let '(r, sk') := m (load p sk) in (r, save fd sk' p)
  | None => (Trap AssertFailed, p)
  end.

(** A system call of the process. *)
Definition os (c : os_call) : M process (Z * list byte) :=
  p ← get;
  let '(rc, err, out) := os_answer (os_log p) c in
  modify (set_os (os_log p ++ [c]) (if rc <? 0 then err else errno p));;
  mret (rc, out).
Definition os_rc (c : os_call) : M process Z := os c ≫= fun (r : Z * list byte) => mret r.1.
Definition fail_errno {A} (e : Z) (a : A) : M process A := modify (set_process_errno e);; mret a.

(** A call that leaves in [errno] what [e] says of the state before and the
    result, or nothing. *)
Definition with_errno {A} (e : SK -> A -> option Z) (m : M SK A) : M MS A :=
  s ← on_msk get;
  r ← on_msk m;
  match e s r with Some n => modify (set_errno n) | None => mret tt end;;
  mret r.

(** ** The virtual functions of CMMSocket *)

(** What a connection attempt meets: as for [connection_bootstrap]. *)
Record attempt_env := AttemptEnv {
  ae_in : list (option CMMSocketControlHdr);
  ae_sends : list bool;
  ae_others : list ((SK -> SK) * bool);
  ae_connects : Z -> bool;
  ae_listener : listener_start;
  ae_attempts : list (option connect_result)
}.

Record CMMSocket := {
  v_send : list byte -> Z -> Z -> option Z -> Z -> M process (api Z);
  v_writev : list (list byte) -> Z -> option Z -> Z -> M process (api Z);
  v_getpeername : M process (Z * list byte);
  v_getsockname : M process (Z * list byte);
  v_recv : Z -> Z -> timeval -> M process recv_value;
  v_getsockopt : Z -> Z -> option Z -> M process (Z * option optvalue);
  v_setsockopt : Z -> Z -> list byte -> M process Z;
  v_connect : option Z -> attempt_env -> M process (option Z);
  v_shutdown : Z -> M process Z;
  v_begin_irob : list Z -> Z -> option Z -> Z -> M process (api Z);
  v_end_irob : Z -> M process (api Z);
  v_irob_send : Z -> list byte -> M process (api Z);
  v_irob_writev : Z -> list (list byte) -> M process (api Z);
  v_irob_relabel : Z -> Z -> M process Z;
  v_get_failure_timeout : Z -> bool -> M process (Z * option (Z * Z));
  v_set_failure_timeout : Z -> option (Z * Z) -> M process Z;
  v_num_networks : M process Z
}.

(** *** A multi-socket *)
Definition connect_errno (s : SK) : option Z :=
  if connect_status s =? 0 then None else Some (if connect_status s =? EINPROGRESS then EAGAIN else ENOTCONN).
Definition pipe_errno (s : SK) : option Z := if shutting_down s then Some EPIPE else None.
Definition or_errno (a b : option Z) : option Z := match a with Some e => Some e | None => b end.

Definition send_errno (s : SK) (r : api Z) : option Z := or_errno (connect_errno s) (pipe_errno s).
Definition writev_errno (vec : list (list byte)) (s : SK) (r : api Z) : option Z :=
  if bool_decide (vec = []) then None
  else or_errno (connect_errno s) (match total_bytes vec 0 with None => Some EINVAL | Some _ => pipe_errno s end).
Definition begin_errno (s : SK) (r : api Z) : option Z := pipe_errno s.
(** [irob_chunk] leaves it alone when the IROB is not there or complete. *)
Definition irob_errno id (s : SK) (r : api Z) : option Z :=
  if shutting_down s then Some EPIPE
  else match find_locked id (outgoing_irobs s) with
       | None => Some EINVAL
       | Some o => if complete (core o) then Some EINVAL else None
       end.
Definition chunk_errno (s : SK) (r : api Z) : option Z := pipe_errno s.
Definition irob_writev_errno (vec : list (list byte)) (s : SK) (r : api Z) : option Z :=
  if bool_decide (vec = []) || existsb (fun v => bool_decide (v = [])) vec then Some EINVAL else chunk_errno s r.
Definition recv_errno (s : SK) (r : mc_recv_result) : option Z :=
  match r with
  | NotConnected => connect_errno s
  | RecvDone NoData => Some EAGAIN
  | RecvDone (Received _) => Some 0
  | RecvDone (Waiting _) | RecvOutOfFuel => None
  end.
Definition timeout_errno (ts : bool) : option Z := if ts then None else Some EINVAL.

(** Run a bootstrap on the state of a multi-socket. *)
Definition on_attempt {A} (env : attempt_env) (m : M (boot IS I) A) : M MS A := fun ms =>
  let '(r, b) := m (Boot (mc_sk ms) (redundancy_strategy_type ms) None false false (ae_in env) (ae_sends env) []
                      (ae_others env) (ae_connects env)) in
  (r, set_strategy_type (bs_strategy b) (with_sk (bs_sk b) ms)).

Definition impl_connect (addr : option Z) (env : attempt_env) (ifaces : gmap Z net_interface) : M MS (option Z) :=
  r ← on_attempt env (mc_connect k addr ifaces (ae_listener env) (ae_attempts env));
  match r with
  | Some (rc, Some e) => modify (set_errno e);; mret (Some rc)
  | Some (rc, None) => mret (Some rc)
  | None => mret None
  end.

Definition impl fd : CMMSocket := {|
  v_send buf flags labels rh arg := on_sock fd (with_errno send_errno (mc_send k now buf labels rh arg));
  v_writev vec labels rh arg := on_sock fd (with_errno (writev_errno vec) (mc_writev k now vec labels rh arg));
  v_getpeername := on_sock fd mc_getpeername;
  v_getsockname := on_sock fd mc_getsockname;
  v_recv count flags t :=
    on_sock fd (with_errno recv_errno (mc_recv k now count flags t)) ≫= fun r => mret (MsockRecv r);
  v_getsockopt level name len := on_sock fd (mc_getsockopt level name len);
  v_setsockopt level name v := on_sock fd (mc_setsockopt level name v);
  v_connect addr env := p ← get; on_sock fd (impl_connect addr env (static_ifaces p));
  v_shutdown how := on_sock fd (mc_shutdown k how);
  v_begin_irob deps labels rh arg := on_sock fd (with_errno begin_errno (mc_begin_irob k now deps labels rh arg));
  v_end_irob id := on_sock fd (with_errno (irob_errno id) (mc_end_irob k id));
  v_irob_send id buf := on_sock fd (with_errno chunk_errno (mc_irob_send k id buf));
  v_irob_writev id vec := on_sock fd (with_errno (irob_writev_errno vec) (mc_irob_writev k id vec));
  v_irob_relabel id labels := on_sock fd (on_msk (irob_relabel id labels));
  v_get_failure_timeout labels ts :=
    on_sock fd (with_errno (fun _ _ => timeout_errno ts) (gets (mc_get_failure_timeout labels ts)));
  v_set_failure_timeout labels ts :=
    on_sock fd (with_errno (fun _ _ => timeout_errno (bool_decide (is_Some ts))) (mc_set_failure_timeout labels ts));
  v_num_networks := on_sock fd mc_num_networks
|}.

(** *** CMMSocketPassThrough *)
Definition not_multisocket : M process (api Z) := fail_errno EBADF (Done (-1)).
Definition passthrough fd : CMMSocket := {|
  v_send buf flags labels rh arg :=
    rc ← (if flags =? 0 then os_rc (OsWrite (Fd fd) buf) else os_rc (OsSend (Fd fd) buf flags)); mret (Done rc);
  v_writev vec labels rh arg := rc ← os_rc (OsWritev (Fd fd) vec); mret (Done rc);
  v_getpeername := os (OsGetpeername (Fd fd));
  v_getsockname := os (OsGetsockname (Fd fd));
  v_recv count flags t :=
    (if flags =? 0 then os (OsRead (Fd fd) count) else os (OsRecv (Fd fd) count flags)) ≫=
      fun (r : Z * list byte) => mret (SysRecv r.1 r.2);
  v_getsockopt level name len :=
    os (OsGetsockopt (Fd fd) level name) ≫= fun (r : Z * list byte) => mret (r.1, Some (VBytes r.2));
  v_setsockopt level name v := os_rc (OsSetsockopt (Fd fd) level name v);
  v_connect addr env := rc ← os_rc (OsConnect (Fd fd) addr); mret (Some rc);
  v_shutdown how := os_rc (OsShutdown (Fd fd) how);
  v_begin_irob deps labels rh arg := not_multisocket;
  v_end_irob id := not_multisocket;
  v_irob_send id buf := not_multisocket;
  v_irob_writev id vec := not_multisocket;
  v_irob_relabel id labels := fail_errno EBADF (-1);
  v_get_failure_timeout labels ts := fail_errno EBADF (-1, None);
  v_set_failure_timeout labels ts := fail_errno EBADF (-1);
  v_num_networks := mret 1
|}.

(** ** Finding the object *)
Definition lookup_sock fd p : CMMSocket :=
  match cmm_sock_hash p !! fd with Some _ => impl fd | None => passthrough fd end.
Definition lookup_by_irob id p : CMMSocket :=
  match sock_of_irob p !! id with Some fd => lookup_sock fd p | None => passthrough (-1) end.
Definition net_available_on fd labels : M process bool :=
  p ← get;
  match cmm_sock_hash p !! fd with
  | None => mret false
  | Some _ => on_sock fd (on_msk (net_available labels))
  end.

(** ** Opening and closing *)

(** The constructor of CMMSocketImpl: the descriptor, or what it throws. *)
Definition socketpair : M process (Z * (Z * Z)) :=
  os OsSocketpair ≫= fun (r : Z * list byte) => mret (r.1, (to_int (le_decode (take 4 r.2)), to_int (le_decode (drop 4 r.2)))).
Definition close_each (fds : list Z) : M process unit :=
  foldr (fun fd (m : M process unit) => os (OsClose (Fd fd)) ≫= fun _ => m) (mret tt) fds.
Definition construct (family type protocol : Z) : M process (Z + MS) :=
  sock ← os_rc (OsSocket family type protocol);
  if sock <? 0 then mret (inl sock)
  else
    socketpair ≫= fun (r : Z * (Z * Z)) =>
    let '(rc, (r0, r1)) := r in
    if rc <? 0 then close_each [sock];; mret (inl rc)
    else
      os (OsFcntlNonblock (Fd r0));; os (OsFcntlNonblock (Fd r1));;
      socketpair ≫= fun (w : Z * (Z * Z)) =>
      let '(rc, (w0, w1)) := w in
      if rc <? 0 then close_each [r0; r1; sock];; mret (inl rc)
      else
        os (OsFcntlNonblock (Fd w0));; os (OsFcntlNonblock (Fd w1));;
        s ← lift (msock_new sock);
        mret (inr (McSock s ∅ INTNW_NEVER_REDUNDANT false false [] 0)).

Definition create (family type protocol : Z) : M process Z :=
  if negb (family =? PF_INET) || negb (type =? SOCK_STREAM) then os_rc (OsSocket family type protocol)
  else
    r ← construct family type protocol;
    match r with
    | inl oserr => mret oserr
    | inr m =>
        let new_sock := sock (mc_sk m) in
        p ← get;
        lift (assert_ (bool_decide (cmm_sock_hash p !! new_sock = None)));;
        modify (set_hash <[new_sock := m]>);;
        mret new_sock
    end.

(** What [mc_close] and [cleanup] do before the object may go. *)
Definition say_goodbye fd : M process unit :=
  on_sock fd (on_msk (goodbye k false);; modify (set_shut true false)).

(** The destructor runs when the last reference goes ([destroy]). *)
Definition mc_close fd : M process Z :=
  p ← get;
  if bool_decide (is_Some (cmm_sock_hash p !! fd)) then
    say_goodbye fd;;
    modify (set_hash (delete fd));;
    mret 0
  else if bool_decide (fd ∈ cmm_listeners p) then
    modify (set_listeners (fun l => l ∖ {[fd]}));;
    os (OsClose (Fd fd));;
    mret 0
  else os_rc (OsClose (Fd fd)).

(** ~CMMSocketImpl, its threads gone; [pipes]: the descriptors of its pipes. *)
Definition destroy fd (pipes : list Z) : M process unit :=
  modify (set_thunk_hash (cancel_all_thunks fd));;
  close_each (pipes ++ [fd]).

(** ** Listening and accepting *)
Definition sa_family (addr : list byte) : Z := le_decode (take 2 addr).
Definition sin_addr (addr : list byte) : Z := le_decode (take 4 (drop 4 addr)).

Definition mc_listen fd (backlog : Z) : M process Z :=
  os (OsGetsockname (Fd fd)) ≫= fun (r : Z * list byte) =>
  if r.1 <? 0 then
    p ← get;
    when (negb (errno p =? ENOTSOCK)) (modify (set_process_errno EBADF));;
    mret (-1)
  else
    rc ← os_rc (OsListen (Fd fd) backlog);
    if rc <? 0 then mret rc
    else if negb (sa_family r.2 =? AF_INET) then mret rc
    else modify (set_listeners (fun l => {[fd]} ∪ l));; mret 0.

(** The bootstrap of an accepted connection; a failure closes the multi-socket. *)
Definition accept_bootstrap (mc_sock remote_ip : Z) (env : attempt_env) : M process (option Z) :=
  p ← get;
  r ← on_sock mc_sock (on_attempt env
        (connection_bootstrap k remote_ip true (static_ifaces p) (ae_listener env) (ae_attempts env)));
  match r with
  | None => mret None
  | Some rc => if rc <? 0 then mc_close mc_sock;; mret (Some rc) else mret (Some mc_sock)
  end.

(** The address handed back, and the descriptor or the failure. *)
Definition mc_accept fd (env : attempt_env) : M process (option Z * list byte) :=
  p ← get;
  os (OsAccept (Fd fd)) ≫= fun (r : Z * list byte) =>
  if bool_decide (fd ∉ cmm_listeners p) || (r.1 <? 0) then mret (Some r.1, r.2)
  else
    mc_sock ← create PF_INET SOCK_STREAM 0;
    p ← get;
    lift (assert_ (bool_decide (is_Some (cmm_sock_hash p !! mc_sock))));;
    res ← accept_bootstrap mc_sock (sin_addr r.2) env;
    mret (res, r.2).

(** ** Interfaces *)
Fixpoint for_each_sock (f : Z -> M process unit) (fds : list Z) : M process unit :=
  match fds with
  | [] => mret tt
  | fd :: fds => f fd;; for_each_sock f fds
  end.

Definition interface_up (up_iface : net_interface) : M process unit :=
  modify (set_ifaces (iface_insert up_iface));;
  p ← get;
  for_each_sock (fun fd => on_sock fd (on_msk (Socket.setup k up_iface true))) (ascending (dom (cmm_sock_hash p))).

Definition interface_down (down_iface : net_interface) : M process unit :=
  modify (set_ifaces (iface_erase down_iface));;
  p ← get;
  for_each_sock (fun fd => on_sock fd (on_msk (teardown down_iface true))) (ascending (dom (cmm_sock_hash p))).

Definition process_interface_update (iface : net_interface) (down : bool) : M process unit :=
  if down then interface_down iface else interface_up iface.

(** ** Cleaning up: the socket it sleeps on, if any.  After waking up it goes on
    with the sockets that are left. *)
Fixpoint cleanup_each (fds : list Z) : M process (option Z) :=
  match fds with
  | [] => mret None
  | fd :: fds =>
      say_goodbye fd;;
      ready ← on_sock fd (on_msk (gets (fun s => remote_shutdown s && goodbye_sent s)));
      if (ready : bool) then cleanup_each fds else mret (Some fd)
  end.
Definition cleanup : M process (option Z) :=
  p ← get; cleanup_each (ascending (dom (cmm_sock_hash p))).
End process.
Arguments process : clear implicits.
Arguments CMMSocket : clear implicits.
Arguments attempt_env : clear implicits.
