(* ===== verification/Ipc.v ===== *)
(** A process's side of the talk with the scout: libcmm_ipc.cpp, and the two
    requests of libcmm_external_ipc.cpp that do without a subscription.

    What the calls of the system answer is an argument: a list of answers for the calls that are
    repeated when a signal interrupts them, and [None] is the result while the
    list has run out and the call blocks.  The shared memory that [scout_ipc_init]
    and [scout_ipc_deinit] set up and take down is [Shmem]'s. *)

From S2P Require Import Prelude Labels IntSet Chooser MultiSocket Select Process Scout.

(** What a read of a message gives: the message, or another count with errno. *)
Inductive recv_answer := Received (m : cmm_msg) | NotReceived (rc e : Z).
(** What select(2) gives the thread: an interruption, during which the handler of the
    signal may have run, an error, or a connection from which the reads give this. *)
Inductive select_answer := SelInterrupted (signalled : bool) | SelFailed | SelReady (reads : list recv_answer).

Section ipc.
Context {IS I : Type} `{!IdSet IS} `{!InstrumentsChooser I} `{!NetEstimates} `{!OS}.
Context (k : kernel) (sizeof_msg pid : Z).

Record ipc := Ipc {
  scout_ipc_fd : Z;
  ipc_running : bool;
  ipc_thread : bool;            (* IPCThread has been created *)
  ipc_sent : list cmm_msg;
  ipc_closed : list Z;
  ipc_process : process IS I
}.
Definition set_scout_fd fd (c : ipc) : ipc := Ipc fd (ipc_running c) (ipc_thread c) (ipc_sent c) (ipc_closed c) (ipc_process c).
Definition set_running b (c : ipc) : ipc := Ipc (scout_ipc_fd c) b (ipc_thread c) (ipc_sent c) (ipc_closed c) (ipc_process c).
Definition set_thread b (c : ipc) : ipc := Ipc (scout_ipc_fd c) (ipc_running c) b (ipc_sent c) (ipc_closed c) (ipc_process c).
Definition add_ipc_sent m (c : ipc) : ipc := Ipc (scout_ipc_fd c) (ipc_running c) (ipc_thread c) (ipc_sent c ++ [m]) (ipc_closed c) (ipc_process c).
Definition add_ipc_closed fd (c : ipc) : ipc := Ipc (scout_ipc_fd c) (ipc_running c) (ipc_thread c) (ipc_sent c) (ipc_closed c ++ [fd]) (ipc_process c).
Definition on_process {A} (m : M (process IS I) A) : M ipc A :=
  zoom ipc_process (fun p c => Ipc (scout_ipc_fd c) (ipc_running c) (ipc_thread c) (ipc_sent c) (ipc_closed c) p) m.

(** The statics at the start. *)
Definition ipc_start (p : process IS I) : ipc := Ipc 0 true false [] [] p.

(** The count, the message, and the answers left for later calls. *)
Fixpoint scout_recv (reads : list recv_answer) : option (Z * cmm_msg * list recv_answer) :=
  match reads with
  | [] => None
  | Received m :: reads => Some (sizeof_msg, m, reads)
  | NotReceived rc e :: reads =>
      if (rc <? 0) && (e =? EINTR) then scout_recv reads else Some (rc, Msg 0 0 0 zero_iface, reads)
  end.

(** [writes]: counts with errno. *)
Fixpoint send_control_message (msg : cmm_msg) (writes : list (Z * Z)) : M ipc (option Z) :=
  match writes with
  | [] => mret None
  | (rc, e) :: writes =>
      if (rc <? 0) && (e =? EINTR) then send_control_message msg writes
      else when (rc =? sizeof_msg) (modify (add_ipc_sent msg));; mret (Some rc)
  end.

Definition scout_ipc_inited (c : ipc) : bool := 0 <? scout_ipc_fd c.

Definition net_status_change_handler (reads : list recv_answer) : M ipc (option (Z * list recv_answer)) :=
  match scout_recv reads with
  | None => mret None
  | Some (rc, msg, reads) =>
      if negb (rc =? sizeof_msg) then mret (Some (-1, reads))
      else
        (if opcode msg =? CMM_MSG_IFACE_LABELS then on_process (process_interface_update k (msg_iface msg) false)
         else if opcode msg =? CMM_MSG_IFACE_DOWN then on_process (process_interface_update k (msg_iface msg) true)
         else mret tt);;
        mret (Some (0, reads))
  end.

(** The thread; [false] while it waits for more. *)
Fixpoint IPCThread (selects : list select_answer) : M ipc bool :=
  c ← get;
  if negb (ipc_running c) then mret true
  else
    match selects with
    | [] => mret false
    | SelInterrupted signalled :: selects =>
        when signalled (modify (set_running false));; IPCThread selects
    | SelFailed :: _ => mret true
    | SelReady reads :: selects =>
        r ← net_status_change_handler reads;
        match r with
        | None => mret false
        | Some (rc, _) => if rc =? 0 then IPCThread selects else mret true
        end
    end.

(** open_scout_socket: the descriptor, what connect(2) says, and what has been closed. *)
Definition open_scout_socket (sock connect_rc : Z) : Z * list Z :=
  if sock <? 0 then (-1, [])
  else if connect_rc <? 0 then (-1, [sock])
  else (sock, []).

Record init_env := InitEnv {
  ie_sock : Z;
  ie_connect : Z;
  ie_writes : list (Z * Z);
  ie_reads : list recv_answer;
  ie_thread_rc : Z             (* pthread_create *)
}.
Definition drop_scout_fd : M ipc unit :=
  c ← get; modify (add_ipc_closed (scout_ipc_fd c));; modify (set_scout_fd (-1)).

Definition scout_ipc_init (env : init_env) : M ipc (option Z) :=
  let '(sock, closed) := open_scout_socket (ie_sock env) (ie_connect env) in
  modify (set_scout_fd sock);;
  if sock <? 0 then
    match closed with [] => mret tt | fd :: _ => modify (add_ipc_closed fd) end;;
    mret (Some (-1))
  else
    rc ← send_control_message (Msg CMM_MSG_SUBSCRIBE 0 pid zero_iface) (ie_writes env);
    match rc with
    | None => mret None
    | Some rc =>
        if rc <? 0 then drop_scout_fd;; mret (Some 0)
        else
          r ← net_status_change_handler (ie_reads env);
          match r with
          | None => mret None
          | Some (rc, _) =>
              if negb (rc =? 0) then mret (Some (-1))
              else if negb (ie_thread_rc env =? 0) then drop_scout_fd;; mret (Some (-1))
              else modify (set_thread true);; mret (Some 0)
          end
    end.

(** [true]: the process exits. *)
Definition lazy_scout_ipc_init (env : init_env) : M ipc (option bool) :=
  c ← get;
  if scout_ipc_inited c then mret (Some false)
  else
    rc ← scout_ipc_init env;
    mret (match rc with None => None | Some rc => Some (rc <? 0) end).

(** What is told of the IPC thread; then the multi-sockets are cleaned up. *)
Definition scout_ipc_deinit (writes : list (Z * Z)) : M ipc (option (option Z)) :=
  c ← get;
  sent ← (if 0 <? scout_ipc_fd c then send_control_message (Msg CMM_MSG_UNSUBSCRIBE 0 pid zero_iface) writes
          else mret (Some 0));
  match sent with
  | None => mret None
  | Some _ =>
      when (0 <? scout_ipc_fd c) (modify (set_running false);; modify (add_ipc_closed (scout_ipc_fd c)));;
      left_at ← on_process (cleanup k);
      mret (Some left_at)
  end.

(** ** Requests *)

(** What a request leaves: its answer, and whether no descriptor of its own is left open. *)
Record request_result (A : Type) := Request { rq_answer : A; rq_closed : bool }.

(** Whether it succeeded, and the interfaces read; the answers are the results of
    recv(2) with MSG_WAITALL. *)
Fixpoint recv_ifaces (reads : list recv_answer) (ifaces : list net_interface) : option (bool * list net_interface) :=
  match reads with
  | [] => None
  | NotReceived _ _ :: _ => Some (false, ifaces)
  | Received m :: reads =>
      if ip_addr (msg_iface m) =? 0 then Some (true, ifaces)
      else recv_ifaces reads (ifaces ++ [msg_iface m])
  end.
(** The -1 for a socket that cannot be opened is returned as a bool. *)
Definition get_local_interfaces (sock connect_rc write_rc : Z) (reads : list recv_answer) : option (request_result (bool * list net_interface)) :=
  let '(sock, closed) := open_scout_socket sock connect_rc in
  if sock <? 0 then Some (Request _ (true, []) true)
  else if negb (write_rc =? sizeof_msg) then Some (Request _ (false, []) false)
  else r ← recv_ifaces reads []; Some (Request _ r r.1).

Definition is_ip_connected (sock connect_rc write_rc : Z) (read : recv_answer) : request_result bool :=
  let '(sock, closed) := open_scout_socket sock connect_rc in
  if sock <? 0 then Request _ true true
  else if negb (write_rc =? sizeof_msg) then Request _ false true
  else
    match read with
    | NotReceived _ _ => Request _ false true
    | Received m => Request _ (msg_rc m =? 1) true
    end.
End ipc.
Arguments ipc : clear implicits.
