(* ===== verification/IpcSpec.v ===== *)
(** The scout and its clients together: what a subscribed process takes its
    interfaces to be, and what the requests without a subscription are told. *)

From S2P Require Import Prelude Logic Labels Thunks IntSet Chooser MultiSocket Socket Options Select Process Scout ScoutSpec Ipc.

(** ** A process that handles the scout's messages *)
Section process.
Context {IS I : Type} `{!IdSet IS} `{!InstrumentsChooser I} `{!NetEstimates} `{!OS}.
Context (k : kernel) (sizeof_msg pid : Z).
Abbreviation handler := (net_status_change_handler (IS:=IS) (I:=I) k sizeof_msg).
Implicit Types (c : ipc IS I).

Definition ifaces_of c : gmap Z net_interface := static_ifaces (ipc_process c).

Lemma for_each_ifaces (f : Z -> M (mcsock IS I) unit) fds p :
  static_ifaces (snd (for_each_sock (fun fd => on_sock fd (f fd)) fds p)) = static_ifaces p.
Proof.
  revert p. induction fds as [|fd fds IH]; intros p; simpl; [done|].
  unfold mbind, M_bind. destruct (on_sock fd (f fd) p) as [r p1] eqn:E.
  assert (static_ifaces p1 = static_ifaces p) as Hp.
  { unfold on_sock in E. destruct (cmm_sock_hash p !! fd); [destruct (f fd _)|]; by injection E as <- <-. }
  destruct r; simpl; [by rewrite IH|done..].
Qed.
Lemma interface_update_ifaces i (down : bool) p :
  static_ifaces (snd (process_interface_update (IS:=IS) (I:=I) k i down p)) =
  if down then iface_erase i (static_ifaces p) else iface_insert i (static_ifaces p).
Proof.
  destruct down; unfold process_interface_update, interface_up, interface_down, mbind, M_bind, modify, get; simpl;
    by rewrite (for_each_ifaces (fun _ => on_msk _)).
Qed.

(** The first message it reads. *)
Definition reads_first (reads : list recv_answer) (m : cmm_msg) : Prop :=
  exists rest, scout_recv sizeof_msg reads = Some (sizeof_msg, m, rest).
Lemma on_process_then {A} (m : M (process IS I) unit) (x : A) c :
  ifaces_of (snd ((on_process m;; mret x) c)) = static_ifaces (snd (m (ipc_process c))) /\
  scout_ipc_fd (snd ((on_process m;; mret x) c)) = scout_ipc_fd c /\
  ipc_running (snd ((on_process m;; mret x) c)) = ipc_running c /\
  ipc_thread (snd ((on_process m;; mret x) c)) = ipc_thread c /\
  forall r, fst ((on_process m;; mret x) c) = Ret r -> r = x.
Proof.
  unfold mbind, M_bind, on_process, zoom. destruct (m (ipc_process c)) as [[a| |] p]; split_and!; try done.
  by intros r [= <-].
Qed.
Lemma handler_learns reads m c :
  reads_first reads m -> ifaces_of (snd (handler reads c)) = learn (ifaces_of c) m /\
  scout_ipc_fd (snd (handler reads c)) = scout_ipc_fd c /\
  ipc_running (snd (handler reads c)) = ipc_running c /\
  ipc_thread (snd (handler reads c)) = ipc_thread c /\
  forall r, fst (handler reads c) = Ret r -> exists rest, r = Some (0, rest).
Proof.
  intros (rest & E). unfold net_status_change_handler, learn. rewrite E, Z.eqb_refl. cbn [negb].
  destruct (opcode m =? CMM_MSG_IFACE_LABELS); [|destruct (opcode m =? CMM_MSG_IFACE_DOWN)].
  - destruct (on_process_then (process_interface_update k (msg_iface m) false) (Some (0, rest)) c)
      as (H1 & H2 & H3 & H4 & H5). rewrite H1, interface_update_ifaces. split_and!; [done..|eauto].
  - destruct (on_process_then (process_interface_update k (msg_iface m) true) (Some (0, rest)) c)
      as (H1 & H2 & H3 & H4 & H5). rewrite H1, interface_update_ifaces. split_and!; [done..|eauto].
  - split_and!; try done. intros r [= <-]; eauto.
Qed.

(** What select and read give the thread, as the messages among it. *)
Inductive delivers : list select_answer -> list cmm_msg -> Prop :=
| delivers_nil : delivers [] []
| delivers_interrupted selects ms : delivers selects ms -> delivers (SelInterrupted false :: selects) ms
| delivers_ready reads m selects ms :
    reads_first reads m -> delivers selects ms -> delivers (SelReady reads :: selects) (m :: ms).

Lemma thread_learns selects ms c b c' :
  delivers selects ms -> ipc_running c = true -> IPCThread k sizeof_msg selects c = (Ret b, c') ->
  ifaces_of c' = foldl learn (ifaces_of c) ms.
Proof.
  intros Hd. revert c. induction Hd as [|selects ms Hd IH|reads m selects ms Hr Hd IH]; intros c Hrun; simpl;
    rewrite (M_bind_ret get _ c c c eq_refl), Hrun; simpl.
  - by intros [= _ <-].
  - by apply IH.
  - destruct (handler_learns reads m c Hr) as (H1 & _ & H3 & _ & H4). unfold mbind at 1, M_bind at 1.
    destruct (handler reads c) as [[r| |] c1]; simpl in *; [|done..].
    destruct (H4 r eq_refl) as [rest ->]. simpl. intros Hrest. rewrite (IH c1) by (by rewrite ?H3 || done). by rewrite H1.
Qed.

Lemma sends_only msg writes c r c' :
  send_control_message sizeof_msg msg writes c = (Ret r, c') ->
  ifaces_of c' = ifaces_of c /\ ipc_running c' = ipc_running c /\ ipc_thread c' = ipc_thread c /\
  scout_ipc_fd c' = scout_ipc_fd c.
Proof.
  revert c. induction writes as [|[rc e] writes IH]; intros c; simpl; [by intros [= _ <-]|].
  destruct (_ && _); [by apply IH|]. unfold when. destruct (rc =? sizeof_msg); by intros [= _ <-].
Qed.

Lemma init_learns env m c r c' :
  reads_first (ie_reads env) m -> ipc_thread c = false -> ipc_running c = true ->
  scout_ipc_init k sizeof_msg pid env c = (Ret r, c') -> ipc_thread c' = true ->
  ifaces_of c' = learn (ifaces_of c) m /\ ipc_running c' = true /\ scout_ipc_fd c' = ie_sock env.
Proof.
  intros Hm Ht Hrun. unfold scout_ipc_init, open_scout_socket, drop_scout_fd.
  destruct (ie_sock env <? 0) eqn:Es.
  { intros [= _ <-]. simpl. by rewrite Ht. }
  destruct (ie_connect env <? 0).
  { intros [= _ <-]. simpl. by rewrite Ht. }
  intros E Ht'. apply M_bind_inv in E as ([] & c1 & [= <-] & E). rewrite Es in E.
  apply M_bind_inv in E as (rc & c2 & Ew & E). apply sends_only in Ew as (Hi2 & Hr2 & Ht2 & Hf2). simpl in *.
  destruct rc as [rc|]; [|injection E as _ <-; congruence].
  destruct (rc <? 0); [injection E as _ <-; simpl in *; congruence|].
  destruct (handler_learns (ie_reads env) m c2 Hm) as (H1 & H2 & H3 & H4 & H5).
  apply M_bind_inv in E as (a & c3 & Eh & E). rewrite Eh in H1, H2, H3, H4, H5. simpl in *.
  destruct (H5 a eq_refl) as [rest ->]. simpl in E.
  destruct (negb (ie_thread_rc env =? 0)); injection E as _ <-; simpl in *; [congruence|].
  split_and!; [|congruence|congruence]. unfold ifaces_of in *; simpl in *. by rewrite H1, Hi2.
Qed.

(** All of it: from the start. *)
Lemma process_learns env m selects ms p r c b c' :
  reads_first (ie_reads env) m -> delivers selects ms ->
  scout_ipc_init k sizeof_msg pid env (ipc_start p) = (Ret r, c) -> ipc_thread c = true ->
  IPCThread k sizeof_msg selects c = (Ret b, c') ->
  ifaces_of c' = foldl learn (static_ifaces p) (m :: ms).
Proof.
  intros Hm Hd Ei Ht Et. destruct (init_learns env m (ipc_start p) r c Hm eq_refl eq_refl Ei Ht) as (Hc & Hr & _).
  rewrite (thread_learns _ _ _ _ _ Hd Hr Et), Hc. done.
Qed.
End process.

(** ** Requests *)
Section requests.
Context (sizeof_msg : Z) (write_rc : gmap Z (list cmm_msg) -> Z -> cmm_msg -> Z).
Context (Hsize : 0 < sizeof_msg) (Hall : forall w fd m, write_rc w fd m = sizeof_msg).

Lemma write_whole fd m s :
  returns (write sizeof_msg write_rc fd m) s (fun rc s' =>
    rc = sizeof_msg /\ net_interfaces s' = net_interfaces s /\ written s' fd = written s fd ++ [m]).
Proof.
  unfold write, when. apply returns_bind, returns_get. rewrite Hall, Z.eqb_refl.
  apply returns_bind, returns_modify, returns_ret. split_and!; [done..|].
  unfold written; simpl. by rewrite lookup_insert_eq.
Qed.
Lemma notify_each_whole fd op l s :
  returns (notify_each sizeof_msg write_rc fd op l) s (fun rc s' =>
    rc = 0 /\ net_interfaces s' = net_interfaces s /\ written s' fd = written s fd ++ (tells op <$> l)).
Proof.
  revert s. induction l as [|i l IH]; intros s; simpl.
  - apply returns_ret. by rewrite app_nil_r.
  - unfold notify_subscriber_of_event. eapply returns_step; [apply write_whole|].
    intros rc s1 (-> & Hn & Hw). replace (sizeof_msg <? 0) with false by lia.
    eapply returns_mono; [apply IH|]. intros rc s2 (-> & Hn2 & Hw2). split_and!; [done|congruence|].
    rewrite Hw2, Hw, <- app_assoc. done.
Qed.
Lemma init_whole fd s :
  returns (init_subscriber sizeof_msg write_rc fd) s (fun rc s' =>
    rc = 0 /\ written s' fd = written s fd ++ (tells CMM_MSG_IFACE_LABELS <$> iface_list (net_interfaces s))).
Proof.
  unfold init_subscriber, notify_subscriber. apply returns_bind, returns_get.
  eapply returns_step; [apply notify_each_whole|]. intros rc s1 (-> & Hn & Hw). simpl. apply returns_ret. done.
Qed.

(** What the reader of the interfaces gets: it stops at the first address that is 0. *)
Lemma recv_ifaces_all l acc rest :
  (forall i, i ∈ l -> ip_addr i <> 0) ->
  recv_ifaces ((Received <$> (tells CMM_MSG_IFACE_LABELS <$> l)) ++ Received (tells CMM_MSG_IFACE_LABELS zero_iface) :: rest) acc =
  Some (true, acc ++ l).
Proof.
  revert acc. induction l as [|i l IH]; intros acc Hl; simpl; [by rewrite app_nil_r|].
  destruct (Z.eqb_spec (ip_addr i) 0) as [E|_]; [by destruct (Hl i ltac:(left))|].
  rewrite IH by (intros; apply Hl; by right). by rewrite <- app_assoc.
Qed.

(** The interface with address 0, if there is one, is the first. *)
Lemma iface_list_zero m :
  map_Forall (fun ip i => ip_addr i = ip) m -> set_Forall (fun ip => 0 <= ip) (dom m) -> 0 ∈ dom m ->
  exists i l, iface_list m = i :: l /\ ip_addr i = 0.
Proof.
  intros Hf Hpos H0. unfold iface_list. pose proof (ascending_sorted (dom m)) as Hs.
  pose proof (fun x => proj1 (elem_of_ascending x (dom m))) as Hin.
  apply elem_of_ascending in H0. destruct (ascending (dom m)) as [|a l]; [by apply not_elem_of_nil in H0|].
  assert (a = 0) as ->.
  { apply elem_of_cons in H0 as [<-|H0]; [done|]. apply StronglySorted_inv in Hs as [_ Ha].
    rewrite Forall_forall in Ha. specialize (Ha 0 H0). specialize (Hpos a (Hin a ltac:(left))); simpl in Hpos. lia. }
  destruct (proj1 (elem_of_dom m 0) (Hin 0 ltac:(left))) as [i Hi]. simpl. rewrite Hi.
  eexists i, _. split; [done|]. exact (Hf _ _ Hi).
Qed.
Lemma iface_list_nonzero m i :
  map_Forall (fun ip i => ip_addr i = ip) m -> 0 ∉ dom m -> i ∈ iface_list m -> ip_addr i <> 0.
Proof.
  intros Hf H0 (ip & _ & Hi)%list_elem_of_omap E. pose proof (Hf _ _ Hi) as H; simpl in H.
  apply H0. rewrite <- E, H. by eapply elem_of_dom_2.
Qed.

Lemma get_ifaces_told fd m s s' :
  opcode m = CMM_MSG_GET_IFACES -> handle_connection sizeof_msg write_rc fd (Whole m) s = (Ret true, s') ->
  written s' fd = (tells CMM_MSG_IFACE_LABELS <$> iface_list (net_interfaces s)) ++ [tells CMM_MSG_IFACE_LABELS zero_iface].
Proof.
  intros Hm. assert (returns (handle_connection sizeof_msg write_rc fd (Whole m)) s (fun _ s' =>
    written s' fd = (tells CMM_MSG_IFACE_LABELS <$> iface_list (net_interfaces s)) ++ [tells CMM_MSG_IFACE_LABELS zero_iface]))
    as (a & s2 & E & H); [|by rewrite E; intros [= _ <-]].
  unfold handle_connection. apply returns_bind, returns_modify, returns_bind, returns_modify. fold (opened fd s).
  rewrite Hm; simpl. apply returns_bind. unfold answer_get_ifaces. eapply returns_step; [apply init_whole|].
  intros rc s1 (-> & Hw). assert (written (opened fd s) fd = []) as Ho.
  { unfold written, opened; simpl. by rewrite lookup_insert_eq. }
  rewrite Ho in Hw. simpl. apply returns_bind, returns_bind. unfold notify_subscriber_of_event.
  eapply returns_mono; [apply write_whole|]. intros rc s2 (_ & _ & Hw2).
  apply returns_ret, returns_modify, returns_ret. simpl in *. by rewrite <- Hw.
Qed.
Lemma is_connected_told fd m s s' :
  opcode m = CMM_MSG_IS_IP_CONNECTED -> handle_connection sizeof_msg write_rc fd (Whole m) s = (Ret true, s') ->
  written s' fd = [Msg CMM_MSG_IS_IP_CONNECTED (if ip_addr (default zero_iface (net_interfaces s !! ip_addr (msg_iface m))) =? 0 then -1 else 1)
                     (msg_pid m) (msg_iface m)].
Proof.
  intros Hm. assert (returns (handle_connection sizeof_msg write_rc fd (Whole m)) s (fun _ s' =>
    written s' fd = [Msg CMM_MSG_IS_IP_CONNECTED (if ip_addr (default zero_iface (net_interfaces s !! ip_addr (msg_iface m))) =? 0 then -1 else 1)
                     (msg_pid m) (msg_iface m)])) as (a & s2 & E & H); [|by rewrite E; intros [= _ <-]].
  unfold handle_connection. apply returns_bind, returns_modify, returns_bind, returns_modify. fold (opened fd s).
  rewrite Hm; simpl. apply returns_bind. unfold answer_is_connected. apply returns_bind, returns_get.
  eapply returns_step; [apply write_whole|]. intros rc s1 (_ & _ & Hw). apply returns_modify, returns_ret.
  change (written s1 fd = [Msg CMM_MSG_IS_IP_CONNECTED (if ip_addr (default zero_iface (net_interfaces s !! ip_addr (msg_iface m))) =? 0 then -1 else 1)
                     (msg_pid m) (msg_iface m)]).
  rewrite Hw. unfold written, opened; simpl. rewrite lookup_insert_eq. simpl. by rewrite ?Hm.
Qed.
End requests.

(** C28: A process's interfaces are the scout's.  Take any history of the scout's steps after which
    the connection [fd] is subscribed, and the process at its other end, which read
    the messages written to it in order, the first in scout_ipc_init, the others in
    its IPC thread, each behind any number of interruptions: the addresses of the static
    set of interfaces, from which its multi-sockets are made, are those of the
    scout's interfaces.  A round of the listener and a change of the networks are one step each,
    which leaves out a change in the middle of a subscription (it is lost,
    [ScoutSpec.update_missed]), and no process that subscribes has a descriptor
    in use as its identifier. *)
Theorem process_in_step {IS I : Type} `{!IdSet IS} `{!InstrumentsChooser I} `{!NetEstimates} `{!OS}
    control sizeof_msg write_rc net es fd sub k pid env m selects ms (p : process IS I) r c b c' :
  0 < sizeof_msg -> (forall w fd m, write_rc w fd m < 0 \/ write_rc w fd m = sizeof_msg) ->
  0 <= control -> map_Forall (fun ip i => ip_addr i = ip) net ->
  history_ok control sizeof_msg write_rc (scout_start control net) es ->
  let s := scout_run control sizeof_msg write_rc (scout_start control net) es in
  subscriber_procs s !! fd = Some sub -> written s fd = m :: ms ->
  static_ifaces p = ∅ -> reads_first sizeof_msg (ie_reads env) m -> delivers sizeof_msg selects ms ->
  scout_ipc_init k sizeof_msg pid env (ipc_start p) = (Ret r, c) -> ipc_thread c = true ->
  IPCThread k sizeof_msg selects c = (Ret b, c') ->
  dom (static_ifaces (ipc_process c')) = dom (net_interfaces s).
Proof.
  intros Hsize Hwhole Hc0 Hnet Hes s Hfd Hw Hp Hm Hd Ei Ht Et.
  assert (scout_ok control s) as Hok.
  { by apply (run_ok control sizeof_msg write_rc); [..|apply start_ok|]. }
  pose proof (process_learns k sizeof_msg pid env m selects ms p r c b c' Hm Hd Ei Ht Et) as E.
  unfold ifaces_of in E. rewrite E, Hp. rewrite <- (ok_told _ _ _ Hok fd) by (by eapply elem_of_dom_2).
  rewrite <- dom_knows. unfold knows. by rewrite Hw.
Qed.

(** C22: What the scout answers is what a request returns.  With writes that succeed:
    get_local_interfaces gives the scout's interfaces, in ascending order of their
    addresses, or none of them if one has the address 0, which it takes for the end; and
    is_ip_connected says whether the scout has an interface with that address. *)
Theorem requests_answered sizeof_msg write_rc s fd m sock connect_rc :
  0 < sizeof_msg -> (forall w fd m, write_rc w fd m = sizeof_msg) ->
  map_Forall (fun ip i => ip_addr i = ip) (net_interfaces s) -> set_Forall (fun ip => 0 <= ip) (dom (net_interfaces s)) ->
  0 <= sock -> 0 <= connect_rc ->
  forall s', handle_connection sizeof_msg write_rc fd (Whole m) s = (Ret true, s') ->
  (opcode m = CMM_MSG_GET_IFACES ->
     get_local_interfaces sizeof_msg sock connect_rc sizeof_msg (Received <$> written s' fd) =
     Some (Request _ (true, if bool_decide (0 ∈ dom (net_interfaces s)) then [] else iface_list (net_interfaces s)) true)) /\
  (opcode m = CMM_MSG_IS_IP_CONNECTED -> exists answer, written s' fd = [answer] /\
     is_ip_connected sizeof_msg sock connect_rc sizeof_msg (Received answer) =
     Request _ (bool_decide (ip_addr (msg_iface m) ∈ dom (net_interfaces s) /\ ip_addr (msg_iface m) <> 0)) true).
Proof.
  intros Hsize Hall Hf Hpos Hs Hc s' E.
  assert (open_scout_socket sock connect_rc = (sock, [])) as Eo.
  { unfold open_scout_socket. by replace (sock <? 0) with false by lia; replace (connect_rc <? 0) with false by lia. }
  split; intros Hm.
  - unfold get_local_interfaces. rewrite Eo, Z.eqb_refl. replace (sock <? 0) with false by lia. simpl.
    rewrite (get_ifaces_told sizeof_msg write_rc Hsize Hall fd m s s' Hm E), fmap_app.
    change (Received <$> [tells CMM_MSG_IFACE_LABELS zero_iface]) with [Received (tells CMM_MSG_IFACE_LABELS zero_iface)].
    case_bool_decide as H0.
    + destruct (iface_list_zero _ Hf Hpos H0) as (i & l & -> & Hi). simpl. by rewrite Hi.
    + rewrite recv_ifaces_all; [done|]. intros i. by apply iface_list_nonzero.
  - rewrite (is_connected_told sizeof_msg write_rc Hall fd m s s' Hm E). eexists. split; [done|].
    unfold is_ip_connected. rewrite Eo, Z.eqb_refl. replace (sock <? 0) with false by lia. simpl. f_equal.
    destruct (net_interfaces s !! ip_addr (msg_iface m)) as [i|] eqn:Ei; simpl.
    + pose proof (Hf _ _ Ei) as Hi; simpl in Hi. rewrite Hi. apply elem_of_dom_2 in Ei.
      destruct (Z.eqb_spec (ip_addr (msg_iface m)) 0); simpl; symmetry;
        [apply bool_decide_eq_false_2; tauto|by apply bool_decide_eq_true_2].
    + symmetry. apply bool_decide_eq_false_2. apply not_elem_of_dom in Ei. tauto.
Qed.

(** ** A process without multi-sockets, on the connection of the first subscriber *)
Import ListBits.
#[local] Existing Instance no_instruments.
#[local] Existing Instance no_estimates.
#[local] Instance silent_os : OS := {| os_answer := fun _ _ => (-1, EINTR, []) |}.
Definition empty_process : process (IntSet.t (list bool)) unit := Process ∅ ∅ ∅ 0 ∅ thunks_empty [] 0.
Definition listens (m : cmm_msg) : list recv_answer := [NotReceived (-1) EINTR; Received m].
Definition init0 : init_env := InitEnv 7 0 [(-1, EINTR); (40, 0)] (listens (tells CMM_MSG_IFACE_LABELS wifi0)) 0.
Definition hears0 : list select_answer :=
  [SelInterrupted false; SelReady (listens (tells CMM_MSG_IFACE_LABELS cell0)); SelReady (listens (tells CMM_MSG_IFACE_DOWN wifi0))].
Definition quiet_kernel : kernel := Kernel (fun _ => 0) (fun _ => 0) false false.

Lemma process_in_step_witness : exists c,
  IPCThread quiet_kernel 40 hears0 (snd (scout_ipc_init quiet_kernel 40 500 init0 (ipc_start empty_process))) = (Ret false, c) /\
  scout_ipc_fd c = 7 /\
  dom (static_ifaces (ipc_process c)) = dom (net_interfaces (scout_run 3 40 writes0 (scout_start 3 net0) history0)) /\
  dom (static_ifaces (ipc_process c)) = {[11]}.
Proof.
  eexists. split; [vm_compute; reflexivity|]. split; [reflexivity|]. split; [|by vm_compute].
  eapply (process_in_step 3 40 writes0 net0 history0 4 (Sub 4 500) quiet_kernel 500 init0 (tells CMM_MSG_IFACE_LABELS wifi0)
    hears0 [tells CMM_MSG_IFACE_LABELS cell0; tells CMM_MSG_IFACE_DOWN wifi0] empty_process).
  - done.
  - apply writes0_whole.
  - done.
  - apply net0_filed.
  - apply history0_ok.
  - by vm_compute.
  - by vm_compute.
  - done.
  - by eexists.
  - repeat constructor; by eexists.
  - vm_compute. reflexivity.
  - reflexivity.
  - vm_compute. reflexivity.
Defined.

Lemma requests_answered_witness :
  let s := scout_run 3 40 (fun _ _ _ => 40) (scout_start 3 net0) [Changed cell0 false] in
  let ask op ip := handle_connection 40 (fun _ _ _ => 40) 5 (Whole (Msg op 0 500 (NetInterface ip 0 0 0 0))) s in
  get_local_interfaces 40 7 0 40 (Received <$> written (snd (ask CMM_MSG_GET_IFACES 0)) 5) =
    Some (Request _ (true, [wifi0; cell0]) true) /\
  exists answer, written (snd (ask CMM_MSG_IS_IP_CONNECTED 11)) 5 = [answer] /\
    is_ip_connected 40 7 0 40 (Received answer) = Request _ true true.
Proof.
  intros s ask.
  assert (scout_ok 3 s) as Hok.
  { apply (run_ok 3 40 (fun _ _ _ => 40)); [done|by right|by apply start_ok, net0_filed|done]. }
  assert (set_Forall (fun ip => 0 <= ip) (dom (net_interfaces s))) as Hpos by by_evaluation.
  split.
  - destruct (requests_answered 40 (fun _ _ _ => 40) s 5 (Msg CMM_MSG_GET_IFACES 0 500 (NetInterface 0 0 0 0 0)) 7 0
      eq_refl (fun _ _ _ => eq_refl) (ok_filed _ _ _ Hok) Hpos ltac:(lia) ltac:(lia) (snd (ask CMM_MSG_GET_IFACES 0)) ltac:(vm_compute; reflexivity))
      as [H _]. exact (H eq_refl).
  - destruct (requests_answered 40 (fun _ _ _ => 40) s 5 (Msg CMM_MSG_IS_IP_CONNECTED 0 500 (NetInterface 11 0 0 0 0)) 7 0
      eq_refl (fun _ _ _ => eq_refl) (ok_filed _ _ _ Hok) Hpos ltac:(lia) ltac:(lia) (snd (ask CMM_MSG_IS_IP_CONNECTED 11)) ltac:(vm_compute; reflexivity))
      as [_ H]. exact (H eq_refl).
Defined.
