(* ===== verification/Api.v ===== *)
(** The functions of libcmm.h and libcmm_irob.h (libcmm.cpp, libcmm_irob.cpp):
    each finds the object of its descriptor or IROB, and passes the call on. *)

From S2P Require Import Prelude Labels Scheduling Irob IntSet Control SenderIrob ReceiverIrob.
From S2P Require Import Lattice ReceiverLattice Chooser Thunks MultiSocket Socket Options Bootstrap Process.

Section api.
Context {IS I : Type} `{!IdSet IS} `{!InstrumentsChooser I} `{!NetEstimates} `{!OS}.
Context (k : kernel) (now : timeval).
Abbreviation P := (process IS I).
Implicit Types (fd id labels : Z) (buf : list byte) (vec : list (list byte)).

Definition lookup {A} fd (f : CMMSocket IS I -> M P A) : M P A := fun p => f (lookup_sock k now fd p) p.
Definition by_irob {A} id (f : CMMSocket IS I -> M P A) : M P A := fun p => f (lookup_by_irob k now id p) p.

Definition cmm_send fd buf flags labels rh arg : M P (api Z) :=
  lookup fd (fun s => v_send s buf flags labels rh arg).
Definition cmm_write fd buf labels rh arg : M P (api Z) := cmm_send fd buf 0 labels rh arg.
Definition cmm_writev fd vec labels rh arg : M P (api Z) := lookup fd (fun s => v_writev s vec labels rh arg).
Definition cmm_getpeername fd : M P (Z * list byte) := lookup fd v_getpeername.
Definition cmm_getsockname fd : M P (Z * list byte) := lookup fd v_getsockname.
Definition cmm_listen fd (backlog : Z) : M P Z := mc_listen fd backlog.
Definition cmm_accept fd env : M P (option Z * list byte) := mc_accept k fd env.
Definition cmm_recv fd (count flags : Z) (t : timeval) : M P recv_value := lookup fd (fun s => v_recv s count flags t).
Definition cmm_read fd (count : Z) (t : timeval) : M P recv_value := cmm_recv fd count 0 t.
Definition cmm_getsockopt fd (level optname : Z) (optlen : option Z) : M P (Z * option optvalue) :=
  lookup fd (fun s => v_getsockopt s level optname optlen).
Definition cmm_setsockopt fd (level optname : Z) (optval : list byte) : M P Z :=
  lookup fd (fun s => v_setsockopt s level optname optval).
Definition cmm_connect fd (addr : option Z) env : M P (option Z) := lookup fd (fun s => v_connect s addr env).
Definition cmm_socket (family type protocol : Z) : M P Z := create family type protocol.
Definition cmm_shutdown fd (how : Z) : M P Z := lookup fd (fun s => v_shutdown s how).
Definition cmm_close fd : M P Z := mc_close k fd.
Definition cmm_thunk_cancel fd labels (fn arg : Z) : M P Z := fun p =>
  let '(n, t) := cancel_thunk fd labels fn arg (thunk_hash p) in (Ret n, set_thunk_hash (fun _ => t) p).
Definition cmm_get_failure_timeout fd labels (ts : bool) : M P (Z * option (Z * Z)) :=
  lookup fd (fun s => v_get_failure_timeout s labels ts).
Definition cmm_set_failure_timeout fd labels (ts : option (Z * Z)) : M P Z :=
  lookup fd (fun s => v_set_failure_timeout s labels ts).
Definition CMM_PRIVATE_num_networks fd : M P Z := lookup fd v_num_networks.

(** ** IROBs *)
Definition begin_irob fd (deps : list Z) labels rh arg : M P (api Z) :=
  lookup fd (fun s => v_begin_irob s deps labels rh arg).
Definition end_irob id : M P (api Z) := by_irob id (fun s => v_end_irob s id).
Definition irob_send id buf : M P (api Z) := by_irob id (fun s => v_irob_send s id buf).
Definition irob_writev id vec : M P (api Z) := by_irob id (fun s => v_irob_writev s id vec).
Definition irob_relabel id (new_labels : Z) : M P Z := by_irob id (fun s => v_irob_relabel s id new_labels).

(** [cmm_send_with_deps] and [cmm_writev_with_deps]: [plain] sends without an IROB, [chunk] in the
    IROB; with the IROB's id when it was handed over. *)
Definition with_deps fd (deps : list Z) labels rh arg (plain : M P (api Z)) (chunk : Z -> M P (api Z))
    : M P (api Z * option Z) :=
  r ← begin_irob fd deps labels rh arg;
  match r with
  | Blocked l => mret (Blocked l, None)
  | Done id =>
      if id <? 0 then
        p ← get;
        if errno p =? EBADF then r ← plain; mret (r, None)
        else mret (Done id, None)
      else
        r ← chunk id;
        match r with
        | Blocked l => mret (Blocked l, None)
        | Done bytes_sent =>
            if bytes_sent <? 0 then mret (Done bytes_sent, None)
            else
              r ← end_irob id;
              match r with
              | Blocked l => mret (Blocked l, None)
              | Done rc => if rc <? 0 then mret (Done rc, None) else mret (Done bytes_sent, Some id)
              end
        end
  end.
Definition cmm_send_with_deps fd buf flags deps labels rh arg : M P (api Z * option Z) :=
  with_deps fd deps labels rh arg (cmm_send fd buf flags labels rh arg) (fun id => irob_send id buf).
Definition cmm_write_with_deps fd buf deps labels rh arg : M P (api Z * option Z) :=
  cmm_send_with_deps fd buf 0 deps labels rh arg.
Definition cmm_writev_with_deps fd vec deps labels rh arg : M P (api Z * option Z) :=
  with_deps fd deps labels rh arg (cmm_writev fd vec labels rh arg) (fun id => irob_writev id vec).

(** The cast to CMMSocketImpl is not checked. *)
Definition CMM_PRIVATE_drop_irob_and_dependents id : M P unit :=
  p ← get;
  match sock_of_irob p !! id ≫= fun fd => _ ← cmm_sock_hash p !! fd; Some fd with
  | Some fd => on_sock fd (on_msk (sk_drop_irob_and_dependents id))
  | None => lift (Trap UndefinedBehaviour)
  end.

(** ** The calls as data *)
Inductive call :=
| CSocket (family type protocol : Z)
| CSend fd buf (flags labels : Z) (rh : option Z) (arg : Z)
| CWritev fd vec (labels : Z) (rh : option Z) (arg : Z)
| CGetpeername fd
| CGetsockname fd
| CListen fd (backlog : Z)
| CAccept fd (env : attempt_env IS I)
| CRecv fd (count flags : Z) (t : timeval)
| CGetsockopt fd (level optname : Z) (optlen : option Z)
| CSetsockopt fd (level optname : Z) (optval : list byte)
| CConnect fd (addr : option Z) (env : attempt_env IS I)
| CShutdown fd (how : Z)
| CClose fd
| CThunkCancel fd (labels fn arg : Z)
| CGetFailureTimeout fd (labels : Z) (ts : bool)
| CSetFailureTimeout fd (labels : Z) (ts : option (Z * Z))
| CNumNetworks fd
| CBeginIrob fd (deps : list Z) (labels : Z) (rh : option Z) (arg : Z)
| CEndIrob id
| CIrobSend id buf
| CIrobWritev id vec
| CIrobRelabel id (labels : Z)
| CSendWithDeps fd buf (flags : Z) (deps : list Z) (labels : Z) (rh : option Z) (arg : Z)
| CWritevWithDeps fd vec (deps : list Z) (labels : Z) (rh : option Z) (arg : Z).

Inductive value :=
| VRc (rc : Z)
| VApi (r : api Z)
| VAddr (rc : Z) (addr : list byte)
| VRecv (r : recv_value)
| VOption (rc : Z) (v : option optvalue)
| VAttempt (rc : option Z)
| VAccept (rc : option Z) (addr : list byte)
| VTimeout (rc : Z) (ts : option (Z * Z))
| VDeps (r : api Z) (id : option Z).

Definition cmm_call (c : call) : M P value :=
  match c with
  | CSocket f t p => rc ← cmm_socket f t p; mret (VRc rc)
  | CSend fd buf flags labels rh arg => r ← cmm_send fd buf flags labels rh arg; mret (VApi r)
  | CWritev fd vec labels rh arg => r ← cmm_writev fd vec labels rh arg; mret (VApi r)
  | CGetpeername fd => cmm_getpeername fd ≫= fun (r : Z * list byte) => mret (VAddr r.1 r.2)
  | CGetsockname fd => cmm_getsockname fd ≫= fun (r : Z * list byte) => mret (VAddr r.1 r.2)
  | CListen fd n => rc ← cmm_listen fd n; mret (VRc rc)
  | CAccept fd env => cmm_accept fd env ≫= fun (r : option Z * list byte) => mret (VAccept r.1 r.2)
  | CRecv fd n flags t => r ← cmm_recv fd n flags t; mret (VRecv r)
  | CGetsockopt fd level name len =>
      cmm_getsockopt fd level name len ≫= fun (r : Z * option optvalue) => mret (VOption r.1 r.2)
  | CSetsockopt fd level name v => rc ← cmm_setsockopt fd level name v; mret (VRc rc)
  | CConnect fd addr env => rc ← cmm_connect fd addr env; mret (VAttempt rc)
  | CShutdown fd how => rc ← cmm_shutdown fd how; mret (VRc rc)
  | CClose fd => rc ← cmm_close fd; mret (VRc rc)
  | CThunkCancel fd labels fn arg => rc ← cmm_thunk_cancel fd labels fn arg; mret (VRc rc)
  | CGetFailureTimeout fd labels ts =>
      cmm_get_failure_timeout fd labels ts ≫= fun (r : Z * option (Z * Z)) => mret (VTimeout r.1 r.2)
  | CSetFailureTimeout fd labels ts => rc ← cmm_set_failure_timeout fd labels ts; mret (VRc rc)
  | CNumNetworks fd => rc ← CMM_PRIVATE_num_networks fd; mret (VRc rc)
  | CBeginIrob fd deps labels rh arg => r ← begin_irob fd deps labels rh arg; mret (VApi r)
  | CEndIrob id => r ← end_irob id; mret (VApi r)
  | CIrobSend id buf => r ← irob_send id buf; mret (VApi r)
  | CIrobWritev id vec => r ← irob_writev id vec; mret (VApi r)
  | CIrobRelabel id labels => rc ← irob_relabel id labels; mret (VRc rc)
  | CSendWithDeps fd buf flags deps labels rh arg =>
      cmm_send_with_deps fd buf flags deps labels rh arg ≫= fun (r : api Z * option Z) => mret (VDeps r.1 r.2)
  | CWritevWithDeps fd vec deps labels rh arg =>
      cmm_writev_with_deps fd vec deps labels rh arg ≫= fun (r : api Z * option Z) => mret (VDeps r.1 r.2)
  end.
End api.
Arguments call : clear implicits.
