(* ===== verification/Receiver.v ===== *)
(** The receiver thread of a csocket: csocket_receiver.h/.cpp.

    A handler runs on the multi-socket's state, for the csocket [cs] the
    message came in on.  A [message] is the header with what follows it on the
    stream, so a read that comes short is a list of the wrong length.  The
    header's union member that its type does not select cannot be read from
    bytes: a header of the model with another member is undefined behaviour.
    Network measurements ([report_ack]), timing output and thread wake-ups are
    not modelled. *)

From S2P Require Import Prelude Labels Scheduling Irob IntSet Control SenderIrob ReceiverIrob.
From S2P Require Import Lattice ReceiverLattice Chooser Thunks MultiSocket Socket.

(** The table [handlers] has eleven pointers to member functions. *)
Definition num_handlers : Z := 11.
Definition sizeof_handlers : Z := num_handlers * 16.

Section receiver.
Context {IS I : Type} `{!IdSet IS} `{!InstrumentsChooser I} `{!NetEstimates}.
Context (k : kernel) (now : timeval) (cs : Z).
Abbreviation SK := (CMMSocketImpl IS I).
Implicit Types (s : SK) (id : Z) (m : message) (hdr : CMMSocketControlHdr).

(** ** Reading what follows a header *)

(** [read_deps_array]; [int datalen = numdeps * sizeof(irob_id_t)]. *)
Definition read_ids (n : Z) (ids : list Z) : outcome (list Z) :=
  if n <=? 0 then Ret []
  else
    let datalen := to_int (n * 8) in
    if datalen =? n * 8 then
      if Z.of_nat (length ids) =? n then Ret (ntohl <$> ids) else Throw ControlException
    else if datalen <? 0 then Throw ControlException
    else Trap UndefinedBehaviour.

Definition read_data_buffer (datalen : Z) (data : list byte) : outcome (list byte) :=
  if datalen <=? 0 then Throw ControlException
  else if Z.of_nat (length data) =? datalen then Ret data else Throw ControlException.

(** ** IROBs *)

Definition inc_lattice s := rl_irobs (incoming_irobs s).

(** The receiver IROB of an identifier. *)
Definition the_receiver id : M SK PendingReceiverIROB :=
  s ← get;
  lift (match rfind id (incoming_irobs s) with Some p => Ret p | None => Trap AssertFailed end).

Definition insert_incoming (p : PendingReceiverIROB) : M SK bool :=
  s ← get;
  r ← lift (insert_locked p false (inc_lattice s));
  let '(b, l) := r in
  modify (upd_incoming_irobs (set_irobs l));; mret b.

(** [incoming_irobs.make_placeholder(id)], its insertion and [ASSERT(ret)]. *)
Definition insert_placeholder id : M SK unit :=
  b ← insert_incoming (make_placeholder id); lift (assert_ b).

Definition release_ready id : M SK unit :=
  p ← the_receiver id;
  s ← get;
  r ← lift (release_if_ready ReadyIROB id p (incoming_irobs s));
  modify (upd_incoming_irobs (fun _ => r)).

Definition schedule_ack id (valid_for_measurement : bool) : M SK unit :=
  let completion_time := if valid_for_measurement then now else Timeval 0 0 in
  modify (upd_csock cs (set_cs_indexes (index_insert WAITING_ACKS (sched_ack id completion_time 0)))).

(** The end of the three handlers of IROB data: release it when it can be read,
    and acknowledge it when it is complete. *)
Definition release_and_ack id : M SK unit :=
  release_ready id;;
  p ← the_receiver id;
  c ← lift (r_is_complete p);
  when ((c : bool) && negb (placeholder (rbase p))) (schedule_ack id true).

Definition do_begin_irob m : M SK unit :=
  let hdr := msg_hdr m in
  lift (assert_ (ntohs (hdr_type hdr) =? CMM_CONTROL_MSG_BEGIN_IROB));;
  match hdr_op hdr with
  | OpBeginIrob wid wnumdeps =>
      let id := ntohl wid in
      let numdeps := to_int (ntohl wnumdeps) in
      deps ← lift (read_ids numdeps (msg_ids m));
      p ← lift (receiver_new id deps [] (ntohl (hdr_send_labels hdr)));
      inserted ← insert_incoming p;
      when inserted (release_and_ack id)
  | _ => lift (Trap UndefinedBehaviour)
  end.

(** [do_end_irob]; the resend request it builds is never scheduled
    ([resend_request = false]), so only its effect-free computation, with the
    assertions of [is_complete], is kept. *)
Definition do_end_irob m : M SK unit :=
  let hdr := msg_hdr m in
  lift (assert_ (ntohs (hdr_type hdr) =? CMM_CONTROL_MSG_END_IROB));;
  match hdr_op hdr with
  | OpEndIrob wid wbytes wchunks =>
      let id := ntohl wid in
      s ← get;
      if negb (bool_decide (is_Some (rfind id (incoming_irobs s)))) &&
         past_irob_exists id (inc_lattice s)
      then schedule_ack id false
      else
        when (negb (bool_decide (is_Some (rfind id (incoming_irobs s))))) (insert_placeholder id);;
        p ← the_receiver id;
        r ← lift (r_finish p (ntohl wbytes) (to_int (ntohl wchunks)));
        let '(finished, p') := r in
        modify (upd_incoming_irobs (rupdate id (fun _ => p')));;
        when (negb finished) (c ← lift (r_is_complete p'); let _ : bool := c in mret tt);;
        release_and_ack id
  | _ => lift (Trap UndefinedBehaviour)
  end.

Definition do_irob_chunk m : M SK unit :=
  let hdr := msg_hdr m in
  lift (assert_ (ntohs (hdr_type hdr) =? CMM_CONTROL_MSG_IROB_CHUNK));;
  match hdr_op hdr with
  | OpIrobChunk wid wseqno woffset wdatalen =>
      let id := ntohl wid in
      let datalen := to_int (ntohl wdatalen) in
      buf ← lift (read_data_buffer datalen (msg_data m));
      update_net_restriction_stats cs (ntohl (hdr_send_labels hdr)) 0 datalen;;
      s ← get;
      if negb (bool_decide (is_Some (rfind id (incoming_irobs s)))) &&
         past_irob_exists id (inc_lattice s)
      then mret tt
      else
        when (negb (bool_decide (is_Some (rfind id (incoming_irobs s))))) (insert_placeholder id);;
        p ← the_receiver id;
        r ← lift (r_add_chunk p (Chunk id (ntohl wseqno) (ntohl woffset) (ntohl wdatalen) (Some buf)));
        let '(added, p') := r in
        modify (upd_incoming_irobs (rupdate id (fun _ => p')));;
        when (negb added)
          (c ← lift (r_is_complete p'); when (negb (c : bool)) (throw FatalError));;
        release_and_ack id
  | _ => lift (Trap UndefinedBehaviour)
  end.

(** ** Acknowledgements and requests *)

Fixpoint acks_received (ids : list Z) : M SK unit :=
  match ids with
  | [] => mret tt
  | id :: ids => ack_received id;; acks_received ids
  end.

Definition do_ack m : M SK unit :=
  let hdr := msg_hdr m in
  lift (assert_ (ntohs (hdr_type hdr) =? CMM_CONTROL_MSG_ACK));;
  match hdr_op hdr with
  | OpAck wnum wid _ _ =>
      ack_received (ntohl wid);;
      ids ← lift (read_ids (ntohl wnum) (msg_ids m));
      acks_received ids
  | _ => lift (Trap UndefinedBehaviour)
  end.

Definition do_request_resend m : M SK unit :=
  let hdr := msg_hdr m in
  lift (assert_ (ntohs (hdr_type hdr) =? CMM_CONTROL_MSG_RESEND_REQUEST));;
  match hdr_op hdr with
  | OpResendRequest wid wreq wseqno wnext =>
      resend_request_received (ntohl wid) (ntohl wreq) (ntohl wseqno) (to_int (ntohl wnext))
  | _ => lift (Trap UndefinedBehaviour)
  end.

Definition do_data_check m : M SK unit :=
  let hdr := msg_hdr m in
  lift (assert_ (ntohs (hdr_type hdr) =? CMM_CONTROL_MSG_DATA_CHECK));;
  match hdr_op hdr with
  | OpDataCheck wid => data_check_requested (ntohl wid)
  | _ => lift (Trap UndefinedBehaviour)
  end.

(** ** Interfaces and shutdown *)

Definition do_new_interface m : M SK unit :=
  let hdr := msg_hdr m in
  lift (assert_ (ntohs (hdr_type hdr) =? CMM_CONTROL_MSG_NEW_INTERFACE));;
  match hdr_op hdr with
  | OpNewInterface i =>
      setup k (NetInterface (ip_addr i) (ntohl (bandwidth_down i)) (ntohl (bandwidth_up i))
                 (ntohl (RTT i)) (to_int (ntohl (net_type i)))) false
  | _ => lift (Trap UndefinedBehaviour)
  end.

Definition do_down_interface m : M SK unit :=
  let hdr := msg_hdr m in
  lift (assert_ (ntohs (hdr_type hdr) =? CMM_CONTROL_MSG_DOWN_INTERFACE));;
  match hdr_op hdr with
  | OpDownInterface ip => teardown (NetInterface ip 0 0 0 0) false
  | _ => lift (Trap UndefinedBehaviour)
  end.

Definition do_goodbye m : M SK unit :=
  lift (assert_ (ntohs (hdr_type (msg_hdr m)) =? CMM_CONTROL_MSG_GOODBYE));;
  s ← get;
  if shutting_down s then goodbye_acked;; throw ThreadFinish
  else goodbye k true.

(** ** Dispatch *)

Definition unrecognized_control_msg : M SK unit := throw ControlException.

(** An index past the table is an out-of-bounds read. *)
Definition handler (type : Z) : option (message -> M SK unit) :=
  match type with
  | 0 => Some (fun _ => unrecognized_control_msg)
  | 1 => Some do_begin_irob
  | 2 => Some do_end_irob
  | 3 => Some do_irob_chunk
  | 4 => Some (fun _ => unrecognized_control_msg)
  | 5 => Some do_new_interface
  | 6 => Some do_down_interface
  | 7 => Some do_ack
  | 8 => Some do_goodbye
  | 9 => Some do_request_resend
  | 10 => Some do_data_check
  | _ => None
  end.

Definition dispatch m : M SK unit :=
  let type := wrap_s 16 (ntohs (hdr_type (msg_hdr m))) in
  if (type <? 0) || (sizeof_handlers <=? type) then unrecognized_control_msg
  else
    f ← lift (access (handler type));
    f m.

(** One round of [Run]: a fatal error says goodbye before it goes on. *)
Definition run_message m : M SK unit := fun s =>
  match dispatch m s with
  | (Throw FatalError, s') => (goodbye k false;; throw FatalError) s'
  | r => r
  end.
End receiver.
