(* ===== verification/Delivery.v ===== *)
(** What the receiving side does with what the peer sends.

    A [world] says which IROBs the peer has begun: their dependencies, labels,
    the chunks they were cut into, and whether they were ended.  The messages of those IROBs arrive in
    any order and any number of times (a message may take any of several
    connections, and is sent again after a failure), interleaved with the
    application's reads.  [delivery_inv] is the invariant of the multi-socket
    under such a history, [delivered] what the application has been given. *)

From S2P Require Import Prelude Labels Scheduling Irob IntSet Chunks Control ReceiverIrob.
From S2P Require Import ReceiverSpec Lattice LatticeRep LatticeSpec ReceiverLattice ReceiverOrder.
From S2P Require Import RecvSpec.

Implicit Types (o p : PendingReceiverIROB) (id : Z).

Record sent_irob := Sent {
  si_deps : list Z;
  si_labels : Z;
  si_cut : list irob_chunk_data;
  si_ended : bool                (* there is an End_IROB, and the cutting is final *)
}.
Abbreviation world := (gmap Z sent_irob).

Definition cut_of (W : world) id : list irob_chunk_data :=
  match W !! id with Some w => si_cut w | None => [] end.
Definition ended (W : world) id : Prop := exists w, W !! id = Some w /\ si_ended w = true.

(** ** Objects *)

Lemma r_add_chunk_released p c b p' : r_add_chunk p c = Ret (b, p') -> released p' = released p.
Proof.
  unfold r_add_chunk. intros E. apply bind_ret_inv in E as ([] & _ & E); simpl in E.
  { by simplify_eq. }
  apply bind_ret_inv in E as (u & _ & E). destruct (_ && _) in E; [by simplify_eq|].
  apply bind_ret_inv in E as (ex & _ & E).
  destruct (_ <=? ch_seqno c) in E; destruct (has_data ex) in E;
    try destruct (_ || _) in E; by simplify_eq.
Qed.

Lemma add_chunks_released l p p' : add_chunks p l = Ret p' -> released p' = released p.
Proof.
  revert p. induction l as [|c l IH]; intros p E; simpl in E; [by simplify_eq|].
  apply bind_ret_inv in E as ([b p1] & E1 & E2). apply IH in E2. rewrite E2.
  by eapply r_add_chunk_released.
Qed.

Lemma r_subsume_released p other r : r_subsume p other = Ret r -> released r = released p.
Proof. unfold r_subsume. intros E. minv. subst r. simpl. by apply add_chunks_released in Hm. Qed.

Lemma r_finish_released p n c b p' : r_finish p n c = Ret (b, p') -> released p' = released p.
Proof.
  unfold r_finish. intros E. apply bind_ret_inv in E as ([] & _ & E); [by simplify_eq|].
  destruct (_ || _) in E; apply bind_ret_inv in E as (u & _ & E); [|by simplify_eq].
  destruct (_ <? _) in E; by simplify_eq.
Qed.

Lemma cutting_nil : cutting [].
Proof. by split. Qed.

Lemma total_len_pos cut : cutting cut -> cut <> [] -> 0 < total_len cut.
Proof.
  intros [Hl _ _ Hp _ _] Hne. destruct cut as [|c cut]; [done|]. rewrite total_len_cons.
  apply Forall_cons in Hp as [Hc Hp].
  apply layout_ok, Forall_cons in Hl as [_ Hl]. pose proof (total_len_nonneg cut Hl). lia.
Qed.

(** What has happened so far: the bytes the application has been given of every
    IROB, and the parts of it that have arrived. *)
Inductive part := PBegin | PChunk (i : nat) | PEnd.

Record progress := Progress {
  given : Z -> list byte;
  arrived : Z -> part -> Prop
}.

Definition no_progress : progress := Progress (fun _ => []) (fun _ _ => False).
Definition give id (l : list byte) (δ : progress) : progress :=
  Progress (fun j => if decide (j = id) then given δ id ++ l else given δ j) (arrived δ).
Definition arrive_part id q (δ : progress) : progress :=
  Progress (given δ) (fun j q' => arrived δ j q' \/ (j = id /\ q' = q)).

(** The parts of [id] that have arrived are in [o]. *)
Record has_parts (W : world) (δ : progress) id o : Prop := {
  hp_chunk i c : arrived δ id (PChunk i) -> cut_of W id !! i = Some c -> chunks (rbase o) !! i = Some c;
  hp_end : arrived δ id PEnd -> complete (rbase o) = true
}.

(** Where an object comes from: it is as the arrivals of its IROB's chunks made
    it and nobody has read from it, or it is complete and is being read. *)
Record origin (W : world) (δ : progress) id o : Prop := {
  og_real : placeholder (rbase o) = false ->
    exists w, W !! id = Some w /\ send_labels (rbase o) = Some (si_labels w);
  og_open : complete (rbase o) = true -> ended W id;
  og_data :
    (recv_ok (cut_of W id) o /\ tail_filled (chunks (rbase o)) /\ given δ id = [] /\
     has_parts W δ id o) \/
    (r_is_complete o = Ret true /\ reading_ok o /\ 0 < rnum_bytes o /\
     placeholder (rbase o) = false /\ given δ id ++ unread o = bytes_of_chunks (cut_of W id))
}.

Section objects.
Context (W : world).
Context (HW : forall id w, W !! id = Some w ->
  cutting (si_cut w) /\ (si_ended w = true -> si_cut w <> [])).
Implicit Types (δ : progress).

Lemma cut_of_cutting id : cutting (cut_of W id).
Proof.
  unfold cut_of. destruct (W !! id) as [w|] eqn:E; [by apply (HW id)|apply cutting_nil].
Qed.

Lemma origin_complete δ id o :
  origin W δ id o -> exists b, r_is_complete o = Ret b /\
    (b = true -> reading_ok o /\ 0 < rnum_bytes o /\ given δ id ++ unread o = bytes_of_chunks (cut_of W id)).
Proof.
  intros [Hr Hop [(Hok & _ & Hd & _)|(Hc & Hrd & Hpos & _ & Hd)]]; [|by exists true].
  pose proof (cut_of_cutting id) as Hcut.
  destruct (r_is_complete_spec _ Hcut o Hok) as (b & Hb & Hbs). exists b. split; [done|].
  intros Ht. destruct (proj1 Hbs Ht) as [Hcm Hch].
  destruct (complete_reading _ o Hcut Hok Hch) as [Hrd Hu]. rewrite Hd, Hu.
  split; [done|]. split; [|done]. rewrite (ro_num _ _ Hok), (ro_bytes _ _ Hok), Hch.
  apply total_len_pos; [done|]. destruct (Hop Hcm) as (w & Ew & He). unfold cut_of. rewrite Ew.
  by apply (HW id).
Qed.

(** A complete object is one of an IROB that was ended. *)
Lemma r_is_complete_complete o : r_is_complete o = Ret true -> complete (rbase o) = true.
Proof.
  unfold r_is_complete. intros E. apply bind_ret_inv in E as (u & _ & E).
  apply bind_ret_inv in E as (v & _ & E). destruct (negb _); [done|]. destruct (negb _); [done|].
  injection E as E. by apply andb_true_iff in E as [_ E].
Qed.

Lemma origin_ended δ id o : origin W δ id o -> r_is_complete o = Ret true -> ended W id.
Proof. intros [_ H _] E. by apply H, r_is_complete_complete. Qed.

Lemma origin_obj_ok δ id o : origin W δ id o -> obj_ok o.
Proof.
  intros H. destruct (origin_complete δ id o H) as (b & Hb & Hc). split.
  - exists b. split; [done|]. intros Ht. destruct (Hc Ht) as (? & ? & _). done.
  - intros Hp. destruct (og_real _ _ _ _ H Hp) as (w & _ & ->). eauto.
Qed.

Lemma recv_ok_same cut o o' : same_data o o' -> recv_ok cut o -> recv_ok cut o'.
Proof.
  intros [E1 E2 E3 E4 E5 E6 E7 E8 E9 _ _] [H1 H2 H3 H4 H5 H6].
  split; rewrite ?E1, ?E2, ?E3, ?E4, ?E5, ?E6, ?E7, ?E8, ?E9; done.
Qed.

Lemma origin_same δ id o o' : origin W δ id o -> same_data o o' -> origin W δ id o'.
Proof.
  intros [Hr Hop Hd] Hs. split.
  - rewrite (sd_placeholder _ _ Hs), (sd_labels _ _ Hs). done.
  - by rewrite (sd_complete _ _ Hs).
  - destruct Hd as [(Hok & Ht & Hd & [Hp1 Hp2])|(Hc & Hrd & Hpos & Hp & Hd)].
    + left. split; [by eapply recv_ok_same|]. rewrite (sd_chunks _ _ Hs). split; [done|].
      split; [done|]. split; rewrite ?(sd_chunks _ _ Hs), ?(sd_complete _ _ Hs); done.
    + right. rewrite (same_data_is_complete _ _ Hs), (same_data_unread _ _ Hs),
        (sd_num _ _ Hs), (sd_placeholder _ _ Hs).
      split_and!; try done. by eapply same_data_reading.
Qed.

Definition nothing δ id : Prop := given δ id = [] /\ forall q, ~ arrived δ id q.

Lemma nothing_parts δ id o : nothing δ id -> has_parts W δ id o.
Proof. intros [_ H]. split; [intros i c Hc|intros Hc]; by destruct (H _ Hc). Qed.

Lemma origin_placeholder δ id : nothing δ id -> origin W δ id (receiver_placeholder id).
Proof.
  intros Hd. split; [done|done|]. left.
  split; [|split_and!; [by left|apply Hd|by apply nothing_parts]].
  split; simpl; try done. by left.
Qed.

(** A placeholder has not been read from. *)
Lemma origin_unannounced δ id o :
  origin W δ id o -> placeholder (rbase o) = true ->
  recv_ok (cut_of W id) o /\ tail_filled (chunks (rbase o)) /\ given δ id = [] /\
  has_parts W δ id o.
Proof. intros [_ _ [?|(_ & _ & _ & Hp & _)]] Hph; [done|congruence]. Qed.

(** A read of an IROB; reads of others. *)
Lemma origin_rest δ n id o o' :
  origin W δ id o -> deliverable o -> rest_of n o o' ->
  origin W (give id (take n (unread o)) δ) id o'.
Proof.
  intros Ho [Hc Hrdy] [R1 R2 R3 R4 R5 R6].
  destruct (origin_complete δ id o Ho) as (b & Hb & Hbs). rewrite Hc in Hb. injection Hb as <-.
  destruct (Hbs eq_refl) as (_ & _ & Hd).
  assert (placeholder (rbase o) = false) as Hph.
  { unfold is_ready in Hrdy. by apply andb_true_iff in Hrdy as [?%negb_true_iff _]. }
  destruct (og_real _ _ _ _ Ho Hph) as (w & Ew & El).
  split; [rewrite R5, R6; eauto|intros _; by eapply origin_ended|]. right. simpl. rewrite decide_True, R3, R5, <- app_assoc, take_drop by done.
  done.
Qed.

Lemma origin_other δ δ' id o :
  given δ' id = given δ id -> (forall q, arrived δ' id q -> arrived δ id q) ->
  origin W δ id o -> origin W δ' id o.
Proof.
  intros E1 E2 [H1 H2 H3]. split; [done..|]. rewrite E1.
  destruct H3 as [(? & ? & ? & [K1 K2])|?]; [left|by right]. split_and!; try done. split; auto.
Qed.

(** A part that was already there, or does not matter any more. *)
Lemma origin_arrive δ id q o :
  origin W δ id o -> (r_is_complete o = Ret true \/
    match q with
    | PBegin => True
    | PChunk i => forall c, cut_of W id !! i = Some c -> chunks (rbase o) !! i = Some c
    | PEnd => complete (rbase o) = true
    end) -> origin W (arrive_part id q δ) id o.
Proof.
  intros Ho Hq. destruct (origin_complete δ id o Ho) as (b & Hb & _).
  pose proof (cut_of_cutting id) as Hcut. destruct Ho as [H1 H2 H3]. split; [done..|].
  destruct H3 as [(Hok & ? & ? & [K1 K2])|?]; [left|by right]. split_and!; try done.
  destruct (r_is_complete_spec _ Hcut o Hok) as (b' & Hb' & Hbs). rewrite Hb in Hb'. injection Hb' as <-.
  destruct b.
  - destruct (proj1 Hbs eq_refl) as [Hc1 Hc2]. split; [|done]. intros i c _. by rewrite Hc2.
  - destruct Hq as [?|Hq]; [congruence|]. split; simpl.
    + intros i c [?|[_ <-]]; [by apply K1|apply Hq].
    + intros [?|[_ <-]]; [by apply K2|exact Hq].
Qed.

(** A Begin_IROB for an IROB not known yet, or known as a placeholder. *)
Lemma origin_begin δ id w p e :
  W !! id = Some w -> receiver_new id (si_deps w) [] (si_labels w) = Ret p ->
  match e with
  | None => nothing δ id
  | Some o => origin W δ id o /\ placeholder (rbase o) = true
  end ->
  exists p1, (match e with None => Ret p | Some o => r_subsume p o end) = Ret p1 /\
    origin W δ id p1 /\ released p1 = false /\ placeholder (rbase p1) = false.
Proof.
  intros Ew Ep He. destruct (HW id w Ew) as [Hcut _].
  assert (cut_of W id = si_cut w) as Ecut by (unfold cut_of; by rewrite Ew).
  destruct e as [o|].
  - destruct He as [Ho Hph]. destruct (origin_unannounced δ id o Ho Hph) as (Hok & Ht & Hd & [P1 P2]).
    rewrite Ecut in Hok.
    destruct (r_subsume_spec_core (si_cut w) id (si_deps w) (si_labels w) p o Hcut Ep Hok Ht)
      as (r & Er & Hokr & Hch & Hcmp & _ & Hl & _ & Hph').
    exists r. split; [done|]. split; [|split; [|done]].
    + split; [intros _; by exists w|rewrite Hcmp; apply (og_open _ _ _ _ Ho)|]. left. rewrite Ecut, Hch.
      split_and!; try done. split; by rewrite ?Hch, ?Hcmp.
    + rewrite (r_subsume_released _ _ _ Er). injection Ep as <-. done.
  - exists p. split; [done|]. injection Ep as <-. split; [|done].
    split; [intros _; by exists w|done|]. left. rewrite Ecut.
    split; [|split_and!; [by left|apply He|by apply nothing_parts]]. split; simpl; try done. by left.
Qed.

(** ** Data that arrives for an object *)

Lemma complete_rejects p c : r_is_complete p = Ret true -> r_add_chunk p c = Ret (false, p).
Proof. intros E. unfold r_add_chunk. by rewrite E. Qed.

Lemma complete_finished p n c : r_is_complete p = Ret true -> r_finish p n c = Ret (false, p).
Proof. intros E. unfold r_finish. by rewrite E. Qed.

(** A change of the chunk queue and the completion flag leaves the links alone. *)
Lemma same_links_chunks f b (c : IrobCore) : same_links c (set_complete b (set_chunks f c)).
Proof. by split_and!. Qed.

(** What both kinds of data guarantee of the object they change. *)
Record data_step δ id q o o' : Prop := {
  ds_origin : origin W (arrive_part id q δ) id o';
  ds_links : same_links (rbase o) (rbase o');
  ds_released : released o' = released o;
  ds_complete : r_is_complete o = Ret true -> o' = o
}.

Lemma data_step_refl δ id q o :
  origin W δ id o -> r_is_complete o = Ret true -> data_step δ id q o o.
Proof. intros H Hc. split; try done. apply origin_arrive; [done|by left]. Qed.

Lemma origin_meta δ id w o o' :
  W !! id = Some w -> origin W δ id o ->
  placeholder (rbase o') = placeholder (rbase o) -> send_labels (rbase o') = send_labels (rbase o) ->
  recv_ok (cut_of W id) o' -> tail_filled (chunks (rbase o')) -> given δ id = [] ->
  has_parts W δ id o' -> (complete (rbase o') = true -> complete (rbase o) = true \/ ended W id) ->
  origin W δ id o'.
Proof.
  intros Ew [Hr Hop _] E1 E2 Hok Ht Hd Hp Hc. split; [by rewrite E1, E2| |by left].
  intros H. destruct (Hc H); auto.
Qed.

Lemma origin_chunk δ id w o i c :
  W !! id = Some w -> origin W δ id o -> si_cut w !! i = Some c ->
  exists b o', r_add_chunk o c = Ret (b, o') /\ data_step δ id (PChunk i) o o' /\
    (b = false -> r_is_complete o' = Ret true).
Proof.
  intros Ew Ho Hc. pose proof (cut_of_cutting id) as Hcut.
  assert (cut_of W id !! i = Some c) as Hc' by (unfold cut_of; by rewrite Ew).
  pose proof Ho as [_ _ [(Hok & Ht & Hd & Hp)|(Hcm & _)]].
  2:{ exists false, o. rewrite complete_rejects by done. split; [done|]. split; [|done].
      by apply data_step_refl. }
  destruct (r_add_chunk_spec _ Hcut o c i Hok Hc') as (b & o' & E & Hok' & Ecm & Hb & Hci & Hcj).
  exists b, o'. split; [done|].
  assert (r_is_complete o = Ret true -> o' = o) as Heq.
  { intros Hcm. rewrite complete_rejects in E by done. by simplify_eq. }
  assert (arrive (cut_of W id) (ArriveChunk i) o = Ret o') as Ea.
  { simpl. rewrite Hc'. cbn [access mbind outcome_bind]. by rewrite E. }
  destruct (r_add_chunk_core _ _ _ _ E) as [f Ef].
  split; [split|].
  - apply origin_arrive; [|right; congruence].
    apply (origin_meta δ id w o); try done; [by rewrite Ef|by rewrite Ef|..].
    + apply (arrive_tail _ (ArriveChunk i) o o' Hcut Hok); [by eapply lookup_lt_Some|done|done].
    + destruct Hp as [P1 P2]. split; [|by rewrite Ecm]. intros j c' Hj Hc2.
      destruct (decide (j = i)) as [->|Hne]; [congruence|]. apply Hcj; [|done|by apply P1].
      pose proof (cut_data _ Hcut) as Hd2. rewrite Forall_forall in Hd2. apply Hd2.
      by eapply list_elem_of_lookup_2.
    + left. congruence.
  - rewrite Ef. by split_and!.
  - by eapply r_add_chunk_released.
  - done.
  - intros ->. rewrite (Heq (Hb eq_refl)). by apply Hb.
Qed.

Lemma r_finish_core p n c b p' :
  r_finish p n c = Ret (b, p') -> exists b', rbase p' = set_complete b' (rbase p).
Proof.
  unfold r_finish. intros E. apply bind_ret_inv in E as ([] & _ & E).
  { simplify_eq. exists (complete (rbase p')). by destruct p' as [[] ? ? ? ? ? ? ? ?]. }
  exists true. destruct (_ || _) in E; apply bind_ret_inv in E as (u & _ & E); [|by simplify_eq].
  destruct (_ <? _) in E; by simplify_eq.
Qed.

Lemma origin_end δ id w o :
  W !! id = Some w -> si_ended w = true -> origin W δ id o ->
  exists b o', r_finish o (total_len (si_cut w)) (Z.of_nat (length (si_cut w))) = Ret (b, o') /\
    data_step δ id PEnd o o'.
Proof.
  intros Ew Hend Ho. pose proof (cut_of_cutting id) as Hcut.
  assert (cut_of W id = si_cut w) as Ecut by (unfold cut_of; by rewrite Ew).
  pose proof Ho as [_ _ [(Hok & Ht & Hd & Hp)|(Hcm & _)]].
  2:{ exists false, o. rewrite complete_finished by done. split; [done|]. by apply data_step_refl. }
  rewrite Ecut in Hok, Hcut.
  destruct (r_finish_spec _ Hcut o Hok) as (b & o' & E & Hok' & Ecmp & Ech).
  exists b, o'. split; [done|]. destruct (r_finish_core _ _ _ _ _ E) as [b' Eb].
  split.
  - apply origin_arrive; [|by right].
    eapply (origin_meta δ id w o); rewrite ?Ecut, ?Ech, ?Eb; try done.
    { destruct Hp as [P1 P2]. split; by rewrite ?Ech. }
    intros _. right. by exists w.
  - rewrite Eb. by split_and!.
  - by eapply r_finish_released.
  - intros Hcm. rewrite complete_finished in E by done. by simplify_eq.
Qed.
End objects.

(** ** The lattice under the messages *)

Record world_ok (lo hi : Z) (W : world) : Prop := {
  wo_cut id w : W !! id = Some w -> cutting (si_cut w) /\ (si_ended w = true -> si_cut w <> []);
  wo_id id w : W !! id = Some w -> in_window lo hi id;
  wo_deps id w : W !! id = Some w -> Forall (in_window lo hi) (si_deps w)
}.

Section lattice.
Context {IS : Type} `{!IdSet IS} `{!IdSetLaws IS}.
Context (lo hi : Z).
Context (Hlo : 0 <= lo) (Hhi : hi <= 2 ^ 63) (Hwin : hi - lo < 2 ^ 31).
Context (W : world) (HW : world_ok lo hi W).
Implicit Types (r : rlattice IS) (a : alattice PendingReceiverIROB) (h : gmap Z (gset Z)).
Implicit Types (δ : progress).

(** The invariant, with [X] the IROBs that may have become deliverable. *)
Record delivery_inv (X : gset Z) δ h r a : Prop := {
  di_rl : rl_inv lo hi (origin W δ) None X h r a;
  di_fresh k : live a !! k = None -> k ∉ finished a -> nothing δ k;
  di_past k : k ∈ finished a -> ended W k /\ given δ k = bytes_of_chunks (cut_of W k);
  di_deps id D : h !! id = Some D ->
    exists w, W !! id = Some w /\ D = list_to_set (si_deps w);
  di_begun id o : live a !! id = Some o -> placeholder (rbase o) = false -> is_Some (h !! id);
  di_announced id o : live a !! id = Some o -> arrived δ id PBegin \/ is_Some (h !! id) ->
    placeholder (rbase o) = false
}.

Lemma delivery_new : delivery_inv ∅ no_progress ∅ rlattice_new spec_new.
Proof.
  assert (forall k, ~ queued (IS := IS) rlattice_new k) as Hq.
  { intros k [?|(d & Hd & _)]; [done|by apply elem_of_nil in Hd]. }
  split; simpl; try done; [|split; [done|by intros ? ?]]. split; simpl; try done.
  - by apply sim_new.
  - intros k Hk. by destruct (Hq k).
  - intros k Hk. by destruct (Hq k).
Qed.

(** A placeholder cannot be delivered. *)
Lemma placeholder_waits o : placeholder (rbase o) = true -> ~ deliverable o.
Proof. intros Hp [_ Hr]. unfold is_ready in Hr. by rewrite Hp in Hr. Qed.

(** What has been read is not live. *)
Lemma finished_dead hand X Q h r a id :
  rl_inv lo hi Q hand X h r a -> id ∈ finished a -> live a !! id = None.
Proof.
  intros H Hf. destruct (live a !! id) as [o|] eqn:Ho; [|done]. pose proof (ri_sim _ _ _ _ _ _ _ _ H) as S.
  pose proof (rep_past _ _ _ _ (ok_rep _ _ _ _ (sim_ok _ _ _ _ S)) id ltac:(eauto)) as Hp.
  rewrite (sim_past _ _ _ _ S) in Hp. by apply bool_decide_eq_false_1 in Hp.
Qed.

Lemma arrive_other δ id q k : k <> id -> forall q', arrived (arrive_part id q δ) k q' -> arrived δ k q'.
Proof. intros Hne q' [?|[? _]]; [done|congruence]. Qed.

(** A part of an IROB arrives that is in its object, or that is not needed any
    more because the IROB is complete or was read. *)
Lemma arrive_inv X δ h r a id q :
  delivery_inv X δ h r a -> is_Some (live a !! id) \/ id ∈ finished a ->
  (forall o, live a !! id = Some o -> placeholder (rbase o) = false) -> q = PBegin \/ id ∈ finished a ->
  delivery_inv X (arrive_part id q δ) h r a.
Proof.
  intros [H Hfr Hpa Hde Hbe Han] Hk Hl Hq.
  assert (forall o, live a !! id = Some o -> q = PBegin) as Hqb.
  { intros o Ho. destruct Hq as [?|Hf]; [done|]. by rewrite (finished_dead _ _ _ _ _ _ _ H Hf) in Ho. }
  split; try done.
  - eapply rl_inv_mono; [|exact H]. intros k o Ho _ Hor. destruct (decide (k = id)) as [->|Hne].
    + apply (origin_arrive W (wo_cut _ _ _ HW)); [done|]. rewrite (Hqb o Ho). by right.
    + apply (origin_other W δ); [done|by apply arrive_other|done].
  - intros k Hn Hf. destruct (Hfr k Hn Hf) as [? Hna]. split; [done|]. intros q' [?|[-> _]].
    + by eapply Hna.
    + destruct Hk as [[? ?]|?]; congruence.
  - intros k o Ho [[?|[-> _]]|?]; eauto.
Qed.

(** An insertion: [id] is new or replaces a placeholder, the dependencies get a
    dependent or a placeholder, everything else keeps its data. *)
Lemma insert_rl_inv δ h r a a' l' id p p1 D :
  rl_inv lo hi (origin W δ) None ∅ h r a ->
  (forall k, live a !! k = None -> k ∉ finished a -> nothing δ k) ->
  known id a = false ->
  irob_id (rbase p) = id -> origin W δ id p1 -> released p1 = false ->
  a' = ALattice (link_map (finished a) id D (<[id := set_rbase (set_deps (fun _ => D)) p1]> (live a)))
         (finished a) (dropped a) (anon a) (doms a) ->
  sim lo hi l' a' -> waits_inv (<[id := deps (rbase p)]> h) a' ->
  rl_inv lo hi (origin W δ) None {[id]} (<[id := deps (rbase p)]> h) (set_irobs l' r) a'.
Proof.
  intros H Hfresh Hk Eid Ho1 Hr1 -> S' W'. pose proof H as [I1 I2 I3 I4 I5 I6 I7 I8 I9 I10 I11].
  unfold known in Hk. apply orb_false_iff in Hk as [Hnf Hph]. apply bool_decide_eq_false_1 in Hnf.
  set (p2 := set_rbase _ p1) in *.
  assert (Hinv : forall k x, link_map (finished a) id D (<[id := p2]> (live a)) !! k = Some x ->
    (k = id /\ same_data p1 x /\ released x = false) \/
    (k <> id /\ exists x0, live a !! k = Some x0 /\ same_data x0 x /\ released x = released x0 /\
       deps (rbase x) = deps (rbase x0)) \/
    (k <> id /\ live a !! k = None /\ (k ∉ finished a) /\ same_data (receiver_placeholder k) x /\
       released x = false)).
  { intros k x. rewrite lookup_link_map, lookup_insert.
    destruct (decide (id = k)) as [<-|Hne]; simpl.
    - case_decide; intros [= <-]; left; split_and!; try done; by split.
    - case_decide as Hc; [|intros Hx; right; left; split; [done|]; exists x; split_and!; try done; apply same_data_refl].
      intros [= <-]. right. destruct (live a !! k) as [x0|] eqn:Hx0; simpl.
      + left. split; [done|]. exists x0. split_and!; try done; by split.
      + right. destruct Hc as [_ Hc%bool_decide_eq_false_1]. split_and!; try done; by split. }
  assert (Hkeep : forall k, is_Some (live a !! k) ->
    is_Some (link_map (finished a) id D (<[id := p2]> (live a)) !! k)).
  { intros k [x Hx]. rewrite lookup_link_map. case_decide; [eauto|].
    rewrite lookup_insert. case_decide; eauto. }
  assert (Hqid : ~ queued r id).
  { intros Hq. destruct (I11 id Hq) as [[e He]|?]; [|done]. rewrite He in Hph. apply negb_false_iff in Hph.
    apply (placeholder_waits e Hph), (I4 id e He), (I6 id e Hq He). }
  split; simpl; try done.
  - intros k x Hx _. destruct (Hinv k x Hx) as [(-> & Hs & _)|[(Hne & x0 & Hx0 & Hs & _)|(Hne & Hn & Hf & Hs & _)]].
    + by eapply origin_same.
    + eapply origin_same; [|done]. by apply (I3 k).
    + eapply origin_same; [|done]. apply origin_placeholder. by apply Hfresh.
  - intros k x Hx Hrel. destruct (Hinv k x Hx) as [(_ & _ & ?)|[(Hne & x0 & Hx0 & Hs & Er & Ed)|(_ & _ & _ & _ & ?)]];
      [congruence| |congruence].
    destruct (I4 k x0 Hx0 ltac:(congruence)) as [D1 D2]. split.
    + by rewrite (same_data_is_complete _ _ Hs).
    + unfold is_ready in *. by rewrite (sd_placeholder _ _ Hs), Ed.
  - intros k x Hq Hx. destruct (Hinv k x Hx) as [(-> & _)|[(Hne & x0 & Hx0 & Hs & -> & _)|(_ & Hn & Hf & _)]].
    + done.
    + by apply (I6 k).
    + destruct (I11 k Hq) as [[y Hy]|?]; [congruence|done].
  - intros k Hk. by apply Hkeep, I8.
  - intros k x Hx Hrel Hn. destruct (Hinv k x Hx) as [(_ & _ & ?)|[(Hne & x0 & Hx0 & Hs & Er & _)|(_ & _ & _ & _ & ?)]];
      [congruence| |congruence]. apply (I9 k x0); [done|congruence|done].
  - intros k x Hx [D1 D2] Hk. destruct (Hinv k x Hx) as [(-> & _)|[(Hne & x0 & Hx0 & Hs & -> & Ed)|(_ & _ & _ & Hs & _)]].
    + set_solver.
    + apply (I10 k x0 Hx0); [|set_solver]. split; [by rewrite <- (same_data_is_complete _ _ Hs)|].
      unfold is_ready in *. by rewrite <- Ed, <- (sd_placeholder _ _ Hs).
    + exfalso. apply (placeholder_waits x); [by rewrite (sd_placeholder _ _ Hs)|by split].
  - intros k Hq. destruct (I11 k Hq) as [?|?]; [left; by apply Hkeep|by right].
Qed.

(** A Begin_IROB message. *)
Lemma begin_inv δ h r a id w p :
  delivery_inv ∅ δ h r a -> W !! id = Some w ->
  receiver_new id (si_deps w) [] (si_labels w) = Ret p ->
  exists b l', insert_locked p false (rl_irobs r) = Ret (b, l') /\
    if b then
      known id a = false /\ exists h' a',
        delivery_inv {[id]} (arrive_part id PBegin δ) h' (set_irobs l' r) a' /\
        (exists o, live a' !! id = Some o /\ placeholder (rbase o) = false)
    else known id a = true /\ delivery_inv ∅ (arrive_part id PBegin δ) h (set_irobs l' r) a.
Proof.
  intros [H Hfr Hpa Hde Hbe Han] Ew Ep.
  assert (irob_id (rbase p) = id /\ placeholder (rbase p) = false /\
    deps (rbase p) = list_to_set (si_deps w) /\ dependents (rbase p) = ∅) as (Eid & Eph & Ed & Eds)
    by (injection Ep as <-; done).
  assert (op_ok lo hi (OpInsert p false)) as Hop.
  { simpl. rewrite Eid, Ed, Eds. split; [apply (wo_id _ _ _ HW id w Ew)|]. split; [done|].
    intros d. rewrite union_empty_r_L, elem_of_list_to_set. intros Hd.
    pose proof (wo_deps _ _ _ HW id w Ew) as Hw. rewrite Forall_forall in Hw. by apply Hw. }
  pose proof (insert_sim lo hi Hlo Hhi Hwin _ a p false (ri_sim _ _ _ _ _ _ _ _ H) Hop) as K.
  unfold spec_insert in K. simpl in K. rewrite Eid in K.
  destruct (known id a) eqn:Hk.
  { destruct K as (l' & E & S'). exists false, l'. split; [done|]. split; [done|].
    assert (is_Some (live a !! id) \/ id ∈ finished a) as Hki.
    { apply orb_true_iff in Hk as [Hk|Hk]; [right; by apply bool_decide_eq_true_1 in Hk|left].
      destruct (live a !! id); [eauto|done]. }
    assert (forall o, live a !! id = Some o -> placeholder (rbase o) = false) as Hreal.
    { intros o Ho. destruct (placeholder (rbase o)) eqn:Eo; [|done].
      unfold known in Hk. rewrite Ho in Hk. simpl in Hk. rewrite Eo, orb_false_r in Hk.
      apply bool_decide_eq_true_1 in Hk. by rewrite (finished_dead _ _ _ _ _ _ _ H Hk) in Ho. }
    apply arrive_inv; [|done..|by left]. split; try done. destruct H. by split. }
  destruct (origin_begin W (wo_cut _ _ _ HW) δ id w p (live a !! id) Ew Ep) as (p1 & E1 & Ho1 & Hr1 & Hph1).
  { unfold known in Hk. apply orb_false_iff in Hk as [Hnf Hph]. apply bool_decide_eq_false_1 in Hnf.
    destruct (live a !! id) as [e|] eqn:Ee; [|by apply Hfr].
    split; [by apply (ri_obj _ _ _ _ _ _ _ _ H)|by apply negb_false_iff]. }
  assert (spec_insert p false a = Ret (true, ALattice
    (link_map (finished a) id (deps (rbase p1) ∖ finished a)
       (<[id := set_rbase (set_deps (fun _ => deps (rbase p1) ∖ finished a)) p1]> (live a)))
    (finished a) (dropped a) (anon a) (doms a))) as Esp.
  { unfold spec_insert. simpl. rewrite Eid, Hk, E1. done. }
  rewrite E1 in K. simpl in K. destruct K as (l' & E & S'). exists true, l'. split; [done|].
  split; [done|]. pose proof (waits_insert lo hi Hlo Hhi Hwin h a p _ (ri_waits _ _ _ _ _ _ _ _ H) Esp) as W'.
  simpl in W'. rewrite Eid in W'.
  pose proof (insert_rl_inv δ h r a _ l' id p p1 _ H Hfr Hk Eid Ho1 Hr1 eq_refl S' W') as H'.
  match type of H' with rl_inv _ _ _ _ _ ?h' _ ?a' => exists h', a' end. split.
  - apply arrive_inv; [|by left; simpl; rewrite lookup_link_map, lookup_insert_eq; case_decide; eauto| |by left].
    2:{ simpl. intros o. rewrite lookup_link_map, lookup_insert_eq. case_decide; by intros [= <-]. }
    split; [exact H'|..]; simpl.
    + intros k Hn Hf. apply Hfr; [|done]. destruct (live a !! k) as [x|] eqn:Hx; [|done].
      rewrite lookup_link_map, lookup_insert in Hn. repeat case_decide; congruence.
    + done.
    + intros k D. rewrite lookup_insert. case_decide; [intros [= <-]; subst k; rewrite Ed; eauto|apply Hde].
    + intros k x Hx Hph. rewrite lookup_insert. case_decide as Ek; [eauto|].
      rewrite lookup_link_map, lookup_insert_ne in Hx by done. case_decide; [|by eapply Hbe].
      injection Hx as <-. simpl in Hph. destruct (live a !! k) as [x0|] eqn:Hx0; [|done].
      by eapply Hbe.
    + intros k x Hx Hb. rewrite lookup_link_map, lookup_insert in Hx.
      destruct (decide (id = k)) as [<-|Hne]; [case_decide; by injection Hx as <-|].
      rewrite lookup_insert_ne in Hb by done.
      destruct (live a !! k) as [x0|] eqn:Hx0.
      * pose proof (Han k x0 Hx0 Hb). case_decide; by injection Hx as <-.
      * case_decide as Hc; [|done]. destruct Hc as [_ Hc%bool_decide_eq_false_1].
        destruct Hb as [Hb|[D HD]]; [by destruct (proj2 (Hfr k Hx0 Hc) _ Hb)|].
        destruct (wi_known _ _ (ri_waits _ _ _ _ _ _ _ _ H) k D HD) as [[? ?]|?]; [congruence|done].
  - simpl. rewrite lookup_link_map, lookup_insert_eq. case_decide; eauto.
Qed.

(** A placeholder for an IROB whose data arrives first. *)
Lemma placeholder_inv δ h r a id :
  delivery_inv ∅ δ h r a -> in_window lo hi id -> live a !! id = None -> id ∉ finished a ->
  exists l', insert_locked (make_placeholder id) false (rl_irobs r) = Ret (true, l') /\
    delivery_inv ∅ δ h (set_irobs l' r)
      (ALattice (<[id := receiver_placeholder id]> (live a)) (finished a) (dropped a) (anon a) (doms a)).
Proof.
  intros [H Hfr Hpa Hde Hbe Han] Hid Hn Hnf.
  destruct (placeholder_sim lo hi Hlo Hhi Hwin _ a id (ri_sim _ _ _ _ _ _ _ _ H) Hid Hn Hnf) as (l' & E & S').
  exists l'. split; [done|].
  pose proof (waits_placeholder lo hi Hlo Hhi Hwin h a id (ri_waits _ _ _ _ _ _ _ _ H) Hn Hnf) as W'.
  assert (~ queued r id) as Hqid.
  { intros Hq. destruct (ri_stale _ _ _ _ _ _ _ _ H id Hq) as [[? ?]|?]; congruence. }
  pose proof H as [I1 I2 I3 I4 I5 I6 I7 I8 I9 I10 I11].
  split; simpl; try done.
  - split; simpl; try done.
    + intros k x. rewrite lookup_insert. case_decide; [|apply I3].
      intros [= <-] _. subst k. apply origin_placeholder. by apply Hfr.
    + intros k x. rewrite lookup_insert. case_decide; [by intros [= <-]|apply I4].
    + intros k x Hk. rewrite lookup_insert. case_decide; [by subst k|by apply I6].
    + intros k Hk. rewrite lookup_insert. case_decide; [eauto|by apply I8].
    + intros k x. rewrite lookup_insert. case_decide; [by intros [= <-]|apply I9].
    + intros k x. rewrite lookup_insert. case_decide; [|apply I10].
      intros [= <-] Hd. by apply placeholder_waits in Hd.
    + intros k Hk. rewrite lookup_insert. case_decide; [by left; eauto|by apply I11].
  - intros k. rewrite lookup_insert. case_decide; [done|apply Hfr].
  - intros k x. rewrite lookup_insert. case_decide; [by intros [= <-]|apply Hbe].
  - intros k x. rewrite lookup_insert. case_decide as Ek; [|apply Han].
    intros _ [Hb|[D HD]]; subst k; [by destruct (proj2 (Hfr id Hn Hnf) _ Hb)|].
    destruct (wi_known _ _ I2 id D HD) as [[? ?]|?]; [congruence|done].
Qed.

(** New data for an IROB. *)
Lemma change_inv δ h r a id q o o' :
  delivery_inv ∅ δ h r a -> live a !! id = Some o ->
  same_links (rbase o) (rbase o') -> released o' = released o ->
  (released o = true -> deliverable o') -> origin W (arrive_part id q δ) id o' -> q <> PBegin ->
  delivery_inv {[id]} (arrive_part id q δ) h (rupdate id (fun _ => o') r)
    (ALattice (<[id := o']> (live a)) (finished a) (dropped a) (anon a) (doms a)).
Proof.
  intros [H Hfr Hpa Hde Hbe Han] Ho Hs Hr Hdl Hor Hq.
  pose proof (window_inv lo hi (origin W δ) _ _ _ _ _ _ _ H Ho) as Hid.
  pose proof H as [I1 I2 I3 I4 I5 I6 I7 I8 I9 I10 I11].
  split; simpl; try done.
  - split; simpl; try done.
    + by apply (update_sim lo hi Hwin _ _ id (fun _ => o') o).
    + by eapply waits_update.
    + intros k x. rewrite lookup_insert. case_decide; [intros [= <-] _; by subst k|].
      intros Hx _. apply (origin_other W δ); [done|by apply arrive_other|by apply (I3 k)].
    + intros k x. rewrite lookup_insert. case_decide; [|apply I4].
      intros [= <-] Hrel. apply Hdl. congruence.
    + intros k x Hk. rewrite lookup_insert. case_decide; [|by apply I6].
      intros [= <-]. subst k. rewrite Hr. by apply (I6 id).
    + intros k Hk. rewrite lookup_insert. case_decide; [eauto|by apply I8].
    + intros k x. rewrite lookup_insert. case_decide; [|apply I9].
      intros [= <-] Hrel Hn. subst k. apply (I9 id o Ho); [congruence|done].
    + intros k x. rewrite lookup_insert. case_decide; [set_solver|].
      intros Hx Hd _. by apply (I10 k x Hx Hd).
    + intros k Hk. rewrite lookup_insert. case_decide; [by left; eauto|by apply I11].
  - intros k. rewrite lookup_insert. case_decide; [done|]. intros Hn Hf.
    destruct (Hfr k Hn Hf) as [? Hna]. split; [done|]. intros q' [?|[? _]]; [by eapply Hna|congruence].
  - intros k x. rewrite lookup_insert. case_decide; [|apply Hbe].
    intros [= <-] Hph. subst k. apply (Hbe id o Ho). destruct Hs as (_ & _ & _ & <-). done.
  - intros k x. rewrite lookup_insert. case_decide; [|intros Hx [[?|[-> _]]|?]; by eauto].
    intros [= <-] Hb. subst k. destruct Hs as (_ & _ & _ & ->). apply (Han id o Ho).
    destruct Hb as [[Hb|[_ <-]]|?]; [by left|done|by right].
Qed.

(** [release_if_ready] on the IROB that changed. *)
Lemma release_one δ h r a id o :
  delivery_inv {[id]} δ h r a -> live a !! id = Some o ->
  exists r' a' o', release_if_ready ReadyIROB id o r = Ret r' /\
    delivery_inv ∅ δ h r' a' /\ live a' !! id = Some o' /\ same_data o o' /\
    finished a' = finished a.
Proof.
  intros [H Hfr Hpa Hde Hbe Han] Ho.
  pose proof (window_inv lo hi (origin W δ) _ _ _ _ _ _ _ H Ho) as Hid.
  destruct (release_each_spec lo hi Hlo Hhi Hwin (origin W δ) (origin_obj_ok W (wo_cut _ _ _ HW) δ)
    (origin_same W δ) [id] _ h r a H ltac:(by apply Forall_singleton)) as (r' & a' & E & H' & _ & Hf & Hs).
  simpl in E. rewrite (rfind_inv lo hi Hwin (origin W δ) _ _ _ _ _ _ H Hid), Ho in E.
  destruct (release_if_ready ReadyIROB id o r) as [r1| |] eqn:E1; [|done..].
  simpl in E. injection E as ->. pose proof (Hs id) as Hsid. rewrite Ho in Hsid.
  inversion Hsid as [? o' Hso Eo Eo'|]; subst. exists r', a', o'. split; [done|].
  split; [|done]. replace ({[id]} ∖ list_to_set [id]) with (∅ : gset Z) in H' by set_solver.
  split; [done| |by rewrite Hf|done| |].
  - intros k Hn. rewrite Hf. apply Hfr. pose proof (Hs k) as Hsk. rewrite Hn in Hsk. by inversion Hsk.
  - intros k x Hx Hph. pose proof (Hs k) as Hsk. rewrite Hx in Hsk.
    inversion Hsk as [x0 ? Hsx Ex|]; subst. apply (Hbe k x0); [done|].
    by rewrite <- (sd_placeholder _ _ Hsx).
  - intros k x Hx Hb. pose proof (Hs k) as Hsk. rewrite Hx in Hsk.
    inversion Hsk as [x0 ? Hsx Ex|]; subst. rewrite (sd_placeholder _ _ Hsx). by apply (Han k x0).
Qed.

(** The end of a handler's work on a live IROB whose data changed. *)
Lemma data_step_inv δ h r a id q o o' :
  delivery_inv ∅ δ h r a -> live a !! id = Some o -> data_step W δ id q o o' -> q <> PBegin ->
  delivery_inv {[id]} (arrive_part id q δ) h (rupdate id (fun _ => o') r)
    (ALattice (<[id := o']> (live a)) (finished a) (dropped a) (anon a) (doms a)).
Proof.
  intros H Ho [H1 H2 H3 H4] Hq. apply (change_inv δ h r a id q o o' H Ho H2 H3); [|done..].
  intros Hrel. pose proof (ri_rel _ _ _ _ _ _ _ _ (di_rl _ _ _ _ _ H) id o Ho Hrel) as [D1 D2].
  rewrite (H4 D1). by split.
Qed.

(** A read that gives the application the next bytes of [id]. *)
Lemma read_inv δ h r r' a a' id o n :
  delivery_inv ∅ δ h r a -> live a !! id = Some o -> deliverable o -> take n (unread o) <> [] ->
  let δ' := give id (take n (unread o)) δ in
  rl_inv lo hi (origin W δ') None ∅ h r' a' ->
  finished a' = (if decide (length (unread o) <= n)%nat then {[id]} ∪ finished a else finished a) ->
  same_but id a a' -> delivery_inv ∅ δ' h r' a'.
Proof.
  intros [H Hfr Hpa Hde Hbe Han] Ho Hd Hsome δ' H' Hf [Hs Hid].
  pose proof (ri_obj _ _ _ _ _ _ _ _ H id o Ho ltac:(done)) as Hor.
  assert (placeholder (rbase o) = false) as Hph.
  { destruct Hd as [_ Hd]. unfold is_ready in Hd. by apply andb_true_iff in Hd as [?%negb_true_iff _]. }
  assert (forall j, j <> id -> j ∈ finished a' -> j ∈ finished a) as Hfin.
  { intros j Hj. rewrite Hf. case_decide; set_solver. }
  assert (finished a ⊆ finished a') as Hsub by (rewrite Hf; case_decide; set_solver).
  split; [done|..].
  - intros j Hn Hj. destruct (decide (j = id)) as [->|Hne].
    { destruct Hid as [[? ?]|?]; [congruence|done]. }
    assert (nothing δ j -> nothing δ' j) as Hno by (intros [? ?]; split; [simpl; by rewrite decide_False|done]).
    apply Hno, Hfr; [|set_solver].
    specialize (Hs j Hne). rewrite Hn in Hs. by inversion Hs.
  - intros j Hj. simpl. destruct (decide (j = id)) as [->|Hne]; [|by apply Hpa, Hfin].
    split; [exact (origin_ended W δ id o Hor (proj1 Hd))|].
    rewrite Hf in Hj. case_decide as Hle.
    + rewrite take_ge by done. destruct (origin_complete W (wo_cut _ _ _ HW) δ id o Hor) as (b & Hb & Hbs).
      rewrite (proj1 Hd) in Hb. injection Hb as <-. apply (Hbs eq_refl).
    + by rewrite (finished_dead _ _ _ _ _ _ _ H Hj) in Ho.
  - done.
  - intros j x Hx Hp. destruct (decide (j = id)) as [->|Hne]; [by apply (Hbe id o)|].
    specialize (Hs j Hne). rewrite Hx in Hs. inversion Hs as [x0 ? Hsx Ex|]; subst.
    apply (Hbe j x0); [done|]. by rewrite <- (sd_placeholder _ _ Hsx).
  - intros j x Hx Hb. destruct (decide (j = id)) as [->|Hne].
    + destruct (placeholder (rbase x)) eqn:Ex; [|done]. exfalso. apply Hsome.
      destruct (origin_unannounced W δ' id x (ri_obj _ _ _ _ _ _ _ _ H' id x Hx ltac:(done)) Ex)
        as (_ & _ & Hg & _). simpl in Hg. rewrite decide_True in Hg by done. by apply app_eq_nil in Hg as [_ Hg].
    + specialize (Hs j Hne). rewrite Hx in Hs. inversion Hs as [x0 ? Hsx Ex|]; subst.
      rewrite (sd_placeholder _ _ Hsx). by apply (Han j x0).
Qed.

(** What the application may read next comes after its dependencies. *)
Lemma deps_delivered δ h r a id o :
  delivery_inv ∅ δ h r a -> live a !! id = Some o -> deliverable o ->
  (forall D d, h !! id = Some D -> d ∈ D -> d ∈ finished a) ->
  exists w, W !! id = Some w /\
    forall d, d ∈ si_deps w -> ended W d /\ given δ d = bytes_of_chunks (cut_of W d).
Proof.
  intros H Ho [_ Hrdy] Hdep.
  assert (placeholder (rbase o) = false) as Hph.
  { unfold is_ready in Hrdy. by apply andb_true_iff in Hrdy as [?%negb_true_iff _]. }
  destruct (di_begun _ _ _ _ _ H id o Ho Hph) as [D HD].
  destruct (di_deps _ _ _ _ _ H id D HD) as (w & Ew & ED). exists w. split; [done|].
  intros d Hd. apply (di_past _ _ _ _ _ H), (Hdep D); [done|]. rewrite ED. by apply elem_of_list_to_set.
Qed.

(** What was given is a prefix of the IROB's bytes. *)
Lemma given_prefix X δ h r a id :
  delivery_inv X δ h r a -> given δ id `prefix_of` bytes_of_chunks (cut_of W id).
Proof.
  intros [H Hfr Hpa Hde Hbe Han]. destruct (decide (id ∈ finished a)) as [Hf|Hf].
  { by destruct (Hpa id Hf) as [_ ->]. }
  destruct (live a !! id) as [o|] eqn:Ho.
  - destruct (og_data _ _ _ _ (ri_obj _ _ _ _ _ _ _ _ H id o Ho ltac:(done)))
      as [(_ & _ & -> & _)|(_ & _ & _ & _ & E)]; [apply prefix_nil|]. rewrite <- E. by apply prefix_app_r.
  - destruct (Hfr id Ho Hf) as [-> _]. apply prefix_nil.
Qed.

(** Everything the peer sends of [W] has arrived, and its dependencies are
    among the IROBs begun before. *)
Definition all_arrived δ : Prop := forall id w, W !! id = Some w ->
  arrived δ id PBegin /\ arrived δ id PEnd /\
  (forall i, (i < length (si_cut w))%nat -> arrived δ id (PChunk i)) /\
  forall d, d ∈ si_deps w -> is_Some (W !! d) /\ d < id.

Lemma arrived_complete δ id w o :
  W !! id = Some w -> origin W δ id o -> arrived δ id PEnd ->
  (forall i, (i < length (si_cut w))%nat -> arrived δ id (PChunk i)) -> r_is_complete o = Ret true.
Proof.
  intros Ew [_ _ [(Hok & _ & _ & [P1 P2])|[? _]]] He Hc; [|done].
  pose proof (cut_of_cutting W (wo_cut _ _ _ HW) id) as Hcut.
  destruct (r_is_complete_spec _ Hcut o Hok) as (b & -> & Hb). f_equal. apply Hb.
  split; [by apply P2|]. pose proof (slots_length _ _ (ro_slots _ _ Hok)) as Hlen.
  assert (cut_of W id = si_cut w) as Ecut by (unfold cut_of; by rewrite Ew).
  apply list_eq. intros i. destruct (cut_of W id !! i) as [c|] eqn:Ec.
  - apply P1; [|done]. apply Hc. rewrite <- Ecut. by eapply lookup_lt_Some.
  - apply lookup_ge_None in Ec. apply lookup_ge_None. lia.
Qed.

(** Then whatever is not deliverable has been delivered. *)
Lemma all_finished δ h r a id w :
  delivery_inv ∅ δ h r a -> all_arrived δ -> (forall id o, live a !! id = Some o -> ~ deliverable o) ->
  W !! id = Some w -> id ∈ finished a.
Proof.
  intros [H Hfr Hpa Hde Hbe Han] Hall Hnd. revert w.
  induction id as [id IH] using (well_founded_induction (Z.lt_wf 0)). intros w Ew.
  destruct (Hall id w Ew) as (HB & HE & HC & HD). pose proof (wo_id _ _ _ HW id w Ew) as Hid.
  destruct (decide (id ∈ finished a)) as [?|Hf]; [done|]. exfalso.
  destruct (live a !! id) as [o|] eqn:Ho; [|by destruct (proj2 (Hfr id Ho Hf) _ HB)].
  apply (Hnd id o Ho). pose proof (Han id o Ho (or_introl HB)) as Hph.
  pose proof (ri_obj _ _ _ _ _ _ _ _ H id o Ho ltac:(done)) as Hor.
  split; [by eapply arrived_complete|]. unfold is_ready. rewrite Hph. apply bool_decide_eq_true_2.
  apply set_eq. intros d. split; [|set_solver]. intros Hd. exfalso.
  pose proof (ri_waits _ _ _ _ _ _ _ _ H) as Hw.
  destruct (Hbe id o Ho Hph) as [D ED]. destruct (Hde id D ED) as (w' & Ew' & ->).
  rewrite Ew in Ew'. injection Ew' as <-.
  pose proof (wi_from _ _ Hw id _ o ED Ho d Hd) as Hd'. rewrite elem_of_list_to_set in Hd'.
  destruct (HD d Hd') as [[wd Ewd] Hlt]. pose proof (wo_id _ _ _ HW d wd Ewd) as [Hd0 _].
  assert (d ∈ finished a) as Hdf by (apply (IH d ltac:(lia) wd Ewd)).
  destruct (wi_links _ _ Hw id o d Ho Hd) as (x & Hx & _).
  by rewrite (finished_dead _ _ _ _ _ _ _ H Hdf) in Hx.
Qed.
End lattice.
