(* ===== verification/System.v ===== *)
(** The receiver's handlers against what the peer sends.

    The messages of a [world] (Delivery.v) are encoded as the sender's side
    encodes them; every handler of IROB data decodes them and keeps the
    invariant of the receiving side.  [deliver_run] is any history of such
    messages, over any of the csockets, interleaved with the application's
    reads; [delivery] is the end-to-end property of the receiving side. *)

From S2P Require Import Prelude Labels Scheduling Irob IntSet Chunks Control SenderIrob.
From S2P Require Import ReceiverIrob ReceiverSpec Lattice LatticeRep LatticeSpec ReceiverLattice.
From S2P Require Import ReceiverOrder RecvSpec Chooser Thunks MultiSocket Socket Receiver Delivery.

(** ** Messages *)

Definition begin_msg id (w : sent_irob) : message :=
  Msg (Hdr (htons CMM_CONTROL_MSG_BEGIN_IROB) (htonl (si_labels w))
         (OpBeginIrob (htonl id) (htonl (Z.of_nat (length (si_deps w))))))
    (htonl <$> si_deps w) [].
Definition chunk_msg id (w : sent_irob) (c : irob_chunk_data) : message :=
  Msg (Hdr (htons CMM_CONTROL_MSG_IROB_CHUNK) (htonl (si_labels w))
         (OpIrobChunk (htonl id) (htonl (ch_seqno c)) (htonl (ch_offset c)) (htonl (ch_datalen c))))
    [] (chunk_bytes c).
Definition end_msg id (w : sent_irob) : message :=
  Msg (Hdr (htons CMM_CONTROL_MSG_END_IROB) (htonl (si_labels w))
         (OpEndIrob (htonl id) (htonl (total_len (si_cut w)))
            (htonl (Z.of_nat (length (si_cut w)))))) [] [].

(** What fits on the wire: 32-bit identifiers, labels and lengths. *)
Record wire_ok (hi : Z) (W : world) : Prop := {
  wr_hi : hi <= 2 ^ 32;
  wr_labels id w : W !! id = Some w -> 0 <= si_labels w < 2 ^ 32;
  wr_ndeps id w : W !! id = Some w -> Z.of_nat (length (si_deps w)) < 2 ^ 28;
  wr_bytes id w : W !! id = Some w -> total_len (si_cut w) < 2 ^ 31;
  wr_ids id w : W !! id = Some w -> Forall (fun c => ch_id c = id) (si_cut w)
}.

(** ** Requests *)

Lemma insert_request d (s : PrioritySet.t) :
  exists y, y ∈ PrioritySet.insert d s /\ sd_id y = sd_id d.
Proof.
  destruct (OrdSet.insert_present sched_lt d s) as (y & Hy & [->|E]); [eauto|].
  exists y. split; [done|]. unfold OrdSet.equivalent in E.
  apply andb_true_iff in E as [E1%negb_true_iff E2%negb_true_iff].
  unfold sched_lt in *. destruct (ondemand d), (ondemand y); simpl in *; try done;
    apply orb_false_iff in E1 as [_ E1]; apply orb_false_iff in E2 as [_ E2];
    apply Z.ltb_ge in E1; apply Z.ltb_ge in E2; lia.
Qed.

Section system.
Context {IS I : Type} `{!IdSet IS} `{!IdSetLaws IS} `{!InstrumentsChooser I} {NE : NetEstimates}.
Context (lo hi : Z).
Context (Hlo : 0 <= lo) (Hhi : hi <= 2 ^ 63) (Hwin : hi - lo < 2 ^ 31).
Context (W : world) (HW : world_ok lo hi W) (HWw : wire_ok hi W).
Context (k : kernel).
Abbreviation SK := (CMMSocketImpl IS I).
Implicit Types (s : SK) (δ : progress) (h : gmap Z (gset Z)).
Implicit Types (a : alattice PendingReceiverIROB).

(** Only the incoming IROBs, the csockets' requests and the counters of
    misplaced bytes differ. *)
Definition receive_frame s s' : Prop :=
  exists r m n, s' = upd_net_restriction_stats (fun _ => n)
    (upd_sk_csocks (fun _ => m) (upd_incoming_irobs (fun _ => r) s)) /\
    dom m = dom (sk_csocks s).

Lemma frame_refl s : receive_frame s s.
Proof. exists (incoming_irobs s), (sk_csocks s), (net_restriction_stats s). by destruct s. Qed.

Lemma frame_trans s1 s2 s3 : receive_frame s1 s2 -> receive_frame s2 s3 -> receive_frame s1 s3.
Proof.
  intros (r & m & n & -> & Hd) (r' & m' & n' & -> & Hd'). exists r', m', n'.
  split; [done|]. by rewrite Hd', <- Hd.
Qed.

Lemma frame_incoming s r : receive_frame s (upd_incoming_irobs (fun _ => r) s).
Proof. exists r, (sk_csocks s), (net_restriction_stats s). by destruct s. Qed.

Lemma frame_csocks s s' cs :
  receive_frame s s' -> is_Some (sk_csocks s !! cs) -> is_Some (sk_csocks s' !! cs).
Proof.
  intros (r & m & n & -> & Hd) H. simpl. apply elem_of_dom. rewrite Hd. by apply elem_of_dom.
Qed.

(** An acknowledgement of [id] waits to be sent on [cs]. *)
Definition ack_queued cs id s : Prop :=
  exists c d, sk_csocks s !! cs = Some c /\ d ∈ waiting_acks (cs_indexes c) /\ sd_id d = id.

Lemma schedule_ack_ok now cs id valid s :
  is_Some (sk_csocks s !! cs) ->
  exists s', schedule_ack now cs id valid s = (Ret tt, s') /\ receive_frame s s' /\
    incoming_irobs s' = incoming_irobs s /\ ack_queued cs id s'.
Proof.
  intros [c Hc]. set (d := sched_ack id (if valid then now else Timeval 0 0) 0).
  set (f := set_cs_indexes (index_insert WAITING_ACKS d)).
  exists (upd_csock cs f s). split; [done|]. split; [|split; [done|]].
  - exists (incoming_irobs s), (alter f cs (sk_csocks s)), (net_restriction_stats s).
    split; [done|]. by rewrite dom_alter_L.
  - destruct (insert_request d (waiting_acks (cs_indexes c))) as (y & Hy & Ey).
    exists (f c), y. split_and!; [|by destruct c as [? ? ? [] ?]|done].
    change (alter f cs (sk_csocks s) !! cs = Some (f c)). by rewrite lookup_alter_eq, Hc.
Qed.

Lemma find_live δ h a s id X :
  delivery_inv lo hi W X δ h (incoming_irobs s) a -> in_window lo hi id ->
  rfind id (incoming_irobs s) = live a !! id.
Proof.
  intros H Hid. exact (rfind_inv lo hi Hwin (origin W δ) _ _ _ _ _ _ (di_rl _ _ _ _ _ _ _ _ H) Hid).
Qed.

Lemma the_receiver_ok δ h a s id o X :
  delivery_inv lo hi W X δ h (incoming_irobs s) a -> in_window lo hi id -> live a !! id = Some o ->
  the_receiver id s = (Ret o, s).
Proof.
  intros H Hid Ho. unfold the_receiver. cbv [mbind M_bind get lift].
  by rewrite (find_live δ h a s id X H Hid), Ho.
Qed.

Lemma past_finished δ h a s id X :
  delivery_inv lo hi W X δ h (incoming_irobs s) a ->
  past_irob_exists id (inc_lattice s) = bool_decide (id ∈ finished a).
Proof. intros H. exact (sim_past _ _ _ _ (ri_sim _ _ _ _ _ _ _ _ (di_rl _ _ _ _ _ _ _ _ H)) id). Qed.

(** The end of a handler. *)
Lemma release_and_ack_ok now cs δ h a s id o :
  delivery_inv lo hi W {[id]} δ h (incoming_irobs s) a -> live a !! id = Some o ->
  in_window lo hi id -> is_Some (sk_csocks s !! cs) ->
  exists s' a' o', release_and_ack now cs id s = (Ret tt, s') /\ receive_frame s s' /\
    delivery_inv lo hi W ∅ δ h (incoming_irobs s') a' /\
    live a' !! id = Some o' /\ same_data o o' /\ finished a' = finished a /\
    (r_is_complete o' = Ret true -> placeholder (rbase o') = false -> ack_queued cs id s').
Proof.
  intros H Ho Hid Hcs.
  destruct (release_one lo hi Hlo Hhi Hwin W HW δ h _ a id o H Ho) as (r' & a' & o' & E & H' & Ho' & Hs & Hf).
  unfold release_and_ack, release_ready.
  set (s1 := upd_incoming_irobs (fun _ => r') s).
  assert (delivery_inv lo hi W ∅ δ h (incoming_irobs s1) a') as H1 by done.
  destruct (origin_complete W (wo_cut _ _ _ HW) δ id o'
    (ri_obj _ _ _ _ _ _ _ _ (di_rl _ _ _ _ _ _ _ _ H') id o' Ho' ltac:(done))) as (b & Eb & _).
  erewrite M_bind_ret.
  2:{ erewrite M_bind_ret by (by eapply the_receiver_ok). cbv [mbind M_bind get lift modify].
      rewrite E. reflexivity. }
  erewrite M_bind_ret by (by eapply (the_receiver_ok δ h a' s1)).
  cbv [mbind M_bind lift]. rewrite Eb.
  destruct (b && negb (placeholder (rbase o'))) eqn:Eq; unfold when; cbv iota beta.
  - destruct (schedule_ack_ok now cs id true s1 Hcs) as (s2 & -> & Hfr & Hinc & Hack).
    exists s2, a', o'. rewrite Hinc. split_and!; try done.
  - exists s1, a', o'. split_and!; try done; [apply frame_incoming|].
    intros Hc Hp. rewrite Hc in Eb. injection Eb as <-. by rewrite Hp in Eq.
Qed.

(** ** Decoding *)

Lemma ntohl_ids l : Forall (fun d => 0 <= d < 2 ^ 32) l -> ntohl <$> (htonl <$> l) = l.
Proof. induction 1 as [|d l Hd Hl IH]; [done|]. rewrite !fmap_cons, ntohl_htonl by done. f_equal. exact IH. Qed.

Lemma read_ids_ok l :
  Z.of_nat (length l) < 2 ^ 28 -> Forall (fun d => 0 <= d < 2 ^ 32) l ->
  read_ids (Z.of_nat (length l)) (htonl <$> l) = Ret l.
Proof.
  intros Hn Hl. unfold read_ids. destruct l as [|d l]; [done|]. set (n := Z.of_nat _) in *.
  assert (0 < n) by (unfold n; simpl; lia).
  rewrite (proj2 (Z.leb_gt _ _)) by lia. rewrite to_int_small, Z.eqb_refl by lia.
  rewrite length_fmap. fold n. rewrite Z.eqb_refl. by rewrite ntohl_ids.
Qed.

Lemma window_wire id : in_window lo hi id -> 0 <= id < 2 ^ 32.
Proof. intros []. pose proof (wr_hi _ _ HWw). lia. Qed.

Lemma small_int n : 0 <= n < 2 ^ 31 -> to_int (ntohl (htonl n)) = n.
Proof. intros. rewrite ntohl_htonl by lia. apply to_int_small. lia. Qed.

(** What the wire says of a chunk of an IROB. *)
Lemma chunk_wire id w i c :
  W !! id = Some w -> si_cut w !! i = Some c ->
  c = Chunk id (ch_seqno c) (ch_offset c) (ch_datalen c) (Some (chunk_bytes c)) /\
  0 <= ch_seqno c < 2 ^ 32 /\ 0 <= ch_offset c < 2 ^ 32 /\ 0 < ch_datalen c < 2 ^ 31 /\
  Z.of_nat (length (chunk_bytes c)) = ch_datalen c.
Proof.
  intros Ew Hc. destruct (wo_cut _ _ _ HW id w Ew) as [[Hl Hz Hd Hp Ht Hk] _].
  pose proof (wr_bytes _ _ HWw id w Ew). pose proof (wr_ids _ _ HWw id w Ew) as Hids.
  pose proof (layout_end _ _ _ _ _ Hl Hc) as Hb.
  pose proof (total_len_nonneg _ (Forall_take _ i _ (layout_ok _ _ _ Hl))) as Hpre.
  destruct (layout_lookup _ _ _ _ _ Hl Hc) as (Hseq & Hoff & Hc0).
  pose proof (lookup_lt_Some _ _ _ Hc).
  assert (c ∈ si_cut w) as Hin by (by eapply list_elem_of_lookup_2).
  rewrite Forall_forall in Hz, Hd, Hp, Hids. specialize (Hz c Hin). specialize (Hd c Hin).
  specialize (Hp c Hin). specialize (Hids c Hin). apply chunk_bytes_data in Hd.
  unfold sized in Hz. destruct c as [cid seq off len data]. simpl in *. subst cid.
  split_and!; try lia. by rewrite Hd.
Qed.

(** ** The handlers *)

(** A handler returns, and the invariant holds after it. *)
Definition handler_ok (m : M SK unit) id q δ s (post : alattice PendingReceiverIROB -> SK -> Prop) : Prop :=
  exists s' h' a', m s = (Ret tt, s') /\ receive_frame s s' /\
    delivery_inv lo hi W ∅ (arrive_part id q δ) h' (incoming_irobs s') a' /\ post a' s'.

(** A complete, announced IROB is acknowledged. *)
Definition acked_if_complete cs id a s : Prop :=
  forall o, live a !! id = Some o -> r_is_complete o = Ret true ->
    placeholder (rbase o) = false -> ack_queued cs id s.

Lemma insert_incoming_eq p s b l :
  insert_locked p false (rl_irobs (incoming_irobs s)) = Ret (b, l) ->
  insert_incoming p s = (Ret b, upd_incoming_irobs (fun _ => set_irobs l (incoming_irobs s)) s).
Proof. intros E. unfold insert_incoming, inc_lattice. cbv [mbind M_bind get lift modify mret M_ret]. by rewrite E. Qed.

Lemma do_begin_ok now cs δ h a s id w :
  delivery_inv lo hi W ∅ δ h (incoming_irobs s) a -> W !! id = Some w ->
  is_Some (sk_csocks s !! cs) ->
  handler_ok (do_begin_irob now cs (begin_msg id w)) id PBegin δ s (fun a' s' =>
    acked_if_complete cs id a' s' \/ (live a' = live a)).
Proof.
  intros H Ew Hcs. pose proof (wo_id _ _ _ HW id w Ew) as Hid.
  pose proof (wr_ndeps _ _ HWw id w Ew) as Hnd.
  assert (Forall (fun d => 0 <= d < 2 ^ 32) (si_deps w)) as Hdeps.
  { eapply Forall_impl; [exact (wo_deps _ _ _ HW id w Ew)|]. intros d. apply window_wire. }
  unfold handler_ok, do_begin_irob. cbn [begin_msg msg_hdr hdr_type hdr_op hdr_send_labels msg_ids].
  erewrite M_bind_ret by reflexivity. cbv zeta.
  rewrite ntohl_htonl by (by apply window_wire). rewrite small_int by lia.
  erewrite M_bind_ret by (unfold lift; rewrite read_ids_ok by done; reflexivity).
  rewrite ntohl_htonl by (by apply (wr_labels _ _ HWw id)).
  destruct (receiver_new_ok [] id (si_deps w) (si_labels w)) as (p & Ep & _).
  erewrite M_bind_ret by (unfold lift; rewrite Ep; reflexivity).
  destruct (begin_inv lo hi Hlo Hhi Hwin W HW δ h _ a id w p H Ew Ep) as (b & l' & E & K).
  erewrite M_bind_ret by (by apply insert_incoming_eq).
  set (s1 := upd_incoming_irobs (fun _ => set_irobs l' (incoming_irobs s)) s).
  destruct b; unfold when.
  - destruct K as (_ & h' & a' & H' & o & Ho & _).
    destruct (release_and_ack_ok now cs _ h' a' s1 id o H' Ho Hid Hcs)
      as (s' & a'' & o' & -> & Hfr & H'' & Ho' & _ & _ & Hack). exists s', h', a''. split_and!; try done.
    left. intros x Hx. rewrite Ho' in Hx. by injection Hx as <-.
  - destruct K as [_ H']. exists s1, h, a. split_and!; try done; [apply frame_incoming|by right].
Qed.

Lemma finished_not_live δ h a s id :
  delivery_inv lo hi W ∅ δ h (incoming_irobs s) a -> id ∈ finished a -> live a !! id = None.
Proof.
  intros H. exact (finished_dead lo hi _ _ _ _ _ _ _ (di_rl _ _ _ _ _ _ _ _ H)).
Qed.

(** The IROB of a data message is live, or a placeholder is made for it. *)
Lemma ensure_live δ h a s id :
  delivery_inv lo hi W ∅ δ h (incoming_irobs s) a -> in_window lo hi id -> id ∉ finished a ->
  exists s1 a1 o, when (negb (bool_decide (is_Some (rfind id (incoming_irobs s)))))
      (insert_placeholder id) s = (Ret tt, s1) /\
    receive_frame s s1 /\ delivery_inv lo hi W ∅ δ h (incoming_irobs s1) a1 /\
    live a1 !! id = Some o.
Proof.
  intros H Hid Hnf. rewrite (find_live δ h a s id ∅ H Hid).
  destruct (live a !! id) as [o|] eqn:Ho.
  - rewrite bool_decide_eq_true_2 by eauto. exists s, a, o. split_and!; try done. apply frame_refl.
  - rewrite bool_decide_eq_false_2 by (by intros [? ?]).
    destruct (placeholder_inv lo hi Hlo Hhi Hwin W δ h _ a id H Hid Ho Hnf) as (l' & E & H').
    exists (upd_incoming_irobs (fun _ => set_irobs l' (incoming_irobs s)) s). eexists _, _.
    split; [|split; [|split; [exact H'|apply lookup_insert_eq]]].
    + unfold when, insert_placeholder. cbn [negb]. erewrite M_bind_ret by (by apply insert_incoming_eq).
      reflexivity.
    + apply frame_incoming.
Qed.

(** The handlers' common middle part: new data for a live IROB. *)
Lemma data_step_ok now cs δ h a s id q o o' :
  delivery_inv lo hi W ∅ δ h (incoming_irobs s) a -> in_window lo hi id ->
  is_Some (sk_csocks s !! cs) -> live a !! id = Some o -> data_step W δ id q o o' -> q <> PBegin ->
  exists s' a', release_and_ack now cs id (upd_incoming_irobs (fun _ => rupdate id (fun _ => o')
      (incoming_irobs s)) s) = (Ret tt, s') /\
    receive_frame s s' /\ delivery_inv lo hi W ∅ (arrive_part id q δ) h (incoming_irobs s') a' /\
    acked_if_complete cs id a' s'.
Proof.
  intros H Hid Hcs Ho Hd Hq.
  pose proof (data_step_inv lo hi Hlo Hhi Hwin W HW δ h _ a id q o o' H Ho Hd Hq) as H1.
  set (s1 := upd_incoming_irobs _ s).
  destruct (release_and_ack_ok now cs _ h _ s1 id o' H1 (lookup_insert_eq _ _ _) Hid Hcs)
    as (s' & a' & o2 & E & Hfr & H' & Ho2 & _ & _ & Hack).
  exists s', a'. split_and!; try done.
  intros x Hx. rewrite Ho2 in Hx. by injection Hx as <-.
Qed.

Lemma do_end_ok now cs δ h a s id w :
  delivery_inv lo hi W ∅ δ h (incoming_irobs s) a -> W !! id = Some w -> si_ended w = true ->
  is_Some (sk_csocks s !! cs) ->
  handler_ok (do_end_irob now cs (end_msg id w)) id PEnd δ s (fun a' s' =>
    acked_if_complete cs id a' s' /\ (id ∈ finished a -> ack_queued cs id s')).
Proof.
  intros H Ew Hend Hcs. pose proof (wo_id _ _ _ HW id w Ew) as Hid.
  destruct (wo_cut _ _ _ HW id w Ew) as [Hcut _]. pose proof (wr_bytes _ _ HWw id w Ew) as Hb.
  pose proof (layout_total _ _ _ (cut_layout _ Hcut)) as Htot.
  pose proof (cut_count _ Hcut) as Hcnt.
  unfold handler_ok, do_end_irob. cbn [end_msg msg_hdr hdr_type hdr_op hdr_send_labels msg_ids].
  erewrite M_bind_ret by reflexivity. cbv zeta.
  rewrite ntohl_htonl by (by apply window_wire). rewrite small_int, ntohl_htonl by lia.
  erewrite M_bind_ret by reflexivity.
  rewrite (find_live δ h a s id ∅ H Hid), (past_finished δ h a s id ∅ H).
  destruct (decide (id ∈ finished a)) as [Hf|Hf].
  - pose proof (finished_not_live δ h a s id H Hf) as Hn.
    rewrite Hn, (bool_decide_eq_true_2 _ Hf), bool_decide_eq_false_2 by (by intros [? ?]).
    cbn [negb andb].
    destruct (schedule_ack_ok now cs id false s Hcs) as (s' & -> & Hfr & Einc & Hack).
    exists s', h, a. rewrite Einc. split_and!; try done; [|intros o; by rewrite Hn].
    eapply (arrive_inv lo hi W HW); [done|by right|intros o; by rewrite Hn|by right].
  - rewrite (bool_decide_eq_false_2 _ Hf), andb_false_r.
    destruct (ensure_live δ h a s id H Hid Hf) as (s1 & a1 & o & E1 & Hfr1 & H1 & Ho).
    rewrite (find_live δ h a s id ∅ H Hid) in E1. erewrite M_bind_ret by exact E1.
    erewrite M_bind_ret by (by eapply the_receiver_ok).
    pose proof (ri_obj _ _ _ _ _ _ _ _ (di_rl _ _ _ _ _ _ _ _ H1) id o Ho ltac:(done)) as Hor.
    destruct (origin_end W (wo_cut _ _ _ HW) δ id w o Ew Hend Hor) as (b & o' & Ef & Hd).
    erewrite M_bind_ret by (unfold lift; rewrite Ef; reflexivity). cbv iota beta.
    erewrite M_bind_ret by reflexivity.
    destruct (origin_complete W (wo_cut _ _ _ HW) _ id o' (ds_origin _ _ _ _ _ _ Hd)) as (c & Ec & _).
    erewrite M_bind_ret.
    2:{ unfold when. destruct b; cbn [negb]; [reflexivity|].
        cbv [mbind M_bind lift mret M_ret]. rewrite Ec. reflexivity. }
    destruct (data_step_ok now cs δ h a1 s1 id PEnd o o' H1 Hid (frame_csocks _ _ _ Hfr1 Hcs) Ho Hd ltac:(done))
      as (s' & a' & E & Hfr & H' & Hack).
    exists s', h, a'. split; [exact E|]. split_and!; try done. by eapply frame_trans.
Qed.

Lemma do_chunk_ok now cs δ h a s id w i c :
  delivery_inv lo hi W ∅ δ h (incoming_irobs s) a -> W !! id = Some w -> si_cut w !! i = Some c ->
  is_Some (sk_csocks s !! cs) ->
  handler_ok (do_irob_chunk now cs (chunk_msg id w c)) id (PChunk i) δ s (acked_if_complete cs id).
Proof.
  intros H0 Ew Hc Hcs. pose proof (wo_id _ _ _ HW id w Ew) as Hid.
  destruct (chunk_wire id w i c Ew Hc) as (Ec & Hseq & Hoff & Hlen & Hby).
  unfold handler_ok, do_irob_chunk. cbn [chunk_msg msg_hdr hdr_type hdr_op hdr_send_labels msg_data].
  erewrite M_bind_ret by reflexivity. cbv zeta.
  rewrite (ntohl_htonl id) by (by apply window_wire). rewrite small_int by lia.
  rewrite !ntohl_htonl by (lia || by apply (wr_labels _ _ HWw id)).
  erewrite M_bind_ret.
  2:{ unfold lift, read_data_buffer. rewrite (proj2 (Z.leb_gt _ _)) by lia.
      rewrite Hby, Z.eqb_refl. reflexivity. }
  rewrite <- Ec. destruct Hcs as [x Hx].
  assert (exists s0, update_net_restriction_stats cs (si_labels w) 0 (ch_datalen c) s = (Ret tt, s0) /\
    receive_frame s s0 /\ incoming_irobs s0 = incoming_irobs s) as (s0 & E0 & Hfr0 & Ei0).
  { unfold update_net_restriction_stats, deref. cbv [mbind M_bind]. rewrite Hx. cbn [access].
    unfold when. destruct (_ && _); [|exists s; split_and!; try done; apply frame_refl].
    eexists. split; [reflexivity|]. split; [|done]. eexists (incoming_irobs s), (sk_csocks s), _.
    split; [reflexivity|done]. }
  erewrite M_bind_ret by exact E0. erewrite M_bind_ret by reflexivity.
  assert (delivery_inv lo hi W ∅ δ h (incoming_irobs s0) a) as H by (by rewrite Ei0).
  assert (is_Some (sk_csocks s0 !! cs)) as Hcs0 by (eapply frame_csocks; eauto).
  rewrite (find_live δ h a s0 id ∅ H Hid), (past_finished δ h a s0 id ∅ H).
  destruct (decide (id ∈ finished a)) as [Hf|Hf].
  - pose proof (finished_not_live δ h a s0 id H Hf) as Hn.
    rewrite Hn, (bool_decide_eq_true_2 _ Hf), bool_decide_eq_false_2 by (by intros [? ?]).
    cbn [negb andb]. exists s0, h, a. split_and!; try done; [|intros o; by rewrite Hn].
    eapply (arrive_inv lo hi W HW); [done|by right|intros o; by rewrite Hn|by right].
  - rewrite (bool_decide_eq_false_2 _ Hf), andb_false_r.
    destruct (ensure_live δ h a s0 id H Hid Hf) as (s1 & a1 & o & E1 & Hfr1 & H1 & Ho).
    rewrite (find_live δ h a s0 id ∅ H Hid) in E1. erewrite M_bind_ret by exact E1.
    erewrite M_bind_ret by (by eapply the_receiver_ok).
    pose proof (ri_obj _ _ _ _ _ _ _ _ (di_rl _ _ _ _ _ _ _ _ H1) id o Ho ltac:(done)) as Hor.
    destruct (origin_chunk W (wo_cut _ _ _ HW) δ id w o i c Ew Hor Hc) as (b & o' & Ef & Hd & Hb).
    erewrite M_bind_ret by (unfold lift; rewrite Ef; reflexivity). cbv iota beta.
    erewrite M_bind_ret by reflexivity.
    erewrite M_bind_ret.
    2:{ unfold when. destruct b; cbn [negb]; [reflexivity|].
        cbv [mbind M_bind lift mret M_ret]. rewrite Hb by done. reflexivity. }
    destruct (data_step_ok now cs δ h a1 s1 id (PChunk i) o o' H1 Hid (frame_csocks _ _ _ Hfr1 Hcs0) Ho Hd ltac:(done))
      as (s' & a' & E & Hfr & H' & Hack).
    exists s', h, a'. split; [exact E|]. split_and!; try done. eapply frame_trans; [done|]. by eapply frame_trans.
Qed.

(** ** The application's reads *)

(** The bytes a call of [mc_recv] gave the application. *)
Definition bytes_of (r : mc_recv_result) : list byte :=
  match r with RecvDone (Received acc) | RecvDone (Waiting acc) => acc_bytes acc | _ => [] end.

Lemma mc_recv_ok now δ h a s len flags t :
  delivery_inv lo hi W ∅ δ h (incoming_irobs s) a ->
  (remote_shutdown s = true -> shutting_down s = true) -> 0 < len ->
  has_bits flags MSG_PEEK = false -> has_bits flags MSG_WAITALL = false ->
  exists res s', mc_recv k now len flags t s = (Ret res, s') /\ receive_frame s s' /\
    res <> RecvOutOfFuel /\
    ((bytes_of res = [] /\ delivery_inv lo hi W ∅ δ h (incoming_irobs s') a /\
      (res = NotConnected \/ forall id o, live a !! id = Some o -> ~ deliverable o)) \/
     exists id w a', W !! id = Some w /\ si_ended w = true /\ bytes_of res <> [] /\
       (forall d, d ∈ si_deps w -> ended W d /\ given δ d = bytes_of_chunks (cut_of W d)) /\
       delivery_inv lo hi W ∅ (give id (bytes_of res) δ) h (incoming_irobs s') a').
Proof.
  intros H Hshut Hlen Hpeek Hall. unfold mc_recv. erewrite M_bind_ret by reflexivity.
  destruct (connect_status s =? 0) eqn:Ecs; cbn [negb].
  2:{ exists NotConnected, s. split_and!; try done; [apply frame_refl|]. left. split_and!; auto. }
  set (env := RecvEnv _ _ _ _).
  destruct (recv_core lo hi Hlo Hhi Hwin (origin W δ)
    (origin_obj_ok W (wo_cut _ _ _ HW) δ) (origin_same W δ)
    h (incoming_irobs s) a len flags env (di_rl _ _ _ _ _ _ _ _ H) Hlen Hpeek Hall)
    as (res & r' & E & K).
  { simpl. intros [? _]%andb_true_iff. auto. }
  set (s' := upd_incoming_irobs (fun _ => r') s).
  exists (RecvDone res), s'. split; [by erewrite M_bind_ret by (unfold lift; rewrite E; reflexivity)|].
  split; [apply frame_incoming|]. split; [done|].
  destruct K as [(Hrl & Hres & Hnd)|(id & o & acc & -> & Ho & Hor & Hdel & Hb & Hne & _ & Hdep & Hnext)].
  - left. split; [destruct res; naive_solver|]. split; [by destruct H|by right].
  - right. destruct (deps_delivered lo hi W δ h _ a id o H Ho Hdel Hdep) as (w & Ew & Hd).
    set (δ' := give id (take (Z.to_nat len) (unread o)) δ).
    destruct (Hnext (origin W δ')) as (a' & Hrl & Hf & Hbut).
    + exact (origin_obj_ok W (wo_cut _ _ _ HW) δ').
    + exact (origin_same W δ').
    + intros j x Hj. apply (origin_other W δ); [simpl; by rewrite decide_False|done].
    + intros o'. by apply (origin_rest W (wo_cut _ _ _ HW)).
    + destruct (origin_ended W δ id o Hor (proj1 Hdel)) as (w' & Ew' & He). simplify_eq.
      exists id, w, a'. split_and!; try done. simpl. rewrite Hb.
      apply (read_inv lo hi Hlo Hhi Hwin W HW δ h (incoming_irobs s) r' a a' id o); try done; congruence.
Qed.
End system.
