(* ===== verification/History.v ===== *)
(** Histories of the receiving side of a multi-socket.

    A history is any sequence of IROB messages of a [world], in any order, any
    number of times and over any of the csockets, of calls of [mc_recv], and of
    steps of the rest of the program that leave the incoming IROBs alone.
    [delivery] is the end-to-end safety property of the receiving side, and
    [nothing_lost] its counterpart: what has arrived is not withheld. *)

From S2P Require Import Prelude Labels Scheduling Irob IntSet Chunks Control SenderIrob.
From S2P Require Import ReceiverIrob ReceiverSpec Lattice LatticeRep LatticeSpec ReceiverLattice.
From S2P Require Import ReceiverOrder RecvSpec Chooser Thunks MultiSocket Socket Receiver Delivery.
From S2P Require Import System.

(** What the reads that gave something gave. *)
Abbreviation nonempty l := (filter (fun b => b <> []) (bytes_of <$> l)).

Section history.
Context {IS I : Type} `{!IdSet IS} `{!IdSetLaws IS} `{!InstrumentsChooser I} {NE : NetEstimates}.
Context (W : world) (k : kernel).
Abbreviation SK := (CMMSocketImpl IS I).
Implicit Types (s : SK) (δ : progress) (id : Z).

Inductive event :=
| EvMsg (now : timeval) (cs id : Z) (q : part)
| EvRecv (now : timeval) (len flags : Z) (read_begin : timeval)
| EvOther (f : SK -> SK).

Definition msg_of id (q : part) : option message :=
  w ← W !! id;
  match q with
  | PBegin => Some (begin_msg id w)
  | PChunk i => chunk_msg id w <$> si_cut w !! i
  | PEnd => if si_ended w then Some (end_msg id w) else None
  end.

(** A message of the world on an open csocket; a read of at least one byte,
    neither peeking nor insisting on the full length. *)
Definition event_ok e s : Prop :=
  match e with
  | EvMsg _ cs id q => is_Some (sk_csocks s !! cs) /\ is_Some (msg_of id q)
  | EvRecv _ len flags _ =>
      0 < len /\ has_bits flags MSG_PEEK = false /\ has_bits flags MSG_WAITALL = false
  | EvOther f => incoming_irobs (f s) = incoming_irobs s /\
      (remote_shutdown (f s) = true -> shutting_down (f s) = true)
  end.

Definition run_event e : M SK (list mc_recv_result) :=
  match e with
  | EvMsg now cs id q => m ← lift (access (msg_of id q)); dispatch k now cs m;; mret []
  | EvRecv now len flags t => r ← mc_recv k now len flags t; mret [r]
  | EvOther f => modify f;; mret []
  end.

Fixpoint run_events (es : list event) : M SK (list mc_recv_result) :=
  match es with
  | [] => mret []
  | e :: es => r ← run_event e; rs ← run_events es; mret (r ++ rs)
  end.

Fixpoint history_ok (es : list event) s : Prop :=
  match es with
  | [] => True
  | e :: es => event_ok e s /\ history_ok es (snd (run_event e s))
  end.

(** The parts that arrive in a history. *)
Fixpoint parts_of (es : list event) : list (Z * part) :=
  match es with
  | [] => []
  | EvMsg _ _ id q :: es => (id, q) :: parts_of es
  | _ :: es => parts_of es
  end.

(** ** What the application has read, IROB by IROB *)

Implicit Types (log : list (Z * list byte)).

Definition log_of id log : list byte := concat (filter (fun e => e.1 = id) log).*2.

Lemma log_of_snoc id log j b :
  log_of id (log ++ [(j, b)]) = if decide (id = j) then log_of id log ++ b else log_of id log.
Proof.
  unfold log_of. rewrite filter_app, fmap_app, concat_app, filter_cons, filter_nil. simpl.
  case_decide as E1; case_decide as E2; try congruence; simpl; by rewrite ?app_nil_r.
Qed.

(** Every piece of the log is the next piece of its IROB, which was ended, and
    comes after all the bytes of the IROBs this one depends on, which were ended,
    too. *)
Definition in_order log : Prop := forall l1 id b l2, log = l1 ++ (id, b) :: l2 ->
  b <> [] /\ exists w, W !! id = Some w /\ si_ended w = true /\
    (log_of id l1 ++ b) `prefix_of` bytes_of_chunks (si_cut w) /\
    forall d, d ∈ si_deps w -> ended W d /\ log_of d l1 = bytes_of_chunks (cut_of W d).

Lemma in_order_snoc log id b w :
  in_order log -> b <> [] -> W !! id = Some w -> si_ended w = true ->
  (log_of id log ++ b) `prefix_of` bytes_of_chunks (si_cut w) ->
  (forall d, d ∈ si_deps w -> ended W d /\ log_of d log = bytes_of_chunks (cut_of W d)) ->
  in_order (log ++ [(id, b)]).
Proof.
  intros H Hb Ew Hend Hp Hd l1 j c l2 E. destruct l2 as [|e l2 _] using rev_ind.
  - apply app_inj_tail in E as [<- [= <- <-]]. split; [done|]. by exists w.
  - rewrite app_comm_cons, app_assoc in E. apply app_inj_tail in E as [-> _]. by apply (H l1 j c l2).
Qed.

(** ** The invariant of a history *)

Context (lo hi : Z).
Context (Hlo : 0 <= lo) (Hhi : hi <= 2 ^ 63) (Hwin : hi - lo < 2 ^ 31).
Context (HW : world_ok lo hi W) (HWw : wire_ok hi W).

Record hist_inv (sent : list (Z * part)) log s : Prop := {
  hi_inv : exists δ h a, delivery_inv lo hi W ∅ δ h (incoming_irobs s) a /\
    (forall id, given δ id = log_of id log) /\ (forall id q, (id, q) ∈ sent -> arrived δ id q);
  hi_shut : remote_shutdown s = true -> shutting_down s = true;
  hi_order : in_order log
}.

Lemma hist_new s :
  incoming_irobs s = rlattice_new -> (remote_shutdown s = true -> shutting_down s = true) ->
  hist_inv [] [] s.
Proof.
  intros Es Hs. split; [|done|by intros [] ?].
  exists no_progress, ∅, spec_new. rewrite Es. split_and!; [by apply delivery_new|done|].
  intros id q Hq. by apply elem_of_nil in Hq.
Qed.

Lemma frame_shut s s' :
  receive_frame s s' -> (remote_shutdown s = true -> shutting_down s = true) ->
  remote_shutdown s' = true -> shutting_down s' = true.
Proof. by intros (r & m & n & -> & _). Qed.

(** A message. *)
Lemma hist_msg sent log s now cs id q :
  hist_inv sent log s -> event_ok (EvMsg now cs id q) s ->
  exists s', run_event (EvMsg now cs id q) s = (Ret [], s') /\ hist_inv (sent ++ [(id, q)]) log s'.
Proof.
  intros [(δ & h & a & H & Hg & Ha) Hs Ho] [Hcs [m Hm]]. unfold run_event. rewrite Hm.
  erewrite M_bind_ret by reflexivity. unfold msg_of in Hm.
  destruct (W !! id) as [w|] eqn:Ew; [|done]. cbn [mbind option_bind] in Hm.
  assert (exists post, handler_ok lo hi W (dispatch k now cs m) id q δ s post) as [post K].
  { destruct q as [|i|].
    - injection Hm as <-. eexists. exact (do_begin_ok lo hi Hlo Hhi Hwin W HW HWw now cs δ h a s id w H Ew Hcs).
    - destruct (si_cut w !! i) as [c|] eqn:Hc; [|done]. injection Hm as <-. eexists.
      exact (do_chunk_ok lo hi Hlo Hhi Hwin W HW HWw now cs δ h a s id w i c H Ew Hc Hcs).
    - destruct (si_ended w) eqn:Hend; [|done]. injection Hm as <-. eexists.
      exact (do_end_ok lo hi Hlo Hhi Hwin W HW HWw now cs δ h a s id w H Ew Hend Hcs). }
  destruct K as (s' & h' & a' & E & Hfr & H' & _). exists s'.
  split; [by erewrite M_bind_ret by exact E|]. split; [|by eapply frame_shut|done].
  eexists _, h', a'. split; [exact H'|]. split; [done|]. intros j q' Hq. simpl.
  apply elem_of_app in Hq as [Hq|Hq]; [left; auto|right]. apply list_elem_of_singleton in Hq. by simplify_eq.
Qed.

(** A read. *)
Lemma hist_recv sent log s now len flags t :
  hist_inv sent log s -> event_ok (EvRecv now len flags t) s ->
  exists res s' log', mc_recv k now len flags t s = (Ret res, s') /\ hist_inv sent log' s' /\
    (if decide (bytes_of res = []) then log' = log else exists id, log' = log ++ [(id, bytes_of res)]) /\
    (bytes_of res = [] -> res <> NotConnected ->
     exists δ h a, delivery_inv lo hi W ∅ δ h (incoming_irobs s) a /\
       (forall id, given δ id = log_of id log) /\ (forall id q, (id, q) ∈ sent -> arrived δ id q) /\
       forall id o, live a !! id = Some o -> ~ deliverable o).
Proof.
  intros [(δ & h & a & H & Hg & Ha) Hs Ho] (Hlen & Hpeek & Hall).
  destruct (mc_recv_ok lo hi Hlo Hhi Hwin W HW k now δ h a s len flags t H Hs Hlen Hpeek Hall)
    as (res & s' & E & Hfr & _ & [(Eb & H' & Hnd)|(id & w & a' & Ew & Hend & Hne & Hd & H')]).
  - exists res, s', log. rewrite decide_True by done. split_and!; try done.
    + split; [by exists δ, h, a|exact (frame_shut s s' Hfr Hs)|done].
    + intros _ Hc. destruct Hnd as [?|Hnd]; [done|]. exists δ, h, a. done.
  - exists res, s', (log ++ [(id, bytes_of res)]). rewrite decide_False by done. split_and!; try done; [|eauto].
    split; [|by eapply frame_shut|].
    + eexists _, h, a'. split; [exact H'|]. split; [|done]. intros j. simpl. rewrite log_of_snoc.
      case_decide as Ej; [subst j|]; by rewrite Hg.
    + apply (in_order_snoc _ _ _ w); try done.
      * pose proof (given_prefix lo hi W _ _ _ _ _ id H') as Hp. simpl in Hp.
        rewrite decide_True, Hg in Hp by done. unfold cut_of in Hp. by rewrite Ew in Hp.
      * intros d Hdd. rewrite <- Hg. by apply Hd.
Qed.

Lemma history_inv es s sent log :
  hist_inv sent log s -> history_ok es s ->
  exists outs s' new, run_events es s = (Ret outs, s') /\
    hist_inv (sent ++ parts_of es) (log ++ new) s' /\ nonempty outs = new.*2.
Proof.
  revert s sent log. induction es as [|e es IH]; intros s sent log H Hok.
  { exists [], s, []. by rewrite !app_nil_r. }
  destruct Hok as [He Hok]. cbn [run_events].
  assert (exists rs s1 new, run_event e s = (Ret rs, s1) /\
    hist_inv (sent ++ parts_of [e]) (log ++ new) s1 /\ nonempty rs = new.*2) as (rs & s1 & new & E & H1 & Hn).
  { destruct e as [now cs id q|now len flags t|f].
    - destruct (hist_msg sent log s now cs id q H He) as (s1 & E & H1).
      exists [], s1, []. by rewrite app_nil_r.
    - destruct (hist_recv sent log s now len flags t H He) as (res & s1 & log' & E & H1 & Hl & _).
      exists [res], s1, (if decide (bytes_of res = []) then [] else drop (length log) log').
      unfold run_event. erewrite M_bind_ret by exact E. rewrite app_nil_r. simpl. rewrite filter_cons, filter_nil.
      split; [done|]. case_decide as Eb.
      + subst log'. rewrite app_nil_r. by rewrite decide_False by auto.
      + destruct Hl as [id ->]. rewrite drop_app_length. by rewrite decide_True by done.
    - exists [], (f s), []. rewrite !app_nil_r. split_and!; try done.
      destruct H as [K Hs Ho], He as [E1 E2]. split; [by rewrite E1|done|done]. }
  rewrite E in Hok. simpl in Hok.
  destruct (IH s1 _ _ H1 Hok) as (rs' & s2 & new' & E' & H2 & Hn'). exists (rs ++ rs'), s2, (new ++ new').
  erewrite M_bind_ret by exact E. erewrite M_bind_ret by exact E'.
  split; [done|]. split.
  - rewrite <- !app_assoc in H2. replace (parts_of (e :: es)) with (parts_of [e] ++ parts_of es); [done|].
    by destruct e.
  - by rewrite fmap_app, filter_app, Hn, Hn', fmap_app.
Qed.

(** C3: For a peer each of whose ended IROBs has data ([world_ok]: an empty one, which
    a sender may end, makes [recv] fail its assertion), and reads of at least one byte that
    neither peek nor insist on the full length ([event_ok]): whatever order the messages
    of the peer's IROBs arrive in, however often
    and over whichever connections, interleaved with the application's reads,
    no handler and no read fails an assertion or throws, and what the non-empty
    reads return is a sequence of pieces of IROBs in which every piece is the
    next of its IROB's bytes, of an IROB that was ended, and comes only after
    all the bytes of the IROBs its IROB depends on. *)
Theorem delivery s es :
  incoming_irobs s = rlattice_new -> (remote_shutdown s = true -> shutting_down s = true) ->
  history_ok es s ->
  exists outs s' log, run_events es s = (Ret outs, s') /\
    nonempty outs = log.*2 /\ in_order log.
Proof.
  intros Es Hs Hok. destruct (history_inv es s [] [] (hist_new s Es Hs) Hok) as (outs & s' & log & E & H & Hl).
  exists outs, s', log. split; [done|]. split; [done|]. apply H.
Qed.

(** C4: Once every IROB of the peer has arrived completely, in whatever order, and
    names only dependencies that were begun before it, a read that gives the
    connected application nothing comes after everything was given: all the
    bytes of every IROB. *)
Theorem nothing_lost s es now len flags t :
  incoming_irobs s = rlattice_new -> (remote_shutdown s = true -> shutting_down s = true) ->
  history_ok es s ->
  (forall id w, W !! id = Some w -> (id, PBegin) ∈ parts_of es /\ (id, PEnd) ∈ parts_of es /\
     (forall i, (i < length (si_cut w))%nat -> (id, PChunk i) ∈ parts_of es) /\
     forall d, d ∈ si_deps w -> is_Some (W !! d) /\ d < id) ->
  0 < len -> has_bits flags MSG_PEEK = false -> has_bits flags MSG_WAITALL = false ->
  exists outs s' log, run_events es s = (Ret outs, s') /\ nonempty outs = log.*2 /\
    exists res s'', mc_recv k now len flags t s' = (Ret res, s'') /\
      (bytes_of res = [] -> res <> NotConnected ->
       forall id w, W !! id = Some w -> log_of id log = bytes_of_chunks (si_cut w)).
Proof.
  intros Es Hs Hok Hall Hlen Hpeek Hwa.
  destruct (history_inv es s [] [] (hist_new s Es Hs) Hok) as (outs & s' & log & E & H & Hl).
  simpl in H. destruct (hist_recv _ log s' now len flags t H ltac:(done)) as (res & s'' & log' & E' & _ & _ & Hn).
  exists outs, s', log. split; [done|]. split; [done|]. exists res, s''. split; [done|].
  intros Hb Hc id w Ew. destruct (Hn Hb Hc) as (δ & h & a & H' & Hg & Ha & Hnd). rewrite <- Hg.
  assert (id ∈ finished a) as Hf.
  { apply (all_finished lo hi Hlo Hhi Hwin W HW δ h (incoming_irobs s') a id w); try done.
    intros j wj Ej. destruct (Hall j wj Ej) as (H1 & H2 & H3 & H4). split_and!; auto. }
  destruct (di_past _ _ _ _ _ _ _ _ H' id Hf) as [_ ->]. unfold cut_of. by rewrite Ew.
Qed.

(** The IROB is complete and announced. *)
Definition whole id s : Prop := exists o, rfind id (incoming_irobs s) = Some o /\
  r_is_complete o = Ret true /\ placeholder (rbase o) = false.

(** C23: The message that completes an IROB, be it its Begin_IROB, one of its
    chunks or its End_IROB, puts an acknowledgement of the IROB in line on the
    connection it came over. *)
Theorem completion_acknowledged s es now cs id q :
  incoming_irobs s = rlattice_new -> (remote_shutdown s = true -> shutting_down s = true) ->
  history_ok es s ->
  let s1 := snd (run_events es s) in
  event_ok (EvMsg now cs id q) s1 -> ~ whole id s1 ->
  let s2 := snd (run_event (EvMsg now cs id q) s1) in
  whole id s2 -> ack_queued cs id s2.
Proof.
  intros Es Hs Hok s1 [Hcs [m Hm]] Hnot.
  destruct (history_inv es s [] [] (hist_new s Es Hs) Hok) as (outs & s1' & log & E & H & _).
  assert (s1 = s1') as Es1 by (unfold s1; by rewrite E). clearbody s1. subst s1'.
  destruct H as [(δ & h & a & H & _) _ _]. unfold run_event. rewrite Hm.
  erewrite M_bind_ret by reflexivity. unfold msg_of in Hm.
  destruct (W !! id) as [w|] eqn:Ew; [|done]. cbn [mbind option_bind] in Hm.
  pose proof (wo_id _ _ _ HW id w Ew) as Hid.
  assert (exists s2 h2 a2, dispatch k now cs m s1 = (Ret tt, s2) /\
    delivery_inv lo hi W ∅ (arrive_part id q δ) h2 (incoming_irobs s2) a2 /\
    (acked_if_complete cs id a2 s2 \/ live a2 = live a)) as (s2 & h2 & a2 & E2 & H2 & K).
  { destruct q as [|i|].
    - injection Hm as <-.
      destruct (do_begin_ok lo hi Hlo Hhi Hwin W HW HWw now cs δ h a s1 id w H Ew Hcs)
        as (s2 & h2 & a2 & ? & _ & ? & ?). by exists s2, h2, a2.
    - destruct (si_cut w !! i) as [c|] eqn:Hc; [|done]. injection Hm as <-.
      destruct (do_chunk_ok lo hi Hlo Hhi Hwin W HW HWw now cs δ h a s1 id w i c H Ew Hc Hcs)
        as (s2 & h2 & a2 & ? & _ & ? & ?). exists s2, h2, a2. split_and!; auto.
    - destruct (si_ended w) eqn:Hend; [|done]. injection Hm as <-.
      destruct (do_end_ok lo hi Hlo Hhi Hwin W HW HWw now cs δ h a s1 id w H Ew Hend Hcs)
        as (s2 & h2 & a2 & ? & _ & ? & ? & _). exists s2, h2, a2. split_and!; auto. }
  erewrite M_bind_ret by exact E2. simpl. intros (o & Ho & Hc & Hp).
  rewrite (find_live lo hi Hwin W _ h2 a2 s2 id ∅ H2 Hid) in Ho. destruct K as [K|K]; [by apply (K o)|].
  destruct Hnot. exists o. rewrite (find_live lo hi Hwin W δ h a s1 id ∅ H Hid), <- K. done.
Qed.
End history.
Arguments event : clear implicits.

(** ** Witnesses *)

Import ListBits.

#[local] Existing Instance no_instruments.
#[local] Existing Instance no_estimates.

Definition demo_kernel : kernel := Kernel (fun _ => 0) (fun _ => 0) false false.

(** Two IROBs, the second after the first, and a connected multi-socket with
    one csocket. *)
Definition demo_world : world :=
  <[0 := Sent [] 4 [Chunk 0 0 0 2 (Some [Byte.x61; Byte.x62]); Chunk 0 1 2 1 (Some [Byte.x63])] true]>
  {[1 := Sent [0] 4 [Chunk 1 0 0 1 (Some [Byte.x64])] true]}.

Definition demo_msock : CMMSocketImpl (IntSet.t (list bool)) unit :=
  match msock_new 3 with
  | Ret s =>
      upd_sk_csocks (fun _ => {[5 := csocket_new (demo_wifi.1) (demo_wifi.2)]})
        (MSock (sk_csocks s) (available_csocks s) (network_chooser s) (local_ifaces s)
           (remote_ifaces s) (changed_local_ifaces s) (down_local_ifaces s) (outgoing_irobs s)
           (incoming_irobs s) (irob_indexes s) (shutting_down s) (remote_shutdown s)
           (goodbye_sent s) (sending_goodbye s) (accepting_side s) (remote_listener_port s)
           true (receive_timeout s) (Some 0) (net_restriction_stats s) (failure_timeouts s)
           (app_threads s) (g_next_irob s) (irob_sock_hash s) (thunks s) (sock s))
  | _ => MSock ∅ ∅ (ImplInstruments tt) ∅ ∅ ∅ ∅ lattice_new rlattice_new indexes_empty false false
           false false false 0 false no_time None ∅ ∅ ∅ 0 ∅ thunks_empty 0
  end.

Definition demo_history : list (event (IntSet.t (list bool)) unit) :=
  let msg id q := EvMsg no_time 5 id q in
  let read := EvRecv no_time 2 0 no_time in
  [msg 1 PEnd; msg 1 PBegin; msg 1 (PChunk 0%nat); read; msg 0 (PChunk 1%nat);
   msg 0 (PChunk 1%nat); msg 0 PBegin; msg 0 PEnd; read; msg 0 (PChunk 0%nat); read; read; read; read].

Lemma demo_world_cases id w : demo_world !! id = Some w ->
  (id = 0 /\ w = Sent [] 4 [Chunk 0 0 0 2 (Some [Byte.x61; Byte.x62]); Chunk 0 1 2 1 (Some [Byte.x63])] true) \/
  (id = 1 /\ w = Sent [0] 4 [Chunk 1 0 0 1 (Some [Byte.x64])] true).
Proof.
  unfold demo_world. rewrite lookup_insert_Some. intros [[<- <-]|[_ E]]; [by left|].
  apply lookup_singleton_Some in E as [<- <-]. by right.
Qed.

Lemma demo_world_ok : world_ok 0 100 demo_world.
Proof.
  split; intros id w [[-> ->]|[-> ->]]%demo_world_cases; simpl.
  1,2: split; [split; simpl; try lia; repeat constructor|done].
  all: repeat constructor; lia.
Qed.

Lemma demo_wire_ok : wire_ok 100 demo_world.
Proof.
  split; [lia|..]; intros id w [[-> ->]|[-> ->]]%demo_world_cases; simpl; try lia;
    repeat constructor.
Qed.

Lemma demo_history_ok : history_ok demo_world demo_kernel demo_history demo_msock.
Proof. vm_compute. split_and!; eauto. Qed.

Definition outputs_of (r : outcome (list mc_recv_result) * CMMSocketImpl (IntSet.t (list bool)) unit)
    : list (list byte) :=
  match r.1 with Ret outs => bytes_of <$> outs | _ => [] end.

Lemma demo_outputs :
  outputs_of (run_events demo_world demo_kernel demo_history demo_msock) =
  [[]; []; [Byte.x61; Byte.x62]; [Byte.x63]; [Byte.x64]; []].
Proof. vm_compute. reflexivity. Qed.

Lemma delivery_witness :
  exists log, in_order demo_world log /\
    log.*2 = [[Byte.x61; Byte.x62]; [Byte.x63]; [Byte.x64]].
Proof.
  destruct (delivery demo_world demo_kernel 0 100 ltac:(lia) ltac:(lia) ltac:(lia) demo_world_ok
    demo_wire_ok demo_msock demo_history eq_refl ltac:(done) demo_history_ok)
    as (outs & s' & log & E & H1 & H2).
  exists log. split; [exact H2|]. rewrite <- H1. pose proof demo_outputs as Ho.
  rewrite E in Ho. cbn [outputs_of fst] in Ho. rewrite Ho. reflexivity.
Defined.

Lemma nothing_lost_witness :
  exists log res, res <> NotConnected /\ bytes_of res = [] /\ log_of 1 log = [Byte.x64].
Proof.
  destruct (nothing_lost demo_world demo_kernel 0 100 ltac:(lia) ltac:(lia) ltac:(lia) demo_world_ok
    demo_wire_ok demo_msock demo_history no_time 2 0 no_time eq_refl ltac:(done) demo_history_ok)
    as (outs & s' & log & E & H1 & res & s'' & E2 & H2).
  - intros id w [[-> ->]|[-> ->]]%demo_world_cases; (split; [set_solver|split; [set_solver|split]]).
    + intros [|[|i]] Hi; [set_solver|set_solver|simpl in Hi; lia].
    + intros d Hd. by apply elem_of_nil in Hd.
    + intros [|i] Hi; [set_solver|simpl in Hi; lia].
    + intros d Hd. apply list_elem_of_singleton in Hd as ->. split; [by eexists|lia].
  - lia.
  - reflexivity.
  - reflexivity.
  - assert (fst (mc_recv demo_kernel no_time 2 0 no_time
      (snd (run_events demo_world demo_kernel demo_history demo_msock))) = Ret (RecvDone NoData)) as Er
      by (vm_compute; reflexivity).
    rewrite E in Er. cbn [snd] in Er. rewrite E2 in Er. injection Er as ->.
    exists log, (RecvDone NoData). split; [discriminate|]. split; [reflexivity|].
    exact (H2 eq_refl ltac:(discriminate) 1 _ eq_refl).
Defined.

(** The same history, up to the last chunk of the first IROB. *)
Lemma demo_prefix_ok : history_ok demo_world demo_kernel (take 9 demo_history) demo_msock.
Proof. vm_compute. split_and!; eauto. Qed.

Lemma completion_acknowledged_witness :
  let s1 := snd (run_events demo_world demo_kernel (take 9 demo_history) demo_msock) in
  ack_queued 5 0 (snd (run_event demo_world demo_kernel (EvMsg no_time 5 0 (PChunk 0%nat)) s1)).
Proof.
  apply (completion_acknowledged demo_world demo_kernel 0 100 ltac:(lia) ltac:(lia) ltac:(lia)
    demo_world_ok demo_wire_ok demo_msock (take 9 demo_history) no_time 5 0 (PChunk 0%nat)
    eq_refl ltac:(done) demo_prefix_ok).
  - split; vm_compute; eauto.
  - intros (o & Ho & Hc & _). vm_compute in Ho. injection Ho as <-. vm_compute in Hc. discriminate Hc.
  - eexists. split_and!; vm_compute; reflexivity.
Defined.

Lemma recv_spec_witness : exists r' acc,
  recv 2 0 (RecvEnv false false true false)
    (incoming_irobs (snd (run_events demo_world demo_kernel (take 10 demo_history) demo_msock))) =
    Ret (Some (Received acc, r')) /\ acc_bytes acc = [Byte.x61; Byte.x62].
Proof.
  assert (history_ok demo_world demo_kernel (take 10 demo_history) demo_msock) as Hok
    by (vm_compute; split_and!; eauto).
  destruct (history_inv demo_world demo_kernel 0 100 ltac:(lia) ltac:(lia) ltac:(lia) demo_world_ok
    demo_wire_ok (take 10 demo_history) demo_msock [] [] (hist_new demo_world 0 100 ltac:(lia) ltac:(lia) ltac:(lia) demo_msock eq_refl ltac:(done)) Hok)
    as (outs & s1 & log & E & [(δ & h & a & H & _) _ _] & _).
  assert (rl_inv 0 100 (fun _ => obj_ok) None ∅ h (incoming_irobs s1) a) as Hrl.
  { eapply rl_inv_mono; [|apply (di_rl _ _ _ _ _ _ _ _ H)]. intros j o _ _.
    apply (origin_obj_ok demo_world (wo_cut _ _ _ demo_world_ok)). }
  destruct (recv_spec 0 100 h (incoming_irobs s1) a 2 0 (RecvEnv false false true false)
    ltac:(lia) ltac:(lia) ltac:(lia) Hrl ltac:(lia) eq_refl eq_refl ltac:(discriminate))
    as (res & r' & a' & Er & _ & _).
  rewrite E. cbn [snd]. rewrite Er.
  assert (match recv 2 0 (RecvEnv false false true false) (incoming_irobs
      (snd (run_events demo_world demo_kernel (take 10 demo_history) demo_msock))) with
    | Ret (Some (Received acc, _)) => acc_bytes acc = [Byte.x61; Byte.x62]
    | _ => False end) as Hb by (vm_compute; reflexivity).
  rewrite E in Hb. cbn [snd] in Hb. rewrite Er in Hb. destruct res as [acc| |acc]; [|destruct Hb..].
  exists r', acc. split; [exact eq_refl|exact Hb].
Defined.
