(* ===== verification/OptionsSpec.v ===== *)
(** Setting socket options: before there are connections, what was set is what
    is read back and what later connections get; with a connection nothing of this works,
    because the option number passed on is 0. *)

From S2P Require Import Prelude Logic Labels Scheduling Irob IntSet Control SenderIrob ReceiverIrob.
From S2P Require Import Lattice ReceiverLattice Chooser Thunks MultiSocket Socket Options History.
From Stdlib Require Import Lia.

Section options.
Context {IS I : Type} `{!IdSet IS} `{!InstrumentsChooser I} {NE : NetEstimates} {OSI : OS}.
Abbreviation MS := (mcsock IS I).
Implicit Types (m : MS) (opts : gmap Z (gmap Z (option (list byte)))).

(** The options that the library hands to the sockets. *)
Definition ordinary (name : Z) : bool :=
  negb (existsb (Z.eqb name) [SO_CMM_REDUNDANCY_STRATEGY; O_NONBLOCK; SO_RCVTIMEO; SO_SNDTIMEO; SO_ERROR]).

Lemma ordinary_cases name : ordinary name = true ->
  (name =? SO_CMM_REDUNDANCY_STRATEGY) = false /\ (name =? O_NONBLOCK) = false /\ (name =? SO_RCVTIMEO) = false /\
  (name =? SO_SNDTIMEO) = false /\ (name =? SO_ERROR) = false.
Proof.
  unfold ordinary. simpl. intros H%negb_true_iff. rewrite !orb_false_iff in H. tauto.
Qed.

(** The entry as it is. *)
Definition raw_entry level name opts : option (option (list byte)) := default ∅ (opts !! level) !! name.

Lemma raw_store l n v opts l' n' :
  raw_entry l' n' (store_option l n v opts) = if (l' =? l) && (n' =? n) then Some v else raw_entry l' n' opts.
Proof.
  unfold raw_entry, store_option. destruct (Z.eqb_spec l' l) as [->|Hl]; simpl.
  - rewrite lookup_insert_eq. simpl. destruct (Z.eqb_spec n' n) as [->|Hn].
    + by rewrite lookup_insert_eq.
    + by rewrite lookup_insert_ne.
  - by rewrite lookup_insert_ne.
Qed.

Lemma sys_run c m : exists rc out e,
  sys c m = (Ret (rc, out), set_errno e (set_log (sys_log m ++ [c]) m)) /\
  (rc, out) = ((os_answer (sys_log m) c).1.1, (os_answer (sys_log m) c).2).
Proof.
  unfold sys. destruct (os_answer (sys_log m) c) as [[rc err] out] eqn:E. exists rc, out.
  exists (if rc <? 0 then err else mc_errno m). split; [|done].
  etransitivity; [by apply M_bind_ret|]. rewrite E. etransitivity; [by apply M_bind_ret|].
  destruct (rc <? 0); reflexivity.
Qed.

Lemma no_csock m : available_csocks (mc_sk m) = ∅ ->
  exists m', on_msk (csock_with_labels 0 0) m = (Ret None, m') /\ m' = m.
Proof.
  intros H. exists m. split; [|done]. unfold on_msk, zoom, csock_with_labels, find_csock, csock_list.
  unfold mbind, M_bind, gets. simpl. rewrite H, ascending_empty. by destruct m.
Qed.

Lemma get_sk m : on_msk get m = (Ret (mc_sk m), m).
Proof. by destruct m. Qed.

(** One option set on a multi-socket without connections. *)
Lemma set_one m level name v :
  ordinary name = true -> available_csocks (mc_sk m) = ∅ ->
  exists m', mc_setsockopt level name v m = (Ret 0, m') /\ mc_sk m' = mc_sk m /\
    sockopts m' = store_option level name (Some v) (sockopts m).
Proof.
  intros (E1 & E2 & E3 & E4 & _)%ordinary_cases Ha. unfold mc_setsockopt. rewrite E1, E2, E3, E4. simpl.
  destruct (sys_run (OsSetsockopt (Fd (sock (mc_sk m))) level name v) m) as (rc & out & e & E & _).
  eexists. split; [|split].
  - etransitivity; [by apply M_bind_ret|]. cbn [andb]. etransitivity; [by apply M_bind_ret|].
    etransitivity; [exact (M_bind_ret _ _ _ _ _ (get_sk m))|]. etransitivity; [exact (M_bind_ret _ _ _ _ _ E)|].
    rewrite Ha, ascending_empty. reflexivity.
  - done.
  - done.
Qed.

Fixpoint set_list (l : list (Z * Z * list byte)) : M MS unit :=
  match l with
  | [] => mret tt
  | (level, name, v) :: l => mc_setsockopt level name v;; set_list l
  end.

(** The value set last. *)
Fixpoint last_set (l : list (Z * Z * list byte)) (level name : Z) : option (list byte) :=
  match l with
  | [] => None
  | (l', n', v) :: l =>
      match last_set l level name with
      | Some v' => Some v'
      | None => if (level =? l') && (name =? n') then Some v else None
      end
  end.

Lemma set_list_spec l m :
  Forall (fun x => ordinary x.1.2 = true) l -> available_csocks (mc_sk m) = ∅ ->
  exists m', set_list l m = (Ret tt, m') /\ mc_sk m' = mc_sk m /\
    forall level name, raw_entry level name (sockopts m') =
      match last_set l level name with Some v => Some (Some v) | None => raw_entry level name (sockopts m) end.
Proof.
  revert m. induction l as [|[[lv n] v] l IH]; intros m Hl Ha; simpl; [by exists m|].
  apply Forall_cons in Hl as [Hn Hl]. destruct (set_one m lv n v Hn Ha) as (m1 & E1 & Hs1 & Ho1).
  rewrite <- Hs1 in Ha. destruct (IH m1 Hl Ha) as (m2 & E2 & Hs2 & Ho2). exists m2. split; [|split].
  - etransitivity; [exact (M_bind_ret _ _ _ _ _ E1)|]. exact E2.
  - congruence.
  - intros. rewrite Ho2, Ho1, raw_store. destruct (last_set l level name); [done|]. by destruct (_ && _).
Qed.

Lemma get_one m level name v n :
  ordinary name = true -> available_csocks (mc_sk m) = ∅ -> raw_entry level name (sockopts m) = Some (Some v) ->
  exists m', mc_getsockopt level name (Some n) m =
    (if n <? Z.of_nat (length v) then Trap UndefinedBehaviour else Ret (0, Some (VBytes v)), m').
Proof.
  intros (E1 & E2 & E3 & E4 & E5)%ordinary_cases Ha Hv. unfold mc_getsockopt.
  destruct (no_csock m Ha) as (? & E & ->). eexists.
  etransitivity; [exact (M_bind_ret _ _ _ _ _ (get_sk m))|]. rewrite E5, E3.
  etransitivity; [exact (M_bind_ret _ _ _ _ _ E)|]. etransitivity; [by apply M_bind_ret|].
  etransitivity; [by apply M_bind_ret|]. simpl.
  assert (raw_entry level name (store_option level name (option_entry level name (sockopts m)) (sockopts m)) = Some (Some v)) as Er.
  { rewrite raw_store, !Z.eqb_refl. unfold option_entry. fold (raw_entry level name (sockopts m)). by rewrite Hv. }
  unfold option_entry at 1. unfold raw_entry in Er. rewrite Er.
  simpl. destruct (n <? _); reflexivity.
Qed.

(** ** What a new connection gets *)
Lemma elem_of_options opts level name v :
  (level, name, v) ∈ options_list opts <->
  exists o, raw_entry level name opts = Some o /\ v = default [] o.
Proof.
  unfold options_list, raw_entry. rewrite list_elem_of_bind. setoid_rewrite elem_of_ascending. split.
  - intros (l & H & _). apply list_elem_of_bind in H as (n & H & _).
    destruct (default ∅ (opts !! l) !! n) as [o|] eqn:E; [|set_solver].
    apply list_elem_of_singleton in H as [= -> -> ->]. by exists o.
  - intros (o & E & ->). exists level. split; [|apply elem_of_dom; destruct (opts !! level); [done|simpl in E; by rewrite lookup_empty in E]].
    apply list_elem_of_bind. exists name. rewrite E. split; [by apply list_elem_of_singleton|].
    apply elem_of_ascending, elem_of_dom. by exists o.
Qed.

(** The system takes every option. *)
Definition accepts (t : target) : Prop := forall log level name v, 0 <= (os_answer log (OsSetsockopt t level name v)).1.1.

Lemma set_each_spec t l m : accepts t ->
  exists m', set_each t l m = (Ret 0, m') /\
    sys_log m' = sys_log m ++ ((fun x : Z * Z * list byte => OsSetsockopt t x.1.1 x.1.2 x.2) <$> l).
Proof.
  intros Ht. revert m. induction l as [|[[lv n] v] l IH]; intros m; simpl; [exists m; by rewrite app_nil_r|].
  destruct (sys_run (OsSetsockopt t lv n v) m) as (rc & out & e & E & Hr). injection Hr as -> ->.
  assert (sys_rc (OsSetsockopt t lv n v) m = (Ret (os_answer (sys_log m) (OsSetsockopt t lv n v)).1.1,
    set_errno e (set_log (sys_log m ++ [OsSetsockopt t lv n v]) m))) as E'.
  { unfold sys_rc. etransitivity; [exact (M_bind_ret _ _ _ _ _ E)|reflexivity]. }
  destruct (IH (set_errno e (set_log (sys_log m ++ [OsSetsockopt t lv n v]) m))) as (m' & Em & Hm).
  exists m'. split.
  - etransitivity; [exact (M_bind_ret _ _ _ _ _ E')|]. specialize (Ht (sys_log m) lv n v).
    apply Z.ltb_ge in Ht. by rewrite Ht.
  - rewrite Hm. simpl. by rewrite <- app_assoc.
Qed.

(** C33: Options set on a multi-socket that has no connection yet and no option
    set before all succeed; reading one back into a buffer that is large enough gives the
    value set last, and overruns a shorter buffer; and [set_all_sockopts], which a
    connection made by connecting calls (an accepted one does not), sets on the
    descriptor, if the system accepts them, exactly the options that were set, each
    with the value set last. This is about the options that the library hands to the
    sockets: all but O_NONBLOCK, SO_RCVTIMEO, SO_SNDTIMEO, SO_ERROR and the library's own
    redundancy strategy, which it keeps to itself or drops. *)
Theorem options_roundtrip l m t :
  Forall (fun x => ordinary x.1.2 = true) l -> available_csocks (mc_sk m) = ∅ -> sockopts m = ∅ -> accepts t ->
  exists m', set_list l m = (Ret tt, m') /\
    (forall level name n v, ordinary name = true -> last_set l level name = Some v ->
       exists m'', mc_getsockopt level name (Some n) m' =
         (if n <? Z.of_nat (length v) then Trap UndefinedBehaviour else Ret (0, Some (VBytes v)), m'')) /\
    exists m'' calls, set_all_sockopts t m' = (Ret 0, m'') /\ sys_log m'' = sys_log m' ++ calls /\
      forall level name v, OsSetsockopt t level name v ∈ calls <-> last_set l level name = Some v.
Proof.
  intros Hl Ha H0 Ht. destruct (set_list_spec l m Hl Ha) as (m' & E & Hs & Ho). exists m'. split; [done|].
  assert (forall level name, raw_entry level name (sockopts m') = Some <$> last_set l level name) as Ho'.
  { intros. rewrite Ho, H0. unfold raw_entry. rewrite lookup_empty. simpl. rewrite lookup_empty. by destruct last_set. }
  split.
  - intros level name n v Hn Hv. apply get_one; [done|congruence|]. by rewrite Ho', Hv.
  - destruct (set_each_spec t (options_list (sockopts m')) m' Ht) as (m'' & E'' & Hlog).
    eexists m'', _. split; [|split; [exact Hlog|]].
    { unfold set_all_sockopts. etransitivity; [by apply M_bind_ret|]. exact E''. }
    intros level name v. rewrite list_elem_of_fmap. split.
    + intros ([[a b] c] & [= <- <- ->] & (o & E1 & ->)%elem_of_options). rewrite Ho' in E1.
      destruct (last_set l level name); [|done]. by injection E1 as <-.
    + intros Hv. exists (level, name, v). split; [done|]. apply elem_of_options. exists (Some v). by rewrite Ho', Hv.
Qed.

(** ** With connections *)
Lemma sock_opt_run level name v h m : exists rc e,
  set_sock_opt_call (set_sock_opt_new level name v) h m =
    (Ret rc, set_errno e (set_log (sys_log m ++ [OsSetsockopt (CsockFd h) level 0 v]) m)) /\
  rc = (os_answer (sys_log m) (OsSetsockopt (CsockFd h) level 0 v)).1.1.
Proof.
  destruct (sys_run (OsSetsockopt (CsockFd h) level 0 v) m) as (rc & out & e & E & Hr). injection Hr as -> _.
  eexists _, e. split; [|done]. unfold set_sock_opt_call, sys_rc. simpl.
  etransitivity; [exact (M_bind_ret _ _ _ _ _ E)|reflexivity].
Qed.

(** Option 0 is set on the connections one after the other, until one refuses. *)
Lemma for_each_run level name v l m : exists rc e hs,
  for_each (set_sock_opt_call (set_sock_opt_new level name v)) l m =
    (Ret rc, set_errno e (set_log (sys_log m ++ ((fun h => OsSetsockopt (CsockFd h) level 0 v) <$> hs)) m)) /\
  hs `prefix_of` l /\ (0 <= rc -> hs = l) /\
  (rc < 0 -> exists h log, last hs = Some h /\ (os_answer log (OsSetsockopt (CsockFd h) level 0 v)).1.1 = rc) /\
  (l <> [] -> (forall h log, h ∈ l -> (os_answer log (OsSetsockopt (CsockFd h) level 0 v)).1.1 < 0) -> rc < 0).
Proof.
  revert m. induction l as [|h l IH]; intros m.
  - exists 0, (mc_errno m), []. simpl. rewrite app_nil_r. split_and!; try done; by destruct m.
  - destruct (sock_opt_run level name v h m) as (rc & e & E & Hrc). simpl. destruct (rc <? 0) eqn:Hn.
    + exists rc, e, [h]. apply Z.ltb_lt in Hn. split_and!; [|by eexists|lia|intros _; by exists h, (sys_log m)|done].
      etransitivity; [exact (M_bind_ret _ _ _ _ _ E)|]. apply Z.ltb_lt in Hn. by rewrite Hn.
    + apply Z.ltb_ge in Hn.
      destruct (IH (set_errno e (set_log (sys_log m ++ [OsSetsockopt (CsockFd h) level 0 v]) m)))
        as (rc' & e' & hs & E' & Hp & Hall & Hlt & _).
      exists rc', e', (h :: hs). split_and!.
      * etransitivity; [exact (M_bind_ret _ _ _ _ _ E)|]. apply Z.ltb_ge in Hn. rewrite Hn.
        etransitivity; [exact E'|]. simpl. by rewrite <- app_assoc.
      * by apply prefix_cons.
      * intros H. by rewrite Hall.
      * intros H. destruct (Hlt H) as (h' & log & Hl & ?). exists h', log. split; [|done]. by destruct hs.
      * intros _ Href. specialize (Href h (sys_log m) ltac:(set_solver)). lia.
Qed.

(** With connections in place, [mc_setsockopt] does not set the option asked
    for: whatever ordinary option is set, what reaches the descriptors of the connections
    is option number 0 of that level; if one of them refuses it the call fails
    with that answer and the option is not kept for later connections either, and it is
    kept exactly if none does. *)
Theorem setsockopt_connected level name v m :
  ordinary name = true -> available_csocks (mc_sk m) <> ∅ ->
  exists rc m' hs, mc_setsockopt level name v m = (Ret rc, m') /\ mc_sk m' = mc_sk m /\
    sys_log m' = sys_log m ++ OsSetsockopt (Fd (sock (mc_sk m))) level name v ::
                              ((fun h => OsSetsockopt (CsockFd h) level 0 v) <$> hs) /\
    hs `prefix_of` ascending (available_csocks (mc_sk m)) /\
    ((forall h log, h ∈ available_csocks (mc_sk m) -> (os_answer log (OsSetsockopt (CsockFd h) level 0 v)).1.1 < 0) ->
     rc < 0) /\
    (rc < 0 /\ sockopts m' = sockopts m \/
     rc = 0 /\ hs = ascending (available_csocks (mc_sk m)) /\
     sockopts m' = store_option level name (Some v) (sockopts m)).
Proof.
  intros (E1 & E2 & E3 & E4 & _)%ordinary_cases Ha. unfold mc_setsockopt. rewrite E1, E2, E3, E4. simpl.
  destruct (sys_run (OsSetsockopt (Fd (sock (mc_sk m))) level name v) m) as (rc & out & e & E & _).
  destruct (for_each_run level name v (ascending (available_csocks (mc_sk m)))
    (set_errno e (set_log (sys_log m ++ [OsSetsockopt (Fd (sock (mc_sk m))) level name v]) m)))
    as (rc' & e' & hs & E' & Hp & Hall & _ & Href).
  assert (ascending (available_csocks (mc_sk m)) <> []) as Hne.
  { destruct (set_choose_L _ Ha) as [h Hh]. apply elem_of_ascending in Hh. intros E0. rewrite E0 in Hh. set_solver. }
  assert ((forall h log, h ∈ available_csocks (mc_sk m) -> (os_answer log (OsSetsockopt (CsockFd h) level 0 v)).1.1 < 0) ->
    rc' < 0) as Href'.
  { intros H. apply (Href Hne). intros h log Hh. apply H. by apply elem_of_ascending. }
  set (m1 := set_errno e' _) in E'.
  assert (sys_log m1 = sys_log m ++ OsSetsockopt (Fd (sock (mc_sk m))) level name v ::
                              ((fun h => OsSetsockopt (CsockFd h) level 0 v) <$> hs)) as Hlog.
  { subst m1. simpl. by rewrite <- app_assoc. }
  destruct (rc' <? 0) eqn:Hn.
  - exists rc', m1, hs. apply Z.ltb_lt in Hn. split_and!; try done; [|by left].
    etransitivity; [by apply M_bind_ret|]. cbn [andb]. etransitivity; [by apply M_bind_ret|].
    etransitivity; [exact (M_bind_ret _ _ _ _ _ (get_sk m))|]. etransitivity; [exact (M_bind_ret _ _ _ _ _ E)|].
    etransitivity; [exact (M_bind_ret _ _ _ _ _ E')|]. apply Z.ltb_lt in Hn. by rewrite Hn.
  - apply Z.ltb_ge in Hn. exists 0, (set_sockopts (store_option level name (Some v)) m1), hs.
    split_and!; try done; [|intros H; specialize (Href' H); lia|right; by rewrite Hall].
    etransitivity; [by apply M_bind_ret|]. cbn [andb]. etransitivity; [by apply M_bind_ret|].
    etransitivity; [exact (M_bind_ret _ _ _ _ _ (get_sk m))|]. etransitivity; [exact (M_bind_ret _ _ _ _ _ E)|].
    etransitivity; [exact (M_bind_ret _ _ _ _ _ E')|]. apply Z.ltb_ge in Hn. by rewrite Hn.
Qed.
End options.

Import ListBits.
#[local] Existing Instance no_instruments.
#[local] Existing Instance no_estimates.

(** A system that takes the options on every descriptor but those of connections. *)
#[local] Instance demo_os : OS := {|
  os_answer := fun _ c => match c with OsSetsockopt (CsockFd _) _ _ _ => (-1, EINVAL, []) | _ => (0, 0, []) end
|}.
Definition demo_opt_sock (csocks : gset Z) : mcsock (IntSet.t (list bool)) unit :=
  McSock (upd_available_csocks (fun _ => csocks) demo_msock) ∅ 0 false false [] 0.

(** SO_RCVBUF (8) and TCP_NODELAY (level 6, name 1), the latter twice. *)
Definition demo_opts : list (Z * Z * list byte) :=
  [(SOL_SOCKET, 8, [Byte.x01]); (6, 1, [Byte.x00]); (6, 1, [Byte.x01])].

Lemma options_roundtrip_witness : exists m', set_list demo_opts (demo_opt_sock ∅) = (Ret tt, m') /\
  (exists m'', mc_getsockopt 6 1 (Some 4) m' = (Ret (0, Some (VBytes [Byte.x01])), m'')) /\
  exists m'' calls, set_all_sockopts (Fd 7) m' = (Ret 0, m'') /\ sys_log m'' = sys_log m' ++ calls /\
    OsSetsockopt (Fd 7) SOL_SOCKET 8 [Byte.x01] ∈ calls.
Proof.
  destruct (options_roundtrip demo_opts (demo_opt_sock ∅) (Fd 7)) as (m' & E & Hget & m'' & calls & E' & Hc & Hall).
  - repeat constructor.
  - reflexivity.
  - reflexivity.
  - intros log level name v. cbn. lia.
  - exists m'. split; [exact E|]. split; [exact (Hget 6 1 4 [Byte.x01] eq_refl eq_refl)|].
    exists m'', calls. split; [exact E'|]. split; [exact Hc|]. apply Hall. reflexivity.
Defined.

Lemma setsockopt_connected_witness : exists rc m', rc < 0 /\
  mc_setsockopt SOL_SOCKET 8 [Byte.x01] (demo_opt_sock {[5]}) = (Ret rc, m') /\ sockopts m' = ∅.
Proof.
  destruct (setsockopt_connected SOL_SOCKET 8 [Byte.x01] (demo_opt_sock {[5]})) as (rc & m' & hs & E & _ & _ & _ & Hr & K).
  - reflexivity.
  - cbn. intros H. apply (not_elem_of_empty (C := gset Z) 5). rewrite <- H. by apply elem_of_singleton.
  - assert (rc < 0) as Hrc by (apply Hr; intros h log _; cbn; lia).
    exists rc, m'. split; [exact Hrc|]. split; [exact E|]. destruct K as [[_ K]|[K _]]; [exact K|lia].
Defined.
