(* ===== verification/ApiSpec.v ===== *)
(** What the functions of the library do on descriptors that are not
    multi-sockets, and where errno decides. *)

From S2P Require Import Prelude Logic Labels Scheduling Irob IntSet Control SenderIrob ReceiverIrob.
From S2P Require Import Lattice ReceiverLattice Chooser Thunks MultiSocket Socket Options Bootstrap Process Api History.
From Stdlib Require Import Lia.

Section api.
Context {IS I : Type} `{!IdSet IS} `{!InstrumentsChooser I} {NE : NetEstimates} {OSI : OS}.
Context (k : kernel) (now : timeval).
Abbreviation P := (process IS I).
Implicit Types (p : P) (c : call IS I) (fd : Z).

(** The program that does not use the library: the same call on the operating
    system.  Calls without a counterpart fail with EBADF. *)
Definition bad {A} (a : A) : M P A := fail_errno EBADF a.
Definition sys_write fd (buf : list byte) (flags : Z) : M P Z :=
  if flags =? 0 then os_rc (OsWrite (Fd fd) buf) else os_rc (OsSend (Fd fd) buf flags).
Definition sys_value (v : Z -> list byte -> value) (o : os_call) : M P value :=
  os o ≫= fun (r : Z * list byte) => mret (v r.1 r.2).
Definition rc_value (rc : Z) (_ : list byte) : value := VRc rc.
Definition sys_call c : M P value :=
  match c with
  | CSocket f t pr => sys_value rc_value (OsSocket f t pr)
  | CSend fd buf flags _ _ _ => rc ← sys_write fd buf flags; mret (VApi (Done rc))
  | CWritev fd vec _ _ _ => rc ← os_rc (OsWritev (Fd fd) vec); mret (VApi (Done rc))
  | CGetpeername fd => sys_value VAddr (OsGetpeername (Fd fd))
  | CGetsockname fd => sys_value VAddr (OsGetsockname (Fd fd))
  | CListen fd n => sys_value rc_value (OsListen (Fd fd) n)
  | CAccept fd _ => sys_value (fun rc => VAccept (Some rc)) (OsAccept (Fd fd))
  | CRecv fd n flags _ =>
      sys_value (fun rc out => VRecv (SysRecv rc out))
        (if flags =? 0 then OsRead (Fd fd) n else OsRecv (Fd fd) n flags)
  | CGetsockopt fd level name _ => sys_value (fun rc out => VOption rc (Some (VBytes out))) (OsGetsockopt (Fd fd) level name)
  | CSetsockopt fd level name v => sys_value rc_value (OsSetsockopt (Fd fd) level name v)
  | CConnect fd addr _ => sys_value (fun rc _ => VAttempt (Some rc)) (OsConnect (Fd fd) addr)
  | CShutdown fd how => sys_value rc_value (OsShutdown (Fd fd) how)
  | CClose fd => sys_value rc_value (OsClose (Fd fd))
  | CThunkCancel _ _ _ _ => mret (VRc 0)
  | CGetFailureTimeout _ _ _ => bad (VTimeout (-1) None)
  | CSetFailureTimeout _ _ _ | CIrobRelabel _ _ => bad (VRc (-1))
  | CNumNetworks _ => mret (VRc 1)
  | CBeginIrob _ _ _ _ _ | CEndIrob _ | CIrobSend _ _ | CIrobWritev _ _ => bad (VApi (Done (-1)))
  | CSendWithDeps fd buf flags _ _ _ _ => bad tt;; rc ← sys_write fd buf flags; mret (VDeps (Done rc) None)
  | CWritevWithDeps fd vec _ _ _ _ => bad tt;; rc ← os_rc (OsWritev (Fd fd) vec); mret (VDeps (Done rc) None)
  end.

(** The call is about a descriptor, or an IROB, the library knows nothing of. *)
Definition no_msock p fd : bool := bool_decide (cmm_sock_hash p !! fd = None).
Definition plain p c : bool :=
  match c with
  | CSocket f t _ => negb ((f =? PF_INET) && (t =? SOCK_STREAM))
  | CSend fd _ _ _ _ _ | CWritev fd _ _ _ _ | CGetpeername fd | CGetsockname fd | CRecv fd _ _ _
  | CGetsockopt fd _ _ _ | CSetsockopt fd _ _ _ | CConnect fd _ _ | CShutdown fd _
  | CGetFailureTimeout fd _ _ | CSetFailureTimeout fd _ _ | CNumNetworks fd | CBeginIrob fd _ _ _ _
  | CSendWithDeps fd _ _ _ _ _ _ | CWritevWithDeps fd _ _ _ _ _ => no_msock p fd
  | CAccept fd _ | CClose fd => no_msock p fd && bool_decide (fd ∉ cmm_listeners p)
  | CEndIrob id | CIrobSend id _ | CIrobWritev id _ | CIrobRelabel id _ => bool_decide (sock_of_irob p !! id = None)
  | CListen _ _ | CThunkCancel _ _ _ _ => false
  end.

Lemma lookup_plain {A} fd (f : CMMSocket IS I -> M P A) p :
  no_msock p fd = true -> lookup k now fd f p = f (passthrough fd) p.
Proof. unfold no_msock. intros H%bool_decide_eq_true. unfold lookup, lookup_sock. by rewrite H. Qed.
Lemma by_irob_plain {A} id (f : CMMSocket IS I -> M P A) p :
  sock_of_irob p !! id = None -> by_irob k now id f p = f (passthrough (-1)) p.
Proof. intros H. unfold by_irob, lookup_by_irob. by rewrite H. Qed.

Lemma M_bind_eq {S A B} (m m' : M S A) (f : A -> M S B) s s' : m s = m' s' -> (m ≫= f) s = (m' ≫= f) s'.
Proof. unfold mbind, M_bind. intros ->. reflexivity. Qed.

Lemma with_deps_plain fd deps labels rh arg plain' chunk p :
  no_msock p fd = true ->
  with_deps k now fd deps labels rh arg plain' chunk p =
    (r ← plain'; mret (r, None)) (set_process_errno EBADF p).
Proof.
  intros H. unfold with_deps. etransitivity.
  { apply M_bind_ret. unfold begin_irob. etransitivity; [by apply lookup_plain|]. reflexivity. }
  reflexivity.
Qed.

(** Unfold down to the answer of the one system call. *)
Ltac unfold_os :=
  unfold sys_value, sys_write, os_rc, os, mbind, M_bind, get, modify, mret, M_ret; cbn -[os_answer Z.eqb Z.ltb].
Ltac case_answer := match goal with |- context [os_answer ?l ?c] => destruct (os_answer l c) as [[] ?] end.
Ltac the_answer := unfold_os; case_answer; reflexivity.

Lemma call_plain c p : plain p c = true -> cmm_call k now c p = sys_call c p.
Proof.
  destruct c; simpl; intros H; try done.
  all: try (apply bool_decide_eq_true in H; etransitivity; [apply M_bind_eq; by apply by_irob_plain|]; reflexivity).
  all: try (etransitivity; [apply M_bind_eq; by apply lookup_plain|]; unfold sys_write; cbn [passthrough v_send v_writev v_recv v_getsockopt v_setsockopt v_connect v_shutdown];
            try destruct (flags =? 0); first [reflexivity|the_answer]).
  - apply negb_true_iff in H. unfold cmm_socket, create. destruct (family =? PF_INET), (type =? SOCK_STREAM); try done; the_answer.
  - apply andb_true_iff in H as [_ H%bool_decide_eq_true]. unfold cmm_accept, mc_accept. unfold_os.
    case_answer. rewrite (bool_decide_eq_true_2 _ H). reflexivity.
  - apply andb_true_iff in H as [H1%bool_decide_eq_true H2%bool_decide_eq_true]. unfold cmm_close, mc_close. unfold_os.
    rewrite H1, (bool_decide_eq_false_2 _ H2). cbn -[os_answer Z.ltb]. case_answer. reflexivity.
  - etransitivity; [apply M_bind_eq; etransitivity; [by apply with_deps_plain|apply M_bind_eq; by apply lookup_plain]|].
    cbn [passthrough v_send]. unfold sys_write. destruct (flags =? 0); unfold bad, fail_errno; the_answer.
  - etransitivity; [apply M_bind_eq; etransitivity; [by apply with_deps_plain|apply M_bind_eq; by apply lookup_plain]|].
    cbn [passthrough v_writev]. unfold bad, fail_errno; the_answer.
Qed.
(** ** A program that only uses such descriptors *)
Fixpoint run_calls (f : call IS I -> M P value) (cs : list (call IS I)) : M P (list value) :=
  match cs with
  | [] => mret []
  | c :: cs => v ← f c; vs ← run_calls f cs; mret (v :: vs)
  end.

(** What the library keeps, without the record of the system calls and errno. *)
Definition same_tables p p' : Prop :=
  cmm_sock_hash p' = cmm_sock_hash p /\ cmm_listeners p' = cmm_listeners p /\ static_ifaces p' = static_ifaces p /\
  next_irob p' = next_irob p /\ sock_of_irob p' = sock_of_irob p /\ thunk_hash p' = thunk_hash p.

Lemma same_tables_plain p p' c : same_tables p p' -> plain p' c = plain p c.
Proof. intros (H1 & H2 & _ & _ & H5 & _). unfold plain, no_msock. by rewrite H1, H2, H5. Qed.

Lemma sys_call_tables c p : exists v p', sys_call c p = (Ret v, p') /\ same_tables p p'.
Proof.
  destruct c; simpl; unfold bad, fail_errno, sys_write; try (destruct (flags =? 0)); unfold_os; try case_answer;
    eexists _, _; (split; [reflexivity|by split_and!]).
Qed.

(** C32: A program that uses the library's calls only on descriptors and IROBs
    that are not the library's gets from every call what the operating system gives it
    (or EBADF, where it has no such call), however many it makes and in whatever order: the
    same results, the same system calls and errno, and nothing of the library's state
    changes. *)
Theorem passthrough_transparent cs p :
  Forall (fun c => plain p c = true) cs ->
  run_calls (cmm_call k now) cs p = run_calls sys_call cs p /\
  exists vs p', run_calls (cmm_call k now) cs p = (Ret vs, p') /\ length vs = length cs /\ same_tables p p'.
Proof.
  revert p. induction cs as [|c cs IH]; intros p; simpl; [intros _; split; [done|]; by exists [], p|].
  intros [Hc Hcs]%Forall_cons. destruct (sys_call_tables c p) as (v & p1 & E & Ht).
  assert (Forall (fun c => plain p1 c = true) cs) as Hcs1.
  { eapply Forall_impl; [exact Hcs|]. intros c' H. by rewrite (same_tables_plain p p1). }
  destruct (IH p1 Hcs1) as (E1 & vs & p2 & E2 & Hl & Ht2).
  assert (forall f : call IS I -> M P value, f c p = (Ret v, p1) -> run_calls f cs p1 = (Ret vs, p2) ->
    (v ← f c; vs ← run_calls f cs; mret (v :: vs)) p = (Ret (v :: vs), p2)) as K.
  { intros f Ef Ev. etransitivity; [exact (M_bind_ret _ _ _ _ _ Ef)|]. etransitivity; [exact (M_bind_ret _ _ _ _ _ Ev)|]. done. }
  pose proof (call_plain c p Hc) as Ec. rewrite E in Ec.
  rewrite (K _ Ec E2). rewrite (K _ E ltac:(congruence)). split; [done|]. exists (v :: vs), p2.
  unfold same_tables in *. simpl. split_and!; try done; try lia; destruct_and!; congruence.
Qed.

(** ** Failing to begin an IROB *)

(** [cmm_send_with_deps] on a multi-socket whose [begin_irob] fails (no
    network, or a thunk was registered) looks at errno, which that failure has not
    set: if EBADF is left from an earlier call, the data is sent once more as a
    plain IROB, without the dependencies, in the state the failed attempt left;
    otherwise the failure is returned. *)
Theorem stale_errno_resends fd m s' rc buf flags deps labels rh arg p :
  cmm_sock_hash p !! fd = Some m -> shutting_down (mc_sk m) = false -> rc < 0 ->
  mc_begin_irob k now deps labels rh arg (mc_sk (load p m)) = (Ret (Done rc), s') ->
  let p' := save fd (with_sk s' (load p m)) p in
  cmm_send_with_deps k now fd buf flags deps labels rh arg p =
    if errno p =? EBADF
    then (r ← on_sock fd (with_errno send_errno (mc_send k now buf labels rh arg)); mret (r, None)) p'
    else (Ret (Done rc, None), p').
Proof.
  intros Hm Hs Hrc E p'. unfold cmm_send_with_deps, with_deps. etransitivity.
  { apply (M_bind_ret _ _ _ (Done rc) p'). unfold begin_irob, lookup, lookup_sock. rewrite Hm. cbn [impl v_begin_irob].
    unfold on_sock. rewrite Hm. unfold with_errno, mbind, M_bind, on_msk, zoom, get. cbn [fst snd].
    replace (mc_sk (with_sk (mc_sk (load p m)) (load p m))) with (mc_sk (load p m)) by reflexivity.
    rewrite E. unfold begin_errno, pipe_errno. simpl. rewrite Hs. reflexivity. }
  simpl. apply Z.ltb_lt in Hrc. rewrite Hrc. etransitivity; [by apply M_bind_ret|].
  replace (errno p') with (errno p) by done. destruct (errno p =? EBADF); [|done].
  apply M_bind_eq. unfold cmm_send, lookup, lookup_sock. unfold p' at 1. simpl. rewrite lookup_insert_eq. done.
Qed.
End api.

Import ListBits.
#[local] Existing Instance no_instruments.
#[local] Existing Instance no_estimates.

(** A system where every call succeeds with 0. *)
#[local] Instance quiet_os : OS := {| os_answer := fun _ _ => (0, 0, []) |}.
Abbreviation demo_P := (process (IntSet.t (list bool)) unit).

(** Descriptor 3 is a multi-socket whose only connection has bytes to send. *)
Definition busy_kernel : kernel := Kernel (fun _ => 1) (fun _ => 0) false false.
Definition demo_sock : CMMSocketImpl (IntSet.t (list bool)) unit := upd_bootstrap_status (fun _ => Some 0)
  (upd_available_csocks (fun _ => {[5]})
    (upd_sk_csocks (fun _ => {[5 := CSock (demo_wifi.1) (demo_wifi.2) true indexes_empty false]})
      (upd_local_ifaces (fun _ => {[ip_addr demo_wifi.1 := demo_wifi.1]})
        (upd_remote_ifaces (fun _ => {[ip_addr demo_wifi.2 := demo_wifi.2]}) demo_msock)))).
Definition demo_process (e : Z) : demo_P :=
  Process {[3 := McSock demo_sock ∅ 0 false false [] 0]} ∅ ∅ 0 ∅ thunks_empty [] e.

Lemma stale_errno_resends_witness :
  let go e := cmm_send_with_deps busy_kernel no_time 3 [Byte.x61] 0 [] CMM_LABEL_BACKGROUND (Some 99) 1 (demo_process e) in
  fst (go 0) = Ret (Done CMM_DEFERRED, None) /\ fst (go EBADF) = Ret (Done CMM_DEFERRED, None) /\
  count_thunks 3 (thunk_hash (snd (go 0))) = 1 /\ count_thunks 3 (thunk_hash (snd (go EBADF))) = 2.
Proof.
  intros go.
  pose (m := McSock demo_sock ∅ 0 false false [] 0 : mcsock (IntSet.t (list bool)) unit).
  pose (r e := mc_begin_irob busy_kernel no_time [] CMM_LABEL_BACKGROUND (Some 99) 1 (mc_sk (load (demo_process e) m))).
  assert (forall e, r e = (Ret (Done CMM_DEFERRED), snd (r e))) as E.
  { intros e. vm_compute. reflexivity. }
  pose proof (fun e => stale_errno_resends busy_kernel no_time 3 m (snd (r e)) CMM_DEFERRED [Byte.x61] 0 []
    CMM_LABEL_BACKGROUND (Some 99) 1 (demo_process e) eq_refl eq_refl eq_refl (E e)) as K.
  unfold go. rewrite (K 0), (K EBADF). repeat split; vm_compute; reflexivity.
Defined.

(** A local (AF_UNIX) socket is opened, written to, and closed. *)
Definition demo_calls : list (call (IntSet.t (list bool)) unit) :=
  [CSocket 1 SOCK_STREAM 0; CWritev 0 [[Byte.x61]] 0 None 0; CSendWithDeps 0 [Byte.x62] 0 [4] 0 None 0; CClose 0].
Lemma passthrough_transparent_witness :
  exists vs p', run_calls (cmm_call busy_kernel no_time) demo_calls (demo_process 0) = (Ret vs, p') /\ length vs = 4%nat /\
    os_log p' = [OsSocket 1 SOCK_STREAM 0; OsWritev (Fd 0) [[Byte.x61]]; OsWrite (Fd 0) [Byte.x62]; OsClose (Fd 0)].
Proof.
  destruct (passthrough_transparent busy_kernel no_time demo_calls (demo_process 0)) as (E1 & vs & p' & E & Hl & _).
  - repeat constructor.
  - exists vs, p'. split; [exact E|]. split; [exact Hl|]. rewrite E1 in E.
    vm_compute in E. injection E as _ <-. reflexivity.
Defined.
