(* ===== verification/ProcessSpec.v ===== *)
(** Opening multi-sockets and accepting connections: which descriptors are
    open afterwards, and what happens when there are none left. *)

From S2P Require Import Prelude Logic Labels Scheduling Irob IntSet Control SenderIrob ReceiverIrob.
From S2P Require Import Lattice ReceiverLattice Chooser Thunks MultiSocket Socket Options Bootstrap Process Api History.
From Stdlib Require Import Lia.

(** ** Open descriptors, from the record of the system calls *)
Section descriptors.
Context {OSI : OS}.

Definition opened (c : os_call) (answer : Z * Z * list byte) : gset Z :=
  let '(rc, _, out) := answer in
  match c with
  | OsSocket _ _ _ | OsAccept _ => if rc <? 0 then ∅ else {[rc]}
  | OsSocketpair => if rc <? 0 then ∅ else {[to_int (le_decode (take 4 out)); to_int (le_decode (drop 4 out))]}
  | _ => ∅
  end.
Definition after_call (log : list os_call) (c : os_call) (X : gset Z) : gset Z :=
  match c with OsClose (Fd fd) => X ∖ {[fd]} | _ => X ∪ opened c (os_answer log c) end.
Fixpoint live_from (before todo : list os_call) (X : gset Z) : gset Z :=
  match todo with
  | [] => X
  | c :: todo => live_from (before ++ [c]) todo (after_call before c X)
  end.
Definition live (log : list os_call) : gset Z := live_from [] log ∅.

Lemma live_from_snoc l c before X :
  live_from before (l ++ [c]) X = after_call (before ++ l) c (live_from before l X).
Proof.
  revert before X. induction l as [|d l IH]; intros before X; simpl; [by rewrite app_nil_r|].
  rewrite IH. by rewrite <- app_assoc.
Qed.
Lemma live_snoc log c : live (log ++ [c]) = after_call log c (live log).
Proof. apply live_from_snoc. Qed.
End descriptors.

(** The system hands out descriptors that are not in use. *)
Class FreshDescriptors `{OS} : Prop :=
  fresh_descriptors log c : opened c (os_answer log c) ## live log.

Section process.
Context {IS I : Type} `{!IdSet IS} `{!InstrumentsChooser I} {NE : NetEstimates} {OSI : OS}.
Context (k : kernel).
Abbreviation P := (process IS I).
Implicit Types (p : P).

(** [p'] is [p] after some system calls. *)
Definition only_calls p p' : Prop := exists l e, p' = set_os l e p.
Lemma only_refl p : only_calls p p.
Proof. exists (os_log p), (errno p). by destruct p. Qed.
Lemma only_trans p1 p2 p3 : only_calls p1 p2 -> only_calls p2 p3 -> only_calls p1 p3.
Proof. intros (l & e & ->) (l' & e' & ->). by exists l', e'. Qed.

Lemma os_run c p : exists rc out p',
  os c p = (Ret (rc, out), p') /\ only_calls p p' /\ os_log p' = os_log p ++ [c] /\
  live (os_log p') = after_call (os_log p) c (live (os_log p)) /\
  exists err, os_answer (os_log p) c = (rc, err, out).
Proof.
  unfold os. destruct (os_answer (os_log p) c) as [[rc err] out] eqn:E. eexists rc, out, _. split_and!.
  - etransitivity; [by apply M_bind_ret|]. rewrite E. reflexivity.
  - by eexists _, _.
  - done.
  - simpl. apply live_snoc.
  - by exists err.
Qed.

Lemma os_rc_run c p : exists rc out p',
  os_rc c p = (Ret rc, p') /\ only_calls p p' /\ os_log p' = os_log p ++ [c] /\
  live (os_log p') = after_call (os_log p) c (live (os_log p)) /\
  exists err, os_answer (os_log p) c = (rc, err, out).
Proof.
  destruct (os_run c p) as (rc & out & p' & E & ?). exists rc, out, p'. split; [|done].
  unfold os_rc. etransitivity; [exact (M_bind_ret _ _ _ _ _ E)|reflexivity].
Qed.

(** The next call of the sequence, whose result is known. *)
Ltac run E := etransitivity; [exact (M_bind_ret _ _ _ _ _ E)|]; cbv beta iota zeta.

Lemma only_tables p p' : only_calls p p' ->
  cmm_sock_hash p' = cmm_sock_hash p /\ cmm_listeners p' = cmm_listeners p /\ static_ifaces p' = static_ifaces p.
Proof. by intros (l & e & ->). Qed.

(** When the process runs out of descriptors while a connection is being
    accepted on a multi-socket listener - accept(2) succeeds, but no multi-socket can be made for
    the connection - [cmm_accept] does not fail: it ends the process in an
    assertion, the accepted descriptor still open. *)
Theorem accept_out_of_descriptors fd env p :
  let accepted := (os_answer (os_log p) (OsAccept (Fd fd))).1.1 in
  fd ∈ cmm_listeners p -> (forall fd, is_Some (cmm_sock_hash p !! fd) -> 0 <= fd) -> 0 <= accepted ->
  (os_answer (os_log p ++ [OsAccept (Fd fd)]) (OsSocket PF_INET SOCK_STREAM 0)).1.1 < 0 ->
  exists p', cmm_accept k fd env p = (Trap AssertFailed, p') /\ accepted ∈ live (os_log p').
Proof.
  intros accepted Hfd Hp Ha Hs. unfold accepted in *. clear accepted.
  destruct (os_run (OsAccept (Fd fd)) p) as (rc & out & p1 & E1 & Ho1 & Hlog & Hl1 & err & Ea).
  destruct (os_rc_run (OsSocket PF_INET SOCK_STREAM 0) p1) as (rc2 & out2 & p2 & E2 & Ho2 & _ & Hl2 & err2 & Ea2).
  rewrite Hlog in Ea2. rewrite Ea in *. rewrite Ea2 in Hs. simpl in *.
  assert ((rc <? 0) = false) as Hn by by apply Z.ltb_ge. assert ((rc2 <? 0) = true) as Hn2 by by apply Z.ltb_lt.
  exists p2. split.
  - unfold cmm_accept, mc_accept. etransitivity; [by apply M_bind_ret|]. run E1. simpl. rewrite Hn.
    rewrite bool_decide_eq_false_2 by naive_solver. simpl.
    assert (create PF_INET SOCK_STREAM 0 p1 = (Ret rc2, p2)) as E3.
    { unfold create. simpl. etransitivity; [apply (M_bind_ret _ _ _ (inl rc2) p2)|reflexivity].
      unfold construct. run E2. by rewrite Hn2. }
    run E3. etransitivity; [by apply M_bind_ret|].
    destruct (only_tables _ _ Ho1) as (H1 & _), (only_tables _ _ Ho2) as (H2 & _).
    rewrite bool_decide_eq_false_2; [reflexivity|]. rewrite H2, H1. intros H. apply Hp in H. lia.
  - assert (rc ∈ live (os_log p1)) as Hin by (rewrite Hl1; unfold opened; rewrite Ea, Hn; set_solver).
    rewrite Hl2. set_solver.
Qed.

(** ** Opening *)
Context {Fresh : FreshDescriptors}.

Lemma nonblock_run t p : exists a p', os (OsFcntlNonblock t) p = (Ret a, p') /\ only_calls p p' /\
  live (os_log p') = live (os_log p).
Proof.
  destruct (os_run (OsFcntlNonblock t) p) as (rc & out & p' & E & Ho & _ & Hl & err & Ea). exists (rc, out), p'.
  split_and!; try done. rewrite Hl. unfold after_call, opened. rewrite Ea. set_solver.
Qed.

Lemma close_each_run fds p : exists p', close_each fds p = (Ret tt, p') /\ only_calls p p' /\
  live (os_log p') = live (os_log p) ∖ list_to_set fds.
Proof.
  revert p. induction fds as [|fd fds IH]; intros p; simpl.
  - exists p. split_and!; [done|apply only_refl|set_solver].
  - destruct (os_run (OsClose (Fd fd)) p) as (rc & out & p1 & E & Ho & _ & Hl & _). destruct (IH p1) as (p2 & E2 & Ho2 & Hl2).
    exists p2. split_and!; [|by eapply only_trans|rewrite Hl2, Hl; simpl; set_solver].
    etransitivity; [exact (M_bind_ret _ _ _ _ _ E)|]. exact E2.
Qed.

(** A pair of sockets: both open, or none. *)
Lemma socketpair_run p : exists rc r0 r1 p',
  socketpair p = (Ret (rc, (r0, r1)), p') /\ only_calls p p' /\
  live (os_log p') = live (os_log p) ∪ (if rc <? 0 then ∅ else {[r0; r1]}) /\
  ((rc <? 0) = false -> r0 ∉ live (os_log p) /\ r1 ∉ live (os_log p)).
Proof.
  destruct (os_run OsSocketpair p) as (rc & out & p' & E & Ho & _ & Hl & err & Ea).
  eexists rc, _, _, p'. split_and!; [|done| |].
  - unfold socketpair. etransitivity; [exact (M_bind_ret _ _ _ _ _ E)|]. reflexivity.
  - rewrite Hl. unfold after_call, opened. by rewrite Ea.
  - intros Hrc. pose proof (fresh_descriptors (os_log p) OsSocketpair) as Hf. unfold opened in Hf. rewrite Ea, Hrc in Hf.
    set_solver.
Qed.

Lemma construct_run family type protocol p :
  exists r p', construct family type protocol p = (Ret r, p') /\ only_calls p p' /\
    match r with
    | inl rc => rc < 0 /\ live (os_log p') = live (os_log p)
    | inr m => exists fd pipes, 0 <= fd /\ fd ∉ live (os_log p) /\ live (os_log p') = live (os_log p) ∪ {[fd]} ∪ list_to_set pipes /\
        length pipes = 4%nat /\ sockopts m = ∅ /\ msock_new fd = Ret (mc_sk m)
    end.
Proof.
  destruct (os_rc_run (OsSocket family type protocol) p) as (fd & out & p1 & E1 & Ho1 & _ & Hl1 & err & Ea).
  pose proof (fresh_descriptors (os_log p) (OsSocket family type protocol)) as Hf.
  unfold after_call in Hl1. unfold opened in Hl1, Hf. rewrite Ea in Hl1, Hf. unfold construct.
  destruct (fd <? 0) eqn:Hfd.
  { exists (inl fd), p1. split_and!; [|done|by apply Z.ltb_lt|rewrite Hl1; set_solver].
    run E1. by rewrite Hfd. }
  destruct (socketpair_run p1) as (rc & r0 & r1 & p2 & E2 & Ho2 & Hl2 & Hr). destruct (rc <? 0) eqn:Hrc.
  { destruct (close_each_run [fd] p2) as (p3 & E3 & Ho3 & Hl3). exists (inl rc), p3.
    split_and!; [|by do 2 (eapply only_trans; [eassumption|])|by apply Z.ltb_lt|rewrite Hl3, Hl2, Hl1; set_solver].
    run E1. rewrite Hfd.
    run E2. rewrite Hrc.
    run E3. done. }
  destruct (nonblock_run (Fd r0) p2) as (a1 & p3 & E3 & Ho3 & Hl3). destruct (nonblock_run (Fd r1) p3) as (a2 & p4 & E4 & Ho4 & Hl4).
  destruct (socketpair_run p4) as (rc' & w0 & w1 & p5 & E5 & Ho5 & Hl5 & Hw). destruct (Hr eq_refl) as [Hr0 Hr1].
  destruct (rc' <? 0) eqn:Hrc'.
  { destruct (close_each_run [r0; r1; fd] p5) as (p6 & E6 & Ho6 & Hl6). exists (inl rc'), p6.
    split_and!; [|by do 5 (eapply only_trans; [eassumption|])|by apply Z.ltb_lt|rewrite Hl6, Hl5, Hl4, Hl3, Hl2, Hl1; set_solver].
    run E1. rewrite Hfd.
    run E2. rewrite Hrc.
    run E3. run E4.
    run E5. rewrite Hrc'.
    run E6. done. }
  destruct (nonblock_run (Fd w0) p5) as (a3 & p6 & E6 & Ho6 & Hl6). destruct (nonblock_run (Fd w1) p6) as (a4 & p7 & E7 & Ho7 & Hl7).
  assert (exists s, msock_new (IS:=IS) (I:=I) fd = Ret s) as [s Es] by by eexists.
  exists (inr (McSock s ∅ INTNW_NEVER_REDUNDANT false false [] 0)), p7.
  split_and!; [|by do 6 (eapply only_trans; [eassumption|])|].
  - run E1. rewrite Hfd.
    run E2. rewrite Hrc.
    run E3. run E4.
    run E5. rewrite Hrc'.
    run E6. run E7.
    rewrite Es. reflexivity.
  - exists fd, [r0; r1; w0; w1]. split_and!; try done; [by apply Z.ltb_ge|set_solver|].
    rewrite Hl7, Hl6, Hl5, Hl4, Hl3, Hl2, Hl1. set_solver.
Qed.

(** [cmm_socket] on the supported family and type either fails with a
    negative code and leaves nothing behind - every descriptor it had opened is closed
    again and no table has changed - or returns the descriptor of a new multi-socket
    in the table, with no options and no connections, whose descriptor and four pipe ends are the only new open
    descriptors. *)
Theorem cmm_socket_spec protocol p :
  (forall fd, is_Some (cmm_sock_hash p !! fd) -> fd ∈ live (os_log p)) ->
  exists r p', cmm_socket PF_INET SOCK_STREAM protocol p = (Ret r, p') /\
    (r < 0 /\ live (os_log p') = live (os_log p) /\ only_calls p p' \/
     0 <= r /\ r ∉ live (os_log p) /\
     exists m pipes, length pipes = 4%nat /\ live (os_log p') = live (os_log p) ∪ {[r]} ∪ list_to_set pipes /\
       msock_new r = Ret (mc_sk m) /\ sockopts m = ∅ /\
       only_calls (set_hash <[r := m]> p) p').
Proof.
  intros Hp. destruct (construct_run PF_INET SOCK_STREAM protocol p) as (r & p1 & E1 & Ho1 & Hr).
  unfold cmm_socket, create. simpl. destruct r as [rc|m].
  - destruct Hr as [Hrc Hl]. exists rc, p1. split; [|by left]. run E1. done.
  - destruct Hr as (fd & pipes & Hfd & Hnl & Hl & H4 & Hopt & Em).
    assert (sock (mc_sk m) = fd) as Hsock by (injection Em as <-; done).
    destruct (only_tables p p1 Ho1) as (Hh & _).
    assert (cmm_sock_hash p1 !! fd = None) as Hn.
    { rewrite Hh. destruct (cmm_sock_hash p !! fd) eqn:E; [|done]. destruct Hnl. apply Hp. by eexists. }
    exists fd, (set_hash <[fd := m]> p1). split.
    + run E1. rewrite Hsock. etransitivity; [by apply M_bind_ret|]. rewrite Hn. reflexivity.
    + right. split_and!; [done..|]. exists m, pipes. split_and!; try done.
      destruct Ho1 as (l & e & ->). by exists l, e.
Qed.

End process.

Import ListBits.
#[local] Existing Instance no_instruments.
#[local] Existing Instance no_estimates.
Abbreviation demo_P := (process (IntSet.t (list bool)) unit).

(** A system with descriptors 3 to 7. *)
Definition le4 (b : byte) : list byte := [b; Byte.x00; Byte.x00; Byte.x00].
#[local] Instance small_os : OS := {|
  os_answer := fun log c =>
    match c with
    | OsSocket _ _ _ => match log with [] => (3, 0, []) | _ => (-1, 24, []) end
    | OsSocketpair =>
        match log with
        | [OsSocket _ _ _] => (0, 0, le4 Byte.x04 ++ le4 Byte.x05)
        | [OsSocket _ _ _; OsSocketpair; OsFcntlNonblock _; OsFcntlNonblock _] => (0, 0, le4 Byte.x06 ++ le4 Byte.x07)
        | _ => (-1, 24, [])
        end
    | _ => (-1, 24, [])
    end
|}.
Ltac by_computing := refine (bool_decide_unpack _ _); vm_compute; exact Logic.I.
#[local] Instance small_os_fresh : FreshDescriptors.
Proof.
  intros log c. destruct c; try apply disjoint_empty_l.
  - destruct log; [by_computing|apply disjoint_empty_l].
  - destruct log as [|c1 log]; [apply disjoint_empty_l|]. destruct c1; try apply disjoint_empty_l.
    destruct log as [|c2 log]; [by_computing|]. destruct c2; try apply disjoint_empty_l.
    destruct log as [|c3 log]; [apply disjoint_empty_l|]. destruct c3; try apply disjoint_empty_l.
    destruct log as [|c4 log]; [apply disjoint_empty_l|]. destruct c4; try apply disjoint_empty_l.
    destruct log; [by_computing|apply disjoint_empty_l].
Qed.

Definition demo_empty (listeners : gset Z) : demo_P := Process ∅ listeners ∅ 0 ∅ thunks_empty [] 0.

Lemma cmm_socket_witness : exists p' : demo_P,
  cmm_socket PF_INET SOCK_STREAM 0 (demo_empty ∅) = (Ret 3, p') /\ is_Some (cmm_sock_hash p' !! 3) /\
  live (os_log p') = {[3; 4; 5; 6; 7]}.
Proof.
  destruct (cmm_socket_spec 0 (demo_empty ∅)) as (r & p' & E & K).
  - intros fd [m Hm]. cbn in Hm. by rewrite lookup_empty in Hm.
  - assert (fst (cmm_socket PF_INET SOCK_STREAM 0 (demo_empty ∅)) = Ret 3) as Er by (vm_compute; reflexivity).
    rewrite E in Er. injection Er as ->. exists p'. split; [exact E|].
    destruct K as [[K _]|(_ & _ & m & pipes & _ & _ & _ & _ & l & e & Ep)]; [lia|].
    split; [rewrite Ep; cbn; rewrite lookup_insert_eq; by eexists|].
    assert (p' = snd (cmm_socket PF_INET SOCK_STREAM 0 (demo_empty ∅))) as -> by (by rewrite E).
    vm_compute. reflexivity.
Defined.

(** A system with one descriptor left. *)
Definition full_os : OS := {|
  os_answer := fun log c => match log, c with [], OsAccept _ => (9, 0, []) | _, _ => (-1, 24, []) end
|}.
Lemma accept_out_of_descriptors_witness :
  exists p' : demo_P,
    cmm_accept (H0 := full_os) demo_kernel 4 (AttemptEnv [] [] [] (fun _ => true) (ListenerAt 0) []) (demo_empty {[4]})
      = (Trap AssertFailed, p') /\ 9 ∈ live (OSI := full_os) (os_log p').
Proof.
  apply (accept_out_of_descriptors (OSI := full_os) demo_kernel 4
    (AttemptEnv [] [] [] (fun _ => true) (ListenerAt 0) []) (demo_empty {[4]})).
  - cbn. by apply elem_of_singleton.
  - intros fd [m Hm]. cbn in Hm. by rewrite lookup_empty in Hm.
  - cbn. lia.
  - cbn. lia.
Defined.
