(* ===== verification/SelectSpec.v ===== *)
(** What [mc_select] returns.

    [mc_select_spec]: whatever select(2) answers, the sets an application gets
    back are exactly its ready descriptors, multi-sockets among them, and the
    count is theirs. *)

From S2P Require Import Prelude Labels Scheduling Irob IntSet SenderIrob ReceiverIrob.
From S2P Require Import Lattice ReceiverLattice Chooser Thunks MultiSocket Socket Select History.

Implicit Types (l : mcSocketOsfdPairList) (X R W : fd_set) (fd : Z).

Lemma FD_ISSET_valid fd X : fd_valid fd = true -> FD_ISSET fd X = Ret (bool_decide (fd ∈ X)).
Proof. unfold FD_ISSET. by intros ->. Qed.
Lemma FD_SET_valid fd X : fd_valid fd = true -> FD_SET fd X = Ret ({[fd]} ∪ X).
Proof. unfold FD_SET. by intros ->. Qed.
Lemma FD_CLR_valid fd X : fd_valid fd = true -> FD_CLR fd X = Ret (X ∖ {[fd]}).
Proof. unfold FD_CLR. by intros ->. Qed.

(** A list of valid pairs of which no first component is a second one. *)
Record pairs_ok l : Prop := {
  po_valid : Forall (fun p => fd_valid p.1 = true /\ fd_valid p.2 = true) l;
  po_keys : NoDup l.*1;
  po_osfds : NoDup l.*2;
  po_apart : forall fd, fd ∈ l.*1 -> fd ∉ l.*2
}.

Lemma pairs_ok_cons s fd l : pairs_ok ((s, fd) :: l) ->
  fd_valid s = true /\ fd_valid fd = true /\ (s ∉ l.*1) /\ (fd ∉ l.*2) /\ s <> fd /\ (s ∉ l.*2) /\ (fd ∉ l.*1) /\
  pairs_ok l.
Proof.
  intros [Hv Hk Ho Ha]. apply Forall_cons in Hv as [[H1 H2] Hv]. cbn in *.
  apply NoDup_cons in Hk as [Hk1 Hk]. apply NoDup_cons in Ho as [Ho1 Ho].
  split_and!; try done.
  - intros ->. apply (Ha fd); [left|left].
  - intros Hin. apply (Ha s); [left|by right].
  - intros Hin. apply (Ha fd); [by right|left].
  - split; [done..|]. intros x Hx Hx'. apply (Ha x); by right.
Qed.

Lemma put_osfds_spec l X m : pairs_ok l -> exists X' m', put_osfds l X m = Ret (X', m') /\
  forall fd, fd ∈ X' <-> fd ∈ l.*2 \/ (fd ∈ X /\ fd ∉ l.*1).
Proof.
  revert X m. induction l as [|[s o] l IH]; intros X m Hok; cbn [put_osfds].
  { eexists _, _. split; [done|]. intros fd. cbn. set_solver. }
  apply pairs_ok_cons in Hok as (H1 & H2 & H3 & H4 & H5 & H6 & H7 & Hok).
  rewrite FD_CLR_valid by done. cbn. rewrite FD_SET_valid by done. cbn.
  destruct (IH ({[o]} ∪ X ∖ {[s]}) (Z.max m o) Hok) as (X' & m' & -> & HX). eexists _, _. split; [done|].
  intros fd. rewrite HX. cbn. rewrite !elem_of_cons. set_solver.
Qed.

Lemma to_read_spec l R W : pairs_ok l -> (forall fd, fd ∈ l.*2 -> fd ∈ W) ->
  exists R' W', to_read l R W = Ret (R', W') /\
    (forall fd, fd ∈ R' <-> fd ∈ R \/ fd ∈ l.*2) /\ (forall fd, fd ∈ W' <-> fd ∈ W /\ fd ∉ l.*2).
Proof.
  revert R W. induction l as [|[s o] l IH]; intros R W Hok HW; cbn [to_read].
  { eexists _, _. split; [done|]. cbn. set_solver. }
  apply pairs_ok_cons in Hok as (H1 & H2 & H3 & H4 & H5 & H6 & H7 & Hok). cbn in HW.
  rewrite FD_ISSET_valid by done. cbn. rewrite bool_decide_eq_true_2 by (apply HW; left). cbn.
  rewrite FD_CLR_valid by done. cbn. rewrite FD_SET_valid by done. cbn.
  destruct (IH ({[o]} ∪ R) (W ∖ {[o]}) Hok) as (R' & W' & -> & HR & HW').
  { intros fd Hfd. specialize (HW fd ltac:(by right)). set_solver. }
  eexists _, _. split; [done|]. split; intros fd; [rewrite HR|rewrite HW']; cbn; rewrite elem_of_cons; set_solver.
Qed.

Lemma size_put fd X : fd ∉ X -> size ({[fd]} ∪ X) = S (size X).
Proof. intros H. rewrite size_union, size_singleton; [done|set_solver]. Qed.
Lemma size_take fd X : fd ∈ X -> size X = S (size (X ∖ {[fd]})).
Proof. intros H. rewrite <- (size_put fd) by set_solver. by rewrite <- union_difference_singleton_L. Qed.

Lemma from_read_spec l R W : pairs_ok l -> (forall fd, fd ∈ l.*2 -> fd ∉ W) ->
  exists R' W', from_read l R W = Ret (R', W') /\
    (forall fd, fd ∈ R' <-> fd ∈ R /\ fd ∉ l.*2) /\ (forall fd, fd ∈ W' <-> fd ∈ W \/ (fd ∈ l.*2 /\ fd ∈ R)) /\
    (size R' + size W' = size R + size W)%nat.
Proof.
  revert R W. induction l as [|[s o] l IH]; intros R W Hok HW; cbn [from_read].
  { eexists _, _. split; [done|]. cbn. set_solver. }
  apply pairs_ok_cons in Hok as (H1 & H2 & H3 & H4 & H5 & H6 & H7 & Hok). cbn in HW.
  rewrite FD_ISSET_valid by done. cbn. destruct (bool_decide_reflect (o ∈ R)) as [Ho|Ho].
  - rewrite FD_SET_valid by done. cbn. rewrite FD_CLR_valid by done. cbn.
    destruct (IH (R ∖ {[o]}) ({[o]} ∪ W) Hok) as (R' & W' & -> & HR & HW' & Hs).
    { intros fd Hfd. specialize (HW fd ltac:(by right)). set_solver. }
    eexists _, _. split; [done|]. split_and!.
    + intros fd. rewrite HR. cbn. rewrite elem_of_cons. set_solver.
    + intros fd. rewrite HW'. cbn. rewrite elem_of_cons. destruct (decide (fd = o)) as [->|]; set_solver.
    + rewrite size_put in Hs by (apply HW; left). rewrite (size_take o R) by done. lia.
  - destruct (IH R W Hok) as (R' & W' & -> & HR & HW' & Hs).
    { intros fd Hfd. apply HW. by right. }
    eexists _, _. split; [done|]. split_and!; [..|done]; intros fd; [rewrite HR|rewrite HW']; cbn;
      rewrite elem_of_cons; destruct (decide (fd = o)) as [->|]; set_solver.
Qed.

Lemma make_mc_spec l X : pairs_ok l -> (forall fd, fd ∈ l.*1 -> fd ∉ X) ->
  exists X', make_mc_fd_set l X = Ret (0, X') /\
    (forall fd, fd ∈ X' <-> (fd ∈ X /\ fd ∉ l.*2) \/ exists o, (fd, o) ∈ l /\ o ∈ X) /\ size X' = size X.
Proof.
  revert X. induction l as [|[s o] l IH]; intros X Hok HX; cbn [make_mc_fd_set].
  { eexists. split; [done|]. split; [|done]. cbn. set_solver. }
  apply pairs_ok_cons in Hok as (H1 & H2 & H3 & H4 & H5 & H6 & H7 & Hok). cbn in HX.
  assert (s ∉ X) as Hs by (apply HX; left).
  rewrite FD_ISSET_valid by done. cbn. destruct (bool_decide_reflect (o ∈ X)) as [Ho|Ho].
  - rewrite FD_CLR_valid by done. cbn. rewrite FD_ISSET_valid by done. cbn.
    rewrite bool_decide_eq_false_2 by set_solver. rewrite FD_SET_valid by done. cbn.
    destruct (IH ({[s]} ∪ X ∖ {[o]}) Hok) as (X' & -> & HX' & Hz).
    { intros fd Hfd. specialize (HX fd ltac:(by right)). set_solver. }
    eexists. split; [done|]. split.
    + intros fd. rewrite HX'. cbn. rewrite elem_of_cons. split.
      * intros [[Hfd Hn]|(o' & Hl & Hfd)].
        { destruct (decide (fd = s)) as [->|]; [right; exists o; split; [left|done]|left]. set_solver. }
        right. exists o'. split; [by right|]. apply (list_elem_of_fmap_2 snd) in Hl. cbn in Hl. set_solver.
      * intros [[Hfd Hn]|(o' & Hl & Hfd)]; [left; set_solver|].
        apply elem_of_cons in Hl as [[= -> ->]|Hl]; [left; set_solver|].
        right. exists o'. split; [done|]. apply (list_elem_of_fmap_2 snd) in Hl. cbn in Hl. set_solver.
    + rewrite Hz, size_put by set_solver. by rewrite <- size_take.
  - destruct (IH X Hok) as (X' & -> & HX' & Hz).
    { intros fd Hfd. apply HX. by right. }
    eexists. split; [done|]. split; [|done]. intros fd. rewrite HX'. cbn. rewrite elem_of_cons. split.
    + intros [[Hfd Hn]|(o' & Hl & Hfd)]; [left; set_solver|]. right. exists o'. split; [by right|done].
    + intros [[Hfd Hn]|(o' & Hl & Hfd)]; [left; set_solver|].
      apply elem_of_cons in Hl as [[= -> ->]|Hl]; [done|]. right. by exists o'.
Qed.

(** ** The multi-sockets of a set *)

Section table.
Context {IS I : Type}.
Abbreviation hash := (gmap Z (msocket IS I)).
Implicit Types (H : hash) (m : msocket IS I).

(** What does not change while the shim runs. *)
Definition view m : CMMSocketImpl IS I * Z * Z := (ms_sk m, select_pipe m, write_ready_pipe m).
Definition same H H' : Prop := view <$> H = view <$> H'.

Lemma same_lookup H H' s : same H H' -> view <$> H !! s = view <$> H' !! s.
Proof. intros E. by rewrite <- !lookup_fmap, E. Qed.

Lemma same_alter H f s : (forall m, view (f m) = view m) -> same H (alter f s H).
Proof.
  intros Hf. apply map_eq. intros i. rewrite !lookup_fmap. destruct (decide (i = s)) as [->|Hi].
  - rewrite lookup_alter_eq. destruct (H !! s) as [m|]; simpl; [|done]. by rewrite Hf.
  - by rewrite lookup_alter_ne.
Qed.

(** The pairs of the multi-sockets of [X], for the descriptors [ss]. *)
Definition pairs_of (pipe : msocket IS I -> Z) H X (ss : list Z) : mcSocketOsfdPairList :=
  omap (fun s => if decide (s ∈ X) then (fun m => (s, pipe m)) <$> H !! s else None) ss.

Lemma pairs_of_same pipe H H' X X' ss : (forall m m', view m = view m' -> pipe m = pipe m') ->
  same H H' -> (forall s, s ∈ ss -> s ∈ X <-> s ∈ X') -> pairs_of pipe H X ss = pairs_of pipe H' X' ss.
Proof.
  intros Hp Hs. induction ss as [|s ss IH]; intros HX; [done|]. unfold pairs_of in *. cbn.
  rewrite IH by (intros; apply HX; by right). pose proof (same_lookup H H' s Hs) as E.
  pose proof (HX s ltac:(left)) as HXs.
  destruct (decide (s ∈ X)), (decide (s ∈ X')); try (exfalso; tauto); [|done].
  destruct (H !! s) as [m|], (H' !! s) as [m'|]; try done. injection E as E1 E2 E3.
  assert (view m = view m') as Ev by (unfold view; by rewrite E1, E2, E3). cbn. by rewrite (Hp m m' Ev).
Qed.

Lemma elem_of_pairs pipe H X ss s fd : (s, fd) ∈ pairs_of pipe H X ss <->
  s ∈ ss /\ s ∈ X /\ exists m, H !! s = Some m /\ fd = pipe m.
Proof.
  unfold pairs_of. rewrite list_elem_of_omap. split.
  - intros (s' & Hs & E). destruct (decide (s' ∈ X)); [|done].
    destruct (H !! s') as [m|] eqn:Em; [|done]. injection E as <- <-. eauto.
  - intros (Hs & HX & m & Em & ->). exists s. split; [done|]. rewrite decide_True by done. by rewrite Em.
Qed.

Lemma take_spec (pipe : msocket IS I -> Z) reading writing :
  (forall m m', view m = view m' -> pipe m = pipe m') ->
  forall ss X H, NoDup ss -> Forall (fun s => fd_valid s = true) ss ->
  (forall H' s m, same H H' -> s ∈ X -> H' !! s = Some m ->
     exists H2, get_fds_for_select s reading writing H' = (Ret [(s, pipe m)], H2) /\ same H' H2) ->
  exists X' H', take_mc_sockets ss reading writing X H = (Ret (X', pairs_of pipe H X ss), H') /\
    same H H' /\ forall fd, fd ∈ X' <-> fd ∈ X /\ ~ (fd ∈ ss /\ is_Some (H !! fd)).
Proof.
  intros Hpipe. induction ss as [|s ss IH]; intros X H Hnd Hv Hget; cbn [take_mc_sockets].
  { exists X, H. split; [done|]. split; [done|]. intros fd. split; [|by intros []].
    intros Hfd. split; [done|]. by intros [Hin%elem_of_nil _]. }
  apply NoDup_cons in Hnd as [Hs Hnd]. apply Forall_cons in Hv as [Hv0 Hv].
  rewrite FD_ISSET_valid by done. cbv [mbind M_bind lift get].
  destruct (bool_decide_reflect (s ∈ X)) as [HX|HX]; cbn [andb].
  2:{ destruct (IH X H Hnd Hv Hget) as (X' & H' & -> & Hsame & HX'). exists X', H'.
      unfold pairs_of. cbn [omap list_omap]. rewrite decide_False by done. split; [done|]. split; [done|].
      intros fd. rewrite HX', elem_of_cons. split; [|tauto]. intros [Hfd Hn]. split; [done|].
      intros [[->|?] ?]; [done|tauto]. }
  destruct (H !! s) as [m|] eqn:Em.
  2:{ rewrite bool_decide_eq_false_2 by (by intros []).
      destruct (IH X H Hnd Hv Hget) as (X' & H' & -> & Hsame & HX'). exists X', H'.
      unfold pairs_of. cbn [omap list_omap]. rewrite decide_True, Em by done. split; [done|]. split; [done|].
      intros fd. rewrite HX', elem_of_cons. split; [|tauto]. intros [Hfd Hn]. split; [done|].
      intros [[->|?] K]; [|tauto]. rewrite Em in K. by destruct K. }
  rewrite bool_decide_eq_true_2 by done. rewrite FD_CLR_valid by done.
  destruct (Hget H s m eq_refl HX Em) as (H2 & -> & Hsame2).
  destruct (IH (X ∖ {[s]}) H2 Hnd Hv) as (X' & H' & -> & Hsame & HX').
  { intros H3 s' m' H32 Hs' Em'. apply Hget; [by transitivity (view <$> H2)|set_solver|done]. }
  exists X', H'. split; [|split; [by transitivity (view <$> H2)|]].
  - unfold mret, M_ret. cbn [fst snd]. do 3 f_equal. unfold pairs_of at 2. cbn [omap list_omap].
    rewrite decide_True, Em by done. cbn. f_equal. apply pairs_of_same; [done|done|]. set_solver.
  - intros fd. rewrite HX', elem_of_cons.
    assert (is_Some (H !! fd) <-> is_Some (H2 !! fd)) as ->.
    { pose proof (same_lookup H H2 fd Hsame2) as E. rewrite <- (fmap_is_Some view (H !! fd)), <- (fmap_is_Some view (H2 !! fd)). by rewrite E. }
    destruct (decide (fd = s)) as [->|Hne].
    + assert (is_Some (H2 !! s)).
      { pose proof (same_lookup H H2 s Hsame2) as E. rewrite <- (fmap_is_Some view), <- E. by rewrite Em. }
      set_solver.
    + set_solver.
Qed.

Lemma same_will_block H H' fd m :
  same H H' -> H !! fd = Some m -> exists m', H' !! fd = Some m' /\ will_block_on_read m' = will_block_on_read m.
Proof.
  intros Hs Em. pose proof (same_lookup H H' fd Hs) as E. rewrite Em in E.
  destruct (H' !! fd) as [m'|]; [|done]. injection E as E1 _ _. exists m'. split; [done|].
  unfold will_block_on_read. by rewrite E1.
Qed.

(** Some reader has nothing to read. *)
Definition idle_reader H (fds : list Z) R : Prop :=
  exists fd m, fd ∈ fds /\ fd ∈ R /\ H !! fd = Some m /\ will_block_on_read m = true.

Lemma idle_reader_same H H' fds R : same H H' -> idle_reader H fds R -> idle_reader H' fds R.
Proof.
  intros Hs (fd & m & H1 & H2 & H3 & H4). destruct (same_will_block H H' fd m Hs H3) as (m' & E & E').
  exists fd, m'. by rewrite E'.
Qed.

Lemma empty_spec fds R W H : Forall (fun s => fd_valid s = true) fds ->
  exists b H', empty_pipes fds R W H = (Ret b, H') /\ same H H' /\ (b = true <-> idle_reader H fds R).
Proof.
  intros Hv. revert H. induction Hv as [|i fds Hi Hv IH]; intros H; cbn [empty_pipes].
  { exists false, H. split_and!; [done|done|]. split; [done|]. intros (fd & m & Hin & _). by apply elem_of_nil in Hin. }
  rewrite !FD_ISSET_valid by done. cbv [mbind M_bind lift get].
  assert (exists b H1, match H !! i with
      | Some m => when (bool_decide (i ∈ R)) (modify (alter (set_select_byte false) i));;
                  when (bool_decide (i ∈ W)) (modify (alter (set_write_ready_byte false) i));;
                  mret (bool_decide (i ∈ R) && will_block_on_read m)
      | None => mret false end H = (Ret b, H1) /\ same H H1 /\
      (b = true <-> i ∈ R /\ exists m, H !! i = Some m /\ will_block_on_read m = true)) as (b & H1 & E & Hs & Hb).
  { destruct (H !! i) as [m|]; [|exists false, H; split_and!; [done|done|split; [done|by intros (_ & ? & ? & _)]]].
    assert (same H (alter (set_select_byte false) i H)) as S1 by by apply same_alter.
    destruct (bool_decide_reflect (i ∈ R)), (bool_decide_reflect (i ∈ W)); cbn; eexists _, _; (split; [done|]);
      (split; [|naive_solver]); try done; try by apply same_alter.
    unfold same. rewrite S1. by apply same_alter. }
  cbv [mbind M_bind] in E. rewrite E. destruct (IH H1) as (b' & H2 & -> & Hs2 & Hb').
  eexists _, H2. split; [done|]. split; [by transitivity (view <$> H1)|].
  rewrite orb_true_iff, Hb, Hb'. split.
  - intros [(HR & m & Em & Ew)|Hi']; [exists i, m; split; [left|done]|].
    apply (idle_reader_same H1 H) in Hi'; [|done]. destruct Hi' as (fd & m & ? & ?). exists fd, m. split; [by right|done].
  - intros (fd & m & [->|Hfd]%elem_of_cons & K); [left; destruct K as (? & ? & ?); eauto|right].
    apply (idle_reader_same H H1); [done|]. by exists fd, m.
Qed.
End table.

(** ** The theorem *)

(** select(2): the sets it returns are parts of those it was given, and it counts
    their elements. *)
Definition select_sound {IS I} (select : Z -> fd_set -> fd_set -> fd_set -> @select_answer IS I) : Prop :=
  forall n R W E, let a := select n R W E in 0 < sa_rc a ->
    sa_read a ⊆ R /\ sa_write a ⊆ W /\ sa_except a ⊆ E /\
    sa_rc a = Z.of_nat (size (sa_read a) + size (sa_write a) + size (sa_except a)).

Section select.
Context {IS I : Type}.
Abbreviation hash := (gmap Z (msocket IS I)).
Implicit Types (H : hash) (m : msocket IS I).

(** Descriptors of multi-sockets and of pipes are different. *)
Record table_ok H : Prop := {
  to_key s m : H !! s = Some m -> sock (ms_sk m) = s;
  to_valid s m : H !! s = Some m -> fd_valid (select_pipe m) = true /\ fd_valid (write_ready_pipe m) = true;
  to_select s m s' m' : H !! s = Some m -> H !! s' = Some m' -> select_pipe m = select_pipe m' -> s = s';
  to_write s m s' m' : H !! s = Some m -> H !! s' = Some m' -> write_ready_pipe m = write_ready_pipe m' -> s = s';
  to_apart s m s' m' : H !! s = Some m -> H !! s' = Some m' -> select_pipe m <> write_ready_pipe m';
  to_dummy s m : H !! s = Some m -> H !! select_pipe m = None /\ H !! write_ready_pipe m = None
}.

(** No descriptor of the set is a pipe. *)
Definition no_pipe H X : Prop :=
  forall fd s m, fd ∈ X -> H !! s = Some m -> fd <> select_pipe m /\ fd <> write_ready_pipe m.

Lemma pairs_of_ok pipe H X ss :
  NoDup ss -> Forall (fun s => fd_valid s = true) ss ->
  (forall s m, H !! s = Some m -> fd_valid (pipe m) = true /\ H !! pipe m = None) ->
  (forall s m s' m', H !! s = Some m -> H !! s' = Some m' -> pipe m = pipe m' -> s = s') ->
  pairs_ok (pairs_of pipe H X ss).
Proof.
  intros Hnd Hv Hp Hinj. split.
  - apply Forall_forall. intros [s o] (Hs & _ & m & Em & ->)%elem_of_pairs. cbn.
    split; [by apply (proj1 (Forall_forall _ _) Hv)|by apply (Hp s)].
  - unfold pairs_of. clear Hv. induction Hnd as [|s ss Hs Hnd IH]; cbn; [by constructor|].
    destruct (decide (s ∈ X)); [|done]. destruct (H !! s); [|done]. cbn. constructor; [|done].
    intros ([s' o] & E & (Hin & _)%elem_of_pairs)%list_elem_of_fmap. cbn in E. by subst s'.
  - unfold pairs_of. clear Hv. induction Hnd as [|s ss Hs Hnd IH]; cbn; [by constructor|].
    destruct (decide (s ∈ X)); [|done]. destruct (H !! s) as [m|] eqn:Em; [|done]. cbn. constructor; [|done].
    intros ([s' o] & E & (Hin & _ & m' & Em' & Eo)%elem_of_pairs)%list_elem_of_fmap. cbn in E.
    assert (s = s') as -> by (apply (Hinj s m s' m'); congruence). done.
  - intros fd ([s o] & -> & (_ & _ & m & Em & _)%elem_of_pairs)%list_elem_of_fmap
      ([s' o'] & E & (_ & _ & m' & Em' & Eo)%elem_of_pairs)%list_elem_of_fmap. cbn in E. subst.
    destruct (Hp s' m' Em') as [_ Hn]. congruence.
Qed.

Lemma get_reading H s m : H !! s = Some m -> sock (ms_sk m) = s ->
  exists H', get_fds_for_select s true false H = (Ret [(s, select_pipe m)], H') /\ same H H'.
Proof.
  intros Em Es. unfold get_fds_for_select. cbv [mbind M_bind get lift]. rewrite Em. cbn.
  eexists. rewrite Es. split; [done|]. by apply same_alter.
Qed.

Lemma get_writing H s m : H !! s = Some m -> sock (ms_sk m) = s -> is_Some (bootstrap_status (ms_sk m)) ->
  exists H', get_fds_for_select s false true H = (Ret [(s, write_ready_pipe m)], H') /\ same H H'.
Proof.
  intros Em Es [st Est]. unfold get_fds_for_select. cbv [mbind M_bind get lift]. rewrite Em. cbn. rewrite Est. cbn.
  destruct (negb (st =? EINPROGRESS)); cbn; eexists; rewrite Es; (split; [done|]); [|done]. by apply same_alter.
Qed.

Lemma same_view H H' s m' : same H H' -> H' !! s = Some m' -> exists m, H !! s = Some m /\ view m = view m'.
Proof.
  intros Hs Em'. pose proof (same_lookup H H' s Hs) as E. rewrite Em' in E.
  destruct (H !! s) as [m|]; [|done]. injection E as E1 E2 E3. exists m. unfold view. by rewrite E1, E2, E3.
Qed.

Lemma table_same H H' : same H H' -> table_ok H -> table_ok H'.
Proof.
  intros Hs [K1 K2 K3 K4 K5 K6].
  assert (forall s m', H' !! s = Some m' -> exists m, H !! s = Some m /\ ms_sk m = ms_sk m' /\
    select_pipe m = select_pipe m' /\ write_ready_pipe m = write_ready_pipe m') as T.
  { intros s m' Em'. destruct (same_view H H' s m' Hs Em') as (m & Em & [= E1 E2 E3]). by exists m. }
  assert (forall s, H !! s = None -> H' !! s = None) as TN.
  { intros s Hn. destruct (H' !! s) as [m'|] eqn:E; [|done]. destruct (T s m' E) as (m & Em & _). congruence. }
  split.
  - intros s m' E. destruct (T s m' E) as (m & Em & <- & _). eauto.
  - intros s m' E. destruct (T s m' E) as (m & Em & _ & <- & <-). eauto.
  - intros s m1 s' m2 E1 E2. destruct (T s m1 E1) as (m & Em & _ & <- & _), (T s' m2 E2) as (m' & Em' & _ & <- & _).
    eauto.
  - intros s m1 s' m2 E1 E2. destruct (T s m1 E1) as (m & Em & _ & _ & <-), (T s' m2 E2) as (m' & Em' & _ & _ & <-).
    eauto.
  - intros s m1 s' m2 E1 E2. destruct (T s m1 E1) as (m & Em & _ & <- & _), (T s' m2 E2) as (m' & Em' & _ & _ & <-).
    eauto.
  - intros s m' E. destruct (T s m' E) as (m & Em & _ & <- & <-). destruct (K6 s m Em). auto.
Qed.

Definition fds_below (nfds : Z) : list Z := reverse (seqZ 0 nfds).

Lemma fds_below_ok nfds : nfds <= FD_SETSIZE ->
  NoDup (fds_below nfds) /\ Forall (fun s => fd_valid s = true) (fds_below nfds).
Proof.
  intros Hn. split; [unfold fds_below; rewrite reverse_Permutation; apply NoDup_seqZ|]. apply Forall_reverse, Forall_forall.
  intros fd Hfd%elem_of_seqZ. unfold fd_valid. apply andb_true_iff. split; [apply Z.leb_le|apply Z.ltb_lt]; lia.
Qed.

Lemma elem_of_below nfds fd : fd ∈ fds_below nfds <-> 0 <= fd < nfds.
Proof. unfold fds_below. rewrite elem_of_reverse, elem_of_seqZ. lia. Qed.

Lemma make_real_spec (pipe : msocket IS I -> Z) reading writing nfds X mx H :
  (forall m m', view m = view m' -> pipe m = pipe m') ->
  nfds <= FD_SETSIZE -> pairs_ok (pairs_of pipe H X (fds_below nfds)) ->
  (forall H' s m, same H H' -> s ∈ X -> H' !! s = Some m ->
     exists H2, get_fds_for_select s reading writing H' = (Ret [(s, pipe m)], H2) /\ same H' H2) ->
  exists X' mx' H', make_real_fd_set nfds X mx reading writing H =
      (Ret (X', pairs_of pipe H X (fds_below nfds), mx'), H') /\ same H H' /\
    forall fd, fd ∈ X' <-> fd ∈ (pairs_of pipe H X (fds_below nfds)).*2 \/
                           (fd ∈ X /\ ~ (0 <= fd < nfds /\ is_Some (H !! fd))).
Proof.
  intros Hp Hn Hok Hget. destruct (fds_below_ok nfds Hn) as [Hnd Hv]. unfold make_real_fd_set.
  destruct (take_spec pipe reading writing Hp (fds_below nfds) X H Hnd Hv Hget) as (X1 & H1 & E & Hs & HX).
  fold (fds_below nfds). cbv [mbind M_bind lift]. rewrite E. cbn [fst snd].
  destruct (put_osfds_spec (pairs_of pipe H X (fds_below nfds)) X1 mx Hok) as (X2 & mx' & -> & HX2).
  eexists X2, mx', H1. split; [done|]. split; [done|]. intros fd. rewrite HX2, HX, elem_of_below.
  split; [tauto|]. intros [?|[Hfd Hno]]; [by left|right]. split; [done|].
  intros ([s o] & -> & (Hin & _ & m & Em & _)%elem_of_pairs)%list_elem_of_fmap. apply Hno.
  apply elem_of_below in Hin. split; [done|by exists m].
Qed.

Lemma elem_of_osfds pipe H X ss o : o ∈ (pairs_of pipe H X ss).*2 <->
  exists s m, s ∈ ss /\ s ∈ X /\ H !! s = Some m /\ o = pipe m.
Proof.
  rewrite list_elem_of_fmap. split.
  - intros ([s o'] & -> & (H1 & H2 & m & H3 & ->)%elem_of_pairs). eauto 6.
  - intros (s & m & H1 & H2 & H3 & ->). exists (s, pipe m). split; [done|]. apply elem_of_pairs. eauto.
Qed.

(** What select(2) is asked. *)
Definition asked_read H R W : fd_set -> Prop := fun R0 => forall fd, fd ∈ R0 <->
  (fd ∈ R /\ H !! fd = None) \/ (exists s m, s ∈ R /\ H !! s = Some m /\ fd = select_pipe m) \/
  exists s m, s ∈ W /\ H !! s = Some m /\ fd = write_ready_pipe m.
Definition asked_write H W : fd_set -> Prop := fun W0 => forall fd, fd ∈ W0 <-> fd ∈ W /\ H !! fd = None.

Section call.
Context (H : hash) (nfds : Z) (R W : fd_set).
Context (Hok : table_ok H) (Hn : nfds <= FD_SETSIZE).
Context (HR : forall fd, fd ∈ R -> 0 <= fd < nfds) (HW : forall fd, fd ∈ W -> 0 <= fd < nfds).
Context (HnR : no_pipe H R) (HnW : no_pipe H W).
Let rl := pairs_of select_pipe H R (fds_below nfds).
Let wl := pairs_of write_ready_pipe H W (fds_below nfds).

Lemma rl_ok : pairs_ok rl.
Proof.
  destruct (fds_below_ok nfds Hn), Hok. apply pairs_of_ok; [done..| |done].
  intros s m Em. split; [by apply (to_valid0 s)|by apply (to_dummy0 s)].
Qed.
Lemma wl_ok : pairs_ok wl.
Proof.
  destruct (fds_below_ok nfds Hn), Hok. apply pairs_of_ok; [done..| |done].
  intros s m Em. split; [by apply (to_valid0 s)|by apply (to_dummy0 s)].
Qed.

Lemma in_rl s o : (s, o) ∈ rl <-> s ∈ R /\ exists m, H !! s = Some m /\ o = select_pipe m.
Proof. unfold rl. rewrite elem_of_pairs, elem_of_below. split; [tauto|]. intros [Hs K]. auto. Qed.
Lemma in_wl s o : (s, o) ∈ wl <-> s ∈ W /\ exists m, H !! s = Some m /\ o = write_ready_pipe m.
Proof. unfold wl. rewrite elem_of_pairs, elem_of_below. split; [tauto|]. intros [Hs K]. auto. Qed.
Lemma in_rl2 o : o ∈ rl.*2 <-> exists s m, s ∈ R /\ H !! s = Some m /\ o = select_pipe m.
Proof.
  rewrite list_elem_of_fmap. split.
  - intros ([s o'] & -> & (Hs & m & Em & ->)%in_rl). eauto.
  - intros (s & m & Hs & Em & ->). exists (s, select_pipe m). split; [done|]. apply in_rl. eauto.
Qed.
Lemma in_wl2 o : o ∈ wl.*2 <-> exists s m, s ∈ W /\ H !! s = Some m /\ o = write_ready_pipe m.
Proof.
  rewrite list_elem_of_fmap. split.
  - intros ([s o'] & -> & (Hs & m & Em & ->)%in_wl). eauto.
  - intros (s & m & Hs & Em & ->). exists (s, write_ready_pipe m). split; [done|]. apply in_wl. eauto.
Qed.

(** The way back: what was made of the answer [(r, w)]. *)
Lemma way_back R0 W0 r w : asked_read H R W R0 -> asked_write H W W0 -> r ⊆ R0 -> w ⊆ W0 ->
  exists R1 W1 R' W', from_read wl r w = Ret (R1, W1) /\
    make_mc_fd_set rl R1 = Ret (0, R') /\ make_mc_fd_set wl W1 = Ret (0, W') /\
    (size R' + size W' = size r + size w)%nat /\
    (forall fd, fd ∈ R' <-> fd ∈ R /\ match H !! fd with Some m => select_pipe m | None => fd end ∈ r) /\
    (forall fd, fd ∈ W' <-> fd ∈ W /\ match H !! fd with
                                       | Some m => write_ready_pipe m ∈ r
                                       | None => fd ∈ w end).
Proof.
  intros HR0 HW0 Hr Hw.
  destruct (from_read_spec wl r w wl_ok) as (R1 & W1 & E & HR1 & HW1 & Hsz).
  { intros fd (s & m & Hs & Em & ->)%in_wl2 Hfd%Hw%HW0. by destruct (HnW _ s m (proj1 Hfd) Em). }
  destruct (make_mc_spec rl R1 rl_ok) as (R' & ER & HR' & HzR).
  { intros fd ([s o] & -> & (Hs & m & Em & ->)%in_rl)%list_elem_of_fmap [Hfd _]%HR1. cbn in *.
    apply Hr, HR0 in Hfd as [[_ E']|[(s' & m' & _ & Em' & ->)|(s' & m' & _ & Em' & ->)]]; [congruence|..];
      destruct (to_dummy H Hok s' m' Em'); congruence. }
  destruct (make_mc_spec wl W1 wl_ok) as (W' & EW & HW' & HzW).
  { intros fd ([s o] & -> & (Hs & m & Em & ->)%in_wl)%list_elem_of_fmap [Hfd|[Hfd _]]%HW1; cbn in *.
    - apply Hw, HW0 in Hfd as [_ E']. congruence.
    - apply in_wl2 in Hfd as (s' & m' & _ & Em' & ->). destruct (to_dummy H Hok s' m' Em'). congruence. }
  exists R1, W1, R', W'. split_and!; [done..|by rewrite HzR, HzW| |].
  - intros fd. rewrite HR'. split.
    + intros [[[Hfd Hw2]%HR1 Hr2]|(o & (Hs & m & Em & ->)%in_rl & Ho)].
      * pose proof Hfd as K0. apply Hr, HR0 in K0 as [[Hin ->]|[K|K]]; [done|by destruct Hr2; apply in_rl2|by destruct Hw2; apply in_wl2].
      * rewrite Em. split; [done|]. by apply HR1 in Ho as [Ho _].
    + intros [Hin Hfd]. destruct (H !! fd) as [m|] eqn:Em.
      * right. exists (select_pipe m). split; [apply in_rl; eauto|]. apply HR1. split; [done|].
        intros (s' & m' & _ & Em' & E')%in_wl2. by apply (to_apart H Hok fd m s' m').
      * left. split; [apply HR1; split; [done|]|]; [intros (s' & m' & _ & Em' & E')%in_wl2|intros (s' & m' & _ & Em' & E')%in_rl2];
          destruct (HnR fd s' m' Hin Em'); congruence.
  - intros fd. rewrite HW'. split.
    + intros [[[Hfd|[Hfd _]]%HW1 Hw2]|(o & (Hs & m & Em & ->)%in_wl & Ho)]; [|done|].
      * pose proof Hfd as K. apply Hw, HW0 in K as [Hin ->]. done.
      * rewrite Em. split; [done|]. apply HW1 in Ho as [Ho|[_ Ho]]; [|done].
        apply Hw, HW0 in Ho as [Ho _]. by destruct (HnW _ fd m Ho Em).
    + intros [Hin Hfd]. destruct (H !! fd) as [m|] eqn:Em.
      * right. exists (write_ready_pipe m). split; [apply in_wl; eauto|]. apply HW1. right.
        split; [apply in_wl2; eauto|done].
      * left. split; [apply HW1; by left|]. intros (s' & m' & _ & Em' & E')%in_wl2.
        destruct (HnW fd s' m' Hin Em'); congruence.
Qed.

(** The way there. *)
Lemma way_there mx : (forall s m, s ∈ W -> H !! s = Some m -> is_Some (bootstrap_status (ms_sk m))) ->
  exists W1 mx1 H1 R1 mx2 H2 R0 W0,
    make_real_fd_set nfds W mx false true H = (Ret (W1, wl, mx1), H1) /\
    make_real_fd_set nfds R mx1 true false H1 = (Ret (R1, rl, mx2), H2) /\
    to_read wl R1 W1 = Ret (R0, W0) /\ asked_read H R W R0 /\ asked_write H W W0.
Proof.
  intros Hboot.
  destruct (make_real_spec write_ready_pipe false true nfds W mx H) as (W1 & mx1 & H1 & E1 & S1 & HW1);
    [by intros ?? [= _ _ ->]|done|apply wl_ok| |].
  { intros H' s m Hs Hin Em. destruct (same_view H H' s m Hs Em) as (m0 & Em0 & Ev). apply get_writing; [done|..].
    - by apply (to_key H' (table_same H H' Hs Hok)).
    - injection Ev as <- _ _. by apply (Hboot s). }
  assert (rl = pairs_of select_pipe H1 R (fds_below nfds)) as Erl.
  { apply pairs_of_same; [by intros ?? [= _ -> _]|done|done]. }
  destruct (make_real_spec select_pipe true false nfds R mx1 H1) as (R1 & mx2 & H2 & E2 & S2 & HR1);
    [by intros ?? [= _ -> _]|done|rewrite <- Erl; apply rl_ok| |].
  { intros H' s m Hs Hin Em. apply get_reading; [done|].
    apply (to_key H'); [|done]. apply (table_same H1); [done|]. by apply (table_same H). }
  rewrite <- Erl in E2, HR1.
  destruct (to_read_spec wl R1 W1 wl_ok) as (R0 & W0 & E3 & HR0 & HW0); [intros fd Hfd; apply HW1; by left|].
  exists W1, mx1, H1, R1, mx2, H2, R0, W0. split_and!; [done..| |].
  - intros fd. rewrite HR0, HR1, in_rl2, in_wl2.
    assert (is_Some (H1 !! fd) <-> is_Some (H !! fd)) as Ei.
    { rewrite <- (fmap_is_Some view (H1 !! fd)), <- (fmap_is_Some view (H !! fd)). by rewrite (same_lookup H H1 fd S1). }
    rewrite Ei.
    split; [intros [[K|[Hin Hno]]|K]|intros [[Hin E]|[K|K]]]; auto.
    + left. split; [done|]. apply eq_None_not_Some. intros Hi. apply Hno. auto.
    + left. right. split; [done|]. rewrite E. by intros [_ []].
  - intros fd. rewrite HW0, HW1. fold wl. split.
    + intros [[K|[Hin Hno]] Hn2]; [done|]. split; [done|]. apply eq_None_not_Some. intros Hi. apply Hno. auto.
    + intros [Hin E]. split.
      * right. split; [done|]. rewrite E. by intros [_ []].
      * intros (s' & m' & _ & Em' & E')%in_wl2. destruct (HnW fd s' m' Hin Em'); congruence.
Qed.
End call.

(** C12: For sets of descriptors for reading and writing below [nfds], which is at most
    FD_SETSIZE, and no set of exceptions; without the library's own pipes in them; of which the multi-sockets that are
    waited on for writing are connecting or connected (for one that is neither the code
    follows a null pointer); and whatever select(2)
    answers: on an error or a timeout its value is passed on and the sets are left
    as they are; otherwise a descriptor is returned for reading exactly if it was
    asked for and is ready - itself, or the pipe of the multi-socket it stands for -,
    and the same for writing.  The call then returns -1 with EINTR, in spite of the sets, exactly when a
    multi-socket returned for reading would block on it, and the number of
    descriptors returned otherwise. *)
Theorem mc_select_spec select nfds R W H :
  table_ok H -> select_sound select -> nfds <= FD_SETSIZE ->
  (forall fd, fd ∈ R -> 0 <= fd < nfds) -> (forall fd, fd ∈ W -> 0 <= fd < nfds) -> no_pipe H R -> no_pipe H W ->
  (forall s m, s ∈ W -> H !! s = Some m -> is_Some (bootstrap_status (ms_sk m))) ->
  exists n R0 W0 res H', asked_read H R W R0 /\ asked_write H W W0 /\ let a := select n R0 W0 ∅ in
    mc_select select nfds (Some R) (Some W) None H = (Ret res, H') /\
    (sa_rc a <= 0 -> res = SelectResult (sa_rc a) (sa_errno a) (Some R) (Some W) None) /\
    (0 < sa_rc a -> exists R' W', sr_read res = Some R' /\ sr_write res = Some W' /\
      (forall fd, fd ∈ R' <-> fd ∈ R /\ match H !! fd with Some m => select_pipe m | None => fd end ∈ sa_read a) /\
      (forall fd, fd ∈ W' <-> fd ∈ W /\ match H !! fd with
                                         | Some m => write_ready_pipe m ∈ sa_read a
                                         | None => fd ∈ sa_write a end) /\
      (idle_reader H' (seqZ 0 nfds) R' -> sr_rc res = -1 /\ sr_errno res = EINTR) /\
      (~ idle_reader H' (seqZ 0 nfds) R' -> sr_rc res = Z.of_nat (size R' + size W'))).
Proof.
  intros Hok Hsel Hn HR HW HnR HnW Hboot.
  destruct (way_there H nfds R W Hok Hn HR HW HnW (nfds - 1) Hboot)
    as (W1 & mx1 & H1 & R1 & mx2 & H2 & R0 & W0 & E1 & E2 & E3 & HR0 & HW0).
  unfold mc_select, real_set. cbv [mbind M_bind mret M_ret lift modify]. rewrite E1, E2, E3. cbn [fst snd].
  exists (mx2 + 1), R0, W0. cbv zeta. specialize (Hsel (mx2 + 1) R0 W0 ∅). cbv zeta in Hsel.
  destruct (select (mx2 + 1) R0 W0 ∅) as [rc err r w e during]. cbn [sa_rc sa_errno sa_read sa_write sa_except sa_meanwhile] in *.
  destruct (Z.leb_spec rc 0) as [Hrc|Hrc].
  { eexists _, _. do 3 (split; [done|]). split; [done|lia]. }
  destruct (Hsel Hrc) as (Hr & Hw & He & Ec).
  destruct (way_back H nfds R W Hok Hn HR HW HnR HnW R0 W0 r w HR0 HW0 Hr Hw)
    as (R2 & W2 & R' & W' & -> & E4 & E5 & Hsz & HR' & HW').
  cbn [fst snd]. rewrite E4, E5. cbn [make_mc_fd_set fst snd].
  assert (Forall (fun s => fd_valid s = true) (seqZ 0 nfds)) as Hv.
  { destruct (fds_below_ok nfds Hn) as [_ Hv]. unfold fds_below in Hv. by rewrite Forall_reverse in Hv. }
  destruct (empty_spec (seqZ 0 nfds) R' W' (during H2) Hv) as (b & H' & -> & Hs & Hb).
  assert (size e = 0%nat) as Ee by (apply size_empty_iff; set_solver).
  assert (idle_reader H' (seqZ 0 nfds) R' <-> b = true) as Hidle.
  { rewrite Hb. split; by apply idle_reader_same. }
  eexists _, H'. do 3 (split; [done|]). split; [lia|]. intros _. exists R', W'. cbn.
  do 4 (split; [done|]). rewrite Hidle. destruct b; split; try done. intros _. lia.
Qed.
End select.

(** ** Witness

    Multi-socket 3, with the pipes 10 and 11, is waited on for reading and writing,
    descriptor 5 for reading; everything is ready. *)

Definition demo_table : gmap Z (msocket (IntSet.t (list bool)) unit) :=
  {[3 := MSel demo_msock 10 11 false false (fun _ => 20)]}.
Definition demo_select (n : Z) (R W E : fd_set) : @select_answer (IntSet.t (list bool)) unit :=
  SelectAnswer (Z.of_nat (size R + size W + size E)) 0 R W E (fun H => H).

Lemma demo_table_inv s m : demo_table !! s = Some m -> 3 = s /\ MSel demo_msock 10 11 false false (fun _ => 20) = m.
Proof. apply lookup_singleton_Some. Qed.

Lemma demo_table_ok : table_ok demo_table.
Proof.
  split.
  - intros s m [<- <-]%demo_table_inv. reflexivity.
  - intros s m [<- <-]%demo_table_inv. by split.
  - by intros s m s' m' [<- _]%demo_table_inv [<- _]%demo_table_inv.
  - by intros s m s' m' [<- _]%demo_table_inv [<- _]%demo_table_inv.
  - by intros s m s' m' [_ <-]%demo_table_inv [_ <-]%demo_table_inv.
  - by intros s m [_ <-]%demo_table_inv.
Qed.

Lemma demo_no_pipe X : 10 ∉ X -> 11 ∉ X -> no_pipe demo_table X.
Proof. intros H1 H2 fd s m Hfd [_ <-]%demo_table_inv. cbn. split; intros ->; done. Qed.

Lemma mc_select_witness : exists res H' R', mc_select demo_select 6 (Some {[3; 5]}) (Some {[3]}) None demo_table = (Ret res, H') /\
  sr_read res = Some R' /\ 3 ∈ R' /\ 5 ∈ R'.
Proof.
  destruct (mc_select_spec demo_select 6 {[3; 5]} {[3]} demo_table demo_table_ok)
    as (n & R0 & W0 & res & H' & HR0 & HW0 & E & _ & K).
  - intros n R W E a _. unfold a. cbn. done.
  - done.
  - intros fd Hfd. set_solver by lia.
  - intros fd Hfd. set_solver by lia.
  - apply demo_no_pipe; set_solver.
  - apply demo_no_pipe; set_solver.
  - intros s m _ [_ <-]%demo_table_inv. by exists 0.
  - assert (5 ∈ R0) as H5 by (apply HR0; left; split; [set_solver|reflexivity]).
    assert (10 ∈ R0) as H10.
    { apply HR0. right. left. exists 3, (MSel demo_msock 10 11 false false (fun _ => 20)).
      split; [set_solver|]. split; reflexivity. }
    assert (0 < sa_rc (demo_select n R0 W0 ∅)) as Hrc.
    { cbn. assert (size R0 <> 0%nat); [|lia]. intros H0%size_empty_inv. set_solver. }
    destruct (K Hrc) as (R' & W' & ER & _ & HR' & _). exists res, H', R'.
    split; [exact E|]. split; [exact ER|]. split; apply HR'; (split; [set_solver|]); cbn; assumption.
Defined.
