(* ===== verification/PollSpec.v ===== *)
(** What [mc_poll] returns.

    [mc_poll_spec]: when every entry asks a multi-socket for one thing, reading
    or writing, every entry gets what poll(2) found for it.  [mc_poll_past_end]:
    when an entry asks for both, the loop over the answer reads past the end of
    the caller's array. *)

From S2P Require Import Prelude Labels Scheduling Irob IntSet SenderIrob ReceiverIrob.
From S2P Require Import Lattice ReceiverLattice Chooser Thunks MultiSocket Socket Select History SelectSpec.

Section poll.
Context {IS I : Type}.
Abbreviation hash := (gmap Z (msocket IS I)).
Implicit Types (H : hash) (m : msocket IS I) (p r : pollfd) (fds real : list pollfd) (to : gmap Z nat).

Definition wants_read p : bool := has_bits (pf_events p) POLLIN.
Definition wants_write p : bool := has_bits (pf_events p) POLLOUT.

(** What is polled for an entry. *)
Definition reals_of H p : list pollfd :=
  match H !! pf_fd p with
  | None => [p]
  | Some m =>
      (if wants_read p then [PollFd (select_pipe m) POLLIN (pf_revents p)] else []) ++
      (if wants_write p then [PollFd (write_ready_pipe m) POLLIN (pf_revents p)] else [])
  end.

Lemma reals_of_same H H' p : same H H' -> reals_of H' p = reals_of H p.
Proof.
  intros Hs. unfold reals_of. pose proof (same_lookup H H' (pf_fd p) Hs) as E.
  destruct (H !! pf_fd p), (H' !! pf_fd p); try done. injection E as E1 E2 E3. by rewrite E2, E3.
Qed.

(** The entry can be polled for. *)
Definition pollable H p : Prop := forall m, H !! pf_fd p = Some m ->
  (wants_read p = true \/ wants_write p = true) /\ (wants_write p = true -> is_Some (bootstrap_status (ms_sk m))).

Lemma pollable_same H H' p : same H H' -> pollable H p -> pollable H' p.
Proof.
  intros Hs K m' Em'. destruct (same_view H H' _ m' Hs Em') as (m & Em & [= <- _ _]). by apply K.
Qed.

Lemma reals_nonempty H p : pollable H p -> reals_of H p <> [].
Proof.
  unfold reals_of. intros K. destruct (H !! pf_fd p) as [m|] eqn:E; [|done].
  destruct (K m E) as [[-> | ->] _]; [done|]. by destruct (wants_read p).
Qed.
Lemma reals_length H p : pollable H p -> (1 <= length (reals_of H p))%nat.
Proof. intros K. pose proof (reals_nonempty H p K). destruct (reals_of H p); [done|cbn; lia]. Qed.

Lemma all_reals_length H fds : Forall (pollable H) fds -> (length fds <= length (fds ≫= reals_of H))%nat.
Proof.
  induction 1 as [|p fds Hp Hfds IH]; [cbn; lia|].
  rewrite bind_cons, length_app. pose proof (reals_length H p Hp). cbn [length]. lia.
Qed.

(** The entries that one multi-socket, or another descriptor, gives. *)
Lemma entry_spec H p : table_ok H -> pollable H p ->
  exists H', (match H !! pf_fd p with
              | None => mret [p]
              | Some m =>
                  l1 ← (if has_bits (pf_events p) POLLIN then get_fds_for_select (pf_fd p) true false else mret []);
                  l2 ← (if has_bits (pf_events p) POLLOUT then get_fds_for_select (pf_fd p) false true else mret []);
                  lift (real_pollfds m p (l1 ++ l2))
              end) H = (Ret (reals_of H p), H') /\ same H H'.
Proof.
  intros Hok K. unfold reals_of. destruct (H !! pf_fd p) as [m|] eqn:Em; [|by exists H].
  destruct (K m Em) as [Hw Hb].
  change (has_bits (pf_events p) POLLIN) with (wants_read p). change (has_bits (pf_events p) POLLOUT) with (wants_write p).
  assert (select_pipe m <> write_ready_pipe m) as Hne by by apply (to_apart H Hok (pf_fd p) m (pf_fd p) m).
  assert ((write_ready_pipe m =? select_pipe m) = false) as Hne' by (apply Z.eqb_neq; congruence).
  assert (exists H1 l1, (if wants_read p then get_fds_for_select (pf_fd p) true false else mret []) H = (Ret l1, H1) /\
    same H H1 /\ l1 = if wants_read p then [(pf_fd p, select_pipe m)] else []) as (H1 & l1 & E1 & S1 & ->).
  { destruct (wants_read p); [|by exists H, []].
    destruct (get_reading H (pf_fd p) m Em) as (H1 & E & S1); [by apply (to_key H Hok)|]. eauto. }
  destruct (same_view H1 H (pf_fd p) m) as (m1 & Em1 & Ev); [by symmetry|done|].
  assert (exists H2 l2, (if wants_write p then get_fds_for_select (pf_fd p) false true else mret []) H1 = (Ret l2, H2) /\
    same H1 H2 /\ l2 = if wants_write p then [(pf_fd p, write_ready_pipe m)] else []) as (H2 & l2 & E2 & S2 & ->).
  { injection Ev as Ev1 Ev2 Ev3. destruct (wants_write p); [|by exists H1, []].
    destruct (get_writing H1 (pf_fd p) m1 Em1) as (H2 & E & S2).
    - rewrite Ev1. by apply (to_key H Hok).
    - rewrite Ev1. by apply Hb.
    - rewrite Ev3 in E. eauto. }
  exists H2. split; [|by transitivity (view <$> H1)]. etransitivity; [exact (M_bind_ret _ _ _ _ _ E1)|].
  etransitivity; [exact (M_bind_ret _ _ _ _ _ E2)|]. unfold lift. f_equal. destruct (wants_read p) eqn:Er, (wants_write p) eqn:Ew; cbn;
    unfold real_pollfd; fold (wants_read p) (wants_write p); rewrite ?Z.eqb_refl, ?Hne', ?Z.eqb_refl, ?Er, ?Ew; done.
Qed.

Lemma point_to_lookup i rs to x : point_to i rs to !! x = if decide (x ∈ pf_fd <$> rs) then Some i else to !! x.
Proof.
  unfold point_to. revert to. induction rs as [|r rs IH]; intros to; [done|]. cbn. rewrite IH.
  destruct (decide (x ∈ pf_fd <$> rs)) as [Hin|Hin].
  { rewrite decide_True; [done|]. by right. }
  destruct (decide (x = pf_fd r)) as [->|Hne].
  - rewrite decide_True by left. by rewrite lookup_insert_eq.
  - rewrite decide_False; [by rewrite lookup_insert_ne|]. by rewrite elem_of_cons; intros [?|?].
Qed.

(** Every real descriptor points back to an entry; without repetitions, to its own. *)
Lemma build_spec H i fds to : table_ok H -> Forall (pollable H) fds ->
  exists to' H', build_pollfds i fds to H = (Ret (Some (fds ≫= reals_of H, to')), H') /\ same H H' /\
    (forall x, x ∉ pf_fd <$> (fds ≫= reals_of H) -> to' !! x = to !! x) /\
    (forall x, x ∈ pf_fd <$> (fds ≫= reals_of H) -> exists j, to' !! x = Some j /\ (i <= j < i + length fds)%nat) /\
    (NoDup (pf_fd <$> (fds ≫= reals_of H)) ->
     forall k p r, fds !! k = Some p -> r ∈ reals_of H p -> to' !! pf_fd r = Some (i + k)%nat).
Proof.
  revert i to H. induction fds as [|p fds IH]; intros i to H Hok Hp; cbn [build_pollfds].
  { exists to, H. split_and!; [done..| |done]. intros x Hx. by apply elem_of_nil in Hx. }
  apply Forall_cons in Hp as [Hp Hfds].
  destruct (entry_spec H p Hok Hp) as (H1 & E & S1).
  assert (forall fds', fds' ≫= reals_of H1 = fds' ≫= reals_of H) as Er.
  { intros fds'. induction fds' as [|q fds' IH']; [done|]. cbn. by rewrite IH', (reals_of_same H H1). }
  destruct (IH (S i) (point_to i (reals_of H p) to) H1) as (to' & H2 & E2 & S2 & K1 & K2 & K3).
  { by apply (table_same H). }
  { eapply Forall_impl; [done|]. intros q. by apply pollable_same. }
  rewrite Er in *.
  exists to', H2. split; [|split; [by transitivity (view <$> H1)|]].
  { etransitivity; [exact (M_bind_ret _ _ _ _ _ (eq_refl : get H = (Ret H, H)))|].
    etransitivity; [exact (M_bind_ret _ _ _ _ _ E)|].
    pose proof (reals_nonempty H p Hp) as Hne. destruct (reals_of H p) as [|r0 rs] eqn:Ep; [done|].
    etransitivity; [exact (M_bind_ret _ _ _ _ _ E2)|]. cbn. by rewrite Ep. }
  cbn. rewrite fmap_app. split_and!.
  - intros x Hx. rewrite elem_of_app in Hx. rewrite K1 by tauto. rewrite point_to_lookup, decide_False; [done|tauto].
  - intros x Hx. destruct (decide (x ∈ pf_fd <$> (fds ≫= reals_of H))) as [Hin|Hin].
    + destruct (K2 x Hin) as (j & Ej & Hj). exists j. split; [done|lia].
    + rewrite K1 by done. rewrite point_to_lookup. apply elem_of_app in Hx as [Hx|Hx]; [|done].
      rewrite decide_True by done. exists i. split; [done|lia].
  - intros (Hd1 & Hd & Hd2)%NoDup_app k q r Hk Hr. destruct k as [|k]; cbn in Hk.
    + injection Hk as ->. apply (list_elem_of_fmap_2 pf_fd) in Hr.
      rewrite K1 by by apply Hd. rewrite point_to_lookup, decide_True by done. f_equal. lia.
    + rewrite <- (reals_of_same H H1 q S1) in Hr. rewrite (K3 Hd2 k q r Hk Hr). f_equal. lia.
Qed.

(** ** The loop over the answer *)

Lemma results_past_end i real fds to seen rc H :
  (forall r, r ∈ real -> exists j, to !! pf_fd r = Some j /\ (j < length fds)%nat) ->
  (i <= length fds)%nat -> (length fds < i + length real)%nat ->
  fst (poll_results i real fds to seen rc H) = Trap UndefinedBehaviour.
Proof.
  revert i fds seen rc H. induction real as [|r real IH]; intros i fds seen rc H Hto Hi Hlen; cbn in *; [lia|].
  destruct (Hto r ltac:(left)) as (j & Ej & Hj). cbv [mbind M_bind lift get]. rewrite Ej.
  destruct (lookup_lt_is_Some_2 fds j Hj) as [o Eo]. rewrite Eo. cbn [access].
  destruct (decide (i = length fds)) as [->|Hne]; [by rewrite lookup_ge_None_2|].
  destruct (lookup_lt_is_Some_2 fds i ltac:(lia)) as [p Ep]. rewrite Ep. cbn [access].
  destruct (H !! pf_fd p) as [m|]; cbn.
  - unfold when. destruct (has_bits _ POLLIN), (has_bits _ POLLOUT); cbn; apply IH; rewrite ?length_insert; try lia;
      intros r' Hr'; apply Hto; by right.
  - apply IH; rewrite ?length_insert; try lia. intros r' Hr'. apply Hto. by right.
Qed.

(** What an entry gets. *)
Definition answered H p r : pollfd :=
  set_revents (match H !! pf_fd p with
               | None => pf_revents r
               | Some m => Z.lor (pf_revents p) (mapped_revents m r)
               end) p.

(** The pipes stay the multi-sockets' pipes, whatever else changes. *)
Definition pipes m : Z * Z := (select_pipe m, write_ready_pipe m).
Definition same_pipes H H' : Prop := pipes <$> H = pipes <$> H'.
Lemma same_same_pipes H H' : same H H' -> same_pipes H H'.
Proof.
  intros E. apply map_eq. intros i. pose proof (same_lookup H H' i E) as K. rewrite !lookup_fmap.
  destruct (H !! i), (H' !! i); try done. injection K as _ E2 E3. cbn. unfold pipes. by rewrite E2, E3.
Qed.

Lemma answered_same H H' p r : same_pipes H H' -> answered H' p r = answered H p r.
Proof.
  intros Hs. unfold answered, mapped_revents.
  assert (pipes <$> H !! pf_fd p = pipes <$> H' !! pf_fd p) as E by by rewrite <- !lookup_fmap, Hs.
  destruct (H !! pf_fd p), (H' !! pf_fd p); try done. injection E as _ E3. by rewrite E3.
Qed.

Lemma zip_answered H H' todo real : same_pipes H H' -> zip_with (answered H') todo real = zip_with (answered H) todo real.
Proof.
  intros Hs. revert real. induction todo as [|p todo IH]; intros [|r real]; cbn; [done..|].
  by rewrite IH, (answered_same H H').
Qed.

Lemma results_own front todo real to seen rc H :
  length todo = length real ->
  (forall k r, real !! k = Some r -> to !! pf_fd r = Some (length front + k)%nat) ->
  NoDup (pf_fd <$> todo) -> (forall p, p ∈ todo -> pf_fd p ∉ seen) ->
  exists H', poll_results (length front) real (front ++ todo) to seen rc H =
    (Ret (rc, front ++ zip_with (answered H) todo real), H').
Proof.
  revert front todo seen H. induction real as [|r real IH]; intros front todo seen H Hlen Hto Hnd Hs; cbn [poll_results].
  { destruct todo; [|done]. by exists H. }
  destruct todo as [|p todo]; [done|]. cbn in *. apply NoDup_cons in Hnd as [Hp Hnd].
  pose proof (Hto 0%nat r eq_refl) as E0. rewrite Nat.add_0_r in E0.
  cbv [mbind M_bind lift get]. rewrite E0, list_lookup_middle by done. cbn [access].
  assert (forall q H1, same H H1 -> pf_fd q = pf_fd p -> q = answered H p r -> exists H', poll_results (S (length front)) real
    (<[length front:=q]> (front ++ p :: todo)) to
    (if has_bits (pf_revents q) (Z.lor POLLIN POLLOUT) then {[pf_fd p]} ∪ seen else seen)
    (if has_bits (pf_revents q) (Z.lor POLLIN POLLOUT) && bool_decide (pf_fd p ∈ seen) then rc - 1 else rc) H1 =
    (Ret (rc, front ++ answered H p r :: zip_with (answered H) todo real), H')) as K.
  { intros q H1 S1 Ef ->. rewrite insert_app_r_alt, Nat.sub_diag by done. cbn.
    rewrite (bool_decide_eq_false_2 (pf_fd p ∈ seen)) by (apply Hs; left). rewrite andb_false_r.
    destruct (IH (front ++ [answered H p r]) todo
      (if has_bits (pf_revents (answered H p r)) (Z.lor POLLIN POLLOUT) then {[pf_fd p]} ∪ seen else seen) H1)
      as (H' & E); [lia|..].
    - intros k r' Hk. rewrite (Hto (S k) r' Hk), length_app. cbn. f_equal. lia.
    - done.
    - intros p' Hp'. assert (pf_fd p' ∉ seen) by (apply Hs; by right).
      assert (pf_fd p' <> pf_fd p) by (intros Ee; apply Hp; rewrite <- Ee; by apply list_elem_of_fmap_2).
      destruct (has_bits _ _); set_solver.
    - rewrite length_app, Nat.add_1_r, <- !app_assoc in E.
      rewrite (zip_answered H H1) in E by by apply same_same_pipes. exists H'. exact E. }
  destruct (H !! pf_fd p) as [m|] eqn:Em; cbn.
  - unfold when. set (ev := Z.lor (pf_revents p) (mapped_revents m r)) in *.
    destruct (has_bits ev POLLIN), (has_bits ev POLLOUT); cbn;
      (eapply (K (set_revents ev p)); [|done|unfold answered; by rewrite Em]); try done; try by apply same_alter.
    transitivity (view <$> alter (set_select_byte false) (pf_fd p) H); by apply same_alter.
  - apply (K (set_revents (pf_revents r) p)); [done..|]. unfold answered. by rewrite Em.
Qed.

(** ** The theorems *)

(** Zeroing the returned events, as [mc_poll] does first. *)
Lemma pollable_zeroed H fds : Forall (pollable H) fds -> Forall (pollable H) (set_revents 0 <$> fds).
Proof. intros K. by apply Forall_fmap. Qed.

(** When some entry asks a multi-socket for reading and for writing and poll(2)
    reports anything, the loop over its answer indexes the caller's array with a
    position of the longer array of real descriptors, past its end. *)
Theorem mc_poll_past_end poll fds H : let real := (set_revents 0 <$> fds) ≫= reals_of H in
  table_ok H -> Forall (pollable H) fds ->
  (exists p m, p ∈ fds /\ H !! pf_fd p = Some m /\ wants_read p = true /\ wants_write p = true) ->
  0 < pa_rc (poll real) -> length (pa_revents (poll real)) = length real ->
  fst (mc_poll poll fds H) = Trap UndefinedBehaviour.
Proof.
  intros real Hok Hp (p & m & Hin & Em & Hr & Hw) Hrc Hlen.
  destruct (build_spec H 0 (set_revents 0 <$> fds) ∅ Hok (pollable_zeroed H fds Hp)) as (to & H1 & E & S1 & _ & K & _).
  fold real in E, K.
  assert (length fds < length real)%nat as Hlt.
  { destruct (list_elem_of_split _ _ Hin) as (l1 & l2 & ->). apply pollable_zeroed in Hp.
    subst real. rewrite fmap_app, fmap_cons, bind_app, bind_cons, !length_app. cbn [length].
    rewrite fmap_app, fmap_cons in Hp. apply Forall_app in Hp as [Hp1 [Hp Hp2]%Forall_cons].
    pose proof (all_reals_length H _ Hp1). pose proof (all_reals_length H _ Hp2). rewrite !length_fmap in *.
    assert (length (reals_of H (set_revents 0 p)) = 2)%nat; [|lia].
    unfold reals_of. cbn [pf_fd set_revents]. rewrite Em.
    change (wants_read (set_revents 0 p)) with (wants_read p). change (wants_write (set_revents 0 p)) with (wants_write p).
    by rewrite Hr, Hw. }
  unfold mc_poll. cbv [mbind M_bind]. rewrite E. cbn [modify]. rewrite (proj2 (Z.leb_gt _ _)) by done.
  match goal with |- context [poll_results ?a ?b ?c ?d ?e ?f ?g] =>
    pose proof (results_past_end a b c d e f g) as R; destruct (poll_results a b c d e f g) as [o s'] end.
  cbn [fst] in R. rewrite R; [done|..].
  - intros r Hr'. assert (pf_fd r ∈ pf_fd <$> real) as Hx.
    { apply list_elem_of_lookup in Hr' as [k Hk]. apply lookup_zip_with_Some in Hk as (ev & r0 & -> & _ & Hk).
      cbn. apply list_elem_of_fmap_2. by eapply list_elem_of_lookup_2. }
    destruct (K _ Hx) as (j & Ej & Hj). exists j. split; [done|lia].
  - lia.
  - rewrite length_zip_with, length_fmap. lia.
Qed.

(** An entry asks a multi-socket for one thing. *)
Definition one_way H p : Prop := forall m, H !! pf_fd p = Some m -> wants_write p = negb (wants_read p).

(** The entry polled for it. *)
Definition real_entry H p : pollfd :=
  match H !! pf_fd p with
  | None => p
  | Some m => PollFd (if wants_write p then write_ready_pipe m else select_pipe m) POLLIN (pf_revents p)
  end.

Lemma one_way_reals H p : one_way H p -> reals_of H p = [real_entry H p].
Proof.
  unfold one_way, reals_of, real_entry. destruct (H !! pf_fd p) as [m|]; [|done]. intros K.
  rewrite (K m eq_refl). by destruct (wants_read p).
Qed.

Lemma one_way_all H fds : Forall (one_way H) fds -> fds ≫= reals_of H = real_entry H <$> fds.
Proof. induction 1 as [|p fds Hp Hfds IH]; [done|]. cbn. by rewrite one_way_reals, IH. Qed.

Lemma real_entries_differ H fds : table_ok H -> NoDup (pf_fd <$> fds) ->
  (forall p s m, p ∈ fds -> H !! s = Some m -> pf_fd p <> select_pipe m /\ pf_fd p <> write_ready_pipe m) ->
  NoDup (pf_fd <$> (real_entry H <$> fds)).
Proof.
  intros Hok. induction fds as [|p fds IH]; intros Hnd Hno; cbn in *; [constructor|].
  apply NoDup_cons in Hnd as [Hp Hnd]. constructor; [|apply IH; [done|]; intros q s m Hq; apply Hno; by right].
  intros (r & E & (q & -> & Hq)%list_elem_of_fmap)%list_elem_of_fmap.
  assert (pf_fd p <> pf_fd q) as Hne by (intros Ee; apply Hp; rewrite Ee; by apply list_elem_of_fmap_2).
  pose proof (Hno p) as Np. pose proof (Hno q) as Nq. revert E. unfold real_entry.
  destruct (H !! pf_fd p) as [m|] eqn:Em, (H !! pf_fd q) as [m'|] eqn:Em'; cbn.
  - destruct (wants_write p), (wants_write q); intros E.
    + apply Hne. by apply (to_write H Hok _ m _ m').
    + by apply (to_apart H Hok (pf_fd q) m' (pf_fd p) m).
    + by apply (to_apart H Hok (pf_fd p) m (pf_fd q) m').
    + apply Hne. by apply (to_select H Hok _ m _ m').
  - destruct (Nq (pf_fd p) m ltac:(by right) Em). destruct (wants_write p); congruence.
  - destruct (Np (pf_fd q) m' ltac:(left) Em'). destruct (wants_write q); congruence.
  - done.
Qed.

(** What the loop makes of the events of the entry that was polled for. *)
Lemma answer H p ev : table_ok H -> one_way H p ->
  answered H (set_revents 0 p) (set_revents ev (real_entry H (set_revents 0 p))) =
  set_revents (if bool_decide (is_Some (H !! pf_fd p)) && wants_write p && has_bits ev POLLIN then POLLOUT else ev) p.
Proof.
  intros Hok Ho. unfold answered, real_entry, mapped_revents. cbn [pf_fd pf_revents pf_events set_revents].
  destruct (H !! pf_fd p) as [m|] eqn:Em; [|by rewrite bool_decide_eq_false_2 by (by intros [])].
  rewrite bool_decide_eq_true_2 by done. change (wants_write (set_revents 0 p)) with (wants_write p).
  cbn [pf_fd pf_revents set_revents andb]. rewrite Z.lor_0_l. destruct (wants_write p); [by rewrite Z.eqb_refl|].
  rewrite (proj2 (Z.eqb_neq _ _)); [done|]. by apply (to_apart H Hok (pf_fd p) m (pf_fd p) m).
Qed.

Lemma answers H fds evs : table_ok H -> Forall (one_way H) fds ->
  zip_with (answered H) (set_revents 0 <$> fds) (zip_with set_revents evs (real_entry H <$> (set_revents 0 <$> fds))) =
  zip_with (fun p ev => set_revents
    (if bool_decide (is_Some (H !! pf_fd p)) && wants_write p && has_bits ev POLLIN then POLLOUT else ev) p) fds evs.
Proof.
  intros Hok Ho. revert evs. induction Ho as [|p fds Hp Ho IH]; intros [|ev evs]; [done..|].
  cbn [fmap list_fmap zip_with]. by rewrite IH, answer.
Qed.

(** C39: When every entry is for another descriptor and asks a multi-socket for
    reading or for writing, and the other threads leave the pipes alone: every entry
    is polled for in its place, on an error or a timeout nothing is returned, and
    otherwise every entry gets the events found for it - those of a multi-socket's
    pipe, with "readable" of its write-ready pipe turned into "writable" - and the
    count is poll(2)'s. *)
Theorem mc_poll_spec poll fds H :
  let real := real_entry H <$> (set_revents 0 <$> fds) in let a := poll real in
  table_ok H -> Forall (pollable H) fds -> Forall (one_way H) fds -> NoDup (pf_fd <$> fds) ->
  (forall p s m, p ∈ fds -> H !! s = Some m -> pf_fd p <> select_pipe m /\ pf_fd p <> write_ready_pipe m) ->
  (forall H1, same_pipes H1 (pa_meanwhile a H1)) -> length (pa_revents a) = length fds ->
  exists H', mc_poll poll fds H = (Ret (Polled (pa_rc a)
    (if pa_rc a <=? 0 then set_revents 0 <$> fds
     else zip_with (fun p ev => set_revents
       (if bool_decide (is_Some (H !! pf_fd p)) && wants_write p && has_bits ev POLLIN then POLLOUT else ev) p)
       fds (pa_revents a))), H').
Proof.
  intros real a Hok Hp Ho Hnd Hno Hs Hlen.
  destruct (build_spec H 0 (set_revents 0 <$> fds) ∅ Hok (pollable_zeroed H fds Hp)) as (to & H1 & E & S1 & _ & _ & K).
  assert (Forall (one_way H) (set_revents 0 <$> fds)) as Ho' by by apply Forall_fmap.
  rewrite (one_way_all H _ Ho') in E, K. fold real in E, K.
  assert (NoDup (pf_fd <$> real)) as Hnd'.
  { apply real_entries_differ; [done|by rewrite <- list_fmap_compose|].
    intros p s m (q & -> & Hq)%list_elem_of_fmap Em. by apply (Hno q s m). }
  unfold mc_poll. cbv [mbind M_bind]. rewrite E. cbn [modify]. fold a.
  destruct (pa_rc a <=? 0) eqn:Hrc; [by eexists|].
  assert (length real = length fds) as Hl by (unfold real; by rewrite !length_fmap).
  destruct (results_own [] (set_revents 0 <$> fds) (zip_with set_revents (pa_revents a) real) to ∅ (pa_rc a)
    (pa_meanwhile a H1)) as (H' & E2).
  - rewrite length_fmap, length_zip_with. lia.
  - intros k r (ev & r0 & -> & _ & Hk)%lookup_zip_with_Some. cbn.
    unfold real in Hk. rewrite list_lookup_fmap in Hk. destruct ((set_revents 0 <$> fds) !! k) as [p|] eqn:Ep; [|done].
    injection Hk as <-. apply (K Hnd' k p); [done|]. rewrite one_way_reals; [left|]. by apply (proj1 (Forall_lookup _ _) Ho' k).
  - by rewrite <- list_fmap_compose.
  - intros p _. set_solver.
  - cbn in E2. rewrite (zip_answered H) in E2
      by (unfold same_pipes; etransitivity; [by apply same_same_pipes|apply Hs]).
    unfold real in E2. rewrite (answers H fds (pa_revents a) Hok Ho) in E2.
    unfold real. rewrite E2. by exists H'.
Qed.
End poll.

(** ** Witnesses *)

(** Everything that was asked for is ready. *)
Definition demo_poll (real : list pollfd) : @poll_answer (IntSet.t (list bool)) unit :=
  PollAnswer (Z.of_nat (length real)) (pf_events <$> real) (fun H => H).

Lemma demo_pollable p : pf_fd p = 3 -> wants_read p || wants_write p = true -> pollable demo_table p.
Proof.
  intros E Hw m. unfold demo_table. rewrite E, lookup_singleton_eq. intros [= <-].
  split; [by apply orb_true_iff|]. by exists 0.
Qed.

Lemma mc_poll_past_end_witness :
  fst (mc_poll demo_poll [PollFd 3 (Z.lor POLLIN POLLOUT) 0] demo_table) = Trap UndefinedBehaviour.
Proof.
  apply (mc_poll_past_end demo_poll [PollFd 3 (Z.lor POLLIN POLLOUT) 0] demo_table demo_table_ok).
  - constructor; [|constructor]. apply demo_pollable; reflexivity.
  - eexists _, _. split; [left|]. split; [reflexivity|]. split; reflexivity.
  - vm_compute. reflexivity.
  - vm_compute. reflexivity.
Defined.

Lemma mc_poll_witness : exists H', mc_poll demo_poll [PollFd 3 POLLOUT 0; PollFd 5 POLLIN 0] demo_table =
  (Ret (Polled 2 [PollFd 3 POLLOUT POLLOUT; PollFd 5 POLLIN POLLIN]), H').
Proof.
  apply (mc_poll_spec demo_poll [PollFd 3 POLLOUT 0; PollFd 5 POLLIN 0] demo_table demo_table_ok).
  - constructor; [apply demo_pollable; reflexivity|]. constructor; [|constructor]. intros m E. vm_compute in E. discriminate E.
  - constructor; [|constructor; [|constructor]]; intros m E; vm_compute in E; [reflexivity|discriminate E].
  - cbn. constructor; [|constructor; [|constructor]]; set_solver.
  - intros p s m Hp [_ <-]%demo_table_inv.
    apply elem_of_cons in Hp as [->|Hp]; [by split|]. apply elem_of_cons in Hp as [->|Hp]; [by split|].
    by apply elem_of_nil in Hp.
  - intros H1. reflexivity.
  - reflexivity.
Defined.
