(* ===== verification/Faults.v ===== *)
(** Messages that should not have been sent, and an ill-timed data check.

    What the receiver thread does with a message of a type it does not know or
    that is cut short, and what it answers to a data check for an IROB whose
    End_IROB it has not seen. *)

From S2P Require Import Prelude Logic Labels Scheduling Irob IntSet Control SenderIrob ReceiverIrob.
From S2P Require Import Lattice ReceiverLattice Chooser Thunks MultiSocket Socket Receiver Delivery History.

Section faults.
Context {IS I : Type} `{!IdSet IS} `{!InstrumentsChooser I} {NE : NetEstimates}.
Context (k : kernel) (now : timeval) (cs : Z).
Abbreviation SK := (CMMSocketImpl IS I).
Implicit Types (s : SK) (id : Z) (m : message).

Definition type_of m : Z := wrap_s 16 (ntohs (hdr_type (msg_hdr m))).

(** The type is none of a message of this direction, or the stream ends (or the
    length is not positive) before the message does. *)
Inductive malformed m : Prop :=
| BadType : type_of m < 0 \/ sizeof_handlers <= type_of m -> malformed m
| NotExpected : type_of m = CMM_CONTROL_MSG_HELLO \/ type_of m = 4 -> malformed m
| ShortDeps wid n :
    hdr_type (msg_hdr m) = htons CMM_CONTROL_MSG_BEGIN_IROB -> hdr_op (msg_hdr m) = OpBeginIrob wid n ->
    0 < to_int (ntohl n) < 2 ^ 28 -> Z.of_nat (length (msg_ids m)) <> to_int (ntohl n) -> malformed m
| ShortData wid seqno off len :
    hdr_type (msg_hdr m) = htons CMM_CONTROL_MSG_IROB_CHUNK -> hdr_op (msg_hdr m) = OpIrobChunk wid seqno off len ->
    to_int (ntohl len) <= 0 \/ Z.of_nat (length (msg_data m)) <> to_int (ntohl len) -> malformed m.

(** C38: A message of a type below 0 or not below 176 (the code compares with the size of
    the table of handlers in bytes; a type from 11 to 175 is looked up past its end,
    [dispatch_past_table]), or of a type that is not expected (HELLO, 4), or whose
    dependencies (fewer than 2^28) or data end early, makes the receiver thread give up the
    connection and changes nothing. *)
Theorem malformed_rejected m s :
  malformed m -> dispatch k now cs m s = (Throw ControlException, s).
Proof.
  intros [H|H|wid n Ht Ho Hn Hl|wid q off len Ht Ho Hl]; unfold dispatch.
  - fold (type_of m). destruct H as [H|H];
      [rewrite (proj2 (Z.ltb_lt _ _) H)|rewrite orb_comm, (proj2 (Z.leb_le _ _) H)]; done.
  - fold (type_of m). by destruct H as [-> | ->].
  - rewrite Ht. change (do_begin_irob now cs m s = (Throw ControlException, s)). unfold do_begin_irob.
    rewrite Ht, Ho. change (ntohs (htons CMM_CONTROL_MSG_BEGIN_IROB) =? CMM_CONTROL_MSG_BEGIN_IROB) with true. cbn.
    unfold read_ids. rewrite (proj2 (Z.leb_gt _ _)) by lia.
    assert (to_int (to_int (ntohl n) * 8) = to_int (ntohl n) * 8) as -> by (apply wrap_s_small; lia).
    rewrite Z.eqb_refl. by rewrite (proj2 (Z.eqb_neq _ _) Hl).
  - rewrite Ht. change (do_irob_chunk now cs m s = (Throw ControlException, s)). unfold do_irob_chunk.
    rewrite Ht, Ho. change (ntohs (htons CMM_CONTROL_MSG_IROB_CHUNK) =? CMM_CONTROL_MSG_IROB_CHUNK) with true. cbn.
    unfold read_data_buffer.
    destruct (Z.leb_spec (to_int (ntohl len)) 0); [done|]. destruct Hl as [Hl|Hl]; [lia|].
    by rewrite (proj2 (Z.eqb_neq _ _) Hl).
Qed.

(** The table of handlers is indexed with any type below its size in bytes: a
    message of type 11 to 175 reads past its end. *)
Theorem dispatch_past_table m s :
  num_handlers <= type_of m < sizeof_handlers -> dispatch k now cs m s = (Trap UndefinedBehaviour, s).
Proof.
  unfold dispatch. fold (type_of m). unfold num_handlers, sizeof_handlers. intros H.
  rewrite (proj2 (Z.ltb_ge _ _)), (proj2 (Z.leb_gt _ _)) by lia. simpl.
  assert (handler (IS:=IS) (I:=I) k now cs (type_of m) = None) as ->; [|done].
  unfold handler. destruct (type_of m) as [|q|q]; [lia| |lia].
  do 4 (destruct q; try lia; try done).
Qed.

(** A data check for a live IROB without gaps in what has arrived is answered
    by the state of its End_IROB the wrong way round: if the End_IROB has arrived,
    it is asked for again, and if it has not, the IROB is acknowledged. *)
Theorem data_check_answer id p s :
  rfind id (incoming_irobs s) = Some p -> placeholder (rbase p) = false -> get_missing_chunks p = [] ->
  data_check_requested id s =
    (Ret tt, upd_irob_indexes
       (if seen_end p then index_insert RESEND_REQUESTS (sched_resend id CMM_RESEND_REQUEST_END 0)
        else index_insert WAITING_ACKS (sched_ack id inval_time 0)) s).
Proof.
  intros Hp Hpl Hm. unfold data_check_requested. cbv [mbind M_bind get]. rewrite Hp.
  unfold data_check_request. rewrite Hpl, Hm. by destruct (seen_end p).
Qed.
End faults.

(** ** Witnesses *)

Import ListBits.
#[local] Existing Instance no_instruments.
#[local] Existing Instance no_estimates.

(** A chunk of three bytes of which one arrives; a message of type 11. *)
Definition demo_short : message :=
  Msg (Hdr (htons CMM_CONTROL_MSG_IROB_CHUNK) (htonl 0) (OpIrobChunk (htonl 0) (htonl 0) (htonl 0) (htonl 3)))
    [] [Byte.x61].
Definition demo_type_11 : message := Msg (Hdr (htons 11) (htonl 0) OpNone) [] [].

Lemma malformed_rejected_witness :
  dispatch demo_kernel no_time 5 demo_short demo_msock = (Throw ControlException, demo_msock).
Proof.
  apply (malformed_rejected demo_kernel no_time 5 demo_short demo_msock).
  eapply ShortData; [reflexivity|reflexivity|]. right. vm_compute. discriminate.
Defined.

Lemma dispatch_past_table_witness :
  fst (dispatch demo_kernel no_time 5 demo_type_11 demo_msock) = Trap UndefinedBehaviour.
Proof.
  rewrite (dispatch_past_table demo_kernel no_time 5 demo_type_11 demo_msock); [reflexivity|].
  vm_compute. split; [discriminate|reflexivity].
Defined.

(** The Begin_IROB and the first of two chunks of IROB 0 have arrived. *)
Definition demo_half : CMMSocketImpl (IntSet.t (list bool)) unit :=
  snd (run_events demo_world demo_kernel
         [EvMsg no_time 5 0 PBegin; EvMsg no_time 5 0 (PChunk 0%nat)] demo_msock).

Lemma data_check_answer_witness : exists p,
  rfind 0 (incoming_irobs demo_half) = Some p /\ r_is_complete p = Ret false /\ data_check_requested 0 demo_half =
    (Ret tt, upd_irob_indexes (index_insert WAITING_ACKS (sched_ack 0 inval_time 0)) demo_half).
Proof.
  destruct (rfind 0 (incoming_irobs demo_half)) as [p|] eqn:E; [|vm_compute in E; discriminate E].
  exists p. split; [reflexivity|].
  assert (placeholder (rbase p) = false /\ get_missing_chunks p = [] /\ seen_end p = false /\
    r_is_complete p = Ret false) as (H1 & H2 & H3 & H4).
  { vm_compute in E. injection E as <-. vm_compute. auto. }
  split; [exact H4|]. rewrite (data_check_answer 0 p demo_half E H1 H2), H3. reflexivity.
Defined.
