(* ===== verification/Outgoing.v ===== *)
(** What the sending side of a multi-socket knows and says.

    A [book] keeps the last state of every IROB the application has begun, also
    after the IROB is acknowledged or dropped; it only grows ([book_le]): the
    bytes of an IROB and its cutting are extended, never changed.  A message is
    [truthful] when it states what the book says of its IROB.  [out_inv] is the
    invariant of the outgoing IROBs and of the requests to the sender threads. *)

From S2P Require Import Prelude Logic Labels Scheduling Irob IntSet Chunks Control SenderIrob.
From S2P Require Import SenderSpec ReceiverIrob ReceiverSpec Transfer Lattice LatticeRep LatticeSpec.
From S2P Require Import ReceiverLattice ReceiverOrder Chooser Thunks MultiSocket Socket Receiver.
From S2P Require Import Delivery System.

Implicit Types (p q : PendingSenderIROB) (id : Z).

(** ** One IROB over time *)

Record evolves p q : Prop := {
  ev_id : irob_id (sbase q) = irob_id (sbase p);
  ev_labels : send_labels (sbase q) = send_labels (sbase p);
  ev_deps : deps (sbase q) = deps (sbase p);
  ev_placeholder : placeholder (sbase q) = placeholder (sbase p);
  ev_chunks : chunks (sbase p) `prefix_of` chunks (sbase q);
  ev_sent : sent_chunks p `prefix_of` sent_chunks q;
  ev_complete : complete (sbase p) = true ->
    complete (sbase q) = true /\ chunks (sbase q) = chunks (sbase p)
}.

#[export] Instance evolves_preorder : PreOrder evolves.
Proof.
  split.
  - intros p. by split.
  - intros p q r [? ? ? ? ? ? Hc] [? ? ? ? ? ? Hc']. split; try congruence; try by etrans.
    intros H. destruct (Hc H) as [Hq E]. destruct (Hc' Hq). split; congruence.
Qed.

(** Complete, and every byte in a chunk. *)
Definition fully_cut p : Prop := complete (sbase p) = true /\ all_bytes_chunked p = true.

Lemma total_len_prefix l l' : l `prefix_of` l' -> Forall (fun c => 0 < ch_datalen c) l' ->
  total_len l' <= total_len l -> l' = l.
Proof.
  intros [k ->] Hp Hle. apply Forall_app in Hp as [_ Hp]. rewrite total_len_app in Hle.
  destruct k as [|c k]; [by rewrite app_nil_r|]. apply Forall_cons in Hp as [Hc Hp].
  rewrite total_len_cons in Hle. assert (Forall chunk_ok k) as Hk.
  { eapply Forall_impl; [exact Hp|]. intros x Hx. unfold chunk_ok. simpl in Hx. lia. }
  pose proof (total_len_nonneg k Hk). lia.
Qed.

(** Nothing is cut after the last byte. *)
Lemma fully_cut_evolves p q : sender_ok p -> sender_ok q -> evolves p q -> fully_cut p ->
  fully_cut q /\ sent_chunks q = sent_chunks p /\ chunks (sbase q) = chunks (sbase p).
Proof.
  intros Hp Hq He [Hc Ha]. destruct (ev_complete _ _ He Hc) as [Hcq Ech].
  assert (num_bytes q = num_bytes p) as En by (rewrite (so_num q Hq), (so_num p Hp); congruence).
  assert (sent_chunks q = sent_chunks p) as Es.
  { apply total_len_prefix; [apply He|apply Hq|]. rewrite (all_chunked_total p Hp Ha), <- En.
    apply (so_sent_le q Hq). }
  split; [|done]. split; [done|]. unfold all_bytes_chunked, expected_bytes in *. by rewrite Es, Ech.
Qed.

(** ** Truthful messages *)

(** The IROB as its messages describe it. *)
Definition sent_of p : sent_irob :=
  Sent (ascending (deps (sbase p))) (default 0 (send_labels (sbase p))) (wire_cut p)
    (complete (sbase p) && all_bytes_chunked p).

Definition says id p (m : message) : Prop :=
  m = begin_msg id (sent_of p) \/
  (exists c, c ∈ wire_cut p /\ m = chunk_msg id (sent_of p) c) \/
  (fully_cut p /\ m = end_msg id (sent_of p)).

Lemma app_data_evolves p q : evolves p q -> app_data p `prefix_of` app_data q.
Proof.
  intros He. destruct (ev_chunks _ _ He) as [k E]. exists (bytes_of_chunks k).
  unfold app_data. by rewrite E, bytes_of_chunks_app.
Qed.

Lemma slice_prefix {A} off len (l l' : list A) :
  l `prefix_of` l' -> 0 <= off -> 0 <= len -> off + len <= Z.of_nat (length l) ->
  slice off len l' = slice off len l.
Proof.
  intros [k ->] ? ? ?. unfold slice. rewrite drop_app_le, take_app_le; [done| |lia].
  rewrite length_drop. lia.
Qed.

Lemma wire_chunk_evolves p q c :
  sender_ok p -> evolves p q -> c ∈ sent_chunks p -> wire_chunk q c = wire_chunk p c.
Proof.
  intros Hp He Hc. unfold wire_chunk. do 2 f_equal.
  apply list_elem_of_lookup in Hc as [i Hi].
  destruct (layout_lookup _ _ _ _ _ (so_sent p Hp) Hi) as (_ & E & H0).
  pose proof (layout_end _ _ _ _ _ (so_sent p Hp) Hi). pose proof (so_sent_le p Hp).
  pose proof (total_len_nonneg _ (Forall_take _ i _ (layout_ok _ _ _ (so_sent p Hp)))).
  apply slice_prefix; [by apply app_data_evolves|lia|lia|]. rewrite length_app_data by done. lia.
Qed.

Lemma wire_cut_evolves p q : sender_ok p -> evolves p q -> wire_cut p `prefix_of` wire_cut q.
Proof.
  intros Hp He. destruct (ev_sent _ _ He) as [k E]. exists (wire_chunk q <$> k).
  unfold wire_cut. rewrite E, fmap_app. f_equal. apply list_fmap_ext. intros i c Hc.
  apply wire_chunk_evolves; [done..|]. by eapply list_elem_of_lookup_2.
Qed.

Lemma says_evolves id p q m :
  sender_ok p -> sender_ok q -> evolves p q -> says id p m -> says id q m.
Proof.
  intros Hp Hq He [->|[(c & Hc & ->)|[Hd ->]]].
  - left. unfold begin_msg. simpl. by rewrite (ev_labels _ _ He), (ev_deps _ _ He).
  - right; left. exists c. unfold chunk_msg. simpl. rewrite (ev_labels _ _ He). split; [|done].
    destruct (wire_cut_evolves p q Hp He) as [k ->]. set_solver.
  - right; right. destruct (fully_cut_evolves p q Hp Hq He Hd) as (Hd' & Es & Ech). split; [done|].
    unfold end_msg. simpl. rewrite (ev_labels _ _ He).
    assert (wire_cut q = wire_cut p) as ->; [|done]. unfold wire_cut, wire_chunk, app_data.
    by rewrite Es, Ech.
Qed.

(** ** The book *)

Abbreviation book := (gmap Z PendingSenderIROB).

Record entry_ok (lo hi : Z) id p : Prop := {
  en_ok : sender_ok p;
  en_id : irob_id (sbase p) = id;
  en_window : in_window lo hi id;
  en_labels : exists l, send_labels (sbase p) = Some l /\ 0 <= l < 2 ^ 32;
  en_size : num_bytes p < 2 ^ 31;
  en_real : placeholder (sbase p) = false;
  en_deps d : d ∈ deps (sbase p) -> in_window lo hi d
}.
Definition book_ok (lo hi : Z) (b : book) : Prop := map_Forall (entry_ok lo hi) b.

Definition book_le (b b' : book) : Prop :=
  forall id p, b !! id = Some p -> exists q, b' !! id = Some q /\ evolves p q.

#[export] Instance book_le_preorder : PreOrder book_le.
Proof.
  split.
  - intros b id p H. by exists p.
  - intros b1 b2 b3 H1 H2 id p H. destruct (H1 id p H) as (q & Hq & E1).
    destruct (H2 id q Hq) as (r & Hr & E2). exists r. split; [done|by etrans].
Qed.

#[export] Instance book_ghost : Ghost book := {| gle := book_le |}.

Lemma book_le_insert (b : book) id p :
  (forall p', b !! id = Some p' -> evolves p' p) -> book_le b (<[id := p]> b).
Proof.
  intros H j q Hj. rewrite lookup_insert. case_decide as E; [subst j; eauto|by exists q].
Qed.

Definition begun (b : book) id : Prop := is_Some (b !! id).
Definition finished_in (b : book) id : Prop := exists p, b !! id = Some p /\ fully_cut p.

Lemma begun_le b b' id : book_le b b' -> begun b id -> begun b' id.
Proof. intros H [p Hp]. destruct (H id p Hp) as (q & Hq & _). by exists q. Qed.

Section book.
Context (lo hi : Z).

Lemma finished_le b b' id :
  book_ok lo hi b -> book_ok lo hi b' -> book_le b b' -> finished_in b id -> finished_in b' id.
Proof.
  intros Hb Hb' H (p & Hp & Hd). destruct (H id p Hp) as (q & Hq & He). exists q. split; [done|].
  by apply (fully_cut_evolves p q (en_ok _ _ _ _ (Hb id p Hp)) (en_ok _ _ _ _ (Hb' id q Hq)) He).
Qed.

(** The messages that carry IROBs, by the type the receiver reads; the others are
    not constrained. *)
Definition irob_message (m : message) : bool :=
  let t := wrap_s 16 (ntohs (hdr_type (msg_hdr m))) in
  (t =? CMM_CONTROL_MSG_BEGIN_IROB) || (t =? CMM_CONTROL_MSG_IROB_CHUNK) ||
  (t =? CMM_CONTROL_MSG_END_IROB).

Definition truthful (b : book) (m : message) : Prop :=
  irob_message m = true -> exists id p, b !! id = Some p /\ says id p m.

Lemma truthful_le b b' m :
  book_ok lo hi b -> book_ok lo hi b' -> book_le b b' -> truthful b m -> truthful b' m.
Proof.
  intros Hb Hb' H Ht Hm. destruct (Ht Hm) as (id & p & Hp & Hs).
  destruct (H id p Hp) as (q & Hq & He). exists id, q. split; [done|].
  by apply (says_evolves id p q m (en_ok _ _ _ _ (Hb id p Hp)) (en_ok _ _ _ _ (Hb' id q Hq))).
Qed.

(** ** Requests *)

Definition request_ok (b : book) (ty : index_type) (d : IROBSchedulingData) : Prop :=
  match ty with
  | FINISHED_IROBS => finished_in b (sd_id d)
  | WAITING_ACKS | RESEND_REQUESTS => True
  | _ => begun b (sd_id d)
  end.
Definition requests_ok (b : book) (x : IROBSchedulingIndexes) : Prop :=
  forall ty, Forall (request_ok b ty) (index_get ty x).

Lemma request_ok_le b b' ty d :
  book_ok lo hi b -> book_ok lo hi b' -> book_le b b' -> request_ok b ty d -> request_ok b' ty d.
Proof. intros Hb Hb' H. destruct ty; simpl; eauto using begun_le, finished_le. Qed.

Lemma requests_ok_le b b' x :
  book_ok lo hi b -> book_ok lo hi b' -> book_le b b' -> requests_ok b x -> requests_ok b' x.
Proof.
  intros Hb Hb' H Hx ty. eapply Forall_impl; [apply Hx|]. intros d. by apply request_ok_le.
Qed.
End book.

Lemma requests_upd b ty f x :
  requests_ok b x -> Forall (request_ok b ty) (f (index_get ty x)) ->
  requests_ok b (index_upd ty f x).
Proof.
  intros Hx Hf ty'. specialize (Hx ty'). destruct x as [? ? ? ? ? ?].
  destruct ty, ty'; try exact Hx; exact Hf.
Qed.

Lemma requests_insert b ty d x :
  requests_ok b x -> request_ok b ty d -> requests_ok b (index_insert ty d x).
Proof. intros Hx Hd. apply requests_upd; [done|]. by apply OrdSet.insert_Forall. Qed.

Lemma requests_empty b : requests_ok b indexes_empty.
Proof. intros []; constructor. Qed.

Lemma insert_range_Forall (P : IROBSchedulingData -> Prop) items tasks :
  Forall P items -> Forall P tasks -> Forall P (PrioritySet.insert_range items tasks).
Proof.
  intros Hi. revert tasks. induction Hi as [|d items Hd Hi IH]; intros tasks Ht; [done|].
  simpl. by apply IH, OrdSet.insert_Forall.
Qed.

Lemma requests_add b x y : requests_ok b x -> requests_ok b y -> requests_ok b (index_add x y).
Proof.
  intros Hx Hy ty. specialize (Hx ty). specialize (Hy ty).
  destruct ty; simpl in *; by apply insert_range_Forall.
Qed.
#[export] Hint Resolve requests_insert requests_empty requests_add : cmm.

(** ** Sender objects in the lattice *)

#[export] Instance sender_IrobLaws : IrobLaws sender_obj.
Proof.
  split; try done.
  - by intros f [].
  - intros f g [c|p] E; simpl in *; [by rewrite E|]. unfold set_sbase. by rewrite E.
  - by intros f g [].
  - intros [c|p]; [done|]. by destruct p.
  - intros [c|p] o' r; simpl; intros [= <-].
    + unfold core_subsume. rewrite foldl_add_chunk. by split_and!.
    + unfold sender_subsume.
      enough (forall l q, let q' := foldl (fun p c => snd (sender_add_chunk p c)) q l in
        exists ch, sbase q' = set_chunks (fun _ => ch) (sbase q)) as K.
      { destruct (K (chunks (sender_obj_core o'))
          (set_sbase (set_dependents (fun d => d ∪ dependents (sender_obj_core o'))) p)) as [ch E].
        simpl in *. rewrite E. by split_and!. }
      induction l as [|c l IH]; intros q; simpl; [exists (chunks (sbase q)); by destruct (sbase q)|].
      destruct (IH (snd (sender_add_chunk q c))) as [ch ->]. exists ch.
      unfold sender_add_chunk. by destruct (complete (sbase q)).
Qed.

(** Only the data of the base object matter to [sender_ok]. *)
Lemma sender_ok_sbase p f :
  irob_id (f (sbase p)) = irob_id (sbase p) -> chunks (f (sbase p)) = chunks (sbase p) ->
  sender_ok p -> sender_ok (set_sbase f p).
Proof. intros E1 E2 []. split; simpl; rewrite ?E1, ?E2; done. Qed.

Lemma subsume_empty p c :
  chunks c = [] -> sender_subsume p c =
    set_sbase (fun b => set_complete (complete c) (set_dependents (fun d => d ∪ dependents c) b)) p.
Proof. intros E. unfold sender_subsume. by rewrite E. Qed.

Section lattice.
Context {IS : Type} `{!IdSet IS} `{!IdSetLaws IS}.
Context (lo hi : Z).
Context (Hlo : 0 <= lo) (Hhi : hi <= 2 ^ 63) (Hwin : hi - lo < 2 ^ 31).
Implicit Types (l : lattice sender_obj IS) (b : book) (a : alattice sender_obj).

(** A live object is the book's, or a placeholder for an IROB not begun. *)
Definition tracked b id (o : sender_obj) : Prop :=
  match o with
  | SenderIrob p => b !! id = Some p
  | BaseIrob c => b !! id = None /\ placeholder c = true /\ chunks c = []
  end.

Record tracks b a : Prop := {
  tr_live id o : live a !! id = Some o -> tracked b id o;
  tr_begun id : begun b id -> id ∈ finished a \/ exists p, live a !! id = Some (SenderIrob p)
}.
Definition lat_inv b l : Prop := exists a, sim lo hi l a /\ tracks b a.

Lemma lat_inv_new : lat_inv ∅ lattice_new.
Proof.
  exists spec_new. split; [by apply sim_new|]. split; simpl.
  - intros id o H. by rewrite lookup_empty in H.
  - intros id [p H]. by rewrite lookup_empty in H.
Qed.

Lemma lat_find b l id p :
  lat_inv b l -> in_window lo hi id -> find_locked id l = Some (SenderIrob p) -> b !! id = Some p.
Proof.
  intros (a & S & T) Hid E. rewrite (find_rep lo hi Hwin l (live a)) in E by (done || apply S).
  exact (tr_live _ _ T id _ E).
Qed.

(** Changing a live IROB. *)
Lemma lat_update b l id f p q :
  lat_inv b l -> in_window lo hi id -> find_locked id l = Some (SenderIrob p) ->
  f (SenderIrob p) = SenderIrob q -> same_links (sbase p) (sbase q) ->
  lat_inv (<[id := q]> b) (update_found id f l).
Proof.
  intros (a & S & T) Hid E Ef Hs. rewrite (find_rep lo hi Hwin l (live a)) in E by (done || apply S).
  eexists. split; [eapply (update_sim lo hi Hwin l a id f _ S Hid E); by rewrite Ef|].
  pose proof (tr_live _ _ T id _ E) as Hp. rewrite Ef. split; simpl.
  - intros j o. rewrite lookup_insert. case_decide as Ej.
    + intros [= <-]. subst j. simpl. by rewrite lookup_insert_eq.
    + intros Ho. pose proof (tr_live _ _ T j o Ho) as Ht.
      destruct o; simpl in *; by rewrite lookup_insert_ne.
  - intros j. unfold begun. rewrite lookup_insert. case_decide as Ej.
    + subst j. right. exists q. by rewrite lookup_insert_eq.
    + intros Hj. destruct (tr_begun _ _ T j Hj) as [?|(r & Hr)]; [by left|].
      right. exists r. by rewrite lookup_insert_ne.
Qed.

(** A change that does nothing to IROBs that were begun. *)
Lemma lat_update_base b l id f :
  lat_inv b l -> in_window lo hi id ->
  (forall p, find_locked id l = Some (SenderIrob p) -> f (SenderIrob p) = SenderIrob p) ->
  (forall c, exists c', f (BaseIrob c) = BaseIrob c' /\ same_links c c' /\ chunks c' = chunks c) ->
  lat_inv b (update_found id f l).
Proof.
  intros H Hid Hs Hb. destruct (find_locked id l) as [[c|p]|] eqn:E.
  - destruct H as (a & S & T). rewrite (find_rep lo hi Hwin l (live a)) in E by (done || apply S).
    destruct (Hb c) as (c' & Ef & Hl & Hc).
    eexists. split; [eapply (update_sim lo hi Hwin l a id f _ S Hid E); by rewrite Ef|].
    rewrite Ef. destruct (tr_live _ _ T id _ E) as (Hn & Hp & Hch). split; simpl.
    + intros j o. rewrite lookup_insert. case_decide; [|apply T]. intros [= <-]. subst j. simpl.
      destruct Hl as (_ & _ & _ & ->). by rewrite Hc.
    + intros j Hj. destruct (tr_begun _ _ T j Hj) as [?|(r & Hr)]; [by left|].
      right. exists r. rewrite lookup_insert_ne; [done|]. intros ->. congruence.
  - assert (b !! id = Some p) as Hp by by eapply lat_find.
    rewrite <- (insert_id b id p Hp). by eapply lat_update; eauto.
  - unfold update_found. unfold find_locked in E. by rewrite E.
Qed.

Lemma lat_erase b l id :
  lat_inv b l -> in_window lo hi id -> lat_inv b (snd (erase_locked id false l)).
Proof.
  intros (a & S & T) Hid. pose proof (erase_sim lo hi Hlo Hhi Hwin l a id false S Hid) as K.
  unfold spec_erase in K. destruct (live a !! id) as [v|] eqn:Hv.
  - destruct K as (l' & -> & S'). eexists. split; [exact S'|]. split; simpl.
    + intros j o. rewrite lookup_delete_Some. intros [_ Ho]. by apply T.
    + intros j Hj. destruct (decide (j = id)) as [->|Hne]; [left; set_solver|].
      destruct (tr_begun _ _ T j Hj) as [?|(r & Hr)]; [left; set_solver|].
      right. exists r. by rewrite lookup_delete_ne.
  - destruct K as (l' & -> & S'). by exists a.
Qed.

Lemma lat_drop b l id :
  lat_inv b l -> in_window lo hi id ->
  lat_inv b (default l (drop_irob_and_dependents id l)).
Proof.
  intros (a & S & T) Hid.
  destruct (drop_loop_spec lo hi Hlo Hhi Hwin (drop_fuel l) [id] l a id ∅)
    as (R & l' & E & S' & _).
  - unfold drop_fuel. simpl. lia.
  - by rewrite spec_drop_empty.
  - apply (sim_ok _ _ _ _ S).
  - by apply Forall_singleton.
  - apply drop_inv_start.
  - unfold drop_irob_and_dependents. rewrite E. simpl. exists (spec_drop R a).
    split; [done|]. split.
    + intros j o. rewrite lookup_spec_drop. case_decide; [done|]. apply T.
    + intros j Hj. rewrite lookup_spec_drop. simpl.
      destruct (decide (j ∈ R)) as [?|?]; [left; set_solver|].
      destruct (tr_begun _ _ T j Hj) as [?|?]; [left; set_solver|by right].
Qed.

(** ** Beginning an IROB *)

(** The book after the live objects have changed. *)
Definition update_book a b : book := omap as_sender (live a) ∪ b.

Lemma lookup_update_book a b id :
  update_book a b !! id =
    match live a !! id with Some (SenderIrob p) => Some p | _ => b !! id end.
Proof.
  unfold update_book. rewrite lookup_union, lookup_omap.
  destruct (live a !! id) as [[c|p]|]; simpl; by destruct (b !! id).
Qed.

(** An object registers a dependent. *)
Lemma entry_dependents id p f :
  entry_ok lo hi id p -> entry_ok lo hi id (set_sbase (set_dependents f) p).
Proof. intros []. split; simpl; try done. by apply sender_ok_sbase. Qed.

Lemma evolves_dependents p f : evolves p (set_sbase (set_dependents f) p).
Proof. by split. Qed.

(** What an insertion leaves in the lattice. *)
Lemma inserted_objects b a p a' :
  let id := irob_id (sbase p) in
  tracks b a -> entry_ok lo hi id p -> book_ok lo hi b -> closed lo hi (live a') ->
  spec_insert (SenderIrob p) true a = Ret (true, a') ->
  b !! id = None /\ finished a' = finished a /\
  (exists q, live a' !! id = Some (SenderIrob q) /\ entry_ok lo hi id q) /\
  forall j, j <> id ->
    (exists q, live a !! j = Some (SenderIrob q) /\
       exists f, live a' !! j = Some (SenderIrob (set_sbase (set_dependents f) q))) \/
    ((forall q, live a !! j <> Some (SenderIrob q)) /\
     forall o, live a' !! j = Some o ->
       exists c, o = BaseIrob c /\ placeholder c = true /\ chunks c = [] /\ b !! j = None).
Proof.
  intros id T He Hb Hcl E. unfold spec_insert in E.
  change (irob_id (core (SenderIrob p))) with id in E. cbv zeta in E.
  destruct (LatticeSpec.known id a) eqn:Ek; [done|]. unfold LatticeSpec.known in Ek.
  apply orb_false_iff in Ek as [Ef%bool_decide_eq_false_1 Ek].
  assert (b !! id = None) as Hn.
  { apply eq_None_not_Some. intros Hk. destruct (tr_begun _ _ T id Hk) as [?|(r & Hr)]; [done|].
    rewrite Hr in Ek. simpl in Ek.
    pose proof (Hb id r (tr_live _ _ T id _ Hr)) as Hr'. by rewrite (en_real _ _ _ _ Hr') in Ek. }
  assert (exists p1, (match live a !! id with None => Ret (SenderIrob p) | Some e => subsume (SenderIrob p) e end)
      = Ret (SenderIrob p1) /\ entry_ok lo hi id p1) as (p1 & E1 & He1).
  { destruct (live a !! id) as [[c|r]|] eqn:Hl; [| |by exists p].
    - destruct (tr_live _ _ T id _ Hl) as (_ & _ & Hc). simpl. eexists. split; [done|].
      rewrite subsume_empty by done. destruct He. split; simpl; try done. by apply sender_ok_sbase.
    - pose proof (tr_live _ _ T id _ Hl). simpl in *. congruence. }
  rewrite E1 in E. cbn [mbind outcome_bind] in E. 
  set (D := spec_deps true (core (SenderIrob p1)) a) in E. clearbody D. injection E as E. split; [done|]. split; [by rewrite <- E|]. split.
  - pose proof (Hcl id) as Hw. revert Hw. rewrite <- E. cbn [live]. rewrite lookup_link_map, lookup_insert_eq.
    simpl. case_decide; intros Hw; eexists; (split; [done|]); specialize (Hw _ eq_refl);
      destruct He1; (split; simpl in *; try done); try (by repeat apply sender_ok_sbase);
      intros d Hd; apply Hw; set_solver.
  - rewrite <- E. cbn [live].
    intros j Hj. rewrite lookup_link_map, !lookup_insert_ne by done.
    destruct (live a !! j) as [[c|q]|] eqn:Hl.
    + right. split; [done|]. destruct (tr_live _ _ T j _ Hl) as (? & ? & ?).
      case_decide; intros o [= <-]; eexists; (split; [done|]); by split_and!.
    + left. exists q. split; [done|]. case_decide; simpl.
      * eexists. done.
      * exists (fun x => x). by destruct q as [[] ? ? ? ? ? ? ? ? ? ? ? ? ? ? ?].
    + right. split; [done|]. case_decide as Hd; intros o [= <-]. simpl. eexists.
      split; [done|]. split_and!; try done. apply eq_None_not_Some. intros Hk.
      destruct (tr_begun _ _ T j Hk) as [Hf|(r & Hr)]; [|congruence].
      destruct Hd as [_ Hd]. simpl in Hd. by apply bool_decide_eq_false_1 in Hd.
Qed.

Lemma lat_insert b l p l' :
  let id := irob_id (sbase p) in
  book_ok lo hi b -> lat_inv b l -> entry_ok lo hi id p ->
  (forall d, d ∈ deps (sbase p) ∪ dependents (sbase p) -> in_window lo hi d) ->
  insert_locked (SenderIrob p) true l = Ret (true, l') ->
  exists b', book_le b b' /\ book_ok lo hi b' /\ lat_inv b' l' /\ begun b' id.
Proof.
  intros id Hb (a & S & T) He Hd E.
  destruct (insert_sim_inv lo hi Hlo Hhi Hwin l a (SenderIrob p) true l' S) as (a' & Ea & S').
  { split_and!; [apply He|apply He|exact Hd]. } { done. }
  destruct (inserted_objects b a p a' T He Hb (ok_closed _ _ _ _ (sim_ok _ _ _ _ S')) Ea) as (Hn & Hf & (q & Hq & Heq) & Hj).
  exists (update_book a' b). split_and!.
  - intros j r Hr. rewrite lookup_update_book. assert (j <> id) as Hne by (unfold id in *; congruence).
    destruct (Hj j Hne) as [(q' & Hq' & f & ->)|(Hno & Ho)].
    + pose proof (tr_live _ _ T j _ Hq') as Hr'. simpl in Hr'. simplify_eq.
      eexists. split; [done|]. apply evolves_dependents.
    + exists r. split; [|done]. destruct (live a' !! j) as [[c|r']|] eqn:Hl; try done.
      destruct (Ho _ eq_refl) as (? & ? & _). done.
  - intros j r. rewrite lookup_update_book. intros Hr.
    destruct (decide (j = id)) as [->|Hne]; [fold id in Hq; rewrite Hq in Hr; by simplify_eq|].
    destruct (Hj j Hne) as [(q' & Hq' & f & Hl)|(Hno & Ho)].
    + rewrite Hl in Hr. injection Hr as <-. apply entry_dependents, Hb. exact (tr_live _ _ T j _ Hq').
    + destruct (live a' !! j) as [[c|r']|] eqn:Hl; try by apply Hb.
      destruct (Ho _ eq_refl) as (? & ? & _). done.
  - exists a'. split; [done|]. split.
    + intros j o Ho. destruct (decide (j = id)) as [->|Hne].
      { fold id in Hq. rewrite Hq in Ho. injection Ho as <-. simpl. rewrite lookup_update_book.
        fold id. by rewrite Hq. }
      destruct (Hj j Hne) as [(q' & Hq' & f & Hl)|(Hno & Hc)].
      * rewrite Hl in Ho. injection Ho as <-. simpl. by rewrite lookup_update_book, Hl.
      * destruct (Hc o Ho) as (c & -> & ? & ? & ?). simpl. rewrite lookup_update_book. by rewrite Ho.
    + intros j [r Hr]. rewrite lookup_update_book in Hr. rewrite Hf.
      destruct (live a' !! j) as [[c|r']|] eqn:Hl; [..|];
        [destruct (tr_begun _ _ T j) as [?|(r' & Hr')]; [by eexists|by left|]|by right; exists r'|
         destruct (tr_begun _ _ T j) as [?|(r' & Hr')]; [by eexists|by left|]].
      all: destruct (decide (j = id)) as [->|Hne]; [fold id in Hq; congruence|].
      all: destruct (Hj j Hne) as [(q' & Hq' & f & Hl')|(Hno & _)]; [congruence|].
      all: by destruct (Hno r').
  - unfold begun. rewrite lookup_update_book. fold id in Hq. rewrite Hq. by eexists.
Qed.
End lattice.
