(* ===== verification/OutInv.v ===== *)
(** The invariant of the sending side, and the operations that only choose or
    make connections.

    [out_inv b s]: the outgoing IROBs are those of the book [b], and every request
    to a sender thread names an IROB of the book; a request for an End_IROB names
    one whose bytes are all in chunks.  An operation is [quiet] when it keeps the
    invariant and leaves the book and the outgoing IROBs as they are. *)

From S2P Require Import Prelude Logic Labels Scheduling Irob IntSet Chunks Control SenderIrob.
From S2P Require Import SenderSpec Lattice LatticeRep LatticeSpec ReceiverOrder Chooser Thunks.
From S2P Require Import MultiSocket Socket Outgoing.

Section inv.
Context {IS I : Type} `{!IdSet IS} `{!IdSetLaws IS} `{!InstrumentsChooser I} {NE : NetEstimates}.
Context (lo hi : Z).
Context (Hlo : 0 <= lo) (Hhi : hi <= 2 ^ 63) (Hwin : hi - lo < 2 ^ 31).
Abbreviation SK := (CMMSocketImpl IS I).
Abbreviation L := (lattice sender_obj IS).
Implicit Types (s : SK) (b : book) (id h : Z) (p q : PendingSenderIROB).

Record out_inv b s : Prop := {
  oi_book : book_ok lo hi b;
  oi_lat : lat_inv lo hi b (outgoing_irobs s);
  oi_requests : requests_ok b (irob_indexes s);
  oi_csocks : map_Forall (fun _ c => requests_ok b (cs_indexes c)) (sk_csocks s)
}.

(** What another thread may do while the lock is free. *)
Definition rely (f : SK -> SK) : Prop :=
  forall b s, out_inv b s -> exists b', book_le b b' /\ out_inv b' (f s).

Lemma rely_keeps {A} (m : M SK A) : keeps out_inv m -> rely (fun s => snd (m s)).
Proof. intros Hm b s HI. destruct (Hm b s HI) as (b' & ? & ? & _). by exists b'. Qed.

#[export] Instance frozen_ghost : Ghost (book * L) := {| gle := eq |}.

(** The invariant, and the outgoing IROBs are the given ones. *)
Definition same_out (g : book * L) s : Prop := out_inv g.1 s /\ outgoing_irobs s = g.2.
Abbreviation quiet := (keeps same_out).

Lemma quiet_wp {A} (m : M SK A) (Q : book -> A -> SK -> Prop) b s :
  wp same_out m (fun _ a s' => outgoing_irobs s' = outgoing_irobs s -> out_inv b s' -> Q b a s')
    (b, outgoing_irobs s) s ->
  wp out_inv m Q b s.
Proof.
  intros H HI. destruct (H (conj HI eq_refl)) as (g' & <- & [HI' E] & K). exists b.
  split_and!; [done|done|]. intros a Ea. by apply K.
Qed.

Lemma quiet_step {A} (m : M SK A) (Q : book -> A -> SK -> Prop) b s :
  quiet m -> (forall a s', outgoing_irobs s' = outgoing_irobs s -> out_inv b s' -> Q b a s') ->
  wp out_inv m Q b s.
Proof. intros Hm HQ. apply quiet_wp. eapply keeps_wp; [apply Hm|]. intros; auto. Qed.

Lemma quiet_keeps {A} (m : M SK A) : quiet m -> keeps out_inv m.
Proof. intros Hm b s. by apply quiet_step. Qed.

(** ** Changes of the state *)

(** Fields that the invariant does not mention. *)
Lemma out_frame b s s' :
  out_inv b s -> outgoing_irobs s' = outgoing_irobs s -> irob_indexes s' = irob_indexes s ->
  sk_csocks s' = sk_csocks s -> out_inv b s'.
Proof. intros [] E1 E2 E3. split; rewrite ?E1, ?E2, ?E3; done. Qed.

Lemma out_indexes b s f :
  out_inv b s -> (forall x, requests_ok b x -> requests_ok b (f x)) ->
  out_inv b (upd_irob_indexes f s).
Proof. intros [] Hf. split; simpl; auto. Qed.

Lemma out_csock b s h f :
  out_inv b s -> (forall c, requests_ok b (cs_indexes c) -> requests_ok b (cs_indexes (f c))) ->
  out_inv b (upd_csock h f s).
Proof.
  intros [? ? ? Hc] Hf. split; simpl; try done. intros j c. rewrite lookup_alter.
  case_decide as E; [|apply Hc]. subst j.
  destruct (sk_csocks s !! h) as [c0|] eqn:Ec; [|done]. simpl. intros [= <-]. eapply Hf, Hc, Ec.
Qed.

Lemma out_outgoing b b' s f :
  out_inv b s -> book_le b b' -> book_ok lo hi b' -> lat_inv lo hi b' (f (outgoing_irobs s)) ->
  out_inv b' (upd_outgoing_irobs f s).
Proof.
  intros [] Hle Hb Hl. split; simpl; try done.
  - by apply (requests_ok_le lo hi b).
  - eapply map_Forall_impl; [done|]. intros h c Hc. by apply (requests_ok_le lo hi b).
Qed.

Lemma quiet_modify (f : SK -> SK) :
  (forall b s, out_inv b s -> out_inv b (f s) /\ outgoing_irobs (f s) = outgoing_irobs s) ->
  quiet (modify f).
Proof.
  intros H. apply keeps_modify. intros [b l] s [HI E]. simpl in E. subst l. exists (b, outgoing_irobs s).
  destruct (H b s HI). by split.
Qed.

Lemma quiet_frame (f : SK -> SK) :
  (forall s, outgoing_irobs (f s) = outgoing_irobs s /\ irob_indexes (f s) = irob_indexes s /\
             sk_csocks (f s) = sk_csocks s) -> quiet (modify f).
Proof. intros H. apply quiet_modify. intros b s HI. destruct (H s) as (? & ? & ?). split; [by eapply out_frame|done]. Qed.

Lemma quiet_deref h : quiet (deref h).
Proof. intros g s HI. exists g. by split_and!. Qed.
End inv.

(** Decompose an operation; the leaves are changes of fields the invariant does
    not mention, or operations in the hint database [quiet]. *)
Create HintDb quiet.
#[export] Hint Extern 1 (keeps (same_out _ _) (modify _)) =>
  (apply quiet_frame; intros ?; split_and!; reflexivity) : quiet.
#[export] Hint Resolve quiet_deref : quiet.

Ltac quiet_go := repeat first [solve [auto 2 with quiet] | keeps_step].

Section operations.
Context {IS I : Type} `{!IdSet IS} `{!IdSetLaws IS} `{!InstrumentsChooser I} {NE : NetEstimates}.
Context (lo hi : Z).
Context (Hlo : 0 <= lo) (Hhi : hi <= 2 ^ 63) (Hwin : hi - lo < 2 ^ 31).
Context (k : kernel).
Abbreviation SK := (CMMSocketImpl IS I).
Abbreviation quiet := (keeps (same_out lo hi)).
Implicit Types (s : SK) (b : book) (id h : Z) (p q : PendingSenderIROB).

(** ** Choosing a connection *)

Lemma quiet_find_first (pred : Z * CSocket -> M SK bool) l :
  (forall hc, quiet (pred hc)) -> quiet (find_first pred l).
Proof. intros Hp. induction l; simpl; quiet_go. Qed.

Lemma quiet_find_csock (pred : Z * CSocket -> M SK bool) :
  (forall hc, quiet (pred hc)) -> quiet (find_csock pred).
Proof. intros Hp. unfold find_csock. quiet_go. by apply quiet_find_first. Qed.

Lemma quiet_find_pure (pred : Z * CSocket -> bool) : quiet (find_csock_pure (I:=I) (IS:=IS) pred).
Proof. apply quiet_find_csock. quiet_go. Qed.

Lemma quiet_pair labels n : quiet (get_iface_pair_locked (I:=I) (IS:=IS) labels n).
Proof. unfold get_iface_pair_locked. quiet_go. Qed.
#[local] Hint Resolve quiet_pair quiet_find_pure quiet_find_csock : quiet.

Lemma quiet_matches labels n c : quiet (csock_matches (I:=I) (IS:=IS) labels n c).
Proof. unfold csock_matches. quiet_go. Qed.
#[local] Hint Resolve quiet_matches : quiet.

Lemma quiet_with_labels labels n : quiet (csock_with_labels (I:=I) (IS:=IS) labels n).
Proof. unfold csock_with_labels. quiet_go. Qed.

Lemma quiet_connected labels n : quiet (connected_csock_with_labels (I:=I) (IS:=IS) labels n).
Proof. unfold connected_csock_with_labels. quiet_go. Qed.
#[local] Hint Resolve quiet_with_labels quiet_connected : quiet.

(** ** Requests *)

Lemma quiet_request (Q : book * lattice sender_obj IS -> unit -> SK -> Prop) g s ty d :
  request_ok g.1 ty d -> (forall s', Q g tt s') ->
  wp (same_out lo hi) (modify (upd_irob_indexes (index_insert ty d))) Q g s.
Proof.
  intros Hd HQ. apply wp_modify. intros [HI E]. exists g. split_and!; [done|split|apply HQ]; [|done].
  apply out_indexes; auto with cmm.
Qed.

Lemma quiet_data_check_each ids lip rip mask :
  Forall (in_window lo hi) ids -> quiet (data_check_each (I:=I) (IS:=IS) ids lip rip mask).
Proof.
  induction 1 as [|id ids Hid Hids IH]; simpl; [quiet_go|]. intros [b l] s.
  apply wp_bind, wp_get, wp_bind, wp_lift. intros p Hp. apply wp_bind, wp_lift. intros c _.
  apply wp_inv. intros [HI E].
  assert (begun b id) as Hb.
  { unfold the_sender in Hp. destruct (find_locked id (outgoing_irobs s)) as [[?|p']|] eqn:Ef; try done.
    exists p'. eapply lat_find; [done|apply HI|done|done]. }
  apply wp_bind. destruct c; simpl.
  - apply quiet_request; [done|]. intros s'. apply IH.
  - apply wp_ret. apply IH.
Qed.

Lemma get_all_ids_window b s : out_inv lo hi b s -> Forall (in_window lo hi) (get_all_ids (outgoing_irobs s)).
Proof.
  intros [_ (a & S & _) _ _]. apply Forall_forall. intros id. unfold get_all_ids.
  rewrite list_elem_of_omap. intros (sl & Hsl & E). destruct sl as [o|]; [|done]. injection E as <-.
  apply list_elem_of_lookup in Hsl as [i Hi].
  pose proof (rep_holds _ _ _ _ (ok_rep _ _ _ _ (sim_ok _ _ _ _ S))) as H.
  pose proof (h_slot _ _ _ _ H _ _ Hi) as Hm.
  destruct (h_map _ _ _ _ H _ _ Hm) as (Hw & Eo & _). simpl in *. by rewrite Eo.
Qed.

Lemma quiet_data_check_all lip rip mask : quiet (data_check_all_irobs (I:=I) (IS:=IS) lip rip mask).
Proof.
  intros g s. unfold data_check_all_irobs. apply wp_bind, wp_get, wp_inv. intros [HI _].
  apply quiet_data_check_each. by eapply get_all_ids_window.
Qed.
#[local] Hint Resolve quiet_data_check_all : quiet.

(** ** New connections *)

Lemma quiet_new_csock h local remote :
  quiet (modify (fun s => upd_sk_csocks (I:=I) (IS:=IS) (fun m => <[h := csocket_new local remote]> m) s)).
Proof.
  apply quiet_modify. intros b s [? ? ? ?]. split; [|done]. split; simpl; try done.
  apply map_Forall_insert_2; [apply requests_empty|done].
Qed.
#[local] Hint Resolve quiet_new_csock : quiet.

Lemma quiet_make local remote accepted : quiet (make_new_csocket (I:=I) (IS:=IS) k local remote accepted).
Proof. unfold make_new_csocket, csock_by_ifaces. quiet_go. Qed.
#[local] Hint Resolve quiet_make : quiet.

Lemma quiet_new labels n : quiet (new_csock_with_labels (I:=I) (IS:=IS) k labels n).
Proof. unfold new_csock_with_labels. quiet_go. Qed.

Lemma quiet_check_redundancy p d : quiet (check_redundancy (I:=I) (IS:=IS) p d).
Proof. unfold check_redundancy. quiet_go. Qed.
#[local] Hint Resolve quiet_new quiet_check_redundancy : quiet.

Lemma quiet_map_get_csock (o : option PendingSenderIROB) : quiet (map_get_csock (I:=I) (IS:=IS) k o).
Proof. unfold map_get_csock, or_else, csock_by_ifaces, can_satisfy_network_restrictions. quiet_go. Qed.

Lemma quiet_remove_csock h : quiet (remove_csock (I:=I) (IS:=IS) h).
Proof. unfold remove_csock. quiet_go. Qed.

Lemma quiet_thunk labels fn arg : quiet (register_thunk (I:=I) (IS:=IS) labels fn arg).
Proof. unfold register_thunk. quiet_go. Qed.

Lemma quiet_stats labels n m : quiet (sk_update_net_restriction_stats (I:=I) (IS:=IS) labels n m).
Proof. unfold sk_update_net_restriction_stats. quiet_go. Qed.
#[local] Hint Resolve quiet_stats : quiet.

Lemma quiet_update_stats h labels n m :
  quiet (update_net_restriction_stats (I:=I) (IS:=IS) h labels n m).
Proof. unfold update_net_restriction_stats. quiet_go. Qed.
End operations.
#[export] Hint Resolve quiet_pair quiet_find_pure quiet_find_csock quiet_matches quiet_with_labels
  quiet_connected quiet_data_check_all quiet_new_csock quiet_make quiet_new quiet_check_redundancy
  quiet_map_get_csock quiet_remove_csock quiet_thunk quiet_stats quiet_update_stats : quiet.

(** ** Changing an outgoing IROB *)

(** [q] may take the place of [p] in the lattice and in the book. *)
Record improves (p q : PendingSenderIROB) : Prop := {
  im_ok : sender_ok q;
  im_evolves : evolves p q;
  im_size : num_bytes p < 2 ^ 31 -> num_bytes q < 2 ^ 31;
  im_links : same_links (sbase p) (sbase q)
}.

(** A change of fields that neither the data nor the links depend on. *)
Lemma improves_fields p q :
  sbase q = sbase p -> sent_chunks q = sent_chunks p -> resend_chunks q = resend_chunks p ->
  num_bytes q = num_bytes p -> next_seqnos_to_send q = next_seqnos_to_send p ->
  irob_offsets q = irob_offsets p -> sender_ok p -> improves p q.
Proof.
  intros E1 E2 E3 E4 E5 E6 []. split.
  - split; rewrite ?E1, ?E2, ?E3, ?E4, ?E5, ?E6; done.
  - by split; rewrite ?E1, ?E2.
  - by rewrite E4.
  - unfold same_links. by rewrite E1.
Qed.

(** A change of the base object that leaves its chunks. *)
Lemma improves_base p f :
  same_links (sbase p) (f (sbase p)) -> chunks (f (sbase p)) = chunks (sbase p) ->
  send_labels (f (sbase p)) = send_labels (sbase p) ->
  (complete (sbase p) = true -> complete (f (sbase p)) = true) ->
  sender_ok p -> improves p (set_sbase f p).
Proof.
  intros (E1 & E2 & E3 & E4) Ec El Hc Hok. split; [| |done|done].
  - by apply sender_ok_sbase.
  - split; simpl; rewrite ?Ec; try done. intros; split; auto.
Qed.

(** A longer cutting of the same base object. *)
Lemma improves_cut p q :
  sender_ok p -> sbase q = sbase p -> sent_chunks p `prefix_of` sent_chunks q -> sender_ok q ->
  improves p q.
Proof.
  intros Hp E1 E2 Hok. split; [done|by split; rewrite ?E1| |].
  { by rewrite (so_num q Hok), (so_num p Hp), E1. } unfold same_links. by rewrite E1.
Qed.

Lemma entry_improves lo hi id p q : entry_ok lo hi id p -> improves p q -> entry_ok lo hi id q.
Proof.
  intros [? ? ? (l & El & Hl) Hn ? Hd] [? [? ? E] ? ?].
  split; [done|congruence|done|exists l; split; [congruence|done]|auto|congruence|].
  intros d. rewrite E. apply Hd.
Qed.

Section changes.
Context {IS I : Type} `{!IdSet IS} `{!IdSetLaws IS} `{!InstrumentsChooser I} {NE : NetEstimates}.
Context (lo hi : Z).
Context (Hlo : 0 <= lo) (Hhi : hi <= 2 ^ 63) (Hwin : hi - lo < 2 ^ 31).
Abbreviation SK := (CMMSocketImpl IS I).
Abbreviation out_inv := (out_inv lo hi).
Abbreviation in_window := (in_window lo hi).
Implicit Types (s : SK) (b : book) (id h : Z) (p q : PendingSenderIROB).

Lemma begun_window b id : book_ok lo hi b -> begun b id -> in_window id.
Proof. intros Hb [p Hp]. apply (en_window _ _ _ _ (Hb id p Hp)). Qed.

Lemma out_find b s id p :
  out_inv b s -> in_window id -> find_locked id (outgoing_irobs s) = Some (SenderIrob p) ->
  b !! id = Some p /\ entry_ok lo hi id p.
Proof.
  intros [Hb Hl _ _] Hid E. assert (b !! id = Some p) as Hp by by eapply lat_find.
  split; [done|by apply Hb].
Qed.

Lemma out_insert b s id p q f :
  out_inv b s -> in_window id -> find_locked id (outgoing_irobs s) = Some (SenderIrob p) ->
  f (SenderIrob p) = SenderIrob q -> improves p q ->
  book_le b (<[id := q]> b) /\ out_inv (<[id := q]> b) (upd_outgoing_irobs (update_found id f) s).
Proof.
  intros HI Hid E Ef Hi. destruct (out_find b s id p HI Hid E) as [Hp He].
  assert (book_le b (<[id := q]> b)) as Hle.
  { apply book_le_insert. intros p' Hp'. simplify_eq. apply Hi. }
  split; [done|]. eapply out_outgoing; [done|done| |].
  - apply map_Forall_insert_2; [|apply HI]. by eapply entry_improves.
  - eapply lat_update; try done; apply HI || apply Hi.
Qed.

(** Any change through the pointer of an IROB. *)
Lemma out_update b s id (f : sender_obj -> sender_obj) :
  out_inv b s -> in_window id ->
  (forall p, find_locked id (outgoing_irobs s) = Some (SenderIrob p) -> entry_ok lo hi id p ->
     exists q, f (SenderIrob p) = SenderIrob q /\ improves p q) ->
  (forall c, exists c', f (BaseIrob c) = BaseIrob c' /\ same_links c c' /\ chunks c' = chunks c) ->
  exists b', book_le b b' /\ out_inv b' (upd_outgoing_irobs (update_found id f) s).
Proof.
  intros HI Hid Hf Hb.
  destruct (find_locked id (outgoing_irobs s)) as [[c|p]|] eqn:E.
  2:{ destruct (out_find b s id p HI Hid E) as [_ He]. destruct (Hf p eq_refl He) as (q & Eq & Hq).
      exists (<[id := q]> b). by eapply out_insert. }
  all: exists b; split; [done|]; eapply out_outgoing; [done|done|apply HI|].
  all: eapply lat_update_base; [done|apply HI|done|by intros ? E'; rewrite E in E'|done].
Qed.

Lemma keeps_update id (f : sender_obj -> sender_obj) :
  in_window id ->
  (forall p, entry_ok lo hi id p -> exists q, f (SenderIrob p) = SenderIrob q /\ improves p q) ->
  (forall c, exists c', f (BaseIrob c) = BaseIrob c' /\ same_links c c' /\ chunks c' = chunks c) ->
  keeps out_inv (modify (fun s => upd_outgoing_irobs (I:=I) (update_found id f) s)).
Proof. intros Hid Hf Hb. apply keeps_modify. intros b s HI. apply out_update; auto. Qed.

(** A change of the IROB that may depend on what it is now. *)
Lemma wp_upd_sender id f b s :
  in_window id ->
  (forall p, find_locked id (outgoing_irobs s) = Some (SenderIrob p) -> entry_ok lo hi id p -> improves p (f p)) ->
  wp out_inv (modify (fun s => upd_sender (I:=I) id f s)) (fun _ _ _ => True) b s.
Proof.
  intros Hid Hf. apply wp_modify. intros HI.
  destruct (out_update b s id (fun o => match o with SenderIrob p => SenderIrob (f p) | BaseIrob c => BaseIrob c end)
    HI Hid) as (b' & ? & ?); [| |by exists b'].
  - intros p Hp He. exists (f p). auto.
  - intros c. by exists c.
Qed.

Lemma keeps_upd_sender id f :
  in_window id -> (forall p, entry_ok lo hi id p -> improves p (f p)) ->
  keeps out_inv (modify (fun s => upd_sender (I:=I) id f s)).
Proof. intros Hid Hf b s. by apply wp_upd_sender; auto. Qed.

(** The object behind a pointer is replaced, and is the book's. *)
Lemma wp_set_sender b s id p q (Q : book -> unit -> SK -> Prop) :
  in_window id -> find_locked id (outgoing_irobs s) = Some (SenderIrob p) -> improves p q ->
  (forall b' s', book_le b b' -> b' !! id = Some q -> Q b' tt s') ->
  wp out_inv (modify (upd_sender id (fun _ => q))) Q b s.
Proof.
  intros Hid E Hi HQ. apply wp_modify. intros HI.
  destruct (out_insert b s id p q (fun o => match o with SenderIrob _ => SenderIrob q | BaseIrob c => BaseIrob c end)
    HI Hid E eq_refl Hi) as [Hle HI']. exists (<[id := q]> b). split_and!; [done|done|].
  apply HQ; [done|apply lookup_insert_eq].
Qed.

Lemma keeps_drop id : in_window id -> keeps out_inv (sk_drop_irob_and_dependents (IS:=IS) (I:=I) id).
Proof.
  intros Hid. apply keeps_modify. intros b s HI. exists b. split; [done|].
  eapply out_outgoing; [done|done|apply HI|]. apply lat_drop; try done. apply HI.
Qed.

Lemma keeps_erase id :
  in_window id -> keeps out_inv (modify (fun s => upd_outgoing_irobs (I:=I) (fun l => snd (erase_locked id false l)) s)).
Proof.
  intros Hid. apply keeps_modify. intros b s HI. exists b. split; [done|].
  eapply out_outgoing; [done|done|apply HI|]. apply lat_erase; try done. apply HI.
Qed.

(** ** Making requests *)

Lemma wp_schedule b s ty d (Q : book -> unit -> SK -> Prop) :
  request_ok b ty d -> (forall s', Q b tt s') -> wp out_inv (schedule ty d) Q b s.
Proof.
  intros Hd HQ. apply wp_modify. intros HI. exists b. split_and!; [done| |apply HQ].
  apply out_indexes; auto with cmm.
Qed.

Lemma wp_schedule_same b s ty d (Q : book -> unit -> SK -> Prop) :
  request_ok b ty d -> (forall s', outgoing_irobs s' = outgoing_irobs s -> Q b tt s') ->
  wp out_inv (schedule ty d) Q b s.
Proof.
  intros Hd HQ. apply wp_modify. intros HI. exists b. split_and!; [done| |by apply HQ].
  apply out_indexes; auto with cmm.
Qed.

Lemma wp_csock_request b s h ty d (Q : book -> unit -> SK -> Prop) :
  request_ok b ty d -> (forall s', Q b tt s') ->
  wp out_inv (modify (upd_csock h (set_cs_indexes (index_insert ty d)))) Q b s.
Proof.
  intros Hd HQ. apply wp_modify. intros HI. exists b. split_and!; [done| |apply HQ].
  apply out_csock; [done|]. intros c Hc. simpl. auto with cmm.
Qed.

Lemma out_add_request b s p d h c :
  begun b (sd_id d) -> requests_ok b (cs_indexes c) ->
  requests_ok b (cs_indexes (add_request_if_not_sent p d h c)).
Proof.
  intros Hd Hc. unfold add_request_if_not_sent. destruct (sd_chunks_ready d); simpl.
  - destruct (_ <? _); [|done]. simpl. by apply requests_insert.
  - destruct (was_announced _ _); [done|]. simpl. by apply requests_insert.
Qed.

Lemma wp_pass_request b s p d (Q : book -> unit -> SK -> Prop) :
  begun b (sd_id d) -> (forall s', Q b tt s') ->
  wp out_inv (pass_request_to_all_senders p d) Q b s.
Proof.
  intros Hd HQ. unfold pass_request_to_all_senders. destruct (sd_data_check d); [by apply wp_ret|].
  apply wp_bind, wp_get, wp_modify. intros HI. exists b. split_and!; [done| |apply HQ].
  generalize (ascending (available_csocks s)). intros l. revert s HI.
  induction l as [|h l IH]; intros s HI; [done|]. simpl. apply IH.
  apply out_csock; [done|]. intros c. by apply out_add_request.
Qed.
End changes.
