(* ===== verification/SocketInv.v ===== *)
(** The operations of the multi-socket keep the sending side in order.

    Every call of the application, every message handler of a receiver thread and
    every change of interfaces keeps [out_inv] (OutInv.v), so each of them is
    something a sender thread may rely on while it does not hold the lock
    ([rely]).  Identifiers come from the window; an application does not give an
    IROB 2^31 bytes. *)

From S2P Require Import Prelude Logic Labels Scheduling Irob IntSet Chunks Control SenderIrob.
From S2P Require Import SenderSpec ReceiverIrob Lattice LatticeRep LatticeSpec ReceiverLattice.
From S2P Require Import ReceiverOrder Chooser Thunks MultiSocket Socket Receiver Outgoing OutInv.

(** ** IROB objects *)

Lemma redundant_improves p : sender_ok p -> improves p (mark_send_on_all_networks p).
Proof. by apply improves_fields. Qed.

Lemma improves_refl p : sender_ok p -> improves p p.
Proof. by apply improves_fields. Qed.

Lemma finish_improves p :
  sender_ok p -> improves p (set_sbase (fun c => snd (core_finish c)) p).
Proof.
  intros Hok. apply improves_base; [..|done]; unfold core_finish, same_links;
    by destruct (complete (sbase p)) eqn:E; simpl; rewrite ?E.
Qed.

Lemma add_chunk_improves p id (buf : list Byte.byte) :
  sender_ok p -> num_bytes p + Z.of_nat (length buf) < 2 ^ 31 ->
  improves p (snd (sender_add_chunk p (Chunk id 0 0 (Z.of_nat (length buf)) (Some buf)))).
Proof.
  intros Hok Hb. assert (num_bytes p + Z.of_nat (length buf) < 2 ^ 63) as Hb' by lia.
  pose proof (sender_add_chunk_ok p (Chunk id 0 0 (Z.of_nat (length buf)) (Some buf)) Hok eq_refl Hb') as H.
  destruct (sender_add_chunk p _) as [r q] eqn:E. destruct H as (Hq & _ & _). simpl.
  unfold sender_add_chunk in E. destruct (complete (sbase p)) eqn:Ec; injection E as _ <-; [by apply improves_refl|].
  split; [done| | |done]; [split; simpl; try done; [by apply prefix_app_r|by rewrite Ec]|].
  rewrite (so_num _ Hq). simpl. rewrite total_len_app, <- (so_num p Hok). unfold total_len. simpl. lia.
Qed.

Lemma mark_not_received_improves p n q : sender_ok p -> mark_not_received p n = Ret q -> improves p q.
Proof.
  intros Hok. unfold mark_not_received. destruct (_ <? _); [intros [= <-]; by apply improves_refl|].
  destruct (sent_chunks p !! Z.to_nat n) as [c|] eqn:Hc; simpl; [|done]. intros [= <-].
  apply improves_cut; [done..|]. pose proof Hok as [? ? ? ? ? ? ? ? ? Hr]. split; simpl; try done.
  apply OrdSet.insert_Forall; [|done]. by eapply list_elem_of_lookup_2.
Qed.

Lemma improves_trans p q r : improves p q -> improves q r -> improves p r.
Proof.
  intros [Hq E1 N1 (L1 & L2 & L3 & L4)] [Hr E2 N2 (M1 & M2 & M3 & M4)]. split; [done|by etrans|auto|].
  unfold same_links. split_and!; congruence.
Qed.

Lemma mark_from_improves fuel i p q : sender_ok p -> mark_from fuel i p = Ret q -> improves p q.
Proof.
  revert i p. induction fuel as [|fuel IH]; intros i p Hok; simpl; [intros [= <-]; by apply improves_refl|].
  intros E. apply bind_ret_inv in E as (p' & E1 & E2).
  pose proof (mark_not_received_improves p _ p' Hok E1) as H1.
  eapply improves_trans; [exact H1|]. eapply IH; [apply H1|done].
Qed.

(** The object changed through a pointer is found again. *)
Lemma find_updated {O IS} `{!IrobOps O} id (f : O -> O) (l : lattice O IS) o :
  find_locked id l = Some o -> find_locked id (update_found id f l) = Some (f o).
Proof.
  unfold update_found, find_locked. intros E. rewrite E.
  assert (slot_index id (set_pending (fun q => <[Z.to_nat (slot_index id l) := Some (f o)]> q) l) =
          slot_index id l) as -> by done.
  unfold slot_at, size_int in *. simpl. rewrite length_insert.
  destruct (_ || _); [done|]. rewrite list_lookup_insert, decide_True; [done|]. split; [done|].
  apply lookup_lt_is_Some. by destruct (pending_irobs l !! _).
Qed.

Section api.
Context {IS I : Type} `{!IdSet IS} `{!IdSetLaws IS} `{!InstrumentsChooser I} {NE : NetEstimates}.
Context (lo hi : Z).
Context (Hlo : 0 <= lo) (Hhi : hi <= 2 ^ 63) (Hwin : hi - lo < 2 ^ 31).
Context (k : kernel) (now : timeval).
Abbreviation SK := (CMMSocketImpl IS I).
Abbreviation out_inv := (out_inv lo hi).
Abbreviation in_window := (in_window lo hi).
Abbreviation ok := (keeps out_inv).
Implicit Types (s : SK) (b : book) (id h labels : Z) (p q : PendingSenderIROB).

(** ** get_csock *)

(** The IROB, perhaps marked to be sent on all networks. *)
Definition maybe_redundant p q : Prop := q = p \/ q = mark_send_on_all_networks p.

Lemma maybe_improves p q : sender_ok p -> maybe_redundant p q -> improves p q.
Proof. intros Hok [->| ->]; [by apply improves_refl|by apply redundant_improves]. Qed.

Definition redundancy_of (o o' : option PendingSenderIROB) : Prop :=
  match o with Some p => exists q, o' = Some q /\ maybe_redundant p q | None => o' = None end.

Lemma redundancy_refl o : redundancy_of o o.
Proof. destruct o; [|done]. eexists. split; [done|by left]. Qed.

Abbreviation Frozen := (book * lattice sender_obj IS)%type.
Abbreviation so := (same_out lo hi).

Lemma wp_catch {A} (m h : M SK A) (Q : Frozen -> A -> SK -> Prop) g s :
  wp so m Q g s -> (forall s', wp so h Q g s') -> wp so (catch_runtime m h) Q g s.
Proof.
  intros Hm Hh HI. destruct (Hm HI) as (g' & Hle & HI' & K). unfold catch_runtime.
  destruct (m s) as [[a|[]|t] s']; simpl in *; try by exists g'.
  rewrite <- Hle in *. destruct (Hh s' HI') as (g2 & Hle2 & ? & ?). by exists g2.
Qed.

Lemma wp_q {A} (m : M SK A) (Q : Frozen -> A -> SK -> Prop) g s :
  keeps so m -> (forall a s', Q g a s') -> wp so m Q g s.
Proof. intros Hm HQ. eapply keeps_wp; [done|]. intros g' a s' <- _. apply HQ. Qed.

Lemma wp_check_redundancy p d (Q : Frozen -> _ -> SK -> Prop) g s :
  (forall q s', maybe_redundant p q -> Q g q s') -> wp so (check_redundancy p d) Q g s.
Proof.
  intros HQ. unfold check_redundancy. apply wp_bind, wp_get.
  destruct (_ <=? _); [by apply wp_ret, HQ; left|]. apply wp_bind, wp_lift. intros c _.
  destruct c; simpl; [|by apply wp_ret, HQ; left]. apply wp_bind.
  apply wp_q; [by destruct d; repeat keeps_step|]. intros r s'. apply wp_ret, HQ. destruct r; [by right|by left].
Qed.

Lemma wp_map_get_csock (o : option PendingSenderIROB) (Q : Frozen -> _ -> SK -> Prop) g s :
  (forall rc (h : option Z) o' s', redundancy_of o o' -> Q g (rc, h, o') s') -> wp so (map_get_csock k o) Q g s.
Proof.
  intros HQ. unfold map_get_csock. apply wp_bind, wp_q; [by destruct o; repeat keeps_step|]. intros labels s1.
  apply wp_bind, wp_q; [auto with quiet|]. intros pair s2. apply wp_bind, wp_q.
  { unfold or_else, csock_by_ifaces. quiet_go. }
  intros h s3. apply wp_bind.
  assert (forall o' s', redundancy_of o o' -> wp so (match h with
      | Some h => mret (0, Some h, o')
      | None => ok ← can_satisfy_network_restrictions labels;
                mret (if (ok : bool) then CMM_FAILED else CMM_UNDELIVERABLE, None, o')
      end) Q g s') as K.
  { intros o' s' Ho. destruct h; [by apply wp_ret, HQ|]. apply wp_bind, wp_q.
    - unfold can_satisfy_network_restrictions. quiet_go.
    - intros r s4. by apply wp_ret, HQ. }
  destruct o as [p|]; [|by apply wp_ret, K]. apply wp_bind, wp_check_redundancy. intros q s4 Hq.
  apply wp_ret, K. simpl. eauto.
Qed.

Lemma wp_get_csock (o : option PendingSenderIROB) blocking (Q : Frozen -> _ -> SK -> Prop) g s :
  (forall r s', redundancy_of o r.2 -> Q g r s') -> wp so (get_csock k o blocking) Q g s.
Proof.
  intros HQ. unfold get_csock. apply wp_bind, wp_q; [by destruct o; repeat keeps_step|]. intros labels s1.
  destruct (match o with Some p => get_thunk p | None => (None, 0) end) as [handler arg].
  apply wp_catch; [|intros; by apply wp_ret, HQ, redundancy_refl].
  apply wp_bind, wp_map_get_csock. intros rc h o' s2 Ho.
  assert (forall r s', wp so (mret (r, o')) Q g s') as R by (intros; by apply wp_ret, HQ).
  apply wp_bind, wp_get. destruct h as [h|].
  - destruct handler as [fn|]; [|apply R]. destruct (has_bits _ _); [|apply R].
    apply wp_bind, wp_q; [auto with quiet|]. intros c s3. destruct (is_busy k h c); [|apply R].
    apply wp_bind, wp_q; [unfold get_idle_csock; quiet_go|]. intros [h'|] s4; [apply R|].
    apply wp_bind, wp_q; [auto with quiet|]. intros; apply R.
  - destruct (rc =? _); [apply R|]. destruct handler as [fn|].
    + apply wp_bind, wp_q; [auto with quiet|]. intros; apply R.
    + destruct (_ && _); apply R.
Qed.

Lemma quiet_get_csock o blocking : keeps so (get_csock k o blocking).
Proof. intros g s. by apply wp_get_csock. Qed.

Lemma ok_resume labels rc : ok (resume_get_csock (IS:=IS) (I:=I) k labels rc).
Proof.
  apply quiet_keeps. unfold resume_get_csock. destruct (rc <? 0); [apply keeps_ret|]. intros g s.
  apply wp_catch; [|intros; by apply wp_ret]. apply wp_bind, wp_q; [auto with quiet|]. intros; by apply wp_ret.
Qed.

(** ** Beginning and ending IROBs *)

Lemma wp_add_scheduling h ty p d (Q : book -> unit -> SK -> Prop) b s :
  request_ok b ty d -> (forall s', Q b tt s') -> wp out_inv (addSchedulingData h ty p d) Q b s.
Proof.
  intros Hd HQ. unfold addSchedulingData. apply wp_bind, quiet_step; [auto with quiet|]. intros c s1 _ _.
  assert (forall s', wp out_inv (can ← lift (can_be_redundant (sbase p)); let _ : bool := can in mret tt) Q b s') as K.
  { intros s'. apply wp_bind, wp_lift. intros r _. by apply wp_ret. }
  apply wp_bind. destruct (connected c); [by apply wp_csock_request|by apply wp_schedule].
Qed.

Lemma wp_insert_outgoing p (Q : book -> unit -> SK -> Prop) b s :
  entry_ok lo hi (irob_id (sbase p)) p ->
  (forall d, d ∈ deps (sbase p) ∪ dependents (sbase p) -> in_window d) ->
  (forall b' s', book_le b b' -> begun b' (irob_id (sbase p)) -> Q b' tt s') ->
  wp out_inv (insert_outgoing p) Q b s.
Proof.
  intros He Hd HQ. apply wp_bind, wp_get, wp_inv. intros [Hb Hl Hr Hc]. apply wp_bind, wp_lift.
  intros [r l'] E. apply wp_bind, wp_lift. intros [] ->%assert_inv. apply wp_modify. intros HI.
  destruct (lat_insert lo hi Hlo Hhi Hwin b (outgoing_irobs s) p l' Hb Hl He Hd E) as (b' & Hle & Hb' & Hl' & Hk).
  exists b'. split_and!; [done| |by apply HQ]. by apply (out_outgoing lo hi b).
Qed.

(** [u_long] labels of which 32 bits are in use. *)
Definition labels_ok labels : Prop := 0 <= labels < 2 ^ 32.

(** An IROB the application has just made. *)
Lemma new_entry id ds data labels rh arg t p q :
  in_window id -> Forall in_window ds -> Z.of_nat (length data) < 2 ^ 31 -> labels_ok labels ->
  p = sender_new id ds data labels rh arg t -> maybe_redundant p q ->
  entry_ok lo hi (irob_id (sbase q)) q /\ irob_id (sbase q) = id /\
  forall d, d ∈ deps (sbase q) ∪ dependents (sbase q) -> in_window d.
Proof.
  intros Hid Hds Hlen Hl -> Hq. pose proof (sender_new_ok id ds data labels rh arg t ltac:(lia)) as Hok.
  pose proof (im_ok _ _ (maybe_improves _ _ Hok Hq)) as Hokq.
  assert (sbase q = core_new id ds data labels) as E by (by destruct Hq as [->| ->]).
  assert (num_bytes q = Z.of_nat (length data)) as En by (by destruct Hq as [->| ->]).
  rewrite Forall_forall in Hds. unfold core_new in E.
  destruct (0 <? _); rewrite E; simpl; (split; [|split; [done|set_solver]]);
    split; rewrite ?E; try done; first [by eexists|lia|set_solver].
Qed.

Lemma ok_begin_irob next ds labels rh arg :
  in_window next -> Forall in_window ds -> labels_ok labels -> ok (begin_irob (IS:=IS) (I:=I) k now next ds labels rh arg).
Proof.
  intros Hid Hds Hlab b s. apply wp_bind, wp_get. destruct (shutting_down s); [by apply wp_ret|].
  apply wp_bind, quiet_wp, wp_get_csock. intros [r o] s1 (q & E & Hq) _ _. simpl in E. subst o.
  destruct r as [h|rc|l]; [|by apply wp_ret..]. simpl.
  destruct (new_entry _ _ [] _ _ _ _ _ _ Hid Hds ltac:(simpl; lia) Hlab eq_refl Hq) as (He & Eid & Hd).
  assert (ok (begin_irob_with (IS:=IS) (I:=I) q h)) as K.
  { intros b1 s2. apply wp_bind, wp_get. destruct (irob_is_undeliverable _ _); [by apply wp_ret|].
    apply wp_bind, wp_insert_outgoing; [done|done|]. intros b2 s3 Hle Hk. apply wp_bind, wp_lift. intros l _.
    apply wp_bind, wp_add_scheduling; [done|]. intros. by apply wp_ret. }
  eapply wp_keeps; [apply K|]. intros. by apply wp_ret.
Qed.

Lemma ok_frame (f : SK -> SK) :
  (forall s, outgoing_irobs (f s) = outgoing_irobs s /\ irob_indexes (f s) = irob_indexes s /\
             sk_csocks (f s) = sk_csocks s) -> ok (modify f).
Proof. intros Hf. by apply quiet_keeps, quiet_frame. Qed.

Lemma wp_the_sender id (Q : book -> PendingSenderIROB -> SK -> Prop) b s :
  in_window id ->
  (forall p, find_locked id (outgoing_irobs s) = Some (SenderIrob p) -> entry_ok lo hi id p ->
     b !! id = Some p -> Q b p s) ->
  wp out_inv (lift (the_sender (find_locked id (outgoing_irobs s)))) Q b s.
Proof.
  intros Hid HQ. apply wp_inv. intros HI. apply wp_lift. intros q Hq. unfold the_sender in Hq.
  destruct (find_locked id (outgoing_irobs s)) as [[c|p']|] eqn:E; try done. injection Hq as ->.
  destruct (out_find lo hi Hwin b s id q HI Hid E). by apply HQ.
Qed.

Lemma ok_end_with id h labels : in_window id -> ok (end_irob_with (IS:=IS) (I:=I) id h labels).
Proof.
  intros Hid b s. apply wp_bind, wp_get. apply wp_bind, wp_lift. intros o _.
  assert (forall rc b s, wp out_inv
    (modify (fun s => upd_outgoing_irobs (fun l => snd (erase_locked id false l)) s);; mret (Done rc))
    (fun _ (_ : api Z) _ => True) b s) as Hfail.
  { intros rc b' s'. eapply wp_keeps; [by apply keeps_erase|]. intros. by apply wp_ret. }
  cbv zeta. destruct (_ && _); [apply Hfail|]. destruct (_ && _); [by apply wp_ret|]. destruct (_ <? 0); [apply Hfail|].
  eapply wp_keeps.
  { apply keeps_update; [done|done| |].
    - intros p He. eexists. split; [done|]. apply finish_improves, He.
    - intros c. eexists. split; [done|]. unfold core_finish. by destruct (complete c). }
  intros b1 _ s1 _ _. apply wp_bind, wp_get, wp_bind, wp_the_sender; [done|]. intros p _ He Hp.
  apply wp_bind. destruct (_ && _) eqn:E; unfold when; [|by apply wp_ret, wp_ret].
  apply andb_true_iff in E as [[_ E1]%andb_true_iff E2].
  apply wp_add_scheduling; [by exists p|]. intros. by apply wp_ret.
Qed.

(** After [get_csock] for a live IROB, its object may be marked redundant. *)
Lemma wp_store_redundant id (o : option PendingSenderIROB) o' (Q : book -> unit -> SK -> Prop) b s :
  in_window id -> redundancy_of o o' ->
  (forall p, o = Some p -> find_locked id (outgoing_irobs s) = Some (SenderIrob p)) ->
  (forall b' s', Q b' tt s') ->
  wp out_inv (match o' with Some p' => modify (upd_sender id (fun _ => p')) | None => mret tt end) Q b s.
Proof.
  intros Hid Ho Hf HQ. destruct o as [p|]; simpl in Ho; [|subst o'; by apply wp_ret].
  destruct Ho as (q & -> & Hq). apply wp_inv. intros HI. pose proof (Hf p eq_refl) as E.
  destruct (out_find lo hi Hwin b s id p HI Hid E) as [_ He].
  apply (wp_set_sender lo hi Hwin b s id p q); [done|done| |auto].
  apply maybe_improves; [apply He|done].
Qed.

Lemma ok_end_irob id : in_window id -> ok (end_irob (IS:=IS) (I:=I) k id).
Proof.
  intros Hid b s. apply wp_bind, wp_get. destruct (shutting_down s); [by apply wp_ret|].
  destruct (find_locked id (outgoing_irobs s)) as [o|] eqn:E; [|by apply wp_ret].
  destruct (complete (core o)); [by apply wp_ret|]. apply wp_bind, wp_lift. intros labels _.
  apply wp_bind, quiet_wp, wp_get_csock. intros r s1 Ho Es _.
  apply wp_bind, (wp_store_redundant id (as_sender o)); [done|done| |].
  { intros p Hp. rewrite Es, E. destruct o; by simplify_eq/=. }
  intros b1 s2. destruct r.1; [by apply ok_end_with|..].
  all: apply wp_bind, quiet_wp, wp_get_csock; intros r2 s3 _ _ _;
    destruct r2.1; [by apply ok_end_with|by apply wp_ret..].
Qed.

(** There is room for another [n] bytes in the IROB's [size_t]. *)
Definition room id (n : nat) s : Prop :=
  forall p, find_locked id (outgoing_irobs s) = Some (SenderIrob p) -> num_bytes p + Z.of_nat n < 2 ^ 31.

Lemma wp_irob_chunk_with id h buf labels b s :
  in_window id -> room id (length buf) s ->
  wp out_inv (irob_chunk_with (IS:=IS) (I:=I) id h buf labels) (fun _ _ _ => True) b s.
Proof.
  intros Hid Hroom. eapply wp_step.
  { apply wp_upd_sender; [done|done|]. intros p Hp He. apply add_chunk_improves; [apply He|by apply Hroom]. }
  intros b1 _ s1 _ _ _.
  apply wp_bind, wp_get, wp_bind, wp_the_sender; [done|]. intros p _ _ Hp.
  apply wp_bind. destruct (was_announced _ _); unfold when; [|by apply wp_ret, wp_ret].
  apply wp_add_scheduling; [by exists p|]. intros. by apply wp_ret.
Qed.

Lemma wp_irob_chunk id buf b s :
  in_window id -> room id (length buf) s ->
  wp out_inv (irob_chunk (IS:=IS) (I:=I) k id buf) (fun _ _ _ => True) b s.
Proof.
  intros Hid Hroom. apply wp_bind, wp_get. destruct (shutting_down s); [by apply wp_ret|].
  destruct (find_locked id (outgoing_irobs s)) as [o|] eqn:E; [|by apply wp_ret].
  destruct (complete (core o)); [by apply wp_ret|]. apply wp_bind, wp_lift. intros p Hp.
  assert (o = SenderIrob p) as -> by (destruct o; unfold the_sender in Hp; by simplify_eq/=).
  apply wp_bind, wp_lift. intros labels _.
  apply wp_bind, quiet_wp, wp_get_csock. intros [r o'] s1 (q & Eq & Hq) Es _. simpl in Eq. subst o'. simpl.
  rewrite <- Es in E. apply wp_bind. apply wp_inv. intros HI.
  destruct (out_find lo hi Hwin b s1 id p HI Hid E) as [_ He].
  pose proof (maybe_improves p q (en_ok _ _ _ _ He) Hq) as Hi.
  apply wp_modify. intros _. destruct (out_insert lo hi Hwin b s1 id p q (fun o =>
    match o with SenderIrob _ => SenderIrob q | BaseIrob c => BaseIrob c end) HI Hid E eq_refl Hi) as [Hle HI'].
  eexists. split; [exact Hle|]. split; [exact HI'|].
  destruct r as [h|rc|l]; [|by apply wp_ret..]. eapply wp_step; [|intros; by apply wp_ret].
  apply wp_irob_chunk_with; [done|]. intros p' Hp'.
  destruct (out_find lo hi Hwin _ _ id p' HI' Hid Hp') as [Ep' _]. rewrite lookup_insert_eq in Ep'.
  injection Ep' as <-. assert (num_bytes q = num_bytes p) as -> by (by destruct Hq as [->| ->]).
  apply Hroom. by rewrite <- Es.
Qed.

(** ** Whole IROBs *)

Lemma ok_send_default p h :
  entry_ok lo hi (irob_id (sbase p)) p ->
  (forall d, d ∈ deps (sbase p) ∪ dependents (sbase p) -> in_window d) ->
  ok (send_default_irob (IS:=IS) (I:=I) p h).
Proof.
  intros He Hd b s. apply wp_bind, wp_insert_outgoing; [done|done|]. intros b1 s1 _ Hk.
  apply wp_bind, wp_lift. intros l _. apply wp_bind, wp_add_scheduling; [done|]. intros s2.
  apply wp_bind, wp_get, wp_bind, wp_lift. intros q _. by apply wp_ret.
Qed.

Lemma ok_default_send (p : PendingSenderIROB) (f : Z -> M SK (api Z)) next data labels rh arg :
  in_window next -> Z.of_nat (length data) < 2 ^ 31 -> labels_ok labels -> p = sender_new next [] data labels rh arg now ->
  (forall rc, ok (f rc)) ->
  ok (r ← validate_default_irob k p;
      match r with
      | (CsockRc rc, _) => mret (Done rc)
      | (CsockWait l, _) => mret (Blocked l)
      | (CsockOk h, p') => rc ← send_default_irob (default p p') h; f rc
      end).
Proof.
  intros Hid Hlen Hlab Ep Hf b s. apply wp_bind. unfold validate_default_irob. apply wp_bind, wp_get.
  destruct (shutting_down s); [by apply wp_ret, wp_ret|]. apply quiet_wp, wp_get_csock.
  intros [r o] s1 (q & E & Hq) _ _. simpl in E. subst o. destruct r as [h|rc|l]; [|by apply wp_ret..].
  destruct (new_entry next [] data labels rh arg now p q Hid (Forall_nil_2 _) Hlen Hlab Ep Hq) as (He & _ & Hd).
  eapply wp_keeps; [by apply ok_send_default|]. intros. apply Hf.
Qed.

Lemma ok_default_irob next buf labels rh arg :
  in_window next -> Z.of_nat (length buf) < 2 ^ 31 -> labels_ok labels ->
  ok (default_irob (IS:=IS) (I:=I) k now next buf labels rh arg).
Proof. intros. unfold default_irob. eapply ok_default_send; try done. intros rc. repeat keeps_step. Qed.

Lemma ok_default_writev next vec n labels rh arg :
  in_window next -> Z.of_nat (length (mjoin vec)) < 2 ^ 31 -> labels_ok labels ->
  ok (default_irob_writev (IS:=IS) (I:=I) k now next vec n labels rh arg).
Proof.
  intros. unfold default_irob_writev. cbv zeta. apply keeps_bind; [apply keeps_lift|]. intros [].
  eapply ok_default_send; try done. intros rc. repeat keeps_step.
Qed.

(** The next identifier is still in the window. *)
Definition ids_left s : Prop := in_window (g_next_irob s).

Lemma wp_next_id (Q : book -> Z -> SK -> Prop) b s :
  (forall s', Q b (g_next_irob s) s') -> wp out_inv next_irob_id Q b s.
Proof.
  intros HQ. apply wp_bind, wp_get. eapply wp_bind, quiet_step; [auto with quiet|]. intros _ s' _ _. by apply wp_ret.
Qed.

Lemma wp_mc_send buf labels rh arg b s :
  ids_left s -> Z.of_nat (length buf) < 2 ^ 31 -> labels_ok labels ->
  wp out_inv (mc_send (IS:=IS) (I:=I) k now buf labels rh arg) (fun _ _ _ => True) b s.
Proof.
  intros Hid Hlen Hlab. apply wp_bind, wp_get. destruct (_ <? 0); [by apply wp_ret|].
  destruct (negb _); [by apply wp_ret|]. apply wp_bind, wp_next_id. intros s'. by apply ok_default_irob.
Qed.

Lemma wp_mc_writev vec labels rh arg b s :
  ids_left s -> Z.of_nat (length (mjoin vec)) < 2 ^ 31 -> labels_ok labels ->
  wp out_inv (mc_writev (IS:=IS) (I:=I) k now vec labels rh arg) (fun _ _ _ => True) b s.
Proof.
  intros Hid Hlen Hlab. apply wp_bind, wp_get. case_bool_decide; [by apply wp_ret|].
  destruct (negb _); [by apply wp_ret|]. destruct (total_bytes vec 0); [|by apply wp_ret].
  apply wp_bind, wp_next_id. intros s'. by apply ok_default_writev.
Qed.

Lemma wp_mc_begin_irob ds labels rh arg b s :
  ids_left s -> Forall in_window ds -> labels_ok labels ->
  wp out_inv (mc_begin_irob (IS:=IS) (I:=I) k now ds labels rh arg) (fun _ _ _ => True) b s.
Proof.
  intros Hid Hds Hlab. apply wp_bind, wp_next_id. intros s'. eapply wp_keeps; [by apply ok_begin_irob|].
  intros b1 [rc|l] s1 _ _; [|by apply wp_ret]. destruct (rc <? 0); [by apply wp_ret|].
  apply wp_bind, wp_get, wp_bind, wp_lift. intros [] _. eapply wp_keeps; [by apply ok_frame|].
  intros. by apply wp_ret.
Qed.

Lemma ok_mc_end_irob id : in_window id -> ok (mc_end_irob (IS:=IS) (I:=I) k id).
Proof.
  intros Hid. unfold mc_end_irob. apply keeps_bind; [by apply ok_end_irob|]. intros [rc|l]; repeat first
    [by apply ok_frame|keeps_step].
Qed.

(** ** Messages that arrive *)

Lemma ok_remove_if_unneeded id : in_window id -> ok (remove_if_unneeded (IS:=IS) (I:=I) id).
Proof.
  intros Hid b s. apply wp_bind, wp_get, wp_bind, wp_lift. intros p _.
  destruct (_ && _); [by apply keeps_erase|by apply wp_ret].
Qed.

Lemma ok_ack_received id : in_window id -> ok (ack_received (IS:=IS) (I:=I) id).
Proof.
  intros Hid b s. apply wp_bind, wp_get. destruct (find_locked id _) as [o|].
  - apply wp_bind, wp_lift. intros p _. eapply wp_keeps; [|intros; by apply ok_remove_if_unneeded].
    apply keeps_upd_sender; [done|done|]. intros q Hq. by apply improves_fields, Hq.
  - destruct (past_irob_exists _ _); [by apply wp_ret|apply wp_throw].
Qed.

Lemma ok_resend_received id request seqno next :
  in_window id -> ok (resend_request_received (IS:=IS) (I:=I) id request seqno next).
Proof.
  intros Hid b s. apply wp_bind, wp_get. destruct (find_locked id _) as [o|] eqn:Ef.
  2:{ destruct (past_irob_exists _ _); [by apply wp_ret|apply wp_throw]. }
  rewrite <- Ef. apply wp_bind, wp_the_sender; [done|]. intros p Hp He Hpb.
  apply wp_bind, wp_lift. intros labels _. assert (begun b id) as Hk by by exists p.
  assert (forall s', outgoing_irobs s' = outgoing_irobs s ->
    wp out_inv (p ← (if has_bits request CMM_RESEND_REQUEST_DATA then
             p' ← lift (mark_not_received p seqno);
             modify (upd_sender id (fun _ => p'));;
             schedule NEW_CHUNKS (sched_chunks id true labels);; mret p'
           else mret p);
      when (has_bits request CMM_RESEND_REQUEST_END)
        (when (complete (sbase p) && all_bytes_chunked p)
           (schedule FINISHED_IROBS (sched_chunks id false labels));;
         p' ← lift (mark_drop_point p next);
         modify (upd_sender id (fun _ => p'));;
         schedule NEW_CHUNKS (sched_chunks id true labels))) (fun _ _ _ => True) b s') as K.
  2:{ apply wp_bind. destruct (has_bits request CMM_RESEND_REQUEST_DEPS); unfold when; [|by apply wp_ret, K].
      apply wp_schedule_same; [done|]. apply K. }
  assert (forall b' s' q, b' !! id = Some q -> find_locked id (outgoing_irobs s') = Some (SenderIrob q) ->
    wp out_inv (when (has_bits request CMM_RESEND_REQUEST_END)
        (when (complete (sbase q) && all_bytes_chunked q)
           (schedule FINISHED_IROBS (sched_chunks id false labels));;
         p' ← lift (mark_drop_point q next);
         modify (upd_sender id (fun _ => p'));;
         schedule NEW_CHUNKS (sched_chunks id true labels))) (fun _ _ _ => True) b' s') as K2.
  { intros b' s' q Hq Hf. destruct (has_bits request CMM_RESEND_REQUEST_END); [|by apply wp_ret].
    assert (forall s'', outgoing_irobs s'' = outgoing_irobs s' -> wp out_inv
      (p' ← lift (mark_drop_point q next); modify (upd_sender id (fun _ => p'));;
       schedule NEW_CHUNKS (sched_chunks id true labels)) (fun _ _ _ => True) b' s'') as K3.
    { intros s'' Es. apply wp_inv. intros HI. apply wp_bind, wp_lift. intros r Hr.
      apply wp_bind. rewrite <- Es in Hf. destruct (out_find lo hi Hwin b' s'' id q HI Hid Hf) as [_ Heq].
      apply (wp_set_sender lo hi Hwin b' s'' id q r); [done|done| |].
      { eapply mark_from_improves; [apply Heq|exact Hr]. }
      intros b2 s2 Hle Hr2. apply wp_schedule; [by exists r|done]. }
    apply wp_bind. destruct (_ && _) eqn:E; unfold when; [|by apply wp_ret, K3].
    apply andb_true_iff in E. apply wp_schedule_same; [by exists q|]. apply K3. }
  intros s' Es. rewrite <- Es in Hp. apply wp_bind. destruct (has_bits request CMM_RESEND_REQUEST_DATA).
  - apply wp_bind, wp_lift. intros q Hq. apply wp_bind.
    pose proof (mark_not_received_improves p seqno q (en_ok _ _ _ _ He) Hq) as Hi. apply wp_modify. intros HI.
    destruct (out_insert lo hi Hwin b s' id p q (fun o =>
      match o with SenderIrob _ => SenderIrob q | BaseIrob c => BaseIrob c end) HI Hid Hp eq_refl Hi) as [Hle HI'].
    eexists. split; [exact Hle|]. split; [exact HI'|]. apply wp_bind, wp_schedule_same.
    { exists q. apply lookup_insert_eq. }
    intros s2 Es2. apply wp_ret, K2; [apply lookup_insert_eq|]. rewrite Es2. simpl.
    exact (find_updated id _ _ _ Hp).
  - by apply wp_ret, K2.
Qed.

(** ** Operations that leave the outgoing IROBs alone *)

#[local] Hint Resolve quiet_get_csock : quiet.

(** A request that says nothing of an IROB. *)
Lemma quiet_sched ty d : (forall b, request_ok b ty d) -> keeps so (schedule (IS:=IS) (I:=I) ty d).
Proof. intros Hd g s. by apply quiet_request. Qed.

Lemma quiet_goodbye r : keeps so (goodbye (IS:=IS) (I:=I) k r).
Proof. unfold goodbye. quiet_go. Qed.

Lemma quiet_goodbye_acked : keeps so (goodbye_acked (IS:=IS) (I:=I)).
Proof. unfold goodbye_acked. quiet_go. Qed.

Lemma quiet_data_check_requested id : keeps so (data_check_requested (IS:=IS) (I:=I) id).
Proof. unfold data_check_requested. repeat first [by apply quiet_sched|keeps_step]. Qed.

Lemma quiet_csock (h : Z) (f : CSocket -> CSocket) :
  (forall b c, requests_ok b (cs_indexes c) -> requests_ok b (cs_indexes (f c))) ->
  keeps so (modify (fun s : SK => upd_csock h f s)).
Proof. intros Hf. apply quiet_modify. intros b s HI. split; [|done]. apply out_csock; auto. Qed.

Lemma quiet_setup_matches hs iface local : keeps so (setup_matches (IS:=IS) (I:=I) hs iface local).
Proof.
  induction hs as [|h hs IH]; simpl; [quiet_go|]. apply keeps_bind; [|quiet_go].
  apply quiet_csock. intros b c. by destruct local.
Qed.

Lemma quiet_setup_connections iface check remotes :
  keeps so (setup_connections (IS:=IS) (I:=I) k iface check remotes).
Proof. induction remotes; simpl; unfold csock_by_ifaces; quiet_go. Qed.
#[local] Hint Resolve quiet_setup_matches quiet_setup_connections : quiet.

Lemma quiet_setup iface local : keeps so (setup (IS:=IS) (I:=I) k iface local).
Proof. unfold setup, map_setup. cbv zeta. quiet_go. Qed.

Lemma quiet_teardown iface local : keeps so (teardown (IS:=IS) (I:=I) iface local).
Proof. unfold teardown, map_teardown. cbv zeta. quiet_go. Qed.
#[local] Hint Resolve quiet_goodbye quiet_goodbye_acked quiet_data_check_requested quiet_setup quiet_teardown : quiet.

Lemma quiet_mc_recv n flags t : keeps so (mc_recv (IS:=IS) (I:=I) k now n flags t).
Proof. unfold mc_recv. cbv zeta. quiet_go. Qed.

Lemma ok_redundancy_decision data decided :
  in_window (sd_id data) -> ok (onRedundancyDecision (IS:=IS) (I:=I) data decided).
Proof.
  intros Hid b s. apply wp_bind, wp_get. destruct (find_locked (sd_id data) _) as [o|] eqn:E; [|by apply wp_ret].
  apply wp_bind, wp_lift. intros p Hp.
  assert (o = SenderIrob p) as -> by (destruct o; unfold the_sender in Hp; by simplify_eq/=).
  apply wp_bind, quiet_wp, wp_check_redundancy. intros q s1 Hq Es _. rewrite <- Es in E.
  apply wp_bind. apply wp_inv. intros HI. destruct (out_find lo hi Hwin b s1 _ p HI Hid E) as [_ He].
  apply (wp_set_sender lo hi Hwin b s1 _ p q); [done|done|by apply maybe_improves; [apply He|]|].
  intros b2 s2 _ Hb2. destruct (should_send_on_all_networks q); unfold when; [|by apply wp_ret].
  apply wp_bind, wp_pass_request; [by exists q|]. intros s3.
  apply (keeps_upd_sender lo hi Hwin); [done|]. intros r Hr. apply improves_fields; try done. apply Hr.
Qed.

(** ** Handlers of the receiver thread *)

Lemma quiet_the_receiver id : keeps so (the_receiver (IS:=IS) (I:=I) id).
Proof. unfold the_receiver. quiet_go. Qed.
Lemma quiet_insert_incoming (p : PendingReceiverIROB) : keeps so (insert_incoming (IS:=IS) (I:=I) p).
Proof. unfold insert_incoming. quiet_go. Qed.
#[local] Hint Resolve quiet_the_receiver quiet_insert_incoming : quiet.

Lemma quiet_schedule_ack cs id v : keeps so (schedule_ack (IS:=IS) (I:=I) now cs id v).
Proof. apply quiet_csock. intros b c Hc. by apply requests_insert. Qed.
#[local] Hint Resolve quiet_schedule_ack : quiet.

Lemma quiet_release_and_ack cs id : keeps so (release_and_ack (IS:=IS) (I:=I) now cs id).
Proof. unfold release_and_ack, release_ready. quiet_go. Qed.
#[local] Hint Resolve quiet_release_and_ack : quiet.

Lemma quiet_begin cs m : keeps so (do_begin_irob (IS:=IS) (I:=I) now cs m).
Proof. unfold do_begin_irob. cbv zeta. quiet_go. Qed.
Lemma quiet_end cs m : keeps so (do_end_irob (IS:=IS) (I:=I) now cs m).
Proof. unfold do_end_irob, insert_placeholder. cbv zeta. quiet_go. Qed.
Lemma quiet_chunk cs m : keeps so (do_irob_chunk (IS:=IS) (I:=I) now cs m).
Proof. unfold do_irob_chunk, insert_placeholder. cbv zeta. quiet_go. Qed.

Lemma ok_acks ids : Forall in_window ids -> ok (acks_received (IS:=IS) (I:=I) ids).
Proof.
  induction 1 as [|id ids Hid Hids IH]; simpl; [apply keeps_ret|].
  apply keeps_bind; [by apply ok_ack_received|done].
Qed.

(** The message names IROBs of ours only. *)
Definition about_ours (m : message) : Prop :=
  match hdr_op (msg_hdr m) with
  | OpAck _ wid _ _ => in_window (ntohl wid) /\ Forall (fun id => in_window (ntohl id)) (msg_ids m)
  | OpResendRequest wid _ _ _ => in_window (ntohl wid)
  | _ => True
  end.

Lemma read_ids_from n ids l : read_ids n ids = Ret l -> l = [] \/ l = ntohl <$> ids.
Proof.
  unfold read_ids. destruct (n <=? 0); [intros [= <-]; by left|]. cbv zeta.
  destruct (_ =? _); [|by destruct (_ <? 0)]. destruct (_ =? _); [|done]. intros [= <-]. by right.
Qed.

Lemma ok_ack m : about_ours m -> ok (do_ack (IS:=IS) (I:=I) m).
Proof.
  intros Hm. unfold do_ack, about_ours in *. cbv zeta. apply keeps_bind; [apply keeps_lift|]. intros _.
  destruct (hdr_op _); try apply keeps_lift. destruct Hm as [Hid Hids].
  apply keeps_bind; [by apply ok_ack_received|]. intros _ b s. apply wp_bind, wp_lift. intros ids Ei.
  apply ok_acks. destruct (read_ids_from _ _ _ Ei) as [->| ->]; [constructor|by apply Forall_fmap].
Qed.

Lemma ok_request_resend m : about_ours m -> ok (do_request_resend (IS:=IS) (I:=I) m).
Proof.
  intros Hm. unfold do_request_resend, about_ours in *. cbv zeta. apply keeps_bind; [apply keeps_lift|]. intros _.
  destruct (hdr_op _); try apply keeps_lift. by apply ok_resend_received.
Qed.

Lemma quiet_do_data_check m : keeps so (do_data_check (IS:=IS) (I:=I) m).
Proof. unfold do_data_check. cbv zeta. quiet_go. Qed.
Lemma quiet_do_new_interface m : keeps so (do_new_interface (IS:=IS) (I:=I) k m).
Proof. unfold do_new_interface. cbv zeta. quiet_go. Qed.
Lemma quiet_do_down_interface m : keeps so (do_down_interface (IS:=IS) (I:=I) m).
Proof. unfold do_down_interface. cbv zeta. quiet_go. Qed.
Lemma quiet_do_goodbye m : keeps so (do_goodbye (IS:=IS) (I:=I) k m).
Proof. unfold do_goodbye. quiet_go. Qed.

Lemma ok_dispatch cs m : about_ours m -> ok (dispatch (IS:=IS) (I:=I) k now cs m).
Proof.
  intros Hm. unfold dispatch. cbv zeta. destruct (_ || _); [apply keeps_throw|].
  intros b s. apply wp_bind, wp_lift. intros f Hf.
  assert (keeps so (unrecognized_control_msg (IS:=IS) (I:=I))) as Ku by apply keeps_throw.
  unfold handler, access in Hf.
  destruct (wrap_s 16 _) as [|t|t]; [| |discriminate Hf];
    repeat match type of Hf with context [match ?x with xI _ => _ | xO _ => _ | xH => _ end] =>
      destruct x; try discriminate Hf end;
    injection Hf as <-; first [by apply ok_ack|by apply ok_request_resend|apply quiet_keeps];
    auto using quiet_begin, quiet_end, quiet_chunk, quiet_do_data_check, quiet_do_new_interface,
      quiet_do_down_interface, quiet_do_goodbye.
Qed.

Lemma ok_run_message cs m : about_ours m -> ok (run_message (IS:=IS) (I:=I) k now cs m).
Proof.
  intros Hm b s HI. destruct (ok_dispatch cs m Hm b s HI) as (b' & Hle & HI' & _). unfold run_message.
  destruct (dispatch k now cs m s) as [[a|e|t] s'] eqn:E; simpl in HI'; try by exists b'.
  destruct e; try by exists b'.
  assert (ok (goodbye k false;; throw (A:=unit) FatalError)) as Kg.
  { apply keeps_bind; [apply quiet_keeps, quiet_goodbye|]. intros _. apply keeps_throw. }
  destruct (Kg b' s' HI') as (b2 & Hle2 & H2 & _). exists b2. split_and!; [by etrans|done|done].
Qed.
End api.

(** ** Steps of the other threads *)

Section steps.
Context {IS I : Type} `{!IdSet IS} `{!IdSetLaws IS} `{!InstrumentsChooser I} {NE : NetEstimates}.
Context (lo hi : Z).
Context (Hlo : 0 <= lo) (Hhi : hi <= 2 ^ 63) (Hwin : hi - lo < 2 ^ 31).
Abbreviation SK := (CMMSocketImpl IS I).
Implicit Types (s : SK).

(** A call of the application or an event of the host: one atomic step each. *)
Inductive own_step s : SK -> Prop :=
| StepBegin k now ds labels rh arg :
    ids_left lo hi s -> Forall (in_window lo hi) ds -> labels_ok labels ->
    own_step s (snd (mc_begin_irob k now ds labels rh arg s))
| StepEnd k id : in_window lo hi id -> own_step s (snd (mc_end_irob k id s))
| StepChunk k id buf :
    in_window lo hi id -> room id (length buf) s -> own_step s (snd (mc_irob_send k id buf s))
| StepSend k now buf labels rh arg :
    ids_left lo hi s -> Z.of_nat (length buf) < 2 ^ 31 -> labels_ok labels ->
    own_step s (snd (mc_send k now buf labels rh arg s))
| StepWritev k now vec labels rh arg :
    ids_left lo hi s -> Z.of_nat (length (mjoin vec)) < 2 ^ 31 -> labels_ok labels ->
    own_step s (snd (mc_writev k now vec labels rh arg s))
| StepWake k labels rc : own_step s (snd (resume_get_csock k labels rc s))
| StepRedundancy data decided :
    in_window lo hi (sd_id data) -> own_step s (snd (onRedundancyDecision data decided s))
| StepDrop id : in_window lo hi id -> own_step s (snd (sk_drop_irob_and_dependents id s))
| StepGoodbye k remote : own_step s (snd (goodbye k remote s))
| StepSetup k iface local : own_step s (snd (setup k iface local s))
| StepTeardown iface local : own_step s (snd (teardown iface local s))
| StepDataCheck lip rip mask : own_step s (snd (data_check_all_irobs lip rip mask s))
| StepPrepare self : own_step s (snd (prepare_app_operation self s))
| StepSignal tid rc : own_step s (snd (signal_completion tid rc s))
| StepTimeout labels ts : own_step s (snd (mc_set_failure_timeout labels ts s)).

(** A message that arrives at a receiver thread, and a read.  [StepOther] is what
    the rest of the system does (bootstrapping, accepting and making
    connections): it leaves the outgoing IROBs and the requests alone. *)
Inductive sk_step s : SK -> Prop :=
| StepOwn s' : own_step s s' -> sk_step s s'
| StepMessage k now cs m :
    about_ours lo hi m -> sk_step s (snd (run_message k now cs m s))
| StepRecv k now n flags t : sk_step s (snd (mc_recv k now n flags t s))
| StepOther s' :
    outgoing_irobs s' = outgoing_irobs s -> irob_indexes s' = irob_indexes s ->
    map_Forall (fun h c => cs_indexes c = indexes_empty \/
      exists c0, sk_csocks s !! h = Some c0 /\ cs_indexes c = cs_indexes c0) (sk_csocks s') ->
    sk_step s s'.

Lemma wp_step_out {A} (m : M SK A) b s :
  wp (out_inv lo hi) m (fun _ _ _ => True) b s -> out_inv lo hi b s ->
  exists b', book_le b b' /\ out_inv lo hi b' (snd (m s)).
Proof. intros H HI. destruct (H HI) as (b' & ? & ? & _). by exists b'. Qed.

Lemma own_step_out b s s' :
  out_inv lo hi b s -> own_step s s' -> exists b', book_le b b' /\ out_inv lo hi b' s'.
Proof.
  intros HI H. destruct H; (eapply wp_step_out; [|exact HI]).
  - by apply wp_mc_begin_irob.
  - by apply ok_mc_end_irob.
  - by apply wp_irob_chunk.
  - by apply wp_mc_send.
  - by apply wp_mc_writev.
  - by apply ok_resume.
  - by apply ok_redundancy_decision.
  - by apply keeps_drop.
  - by apply quiet_keeps, quiet_goodbye.
  - by apply quiet_keeps, quiet_setup.
  - by apply quiet_keeps, quiet_teardown.
  - by apply quiet_keeps, quiet_data_check_all.
  - apply quiet_keeps. unfold prepare_app_operation. quiet_go.
  - apply quiet_keeps. unfold signal_completion. quiet_go.
  - apply quiet_keeps. unfold mc_set_failure_timeout. quiet_go.
Qed.

Lemma sk_step_out b s s' :
  out_inv lo hi b s -> sk_step s s' -> exists b', book_le b b' /\ out_inv lo hi b' s'.
Proof.
  intros HI [s1 H|? ? ? ? H|? ? ? ? ?|s1 E1 E2 E3]; [by eapply own_step_out|eapply wp_step_out; [|done]..|].
  - by apply ok_run_message.
  - by apply quiet_keeps, quiet_mc_recv.
  - exists b. split; [done|]. destruct HI as [? ? ? Hc]. split; rewrite ?E1, ?E2; try done.
    intros h c Hh. destruct (E3 h c Hh) as [->|(c0 & H0 & ->)]; [apply requests_empty|by eapply Hc].
Qed.

(** Threads that take such steps, or none. *)
Definition sk_steps_fn (f : SK -> SK) : Prop := forall s, rtc sk_step s (f s).

Lemma sk_steps_out b s s' :
  out_inv lo hi b s -> rtc sk_step s s' -> exists b', book_le b b' /\ out_inv lo hi b' s'.
Proof.
  intros HI H. revert b HI. induction H as [s|s1 s2 s3 H1 _ IH]; intros b HI; [by exists b|].
  destruct (sk_step_out b s1 s2 HI H1) as (b1 & Hle1 & HI1). destruct (IH b1 HI1) as (b2 & Hle2 & HI2).
  exists b2. split; [by etrans|done].
Qed.

Lemma sk_steps_rely f : sk_steps_fn f -> rely lo hi f.
Proof. intros Hf b s HI. by apply (sk_steps_out b s). Qed.

(** A new multi-socket. *)
Lemma out_new sock s : msock_new sock = Ret s -> out_inv lo hi ∅ s.
Proof.
  unfold msock_new. intros E. apply bind_ret_inv in E as (c & _ & E). injection E as <-.
  split; simpl; [done|by apply lat_inv_new|apply requests_empty|done].
Qed.
End steps.
