(* ===== verification/Incoming.v ===== *)
(** Operations that leave the receiving side alone.

    Nothing but the messages that carry IROBs and the application's reads touches
    the incoming IROBs, and a multi-socket that knows the other end has shut down
    is shutting down itself.  This is what a history (History.v) asks of the steps
    of the rest of the program. *)

From S2P Require Import Prelude Logic Labels Scheduling Irob IntSet Control SenderIrob.
From S2P Require Import ReceiverIrob Lattice ReceiverLattice Chooser Thunks MultiSocket Socket.
From S2P Require Import Receiver Outgoing SocketInv.

Section incoming.
Context {IS I : Type} `{!IdSet IS} `{!InstrumentsChooser I} {NE : NetEstimates}.
Abbreviation SK := (CMMSocketImpl IS I).
Implicit Types (s : SK) (r : rlattice IS) (d : bool).

#[export] Instance incoming_ghost : Ghost (rlattice IS) := {| gle := eq |}.

(** [d]: the multi-socket is known to be shutting down. *)
Record in_inv d r s : Prop := {
  in_same : incoming_irobs s = r;
  in_shut : remote_shutdown s = true -> shutting_down s = true;
  in_down : d = true -> shutting_down s = true
}.

Lemma in_frame d (f : SK -> SK) :
  (forall s, incoming_irobs (f s) = incoming_irobs s /\ remote_shutdown (f s) = remote_shutdown s /\
             shutting_down (f s) = shutting_down s) -> keeps (in_inv d) (modify f).
Proof.
  intros Hf. apply keeps_modify. intros r s [H1 H2 H3]. exists r. split; [done|].
  destruct (Hf s) as (E1 & E2 & E3). split; by rewrite ?E1, ?E2, ?E3.
Qed.

Lemma in_remote : keeps (in_inv true) (modify (fun s : SK => upd_remote_shutdown (fun _ => true) s)).
Proof. apply keeps_modify. intros r s [H1 H2 H3]. exists r. split; [done|]. split; simpl; auto. Qed.

Lemma in_deref d h : keeps (in_inv d) (deref (IS:=IS) (I:=I) h).
Proof. intros r s H. exists r. by split_and!. Qed.

Lemma in_weaken d r s : in_inv true r s -> in_inv d r s.
Proof. intros []. split; auto. Qed.

Lemma in_catch d {A} (m h : M SK A) :
  keeps (in_inv d) m -> keeps (in_inv d) h -> keeps (in_inv d) (catch_runtime m h).
Proof.
  intros Hm Hh r s H. destruct (Hm r s H) as (r' & <- & H' & _). unfold catch_runtime.
  destruct (m s) as [[a|[]|t] s']; simpl in *; try by exists r. apply (Hh r s' H').
Qed.

Lemma in_result {A} d (m : M SK A) s :
  keeps (in_inv d) m -> (remote_shutdown s = true -> shutting_down s = true) ->
  (d = true -> shutting_down s = true) ->
  incoming_irobs (snd (m s)) = incoming_irobs s /\
  (remote_shutdown (snd (m s)) = true -> shutting_down (snd (m s)) = true).
Proof.
  intros Hm Hs Hd. destruct (Hm (incoming_irobs s) s) as (r & <- & [] & _); [by split|]. by split.
Qed.
End incoming.

Create HintDb incoming.
#[export] Hint Extern 1 (keeps (in_inv _) (modify _)) =>
  (apply in_frame; intros ?; split_and!; reflexivity) : incoming.
#[export] Hint Resolve in_deref in_remote : incoming.

Ltac in_go := repeat first [solve [auto 2 with incoming] | apply in_catch | keeps_step].

Section operations.
Context {IS I : Type} `{!IdSet IS} `{!InstrumentsChooser I} {NE : NetEstimates}.
Context (d : bool) (k : kernel) (now : timeval).
Abbreviation SK := (CMMSocketImpl IS I).
Abbreviation still m := (keeps (in_inv (IS:=IS) (I:=I) d) m).

Lemma still_find_first (pred : Z * CSocket -> M SK bool) l :
  (forall hc, still (pred hc)) -> still (find_first pred l).
Proof. intros Hp. induction l; simpl; in_go. Qed.
Lemma still_find_csock (pred : Z * CSocket -> M SK bool) :
  (forall hc, still (pred hc)) -> still (find_csock pred).
Proof. intros Hp. unfold find_csock. in_go. by apply still_find_first. Qed.
Lemma still_find_pure (pred : Z * CSocket -> bool) : still (find_csock_pure (I:=I) (IS:=IS) pred).
Proof. apply still_find_csock. in_go. Qed.
Lemma still_pair labels n : still (get_iface_pair_locked (I:=I) (IS:=IS) labels n).
Proof. unfold get_iface_pair_locked. in_go. Qed.
#[local] Hint Resolve still_find_csock still_find_pure still_pair : incoming.
Lemma still_matches labels n c : still (csock_matches (I:=I) (IS:=IS) labels n c).
Proof. unfold csock_matches. in_go. Qed.
#[local] Hint Resolve still_matches : incoming.
Lemma still_with_labels labels n : still (csock_with_labels (I:=I) (IS:=IS) labels n).
Proof. unfold csock_with_labels. in_go. Qed.
Lemma still_connected labels n : still (connected_csock_with_labels (I:=I) (IS:=IS) labels n).
Proof. unfold connected_csock_with_labels. in_go. Qed.
Lemma still_data_check_each ids lip rip mask : still (data_check_each (I:=I) (IS:=IS) ids lip rip mask).
Proof. induction ids; simpl; in_go. Qed.
#[local] Hint Resolve still_with_labels still_connected still_data_check_each : incoming.
Lemma still_data_check_all lip rip mask : still (data_check_all_irobs (I:=I) (IS:=IS) lip rip mask).
Proof. unfold data_check_all_irobs. in_go. Qed.
#[local] Hint Resolve still_data_check_all : incoming.
Lemma still_make local remote accepted : still (make_new_csocket (I:=I) (IS:=IS) k local remote accepted).
Proof. unfold make_new_csocket, csock_by_ifaces. in_go. Qed.
#[local] Hint Resolve still_make : incoming.
Lemma still_new labels n : still (new_csock_with_labels (I:=I) (IS:=IS) k labels n).
Proof. unfold new_csock_with_labels. in_go. Qed.
Lemma still_check_redundancy p o : still (check_redundancy (I:=I) (IS:=IS) p o).
Proof. unfold check_redundancy. in_go. Qed.
#[local] Hint Resolve still_new still_check_redundancy : incoming.
Lemma still_map_get_csock o : still (map_get_csock (I:=I) (IS:=IS) k o).
Proof. unfold map_get_csock, or_else, csock_by_ifaces, can_satisfy_network_restrictions. in_go. Qed.
#[local] Hint Resolve still_map_get_csock : incoming.
Lemma still_get_csock o blocking : still (get_csock (I:=I) (IS:=IS) k o blocking).
Proof. unfold get_csock, register_thunk, get_idle_csock. in_go. Qed.
#[local] Hint Resolve still_get_csock : incoming.

(** ** Calls of the application *)

Lemma still_insert_outgoing p : still (insert_outgoing (I:=I) (IS:=IS) p).
Proof. unfold insert_outgoing. in_go. Qed.
Lemma still_add_scheduling h ty p x : still (addSchedulingData (I:=I) (IS:=IS) h ty p x).
Proof. unfold addSchedulingData. in_go. Qed.
#[local] Hint Resolve still_insert_outgoing still_add_scheduling : incoming.
Lemma still_next_id : still (next_irob_id (I:=I) (IS:=IS)).
Proof. unfold next_irob_id. in_go. Qed.
Lemma still_send_default p h : still (send_default_irob (I:=I) (IS:=IS) p h).
Proof. unfold send_default_irob. in_go. Qed.
#[local] Hint Resolve still_next_id still_send_default : incoming.
Lemma still_mc_begin_irob ds labels rh arg : still (mc_begin_irob (I:=I) (IS:=IS) k now ds labels rh arg).
Proof. unfold mc_begin_irob, begin_irob, begin_irob_with. in_go. Qed.
Lemma still_mc_end_irob id : still (mc_end_irob (I:=I) (IS:=IS) k id).
Proof. unfold mc_end_irob, end_irob, end_irob_with. cbv zeta. in_go. Qed.
Lemma still_mc_irob_send id buf : still (mc_irob_send (I:=I) (IS:=IS) k id buf).
Proof. unfold mc_irob_send, irob_chunk, irob_chunk_with. in_go. Qed.
Lemma still_mc_send buf labels rh arg : still (mc_send (I:=I) (IS:=IS) k now buf labels rh arg).
Proof. unfold mc_send, default_irob, validate_default_irob. in_go. Qed.
Lemma still_mc_writev vec labels rh arg : still (mc_writev (I:=I) (IS:=IS) k now vec labels rh arg).
Proof. unfold mc_writev, default_irob_writev, validate_default_irob. cbv zeta. in_go. Qed.
Lemma still_resume labels rc : still (resume_get_csock (I:=I) (IS:=IS) k labels rc).
Proof. unfold resume_get_csock. in_go. Qed.

Lemma fold_csocks (f : Z -> CSocket -> CSocket) l (s : SK) :
  let s' := foldl (fun s' h => upd_csock h (f h) s') s l in
  incoming_irobs s' = incoming_irobs s /\ remote_shutdown s' = remote_shutdown s /\
  shutting_down s' = shutting_down s.
Proof. revert s. induction l as [|h l IH]; intros s; [done|]. apply (IH (upd_csock h (f h) s)). Qed.

Lemma still_pass p data : still (pass_request_to_all_senders (I:=I) (IS:=IS) p data).
Proof.
  unfold pass_request_to_all_senders. in_go. apply in_frame. intros s.
  apply (fold_csocks (fun h => add_request_if_not_sent p data h)).
Qed.
#[local] Hint Resolve still_pass : incoming.

Lemma still_redundancy data decided : still (onRedundancyDecision (I:=I) (IS:=IS) data decided).
Proof. unfold onRedundancyDecision. in_go. Qed.
Lemma still_drop id : still (sk_drop_irob_and_dependents (I:=I) (IS:=IS) id).
Proof. unfold sk_drop_irob_and_dependents. in_go. Qed.
Lemma still_setup_connections iface check remotes :
  still (setup_connections (I:=I) (IS:=IS) k iface check remotes).
Proof. induction remotes; simpl; unfold csock_by_ifaces; in_go. Qed.
Lemma still_setup_matches hs iface local : still (setup_matches (I:=I) (IS:=IS) hs iface local).
Proof. induction hs; simpl; in_go. Qed.
#[local] Hint Resolve still_setup_connections still_setup_matches : incoming.
Lemma still_setup iface local : still (setup (I:=I) (IS:=IS) k iface local).
Proof. unfold setup, map_setup. cbv zeta. in_go. Qed.
Lemma still_teardown iface local : still (teardown (I:=I) (IS:=IS) iface local).
Proof. unfold teardown, map_teardown. cbv zeta. in_go. Qed.
Lemma still_prepare self : still (prepare_app_operation (I:=I) (IS:=IS) self).
Proof. unfold prepare_app_operation. in_go. Qed.
Lemma still_signal tid rc : still (signal_completion (I:=I) (IS:=IS) tid rc).
Proof. unfold signal_completion. in_go. Qed.
Lemma still_timeout labels ts : still (mc_set_failure_timeout (I:=I) (IS:=IS) labels ts).
Proof. unfold mc_set_failure_timeout. in_go. Qed.

(** ** Messages that carry no IROB *)

Lemma still_ack_received id : still (ack_received (I:=I) (IS:=IS) id).
Proof. unfold ack_received, remove_if_unneeded. in_go. Qed.
Lemma still_acks ids : still (acks_received (I:=I) (IS:=IS) ids).
Proof. induction ids; simpl; [in_go|]. apply keeps_bind; [apply still_ack_received|done]. Qed.
#[local] Hint Resolve still_ack_received still_acks : incoming.
Lemma still_do_ack m : still (do_ack (I:=I) (IS:=IS) m).
Proof. unfold do_ack. cbv zeta. in_go. Qed.
Lemma still_do_resend m : still (do_request_resend (I:=I) (IS:=IS) m).
Proof. unfold do_request_resend, resend_request_received, schedule. cbv zeta. in_go. Qed.
Lemma still_do_data_check m : still (do_data_check (I:=I) (IS:=IS) m).
Proof. unfold do_data_check, data_check_requested, schedule. cbv zeta. in_go. Qed.
Lemma still_do_new_interface m : still (do_new_interface (I:=I) (IS:=IS) k m).
Proof. unfold do_new_interface. cbv zeta. repeat first [apply still_setup|keeps_step]. Qed.
Lemma still_do_down_interface m : still (do_down_interface (I:=I) (IS:=IS) m).
Proof. unfold do_down_interface. cbv zeta. repeat first [apply still_teardown|keeps_step]. Qed.
End operations.

Section goodbye.
Context {IS I : Type} `{!IdSet IS} `{!InstrumentsChooser I} {NE : NetEstimates}.
Context (k : kernel) (now : timeval).
Abbreviation SK := (CMMSocketImpl IS I).
Implicit Types (s : SK).

Lemma still_goodbye remote : keeps (in_inv (IS:=IS) (I:=I) false) (goodbye k remote).
Proof.
  intros r s. unfold goodbye. apply wp_bind, wp_get. destruct (shutting_down s); [by apply wp_ret|].
  intros [H1 H2 H3].
  assert (in_inv true r (upd_shutting_down (fun _ => true) s)) as H by by split.
  match goal with |- context [(modify _ ≫= ?f) s] => set (g := f) end.
  assert (keeps (in_inv (IS:=IS) (I:=I) true) (g tt)) as Hg.
  { unfold g. pose proof (still_data_check_all (IS:=IS) (I:=I) true). pose proof (still_get_csock (IS:=IS) (I:=I) true k).
    repeat first [done|apply still_data_check_all|apply still_get_csock|solve [auto 2 with incoming]|keeps_step]. }
  change ((modify (upd_shutting_down (λ _ : bool, true)) ≫= g) s) with (g tt (upd_shutting_down (fun _ => true) s)).
  destruct (Hg r _ H) as (r' & <- & H' & _). exists r. split; [done|]. split; [by apply in_weaken|done].
Qed.

Lemma still_do_goodbye m : keeps (in_inv (IS:=IS) (I:=I) false) (do_goodbye k m).
Proof.
  unfold do_goodbye. apply keeps_bind; [apply keeps_lift|]. intros _ r s. apply wp_bind, wp_get.
  destruct (shutting_down s) eqn:E; [|apply still_goodbye]. apply wp_inv. intros [H1 H2 H3].
  apply wp_bind. unfold goodbye_acked. apply wp_bind, wp_get, wp_bind, wp_lift. intros _ _.
  apply wp_modify. intros _. exists r. split; [done|]. split; [by split|apply wp_throw].
Qed.
End goodbye.

Section steps.
Context {IS I : Type} `{!IdSet IS} `{!InstrumentsChooser I} {NE : NetEstimates}.
Abbreviation SK := (CMMSocketImpl IS I).
Implicit Types (s : SK).

(** The step is invisible to the receiving side. *)
Definition unseen s s' : Prop :=
  (remote_shutdown s = true -> shutting_down s = true) ->
  incoming_irobs s' = incoming_irobs s /\ (remote_shutdown s' = true -> shutting_down s' = true).

Lemma unseen_refl s : unseen s s.
Proof. by intros H. Qed.
Lemma unseen_trans s1 s2 s3 : unseen s1 s2 -> unseen s2 s3 -> unseen s1 s3.
Proof. intros H1 H2 H. destruct (H1 H) as [E1 H']. destruct (H2 H') as [E2 ?]. split; [congruence|done]. Qed.

Lemma still_unseen {A} (m : M SK A) s : keeps (in_inv false) m -> unseen s (snd (m s)).
Proof. intros Hm H. by apply (in_result false). Qed.

Lemma own_unseen lo hi s s' : own_step lo hi s s' -> unseen s s'.
Proof.
  intros []; apply still_unseen; auto using still_mc_begin_irob, still_mc_end_irob, still_mc_irob_send, still_mc_send,
    still_mc_writev, still_resume, still_redundancy, still_drop, still_goodbye, still_setup, still_teardown,
    still_data_check_all, still_prepare, still_signal, still_timeout.
Qed.

Lemma message_unseen k now cs m s : irob_message m = false -> unseen s (snd (run_message k now cs m s)).
Proof.
  intros Hm. assert (keeps (in_inv (IS:=IS) (I:=I) false) (dispatch k now cs m)) as Hd.
  { unfold dispatch. cbv zeta. destruct (_ || _); [apply keeps_throw|].
    intros r s'. apply wp_bind, wp_lift. intros f Hf. unfold handler, access in Hf.
    unfold irob_message in Hm. destruct (wrap_s 16 _) as [|t|t]; [injection Hf as <-; apply keeps_throw| |discriminate Hf].
    repeat match type of Hf with context [match ?x with xI _ => _ | xO _ => _ | xH => _ end] =>
      destruct x; try discriminate Hf; try discriminate Hm end; injection Hf as <-;
    first [apply keeps_throw|apply still_do_ack|apply still_do_resend|apply still_do_data_check
          |apply still_do_new_interface|apply still_do_down_interface|apply still_do_goodbye]. }
  apply still_unseen. intros r s' H. destruct (Hd r s' H) as (r' & <- & H' & _). unfold run_message.
  destruct (dispatch k now cs m s') as [[a|e|t] s1]; simpl in H'; try by exists r.
  destruct e; try by exists r.
  assert (keeps (in_inv (IS:=IS) (I:=I) false) (goodbye k false;; throw (A:=unit) FatalError)) as Kg.
  { apply keeps_bind; [apply still_goodbye|intros; apply keeps_throw]. }
  apply (Kg r s1 H').
Qed.
End steps.
