(* ===== verification/Frames.v ===== *)
(** What the operations of a multi-socket may change, for any invariant.

    A property that the primitive updates of a multi-socket keep ([Framed]) is kept by every call of
    the application, every message, every read and every change of interfaces.
    [Typed] and [ProcessInv] use it. *)

From S2P Require Import Prelude Logic Labels Scheduling Irob IntSet Control SenderIrob.
From S2P Require Import ReceiverIrob Lattice ReceiverLattice Chooser Thunks MultiSocket Socket.
From S2P Require Import Receiver.

(** Two steps that together keep an invariant. *)
Lemma keeps_bind2 {G S A B C} `{!Ghost G} (J : G -> S -> Prop) (m1 : M S A) (m2 : M S B) (m : B -> M S C) :
  keeps J (m1;; m2) -> (forall b, keeps J (m b)) -> keeps J (m1 ≫= fun _ => m2 ≫= m).
Proof.
  intros H12 Hm g s H. assert ((m1 ≫= fun _ => m2 ≫= m) s = ((m1;; m2) ≫= m) s) as E.
  { unfold mbind, M_bind. by destruct (m1 s) as [[]]. }
  destruct (keeps_bind J _ _ H12 Hm g s H) as (g' & ? & ? & ?). exists g'. by rewrite E.
Qed.

#[export] Instance unit_ghost : Ghost unit := {| gle := eq |}.

Section framed.
Context {IS I : Type} `{!IdSet IS} `{!InstrumentsChooser I}.
Abbreviation SK := (CMMSocketImpl IS I).

(** A NetInterfaceSet: its order looks at the address only. *)
Definition filed (m : gmap Z net_interface) : Prop := map_Forall (fun ip i => ip_addr i = ip) m.
Definition counter (n : Z) : Prop := 0 <= n < 2 ^ 64.

Lemma filed_insert i m : filed m -> filed (iface_insert i m).
Proof. unfold iface_insert. destruct (_ !! _); [done|]. intros Hm. by apply map_Forall_insert_2. Qed.
Lemma filed_erase i m : filed m -> filed (iface_erase i m).
Proof. by apply map_Forall_delete. Qed.

(** The connections, the interfaces, the counters and the statics are as they were. *)
Definition quiet (s s' : SK) : Prop :=
  sk_csocks s' = sk_csocks s /\ available_csocks s' = available_csocks s /\
  local_ifaces s' = local_ifaces s /\ remote_ifaces s' = remote_ifaces s /\
  changed_local_ifaces s' = changed_local_ifaces s /\ down_local_ifaces s' = down_local_ifaces s /\
  net_restriction_stats s' = net_restriction_stats s /\
  g_next_irob s' = g_next_irob s /\ irob_sock_hash s' = irob_sock_hash s /\ sock s' = sock s.

Class Framed (J : unit -> SK -> Prop) : Prop := {
  fr_quiet f : (forall s, quiet s (f s)) -> keeps J (modify f);
  fr_csock h f : keeps J (modify (upd_csock h f));
  fr_less X : (forall a, X a ⊆ a) -> keeps J (modify (upd_available_csocks X));
  fr_put h c :
    keeps J (modify (upd_sk_csocks (fun l => <[h := c]> l));; modify (upd_available_csocks (fun a => {[h]} ∪ a)));
  fr_fold (f : Z -> CSocket -> CSocket) l :
    keeps J (modify (fun s => foldl (fun s' h => upd_csock h (f h) s') s l));
  fr_local f : (forall m, filed m -> filed (f m)) -> keeps J (modify (upd_local_ifaces f));
  fr_remote f : (forall m, filed m -> filed (f m)) -> keeps J (modify (upd_remote_ifaces f));
  fr_changed f : (forall m, filed m -> filed (f m)) -> keeps J (modify (upd_changed_local_ifaces f));
  fr_down f : (forall m, filed m -> filed (f m)) -> keeps J (modify (upd_down_local_ifaces f));
  fr_stats labels sent recvd : keeps J (sk_update_net_restriction_stats labels sent recvd);
  fr_next : keeps J next_irob_id;
  fr_enter id : keeps J (s ← get;
    lift (assert_ (bool_decide (irob_sock_hash s !! id = None)));;
    modify (upd_irob_sock_hash (fun m => <[id := sock s]> m));;
    mret (Done id))
}.
(** The entry of an IROB goes when it ends. *)
Class FramedLeave (J : unit -> SK -> Prop) (id : Z) : Prop :=
  fr_leave : keeps J (modify (upd_irob_sock_hash (fun m => delete id m))).
End framed.

Create HintDb frames.
#[export] Hint Extern 1 (keeps _ (modify _)) => (apply fr_quiet; intros ?; split_and!; reflexivity) : frames.
#[export] Hint Extern 2 (keeps _ (modify (upd_csock _ _))) => (apply fr_csock) : frames.
#[export] Hint Extern 2 (keeps _ (modify (upd_available_csocks _))) => (apply fr_less; set_solver) : frames.
#[export] Hint Resolve filed_insert filed_erase : frames.
#[export] Hint Extern 2 (keeps _ (modify (upd_local_ifaces _))) => (apply fr_local; auto with frames) : frames.
#[export] Hint Extern 2 (keeps _ (modify (upd_remote_ifaces _))) => (apply fr_remote; auto with frames) : frames.
#[export] Hint Extern 2 (keeps _ (modify (upd_changed_local_ifaces _))) => (apply fr_changed; auto with frames) : frames.
#[export] Hint Extern 2 (keeps _ (modify (upd_down_local_ifaces _))) => (apply fr_down; auto with frames) : frames.
#[export] Hint Extern 2 (keeps _ (modify (upd_irob_sock_hash (fun m => delete _ m)))) => (apply fr_leave) : frames.

Section operations.
Context {IS I : Type} `{!IdSet IS} `{!InstrumentsChooser I} {NE : NetEstimates}.
Context (k : kernel) (now : timeval).
Abbreviation SK := (CMMSocketImpl IS I).
Context (J : unit -> SK -> Prop) `{!Framed J}.
Abbreviation well m := (keeps J m).

Lemma well_catch {A} (m h : M SK A) : well m -> well h -> well (catch_runtime m h).
Proof.
  intros Hm Hh g s H. destruct (Hm g s H) as (g' & <- & H' & _). unfold catch_runtime.
  destruct (m s) as [[a|[]|t] s']; simpl in *; try by exists g. apply (Hh g s' H').
Qed.
Ltac ty_go := repeat first [solve [auto 2 with frames] | apply well_catch | keeps_step].

Lemma well_deref h : well (deref (IS:=IS) (I:=I) h).
Proof. intros g s H. exists g. by split_and!. Qed.
#[local] Hint Resolve well_deref : frames.
Lemma well_find_first (pred : Z * CSocket -> M SK bool) l : (forall hc, well (pred hc)) -> well (find_first pred l).
Proof. intros Hp. induction l; simpl; ty_go. Qed.
Lemma well_find_csock (pred : Z * CSocket -> M SK bool) : (forall hc, well (pred hc)) -> well (find_csock pred).
Proof. intros Hp. unfold find_csock. ty_go. by apply well_find_first. Qed.
Lemma well_find_pure (pred : Z * CSocket -> bool) : well (find_csock_pure (I:=I) (IS:=IS) pred).
Proof. apply well_find_csock. ty_go. Qed.
Lemma well_pair labels n : well (get_iface_pair_locked (I:=I) (IS:=IS) labels n).
Proof. unfold get_iface_pair_locked. ty_go. Qed.
#[local] Hint Resolve well_find_csock well_find_pure well_pair : frames.
Lemma well_matches labels n c : well (csock_matches (I:=I) (IS:=IS) labels n c).
Proof. unfold csock_matches. ty_go. Qed.
#[local] Hint Resolve well_matches : frames.
Lemma well_with_labels labels n : well (csock_with_labels (I:=I) (IS:=IS) labels n).
Proof. unfold csock_with_labels. ty_go. Qed.
Lemma well_connected labels n : well (connected_csock_with_labels (I:=I) (IS:=IS) labels n).
Proof. unfold connected_csock_with_labels. ty_go. Qed.
Lemma well_data_check_each ids lip rip mask : well (data_check_each (I:=I) (IS:=IS) ids lip rip mask).
Proof. induction ids; simpl; ty_go. Qed.
#[local] Hint Resolve well_with_labels well_connected well_data_check_each : frames.
Lemma well_data_check_all lip rip mask : well (data_check_all_irobs (I:=I) (IS:=IS) lip rip mask).
Proof. unfold data_check_all_irobs. ty_go. Qed.
#[local] Hint Resolve well_data_check_all : frames.

Lemma well_make local remote accepted : well (make_new_csocket (I:=I) (IS:=IS) k local remote accepted).
Proof.
  unfold make_new_csocket, csock_by_ifaces. apply keeps_bind; [ty_go|]. intros e.
  assert (well (match e with Some h => modify (upd_available_csocks (fun a => a ∖ {[h]})) | None => mret tt end)) as K1 by ty_go.
  assert (well (if negb accepted && socket_fails k then throw RuntimeError
      else s ← get; let h := new_address k (dom (sk_csocks s)) in
        modify (upd_sk_csocks (fun m => <[h := csocket_new local remote]> m));;
        modify (upd_available_csocks (fun a => {[h]} ∪ a));;
        when (bool_decide (is_Some e)) (data_check_all_irobs (ip_addr local) (ip_addr remote) 0);; mret h)) as K2.
  { destruct (_ && _); [apply keeps_throw|]. apply keeps_bind; [apply keeps_get|]. intros s. cbv zeta.
    apply keeps_bind2; [apply fr_put|]. intros _. ty_go. }
  destruct e as [h|]; [destruct accepted; [|apply keeps_ret]|]; by apply keeps_bind.
Qed.
#[local] Hint Resolve well_make : frames.
Lemma well_new labels n : well (new_csock_with_labels (I:=I) (IS:=IS) k labels n).
Proof. unfold new_csock_with_labels. ty_go. Qed.
Lemma well_check_redundancy p o : well (check_redundancy (I:=I) (IS:=IS) p o).
Proof. unfold check_redundancy. ty_go. Qed.
#[local] Hint Resolve well_new well_check_redundancy : frames.
Lemma well_map_get_csock o : well (map_get_csock (I:=I) (IS:=IS) k o).
Proof. unfold map_get_csock, or_else, csock_by_ifaces, can_satisfy_network_restrictions. ty_go. Qed.
#[local] Hint Resolve well_map_get_csock : frames.
Lemma well_get_csock o blocking : well (get_csock (I:=I) (IS:=IS) k o blocking).
Proof. unfold get_csock, register_thunk, get_idle_csock. ty_go. Qed.
#[local] Hint Resolve well_get_csock : frames.

(** ** Calls of the application *)

Lemma well_insert_outgoing p : well (insert_outgoing (I:=I) (IS:=IS) p).
Proof. unfold insert_outgoing. ty_go. Qed.
Lemma well_add_scheduling h ty p x : well (addSchedulingData (I:=I) (IS:=IS) h ty p x).
Proof. unfold addSchedulingData. ty_go. Qed.
Lemma well_next_id : well (next_irob_id (I:=I) (IS:=IS)).
Proof. apply fr_next. Qed.
#[local] Hint Resolve well_insert_outgoing well_add_scheduling well_next_id : frames.
Lemma well_send_default p h : well (send_default_irob (I:=I) (IS:=IS) p h).
Proof. unfold send_default_irob. ty_go. Qed.
#[local] Hint Resolve well_send_default : frames.
Lemma well_begin_irob id ds labels rh arg : well (begin_irob (I:=I) (IS:=IS) k now id ds labels rh arg).
Proof. unfold begin_irob, begin_irob_with. ty_go. Qed.
Lemma well_mc_begin_irob ds labels rh arg : well (mc_begin_irob (I:=I) (IS:=IS) k now ds labels rh arg).
Proof.
  unfold mc_begin_irob. apply keeps_bind; [ty_go|]. intros id. apply keeps_bind; [apply well_begin_irob|].
  intros [rc|l]; [|ty_go]. destruct (rc <? 0); [ty_go|apply fr_enter].
Qed.
Lemma well_mc_end_irob id `{!FramedLeave J id} : well (mc_end_irob (I:=I) (IS:=IS) k id).
Proof. unfold mc_end_irob, end_irob, end_irob_with. cbv zeta. ty_go. Qed.
Lemma well_mc_irob_send id buf : well (mc_irob_send (I:=I) (IS:=IS) k id buf).
Proof. unfold mc_irob_send, irob_chunk, irob_chunk_with. ty_go. Qed.
Lemma well_mc_send buf labels rh arg : well (mc_send (I:=I) (IS:=IS) k now buf labels rh arg).
Proof. unfold mc_send, default_irob, validate_default_irob. ty_go. Qed.
Lemma well_mc_writev vec labels rh arg : well (mc_writev (I:=I) (IS:=IS) k now vec labels rh arg).
Proof. unfold mc_writev, default_irob_writev, validate_default_irob. cbv zeta. ty_go. Qed.
Lemma well_resume labels rc : well (resume_get_csock (I:=I) (IS:=IS) k labels rc).
Proof. unfold resume_get_csock. ty_go. Qed.
Lemma well_mc_recv n flags t : well (mc_recv (I:=I) (IS:=IS) k now n flags t).
Proof. unfold mc_recv. cbv zeta. ty_go. Qed.

Lemma well_pass p data : well (pass_request_to_all_senders (I:=I) (IS:=IS) p data).
Proof.
  unfold pass_request_to_all_senders. ty_go. apply (fr_fold (fun h => add_request_if_not_sent p data h)).
Qed.
#[local] Hint Resolve well_pass : frames.
Lemma well_redundancy data decided : well (onRedundancyDecision (I:=I) (IS:=IS) data decided).
Proof. unfold onRedundancyDecision. ty_go. Qed.
Lemma well_drop id : well (sk_drop_irob_and_dependents (I:=I) (IS:=IS) id).
Proof. unfold sk_drop_irob_and_dependents. ty_go. Qed.

(** ** Interfaces *)

Lemma well_setup_connections iface check remotes : well (setup_connections (I:=I) (IS:=IS) k iface check remotes).
Proof. induction remotes; simpl; unfold csock_by_ifaces; ty_go. Qed.
Lemma well_setup_matches hs iface local : well (setup_matches (I:=I) (IS:=IS) hs iface local).
Proof. induction hs; simpl; ty_go. Qed.
#[local] Hint Resolve well_setup_connections well_setup_matches : frames.
Lemma well_setup iface local : well (setup (I:=I) (IS:=IS) k iface local).
Proof. unfold setup, map_setup. cbv zeta. ty_go. Qed.
Lemma well_teardown iface local : well (teardown (I:=I) (IS:=IS) iface local).
Proof. unfold teardown, map_teardown. cbv zeta. ty_go. Qed.
Lemma well_remove h : well (remove_csock (I:=I) (IS:=IS) h).
Proof. unfold remove_csock. ty_go. Qed.
Lemma well_prepare self : well (prepare_app_operation (I:=I) (IS:=IS) self).
Proof. unfold prepare_app_operation. ty_go. Qed.
Lemma well_signal tid rc : well (signal_completion (I:=I) (IS:=IS) tid rc).
Proof. unfold signal_completion. ty_go. Qed.
Lemma well_timeout labels ts : well (mc_set_failure_timeout (I:=I) (IS:=IS) labels ts).
Proof. unfold mc_set_failure_timeout. ty_go. Qed.
Lemma well_goodbye remote : well (goodbye (I:=I) (IS:=IS) k remote).
Proof. unfold goodbye. ty_go. Qed.
#[local] Hint Resolve well_setup well_teardown well_goodbye : frames.

Lemma well_stats h labels n m : well (update_net_restriction_stats (I:=I) (IS:=IS) h labels n m).
Proof.
  unfold update_net_restriction_stats, sk_update_net_restriction_stats. cbv zeta. ty_go.
  apply fr_stats.
Qed.
#[local] Hint Resolve well_stats : frames.

(** ** Messages *)

Lemma well_the_receiver id : well (the_receiver (I:=I) (IS:=IS) id).
Proof. unfold the_receiver. ty_go. Qed.
Lemma well_insert_incoming p : well (insert_incoming (I:=I) (IS:=IS) p).
Proof. unfold insert_incoming. ty_go. Qed.
Context (cs : Z).
Lemma well_schedule_ack id b : well (schedule_ack (I:=I) (IS:=IS) now cs id b).
Proof. unfold schedule_ack. ty_go. Qed.
#[local] Hint Resolve well_the_receiver well_insert_incoming well_schedule_ack : frames.
Lemma well_release_and_ack id : well (release_and_ack (I:=I) (IS:=IS) now cs id).
Proof. unfold release_and_ack, release_ready. ty_go. Qed.
#[local] Hint Resolve well_release_and_ack : frames.
Lemma well_do_begin_irob m : well (do_begin_irob (I:=I) (IS:=IS) now cs m).
Proof. unfold do_begin_irob. cbv zeta. ty_go. Qed.
Lemma well_do_end_irob m : well (do_end_irob (I:=I) (IS:=IS) now cs m).
Proof. unfold do_end_irob, insert_placeholder. cbv zeta. ty_go. Qed.
Lemma well_do_irob_chunk m : well (do_irob_chunk (I:=I) (IS:=IS) now cs m).
Proof. unfold do_irob_chunk, insert_placeholder. cbv zeta. ty_go. Qed.
Lemma well_ack_received id : well (ack_received (I:=I) (IS:=IS) id).
Proof. unfold ack_received, remove_if_unneeded. ty_go. Qed.
Lemma well_acks ids : well (acks_received (I:=I) (IS:=IS) ids).
Proof. induction ids; simpl; [ty_go|]. apply keeps_bind; [apply well_ack_received|done]. Qed.
#[local] Hint Resolve well_ack_received well_acks : frames.
Lemma well_do_ack m : well (do_ack (I:=I) (IS:=IS) m).
Proof. unfold do_ack. cbv zeta. ty_go. Qed.
Lemma well_do_resend m : well (do_request_resend (I:=I) (IS:=IS) m).
Proof. unfold do_request_resend, resend_request_received, schedule. cbv zeta. ty_go. Qed.
Lemma well_do_data_check m : well (do_data_check (I:=I) (IS:=IS) m).
Proof. unfold do_data_check, data_check_requested, schedule. cbv zeta. ty_go. Qed.
Lemma well_do_new_interface m : well (do_new_interface (I:=I) (IS:=IS) k m).
Proof. unfold do_new_interface. cbv zeta. ty_go. Qed.
Lemma well_do_down_interface m : well (do_down_interface (I:=I) (IS:=IS) m).
Proof. unfold do_down_interface. cbv zeta. ty_go. Qed.
Lemma well_do_goodbye m : well (do_goodbye (I:=I) (IS:=IS) k m).
Proof. unfold do_goodbye, goodbye_acked. ty_go. Qed.

Lemma well_dispatch m : well (dispatch (I:=I) (IS:=IS) k now cs m).
Proof.
  unfold dispatch. cbv zeta. destruct (_ || _); [apply keeps_throw|].
  intros g s. apply wp_bind, wp_lift. intros f Hf. unfold handler, access in Hf.
  destruct (wrap_s 16 _) as [|t|t]; [injection Hf as <-; apply keeps_throw| |discriminate Hf].
  repeat match type of Hf with context [match ?x with xI _ => _ | xO _ => _ | xH => _ end] =>
    destruct x; try discriminate Hf end; injection Hf as <-;
  first [apply keeps_throw|apply well_do_begin_irob|apply well_do_end_irob|apply well_do_irob_chunk|apply well_do_ack
        |apply well_do_resend|apply well_do_data_check|apply well_do_new_interface|apply well_do_down_interface
        |apply well_do_goodbye].
Qed.

Lemma well_run_message m : well (run_message (I:=I) (IS:=IS) k now cs m).
Proof.
  intros g s H. destruct (well_dispatch m g s H) as (g' & <- & H' & _). unfold run_message.
  destruct (dispatch k now cs m s) as [[a|e|t] s1]; simpl in H'; try by exists g.
  destruct e; try by exists g.
  assert (well (goodbye (I:=I) (IS:=IS) k false;; throw (A:=unit) FatalError)) as K.
  { apply keeps_bind; [apply well_goodbye|intros; apply keeps_throw]. }
  apply (K g s1 H').
Qed.
End operations.

