(* ===== verification/FramesBoot.v ===== *)
(** The bootstrap keeps whatever the primitive updates keep: [Frames] for the
    functions of Bootstrap. *)

From S2P Require Import Prelude Logic Labels Scheduling Irob IntSet Control SenderIrob.
From S2P Require Import ReceiverIrob Lattice ReceiverLattice Chooser Thunks MultiSocket Socket.
From S2P Require Import Select Bootstrap Receiver Frames.

(** Invariants of a part of the state. *)
Lemma keeps_zoom {S T A} (J : unit -> T -> Prop) (K : unit -> S -> Prop) (pr : S -> T) (up : T -> S -> S) (m : M T A) :
  (forall s, K tt s -> J tt (pr s)) -> (forall s t, K tt s -> J tt t -> K tt (up t s)) ->
  keeps J m -> keeps K (zoom pr up m).
Proof.
  intros Hpr Hup Hm [] s H. destruct (Hm tt (pr s) (Hpr s H)) as ([] & _ & H' & _). exists tt.
  unfold zoom. destruct (m (pr s)) as [r t]. simpl in *. split_and!; [done|by apply Hup|done].
Qed.

Lemma keeps_pure {S} (K : unit -> S -> Prop) (f : S -> S) : (forall s, K tt s -> K tt (f s)) -> keeps K (modify f).
Proof. intros Hf [] s H. exists tt. split_and!; [done|by apply Hf|done]. Qed.
Lemma keeps_of_pure {S} (K : unit -> S -> Prop) (f : S -> S) s : keeps K (modify f) -> K tt s -> K tt (f s).
Proof. intros Hf H. by destruct (Hf tt s H) as ([] & _ & ? & _). Qed.

Section boot.
Context {IS I : Type} `{!IdSet IS} `{!InstrumentsChooser I} {NE : NetEstimates}.
Context (k : kernel) (J : unit -> CMMSocketImpl IS I -> Prop) `{!Framed J}.
Abbreviation SK := (CMMSocketImpl IS I).

(** The other threads keep it too. *)
Definition keepers (l : list ((SK -> SK) * bool)) : Prop := Forall (fun o => forall s, J tt s -> J tt (o.1 s)) l.
Definition boot_J (_ : unit) (b : boot IS I) : Prop := J tt (bs_sk b) /\ keepers (bs_others b).
Abbreviation bwell m := (keeps boot_J m).

Lemma bwell_on {A} (m : M SK A) : keeps J m -> bwell (on_boot m).
Proof. apply keeps_zoom; [by intros s []|intros s t []; by split]. Qed.
Lemma bwell_frame f : (forall b : boot IS I, bs_sk (f b) = bs_sk b /\ bs_others (f b) = bs_others b) -> bwell (modify f).
Proof. intros Hf. apply keeps_pure. intros b []. destruct (Hf b) as [E1 E2]. split; congruence. Qed.

Ltac b_go := repeat first
  [ solve [auto 2 with bframes] | solve [apply bwell_frame; by intros ?]
  | apply bwell_on; solve [auto 2 with frames | repeat keeps_step; auto 2 with frames] | keeps_step ].
Create HintDb bframes.

Lemma bwell_restart : bwell (restart (I:=I) (IS:=IS)).
Proof. unfold restart. b_go. Qed.
Lemma bwell_meanwhile : bwell (meanwhile (I:=I) (IS:=IS)).
Proof.
  intros [] b [HJ Ho]. destruct (bs_others b) as [|[f r] l] eqn:E.
  - assert (meanwhile b = (Ret tt, b)) as -> by (unfold meanwhile, mbind, M_bind, get; by rewrite E).
    exists tt. split; [done|]. split; [|done]. split; [done|]. simpl. rewrite E. apply Forall_nil_2.
  - apply Forall_cons in Ho as [Hf Hl]. set (b' := with_boot_sk (f (bs_sk b)) (set_others l b)).
    assert (meanwhile b = when r (restart (I:=I) (IS:=IS)) b') as Em
      by (unfold meanwhile, mbind, M_bind, get; by rewrite E).
    assert (bwell (when r (restart (I:=I) (IS:=IS)))) as Hr by (apply keeps_when, bwell_restart).
    destruct (Hr tt b') as ([] & _ & H' & _); [by split; [apply Hf|]|]. exists tt. by rewrite Em.
Qed.
#[local] Hint Resolve bwell_meanwhile : bframes.
Lemma bwell_recv_hdr : bwell (recv_hdr (I:=I) (IS:=IS)).
Proof. unfold recv_hdr. b_go. Qed.
Lemma bwell_send_hdr h : bwell (send_hdr (I:=I) (IS:=IS) h).
Proof. unfold send_hdr. b_go. Qed.
#[local] Hint Resolve bwell_recv_hdr bwell_send_hdr : bframes.
Lemma bwell_recv_remote_listener : bwell (recv_remote_listener (I:=I) (IS:=IS)).
Proof. unfold recv_remote_listener. cbv zeta. b_go. Qed.
#[local] Hint Resolve bwell_recv_remote_listener : bframes.
Lemma bwell_recv_hello : bwell (recv_hello (I:=I) (IS:=IS)).
Proof. unfold recv_hello, set_redundancy_strategy. b_go. Qed.
Lemma bwell_recv_listeners n : bwell (recv_remote_listeners (I:=I) (IS:=IS) n).
Proof.
  unfold recv_remote_listeners. b_go. match goal with |- context [length ?l] => generalize (length l) end.
  intros fuel. induction fuel; simpl; b_go.
Qed.
Lemma bwell_send_hello : bwell (send_hello (I:=I) (IS:=IS)).
Proof. unfold send_hello. b_go. Qed.
Lemma bwell_send_local_listeners : bwell (send_local_listeners (I:=I) (IS:=IS)).
Proof.
  unfold send_local_listeners, send_local_listener. b_go.
  match goal with |- context [send_listeners ?l] => induction l end; simpl; unfold send_local_listener; b_go.
Qed.
Lemma well_setup_all l local mk : keeps J (setup_all (I:=I) (IS:=IS) k l local mk).
Proof.
  induction l; simpl; [apply keeps_ret|]. apply keeps_bind; [|done]. unfold map_setup.
  repeat first [apply well_setup_matches; done|apply well_setup_connections; done|keeps_step].
Qed.
#[local] Hint Resolve well_setup_all : frames.
Lemma bwell_startup : bwell (on_boot (startup_csocks (I:=I) (IS:=IS) k)).
Proof. apply bwell_on. unfold startup_csocks. repeat first [apply well_setup_all|keeps_step]. Qed.
Lemma bwell_wait : bwell (wait_for_connections (I:=I) (IS:=IS)).
Proof.
  unfold wait_for_connections. cbv zeta. b_go. apply bwell_on, keeps_pure.
  match goal with |- context [foldl _ _ ?x] => generalize x end. intros hcs. induction hcs as [|hc hcs IH]; simpl; [done|]. intros s H. apply IH.
  apply (keeps_of_pure J); [apply fr_csock|done].
Qed.
#[local] Hint Resolve bwell_recv_hello bwell_recv_listeners bwell_send_hello bwell_send_local_listeners bwell_startup
  bwell_wait : bframes.
Lemma bwell_exchange a : bwell (exchange (I:=I) (IS:=IS) k a).
Proof. unfold exchange. b_go. Qed.
Lemma bwell_status z : bwell (set_status (I:=I) (IS:=IS) z).
Proof. unfold set_status. b_go. Qed.
#[local] Hint Resolve bwell_exchange bwell_status : bframes.
Lemma bwell_open c : bwell (open_bootstrap_sock (I:=I) (IS:=IS) c).
Proof. unfold open_bootstrap_sock. b_go. Qed.
#[local] Hint Resolve bwell_open : bframes.
Lemma bwell_catch_int {A} (m h : M (boot IS I) A) : bwell m -> bwell h -> bwell (catch_int m h).
Proof.
  intros Hm Hh [] b H. destruct (Hm tt b H) as ([] & _ & H' & _). unfold catch_int.
  destruct (m b) as [[a|[]|t] b']; simpl in *; try by exists tt. apply (Hh tt b' H').
Qed.
Lemma bwell_attempt c : bwell (attempt (I:=I) (IS:=IS) k c).
Proof. unfold attempt. apply keeps_bind; [b_go|]. intros _. apply bwell_catch_int; unfold attempt_failed; b_go. Qed.
#[local] Hint Resolve bwell_attempt : bframes.
Lemma bwell_Run l : bwell (Run (I:=I) (IS:=IS) k l).
Proof. unfold Run. apply keeps_bind; [induction l; simpl; b_go|b_go]. Qed.
Lemma bwell_catch_thread m : bwell m -> bwell (catch_thread (I:=I) (IS:=IS) m).
Proof.
  intros Hm [] b H. destruct (Hm tt b H) as ([] & _ & H' & _). unfold catch_thread.
  destruct (m b) as [[a|[]|t] b']; simpl in *; by exists tt.
Qed.
Lemma bwell_bootstrap ip a ifaces listener l : filed ifaces ->
  bwell (connection_bootstrap (I:=I) (IS:=IS) k ip a ifaces listener l).
Proof.
  intros Hi. unfold connection_bootstrap.
  assert (keeps J (init_ifaces (I:=I) (IS:=IS) ip a ifaces)) as K1.
  { unfold init_ifaces. repeat first [apply fr_local; by auto with frames|apply fr_remote; by auto with frames|keeps_step]. }
  assert (bwell (catch_thread (Run (I:=I) (IS:=IS) k l))) as K2 by apply bwell_catch_thread, bwell_Run.
  apply keeps_bind; [b_go|]. intros _. destruct listener; b_go; first [apply K2|apply bwell_on, K1].
Qed.
Lemma bwell_connect addr ifaces listener l : filed ifaces ->
  bwell (mc_connect (I:=I) (IS:=IS) k addr ifaces listener l).
Proof. intros Hi. pose proof (bwell_bootstrap) as K. unfold mc_connect. b_go; by apply K. Qed.
End boot.
