(* ===== verification/Typed.v ===== *)
(** The multi-socket's data are well typed.

    A connection in use is an object, an interface is filed under its address,
    and the byte counters fit their type.  Every call of the application, every
    message - malformed ones too -, every read and every change of interfaces keeps
    this, so a handle in use is never a dangling pointer. *)

From S2P Require Import Prelude Logic Labels Scheduling Irob IntSet Control SenderIrob.
From S2P Require Import ReceiverIrob Lattice ReceiverLattice Chooser Thunks MultiSocket Socket.
From S2P Require Import Receiver Outgoing SocketInv Incoming History Frames.

Section typed.
Context {IS I : Type} `{!IdSet IS} `{!InstrumentsChooser I} {NE : NetEstimates}.
Abbreviation SK := (CMMSocketImpl IS I).
Implicit Types (s : SK) (h : Z).

Record well_typed s : Prop := {
  wt_csocks : available_csocks s ⊆ dom (sk_csocks s);
  wt_local : filed (local_ifaces s);
  wt_remote : filed (remote_ifaces s);
  wt_changed : filed (changed_local_ifaces s);
  wt_down : filed (down_local_ifaces s);
  wt_stats : map_Forall (fun _ n => counter n.1 /\ counter n.2) (net_restriction_stats s)
}.

Definition typed (_ : unit) s : Prop := well_typed s.

Lemma typed_modify (f : SK -> SK) : (forall s, well_typed s -> well_typed (f s)) -> keeps typed (modify f).
Proof. intros Hf. apply keeps_modify. intros g s H. exists g. split; [done|]. by apply Hf. Qed.

Lemma typed_frame (f : SK -> SK) :
  (forall s, sk_csocks (f s) = sk_csocks s /\ available_csocks (f s) = available_csocks s /\
     local_ifaces (f s) = local_ifaces s /\ remote_ifaces (f s) = remote_ifaces s /\
     changed_local_ifaces (f s) = changed_local_ifaces s /\ down_local_ifaces (f s) = down_local_ifaces s /\
     net_restriction_stats (f s) = net_restriction_stats s) -> keeps typed (modify f).
Proof.
  intros Hf. apply typed_modify. intros s []. destruct (Hf s) as (E1 & E2 & E3 & E4 & E5 & E6 & E7).
  split; by rewrite ?E1, ?E2, ?E3, ?E4, ?E5, ?E6, ?E7.
Qed.

Lemma typed_upd_csock h f s : well_typed s -> well_typed (upd_csock h f s).
Proof. intros []. split; [|done..]. simpl. by rewrite dom_alter_L. Qed.
Lemma typed_new h c s : well_typed s -> well_typed (upd_sk_csocks (fun m => <[h := c]> m) s).
Proof. intros []. split; [|done..]. simpl. rewrite dom_insert. set_solver. Qed.
Lemma typed_less (X : gset Z -> gset Z) s : (forall a, X a ⊆ a) -> well_typed s -> well_typed (upd_available_csocks X s).
Proof. intros HX []. split; [|done..]. simpl. etrans; [apply HX|done]. Qed.

Lemma counter_add n m : counter (to_size_t (n + m)).
Proof. unfold counter, wrap_u. apply Z.mod_pos_bound. lia. Qed.

Lemma typed_fold (f : Z -> CSocket -> CSocket) l s :
  well_typed s -> well_typed (foldl (fun s' h => upd_csock h (f h) s') s l).
Proof. revert s. induction l as [|h l IH]; intros s H; [done|]. by apply IH, typed_upd_csock. Qed.

(** The object is made before the handle is put in use. *)
Lemma typed_put h c :
  keeps typed (modify (upd_sk_csocks (fun l => <[h := c]> l));; modify (upd_available_csocks (fun a => {[h]} ∪ a))).
Proof.
  intros g s. apply wp_bind, wp_modify. intros H. exists g. split; [done|]. split; [by apply typed_new|].
  apply wp_modify. intros H'. exists g. split; [done|]. split; [|done].
  destruct H'. split; [|done..]. simpl in *. rewrite dom_insert in *. set_solver.
Qed.

#[export] Instance typed_framed : Framed typed.
Proof.
  split.
  - intros f Hf. apply typed_frame. intros s. destruct (Hf s) as (? & ? & ? & ? & ? & ? & ? & _). by split_and!.
  - intros. apply typed_modify. intros. by apply typed_upd_csock.
  - intros. apply typed_modify. intros. by apply typed_less.
  - apply typed_put.
  - intros. apply typed_modify. intros s. apply typed_fold.
  - intros f Hf. apply typed_modify. intros s []. split; simpl; auto.
  - intros f Hf. apply typed_modify. intros s []. split; simpl; auto.
  - intros f Hf. apply typed_modify. intros s []. split; simpl; auto.
  - intros f Hf. apply typed_modify. intros s []. split; simpl; auto.
  - intros. unfold sk_update_net_restriction_stats. cbv zeta. apply typed_modify. intros s []. split; [done..|]. simpl.
    destruct (default _ _) as [n m]. apply map_Forall_insert_2; [|done]. split; apply counter_add.
  - unfold next_irob_id. repeat keeps_step. apply typed_frame. intros ?; by split_and!.
  - intros. repeat keeps_step. apply typed_frame. intros ?; by split_and!.
Qed.
#[export] Instance typed_leave id : FramedLeave typed id.
Proof. unfold FramedLeave. apply typed_frame. intros ?; by split_and!. Qed.
End typed.

(** ** Everything that happens to a multi-socket *)

Section steps.
Context {IS I : Type} `{!IdSet IS} `{!InstrumentsChooser I} {NE : NetEstimates}.
Abbreviation SK := (CMMSocketImpl IS I).
Implicit Types (s : SK).

(** The calls of the application and of the scout's thread ([own_step], whatever
    the identifiers), any message over any connection, a read, a connection that
    is given up. *)
Inductive any_step s : SK -> Prop :=
| AnyOwn lo hi s' : own_step lo hi s s' -> any_step s s'
| AnyMessage k now cs m : any_step s (snd (run_message k now cs m s))
| AnyRecv k now n flags t : any_step s (snd (mc_recv k now n flags t s))
| AnyRemove h : any_step s (snd (remove_csock h s)).

Lemma well_after {A} (m : M SK A) s : keeps typed m -> well_typed s -> well_typed (snd (m s)).
Proof. intros Hm H. by destruct (Hm tt s H) as (? & _ & H' & _). Qed.

Lemma any_step_typed s s' : any_step s s' -> well_typed s -> well_typed s'.
Proof.
  intros Hst H. destruct Hst as [lo hi s1 Ho| | |]; [destruct Ho|..]; (apply well_after; [|done]);
    first [apply well_mc_begin_irob | apply well_mc_end_irob | apply well_mc_irob_send | apply well_mc_send
          | apply well_mc_writev | apply well_resume | apply well_redundancy | apply well_drop | apply well_goodbye
          | apply well_setup | apply well_teardown | apply well_data_check_all | apply well_prepare
          | apply well_signal | apply well_timeout | apply well_run_message | apply well_mc_recv | apply well_remove];
    apply _.
Qed.

(** Whatever is called, whatever message arrives - malformed ones too -, and
    however often, a multi-socket stays well typed; so every connection in use is an
    object, and following its handle is never undefined behaviour. *)
Theorem always_well_typed sock s0 s :
  msock_new sock = Ret s0 -> rtc any_step s0 s ->
  well_typed s /\ forall h, h ∈ available_csocks s -> exists c, deref h s = (Ret c, s).
Proof.
  intros H0 H. assert (well_typed s0) as Hw.
  { unfold msock_new in H0. apply bind_ret_inv in H0 as (c & _ & H0). injection H0 as <-.
    split; simpl; [set_solver|apply map_Forall_empty..]. }
  assert (well_typed s) as Hs.
  { clear H0. induction H as [s|s1 s2 s3 H1 _ IH]; [done|]. apply IH. by eapply any_step_typed. }
  split; [done|]. intros h Hh%(wt_csocks s Hs)%elem_of_dom. destruct Hh as [c Hc]. exists c.
  unfold deref. by rewrite Hc.
Qed.
End steps.

(** ** Witness

    An interface appears at either end and connections are made; a message of
    an unknown type arrives. *)
Import ListBits.
#[local] Existing Instance no_instruments.
#[local] Existing Instance no_estimates.

Definition demo_start : CMMSocketImpl (IntSet.t (list bool)) unit :=
  default demo_msock (match msock_new 3 with Ret s => Some s | _ => None end).
Definition demo_typed : CMMSocketImpl (IntSet.t (list bool)) unit :=
  snd (run_message demo_kernel no_time 5 (Msg (Hdr (htons 99) 0 OpNone) [] [])
    (snd (setup demo_kernel (demo_wifi.1) true (snd (setup demo_kernel (demo_wifi.2) false demo_start))))).

Lemma always_well_typed_witness : well_typed demo_typed /\ local_ifaces demo_typed !! 1 = Some (demo_wifi.1).
Proof.
  split; [|vm_compute; reflexivity].
  refine (proj1 (always_well_typed 3 demo_start demo_typed _ _)).
  - vm_compute. reflexivity.
  - eapply rtc_l; [exact (AnyOwn _ 0 100 _ (StepSetup 0 100 _ demo_kernel (demo_wifi.2) false))|].
    eapply rtc_l; [exact (AnyOwn _ 0 100 _ (StepSetup 0 100 _ demo_kernel (demo_wifi.1) true))|].
    eapply rtc_l; [apply AnyMessage|]. apply rtc_refl.
Defined.
