(* ===== verification/ProcessInv.v ===== *)
(** Invariants of the whole process: what every multi-socket in the table
    satisfies, and which multi-socket an IROB belongs to. *)

From S2P Require Import Prelude Logic Labels Scheduling Irob IntSet Control SenderIrob ReceiverIrob.
From S2P Require Import Lattice ReceiverLattice Chooser Thunks MultiSocket Socket Options Bootstrap Receiver.
From S2P Require Import Process Api History Frames FramesBoot Typed.
From Stdlib Require Import Lia.

(** A result that a property of the state before guarantees. *)
Lemma keeps_value {S A} (J : unit -> S -> Prop) (m : M S A) (Q : A -> Prop) g s :
  keeps J m -> (forall s a, J tt s -> fst (m s) = Ret a -> Q a) -> wp J m (fun _ a _ => Q a) g s.
Proof. intros Hm HQ H. destruct g. destruct (Hm tt s H) as ([] & _ & H1 & _). exists tt. split_and!; [done|done|]. intros a. by apply HQ. Qed.

(** ** What one multi-socket keeps *)
Section msocket.
Context {IS I : Type} `{!IdSet IS} `{!InstrumentsChooser I} {NE : NetEstimates} {OSI : OS}.
Context (k : kernel) (now : timeval).
Abbreviation SK := (CMMSocketImpl IS I).
Abbreviation MS := (mcsock IS I).
Context (J : unit -> SK -> Prop) `{!Framed J}.

Definition ms_J (_ : unit) (m : MS) : Prop := J tt (mc_sk m).
Abbreviation mwell m := (keeps ms_J m).

Lemma mwell_on {A} (m : M SK A) : keeps J m -> mwell (on_msk m).
Proof. by apply keeps_zoom. Qed.
Lemma mwell_frame f : (forall m : MS, mc_sk (f m) = mc_sk m) -> mwell (modify f).
Proof. intros Hf. apply keeps_pure. intros m H. unfold ms_J. by rewrite Hf. Qed.
Create HintDb mframes.
Ltac m_go := repeat first
  [ solve [auto 2 with mframes] | solve [apply mwell_frame; by intros ?]
  | apply mwell_on; solve [auto 2 with frames | repeat keeps_step; auto 2 with frames] | keeps_step ].

Lemma mwell_sys c : mwell (sys (IS:=IS) (I:=I) c).
Proof. unfold sys. m_go. Qed.
#[local] Hint Resolve mwell_sys : mframes.
Lemma mwell_sys_rc c : mwell (sys_rc (IS:=IS) (I:=I) c).
Proof. unfold sys_rc. m_go. Qed.
Lemma mwell_fail e : mwell (fail_with (IS:=IS) (I:=I) e).
Proof. unfold fail_with. m_go. Qed.
#[local] Hint Resolve mwell_sys_rc mwell_fail : mframes.
Lemma mwell_set_each t l : mwell (set_each (IS:=IS) (I:=I) t l).
Proof. induction l as [|[[level name] v] l IH]; simpl; m_go. Qed.
Lemma mwell_for_each f hs : (forall h, mwell (f h)) -> mwell (for_each (IS:=IS) (I:=I) f hs).
Proof. intros Hf. induction hs; simpl; m_go. Qed.
Lemma mwell_setsockopt level name v : mwell (mc_setsockopt (IS:=IS) (I:=I) level name v).
Proof.
  unfold mc_setsockopt, map_set_redundancy_strategy. cbv zeta. m_go.
  all: try (apply mwell_for_each; intros h; unfold set_sock_opt_call; m_go).
Qed.
Lemma well_with_labels' labels n : keeps J (csock_with_labels (IS:=IS) (I:=I) labels n).
Proof. by apply well_with_labels. Qed.
#[local] Hint Resolve well_with_labels' : frames.
Lemma mwell_getsockopt level name len : mwell (mc_getsockopt (IS:=IS) (I:=I) level name len).
Proof. unfold mc_getsockopt. m_go. Qed.
Lemma mwell_peername : mwell (mc_getpeername (IS:=IS) (I:=I)).
Proof. unfold mc_getpeername. m_go. Qed.
Lemma mwell_sockname : mwell (mc_getsockname (IS:=IS) (I:=I)).
Proof. unfold mc_getsockname. m_go. Qed.
Lemma mwell_shutdown how : mwell (mc_shutdown (IS:=IS) (I:=I) k how).
Proof. unfold mc_shutdown. apply keeps_bind; [by apply mwell_on, well_goodbye|]. m_go. Qed.
Lemma mwell_num : mwell (mc_num_networks (IS:=IS) (I:=I)).
Proof. unfold mc_num_networks. m_go. Qed.

Lemma mwell_with_errno {A} e (m : M SK A) : keeps J m -> mwell (with_errno e m).
Proof. intros Hm. unfold with_errno. m_go. Qed.

Lemma mwell_attempt {A} env (m : M (boot IS I) A) :
  keepers J (ae_others env) -> keeps (boot_J J) m -> mwell (on_attempt env m).
Proof.
  intros He Hm [] s H. unfold on_attempt.
  set (b := Boot _ _ _ _ _ _ _ _ _ _). destruct (Hm tt b) as ([] & _ & [H' _] & _); [by split|].
  destruct (m b) as [r b']. exists tt. by split_and!.
Qed.
Lemma mwell_connect addr env ifaces : keepers J (ae_others env) -> filed ifaces ->
  mwell (impl_connect (IS:=IS) (I:=I) k addr env ifaces).
Proof.
  intros He Hi. unfold impl_connect. apply keeps_bind; [apply mwell_attempt; [done|by apply bwell_connect]|]. m_go.
Qed.
End msocket.

(** ** The process *)
Section process.
Context {IS I : Type} `{!IdSet IS} `{!InstrumentsChooser I} {NE : NetEstimates} {OSI : OS}.
Abbreviation SK := (CMMSocketImpl IS I).
Abbreviation P := (process IS I).
Implicit Types (p : P) (fd id : Z).

(** [own fd]: of the multi-socket with descriptor [fd], whatever the statics;
    [st]: of the table of IROBs; [allowed]: the IROBs that may end; [kept]: multi-sockets that
    are not closed. *)
Context (own : Z -> SK -> Prop) (st : gmap Z Z -> Prop) (allowed : Z -> Prop) (kept : gset Z).
Definition J fd (_ : unit) (s : SK) : Prop := own fd s /\ st (irob_sock_hash s).
Context (HJ : forall fd, Framed (J fd)).
Context (Hleave : forall fd id, allowed id -> FramedLeave (J fd) id).
Context (Hstatics : forall fd f g h s, own fd s ->
  own fd (upd_thunks f (upd_irob_sock_hash g (upd_g_next_irob h s)))).
Context (Hnew : forall fd s, 0 <= fd -> msock_new fd = Ret s -> own fd s /\ sock s = fd).
Context (Hfresh : forall m id, st m -> m !! id = None -> allowed id).

Record proc_ok p : Prop := {
  po_ifaces : filed (static_ifaces p);
  po_irobs : st (sock_of_irob p);
  po_socks : map_Forall (fun fd m => 0 <= fd /\ own fd (mc_sk m)) (cmm_sock_hash p);
  po_kept : kept ⊆ dom (cmm_sock_hash p)
}.
Definition K (_ : unit) p : Prop := proc_ok p.
Abbreviation pwell m := (keeps K m).

Lemma pwell_frame f :
  (forall p, static_ifaces (f p) = static_ifaces p /\ sock_of_irob (f p) = sock_of_irob p /\
             cmm_sock_hash (f p) = cmm_sock_hash p) -> pwell (modify f).
Proof.
  intros Hf. apply keeps_pure. intros p []. destruct (Hf p) as (E1 & E2 & E3).
  split; by rewrite ?E1, ?E2, ?E3.
Qed.

Lemma load_ok fd m p : own fd (mc_sk m) -> st (sock_of_irob p) -> J fd tt (mc_sk (load p m)).
Proof. intros Ho Hs. split; [by apply Hstatics|done]. Qed.

Lemma pwp_on_sock {A} fd (m : M (mcsock IS I) A) (Q : A -> Prop) g p :
  (forall g s, wp (ms_J (J fd)) m (fun _ a _ => Q a) g s) -> wp K (on_sock fd m) (fun _ a _ => Q a) g p.
Proof.
  intros Hm HK. destruct g. exists tt. split; [done|]. unfold on_sock.
  destruct (cmm_sock_hash p !! fd) as [sk|] eqn:E; [|by split].
  destruct HK as [H1 H2 H3 H4]. destruct (H3 fd sk E) as [Hfd Ho].
  destruct (Hm tt (load p sk) (load_ok fd sk p Ho H2)) as ([] & _ & [Ho' Hs'] & HQ).
  destruct (m (load p sk)) as [r sk']. simpl in *. split; [|done]. split; simpl; [done|done| |].
  - by apply map_Forall_insert_2.
  - rewrite dom_insert. set_solver.
Qed.
Lemma pwell_on_sock {A} fd (m : M (mcsock IS I) A) : keeps (ms_J (J fd)) m -> pwell (on_sock fd m).
Proof. intros Hm g p. apply (pwp_on_sock _ _ (fun _ => True)). intros g' s. apply Hm. Qed.

Create HintDb pframes.
Ltac p_go := repeat first
  [ solve [auto 2 with pframes] | solve [apply pwell_frame; intros ?; by split_and!] | keeps_step ].

Lemma pwell_os c : pwell (os (IS:=IS) (I:=I) c).
Proof.
  unfold os. p_go.
Qed.
#[local] Hint Resolve pwell_os : pframes.
Lemma pwell_os_rc c : pwell (os_rc (IS:=IS) (I:=I) c).
Proof. unfold os_rc. p_go. Qed.
Lemma pwell_fail {A} e (a : A) : pwell (fail_errno (IS:=IS) (I:=I) e a).
Proof. unfold fail_errno. p_go. Qed.
#[local] Hint Resolve pwell_os_rc pwell_fail : pframes.
Lemma pwell_not : pwell (not_multisocket (IS:=IS) (I:=I)).
Proof. apply pwell_fail. Qed.
#[local] Hint Resolve pwell_not : pframes.

(** *** Calls on one descriptor *)
Context (k : kernel) (now : timeval).

Lemma begin_allowed fd ds labels rh arg g s :
  wp (J fd) (mc_begin_irob (I:=I) (IS:=IS) k now ds labels rh arg)
    (fun _ r _ => forall i, r = Done i -> 0 <= i -> allowed i) g s.
Proof.
  unfold mc_begin_irob. eapply wp_keeps; [apply fr_next|]. intros g1 id s1 _ _.
  eapply wp_keeps; [by apply well_begin_irob|]. intros g2 [rc|l] s2 _ _; [|by apply wp_ret].
  destruct (rc <? 0) eqn:Hrc; [apply wp_ret; intros i [= <-] Hi; apply Z.ltb_lt in Hrc; lia|].
  apply keeps_value; [apply fr_enter|]. intros s' a [_ Hs]. unfold mbind, M_bind, get, lift. simpl.
  destruct (bool_decide (irob_sock_hash s' !! id = None)) eqn:Hn; simpl; [|done].
  apply bool_decide_eq_true in Hn. intros [= <-] i [= <-] _. by apply (Hfresh (irob_sock_hash s')).
Qed.

Lemma begin_ok fd ds labels rh arg g p :
  wp K (begin_irob (IS:=IS) (I:=I) k now fd ds labels rh arg)
    (fun _ r _ => forall i, r = Done i -> 0 <= i -> allowed i) g p.
Proof.
  unfold begin_irob, lookup, lookup_sock. unfold wp. destruct (cmm_sock_hash p !! fd) eqn:E; cbn [impl passthrough v_begin_irob].
  - apply (pwp_on_sock fd _ (fun r => forall i, r = Done i -> 0 <= i -> allowed i)). intros g' s.
    unfold with_errno. eapply wp_keeps; [apply mwell_on; [apply keeps_get]|]. intros g1 s0 s1 _ _.
    eapply (wp_step _ _ _ (fun _ r _ => forall i, r = Done i -> 0 <= i -> allowed i)).
    { intros H. destruct (begin_allowed fd ds labels rh arg g1 (mc_sk s1) H) as ([] & ? & ? & ?). exists tt.
      unfold on_msk, zoom. destruct (mc_begin_irob _ _ _ _ _ _ _) as [r t]. simpl in *. by split_and!. }
    intros g2 r s2 _ _ HQ. eapply wp_keeps; [destruct (begin_errno s0 r); [apply mwell_frame; by intros ?|apply keeps_ret]|].
    intros. by apply wp_ret.
  - intros H. destruct (pwell_not g p H) as (g' & ? & ? & _). exists g'. split_and!; [done|done|].
    intros a [= <-] i [= <-] Hi. lia.
Qed.
Lemma pwell_begin fd ds labels rh arg : pwell (begin_irob (IS:=IS) (I:=I) k now fd ds labels rh arg).
Proof. intros g p. eapply wp_mono; [apply begin_ok|done]. Qed.

(** [f] keeps the process well formed whichever object it is given. *)
Lemma pwell_lookup {A} fd (f : CMMSocket IS I -> M P A) :
  pwell (f (impl k now fd)) -> pwell (f (passthrough fd)) -> pwell (lookup k now fd f).
Proof. intros H1 H2 g p. unfold lookup, lookup_sock. unfold wp. destruct (cmm_sock_hash p !! fd); [apply H1|apply H2]. Qed.
Lemma pwell_by_irob {A} id (f : CMMSocket IS I -> M P A) :
  (forall fd, pwell (f (impl k now fd))) -> (forall fd, pwell (f (passthrough fd))) -> pwell (by_irob k now id f).
Proof.
  intros H1 H2 g p. unfold by_irob, lookup_by_irob, lookup_sock. unfold wp.
  destruct (sock_of_irob p !! id) as [fd|]; [destruct (cmm_sock_hash p !! fd)|]; first [apply H1|apply H2].
Qed.

Lemma pwell_impl_sock fd {A} (m : M SK A) e : keeps (J fd) m -> pwell (on_sock fd (with_errno e m)).
Proof. intros Hm. by apply pwell_on_sock, mwell_with_errno. Qed.

Lemma pwell_send fd buf flags labels rh arg : pwell (cmm_send (IS:=IS) (I:=I) k now fd buf flags labels rh arg).
Proof.
  apply pwell_lookup; cbn [impl passthrough v_send]; [by apply pwell_impl_sock, well_mc_send|].
  destruct (flags =? 0); p_go.
Qed.
Lemma pwell_writev fd vec labels rh arg : pwell (cmm_writev (IS:=IS) (I:=I) k now fd vec labels rh arg).
Proof. apply pwell_lookup; cbn [impl passthrough v_writev]; [by apply pwell_impl_sock, well_mc_writev|p_go]. Qed.
Lemma pwell_irob_send id buf : pwell (irob_send (IS:=IS) (I:=I) k now id buf).
Proof.
  apply pwell_by_irob; intros fd; cbn [impl passthrough v_irob_send]; [by apply pwell_impl_sock, well_mc_irob_send|p_go].
Qed.
Lemma pwell_irob_writev id vec : pwell (irob_writev (IS:=IS) (I:=I) k now id vec).
Proof.
  apply pwell_by_irob; intros fd; cbn [impl passthrough v_irob_writev]; [|p_go].
  apply pwell_impl_sock. unfold mc_irob_writev. cbv zeta. repeat first [by apply well_mc_irob_send|keeps_step].
Qed.
Lemma pwell_end id : allowed id -> pwell (end_irob (IS:=IS) (I:=I) k now id).
Proof.
  intros Hid. apply pwell_by_irob; intros fd; cbn [impl passthrough v_end_irob]; [|p_go].
  apply pwell_impl_sock, well_mc_end_irob; [apply HJ|by apply Hleave].
Qed.

Lemma pwell_with_deps fd ds labels rh arg plain chunk :
  pwell plain -> (forall id, pwell (chunk id)) ->
  pwell (with_deps (IS:=IS) (I:=I) k now fd ds labels rh arg plain chunk).
Proof.
  intros Hp Hc g p. unfold with_deps. eapply wp_step; [apply begin_ok|]. intros g1 [id|l] p1 _ _ Hid; [|by apply wp_ret].
  destruct (id <? 0) eqn:Hn.
  { enough (pwell (p ← get; if errno p =? EBADF then r ← plain; mret (r, None) else mret (Done id, @None Z))) as H by apply H.
    repeat first [apply Hp|keeps_step]. }
  apply Z.ltb_ge in Hn. specialize (Hid id eq_refl Hn).
  eapply wp_keeps; [apply Hc|]. intros g2 [n|l] p2 _ _; [|by apply wp_ret]. destruct (n <? 0); [by apply wp_ret|].
  eapply wp_keeps; [by apply pwell_end|]. intros g3 [rc|l] p3 _ _; [|by apply wp_ret].
  destruct (rc <? 0); by apply wp_ret.
Qed.

(** *** Opening and closing *)
Lemma pwell_close_each fds : pwell (close_each (IS:=IS) (I:=I) fds).
Proof. induction fds as [|fd fds IH]; simpl; [apply keeps_ret|]. apply keeps_bind; [apply pwell_os|done]. Qed.
Lemma pwell_socketpair : pwell (socketpair (IS:=IS) (I:=I)).
Proof. unfold socketpair. p_go. Qed.
#[local] Hint Resolve pwell_close_each pwell_socketpair : pframes.

(** A constructed multi-socket is a new one. *)
Lemma construct_ok f t pr g p :
  wp K (construct (IS:=IS) (I:=I) f t pr)
    (fun _ r _ => match r with inl rc => rc < 0 | inr m => 0 <= sock (mc_sk m) /\ own (sock (mc_sk m)) (mc_sk m) end) g p.
Proof.
  unfold construct. eapply wp_keeps; [apply pwell_os_rc|]. intros g1 fd p1 _ _.
  destruct (fd <? 0) eqn:Hfd; [apply wp_ret; by apply Z.ltb_lt|]. apply Z.ltb_ge in Hfd.
  eapply wp_keeps; [apply pwell_socketpair|]. intros g2 [rc [r0 r1]] p2 _ _.
  destruct (rc <? 0) eqn:Hrc.
  { eapply wp_keeps; [apply pwell_close_each|]. intros. apply wp_ret. by apply Z.ltb_lt. }
  do 2 (eapply wp_keeps; [apply pwell_os|]; intros ? ? ? _ _).
  eapply wp_keeps; [apply pwell_socketpair|]. intros ? [rc' [w0 w1]] ? _ _.
  destruct (rc' <? 0) eqn:Hrc'.
  { eapply wp_keeps; [apply pwell_close_each|]. intros. apply wp_ret. by apply Z.ltb_lt. }
  do 2 (eapply wp_keeps; [apply pwell_os|]; intros ? ? ? _ _).
  apply wp_bind, wp_lift. intros s Hs. apply wp_ret. simpl.
  destruct (Hnew fd s Hfd Hs) as [Ho E]. by rewrite E.
Qed.

Lemma create_ok f t pr g p : f = PF_INET -> t = SOCK_STREAM ->
  wp K (create (IS:=IS) (I:=I) f t pr) (fun _ r _ => r < 0 \/ 0 <= r /\ r ∉ kept) g p.
Proof.
  intros -> ->. unfold create. simpl. eapply wp_step; [apply construct_ok|].
  intros g1 [rc|m] p1 _ _ Hr; [apply wp_ret; by left|]. destruct Hr as [H0 Ho].
  apply wp_bind, wp_get. apply wp_inv. intros [H1 H2 H3 H4].
  apply wp_bind, wp_lift. intros [] Ha. destruct (bool_decide _) eqn:Hn; [|done]. apply bool_decide_eq_true in Hn.
  apply wp_bind, wp_modify. intros _. exists g1. split; [done|]. split.
  - split; [done|done| |]; simpl; [by apply map_Forall_insert_2|rewrite dom_insert; set_solver].
  - apply wp_ret. right. split; [done|]. intros Hk. apply H4, elem_of_dom in Hk. rewrite Hn in Hk. by destruct Hk.
Qed.
Lemma pwell_create f t pr : pwell (create (IS:=IS) (I:=I) f t pr).
Proof.
  destruct (negb (f =? PF_INET) || negb (t =? SOCK_STREAM)) eqn:E.
  - unfold create. rewrite E. p_go.
  - apply orb_false_iff in E as [E1%negb_false_iff%Z.eqb_eq E2%negb_false_iff%Z.eqb_eq].
    intros g p. eapply wp_mono; [by apply create_ok|done].
Qed.

Lemma pwell_goodbye fd : pwell (say_goodbye (IS:=IS) (I:=I) k fd).
Proof.
  unfold say_goodbye. apply pwell_on_sock. apply keeps_bind; [by apply mwell_on, well_goodbye|].
  intros _. apply mwell_frame. by intros ?.
Qed.
Lemma pwell_erase fd : fd ∉ kept -> pwell (modify (set_hash (delete fd))).
Proof.
  intros Hfd. apply keeps_pure. intros p [H1 H2 H3 H4]. split; simpl; [done|done|by apply map_Forall_delete|].
  rewrite dom_delete. set_solver.
Qed.
Lemma pwell_close fd : fd ∉ kept -> pwell (mc_close (IS:=IS) (I:=I) k fd).
Proof.
  intros Hfd. unfold mc_close. apply keeps_bind; [apply keeps_get|]. intros p.
  destruct (bool_decide _); [|destruct (bool_decide _); p_go].
  apply keeps_bind; [apply pwell_goodbye|]. intros _. apply keeps_bind; [by apply pwell_erase|]. p_go.
Qed.

Definition env_ok (env : attempt_env IS I) : Prop := forall fd, keepers (J fd) (ae_others env).

Lemma pwell_accept_bootstrap fd ip env : fd ∉ kept -> env_ok env ->
  pwell (accept_bootstrap (IS:=IS) (I:=I) k fd ip env).
Proof.
  intros Hfd He g p. unfold accept_bootstrap. apply wp_bind, wp_get. apply wp_inv. intros [H1 H2 H3 H4].
  eapply wp_keeps; [apply pwell_on_sock, mwell_attempt; [by apply He|by apply bwell_bootstrap]|].
  intros g1 [rc|] p1 _ _; [|by apply wp_ret]. destruct (rc <? 0); [|by apply wp_ret].
  eapply wp_keeps; [by apply pwell_close|]. intros. by apply wp_ret.
Qed.
Lemma pwell_accept fd env : env_ok env -> pwell (mc_accept (IS:=IS) (I:=I) k fd env).
Proof.
  intros He g p. unfold mc_accept. apply wp_bind, wp_get. eapply wp_keeps; [apply pwell_os|]. intros g1 r p1 _ _.
  destruct (_ || _); [by apply wp_ret|]. eapply wp_step; [by apply create_ok|]. intros g2 fd' p2 _ [H1 H2 H3 H4] Hr.
  apply wp_bind, wp_get, wp_bind, wp_lift. intros [] Ha. destruct (bool_decide _) eqn:Hn; [|done].
  apply bool_decide_eq_true in Hn as [m Hm]. destruct (H3 fd' m Hm) as [H0 _]. destruct Hr as [Hr|[_ Hr]]; [lia|].
  eapply wp_keeps; [by apply pwell_accept_bootstrap|]. intros. by apply wp_ret.
Qed.

(** *** Every call of the application *)
Definition call_ok (c : call IS I) : Prop :=
  match c with
  | CEndIrob id => allowed id
  | CClose fd => fd ∉ kept
  | CConnect _ _ env | CAccept _ env => env_ok env
  | _ => True
  end.

Lemma pwell_connect fd addr env : env_ok env -> pwell (cmm_connect (IS:=IS) (I:=I) k now fd addr env).
Proof.
  intros He. apply pwell_lookup; cbn [impl passthrough v_connect]; [|p_go].
  intros g p. apply wp_bind, wp_get, wp_inv. intros [H1 _ _ _]. eapply wp_mono; [|done].
  apply pwell_on_sock, mwell_connect; [apply HJ|by apply He|done].
Qed.

Lemma pwell_call c : call_ok c -> pwell (cmm_call (IS:=IS) (I:=I) k now c).
Proof.
  destruct c; simpl; intros Hc; (apply keeps_bind; [|intros; apply keeps_ret]).
  - apply pwell_create.
  - apply pwell_send.
  - apply pwell_writev.
  - apply pwell_lookup; [by apply pwell_on_sock, mwell_peername|cbn [passthrough v_getpeername]; p_go].
  - apply pwell_lookup; [by apply pwell_on_sock, mwell_sockname|cbn [passthrough v_getsockname]; p_go].
  - unfold cmm_listen, mc_listen. p_go.
  - by apply pwell_accept.
  - apply pwell_lookup; cbn [impl passthrough v_recv].
    + apply keeps_bind; [by apply pwell_impl_sock, well_mc_recv|]. intros. apply keeps_ret.
    + destruct (flags =? 0); p_go.
  - apply pwell_lookup; [by apply pwell_on_sock, mwell_getsockopt|cbn [passthrough v_getsockopt]; p_go].
  - apply pwell_lookup; [by apply pwell_on_sock, mwell_setsockopt|cbn [passthrough v_setsockopt]; p_go].
  - by apply pwell_connect.
  - apply pwell_lookup; [by apply pwell_on_sock, mwell_shutdown|cbn [passthrough v_shutdown]; p_go].
  - by apply pwell_close.
  - intros g p. unfold cmm_thunk_cancel. intros H. destruct g. exists tt.
    destruct (cancel_thunk _ _ _ _ _) as [n t]. split_and!; [done| |done]. by destruct H.
  - apply pwell_lookup; [apply pwell_impl_sock, keeps_gets|cbn [passthrough v_get_failure_timeout]; p_go].
  - apply pwell_lookup; [by apply pwell_impl_sock, well_timeout|cbn [passthrough v_set_failure_timeout]; p_go].
  - apply pwell_lookup; [by apply pwell_on_sock, mwell_num|cbn [passthrough v_num_networks]; p_go].
  - apply pwell_begin.
  - by apply pwell_end.
  - apply pwell_irob_send.
  - apply pwell_irob_writev.
  - apply pwell_by_irob; intros fd; cbn [impl passthrough v_irob_relabel]; [|p_go].
    apply pwell_on_sock, mwell_on, keeps_ret.
  - apply pwell_with_deps; [apply pwell_send|intros; apply pwell_irob_send].
  - apply pwell_with_deps; [apply pwell_writev|intros; apply pwell_irob_writev].
Qed.

(** *** What else happens *)
Lemma pwell_each f fds : (forall fd, pwell (f fd)) -> pwell (for_each_sock (IS:=IS) (I:=I) f fds).
Proof. intros Hf. induction fds; simpl; [apply keeps_ret|]. by apply keeps_bind. Qed.
Lemma pwell_interface iface down : pwell (process_interface_update (IS:=IS) (I:=I) k iface down).
Proof.
  unfold process_interface_update, interface_down, interface_up.
  destruct down; (apply keeps_bind; [|intros _; apply keeps_bind; [apply keeps_get|]; intros p; apply pwell_each; intros fd]).
  - apply keeps_pure. intros p []. split; try done. simpl. auto with frames.
  - apply pwell_on_sock, mwell_on; by apply well_teardown.
  - apply keeps_pure. intros p []. split; try done. simpl. auto with frames.
  - apply pwell_on_sock, mwell_on; by apply well_setup.
Qed.
Lemma pwell_cleanup : pwell (cleanup (IS:=IS) (I:=I) k).
Proof.
  unfold cleanup. apply keeps_bind; [apply keeps_get|]. intros p. generalize (ascending (dom (cmm_sock_hash p))).
  intros fds. induction fds as [|fd fds IH]; simpl; [apply keeps_ret|]. apply keeps_bind; [apply pwell_goodbye|].
  intros _. apply keeps_bind; [apply pwell_on_sock, mwell_on, keeps_gets|]. intros []; [done|apply keeps_ret].
Qed.
Lemma pwell_destroy fd pipes : pwell (destroy (IS:=IS) (I:=I) fd pipes).
Proof. unfold destroy. p_go. Qed.
Lemma pwell_message fd cs m : pwell (on_sock fd (on_msk (run_message (IS:=IS) (I:=I) k now cs m))).
Proof. apply pwell_on_sock, mwell_on. by apply well_run_message. Qed.
End process.

(** ** Instances *)
Section instances.
Context {IS I : Type} `{!IdSet IS} `{!InstrumentsChooser I} {NE : NetEstimates}.
Abbreviation SK := (CMMSocketImpl IS I).

Definition both (J1 J2 : unit -> SK -> Prop) (g : unit) (s : SK) : Prop := J1 g s /\ J2 g s.
Lemma keeps_conj {A} (J1 J2 : unit -> SK -> Prop) (m : M SK A) : keeps J1 m -> keeps J2 m -> keeps (both J1 J2) m.
Proof.
  intros H1 H2 g s [K1 K2]. destruct g. destruct (H1 tt s K1) as ([] & _ & ? & _), (H2 tt s K2) as ([] & _ & ? & _).
  exists tt. by split_and!.
Qed.
Lemma keeps_iff {A} (J1 J2 : unit -> SK -> Prop) (m : M SK A) :
  (forall s, J1 tt s <-> J2 tt s) -> keeps J1 m <-> keeps J2 m.
Proof.
  intros H. split; intros Hm [] s Hs; apply H in Hs; destruct (Hm tt s Hs) as ([] & ? & ? & ?); exists tt;
    (split_and!; [done|by apply H|done]).
Qed.
Lemma framed_both (J1 J2 : unit -> SK -> Prop) : Framed J1 -> Framed J2 -> Framed (both J1 J2).
Proof.
  intros F1 F2. split; intros; apply keeps_conj;
    solve [by apply fr_quiet|apply fr_csock|by apply fr_less|apply fr_put|apply fr_fold|by apply fr_local|by apply fr_remote
          |by apply fr_changed|by apply fr_down|apply fr_stats|apply fr_next|apply fr_enter].
Qed.
Lemma framed_iff (J1 J2 : unit -> SK -> Prop) : (forall s, J1 tt s <-> J2 tt s) -> Framed J1 -> Framed J2.
Proof.
  intros H F. split; intros; apply (keeps_iff _ _ _ H);
    solve [by apply fr_quiet|apply fr_csock|by apply fr_less|apply fr_put|apply fr_fold|by apply fr_local|by apply fr_remote
          |by apply fr_changed|by apply fr_down|apply fr_stats|apply fr_next|apply fr_enter].
Qed.

(** The descriptor, and the table of IROBs. *)
Context (fd : Z) (st : gmap Z Z -> Prop).
Definition statics (_ : unit) (s : SK) : Prop := sock s = fd /\ st (irob_sock_hash s).
Lemma statics_frame f : (forall s : SK, sock (f s) = sock s /\ irob_sock_hash (f s) = irob_sock_hash s) -> keeps statics (modify f).
Proof. intros Hf. apply keeps_pure. intros s []. destruct (Hf s) as [E1 E2]. split; congruence. Qed.
Lemma framed_statics : (forall m id, st m -> m !! id = None -> st (<[id := fd]> m)) -> Framed statics.
Proof.
  intros Hst. split; intros.
  - apply statics_frame. intros s. destruct (H s) as (_ & _ & _ & _ & _ & _ & _ & _ & E1 & E2). by split.
  - by apply statics_frame.
  - by apply statics_frame.
  - by apply keeps_bind; [apply statics_frame|intros _; apply statics_frame].
  - apply keeps_pure. intros s. revert s. induction l as [|h l IH]; intros s Hs; simpl; [done|].
    apply IH. by destruct Hs.
  - by apply statics_frame.
  - by apply statics_frame.
  - by apply statics_frame.
  - by apply statics_frame.
  - unfold sk_update_net_restriction_stats. cbv zeta. by apply statics_frame.
  - unfold next_irob_id. apply keeps_bind; [apply keeps_get|]. intros s.
    apply keeps_bind; [by apply statics_frame|intros _; apply keeps_ret].
  - intros g s. apply wp_inv. intros [E Hs]. apply wp_bind, wp_get, wp_bind, wp_lift. intros [] Ha.
    destruct (bool_decide _) eqn:Hn; [|done]. apply bool_decide_eq_true in Hn.
    apply wp_bind, wp_modify. intros _. exists g. split; [done|]. split; [|by apply wp_ret].
    split; simpl; [done|]. rewrite E. by apply Hst.
Qed.
End instances.

(** ** Runs of the process *)
Section runs.
Context {IS I : Type} `{!IdSet IS} `{!InstrumentsChooser I} {NE : NetEstimates} {OSI : OS}.
Abbreviation SK := (CMMSocketImpl IS I).
Abbreviation P := (process IS I).
Implicit Types (p : P) (fd id : Z).

(** Calls of the application, messages that arrive, steps of the library's other
    threads on one multi-socket, news of the scout, the end of the process, and destructors. *)
Inductive pevent :=
| PCall (k : kernel) (now : timeval) (c : call IS I)
| PMessage (k : kernel) (now : timeval) (fd cs : Z) (m : message)
| PThread (fd : Z) (f : SK -> SK)
| PInterface (k : kernel) (iface : net_interface) (down : bool)
| PCleanup (k : kernel)
| PDestroy (fd : Z) (pipes : list Z).

Definition pstep p (e : pevent) : P :=
  match e with
  | PCall k now c => snd (cmm_call k now c p)
  | PMessage k now fd cs m => snd (on_sock fd (on_msk (run_message k now cs m)) p)
  | PThread fd f => snd (on_sock fd (on_msk (modify f)) p)
  | PInterface k iface down => snd (process_interface_update k iface down p)
  | PCleanup k => snd (cleanup k p)
  | PDestroy fd pipes => snd (destroy fd pipes p)
  end.
Definition prun p (es : list pevent) : P := foldl pstep p es.

Definition well fd (s : SK) : Prop := well_typed s /\ sock s = fd.

Definition event_ok (st : gmap Z Z -> Prop) (allowed : Z -> Prop) (kept : gset Z) (e : pevent) : Prop :=
  match e with
  | PCall _ _ c => call_ok well st allowed kept c
  | PThread fd f => forall s, J well st fd tt s -> J well st fd tt (f s)
  | _ => True
  end.

Lemma well_statics fd f g h (s : SK) : well fd s -> well fd (upd_thunks f (upd_irob_sock_hash g (upd_g_next_irob h s))).
Proof. intros [[] ?]. by split. Qed.
Lemma well_fresh fd (s : SK) : 0 <= fd -> msock_new fd = Ret s -> well fd s /\ sock s = fd.
Proof.
  intros _ H. unfold msock_new in H. apply bind_ret_inv in H as (c & _ & H). injection H as <-.
  split; [split|done]; [|done]. split; simpl; [set_solver|apply map_Forall_empty..].
Qed.

Context (st : gmap Z Z -> Prop) (allowed : Z -> Prop) (kept : gset Z).
Context (Hfresh : forall m id, st m -> m !! id = None -> allowed id).
Context (Henter : forall m id fd, st m -> m !! id = None -> st (<[id := fd]> m)).
Context (Hleave : forall m id, st m -> allowed id -> st (delete id m)).

Lemma J_both fd (s : SK) : both typed (statics fd st) tt s <-> J well st fd tt s.
Proof. unfold both, statics, J, typed, well. tauto. Qed.

Lemma framed_J fd : Framed (J (IS:=IS) (I:=I) well st fd).
Proof. apply (framed_iff _ _ (J_both fd)). apply framed_both; [apply _|]. apply framed_statics; intros m id; apply Henter. Qed.
Lemma leave_J fd id : allowed id -> FramedLeave (J (IS:=IS) (I:=I) well st fd) id.
Proof.
  intros Hid. unfold FramedLeave. apply keeps_pure. intros s [[[] E] Hs]. split; [split; [by split|done]|]. simpl. by apply Hleave.
Qed.

Lemma pstep_ok p e : proc_ok well st kept p -> event_ok st allowed kept e -> proc_ok well st kept (pstep p e).
Proof.
  intros Hp He. assert (forall A (m : M P A), keeps (K well st kept) m -> proc_ok well st kept (snd (m p))) as G.
  { intros A m Hm. by destruct (Hm tt p Hp) as ([] & _ & ? & _). }
  destruct e; simpl in *; apply G.
  - by apply (pwell_call well st allowed kept framed_J leave_J well_statics well_fresh Hfresh).
  - apply (pwell_message well st allowed kept framed_J leave_J well_statics well_fresh Hfresh).
  - apply (pwell_on_sock well st allowed kept framed_J leave_J well_statics well_fresh Hfresh).
    apply mwell_on, keeps_pure. apply He.
  - apply (pwell_interface well st allowed kept framed_J leave_J well_statics well_fresh Hfresh).
  - apply (pwell_cleanup well st allowed kept framed_J leave_J well_statics well_fresh Hfresh).
  - apply pwell_destroy.
Qed.
Lemma prun_ok p es : proc_ok well st kept p -> Forall (event_ok st allowed kept) es -> proc_ok well st kept (prun p es).
Proof.
  intros Hp Hes. revert p Hp. induction Hes as [|e es He _ IH]; intros p Hp; simpl; [done|]. apply IH. by apply pstep_ok.
Qed.
End runs.

(** ** What this gives *)
Section theorems.
Context {IS I : Type} `{!IdSet IS} `{!InstrumentsChooser I} {NE : NetEstimates} {OSI : OS}.
Abbreviation SK := (CMMSocketImpl IS I).
Abbreviation P := (process IS I).
Implicit Types (p : P) (fd id : Z).

(** Nothing is asked of the table of IROBs. *)
Definition any_table (_ : gmap Z Z) : Prop := True.
Definition any_irob (_ : Z) : Prop := True.

(** The other threads do to a multi-socket what [any_step] says. *)
Lemma any_step_ok fd (f : SK -> SK) :
  (forall s, any_step s (f s) /\ sock (f s) = sock s) -> event_ok any_table any_irob ∅ (PThread fd f).
Proof.
  intros Hf s [[Hw E] _]. destruct (Hf s) as [H1 H2]. split; [|done]. split; [by eapply any_step_typed|congruence].
Qed.

(** C10: From an empty process on, whatever calls the application makes (on
    multi-sockets, on other descriptors, connecting, accepting, closing), whatever messages arrive,
    whatever the other threads do and interfaces come and go: every multi-socket in the table is
    filed under its own descriptor and is well typed; so following the handle of a connection
    in use is never undefined behaviour. *)
Theorem process_well_formed p es fd m :
  cmm_sock_hash p = ∅ -> static_ifaces p = ∅ -> Forall (event_ok any_table any_irob ∅) es ->
  cmm_sock_hash (prun p es) !! fd = Some m ->
  0 <= fd /\ sock (mc_sk m) = fd /\ well_typed (mc_sk m) /\
  forall h, h ∈ available_csocks (mc_sk m) -> exists c, deref h (mc_sk m) = (Ret c, mc_sk m).
Proof.
  intros H1 H2 Hes Hm.
  assert (proc_ok well any_table ∅ (prun p es)) as [_ _ Hs _].
  { apply (prun_ok any_table any_irob ∅); try done. split; [by rewrite H2|done|rewrite H1; apply map_Forall_empty|set_solver]. }
  destruct (Hs fd m Hm) as [Hfd [Hw E]]. split_and!; [done|done|done|].
  intros h Hh%(wt_csocks _ Hw)%elem_of_dom. destruct Hh as [c Hc]. exists c. unfold deref. by rewrite Hc.
Qed.

(** The entry that [begin_irob] makes. *)
Lemma begin_entry k now fd ds labels rh arg g (s : SK) :
  wp (J (IS:=IS) (I:=I) well any_table fd) (mc_begin_irob k now ds labels rh arg)
    (fun _ r s' => forall i, r = Done i -> 0 <= i -> irob_sock_hash s' !! i = Some fd) g s.
Proof.
  assert (Framed (J (IS:=IS) (I:=I) well any_table fd)) as HF by (apply (framed_J any_table); done).
  unfold mc_begin_irob. eapply wp_keeps; [apply fr_next|]. intros g1 id s1 _ _.
  eapply wp_keeps; [by apply well_begin_irob|]. intros g2 [rc|l] s2 _ _; [|by apply wp_ret].
  destruct (rc <? 0) eqn:Hrc; [apply wp_ret; intros i [= <-] Hi; apply Z.ltb_lt in Hrc; lia|].
  apply wp_bind, wp_get, wp_inv. intros [[Hw E] _]. apply wp_bind, wp_lift. intros [] _.
  apply wp_bind, wp_modify. intros _. exists g2. split; [done|]. split; [by destruct Hw|].
  apply wp_ret. intros i [= <-] _. simpl. by rewrite lookup_insert_eq, E.
Qed.

Lemma begin_routes k now fd ds labels rh arg p id m :
  proc_ok well any_table ∅ p -> cmm_sock_hash p !! fd = Some m ->
  fst (begin_irob k now fd ds labels rh arg p) = Ret (Done id) -> 0 <= id ->
  let p' := snd (begin_irob k now fd ds labels rh arg p) in
  proc_ok well (fun t => t !! id = Some fd) {[fd]} p'.
Proof.
  intros Hp Hm Hr Hid p'.
  assert (proc_ok well any_table {[fd]} p) as Hp1.
  { destruct Hp as [H1 H2 H3 H4]. split; try done. intros x ->%elem_of_singleton. apply elem_of_dom. by eexists. }
  assert (proc_ok well any_table {[fd]} p') as [H1 _ H3 H4].
  { pose proof (pstep_ok any_table any_irob {[fd]} ltac:(done) ltac:(done) ltac:(done) p
      (PCall k now (CBeginIrob fd ds labels rh arg)) Hp1 Logic.I) as Hs.
    unfold pstep, cmm_call, mbind, M_bind in Hs. subst p'. by destruct (begin_irob k now fd ds labels rh arg p) as [[] ?]. }
  split; [done| |done|done]. revert Hr. subst p'. unfold begin_irob, lookup, lookup_sock. rewrite Hm. cbn [impl v_begin_irob].
  unfold on_sock. rewrite Hm. unfold with_errno, mbind, M_bind, on_msk, zoom, get. simpl.
  destruct Hp1 as [_ _ H3' _]. destruct (H3' fd m Hm) as [_ Ho].
  pose proof (begin_entry k now fd ds labels rh arg tt (mc_sk (load p m))) as W.
  destruct W as ([] & _ & _ & HQ); [split; [by apply well_statics|done]|].
  destruct (mc_begin_irob k now ds labels rh arg _) as [r s']. simpl in *.
  destruct r as [r| |]; [|done..]. destruct (begin_errno _ r); simpl; intros [= ->]; by apply (HQ (Done id)).
Qed.

Lemma lookup_kept k now fd id p :
  proc_ok well (fun t => t !! id = Some fd) {[fd]} p -> lookup_by_irob k now id p = impl k now fd.
Proof.
  intros [_ H2 _ H4]. assert (fd ∈ dom (cmm_sock_hash p)) as [m Hm]%elem_of_dom by set_solver.
  unfold lookup_by_irob, lookup_sock. by rewrite H2, Hm.
Qed.

(** C11: An IROB id implies a multi-socket: once [begin_irob] on a multi-socket has
    returned an id, the calls on that id go to that very multi-socket, whatever else the process does on it and on
    all others - opening, accepting, beginning and ending other IROBs, receiving
    messages -, until the IROB is ended or the multi-socket closed. *)
Theorem irob_routed k now fd ds labels rh arg p es0 es id m :
  cmm_sock_hash p = ∅ -> static_ifaces p = ∅ -> Forall (event_ok any_table any_irob ∅) es0 ->
  let p0 := prun p es0 in
  cmm_sock_hash p0 !! fd = Some m ->
  fst (begin_irob k now fd ds labels rh arg p0) = Ret (Done id) -> 0 <= id ->
  Forall (event_ok (fun t => t !! id = Some fd) (fun i => i <> id) {[fd]}) es ->
  forall k' now', lookup_by_irob k' now' id (prun (snd (begin_irob k now fd ds labels rh arg p0)) es) = impl k' now' fd.
Proof.
  intros H1 H2 Hes0 p0 Hm Hr Hid Hes k' now'. apply lookup_kept.
  apply (prun_ok (fun t => t !! id = Some fd) (fun i => i <> id) {[fd]}); [..|done].
  - intros t i Ht Hi ->. congruence.
  - intros t i v Ht Hi. rewrite lookup_insert_ne; [done|congruence].
  - intros t i Ht Hi. by rewrite lookup_delete_ne.
  - apply (begin_routes _ _ _ _ _ _ _ _ _ m); try done.
    apply (prun_ok any_table any_irob ∅); try done. split; [by rewrite H2|done|rewrite H1; apply map_Forall_empty|set_solver].
Qed.
End theorems.

(** ** Witnesses *)
Import ListBits.
#[local] Existing Instance no_instruments.
#[local] Existing Instance no_estimates.
Abbreviation demo_P := (process (IntSet.t (list bool)) unit).

#[local] Instance counting_os : OS := {| os_answer := fun log _ => (Z.of_nat (length log) + 3, 0, []) |}.
Definition no_process : demo_P := Process ∅ ∅ ∅ 0 ∅ thunks_empty [] 0.
(** The bootstrap is done, and there is a connection. *)
Definition demo_up (s : CMMSocketImpl (IntSet.t (list bool)) unit) : CMMSocketImpl (IntSet.t (list bool)) unit :=
  upd_bootstrap_status (fun _ => Some 0)
    (upd_available_csocks (fun _ => {[5]})
      (upd_sk_csocks (fun _ => {[5 := CSock (demo_wifi.1) (demo_wifi.2) true indexes_empty false]})
        (upd_local_ifaces (fun _ => {[ip_addr demo_wifi.1 := demo_wifi.1]})
          (upd_remote_ifaces (fun _ => {[ip_addr demo_wifi.2 := demo_wifi.2]}) s)))).
Definition demo_before : list (pevent (IS := IntSet.t (list bool)) (I := unit)) :=
  [PCall demo_kernel no_time (CSocket PF_INET SOCK_STREAM 0); PThread 3 demo_up].
Definition demo_after : list (pevent (IS := IntSet.t (list bool)) (I := unit)) :=
  [PCall demo_kernel no_time (CBeginIrob 3 [0] 4 None 0); PCall demo_kernel no_time (CIrobSend 0 [Byte.x61]);
   PCall demo_kernel no_time (CEndIrob 1); PInterface demo_kernel (demo_wifi.1) true].

Lemma demo_up_ok : event_ok any_table any_irob ∅ (PThread 3 demo_up).
Proof.
  intros s [[[] E] _]. split; [|done]. split; [|exact E].
  split; try assumption; cbn; [set_solver|apply map_Forall_insert_2; [reflexivity|apply map_Forall_empty]..].
Qed.
Lemma demo_before_ok : Forall (event_ok any_table any_irob ∅) demo_before.
Proof. constructor; [done|constructor; [apply demo_up_ok|constructor]]. Qed.

Lemma process_well_formed_witness : exists m,
  cmm_sock_hash (prun no_process demo_before) !! 3 = Some m /\ sock (mc_sk m) = 3 /\ available_csocks (mc_sk m) = {[5]} /\
  exists c, deref 5 (mc_sk m) = (Ret c, mc_sk m).
Proof.
  eexists. split; [vm_compute; reflexivity|]. match goal with |- sock (mc_sk ?m) = 3 /\ _ => set (x := m) end.
  destruct (process_well_formed no_process demo_before 3 x) as (_ & E & _ & Hd).
  - reflexivity.
  - reflexivity.
  - apply demo_before_ok.
  - vm_compute. reflexivity.
  - split; [exact E|]. split; [vm_compute; reflexivity|]. apply Hd. vm_compute. reflexivity.
Defined.

Lemma irob_routed_witness :
  let p0 := prun no_process demo_before in
  let b := begin_irob demo_kernel no_time 3 [] 4 None 0 p0 in
  fst b = Ret (Done 0) /\ lookup_by_irob demo_kernel no_time 0 (prun (snd b) demo_after) = impl demo_kernel no_time 3.
Proof.
  intros p0 b. assert (fst b = Ret (Done 0)) as E by (vm_compute; reflexivity).
  assert (exists m, cmm_sock_hash p0 !! 3 = Some m) as [m Hm] by (eexists; vm_compute; reflexivity).
  split; [exact E|].
  apply (irob_routed demo_kernel no_time 3 [] 4 None 0 no_process demo_before demo_after 0 m).
  - reflexivity.
  - reflexivity.
  - apply demo_before_ok.
  - exact Hm.
  - exact E.
  - lia.
  - repeat (constructor; [cbn; try done|]). constructor.
Defined.
