(* ===== verification/Sender.v ===== *)
(** The sender thread of a csocket: csocket_sender.h/.cpp.

    The thread holds [scheduling_state_lock] and releases it around every write
    and every choice of a connection.  What the other threads do meanwhile is a
    list of state changes, one for each release ([others]); how much a writev(2)
    takes is a list, too ([writes]).  Both are arbitrary.  The messages written
    go to [sent]; after an incomplete write, which may still have passed on the
    first of its messages, the connection is given up.  Measurements
    ([stats]), the times of the last foreground activity and debugging output
    are not modelled. *)

From S2P Require Import Prelude Labels Scheduling Irob IntSet Control SenderIrob ReceiverIrob.
From S2P Require Import Lattice ReceiverLattice Chooser Thunks MultiSocket Socket.

(** What the thread reads of the rest of the system. *)
Record sender_io := SenderIO {
  io_now : timeval;                        (* gettimeofday *)
  io_last_fg_sec : Z;                      (* ipc_last_fg_tv_sec *)
  io_inflight : Z;                         (* ipc_total_bytes_inflight *)
  io_bw_estimate : option Z;               (* stats.get_estimate(NET_STATS_BW_UP) *)
  io_qdelay : timeval;                     (* the queuing delay measured for an ACK *)
  io_resume_op : IROBSchedulingData -> Z;  (* the address of a new ResumeOperation *)
  io_recvr : bool;                         (* csock_recvr is not NULL *)
  io_goodbye_timeout : bool                (* the 2-minute wait for a goodbye is over *)
}.

Definition striping : bool := true.
Definition MIN_CHUNKSIZE : Z := 1500.
Definition base_chunksize : Z := 4096.
Definition MAX_ACKS : nat := 150.
(** The handler [resume_operation_thunk], as a function pointer. *)
Definition RESUME_OPERATION_THUNK : Z := 1.

Inductive write_result :=
| Wrote
| Short (n : nat).       (* an error, or only the first [n] messages went out *)

Section state.
Context {IS I : Type}.
Abbreviation SK := (CMMSocketImpl IS I).

Record sender_thread := Thread {
  st_sk : SK;
  others : list (SK -> SK);
  writes : list write_result;
  sent : list message;
  trickling : bool                         (* trickle_timeout.tv_sec > 0 *)
}.

Definition with_sk (s : SK) (st : sender_thread) : sender_thread :=
  Thread s (others st) (writes st) (sent st) (trickling st).

(** An action on the multi-socket. *)
Definition on_sk {A} (m : M SK A) : M sender_thread A := zoom st_sk with_sk m.

(** The lock is released and taken again. *)
Definition unlocked : M sender_thread unit :=
  modify (fun st => match others st with
                    | [] => st
                    | f :: fs => Thread (f (st_sk st)) fs (writes st) (sent st) (trickling st)
                    end).

(** A write of [msgs], without the lock. *)
Definition write (msgs : list message) : M sender_thread bool :=
  unlocked;;
  st ← get;
  match writes st with
  | Short n :: ws =>
      modify (fun st => Thread (st_sk st) (others st) ws (sent st ++ take n msgs) (trickling st));;
      unlocked;; mret false
  | ws =>
      modify (fun st => Thread (st_sk st) (others st) (tail ws) (sent st ++ msgs) (trickling st));;
      unlocked;; mret true
  end.

Definition set_trickling (b : bool) : M sender_thread unit :=
  modify (fun st => Thread (st_sk st) (others st) (writes st) (sent st) b).
End state.
Arguments sender_thread : clear implicits.

(** ** Messages the thread writes *)

Definition simple_hdr (type : Z) (op : ctl_op) : message := Msg (Hdr (htons type) 0 op) [] [].

Definition begin_irob_msg id labels (deps_htonl : list Z) : message :=
  Msg (Hdr (htons CMM_CONTROL_MSG_BEGIN_IROB) (htonl labels)
         (OpBeginIrob (htonl id) (htonl (Z.of_nat (length deps_htonl))))) deps_htonl [].
Definition irob_chunk_msg id labels (r : ready_bytes) : message :=
  Msg (Hdr (htons CMM_CONTROL_MSG_IROB_CHUNK) (htonl labels)
         (OpIrobChunk (htonl id) (htonl (rb_seqno r)) (htonl (rb_offset r)) (htonl (rb_len r))))
    [] (mjoin (rb_data r)).
Definition end_irob_msg id labels (p : PendingSenderIROB) : message :=
  Msg (Hdr (htons CMM_CONTROL_MSG_END_IROB) (htonl labels)
         (OpEndIrob (htonl id) (htonl (expected_bytes p)) (htonl (num_sender_chunks p)))) [] [].

Section sender.
Context {IS I : Type} `{!IdSet IS} `{!InstrumentsChooser I} `{!NetEstimates}.
Context (k : kernel) (io : sender_io) (cs : Z).
Abbreviation SK := (CMMSocketImpl IS I).
Abbreviation ST := (sender_thread IS I).
Implicit Types (s : SK) (id labels : Z) (p : PendingSenderIROB) (data : IROBSchedulingData).

(** ** The state it works on *)

Definition sender_find id s : option sender_obj := find_locked id (outgoing_irobs s).

(** [dynamic_cast<PendingSenderIROB*>(outgoing_irobs.find(id).get())]. *)
Definition find_sender id : M ST (option PendingSenderIROB) :=
  on_sk (gets (fun s => sender_find id s ≫= as_sender)).

(** The same with [ASSERT(psirob)]. *)
Definition get_sender id : M ST PendingSenderIROB :=
  on_sk (s ← get; lift (the_sender (sender_find id s))).

Definition my_csock : M ST CSocket := on_sk (deref cs).

(** Insert a request in the index of csocket [h]. *)
Definition csock_request h (ty : index_type) data : M ST unit :=
  on_sk (c ← deref h; let _ : CSocket := c in modify (upd_csock h (set_cs_indexes (index_insert ty data)))).

(** Insert it in the multi-socket's, and give up the connection. *)
Definition write_failed {A} (ty : index_type) data : M ST A :=
  on_sk (schedule ty data);; throw ControlException.

(** The indexes [schedule_work] was called on: a csocket's or the multi-socket's. *)
Definition get_indexes (w : option Z) : M ST IROBSchedulingIndexes :=
  match w with
  | Some h => c ← on_sk (deref h); mret (cs_indexes c)
  | None => on_sk (gets irob_indexes)
  end.
Definition upd_indexes (w : option Z) (f : IROBSchedulingIndexes -> IROBSchedulingIndexes)
    : M ST unit :=
  match w with
  | Some h => on_sk (modify (upd_csock h (set_cs_indexes f)))
  | None => on_sk (modify (upd_irob_indexes f))
  end.

Definition pop_index (w : option Z) (ty : index_type) : M ST (option IROBSchedulingData) :=
  x ← get_indexes w;
  match PrioritySet.pop (index_get ty x) with
  | None => mret None
  | Some (d, rest) => upd_indexes w (index_upd ty (fun _ => rest));; mret (Some d)
  end.
Definition remove_index (w : option Z) (ty : index_type) id : M ST (option IROBSchedulingData) :=
  x ← get_indexes w;
  match PrioritySet.remove id (index_get ty x) with
  | None => mret None
  | Some (d, rest) => upd_indexes w (index_upd ty (fun _ => rest));; mret (Some d)
  end.

Definition set_busy (b : bool) : M ST unit :=
  on_sk (modify (upd_csock cs (fun c =>
    CSock (local_iface c) (remote_iface c) (connected c) (cs_indexes c) b))).

Definition mark_sent id : M ST unit :=
  c ← my_csock;
  on_sk (modify (upd_sender id (markSentOn (ip_addr (local_iface c)) (ip_addr (remote_iface c))))).

(** ** Choosing the connection *)

Definition cs_matches labels num_bytes : M ST bool :=
  c ← my_csock; on_sk (csock_matches labels num_bytes c).

Definition is_fg : M ST bool :=
  b ← cs_matches (Z.lor CMM_LABEL_ONDEMAND CMM_LABEL_SMALL) 0;
  if (b : bool) then mret true else cs_matches (Z.lor CMM_LABEL_ONDEMAND CMM_LABEL_LARGE) 0.

(** The connection to use instead: the connecting side may make a new one. *)
Definition find_match labels num_bytes : M ST (option Z) :=
  on_sk (s ← get;
         if accepting_side s then connected_csock_with_labels labels num_bytes
         else new_csock_with_labels k labels num_bytes).

Definition drop_irob id : M ST unit := on_sk (sk_drop_irob_and_dependents id).

Definition set_irob_status id (z : Z) : M ST unit :=
  on_sk (modify (upd_outgoing_irobs (update_found id (upd_core (set_status z))))).

(** No connection for the IROB: it waits, fails, or is sent here after all
    ([false]). *)
Definition no_match id labels (redundant : bool) data : M ST bool :=
  p ← get_sender id;
  c ← my_csock;
  if negb (fits_net_restriction labels c) then
    set_irob_status id CMM_FAILED;;
    when (complete (sbase p)) (drop_irob id);; mret true
  else if has_bits labels CMM_LABEL_BACKGROUND then mret false
  else if redundant then mret false
  else if negb (complete (sbase p)) then
    match get_thunk p with
    | (Some fn, arg) =>
        on_sk (register_thunk labels fn arg);; set_irob_status id CMM_DEFERRED
    | (None, _) =>
        on_sk (register_thunk labels RESUME_OPERATION_THUNK (io_resume_op io data));;
        set_irob_status id CMM_BLOCKING
    end;;
    mret true
  else drop_irob id;; mret true.

(** Csocket [h] is the best match. *)
Definition pass_on h labels (redundant : bool) data : M ST bool :=
  c ← my_csock;
  m ← on_sk (deref h);
  if negb (h =? cs) && (connected m || negb (fits_net_restriction labels c)) then
    (if sd_data_check data then csock_request h WAITING_DATA_CHECKS data
     else if negb (sd_chunks_ready data) then csock_request h NEW_IROBS data
     else csock_request h NEW_CHUNKS data);;
    let fits := fits_net_restriction labels c in
    mret (negb ((negb (sd_data_check data) && sd_chunks_ready data && striping &&
                 has_bits labels CMM_LABEL_BACKGROUND && fits) || (redundant && fits)))
  else mret false.

(** [true]: nothing to do here any more.  On [false] the IROB is live. *)
Definition delegate_if_necessary id data : M ST bool :=
  s ← on_sk get;
  match sender_find id s with
  | None => mret true
  | Some o =>
      labels ← lift (get_send_labels (core o));
      p ← get_sender id;
      let num_bytes := if complete (sbase p) then expected_bytes p else 0 in
      let redundant := should_send_on_all_networks p in
      unlocked;;
      b ← cs_matches labels num_bytes;
      if (b : bool) then
        unlocked;;
        s ← on_sk get;
        match sender_find id s with
        | None => mret true
        | Some _ =>
            p ← get_sender id;
            when redundant (on_sk (pass_request_to_all_senders p data));; mret false
        end
      else
        h ← find_match labels num_bytes;
        unlocked;;
        s ← on_sk get;
        match sender_find id s with
        | None => mret true
        | Some _ =>
            match h with
            | None => no_match id labels redundant data
            | Some h => p ← get_sender id;
                        let _ : PendingSenderIROB := p in pass_on h labels redundant data
            end
        end
  end.

(** ** Trickling *)

Definition cs_bandwidth (c : CSocket) : Z :=
  default (iface_bandwidth (local_iface c) (remote_iface c)) (io_bw_estimate io).
Definition trickle_chunksize (c : CSocket) : Z := to_size_t (cs_bandwidth c * 50) / 1000.

(** [TIMEDIFF], with its assertion. *)
Definition timediff (b e : timeval) : outcome timeval :=
  assert_ ((tv_sec b <? tv_sec e) || ((tv_sec b =? tv_sec e) && (tv_usec b <=? tv_usec e))) ≫= fun _ =>
  Ret (if tv_usec e <? tv_usec b
       then Timeval (tv_sec e - tv_sec b - 1) (1000000 + tv_usec e - tv_usec b)
       else Timeval (tv_sec e - tv_sec b) (tv_usec e - tv_usec b)).

(** [None]: not now; otherwise the size of the chunk to send. *)
Definition okay_to_send_bg : M ST (option Z) :=
  c ← my_csock;
  since ← lift (timediff (Timeval (io_last_fg_sec io) 0) (io_now io));
  let chunksize := to_long (if 5 <? tv_sec since then cs_bandwidth c else trickle_chunksize c) in
  let chunksize := Z.max chunksize MIN_CHUNKSIZE in
  if (io_inflight io <? 0) || (chunksize <=? io_inflight io)
  then set_trickling true;; mret None
  else mret (Some chunksize).

(** ** Begin_IROB *)

(** A small foreground IROB goes out with all its data. *)
Definition sends_everything labels p : bool :=
  complete (sbase p) && (expected_bytes p <? MIN_CHUNKSIZE) &&
  has_bits labels CMM_LABEL_ONDEMAND && negb (was_announced p (Some cs)).

(** The chunk and the End_IROB that follow the Begin_IROB of such an IROB. *)
Definition small_irob_msgs id labels p : M ST (list message) :=
  if sends_everything labels p then
    r ← lift (get_ready_bytes p (Some cs) (expected_bytes p) (io_now io));
    let '(rb, p') := r in
    on_sk (modify (upd_sender id (fun _ => p')));;
    msgs ← (if 0 <? rb_len rb then
              on_sk (update_net_restriction_stats cs labels (rb_len rb) 0);;
              mret [irob_chunk_msg id labels rb; end_irob_msg id labels p']
            else mret []);
    lift (assert_ (all_bytes_chunked p'));;
    mret msgs
  else mret [].

(** After the write: the announcement, and the request for the data. *)
Definition begin_irob_written id (sent_all : bool) data : M ST unit :=
  q ← find_sender id;
  match q with
  | None => mret tt
  | Some p =>
      on_sk (modify (upd_sender id (mark_announcement_sent (Some cs))));;
      if sent_all then
        when (complete (sbase p) && all_bytes_chunked p)
          (on_sk (modify (upd_sender id (mark_end_announcement_sent (Some cs)))))
      else
        when (anonymous (sbase p) || negb (bool_decide (chunks (sbase p) = [])))
          (csock_request cs NEW_CHUNKS (sched_chunks id true (sd_send_labels data)))
  end.

Definition begin_irob_here id data : M ST unit :=
  p ← get_sender id;
  labels ← lift (get_send_labels (sbase p));
  let deps := copy_deps_htonl (sbase p) in
  more ← small_irob_msgs id labels p;
  mark_sent id;;
  ok ← write (begin_irob_msg id labels deps :: more);
  if (ok : bool) then begin_irob_written id (negb (bool_decide (more = []))) data
  else write_failed NEW_IROBS data.

(** [false]: the request must be put back. *)
Definition begin_irob data : M ST bool :=
  let id := sd_id data in
  s ← on_sk get;
  match sender_find id s with
  | None => mret true
  | Some _ =>
      p ← get_sender id;
      labels ← lift (get_send_labels (sbase p));
      c ← my_csock;
      gone ← (if negb (fits_net_restriction labels c) then delegate_if_necessary id data
              else mret false);
      if (gone : bool) then mret true
      else
        p ← get_sender id;
        if was_announced p (Some cs) then begin_irob_here id data;; mret true
        else
          wait ← (if has_bits (sd_send_labels data) CMM_LABEL_BACKGROUND then
                    unlocked;;
                    fg ← is_fg;
                    unlocked;;
                    if (fg : bool) then ok ← okay_to_send_bg; mret (bool_decide (ok = None))
                    else mret false
                  else mret false);
          if (wait : bool) then mret false
          else
            gone ← delegate_if_necessary id data;
            if (gone : bool) then mret true else begin_irob_here id data;; mret true
  end.

(** ** End_IROB *)

Definition end_irob data : M ST unit :=
  let id := sd_id data in
  s ← on_sk get;
  match sender_find id s with
  | None => mret tt
  | Some _ =>
      p ← get_sender id;
      labels ← lift (get_send_labels (sbase p));
      mark_sent id;;
      ok ← write [end_irob_msg id labels p];
      if (ok : bool) then mret tt else write_failed FINISHED_IROBS data
  end.

(** ** IROB_chunk *)

(** The size of the next chunk; [None]: not now. *)
Definition choose_chunksize data : M ST (option Z) :=
  size ← (if has_bits (sd_send_labels data) CMM_LABEL_BACKGROUND then
            unlocked;;
            fg ← is_fg;
            best ← cs_matches (sd_send_labels data) 0;
            unlocked;;
            if fg || (striping && negb best) then okay_to_send_bg else mret (Some base_chunksize)
          else mret (Some base_chunksize));
  s ← on_sk get;
  mret (if 1 <? csock_count s then Z.min base_chunksize <$> size else size).

(** Background data without restrictions is shared with the other threads. *)
Definition shared labels s : bool :=
  striping && has_bits labels CMM_LABEL_BACKGROUND && negb (has_network_restriction labels) &&
  (1 <? csock_count s).

Definition piggyback (waiting_ack : option Z) : list message :=
  match waiting_ack with
  | None => []
  | Some id =>
      [simple_hdr CMM_CONTROL_MSG_ACK
         (OpAck 0 (htonl id) (Timeval 0 0)
            (Timeval (htonl (tv_sec (io_qdelay io))) (htonl (tv_usec (io_qdelay io)))))]
  end.

(** After the write: End_IROB when it was the last chunk, and the next chunk. *)
Definition irob_chunk_written id labels data : M ST unit :=
  q ← find_sender id;
  match q with
  | None => mret tt
  | Some p =>
      when (complete (sbase p) && all_bytes_chunked p && negb (end_was_announced p (Some cs)))
        (csock_request cs FINISHED_IROBS (sched_chunks id false 0));;
      s ← on_sk get;
      when (negb (shared labels s)) (csock_request cs NEW_CHUNKS data)
  end.

Definition irob_chunk_here id (waiting_ack : option Z) (chunksize : Z) data : M ST unit :=
  p ← get_sender id;
  labels ← lift (get_send_labels (sbase p));
  r ← lift (get_ready_bytes p (Some cs) chunksize (io_now io));
  let '(rb, p') := r in
  on_sk (modify (upd_sender id (fun _ => p')));;
  if rb_len rb =? 0 then mret tt
  else
    s ← on_sk get;
    when (shared labels s) (on_sk (schedule NEW_CHUNKS data));;
    on_sk (update_net_restriction_stats cs labels (rb_len rb) 0);;
    mark_sent id;;
    ok ← write (piggyback waiting_ack ++ [irob_chunk_msg id labels rb]);
    if (ok : bool) then irob_chunk_written id labels data
    else
      on_sk (schedule NEW_CHUNKS data);;
      match waiting_ack with
      | Some a => on_sk (schedule WAITING_ACKS (sched_chunks a false 0))
      | None => mret tt
      end;;
      throw ControlException.

(** [false]: the request, and the ACK, must be put back. *)
Definition irob_chunk data (waiting_ack : option Z) : M ST bool :=
  size ← choose_chunksize data;
  match size with
  | None => mret false
  | Some chunksize =>
      gone ← delegate_if_necessary (sd_id data) data;
      if (gone : bool) then mret true
      else irob_chunk_here (sd_id data) waiting_ack chunksize data;; mret true
  end.

(** ** Interfaces *)

Definition pop_iface (get_ifaces : SK -> gmap Z net_interface)
    (upd : (gmap Z net_interface -> gmap Z net_interface) -> SK -> SK) : M ST (option net_interface) :=
  s ← on_sk get;
  match ifaces_of (get_ifaces s) with
  | [] => mret None
  | i :: _ => on_sk (modify (upd (delete (ip_addr i))));; mret (Some i)
  end.

Definition new_interface (i : net_interface) : M ST unit :=
  ok ← write [Msg (Hdr (htons CMM_CONTROL_MSG_NEW_INTERFACE) (htonl 0)
    (OpNewInterface (NetInterface (ip_addr i) (htonl (bandwidth_down i)) (htonl (bandwidth_up i))
                       (htonl (RTT i)) (htonl (net_type i))))) [] []];
  if (ok : bool) then mret tt
  else on_sk (modify (upd_changed_local_ifaces (iface_insert i)));; throw ControlException.

Definition down_interface (i : net_interface) : M ST unit :=
  ok ← write [Msg (Hdr (htons CMM_CONTROL_MSG_DOWN_INTERFACE) (htonl 0)
                     (OpDownInterface (ip_addr i))) [] []];
  if (ok : bool) then mret tt
  else on_sk (modify (upd_down_local_ifaces (iface_insert i)));; throw ControlException.

(** ** ACKs *)

Definition ack_srv_time data : outcome timeval :=
  let t := sd_completion_time data in
  if (tv_sec t =? 0) || (tv_usec t =? -1) then Ret t else timediff t (io_now io).

(** The acknowledgement popped, and up to [MAX_ACKS] more of the same index.  On
    failure the others are put back. *)
Definition send_acks data (w : option Z) : M ST unit :=
  srv ← lift (ack_srv_time data);
  x ← get_indexes w;
  let tmp := take MAX_ACKS (waiting_acks x) in
  upd_indexes w (index_upd WAITING_ACKS (drop MAX_ACKS));;
  ok ← write [Msg (Hdr (htons CMM_CONTROL_MSG_ACK) 0
    (OpAck (htonl (Z.of_nat (length tmp))) (htonl (sd_id data))
       (Timeval (htonl (tv_sec srv)) (htonl (tv_usec srv)))
       (Timeval (htonl (tv_sec (io_qdelay io))) (htonl (tv_usec (io_qdelay io))))))
    (htonl ∘ sd_id <$> tmp) []];
  if (ok : bool) then mret tt
  else
    on_sk (modify (upd_irob_indexes (index_upd WAITING_ACKS (PrioritySet.insert_range tmp))));;
    throw ControlException.

(** ** Goodbye *)

Definition send_goodbye : M ST unit :=
  ok ← write [simple_hdr CMM_CONTROL_MSG_GOODBYE OpNone];
  if (ok : bool) then on_sk (modify (upd_goodbye_sent (fun _ => true)))
  else on_sk (modify (upd_sending_goodbye (fun _ => false)));; throw ControlException.

(** ** Resend requests *)

(** [true]: another connection has it, or it is not needed. *)
Definition delegate_resend_request_if_necessary id (p : PendingReceiverIROB) data : M ST bool :=
  labels ← lift (get_send_labels (rbase p));
  c ← my_csock;
  if fits_net_restriction labels c then mret false
  else
    unlocked;;
    h ← find_match labels 0;
    unlocked;;
    s ← on_sk get;
    match rfind id (incoming_irobs s), h with
    | Some _, Some h => csock_request h RESEND_REQUESTS data;; mret true
    | _, _ => mret true
    end.

Definition resend_msg id (request seqno next_chunk : Z) : message :=
  simple_hdr CMM_CONTROL_MSG_RESEND_REQUEST
    (OpResendRequest (htonl id) (htonl request) (htonl seqno) (htonl next_chunk)).

(** One message for every missing chunk; the first one carries the request. *)
Definition resend_msgs id (req_type next_chunk : Z) (missing : list Z) : list message :=
  match missing with
  | [] => [resend_msg id req_type 0 next_chunk]
  | seqno :: missing =>
      resend_msg id req_type seqno next_chunk ::
      ((fun seqno => resend_msg id CMM_RESEND_REQUEST_DATA seqno 0) <$> missing)
  end.

Definition resend_request data : M ST unit :=
  let id := sd_id data in
  s ← on_sk get;
  let prirob := rfind id (incoming_irobs s) in
  let missing := match prirob with
                 | Some p => if has_bits (sd_resend_request data) CMM_RESEND_REQUEST_DATA
                             then get_missing_chunks p else []
                 | None => []
                 end in
  let req_type := match missing with
                  | [] => Z.ldiff (sd_resend_request data) CMM_RESEND_REQUEST_DATA
                  | _ => sd_resend_request data
                  end in
  if negb (has_bits req_type CMM_RESEND_REQUEST_ALL) then mret tt
  else
    gone ← match prirob with
           | Some p => delegate_resend_request_if_necessary id p data
           | None => mret false
           end;
    if (gone : bool) then mret tt
    else
      let next_chunk := match prirob with
                        | Some p => if has_bits req_type CMM_RESEND_REQUEST_END
                                    then next_chunk_seqno p else 0
                        | None => 0
                        end in
      ok ← write (resend_msgs id req_type next_chunk missing);
      if (ok : bool) then mret tt else write_failed RESEND_REQUESTS data.

(** ** Data checks *)

(** The next chunk, or the last one again when there is none. *)
Definition data_check_chunk id labels p : outcome (list message * PendingSenderIROB) :=
  get_ready_bytes p (Some cs) MIN_CHUNKSIZE (io_now io) ≫= fun '(rb, p') =>
  match rb_data rb with
  | [] =>
      get_last_sent_chunk_htonl p' (Some cs) ≫= fun last =>
      Ret (match last with
           | Some (c, (_ :: _) as d) =>
               [Msg (Hdr (htons CMM_CONTROL_MSG_IROB_CHUNK) (htonl labels)
                       (OpIrobChunk (ch_id c) (ch_seqno c) (ch_offset c) (ch_datalen c)))
                  [] (mjoin d)]
           | _ => []
           end, p')
  | _ => Ret ([irob_chunk_msg id labels rb], p')
  end.

Definition send_data_check data : M ST unit :=
  let id := sd_id data in
  q ← find_sender id;
  gone ← match q with Some _ => delegate_if_necessary id data | None => mret false end;
  if (gone : bool) then mret tt
  else
    r ← match q with
        | None => mret ([], 0)
        | Some _ =>
            p ← get_sender id;
            labels ← lift (get_send_labels (sbase p));
            r ← lift (data_check_chunk id labels p);
            let '(chunk, p') := r in
            on_sk (modify (upd_sender id (fun _ => p')));;
            let end_msg := if complete (sbase p') && all_bytes_chunked p'
                           then [end_irob_msg id labels p'] else [] in
            mark_sent id;;
            mret (begin_irob_msg id labels (copy_deps_htonl (sbase p')) :: chunk ++ end_msg, htonl labels)
        end;
    let '(msgs, labels) := r in
    ok ← write (msgs ++ [Msg (Hdr (htons CMM_CONTROL_MSG_DATA_CHECK) labels (OpDataCheck (htonl id))) [] []]);
    if (ok : bool) then mret tt else write_failed WAITING_DATA_CHECKS data.

(** ** schedule_work *)

(** The loops run under fuel; [None] when it runs out. *)
Fixpoint data_check_loop (fuel : nat) (w : option Z) (did : bool) : M ST (option bool) :=
  match fuel with
  | O => mret None
  | S fuel =>
      d ← pop_index w WAITING_DATA_CHECKS;
      match d with
      | None => mret (Some did)
      | Some data => send_data_check data;; data_check_loop fuel w true
      end
  end.

(** Put back what [irob_chunk] did not send. *)
Definition put_back (w : option Z) data (ack : option IROBSchedulingData) : M ST unit :=
  upd_indexes w (index_insert NEW_CHUNKS data);;
  match ack with Some a => upd_indexes w (index_insert WAITING_ACKS a) | None => mret tt end.

(** One chunk, with an ACK if one waits; [false]: not now. *)
Definition chunk_with_ack (w : option Z) data : M ST bool :=
  ack ← pop_index w WAITING_ACKS;
  ok ← irob_chunk data (sd_id <$> ack);
  if (ok : bool) then mret true else put_back w data ack;; mret false.

Fixpoint chunk_loop (fuel : nat) (w : option Z) id : M ST (option unit) :=
  match fuel with
  | O => mret None
  | S fuel =>
      d ← remove_index w NEW_CHUNKS id;
      match d with
      | None => mret (Some tt)
      | Some data =>
          ok ← chunk_with_ack w data;
          if (ok : bool) then chunk_loop fuel w id else mret (Some tt)
      end
  end.

(** The rest of an IROB whose first message went out. *)
Definition rest_of_irob (fuel : nat) (w : option Z) id : M ST (option unit) :=
  r ← chunk_loop fuel w id;
  match r with
  | None => mret None
  | Some _ =>
      d ← remove_index w FINISHED_IROBS id;
      match d with Some data => end_irob data | None => mret tt end;;
      mret (Some tt)
  end.

Definition work_new_irob (fuel : nat) (w : option Z) : M ST (option bool) :=
  d ← pop_index w NEW_IROBS;
  match d with
  | None => mret (Some false)
  | Some data =>
      set_busy true;;
      ok ← begin_irob data;
      r ← (if (ok : bool) then rest_of_irob fuel w (sd_id data)
           else upd_indexes w (index_insert NEW_IROBS data);; mret (Some tt));
      match r with None => mret None | Some _ => set_busy false;; mret (Some ok) end
  end.

Definition work_new_chunk (fuel : nat) (w : option Z) : M ST (option bool) :=
  d ← pop_index w NEW_CHUNKS;
  match d with
  | None => mret (Some false)
  | Some data =>
      ack ← pop_index w WAITING_ACKS;
      set_busy true;;
      ok ← irob_chunk data (sd_id <$> ack);
      r ← (if (ok : bool) then rest_of_irob fuel w (sd_id data)
           else put_back w data ack;; mret (Some tt));
      match r with None => mret None | Some _ => set_busy false;; mret (Some ok) end
  end.

(** A popped request handed to [work]; whether there was one. *)
Definition work_one (w : option Z) (ty : index_type) (work : IROBSchedulingData -> M ST unit)
    : M ST bool :=
  d ← pop_index w ty;
  match d with Some data => work data;; mret true | None => mret false end.

Definition work_finished data : M ST unit := set_busy true;; end_irob data;; set_busy false.

Definition work_iface (pop : M ST (option net_interface)) (tell : net_interface -> M ST unit)
    : M ST bool :=
  i ← pop; match i with Some i => tell i;; mret true | None => mret false end.

Definition schedule_work (fuel : nat) (w : option Z) : M ST (option bool) :=
  acks ← work_one w WAITING_ACKS (fun data => send_acks data w);
  checks ← data_check_loop fuel w acks;
  irobs ← (match checks with None => mret None | Some _ => work_new_irob fuel w end);
  chunks ← (match irobs with None => mret None | Some _ => work_new_chunk fuel w end);
  match checks, irobs, chunks with
  | Some a, Some b, Some c =>
      d ← work_one w FINISHED_IROBS work_finished;
      e ← work_one w RESEND_REQUESTS resend_request;
      f ← work_iface (pop_iface changed_local_ifaces upd_changed_local_ifaces) new_interface;
      g ← work_iface (pop_iface down_local_ifaces upd_down_local_ifaces) down_interface;
      mret (Some (a || b || c || d || e || f || g))
  | _, _, _ => mret None
  end.

(** ** The thread *)

Definition nothingToSend : M ST bool :=
  c ← my_csock;
  s ← on_sk get;
  mret (bool_decide (waiting_acks (cs_indexes c) = []) && bool_decide (waiting_acks (irob_indexes s) = []) &&
        bool_decide (resend_requests (cs_indexes c) = []) &&
        bool_decide (resend_requests (irob_indexes s) = []) &&
        is_empty (outgoing_irobs s) && bool_decide (down_local_ifaces s = ∅) &&
        bool_decide (waiting_data_checks (cs_indexes c) = []) &&
        bool_decide (waiting_data_checks (irob_indexes s) = [])).

Inductive round :=
| Again                   (* continue: there may be more work *)
| Waits                   (* asleep on the condition variable *)
| Returns                 (* the thread is done *)
| RoundOutOfFuel.

(** Work on the csocket's requests, then the multi-socket's. *)
Definition do_work (fuel : nat) : M ST (option bool) :=
  a ← schedule_work fuel (Some cs);
  match a with
  | Some false => schedule_work fuel None
  | _ => mret a
  end.

(** One round of the loop of [Run]. *)
Definition run_round (fuel : nat) : M ST round :=
  s ← on_sk get;
  idle ← (if shutting_down s then nothingToSend else mret false);
  if (idle : bool) then
    when (negb (goodbye_sent s) && negb (sending_goodbye s))
      (on_sk (modify (upd_sending_goodbye (fun _ => true)));; send_goodbye);;
    s ← on_sk get;
    mret (if negb (remote_shutdown s) && io_recvr io && negb (io_goodbye_timeout io)
          then Waits else Returns)
  else if negb (io_recvr io) then
    throw (if shutting_down s && goodbye_sent s then RuntimeError else ControlException)
  else
    a ← do_work fuel;
    match a with
    | None => mret RoundOutOfFuel
    | Some true => mret Again
    | Some false =>
        c ← my_csock;
        if is_busy k cs c then mret Waits
        else
          unlocked;;
          b ← do_work fuel;
          mret (match b with None => RoundOutOfFuel | Some true => Again | Some false => Waits end)
    end.

(** ** What [Run] does when it is left by an exception *)

Definition force_shutdown : SK -> SK := fun s =>
  upd_goodbye_sent (fun _ => true) (upd_remote_shutdown (fun _ => true)
    (upd_shutting_down (fun _ => true) s)).

Definition run_failed (e : exn) : M ST unit :=
  match e with
  | FatalError => on_sk (modify force_shutdown);; throw e
  | ControlException =>
      on_sk (remove_csock cs);;
      c ← my_csock;
      s ← on_sk get;
      (if accepting_side s then
         on_sk (modify (upd_irob_indexes (fun x => index_add x (cs_indexes c))));;
         on_sk (data_check_all_irobs (ip_addr (local_iface c)) 0 0);;
         s ← on_sk get;
         when (csocks_empty s) (on_sk (modify force_shutdown))
       else
         h ← on_sk (new_csock_with_labels k 0 0);
         match h with
         | Some h =>
             m ← on_sk (deref h);
             (if connected m
              then on_sk (modify (upd_csock h (set_cs_indexes (fun x => index_add x (cs_indexes c)))))
              else on_sk (modify (upd_irob_indexes (fun x => index_add x (cs_indexes c)))));;
             on_sk (data_check_all_irobs (ip_addr (local_iface c)) 0 0)
         | None => on_sk (modify force_shutdown)
         end);;
      throw e
  | _ => throw e
  end.

Definition Finish : M ST unit := on_sk (remove_csock cs).

(** ** Resuming an operation that waited for a network *)

(** Run by the thread that fires the thunk. *)
Definition resume_operation_thunk data : M ST unit :=
  let id := sd_id data in
  s ← on_sk get;
  o ← lift (match sender_find id s with Some o => Ret o | None => Trap AssertFailed end);
  p ← get_sender id;
  labels ← lift (get_send_labels (sbase p));
  unlocked;;
  h ← find_match labels 0;
  unlocked;;
  let _ : sender_obj := o in
  let ty := if sd_chunks_ready data then NEW_CHUNKS else NEW_IROBS in
  match h with
  | None => on_sk (schedule ty data)
  | Some h =>
      m ← on_sk (deref h);
      if connected m then csock_request h ty data else on_sk (schedule ty data)
  end.
End sender.

(** ** The life of the thread *)

Section life.
Context {IS I : Type} `{!IdSet IS} `{!InstrumentsChooser I} `{!NetEstimates}.
Context (cs : Z) (fuel : nat).
Abbreviation ST := (sender_thread IS I).

(** The loop of [Run]; every round has its own time and measurements, and the
    thread that slept goes on after a step of another thread.  [Again]: still
    running when the rounds considered are over. *)
Fixpoint rounds (l : list (kernel * sender_io)) : M ST round :=
  match l with
  | [] => mret Again
  | (k, io) :: l =>
      r ← run_round k io cs fuel;
      match r with
      | Again => rounds l
      | Waits => unlocked;; rounds l
      | _ => mret r
      end
  end.

Definition Run (l : list (kernel * sender_io)) (k : kernel) : M ST round := fun st =>
  match rounds l st with
  | (Throw e, st') => (run_failed k cs e;; mret Returns) st'
  | r => r
  end.

(** [ThreadFn] and [ThreadCleanup]: exceptions end in [Finish], too. *)
Definition ThreadFn (l : list (kernel * sender_io)) (k : kernel) : M ST unit := fun st =>
  match Run l k st with
  | (Ret Again, st') | (Ret RoundOutOfFuel, st') => (Ret tt, st')
  | (Trap t, st') => (Trap t, st')
  | (_, st') => Finish cs st'
  end.
End life.
