(* ===== verification/SenderTruth.v ===== *)
(** What a sender thread says is true.

    The invariant of a sender thread: the multi-socket's sending side is in order
    ([out_inv]), what the other threads do while the lock is released keeps it so
    ([rely]), and every message written so far is truthful ([truthful]).  Every
    operation of Sender.v keeps it, whatever it chooses, however a write ends and
    whatever is thrown; [sender_truth] is the theorem for any number of rounds of
    the thread and its end. *)

From S2P Require Import Prelude Logic Labels Scheduling Irob IntSet Chunks Control SenderIrob.
From S2P Require Import SenderSpec ReceiverIrob ReceiverSpec Transfer Lattice LatticeRep LatticeSpec.
From S2P Require Import ReceiverLattice ReceiverOrder Chooser Thunks MultiSocket Socket Receiver.
From S2P Require Import Delivery System History Sender Outgoing OutInv SocketInv.

Implicit Types (p q : PendingSenderIROB) (id labels : Z).

(** ** The messages *)

Lemma mjoin_concat {A} (l : list (list A)) : mjoin l = concat l.
Proof. induction l as [|x l IH]; [done|]. simpl. by rewrite <- IH. Qed.

Lemma begin_says id p labels :
  send_labels (sbase p) = Some labels ->
  says id p (begin_irob_msg id labels (copy_deps_htonl (sbase p))).
Proof.
  intros El. left. unfold begin_irob_msg, begin_msg, copy_deps_htonl. simpl.
  by rewrite El, length_fmap.
Qed.

Lemma end_says id p labels :
  send_labels (sbase p) = Some labels -> sender_ok p -> fully_cut p ->
  says id p (end_irob_msg id labels p).
Proof.
  intros El Hok [Hc Ha]. right; right. split; [done|]. unfold end_irob_msg, end_msg. simpl.
  rewrite El. unfold wire_cut. rewrite total_len_wire, all_chunked_total, length_fmap by done.
  assert (expected_bytes p = num_bytes p) as ->; [|done].
  unfold expected_bytes. pose proof (so_bound p Hok). rewrite (so_num p Hok) in *.
  apply sum_chunks_total; [apply (layout_ok _ _ _ (so_app p Hok))|lia].
Qed.

Lemma sent_says id p labels c data :
  send_labels (sbase p) = Some labels -> c ∈ sent_chunks p ->
  data = slice (ch_offset c) (ch_datalen c) (app_data p) ->
  says id p (Msg (Hdr (htons CMM_CONTROL_MSG_IROB_CHUNK) (htonl labels)
    (OpIrobChunk (htonl id) (htonl (ch_seqno c)) (htonl (ch_offset c)) (htonl (ch_datalen c)))) [] data).
Proof.
  intros El Hc ->. right; left. exists (wire_chunk p c). split; [by apply list_elem_of_fmap_2|].
  unfold chunk_msg. simpl. by rewrite El.
Qed.

(** What [get_ready_bytes] hands out, as a message. *)
Lemma ready_says lo hi id p csock n now rb q :
  entry_ok lo hi id p -> n < 2 ^ 63 -> get_ready_bytes p csock n now = Ret (rb, q) ->
  improves p q /\
  (rb_len rb <> 0 \/ rb_data rb <> [] -> forall labels, send_labels (sbase p) = Some labels ->
   says id q (irob_chunk_msg id labels rb)).
Proof.
  intros He Hn E. destruct (get_ready_bytes_ok p csock n now (en_ok _ _ _ _ He) Hn)
    as (rb' & q' & E' & Hok & Eb & [new Es] & Hd & Hl & _). rewrite E in E'. injection E' as <- <-.
  split; [by apply improves_cut; [apply He| |exists new|]|]. intros Hne labels El.
  destruct Hl as [[H1 H2]|(s & Hs & Eseq & Eo & Elen)]; [by destruct Hne|].
  unfold irob_chunk_msg. rewrite <- Eseq, <- Eo, <- Elen. apply sent_says.
  - by rewrite Eb.
  - by eapply list_elem_of_lookup_2.
  - rewrite mjoin_concat, Hd. unfold app_data. by rewrite Eb, Eo, Elen.
Qed.

(** The chunk a connection sent last, sent once more. *)
Lemma last_sent_says lo hi id p csock c data labels :
  entry_ok lo hi id p -> send_labels (sbase p) = Some labels ->
  get_last_sent_chunk_htonl p csock = Ret (Some (c, data)) ->
  says id p (Msg (Hdr (htons CMM_CONTROL_MSG_IROB_CHUNK) (htonl labels)
    (OpIrobChunk (ch_id c) (ch_seqno c) (ch_offset c) (ch_datalen c))) [] (mjoin data)).
Proof.
  intros [Hok Eid _ _ _] El. unfold get_last_sent_chunk_htonl. intros E.
  apply bind_ret_inv in E as (n & En & E).
  destruct (_ || _); [done|]. apply bind_ret_inv in E as (s & Es & E).
  destruct (sent_chunks p !! Z.to_nat (to_int n - 1)) as [s'|] eqn:Hs; [|done]. injection Es as <-.
  apply bind_ret_inv in E as ([len d] & Ed & E). injection E as <- <-. cbn [ch_id ch_seqno ch_offset ch_datalen].
  pose proof (list_elem_of_lookup_2 _ _ _ Hs) as Hin. pose proof Hok as [Ha Hz Hn Hb Hse Hsp Hid Hsl _ _].
  rewrite Forall_forall in Hid, Hsp. rewrite (Hid s' Hin), Eid. apply sent_says; [done|done|].
  destruct (layout_lookup _ _ _ _ _ Hse Hs) as (_ & Eo & _). pose proof (Hsp s' Hin).
  pose proof (layout_end _ _ _ _ _ Hse Hs).
  pose proof (total_len_nonneg _ (Forall_take _ (Z.to_nat (to_int n - 1)) _ (layout_ok _ _ _ Hse))).
  simpl in *. rewrite to_long_small in Ed by lia.
  destruct (get_bytes_internal_spec p (ch_offset s') (ch_datalen s') Hok) as (m & d' & E' & Hd & _ & Hm);
    [lia|lia|eauto|]. rewrite Ed in E'. injection E' as <- <-. by rewrite mjoin_concat, Hd, (Hm _ _ Hs eq_refl).
Qed.

(** The chunk that goes with a data check. *)
Lemma data_check_says lo hi io cs id p labels msgs q :
  entry_ok lo hi id p -> send_labels (sbase p) = Some labels ->
  data_check_chunk io cs id labels p = Ret (msgs, q) ->
  improves p q /\ Forall (says id q) msgs.
Proof.
  intros He El E. unfold data_check_chunk in E. apply bind_ret_inv in E as ([rb p'] & Er & E).
  destruct (ready_says lo hi id p (Some cs) MIN_CHUNKSIZE (io_now io) rb p' He ltac:(done) Er) as [Hi Hs].
  pose proof (entry_improves _ _ _ _ _ He Hi) as He'.
  assert (send_labels (sbase p') = Some labels) as El' by (by rewrite (ev_labels _ _ (im_evolves _ _ Hi))).
  destruct (rb_data rb) as [|d ds] eqn:Ed.
  - apply bind_ret_inv in E as (last & Elast & E). injection E as <- <-. split; [done|].
    destruct last as [[c [|d ds]]|]; try constructor; [|constructor].
    by eapply last_sent_says.
  - injection E as <- <-. split; [done|]. constructor; [|constructor]. apply Hs; [by right|done].
Qed.

Section thread.
Context {IS I : Type} `{!IdSet IS} `{!IdSetLaws IS} `{!InstrumentsChooser I} {NE : NetEstimates}.
Context (lo hi : Z).
Context (Hlo : 0 <= lo) (Hhi : hi <= 2 ^ 63) (Hwin : hi - lo < 2 ^ 31).
Context (k : kernel) (io : sender_io) (cs : Z).
Abbreviation SK := (CMMSocketImpl IS I).
Abbreviation ST := (sender_thread IS I).
Abbreviation out_inv := (out_inv lo hi).
Abbreviation rely := (rely lo hi).
Abbreviation in_window := (in_window lo hi).
Implicit Types (s : SK) (st : ST) (b : book) (data : IROBSchedulingData).


Record thread_inv b st : Prop := {
  th_out : out_inv b (st_sk st);
  th_others : Forall rely (others st);
  th_sent : Forall (truthful b) (sent st)
}.
Abbreviation safe m := (wp thread_inv m (fun _ _ _ => True)).

Lemma sent_le b b' l :
  book_ok lo hi b -> book_ok lo hi b' -> book_le b b' ->
  Forall (truthful b) l -> Forall (truthful b') l.
Proof.
  intros Hb Hb' Hle Hl. eapply Forall_impl; [done|]. intros m. by apply (truthful_le lo hi).
Qed.

(** ** Steps *)

Lemma with_sk_self st : with_sk (st_sk st) st = st.
Proof. by destruct st. Qed.

Lemma wp_on_sk {A} (m : M SK A) Q b st :
  wp out_inv m (fun b' a s' => Q b' a (with_sk s' st)) b (st_sk st) -> wp thread_inv (on_sk m) Q b st.
Proof.
  intros H. eapply wp_mono; [apply (wp_zoom out_inv thread_inv); [..|exact H]|].
  - by intros g s [].
  - intros g g' s t Hle [H1 H2 H3] Ht. split; simpl; [done|done|].
    apply (sent_le g); [apply H1|apply Ht|done|done].
  - intros g' a s' _ _ (t & -> & K). exact K.
Qed.

Lemma wp_on_get Q b st : Q b (st_sk st) st -> wp thread_inv (on_sk get) Q b st.
Proof. intros H. apply wp_on_sk, wp_get. by rewrite with_sk_self. Qed.

Lemma wp_quiet {A} (m : M SK A) Q b st :
  keeps (same_out lo hi) m -> (forall a st', Q b a st') -> wp thread_inv (on_sk m) Q b st.
Proof. intros Hm HQ. apply wp_on_sk, quiet_step; [done|]. auto. Qed.

Lemma wp_on_keeps {A} (m : M SK A) Q b st :
  keeps out_inv m -> (forall b' a st', book_le b b' -> Q b' a st') -> wp thread_inv (on_sk m) Q b st.
Proof. intros Hm HQ. apply wp_on_sk. eapply keeps_wp; [done|]. auto. Qed.

Lemma safe_unlocked : keeps thread_inv (unlocked (IS:=IS) (I:=I)).
Proof.
  apply keeps_modify. intros b st [H1 H2 H3]. destruct (others st) as [|f fs] eqn:E.
  - exists b. split; [done|]. split; [done|by rewrite E|done].
  - apply Forall_cons in H2 as [Hf Hfs]. destruct (Hf b _ H1) as (b' & Hle & H'). exists b'.
    split; [done|]. split; simpl; try done. apply (sent_le b); [apply H1|apply H'|done|done].
Qed.

Lemma wp_unlocked Q b st :
  (forall b' st', book_le b b' -> thread_inv b' st' -> Q b' tt st') -> wp thread_inv unlocked Q b st.
Proof. intros HQ. eapply keeps_wp; [apply safe_unlocked|]. intros b' [] st' ? ?. auto. Qed.

(** A write of truthful messages. *)
Lemma wp_write msgs Q b st :
  Forall (truthful b) msgs -> (forall b' ok st', book_le b b' -> Q b' ok st') ->
  wp thread_inv (write msgs) Q b st.
Proof.
  intros Hm HQ. unfold write. apply wp_inv. intros H0.
  apply wp_bind, wp_unlocked. intros b1 st1 Hle1 H1. apply wp_bind, wp_get.
  assert (Forall (truthful b1) msgs) as Hm1.
  { apply (sent_le b); [apply H0|apply H1|done|done]. }
  assert (forall l ok ws, Forall (truthful b1) l ->
    wp thread_inv (modify (fun st => Thread (st_sk st) (others st) ws (sent st ++ l) (trickling st));;
                   unlocked;; mret ok) Q b1 st1) as K.
  { intros l ok ws Hl. apply wp_bind, wp_modify. intros [? ? ?]. exists b1.
    split_and!; [done|split; simpl; [done|done|by apply Forall_app]|].
    apply wp_bind, wp_unlocked. intros b2 st2 Hle2 _. apply wp_ret, HQ. by etrans. }
  destruct (writes st1) as [|[|n] ws]; apply K; try done. by apply Forall_take.
Qed.

(** ** Finding an IROB *)

Definition current b st id p : Prop :=
  find_locked id (outgoing_irobs (st_sk st)) = Some (SenderIrob p) /\ entry_ok lo hi id p /\
  b !! id = Some p.

Lemma wp_find_sender id Q b st :
  begun b id -> (forall (o : option PendingSenderIROB), (forall p, o = Some p -> current b st id p) -> Q b o st) ->
  wp thread_inv (find_sender id) Q b st.
Proof.
  intros Hk HQ. apply wp_inv. intros H. apply wp_on_sk, wp_gets. rewrite with_sk_self. apply HQ.
  intros p Hp. unfold sender_find in Hp.
  destruct (find_locked id (outgoing_irobs (st_sk st))) as [[c|p']|] eqn:E; try done.
  simpl in Hp. injection Hp as ->. pose proof H as [Ho _ _].
  destruct (out_find lo hi Hwin b (st_sk st) id p Ho) as [? ?]; [|done|done].
  apply (begun_window lo hi b); [apply Ho|done].
Qed.

Lemma wp_get_sender_in id Q b st :
  in_window id -> (forall p, current b st id p -> Q b p st) -> wp thread_inv (get_sender id) Q b st.
Proof.
  intros Hk HQ. apply wp_inv. intros H. apply wp_on_sk, wp_bind, wp_get, wp_lift. intros p Hp.
  rewrite with_sk_self. apply HQ. unfold the_sender, sender_find in Hp.
  destruct (find_locked id (outgoing_irobs (st_sk st))) as [[c|p']|] eqn:E; try done.
  simpl in Hp. injection Hp as ->. pose proof H as [Ho _ _].
  by destruct (out_find lo hi Hwin b (st_sk st) id p Ho).
Qed.
Lemma wp_get_sender id Q b st :
  begun b id -> (forall p, current b st id p -> Q b p st) -> wp thread_inv (get_sender id) Q b st.
Proof.
  intros Hk HQ. apply wp_inv. intros [Ho _ _]. apply wp_get_sender_in; [|done].
  apply (begun_window lo hi b); [apply Ho|done].
Qed.

(** The labels of an IROB. *)
Lemma wp_labels p Q b st :
  (forall labels, send_labels (sbase p) = Some labels -> Q b labels st) ->
  wp thread_inv (lift (get_send_labels (sbase p))) Q b st.
Proof.
  intros HQ. apply wp_lift. intros l. unfold get_send_labels.
  destruct (send_labels _) as [l'|] eqn:E; [|done]. intros [= <-]. auto.
Qed.

(** The object is replaced by a better one. *)
Lemma wp_improve id p q Q b st :
  current b st id p -> improves p q ->
  (forall b' st', book_le b b' -> b' !! id = Some q -> Q b' tt st') ->
  wp thread_inv (on_sk (modify (upd_sender id (fun _ => q)))) Q b st.
Proof.
  intros (E & He & Hp) Hi HQ. apply wp_on_sk.
  eapply (wp_set_sender lo hi Hwin); [apply He|exact E|done|]. auto.
Qed.

Lemma wp_csock_request_on h ty data Q b st :
  request_ok b ty data -> (forall st', Q b tt st') ->
  wp thread_inv (csock_request h ty data) Q b st.
Proof.
  intros Hd HQ. apply wp_on_sk, wp_bind. eapply quiet_step; [apply quiet_deref|]. intros c s' _ _.
  apply wp_csock_request; [done|]. auto.
Qed.

Lemma wp_schedule_on ty data Q b st :
  request_ok b ty data -> (forall st', Q b tt st') -> wp thread_inv (on_sk (schedule ty data)) Q b st.
Proof. intros Hd HQ. apply wp_on_sk, wp_schedule; auto. Qed.

Lemma wp_write_failed {A} ty data (Q : book -> A -> ST -> Prop) b st :
  request_ok b ty data -> wp thread_inv (write_failed ty data) Q b st.
Proof. intros Hd. apply wp_bind, wp_schedule_on; [done|]. intros. apply wp_throw. Qed.

Lemma wp_my_csock Q b st : (forall c, Q b c st) -> wp thread_inv (my_csock cs) Q b st.
Proof.
  intros HQ. apply wp_on_sk. intros H. exists b. split_and!; [done|done|]. intros c _.
  simpl. rewrite with_sk_self. auto.
Qed.

(** ** Indexes *)

Lemma wp_get_indexes w Q b st :
  (forall x, requests_ok b x -> Q b x st) -> wp thread_inv (get_indexes w) Q b st.
Proof.
  intros HQ. apply wp_inv. intros [[_ _ Hr Hc] _ _]. destruct w as [h|]; simpl.
  - apply wp_bind. apply wp_on_sk. intros H. exists b. split_and!; [done|done|].
    unfold deref. simpl. destruct (sk_csocks (st_sk st) !! h) as [c|] eqn:E; [|done].
    intros c' [= <-]. rewrite with_sk_self. apply wp_ret, HQ. by eapply Hc.
  - apply wp_on_sk, wp_gets. rewrite with_sk_self. by apply HQ.
Qed.

Lemma wp_upd_indexes w f Q b st :
  (forall x, requests_ok b x -> requests_ok b (f x)) -> (forall st', Q b tt st') ->
  wp thread_inv (upd_indexes w f) Q b st.
Proof.
  intros Hf HQ. destruct w as [h|]; apply wp_on_sk, wp_modify; intros H; exists b;
    (split_and!; [done| |apply HQ]); [by apply out_csock; [|intros c; apply Hf]|by apply out_indexes].
Qed.

Lemma wp_insert_index w ty data Q b st :
  request_ok b ty data -> (forall st', Q b tt st') ->
  wp thread_inv (upd_indexes w (index_insert ty data)) Q b st.
Proof. intros Hd HQ. apply wp_upd_indexes; [|done]. intros x Hx. by apply requests_insert. Qed.

Lemma wp_pop w ty Q b st :
  (forall (d : option IROBSchedulingData) st', (forall data, d = Some data -> request_ok b ty data) -> Q b d st') ->
  wp thread_inv (pop_index w ty) Q b st.
Proof.
  intros HQ. apply wp_bind, wp_get_indexes. intros x Hx. pose proof (Hx ty) as Ht.
  destruct (index_get ty x) as [|d rest] eqn:E; simpl; [by apply wp_ret, HQ|].
  apply Forall_cons in Ht as [Hd Hrest]. apply wp_bind, wp_upd_indexes.
  - intros y Hy. by apply requests_upd.
  - intros st'. apply wp_ret, HQ. by intros ? [= <-].
Qed.

Lemma wp_remove w ty id Q b st :
  (forall (d : option IROBSchedulingData) st', (forall data, d = Some data -> request_ok b ty data) -> Q b d st') ->
  wp thread_inv (remove_index w ty id) Q b st.
Proof.
  intros HQ. apply wp_bind, wp_get_indexes. intros x Hx. pose proof (Hx ty) as Ht.
  unfold PrioritySet.remove. destruct (OrdSet.find _ _ _) as [d|] eqn:E; [|by apply wp_ret, HQ].
  apply OrdSet.find_Some in E as [Hin _]. rewrite Forall_forall in Ht.
  apply wp_bind, wp_upd_indexes.
  - intros y Hy. apply requests_upd; [done|]. apply Forall_forall. intros e He%erase_found_elem. by apply Ht.
  - intros st'. apply wp_ret, HQ. intros ? [= <-]. by apply Ht.
Qed.

Lemma safe_set_busy v : keeps thread_inv (set_busy cs v).
Proof.
  intros b st. apply wp_on_sk, wp_modify. intros H. exists b. split_and!; [done| |done].
  by apply out_csock.
Qed.

Lemma wp_set_busy v Q b st : (forall b' st', book_le b b' -> Q b' tt st') -> wp thread_inv (set_busy cs v) Q b st.
Proof. intros HQ. eapply keeps_wp; [apply safe_set_busy|]. intros b' [] st' ? _. auto. Qed.

(** ** Choosing the connection *)

Lemma wp_window id b st m Q :
  begun b id -> (in_window id -> wp thread_inv m Q b st) -> wp (A:=unit) thread_inv m Q b st.
Proof.
  intros Hk Hm. apply wp_inv. intros [[Hb _ _ _] _ _]. apply Hm. by apply (begun_window lo hi b).
Qed.

Lemma wp_mark_sent id Q b st :
  begun b id -> (forall b' st', book_le b b' -> Q b' tt st') -> wp thread_inv (mark_sent cs id) Q b st.
Proof.
  intros Hk HQ. apply (wp_window id); [done|]. intros Hid. apply wp_bind, wp_my_csock. intros c.
  apply wp_on_keeps; [|by intros ? [] ?; apply HQ].
  apply keeps_upd_sender; [done|done|]. intros p He. by apply improves_fields, He.
Qed.

Lemma wp_cs_matches labels n Q b st :
  (forall v st', Q b v st') -> wp thread_inv (cs_matches cs labels n) Q b st.
Proof. intros HQ. apply wp_bind, wp_my_csock. intros c. apply wp_quiet; [auto with quiet|done]. Qed.

Lemma wp_is_fg Q b st : (forall v st', Q b v st') -> wp thread_inv (is_fg cs) Q b st.
Proof.
  intros HQ. apply wp_bind, wp_cs_matches. intros [] st'; [by apply wp_ret|by apply wp_cs_matches].
Qed.

Lemma wp_find_match labels n Q b st :
  (forall h st', Q b h st') -> wp thread_inv (find_match k labels n) Q b st.
Proof. intros HQ. apply wp_quiet; [|done]. quiet_go. Qed.

Lemma wp_drop id Q b st :
  begun b id -> (forall b' st', book_le b b' -> Q b' tt st') -> wp thread_inv (drop_irob id) Q b st.
Proof.
  intros Hk HQ. apply (wp_window id); [done|]. intros Hid.
  apply wp_on_keeps; [by apply keeps_drop|]. intros b' [] st'. apply HQ.
Qed.

Lemma wp_set_status id z Q b st :
  begun b id -> (forall b' st', book_le b b' -> Q b' tt st') -> wp thread_inv (set_irob_status id z) Q b st.
Proof.
  intros Hk HQ. apply (wp_window id); [done|]. intros Hid.
  apply wp_on_keeps; [|by intros b' [] st'; apply HQ]. apply keeps_update; [done|done| |].
  - intros p He. eexists. split; [done|]. by apply improves_base, He.
  - intros c. by eexists.
Qed.

Lemma safe_no_match id labels red data b st :
  begun b id -> sd_id data = id -> safe (no_match io cs id labels red data) b st.
Proof.
  intros Hk Ed. apply wp_bind, wp_get_sender; [done|]. intros p Hp. apply wp_bind, wp_my_csock. intros c.
  destruct (fits_net_restriction labels c); simpl.
  2:{ apply wp_bind, wp_set_status; [done|]. intros b' st' Hle. apply wp_bind.
      destruct (complete _); simpl; [|by apply wp_ret, wp_ret].
      apply wp_drop; [by eapply begun_le|]. intros. by apply wp_ret. }
  destruct (has_bits labels _); [by apply wp_ret|]. destruct red; [by apply wp_ret|].
  destruct (complete _); simpl; [apply wp_bind, wp_drop; [done|]; intros; by apply wp_ret|].
  destruct (resume_handler p) as [fn|]; apply wp_bind, wp_bind, wp_quiet; auto with quiet; intros _ st';
    apply wp_set_status; try done; intros; by apply wp_ret.
Qed.

Lemma request_kind b ty data :
  ty <> FINISHED_IROBS -> begun b (sd_id data) -> request_ok b ty data.
Proof. by destruct ty. Qed.

Lemma safe_pass_on h labels red data b st :
  begun b (sd_id data) -> safe (pass_on cs h labels red data) b st.
Proof.
  intros Hk. apply wp_bind, wp_my_csock. intros c. apply wp_bind, wp_quiet; [apply quiet_deref|]. intros m st'.
  destruct (_ && _); [|by apply wp_ret]. apply wp_bind.
  destruct (sd_data_check data); [|destruct (negb _)];
    (apply wp_csock_request_on; [by apply request_kind|]); intros; by apply wp_ret.
Qed.

Lemma safe_delegate data b st :
  begun b (sd_id data) -> safe (delegate_if_necessary k io cs (sd_id data) data) b st.
Proof.
  intros Hk. apply wp_bind, wp_on_get. destruct (sender_find _ _) as [o|]; [|by apply wp_ret].
  apply wp_bind, wp_lift. intros labels _. apply wp_bind, wp_get_sender; [done|]. intros p Hp.
  apply wp_bind, wp_unlocked. intros b1 st1 Hle1 _. assert (begun b1 (sd_id data)) as Hk1 by by eapply begun_le.
  apply wp_bind, wp_cs_matches. intros [] st2.
  - apply wp_bind, wp_unlocked. intros b2 st3 Hle2 _. assert (begun b2 (sd_id data)) as Hk2 by by eapply begun_le.
    apply wp_bind, wp_on_get. destruct (sender_find _ _); [|by apply wp_ret].
    apply wp_bind, wp_get_sender; [done|]. intros q Hq. apply wp_bind.
    destruct (should_send_on_all_networks p); [|by apply wp_ret, wp_ret].
    apply wp_on_sk, wp_pass_request; [done|]. intros. by apply wp_ret.
  - apply wp_bind, wp_find_match. intros h st3. apply wp_bind, wp_unlocked. intros b2 st4 Hle2 _.
    assert (begun b2 (sd_id data)) as Hk2 by by eapply begun_le.
    apply wp_bind, wp_on_get. destruct (sender_find _ _); [|by apply wp_ret].
    destruct h as [h|]; [|by apply safe_no_match]. apply wp_bind, wp_get_sender; [done|]. intros q Hq.
    by apply safe_pass_on.
Qed.

(** ** Sending *)

Lemma truth_of b id p m : b !! id = Some p -> says id p m -> truthful b m.
Proof. intros Hp Hs _. eauto. Qed.

(** What was true, and what was asked for, stays so. *)
Lemma true_later b b' st st' l :
  thread_inv b st -> thread_inv b' st' -> book_le b b' ->
  Forall (truthful b) l -> Forall (truthful b') l.
Proof. intros [[] _ _] [[] _ _]. by apply sent_le. Qed.

Lemma request_later b b' st st' ty d :
  thread_inv b st -> thread_inv b' st' -> book_le b b' -> request_ok b ty d -> request_ok b' ty d.
Proof. intros [[] _ _] [[] _ _]. by apply (request_ok_le lo hi). Qed.

(** Mark the IROB as sent here, write about it, and ask again when that fails. *)
Lemma safe_send {A} id msgs (f : bool -> M ST A) b st :
  begun b id -> Forall (truthful b) msgs ->
  (forall b' ok st', book_le b b' -> thread_inv b' st' -> safe (f ok) b' st') ->
  safe (mark_sent cs id;; ok ← write msgs; f ok) b st.
Proof.
  intros Hk Hm Hf. apply wp_inv. intros H0. apply wp_bind, wp_mark_sent; [done|]. intros b1 st1 Hle1.
  apply wp_inv. intros H1. apply wp_bind, wp_write; [by apply (true_later b b1 st st1)|].
  intros b2 ok st2 Hle2. apply wp_inv. intros H2. apply Hf; [by etrans|done].
Qed.

Lemma safe_end_irob data b st :
  finished_in b (sd_id data) -> safe (end_irob cs data) b st.
Proof.
  intros Hf. pose proof Hf as (p & Hp & Hcut). assert (begun b (sd_id data)) as Hk by by exists p.
  apply wp_bind, wp_on_get. destruct (sender_find _ _); [|by apply wp_ret].
  apply wp_bind, wp_get_sender; [done|]. intros p' (_ & He & Hp'). rewrite Hp in Hp'. injection Hp' as <-.
  apply wp_bind, wp_labels. intros labels El. apply wp_inv. intros H0. apply safe_send; [done| |].
  - apply Forall_singleton. eapply truth_of; [exact Hp|]. apply end_says; [done|apply He|done].
  - intros b2 [] st2 Hle H2; [by apply wp_ret|]. apply wp_write_failed.
    by apply (request_later b b2 st st2 FINISHED_IROBS data).
Qed.

(** ** Begin_IROB *)

Lemma all_true b id p l : b !! id = Some p -> Forall (says id p) l -> Forall (truthful b) l.
Proof. intros Hp Hl. eapply Forall_impl; [done|]. intros m. by apply truth_of. Qed.

Lemma expected_small p : sender_ok p -> expected_bytes p < 2 ^ 63.
Proof.
  intros Hok. unfold expected_bytes. pose proof (so_bound p Hok) as Hb. rewrite (so_num p Hok) in Hb.
  rewrite sum_chunks_total; [lia|apply (layout_ok _ _ _ (so_app p Hok))|lia].
Qed.

Lemma wp_small_irob id labels p Q b st :
  current b st id p -> send_labels (sbase p) = Some labels ->
  (forall b' l st', book_le b b' -> Forall (truthful b') l -> Q b' l st') ->
  wp thread_inv (small_irob_msgs io cs id labels p) Q b st.
Proof.
  intros Hc El HQ. unfold small_irob_msgs.
  destruct (sends_everything cs labels p) eqn:Es; [|apply wp_ret, HQ; [done|constructor]].
  pose proof Hc as (_ & He & Hp). apply wp_bind, wp_lift. intros [rb q] Er.
  destruct (ready_says lo hi id p (Some cs) _ _ rb q He (expected_small p (en_ok _ _ _ _ He)) Er) as [Hi Hs].
  pose proof (entry_improves _ _ _ _ _ He Hi) as Heq.
  apply wp_bind, (wp_improve id p); [done|done|]. intros b1 st1 Hle1 Hq. apply wp_bind.
  destruct (Z.ltb_spec 0 (rb_len rb)) as [Hpos|_].
  - apply wp_bind, wp_quiet; [auto with quiet|]. intros _ st2. apply wp_ret.
    apply wp_bind, wp_lift. intros [] Ha%assert_inv. apply wp_ret, HQ; [done|].
    apply (all_true b1 id q); [done|]. constructor; [apply Hs; [left; lia|done]|apply Forall_singleton].
    apply end_says; [|apply Heq|].
    + by rewrite (ev_labels _ _ (im_evolves _ _ Hi)).
    + split; [|done]. unfold sends_everything in Es. destruct (complete (sbase p)) eqn:Ecp; [|done].
      by destruct (ev_complete _ _ (im_evolves _ _ Hi) Ecp).
  - apply wp_ret, wp_bind, wp_lift. intros [] _. apply wp_ret, HQ; [done|constructor].
Qed.

Lemma safe_begin_written id sent_all data b st :
  begun b id -> sd_id data = id -> safe (begin_irob_written cs id sent_all data) b st.
Proof.
  intros Hk Ed. apply wp_bind, wp_find_sender; [done|]. intros [p|] Hp; [|by apply wp_ret].
  destruct (Hp p eq_refl) as (_ & He & _).
  apply wp_bind, wp_on_keeps.
  { apply keeps_upd_sender; [done|apply He|]. intros q Hq. by apply improves_fields, Hq. }
  intros b1 _ st1 Hle1. destruct sent_all; unfold when.
  - destruct (_ && _); [|by apply wp_ret]. apply wp_on_keeps; [|done].
    apply keeps_upd_sender; [done|apply He|]. intros q Hq. by apply improves_fields, Hq.
  - destruct (_ || _); [|by apply wp_ret]. apply wp_csock_request_on; [|done].
    by apply request_kind; [|eapply begun_le].
Qed.

Lemma safe_begin_here data b st :
  begun b (sd_id data) -> safe (begin_irob_here io cs (sd_id data) data) b st.
Proof.
  intros Hk. apply wp_bind, wp_get_sender; [done|]. intros p Hp.
  apply wp_bind, wp_labels. intros labels El. pose proof Hp as (_ & He & Hpb). apply wp_inv. intros H0.
  apply wp_bind, (wp_small_irob _ _ p); [done|done|]. intros b1 l st1 Hle1 Hl. apply wp_inv. intros H1.
  apply safe_send; [by eapply begun_le| |].
  - constructor; [|done]. apply (true_later b b1 st st1 [begin_irob_msg (sd_id data) labels
      (copy_deps_htonl (sbase p))]) in Hle1; try done; [by apply Forall_cons in Hle1 as [? _]|].
    apply (all_true b (sd_id data) p); [done|]. apply Forall_singleton. by apply begin_says.
  - intros b2 ok st2 Hle2 H2. assert (begun b2 (sd_id data)) as Hk2 by (eapply begun_le; [|exact Hk]; by etrans).
    destruct ok; [by apply safe_begin_written|]. by apply wp_write_failed.
Qed.

(** ** Trickling *)

(** The size it gives is a [ssize_t]. *)
Lemma wp_okay_bg (Q : book -> option Z -> ST -> Prop) b st :
  (forall n st', (forall z, n = Some z -> z < 2 ^ 63) -> Q b n st') ->
  wp thread_inv (okay_to_send_bg io cs) Q b st.
Proof.
  intros HQ. apply wp_bind, wp_my_csock. intros c. apply wp_bind, wp_lift. intros since _.
  set (x := if 5 <? tv_sec since then cs_bandwidth io c else trickle_chunksize io c).
  cbv zeta. destruct (_ || _).
  - apply wp_bind, wp_modify. intros [? ? ?]. exists b. split_and!; [done|by split|]. by apply wp_ret, HQ.
  - apply wp_ret, HQ. intros z [= <-].
    unfold wrap_s. pose proof (Z.mod_pos_bound (x + 2 ^ (64 - 1)) (2 ^ 64) ltac:(lia)).
    unfold MIN_CHUNKSIZE. lia.
Qed.

Lemma safe_begin_irob data b st :
  begun b (sd_id data) -> safe (begin_irob k io cs data) b st.
Proof.
  intros Hk. apply wp_bind, wp_on_get. destruct (sender_find _ _); [|by apply wp_ret].
  apply wp_bind, wp_get_sender; [done|]. intros p _. apply wp_bind, wp_labels. intros labels _.
  apply wp_bind, wp_my_csock. intros c.
  assert (forall b st, begun b (sd_id data) -> safe (gone ← delegate_if_necessary k io cs (sd_id data) data;
     if (gone : bool) then mret true else begin_irob_here io cs (sd_id data) data;; mret true) b st) as Hrest.
  { intros b0 st0 Hk0. eapply wp_step; [by apply safe_delegate|]. intros b' [] st' Hle _ _; [by apply wp_ret|].
    eapply wp_step; [apply safe_begin_here; by eapply begun_le|]. intros. by apply wp_ret. }
  apply wp_bind.
  assert (forall b st, begun b (sd_id data) ->
    safe (p ← get_sender (sd_id data);
      if was_announced p (Some cs) then begin_irob_here io cs (sd_id data) data;; mret true
      else
        wait ← (if has_bits (sd_send_labels data) CMM_LABEL_BACKGROUND then
                  unlocked;; fg ← is_fg cs; unlocked;;
                  if (fg : bool) then ok ← okay_to_send_bg io cs; mret (bool_decide (ok = None))
                  else mret false
                else mret false);
        if (wait : bool) then mret false
        else gone ← delegate_if_necessary k io cs (sd_id data) data;
             if (gone : bool) then mret true else begin_irob_here io cs (sd_id data) data;; mret true) b st) as Hmain.
  { intros b0 st0 Hk0. apply wp_bind, wp_get_sender; [done|]. intros q _.
    destruct (was_announced q _).
    { eapply wp_step; [by apply safe_begin_here|]. intros. by apply wp_ret. }
    apply wp_bind. destruct (has_bits (sd_send_labels data) _); [|by apply wp_ret, Hrest].
    apply wp_bind, wp_unlocked. intros b1 st1 Hle1 _. apply wp_bind, wp_is_fg. intros fg st2.
    apply wp_bind, wp_unlocked. intros b2 st3 Hle2 _.
    assert (begun b2 (sd_id data)) as Hk2 by (eapply begun_le; [|exact Hk0]; by etrans).
    destruct fg; [|by apply wp_ret, Hrest]. apply wp_bind, wp_okay_bg. intros n st4 _. apply wp_ret.
    destruct (bool_decide _); [by apply wp_ret|by apply Hrest]. }
  destruct (fits_net_restriction labels c); simpl; [by apply wp_ret, Hmain|].
  eapply wp_mono; [by apply safe_delegate|]. intros b' [] st' Hle _ _; [by apply wp_ret|].
  apply Hmain. by eapply begun_le.
Qed.

(** ** IROB_chunk *)

Lemma wp_chunksize data (Q : book -> option Z -> ST -> Prop) b st :
  begun b (sd_id data) ->
  (forall b' n st', book_le b b' -> (forall z, n = Some z -> z < 2 ^ 63) -> Q b' n st') ->
  wp thread_inv (choose_chunksize io cs data) Q b st.
Proof.
  intros Hk HQ.
  assert (forall b' n st', book_le b b' -> (forall z, n = Some z -> z < 2 ^ 63) ->
    wp thread_inv (s ← on_sk get; mret (if 1 <? csock_count s then Z.min base_chunksize <$> n else n)) Q b' st') as K.
  { intros b' n st' Hle Hn. apply wp_bind, wp_on_get, wp_ret, HQ; [done|]. intros z.
    destruct (1 <? _); [|auto]. destruct n as [m|]; [|done]. simpl. intros [= <-].
    pose proof (Hn m eq_refl). lia. }
  assert (forall z, Some base_chunksize = Some z -> z < 2 ^ 63) as Hb by (intros z [= <-]; done).
  apply wp_bind. destruct (has_bits _ _); [|by apply wp_ret, K].
  apply wp_bind, wp_unlocked. intros b1 st1 Hle1 _. apply wp_bind, wp_is_fg. intros fg st2.
  apply wp_bind, wp_cs_matches. intros best st3. apply wp_bind, wp_unlocked. intros b2 st4 Hle2 _.
  assert (book_le b b2) by by etrans.
  destruct (_ || _); [|by apply wp_ret, K]. apply wp_okay_bg. intros n st5 Hn. by apply K.
Qed.

Lemma safe_chunk_written id labels data b st :
  begun b id -> sd_id data = id -> safe (irob_chunk_written cs id labels data) b st.
Proof.
  intros Hk Ed. apply wp_bind, wp_find_sender; [done|]. intros [p|] Hp; [|by apply wp_ret].
  destruct (Hp p eq_refl) as (_ & He & Hpb).
  assert (forall st, safe (s ← on_sk get; when (negb (shared labels s)) (csock_request cs NEW_CHUNKS data)) b st) as K.
  { intros st0. apply wp_bind, wp_on_get. destruct (shared _ _); simpl; [by apply wp_ret|].
    apply wp_csock_request_on; [|done]. simpl. by rewrite Ed. }
  apply wp_bind. destruct (_ && _) eqn:E; unfold when; [|by apply wp_ret, K].
  apply andb_true_iff in E as [[E1 E2]%andb_true_iff _].
  apply wp_csock_request_on; [|intros; apply K]. by exists p.
Qed.

(** A message that is not about an IROB's data. *)
Lemma other_true b m : irob_message m = false -> truthful b m.
Proof. intros E H. congruence. Qed.

Lemma piggyback_true b ack : Forall (truthful b) (piggyback io ack).
Proof. destruct ack; [|constructor]. apply Forall_singleton. by apply other_true. Qed.

Lemma safe_chunk_here id ack n data b st :
  begun b id -> sd_id data = id -> n < 2 ^ 63 -> safe (irob_chunk_here io cs id ack n data) b st.
Proof.
  intros Hk Ed Hn. apply wp_bind, wp_get_sender; [done|]. intros p Hc. pose proof Hc as (_ & He & Hp).
  apply wp_bind, wp_labels. intros labels El. apply wp_bind, wp_lift. intros [rb q] Er.
  destruct (ready_says lo hi id p _ n _ rb q He Hn Er) as [Hi Hs].
  apply wp_bind, (wp_improve id p); [done|done|]. intros b1 st1 Hle1 Hq.
  destruct (Z.eqb_spec (rb_len rb) 0); [by apply wp_ret|].
  assert (begun b1 (sd_id data)) as Hk1 by (rewrite Ed; by eapply begun_le).
  apply wp_bind, wp_on_get, wp_bind.
  assert (forall st, safe (on_sk (update_net_restriction_stats cs labels (rb_len rb) 0);;
     mark_sent cs id;; ok ← write (piggyback io ack ++ [irob_chunk_msg id labels rb]);
     if (ok : bool) then irob_chunk_written cs id labels data
     else on_sk (schedule NEW_CHUNKS data);;
          match ack with
          | Some a => on_sk (schedule WAITING_ACKS (sched_chunks a false 0))
          | None => mret tt
          end;; throw ControlException) b1 st) as K.
  { intros st2. apply wp_bind, wp_quiet; [auto with quiet|]. intros _ st3. apply safe_send; [by eapply begun_le| |].
    - apply Forall_app. split; [apply piggyback_true|]. apply (all_true b1 id q); [done|].
      apply Forall_singleton. apply Hs; [by left|done].
    - intros b2 [] st4 Hle2 _; [apply safe_chunk_written; [|done]; rewrite <- Ed; by eapply begun_le|].
      apply wp_bind, wp_schedule_on; [apply request_kind; [done|by eapply begun_le]|]. intros st5.
      apply wp_bind. destruct ack as [a|]; [apply wp_schedule_on; [done|]; intros|apply wp_ret]; apply wp_throw. }
  destruct (shared labels _); unfold when; [|by apply wp_ret, K].
  apply wp_schedule_on; [by apply request_kind|]. intros; apply K.
Qed.

Lemma safe_irob_chunk data ack b st :
  begun b (sd_id data) -> safe (irob_chunk k io cs data ack) b st.
Proof.
  intros Hk. apply wp_bind, wp_chunksize; [done|]. intros b1 [n|] st1 Hle1 Hn; [|by apply wp_ret].
  assert (begun b1 (sd_id data)) as Hk1 by by eapply begun_le.
  eapply wp_step; [by apply safe_delegate|]. intros b2 [] st2 Hle2 _ _; [by apply wp_ret|].
  eapply wp_step; [apply safe_chunk_here; [by eapply begun_le|done|by apply Hn]|]. intros. by apply wp_ret.
Qed.

(** ** The other messages *)

Lemma wp_write_other {A} msgs (f : bool -> M ST A) b st :
  Forall (fun m => irob_message m = false) msgs ->
  (forall b' ok st', book_le b b' -> safe (f ok) b' st') -> safe (ok ← write msgs; f ok) b st.
Proof.
  intros Hm Hf. apply wp_bind, wp_write; [|done]. eapply Forall_impl; [done|]. intros m. apply other_true.
Qed.

Lemma keeps_frame_modify (f : SK -> SK) :
  (forall s, outgoing_irobs (f s) = outgoing_irobs s /\ irob_indexes (f s) = irob_indexes s /\
             sk_csocks (f s) = sk_csocks s) -> keeps thread_inv (on_sk (modify f)).
Proof. intros Hf b st. apply wp_quiet; [by apply quiet_frame|done]. Qed.
Ltac frame := apply keeps_frame_modify; intros; split_and!; reflexivity.

Lemma safe_pop_iface get_ifaces upd :
  (forall f s, outgoing_irobs (upd f s) = outgoing_irobs s /\ irob_indexes (upd f s) = irob_indexes s /\
               sk_csocks (upd f s) = sk_csocks s) ->
  keeps thread_inv (pop_iface (IS:=IS) (I:=I) get_ifaces upd).
Proof.
  intros Hu b st. apply wp_bind, wp_on_get. destruct (ifaces_of _); [by apply wp_ret|].
  eapply wp_keeps; [by apply keeps_frame_modify|]. intros. by apply wp_ret.
Qed.

Lemma safe_new_interface i : keeps thread_inv (new_interface (IS:=IS) (I:=I) i).
Proof.
  intros b st. apply wp_write_other; [by apply Forall_singleton|]. intros b' [] st' _; [by apply wp_ret|].
  eapply wp_keeps; [frame|]. intros. apply wp_throw.
Qed.

Lemma safe_down_interface i : keeps thread_inv (down_interface (IS:=IS) (I:=I) i).
Proof.
  intros b st. apply wp_write_other; [by apply Forall_singleton|]. intros b' [] st' _; [by apply wp_ret|].
  eapply wp_keeps; [frame|]. intros. apply wp_throw.
Qed.

Lemma safe_goodbye : keeps thread_inv (send_goodbye (IS:=IS) (I:=I)).
Proof.
  intros b st. apply wp_write_other; [by apply Forall_singleton|]. intros b' [] st' _; [frame|].
  eapply wp_keeps; [frame|]. intros. apply wp_throw.
Qed.

Lemma safe_send_acks data w : keeps thread_inv (send_acks io data w).
Proof.
  intros b st. apply wp_bind, wp_lift. intros srv _. apply wp_bind, wp_get_indexes. intros x _.
  apply wp_bind, wp_upd_indexes.
  { intros y Hy. apply requests_upd; [done|]. by apply Forall_forall. }
  intros st1. apply wp_write_other; [by apply Forall_singleton|]. intros b' [] st' _; [by apply wp_ret|].
  apply wp_bind, (wp_upd_indexes None); [|intros; apply wp_throw].
  intros y Hy. apply requests_upd; [done|]. by apply Forall_forall.
Qed.

Lemma safe_delegate_resend id (p : ReceiverIrob.PendingReceiverIROB) data :
  keeps thread_inv (delegate_resend_request_if_necessary k cs id p data).
Proof.
  intros b st. apply wp_bind, wp_lift. intros labels _. apply wp_bind, wp_my_csock. intros c.
  destruct (fits_net_restriction _ _); [by apply wp_ret|].
  apply wp_bind, wp_unlocked. intros b1 st1 _ _. apply wp_bind, wp_find_match. intros h st2.
  apply wp_bind, wp_unlocked. intros b2 st3 _ _. apply wp_bind, wp_on_get.
  destruct (rfind _ _); [destruct h as [h|]|]; [|by apply wp_ret..].
  apply wp_bind, wp_csock_request_on; [done|]. intros. by apply wp_ret.
Qed.

Lemma resend_other id ty n missing :
  Forall (fun m => irob_message m = false) (resend_msgs id ty n missing).
Proof.
  destruct missing as [|c l]; simpl; [by apply Forall_singleton|]. constructor; [done|].
  apply Forall_fmap, Forall_forall. done.
Qed.

Lemma safe_resend_request data : keeps thread_inv (resend_request k cs data).
Proof.
  intros b st. apply wp_bind, wp_on_get. cbv zeta. destruct (negb _); [by apply wp_ret|].
  apply wp_bind. eapply wp_mono with (Q := fun _ _ _ => True).
  { destruct (rfind _ _); [apply safe_delegate_resend|by apply wp_ret]. }
  intros b1 [] st1 _ _ _; [by apply wp_ret|]. apply wp_write_other; [apply resend_other|].
  intros b2 [] st2 _; [by apply wp_ret|]. by apply wp_write_failed.
Qed.

(** ** Data checks *)

Lemma safe_send_data_check data b st :
  begun b (sd_id data) -> safe (send_data_check k io cs data) b st.
Proof.
  intros Hk. apply wp_bind, wp_find_sender; [done|]. intros o Ho. apply wp_bind.
  eapply wp_mono with (Q := fun _ _ _ => True).
  { destruct o; [by apply safe_delegate|by apply wp_ret]. }
  intros b1 [] st1 Hle1 _ _; [by apply wp_ret|].
  assert (begun b1 (sd_id data)) as Hk1 by by eapply begun_le.
  apply wp_bind. eapply wp_mono with (Q := fun b' r _ => Forall (truthful b') r.1 /\ book_le b b').
  { destruct o as [p0|]; [|by apply wp_ret]. apply wp_bind, wp_get_sender; [done|].
    intros p Hc. pose proof Hc as (_ & He & Hp). apply wp_bind, wp_labels. intros labels El.
    apply wp_bind, wp_lift. intros [chunk q] Ed.
    destruct (data_check_says lo hi io cs _ p labels chunk q He El Ed) as [Hi Hs].
    pose proof (entry_improves _ _ _ _ _ He Hi) as Heq.
    assert (send_labels (sbase q) = Some labels) as El' by (by rewrite (ev_labels _ _ (im_evolves _ _ Hi))).
    apply wp_bind, (wp_improve (sd_id data) p); [done|done|]. intros b2 st2 Hle2 Hq. apply wp_inv. intros H2.
    apply wp_bind, wp_mark_sent; [by exists q|]. intros b3 st3 Hle3. apply wp_inv. intros H3. apply wp_ret.
    split; [|by repeat (etrans; [done|])]. apply (true_later b2 b3 st2 st3); [done..|].
    apply (all_true b2 (sd_id data) q); [done|]. constructor; [by apply begin_says|].
    apply Forall_app. split; [done|]. destruct (_ && _) eqn:Ecut; [|constructor].
    apply andb_true_iff in Ecut. apply Forall_singleton. by apply end_says; [|apply Heq|]. }
  intros b2 [msgs labels] st2 Hle2 _ [Hm Hle]. simpl in Hm. apply wp_bind, wp_write.
  - apply Forall_app. split; [done|]. apply Forall_singleton. by apply other_true.
  - intros b3 [] st3 Hle3; [by apply wp_ret|]. apply wp_write_failed. simpl.
    eapply begun_le; [|exact Hk1]. by etrans.
Qed.

(** ** The loops *)

Lemma safe_data_checks fuel w did : keeps thread_inv (data_check_loop k io cs fuel w did).
Proof.
  revert did. induction fuel as [|fuel IH]; intros did b st; simpl; [by apply wp_ret|].
  apply wp_bind, wp_pop. intros [data|] st1 Hd; [|by apply wp_ret].
  eapply wp_step; [apply safe_send_data_check; by apply Hd|]. intros. apply IH.
Qed.

Lemma safe_put_back w data ack b st :
  begun b (sd_id data) -> safe (put_back w data ack) b st.
Proof.
  intros Hk. apply wp_bind, wp_insert_index; [done|]. intros st1.
  destruct ack as [a|]; [by apply wp_insert_index|by apply wp_ret].
Qed.

Lemma safe_chunk_with_ack w data b st :
  begun b (sd_id data) -> safe (chunk_with_ack k io cs w data) b st.
Proof.
  intros Hk. apply wp_bind, wp_pop. intros ack st1 _.
  eapply wp_step; [by apply safe_irob_chunk|]. intros b2 [] st2 Hle _ _; [by apply wp_ret|].
  eapply wp_step; [apply safe_put_back; by eapply begun_le|]. intros. by apply wp_ret.
Qed.

Lemma safe_chunk_loop fuel w id : keeps thread_inv (chunk_loop k io cs fuel w id).
Proof.
  induction fuel as [|fuel IH]; intros b st; simpl; [by apply wp_ret|].
  apply wp_bind, wp_remove. intros [data|] st1 Hd; [|by apply wp_ret].
  eapply wp_step; [apply safe_chunk_with_ack; by apply Hd|]. intros b2 [] st2 _ _ _; [apply IH|by apply wp_ret].
Qed.

Lemma safe_rest fuel w id : keeps thread_inv (rest_of_irob k io cs fuel w id).
Proof.
  intros b st. eapply wp_keeps; [apply safe_chunk_loop|]. intros b1 [u|] st1 _ _; [|by apply wp_ret].
  apply wp_bind, wp_remove. intros d st2 Hd. eapply wp_step with (Q := fun _ _ _ => True).
  - destruct d as [data|]; [apply safe_end_irob; by apply Hd|by apply wp_ret].
  - intros. by apply wp_ret.
Qed.

Lemma safe_after fuel w id (ok : bool) (m : M ST (option unit)) b st :
  safe m b st -> safe (r ← (if ok then rest_of_irob k io cs fuel w id else m);
    match r with None => mret None | Some _ => set_busy cs false;; mret (Some ok) end) b st.
Proof.
  intros Hm. eapply wp_step with (Q := fun _ _ _ => True); [destruct ok; [apply safe_rest|done]|].
  intros b1 [u|] st1 _ _ _; [|by apply wp_ret]. apply wp_bind, wp_set_busy. intros. by apply wp_ret.
Qed.

Lemma safe_new_irob fuel w : keeps thread_inv (work_new_irob k io cs fuel w).
Proof.
  intros b st. apply wp_bind, wp_pop. intros [data|] st1 Hd; [|by apply wp_ret].
  pose proof (Hd data eq_refl) as Hk. apply wp_bind, wp_set_busy. intros b1 st2 Hle1.
  eapply wp_step; [apply safe_begin_irob; by eapply begun_le|]. intros b2 ok st3 Hle2 _ _.
  apply safe_after. apply wp_bind, wp_insert_index; [|intros; by apply wp_ret].
  simpl. eapply begun_le; [|exact Hk]. by etrans.
Qed.

Lemma safe_new_chunk fuel w : keeps thread_inv (work_new_chunk k io cs fuel w).
Proof.
  intros b st. apply wp_bind, wp_pop. intros [data|] st1 Hd; [|by apply wp_ret].
  pose proof (Hd data eq_refl) as Hk. apply wp_bind, wp_pop. intros ack st2 _.
  apply wp_bind, wp_set_busy. intros b1 st3 Hle1.
  eapply wp_step; [apply safe_irob_chunk; by eapply begun_le|]. intros b2 ok st4 Hle2 _ _.
  apply safe_after. eapply wp_step; [apply safe_put_back|intros; by apply wp_ret].
  eapply begun_le; [|exact Hk]. by etrans.
Qed.

Lemma safe_work_one w ty work :
  (forall b st data, request_ok b ty data -> safe (work data) b st) ->
  keeps thread_inv (work_one w ty work).
Proof.
  intros Hw b st. apply wp_bind, wp_pop. intros [data|] st1 Hd; [|by apply wp_ret].
  eapply wp_step; [apply Hw; by apply Hd|]. intros. by apply wp_ret.
Qed.

Lemma safe_finished b st data : request_ok b FINISHED_IROBS data -> safe (work_finished cs data) b st.
Proof.
  intros Hd. apply wp_inv. intros H0. apply wp_bind, wp_set_busy. intros b1 st1 Hle. apply wp_inv. intros H1.
  eapply wp_step; [apply safe_end_irob; by apply (request_later b b1 st st1 FINISHED_IROBS)|].
  intros. by apply wp_set_busy.
Qed.

Lemma safe_work_iface pop tell :
  keeps thread_inv pop -> (forall i, keeps thread_inv (tell i)) ->
  keeps thread_inv (work_iface (IS:=IS) (I:=I) pop tell).
Proof.
  intros Hp Ht b st. eapply wp_keeps; [done|]. intros b1 [i|] st1 _ _; [|by apply wp_ret].
  eapply wp_keeps; [apply Ht|]. intros. by apply wp_ret.
Qed.

Lemma safe_schedule_work fuel w : keeps thread_inv (schedule_work k io cs fuel w).
Proof.
  assert (forall w, keeps thread_inv (work_one w WAITING_ACKS (fun data => send_acks io data w))) as Ka.
  { intros w'. apply safe_work_one. intros. apply safe_send_acks. }
  pose proof (fun w => safe_work_one w FINISHED_IROBS _ safe_finished) as Kf.
  assert (forall w, keeps thread_inv (work_one w RESEND_REQUESTS (resend_request k cs))) as Kr.
  { intros w'. apply safe_work_one. intros. apply safe_resend_request. }
  assert (keeps thread_inv (work_iface (pop_iface changed_local_ifaces upd_changed_local_ifaces) new_interface)) as Kn.
  { apply safe_work_iface; [by apply safe_pop_iface|apply safe_new_interface]. }
  assert (keeps thread_inv (work_iface (pop_iface down_local_ifaces upd_down_local_ifaces) down_interface)) as Kd.
  { apply safe_work_iface; [by apply safe_pop_iface|apply safe_down_interface]. }
  unfold schedule_work.
  repeat first [apply Ka|apply Kf|apply Kr|apply Kn|apply Kd|apply safe_data_checks|apply safe_new_irob
               |apply safe_new_chunk|keeps_step].
Qed.

Lemma safe_do_work fuel : keeps thread_inv (do_work k io cs fuel).
Proof. unfold do_work. repeat first [apply safe_schedule_work|keeps_step]. Qed.

Lemma safe_on_quiet {A} (m : M SK A) : keeps (same_out lo hi) m -> keeps thread_inv (on_sk m).
Proof. intros Hm b st. by apply wp_quiet. Qed.

Lemma safe_my_csock : keeps thread_inv (my_csock (IS:=IS) (I:=I) cs).
Proof. intros b st. by apply wp_my_csock. Qed.

Lemma safe_nothing : keeps thread_inv (nothingToSend (IS:=IS) (I:=I) cs).
Proof.
  unfold nothingToSend. repeat first [apply safe_my_csock|apply safe_on_quiet; quiet_go|keeps_step].
Qed.

Lemma safe_run_round fuel : keeps thread_inv (run_round k io cs fuel).
Proof.
  unfold run_round. repeat first [apply safe_do_work|apply safe_nothing|apply safe_goodbye|apply safe_unlocked
    |apply safe_my_csock|solve [frame]|solve [apply safe_on_quiet; quiet_go]|keeps_step].
Qed.

(** ** Leaving by an exception, and the end of the thread *)

Ltac sframe := apply keeps_frame_modify; intros; split_and!; reflexivity.

(** The requests of our csocket move to other indexes. *)
Lemma wp_my_requests Q b st :
  (forall c, requests_ok b (cs_indexes c) -> Q b c st) -> wp thread_inv (my_csock cs) Q b st.
Proof.
  intros HQ. apply wp_on_sk. intros H. exists b. split_and!; [done|done|]. intros c.
  unfold deref, access. simpl. destruct (sk_csocks (st_sk st) !! cs) as [c'|] eqn:E; [|done].
  intros [= <-]. rewrite with_sk_self. apply HQ. eapply (oi_csocks _ _ _ _ H), E.
Qed.

Lemma wp_take_over w c Q b st :
  requests_ok b (cs_indexes c) -> (forall st', Q b tt st') ->
  wp thread_inv (upd_indexes w (fun x => index_add x (cs_indexes c))) Q b st.
Proof. intros Hc HQ. apply wp_upd_indexes; [|done]. intros x Hx. by apply requests_add. Qed.

Lemma safe_force_shutdown : keeps thread_inv (on_sk (modify (force_shutdown (IS:=IS) (I:=I)))).
Proof. sframe. Qed.

Lemma safe_run_failed e : keeps thread_inv (run_failed (IS:=IS) (I:=I) k cs e).
Proof.
  destruct e; try apply keeps_throw.
  2:{ apply keeps_bind; [apply safe_force_shutdown|intros; apply keeps_throw]. }
  intros b st. unfold run_failed. apply wp_bind, wp_quiet; [auto with quiet|]. intros _ st1.
  apply wp_bind, wp_my_requests. intros c Hc. apply wp_bind, wp_on_get.
  eapply wp_step with (Q := fun _ _ _ => True); [|intros; apply wp_throw].
  destruct (accepting_side _).
  - apply wp_bind, (wp_take_over None); [done|]. intros st2. apply wp_bind, wp_quiet; [auto with quiet|].
    intros _ st3. apply wp_bind, wp_on_get. destruct (csocks_empty _); [apply safe_force_shutdown|by apply wp_ret].
  - apply wp_bind, wp_quiet; [auto with quiet|]. intros [h|] st2; [|apply safe_force_shutdown].
    apply wp_bind, wp_quiet; [auto with quiet|]. intros m st3.
    assert (forall st, safe (on_sk (data_check_all_irobs (ip_addr (local_iface c)) 0 0)) b st) as K.
    { intros st4. by apply wp_quiet; [auto with quiet|]. }
    apply wp_bind. destruct (connected m); [apply (wp_take_over (Some h))|apply (wp_take_over None)]; auto.
Qed.

(** A thunk that resumes an operation. *)
Lemma safe_resume data :
  in_window (sd_id data) -> keeps thread_inv (resume_operation_thunk (IS:=IS) (I:=I) k data).
Proof.
  intros Hid b st. apply wp_bind, wp_on_get, wp_bind, wp_lift. intros o _.
  apply wp_bind, wp_get_sender_in; [done|]. intros p (_ & _ & Hp). apply wp_bind, wp_labels. intros labels _.
  apply wp_bind, wp_unlocked. intros b1 st1 Hle1 _. apply wp_bind, wp_find_match. intros h st2.
  apply wp_bind, wp_unlocked. intros b2 st3 Hle2 _. cbv zeta.
  assert (request_ok b2 (if sd_chunks_ready data then NEW_CHUNKS else NEW_IROBS) data) as Hd.
  { apply request_kind; [by destruct (sd_chunks_ready data)|]. apply (begun_le b); [by etrans|by exists p]. }
  destruct h as [h|]; [|by apply wp_schedule_on]. apply wp_bind, wp_quiet; [apply quiet_deref|]. intros m st4.
  destruct (connected m); [by apply wp_csock_request_on|by apply wp_schedule_on].
Qed.

Lemma safe_finish : keeps thread_inv (Finish (IS:=IS) (I:=I) cs).
Proof. apply safe_on_quiet. auto with quiet. Qed.
End thread.

Section life.
Context {IS I : Type} `{!IdSet IS} `{!IdSetLaws IS} `{!InstrumentsChooser I} {NE : NetEstimates}.
Context (lo hi : Z).
Context (Hlo : 0 <= lo) (Hhi : hi <= 2 ^ 63) (Hwin : hi - lo < 2 ^ 31).
Context (cs : Z) (fuel : nat).
Abbreviation SK := (CMMSocketImpl IS I).
Abbreviation ST := (sender_thread IS I).
Abbreviation thread_inv := (thread_inv lo hi).
Implicit Types (st : ST) (b : book).

Lemma safe_rounds l : keeps thread_inv (rounds (IS:=IS) (I:=I) cs fuel l).
Proof.
  induction l as [|[k io] l IH]; simpl; [apply keeps_ret|]. apply keeps_bind; [by apply safe_run_round|].
  intros []; try apply keeps_ret; [done|]. apply keeps_bind; [by apply safe_unlocked|done].
Qed.

(** The handler runs in the state the exception left. *)
Lemma keeps_handler {A} (m m' : M ST A) (h : exn -> M ST A) :
  keeps thread_inv m -> (forall e, keeps thread_inv (h e)) ->
  (forall st, m' st = match m st with (Throw e, st') => h e st' | r => r end) -> keeps thread_inv m'.
Proof.
  intros Hm Hh E b st HI. destruct (Hm b st HI) as (b1 & Hle & HI1 & _). rewrite E.
  destruct (m st) as [[a|e|t] st']; simpl in HI1; [by exists b1| |by exists b1].
  destruct (Hh e b1 st' HI1) as (b2 & Hle2 & HI2 & _). exists b2. split_and!; [by etrans|done|done].
Qed.

Lemma safe_Run l k : keeps thread_inv (Run (IS:=IS) (I:=I) cs fuel l k).
Proof.
  apply (keeps_handler (rounds cs fuel l) _ (fun e => run_failed k cs e;; mret Returns)); [apply safe_rounds| |].
  - intros e. apply keeps_bind; [by apply safe_run_failed|]. intros; apply keeps_ret.
  - intros st. unfold Run. by destruct (rounds cs fuel l st) as [[] ?].
Qed.

Lemma safe_ThreadFn l k : keeps thread_inv (ThreadFn (IS:=IS) (I:=I) cs fuel l k).
Proof.
  intros b st HI. destruct (safe_Run l k b st HI) as (b1 & Hle & HI1 & _). unfold ThreadFn.
  assert (forall st', thread_inv b1 st' -> exists b2, book_le b b2 /\ thread_inv b2 (snd (Finish cs st')) /\
    forall a, fst (Finish cs st') = Ret a -> True) as K.
  { intros st' H. destruct (safe_finish lo hi cs b1 st' H) as (b2 & Hle2 & HI2 & _). exists b2.
    split_and!; [by etrans|done|done]. }
  destruct (Run cs fuel l k st) as [[[]|e|t] st']; simpl in HI1; auto; by exists b1.
Qed.

End life.

(** ** Several sender threads *)

Section world.
Context {IS I : Type} `{!IdSet IS} `{!IdSetLaws IS} `{!InstrumentsChooser I} {NE : NetEstimates}.
Context (lo hi : Z).
Context (Hlo : 0 <= lo) (Hhi : hi <= 2 ^ 63) (Hwin : hi - lo < 2 ^ 31).
Abbreviation SK := (CMMSocketImpl IS I).
Abbreviation ST := (sender_thread IS I).
Implicit Types (st : ST) (b : book) (s : SK).

(** What another thread with outgoing work does: the sender thread of a connection
    runs to its end or for some rounds, or a thunk resumes an operation. *)
Inductive sender_runs st : ST -> Prop :=
| RunsThread cs fuel l k : sender_runs st (snd (ThreadFn cs fuel l k st))
| RunsRounds cs fuel l : sender_runs st (snd (rounds cs fuel l st))
| RunsResumed k data :
    in_window lo hi (sd_id data) -> sender_runs st (snd (resume_operation_thunk k data st)).

(** All the steps of the other threads.  While one with outgoing work has released
    the lock others go on, [n] deep. *)
#[local] Unset Elimination Schemes.
Inductive world_step : nat -> SK -> SK -> Prop :=
| WorldStep n s s' : sk_step lo hi s s' -> world_step n s s'
| WorldSender n s env ws trickling st' :
    Forall (fun f : SK -> SK => forall s, rtc (world_step n) s (f s)) env ->
    sender_runs (Thread s env ws [] trickling) st' -> world_step (S n) s (st_sk st').
#[local] Set Elimination Schemes.

Definition world_fn (n : nat) (f : SK -> SK) : Prop := forall s, rtc (world_step n) s (f s).

Lemma steps_out (R : relation SK) :
  (forall b s s', out_inv lo hi b s -> R s s' -> exists b', book_le b b' /\ out_inv lo hi b' s') ->
  forall b s s', out_inv lo hi b s -> rtc R s s' -> exists b', book_le b b' /\ out_inv lo hi b' s'.
Proof.
  intros HR b s s' HI H. revert b HI. induction H as [s|s1 s2 s3 H1 _ IH]; intros b HI; [by exists b|].
  destruct (HR b s1 s2 HI H1) as (b1 & Hle1 & HI1). destruct (IH b1 HI1) as (b2 & Hle2 & HI2).
  exists b2. split; [by etrans|done].
Qed.

Lemma sender_runs_inv st st' b :
  thread_inv lo hi b st -> sender_runs st st' -> exists b', book_le b b' /\ thread_inv lo hi b' st'.
Proof.
  intros HI [cs fuel l k|cs fuel l|k data Hd].
  - destruct (safe_ThreadFn lo hi Hlo Hhi Hwin cs fuel l k b st HI) as (b' & ? & ? & _). by exists b'.
  - destruct (safe_rounds lo hi Hlo Hhi Hwin cs fuel l b st HI) as (b' & ? & ? & _). by exists b'.
  - destruct (safe_resume lo hi Hwin k data Hd b st HI) as (b' & ? & ? & _). by exists b'.
Qed.

Lemma world_step_out n b s s' :
  out_inv lo hi b s -> world_step n s s' -> exists b', book_le b b' /\ out_inv lo hi b' s'.
Proof.
  revert b s s'. induction n as [|n IH]; intros b s s' HI H.
  { inversion H; subst. by eapply sk_step_out. }
  inversion H as [? ? ? Hk|? ? env ws tr st2 Henv Hr]; subst; [by eapply sk_step_out|].
  assert (thread_inv lo hi b (Thread s env ws [] tr)) as HT.
  { split; [done| |constructor]. eapply Forall_impl; [exact Henv|]. intros f Hf b0 s0 H0.
    by apply (steps_out _ IH b0 s0). }
  destruct (sender_runs_inv _ _ b HT Hr) as (b' & Hle & [Ho _ _]). by exists b'.
Qed.

Lemma world_steps_out n b s s' :
  out_inv lo hi b s -> rtc (world_step n) s s' -> exists b', book_le b b' /\ out_inv lo hi b' s'.
Proof. apply steps_out. intros ? ? ?. apply world_step_out. Qed.

Lemma world_rely n f : world_fn n f -> rely lo hi f.
Proof. intros Hf b s HI. by apply (world_steps_out n b s). Qed.

Lemma sk_world n s s' : rtc (sk_step lo hi) s s' -> rtc (world_step n) s s'.
Proof. induction 1; [done|]. eapply rtc_l; [by apply WorldStep|done]. Qed.

(** Started on a multi-socket that was used, with others going on. *)
Lemma sender_starts n sock s0 s env ws :
  msock_new sock = Ret s0 -> rtc (world_step n) s0 s -> Forall (world_fn n) env ->
  exists b, out_inv lo hi b s /\ thread_inv lo hi b (Thread s env ws [] false).
Proof.
  intros Hnew Hs Henv. destruct (world_steps_out n ∅ s0 s) as (b & _ & HI); [by eapply out_new|done|].
  exists b. split; [done|]. split; [done| |constructor]. eapply Forall_impl; [exact Henv|]. intros f. apply world_rely.
Qed.

(** C2: A sender thread tells the truth.  Start it on a new multi-socket that its
    other threads have used in any way, let them go on doing so whenever the thread releases the
    lock, and let the thread run for any number of rounds, with any choice of connections and any
    outcome of its writes, and end in any way.  There is then one description
    of the IROBs the application began such that every Begin_IROB, IROB_Chunk and
    End_IROB written states what it says: the dependencies and labels, the chunk
    with its number, its offset and the application's bytes, and, only when all
    of the data is cut into chunks, their number and total length.  An IROB held
    when the thread started is in it, at most extended since: its labels,
    dependencies and the chunks already cut are as they were, more data only if
    it was not yet complete.

    The other threads ([world_step]) are the application's calls, the receiver threads
    on messages that name only IROBs of the window, changes of the
    interfaces, bootstrapping and the like, thunks that resume an operation and the sender
    threads of other connections.  Of the latter, what happens while this thread
    has released the lock is any number of whole rounds (or a whole life), with
    others going on in turn, to any depth, where they release it; two sender threads
    that take turns within one round of each are left out.  The identifiers of the IROBs
    are in a window of less than 2^31. *)
Theorem sender_truth n cs fuel sock s0 s env ws l k st' :
  msock_new sock = Ret s0 -> rtc (world_step n) s0 s -> Forall (world_fn n) env ->
  snd (ThreadFn (IS:=IS) (I:=I) cs fuel l k (Thread s env ws [] false)) = st' ->
  exists b, book_ok lo hi b /\ Forall (truthful b) (sent st') /\ out_inv lo hi b (st_sk st') /\
    forall id p, in_window lo hi id -> find_locked id (outgoing_irobs s) = Some (SenderIrob p) ->
      exists q, b !! id = Some q /\ evolves p q.
Proof.
  intros Hnew Hs Henv <-. destruct (sender_starts n sock s0 s env ws Hnew Hs Henv) as (b & HI & HT).
  destruct (safe_ThreadFn lo hi Hlo Hhi Hwin cs fuel l k b _ HT) as (b' & Hle & [Ho _ Hm] & _).
  exists b'. split_and!; [apply Ho|done|done|]. intros id p Hid Hp. apply Hle.
  by destruct (out_find lo hi Hwin b s id p HI Hid Hp).
Qed.
End world.


(** ** Witness *)

Import ListBits.
#[local] Existing Instance no_instruments.
#[local] Existing Instance no_estimates.

Abbreviation demo_sk := (CMMSocketImpl (IntSet.t (list bool)) unit).
Definition demo_io : sender_io := SenderIO no_time 0 0 None no_time (fun _ => 0) true false.

(** Connections are made; IROB 0 is begun and gets a chunk; the thread of the other
    connection takes a round and the IROB is ended while the thread is writing. *)
Definition demo_connect (s : demo_sk) : demo_sk :=
  upd_available_csocks (fun _ => {[5; 6]})
    (upd_sk_csocks (fun _ => <[6 := CSock (demo_3g.1) (demo_3g.2) true indexes_empty false]>
       {[5 := CSock (demo_wifi.1) (demo_wifi.2) true indexes_empty false]}) s).
Definition demo_fresh : demo_sk := default demo_msock (match msock_new 3 with Ret s => Some s | _ => None end).
Definition demo_ready : demo_sk :=
  demo_connect (snd (setup demo_kernel (demo_wifi.2) false (snd (setup demo_kernel (demo_wifi.1) true demo_fresh)))).
Definition demo_begun : demo_sk := snd (mc_begin_irob demo_kernel no_time [] 4 None 0 demo_ready).
Definition demo_given : demo_sk := snd (mc_irob_send demo_kernel 0 [Byte.x61; Byte.x62] demo_begun).
Definition demo_end (s : demo_sk) : demo_sk := snd (mc_end_irob demo_kernel 0 s).
(** The thread of connection 6 takes a round. *)
Definition demo_other (s : demo_sk) : demo_sk :=
  st_sk (snd (rounds 6 10 [(demo_kernel, demo_io)] (Thread s [] [] [] false))).
Definition demo_run : sender_thread (IntSet.t (list bool)) unit :=
  snd (ThreadFn 5 10 (replicate 2 (demo_kernel, demo_io)) demo_kernel
         (Thread demo_given [demo_other; demo_end] [] [] false)).

Lemma demo_env : Forall (world_fn 0 100 1) [demo_other; demo_end].
Proof.
  apply Forall_cons. split; [|apply Forall_singleton].
  - intros s. apply rtc_once, (WorldSender 0 100 0 s [] [] false); [constructor|].
    apply (RunsRounds 0 100 _ 6 10 [(demo_kernel, demo_io)]).
  - intros s. apply rtc_once, WorldStep, StepOwn, (StepEnd 0 100 s demo_kernel 0). done.
Qed.

Lemma demo_steps : rtc (sk_step 0 100) demo_fresh demo_given.
Proof.
  eapply rtc_l; [apply StepOwn, (StepSetup 0 100 _ demo_kernel (demo_wifi.1) true)|].
  eapply rtc_l; [apply StepOwn, (StepSetup 0 100 _ demo_kernel (demo_wifi.2) false)|].
  apply (rtc_l _ _ demo_ready).
  { apply StepOther; [done..|]. apply map_Forall_insert; [done|]. split; [by left|]. apply map_Forall_singleton. by left. }
  eapply rtc_l; [apply StepOwn, (StepBegin 0 100 _ demo_kernel no_time [] 4 None 0); [by vm_compute|done|done]|].
  apply rtc_once, StepOwn, StepChunk; [done|]. intros p Hp. vm_compute in Hp. injection Hp as <-. vm_compute. done.
Qed.

(** The three messages of the IROB are written. *)
Lemma demo_sent : length (sent demo_run) = 3%nat /\ forallb irob_message (sent demo_run) = true.
Proof. by vm_compute. Qed.

Lemma sender_truth_witness :
  exists b : book, Forall (fun m => exists id p, b !! id = Some p /\ says id p m) (sent demo_run) /\
    length (sent demo_run) = 3%nat.
Proof.
  destruct (sender_truth 0 100 ltac:(lia) ltac:(lia) ltac:(lia) 1 5 10 3 demo_fresh demo_given
    [demo_other; demo_end] [] (replicate 2 (demo_kernel, demo_io)) demo_kernel demo_run eq_refl
    (sk_world 0 100 1 _ _ demo_steps)) as (b & _ & Ht & _).
  - apply demo_env.
  - reflexivity.
  - exists b. destruct demo_sent as [Hl Hi]. split; [|exact Hl].
    rewrite forallb_forall in Hi. rewrite Forall_forall in *. intros m Hm.
    pose proof (Hi m (proj1 (list_elem_of_In _ _) Hm)) as Him. exact (Ht m Hm Him).
Defined.
