(* ===== verification/SenderErrors.v ===== *)
(** The sender thread when a write fails.

    A work function that gives up the connection ([ControlException]) has put its
    request back in the multi-socket's indexes, where the thread of another
    connection finds it; and when [Run] is left by that exception, the requests
    of the connection are handed over as well.  The acknowledgement that rides
    on a chunk is the exception. *)

From S2P Require Import Prelude Logic Labels Scheduling Irob IntSet Control SenderIrob ReceiverIrob.
From S2P Require Import Lattice ReceiverLattice Chooser Thunks MultiSocket Socket System History Sender SenderTruth.

(** ** What does not throw *)

Section outcomes.
Context (e : exn).

Lemma tn_labels c : throws_not e (get_send_labels c).
Proof. apply throws_not_access. Qed.
Lemma tn_the_sender o : throws_not e (the_sender o).
Proof. unfold the_sender. by destruct (o ≫= as_sender). Qed.
Lemma tn_next_seqno p c : throws_not e (get_next_seqno_to_send p c).
Proof. unfold get_next_seqno_to_send. raises_go. Qed.
#[local] Hint Resolve tn_labels tn_next_seqno : raises.
Lemma tn_find_app_chunk l off : throws_not e (find_app_chunk l off).
Proof. unfold find_app_chunk. raises_go. Qed.
#[local] Hint Resolve tn_find_app_chunk : raises.
Lemma tn_get_bytes p off len : throws_not e (get_bytes_internal p off len).
Proof. unfold get_bytes_internal. cbv zeta. raises_go. Qed.
Lemma tn_add_sent p c len now : throws_not e (add_sent_chunk p c len now).
Proof. unfold add_sent_chunk. cbv zeta. raises_go. Qed.
#[local] Hint Resolve tn_get_bytes tn_add_sent : raises.
Lemma tn_ready p c n now : throws_not e (get_ready_bytes p c n now).
Proof. unfold get_ready_bytes. cbv zeta. raises_go. Qed.
Lemma tn_last_sent p c : throws_not e (get_last_sent_chunk_htonl p c).
Proof. unfold get_last_sent_chunk_htonl. cbv zeta. raises_go. Qed.
#[local] Hint Resolve tn_ready tn_last_sent : raises.
Lemma tn_data_check io cs id labels p : throws_not e (data_check_chunk io cs id labels p).
Proof. unfold data_check_chunk. raises_go. Qed.
Lemma tn_should_check p l r m : throws_not e (should_data_check p l r m).
Proof. unfold should_data_check. raises_go. Qed.
Lemma tn_can_be_redundant c : throws_not e (can_be_redundant c).
Proof. unfold can_be_redundant. raises_go. Qed.
Lemma tn_timediff b t : throws_not e (timediff b t).
Proof. unfold timediff. raises_go. Qed.
Lemma tn_srv_time io d : throws_not e (ack_srv_time io d).
Proof. unfold ack_srv_time. cbv zeta. destruct (_ || _); [done|apply tn_timediff]. Qed.
Lemma tn_network_type c : throws_not e (network_type c).
Proof. unfold network_type. raises_go. Qed.
Lemma tn_lookup l m : throws_not e (build_lookup l m).
Proof.
  revert m. induction l as [|[h c] l IH]; intros m; simpl; [done|].
  apply throws_not_bind; [apply throws_not_assert|]. intros _. apply IH.
Qed.
Lemma tn_redundant {I : Type} `{!InstrumentsChooser I} (c : chooser_impl I) : throws_not e (shouldTransmitRedundantly c).
Proof. destruct c; simpl; unfold strategy_create; raises_go. Qed.
End outcomes.
#[export] Hint Resolve tn_labels tn_the_sender tn_next_seqno tn_find_app_chunk tn_get_bytes tn_add_sent
  tn_ready tn_last_sent tn_data_check tn_should_check tn_can_be_redundant tn_timediff tn_srv_time
  tn_network_type tn_lookup tn_redundant : raises.

Section choosing.
Context {IS I : Type} `{!IdSet IS} `{!InstrumentsChooser I} {NE : NetEstimates} (k : kernel).
Abbreviation SK := (CMMSocketImpl IS I).
Abbreviation never m := (raises ControlException (fun _ => False) m).
Implicit Types (P : SK -> Prop).

Lemma nv_deref h : never (deref (IS:=IS) (I:=I) h).
Proof. unfold deref. intros s s' [= E _]. by destruct (sk_csocks s !! h). Qed.
#[local] Hint Resolve nv_deref : raises.
Lemma nv_find_first (pred : Z * CSocket -> M SK bool) l :
  (forall hc, never (pred hc)) -> never (find_first pred l).
Proof. intros Hp. induction l; simpl; raises_go. Qed.
Lemma nv_find_csock (pred : Z * CSocket -> M SK bool) :
  (forall hc, never (pred hc)) -> never (find_csock pred).
Proof. intros Hp. unfold find_csock. raises_go. by apply nv_find_first. Qed.
Lemma nv_find_pure (pred : Z * CSocket -> bool) : never (find_csock_pure (I:=I) (IS:=IS) pred).
Proof. apply nv_find_csock. raises_go. Qed.
Lemma nv_pair labels n : never (get_iface_pair_locked (I:=I) (IS:=IS) labels n).
Proof. unfold get_iface_pair_locked. raises_go. Qed.
#[local] Hint Resolve nv_find_csock nv_find_pure nv_pair : raises.
Lemma nv_matches labels n c : never (csock_matches (I:=I) (IS:=IS) labels n c).
Proof. unfold csock_matches. raises_go. Qed.
#[local] Hint Resolve nv_matches : raises.
Lemma nv_with_labels labels n : never (csock_with_labels (I:=I) (IS:=IS) labels n).
Proof. unfold csock_with_labels. raises_go. Qed.
Lemma nv_connected labels n : never (connected_csock_with_labels (I:=I) (IS:=IS) labels n).
Proof. unfold connected_csock_with_labels. raises_go. Qed.
Lemma nv_check_each ids lip rip mask : never (data_check_each (I:=I) (IS:=IS) ids lip rip mask).
Proof. induction ids; simpl; raises_go. Qed.
#[local] Hint Resolve nv_with_labels nv_connected nv_check_each : raises.
Lemma nv_check_all lip rip mask : never (data_check_all_irobs (I:=I) (IS:=IS) lip rip mask).
Proof. unfold data_check_all_irobs. raises_go. Qed.
#[local] Hint Resolve nv_check_all : raises.
Lemma nv_make local remote accepted : never (make_new_csocket (I:=I) (IS:=IS) k local remote accepted).
Proof. unfold make_new_csocket, csock_by_ifaces. raises_go. Qed.
#[local] Hint Resolve nv_make : raises.
Lemma nv_new labels n : never (new_csock_with_labels (I:=I) (IS:=IS) k labels n).
Proof. unfold new_csock_with_labels. raises_go. Qed.
Lemma nv_pass p d : never (pass_request_to_all_senders (I:=I) (IS:=IS) p d).
Proof. unfold pass_request_to_all_senders. raises_go. Qed.
Lemma nv_stats h labels n m : never (update_net_restriction_stats (I:=I) (IS:=IS) h labels n m).
Proof. unfold update_net_restriction_stats, sk_update_net_restriction_stats. cbv zeta. raises_go. Qed.
Lemma nv_schedule ty d : never (schedule (I:=I) (IS:=IS) ty d).
Proof. apply raises_modify. Qed.
End choosing.
#[export] Hint Resolve nv_deref nv_find_pure nv_pair nv_matches nv_with_labels nv_connected nv_check_all
  nv_make nv_new nv_pass nv_stats nv_schedule : raises.

Section thread.
Context {IS I : Type} `{!IdSet IS} `{!InstrumentsChooser I} {NE : NetEstimates}.
Context (k : kernel) (io : sender_io) (cs : Z).
Abbreviation SK := (CMMSocketImpl IS I).
Abbreviation ST := (sender_thread IS I).
Abbreviation never m := (raises ControlException (fun _ => False) m).
Implicit Types (P : ST -> Prop) (st : ST) (id : Z) (data : IROBSchedulingData).

(** ** Operations that do not give up the connection *)

Lemma nv_on_sk {A} P (m : M SK A) : never m -> raises ControlException P (on_sk m).
Proof. apply never_zoom. Qed.
Lemma nv_unlocked P : raises ControlException P (unlocked (IS:=IS) (I:=I)).
Proof. apply raises_modify. Qed.
#[local] Hint Resolve nv_unlocked : raises.
Lemma nv_write P msgs : raises ControlException P (write (IS:=IS) (I:=I) msgs).
Proof. unfold write. raises_go. Qed.
#[local] Hint Extern 2 (raises _ _ (on_sk _)) => (apply nv_on_sk; raises_go) : raises.
#[local] Hint Resolve nv_write : raises.
Lemma nv_my_csock P : raises ControlException P (my_csock (IS:=IS) (I:=I) cs).
Proof. unfold my_csock. raises_go. Qed.
Lemma nv_find_sender P id : raises ControlException P (find_sender (IS:=IS) (I:=I) id).
Proof. unfold find_sender. raises_go. Qed.
Lemma nv_get_sender P id : raises ControlException P (get_sender (IS:=IS) (I:=I) id).
Proof. unfold get_sender. raises_go. Qed.
Lemma nv_csock_request P h ty d : raises ControlException P (csock_request (IS:=IS) (I:=I) h ty d).
Proof. unfold csock_request. raises_go. Qed.
#[local] Hint Resolve nv_my_csock nv_find_sender nv_get_sender nv_csock_request : raises.
Lemma nv_mark_sent P id : raises ControlException P (mark_sent (IS:=IS) (I:=I) cs id).
Proof. unfold mark_sent. raises_go. Qed.
Lemma nv_cs_matches P labels n : raises ControlException P (cs_matches (IS:=IS) (I:=I) cs labels n).
Proof. unfold cs_matches. raises_go. Qed.
#[local] Hint Resolve nv_mark_sent nv_cs_matches : raises.
Lemma nv_is_fg P : raises ControlException P (is_fg (IS:=IS) (I:=I) cs).
Proof. unfold is_fg. raises_go. Qed.
Lemma nv_find_match P labels n : raises ControlException P (find_match (IS:=IS) (I:=I) k labels n).
Proof. unfold find_match. raises_go. Qed.
#[local] Hint Resolve nv_is_fg nv_find_match : raises.
Lemma nv_no_match P id labels r d : raises ControlException P (no_match (IS:=IS) (I:=I) io cs id labels r d).
Proof.
  unfold no_match, set_irob_status, drop_irob, sk_drop_irob_and_dependents, register_thunk. raises_go.
Qed.
Lemma nv_pass_on P h labels r d : raises ControlException P (pass_on (IS:=IS) (I:=I) cs h labels r d).
Proof. unfold pass_on. cbv zeta. raises_go. Qed.
#[local] Hint Resolve nv_no_match nv_pass_on : raises.
Lemma nv_delegate P id d : raises ControlException P (delegate_if_necessary (IS:=IS) (I:=I) k io cs id d).
Proof. unfold delegate_if_necessary. cbv zeta. raises_go. Qed.
Lemma nv_bg P : raises ControlException P (okay_to_send_bg (IS:=IS) (I:=I) io cs).
Proof. unfold okay_to_send_bg, set_trickling. cbv zeta. raises_go. Qed.
#[local] Hint Resolve nv_delegate nv_bg : raises.
Lemma nv_small P id labels p : raises ControlException P (small_irob_msgs (IS:=IS) (I:=I) io cs id labels p).
Proof. unfold small_irob_msgs. raises_go. Qed.
Lemma nv_begin_written P id b d : raises ControlException P (begin_irob_written (IS:=IS) (I:=I) cs id b d).
Proof. unfold begin_irob_written. raises_go. Qed.
Lemma nv_chunk_written P id labels d : raises ControlException P (irob_chunk_written (IS:=IS) (I:=I) cs id labels d).
Proof. unfold irob_chunk_written. raises_go. Qed.
Lemma nv_chunksize P d : raises ControlException P (choose_chunksize (IS:=IS) (I:=I) io cs d).
Proof. unfold choose_chunksize. raises_go. Qed.
Lemma nv_delegate_resend P id p d :
  raises ControlException P (delegate_resend_request_if_necessary (IS:=IS) (I:=I) k cs id p d).
Proof. unfold delegate_resend_request_if_necessary. raises_go. Qed.
#[local] Hint Resolve nv_small nv_begin_written nv_chunk_written nv_chunksize nv_delegate_resend : raises.

(** ** What is left of the work *)

(** There is a request of this kind for the IROB in the multi-socket's indexes. *)
Definition requeued (ty : index_type) id st : Prop :=
  exists y, y ∈ index_get ty (irob_indexes (st_sk st)) /\ sd_id y = id.

Lemma index_get_insert ty d x : index_get ty (index_insert ty d x) = PrioritySet.insert d (index_get ty x).
Proof. by destruct x, ty. Qed.
Lemma index_get_other ty ty' f x : ty <> ty' -> index_get ty (index_upd ty' f x) = index_get ty x.
Proof. by destruct x, ty, ty'. Qed.

Lemma requeued_schedule ty d st : requeued ty (sd_id d) (snd (on_sk (schedule ty d) st)).
Proof. unfold requeued. simpl. rewrite index_get_insert. apply insert_request. Qed.
Lemma requeued_keeps ty id ty' d st : requeued ty id st -> requeued ty id (snd (on_sk (schedule ty' d) st)).
Proof.
  intros (y & Hy & E). exists y. split; [|done]. simpl.
  destruct (decide (ty = ty')) as [<-|Hne].
  - rewrite index_get_insert. by apply OrdSet.insert_keeps.
  - unfold index_insert. by rewrite index_get_other.
Qed.

Lemma failed_write {A} ty d : raises ControlException (requeued ty (sd_id d)) (write_failed (IS:=IS) (I:=I) (A:=A) ty d).
Proof. intros st st' [= <-]. apply requeued_schedule. Qed.
#[local] Hint Resolve failed_write : raises.

Lemma failed_begin data :
  raises ControlException (requeued NEW_IROBS (sd_id data)) (begin_irob (IS:=IS) (I:=I) k io cs data).
Proof. unfold begin_irob, begin_irob_here. cbv zeta. raises_go. Qed.

Lemma failed_end data :
  raises ControlException (requeued FINISHED_IROBS (sd_id data)) (end_irob (IS:=IS) (I:=I) cs data).
Proof. unfold end_irob. cbv zeta. raises_go. Qed.

(** The request for the chunk, and for the acknowledgement that was to ride on it. *)
Definition chunk_requeued data (ack : option Z) st : Prop :=
  requeued NEW_CHUNKS (sd_id data) st /\ forall a, ack = Some a -> requeued WAITING_ACKS a st.

Lemma failed_chunk_write data ack :
  raises ControlException (chunk_requeued data ack)
    (on_sk (schedule NEW_CHUNKS data);;
     match ack with
     | Some a => on_sk (schedule WAITING_ACKS (sched_chunks a false 0))
     | None => mret tt
     end;;
     throw (S := ST) (A := unit) ControlException).
Proof.
  intros st st' E. destruct ack as [a|]; injection E as <-; split.
  - change (requeued NEW_CHUNKS (sd_id data) (snd (on_sk (schedule WAITING_ACKS (sched_chunks a false 0))
      (snd (on_sk (schedule NEW_CHUNKS data) st))))). apply requeued_keeps, requeued_schedule.
  - intros a' [= <-]. exact (requeued_schedule WAITING_ACKS (sched_chunks a false 0) (snd (on_sk (schedule NEW_CHUNKS data) st))).
  - apply requeued_schedule.
  - done.
Qed.
#[local] Hint Resolve failed_chunk_write : raises.

Lemma failed_chunk data ack :
  raises ControlException (chunk_requeued data ack) (irob_chunk (IS:=IS) (I:=I) k io cs data ack).
Proof. unfold irob_chunk, irob_chunk_here. raises_go. Qed.

Lemma failed_resend data :
  raises ControlException (requeued RESEND_REQUESTS (sd_id data)) (resend_request (IS:=IS) (I:=I) k cs data).
Proof. unfold resend_request. cbv zeta. raises_go. Qed.

Lemma failed_data_check data :
  raises ControlException (requeued WAITING_DATA_CHECKS (sd_id data)) (send_data_check (IS:=IS) (I:=I) k io cs data).
Proof. unfold send_data_check. cbv zeta. raises_go. Qed.
End thread.

(** ** When [Run] is left *)

Section handover.
Context {IS I : Type} `{!IdSet IS} `{!InstrumentsChooser I} {NE : NetEstimates} (k : kernel).
Abbreviation SK := (CMMSocketImpl IS I).
Implicit Types (s : SK) (X : gset Z).

(** Requests are only added, connections stay as they are. *)
Record grows s s' : Prop := {
  gr_csocks : sk_csocks s' = sk_csocks s;
  gr_available : available_csocks s' = available_csocks s;
  gr_requests ty y : y ∈ index_get ty (irob_indexes s) -> y ∈ index_get ty (irob_indexes s')
}.
#[local] Instance grows_ghost : Ghost SK := {| gle := eq |}.
#[local] Instance available_ghost : Ghost (gset Z) := {| gle := eq |}.

Lemma grows_insert ty d s s' : grows s s' -> grows s (upd_irob_indexes (index_insert ty d) s').
Proof.
  intros [H1 H2 H3]. split; [done|done|]. intros ty' y Hy%H3. simpl. destruct (decide (ty' = ty)) as [->|Hne].
  - rewrite index_get_insert. by apply OrdSet.insert_keeps.
  - unfold index_insert. by rewrite index_get_other.
Qed.

Lemma grows_check_each ids lip rip mask : keeps grows (data_check_each (I:=I) (IS:=IS) ids lip rip mask).
Proof.
  induction ids as [|id ids IH]; simpl; repeat keeps_step; [|done].
  apply keeps_modify. intros g s H. exists g. split; [done|]. by apply grows_insert.
Qed.

Lemma check_all_grows lip rip mask s : grows s (snd (data_check_all_irobs (I:=I) (IS:=IS) lip rip mask s)).
Proof.
  assert (keeps grows (data_check_all_irobs (I:=I) (IS:=IS) lip rip mask)) as H.
  { unfold data_check_all_irobs. repeat first [apply grows_check_each|keeps_step]. }
  destruct (H s s) as (g & <- & K & _); [by split|done].
Qed.

(** The set of connections in use. *)
Definition in_use X s : Prop := available_csocks s = X.

Lemma keeps_in_use (f : SK -> SK) : (forall s, available_csocks (f s) = available_csocks s) -> keeps in_use (modify f).
Proof. intros Hf. apply keeps_modify. intros X s <-. exists (available_csocks s). split; [done|apply Hf]. Qed.

Lemma use_pair labels n : keeps in_use (get_iface_pair_locked (I:=I) (IS:=IS) labels n).
Proof. unfold get_iface_pair_locked. repeat first [by apply keeps_in_use|keeps_step]. Qed.

Lemma use_matches labels n c : keeps in_use (csock_matches (I:=I) (IS:=IS) labels n c).
Proof. unfold csock_matches. repeat first [apply use_pair|keeps_step]. Qed.

Lemma use_check_each ids lip rip mask : keeps in_use (data_check_each (I:=I) (IS:=IS) ids lip rip mask).
Proof. induction ids as [|id ids IH]; simpl; repeat first [done|by apply keeps_in_use|keeps_step]. Qed.

(** What [find_csock] finds is in use. *)
Lemma use_find (pred : Z * CSocket -> M SK bool) X s :
  (forall hc, keeps in_use (pred hc)) ->
  wp in_use (find_csock pred) (fun X (r : option Z) _ => forall h, r = Some h -> h ∈ X) X s.
Proof.
  intros Hp. unfold find_csock. apply wp_inv. intros HX. apply wp_bind, wp_gets.
  assert (Forall (fun hc : Z * CSocket => hc.1 ∈ X) (csock_list s)) as Hl.
  { unfold csock_list. apply Forall_forall. intros [h c]. rewrite list_elem_of_omap.
    intros (h' & Hh & E). rewrite <- HX. apply elem_of_ascending in Hh.
    destruct (sk_csocks s !! h'); [|done]. by injection E as <- _. }
  revert Hl. generalize (csock_list s). intros l Hl. clear HX. revert s. induction Hl as [|hc l Hhc Hl IH]; intros s; simpl; [by apply wp_ret|].
  eapply wp_keeps; [apply Hp|]. intros X' b s' <- _. destruct b; [|apply IH].
  apply wp_ret. by intros h [= <-].
Qed.

Lemma use_make local remote s h :
  fst (make_new_csocket (I:=I) (IS:=IS) k local remote false s) = Ret h ->
  h ∈ available_csocks (snd (make_new_csocket (I:=I) (IS:=IS) k local remote false s)).
Proof.
  unfold make_new_csocket, csock_by_ifaces, find_csock_pure.
  destruct (use_find (fun hc => mret (bool_decide (cs_ips hc.2 = (ip_addr local, ip_addr remote))))
    (available_csocks s) s ltac:(intros; apply keeps_ret) eq_refl) as (X' & HX & HX' & K).
  change (available_csocks s = X') in HX. subst X'.
  cbv [mbind M_bind].
  destruct (find_csock _ s) as [[[h0|]|e|t] s1]; simpl in *; try done.
  { intros [= <-]. rewrite HX'. by apply (K (Some h0)). }
  destruct (socket_fails k); [done|]. simpl. intros [= <-]. set_solver.
Qed.

Lemma use_new labels n s h :
  fst (new_csock_with_labels (I:=I) (IS:=IS) k labels n s) = Ret (Some h) ->
  h ∈ available_csocks (snd (new_csock_with_labels (I:=I) (IS:=IS) k labels n s)).
Proof.
  unfold new_csock_with_labels. cbv [mbind M_bind].
  destruct (use_find (fun hc => csock_matches labels n hc.2) (available_csocks s) s
    ltac:(intros; apply use_matches) eq_refl) as (X' & HX & HX' & K). unfold csock_with_labels.
  change (available_csocks s = X') in HX. subst X'.
  destruct (find_csock _ s) as [[[h0|]|e|t] s1]; simpl in *; try done.
  { intros [= <-]. rewrite HX'. by apply (K (Some h0)). }
  destruct (get_iface_pair_locked labels n s1) as [[[[l r]|]|e|t] s2]; simpl; try done.
  pose proof (use_make l r s2) as Km.
  destruct (make_new_csocket k l r false s2) as [[h1|e|t] s3]; simpl in *; try done.
  intros [= <-]. by apply Km.
Qed.

(** Every request of [other] is in the sum, or one for the same IROB. *)
Lemma index_add_has ty d x other :
  d ∈ index_get ty other -> exists y, y ∈ index_get ty (index_add x other) /\ sd_id y = sd_id d.
Proof.
  assert (forall items tasks, (forall y, y ∈ tasks -> y ∈ PrioritySet.insert_range items tasks) /\
    (d ∈ items -> exists y, y ∈ PrioritySet.insert_range items tasks /\ sd_id y = sd_id d)) as K.
  { induction items as [|i items IH]; intros tasks; simpl; [by split; [|intros H%elem_of_nil]|].
    destruct (IH (PrioritySet.insert i tasks)) as [IH1 IH2]. split.
    - intros y Hy. by apply IH1, OrdSet.insert_keeps.
    - rewrite elem_of_cons. intros [->|Hd]; [|by apply IH2].
      destruct (insert_request i tasks) as (y & Hy & E). exists y. split; [by apply IH1|done]. }
  intros Hd. destruct ty; simpl in *; by apply K.
Qed.

(** A request for the same IROB waits in the multi-socket's indexes or in those of
    a connection in use. *)
Definition waits (ty : index_type) (d : IROBSchedulingData) s : Prop :=
  exists y, sd_id y = sd_id d /\ (y ∈ index_get ty (irob_indexes s) \/
    exists h c, h ∈ available_csocks s /\ sk_csocks s !! h = Some c /\ y ∈ index_get ty (cs_indexes c)).

Lemma waits_grows ty d s s' : grows s s' -> waits ty d s -> waits ty d s'.
Proof.
  intros [E1 E2 H] (y & E & [Hy|(h & c & Ha & Hc & Hy)]); exists y; (split; [done|]); [left; auto|].
  right. exists h, c. by rewrite E1, E2.
Qed.

Lemma waits_taken ty d x s :
  d ∈ index_get ty x -> waits ty d (upd_irob_indexes (fun y => index_add y x) s).
Proof.
  intros Hd. destruct (index_add_has ty d (irob_indexes s) x Hd) as (y & Hy & E). exists y. split; [done|]. by left.
Qed.

Lemma waits_moved ty d x s h m :
  d ∈ index_get ty x -> h ∈ available_csocks s -> sk_csocks s !! h = Some m ->
  waits ty d (upd_csock h (set_cs_indexes (fun y => index_add y x)) s).
Proof.
  intros Hd Hh Hm. destruct (index_add_has ty d (cs_indexes m) x Hd) as (y & Hy & E). exists y. split; [done|].
  right. eexists h, _. split; [done|]. split; [simpl; by rewrite lookup_alter_eq, Hm|done].
Qed.
End handover.

Section left.
Context {IS I : Type} `{!IdSet IS} `{!InstrumentsChooser I} {NE : NetEstimates} (k : kernel) (cs : Z).
Abbreviation ST := (sender_thread IS I).

Lemma nv_remove h : raises ControlException (fun _ => False) (remove_csock (IS:=IS) (I:=I) h).
Proof. unfold remove_csock. raises_go. Qed.


(** Not undefined behaviour, and no exception of another kind. *)
Definition regular {A} (r : outcome A) : Prop :=
  match r with Ret _ => True | Throw e => e = ControlException | Trap _ => False end.

Lemma on_sk_case {A B} (m : M (CMMSocketImpl IS I) A) (f : A -> M ST B) (st : ST) r st' :
  (on_sk m ≫= f) st = (r, st') -> regular r -> raises ControlException (fun _ => False) m ->
  exists a s, m (st_sk st) = (Ret a, s) /\ f a (with_sk s st) = (r, st').
Proof.
  intros E Hr Hm. specialize (Hm (st_sk st)). revert E Hm. cbv [mbind M_bind on_sk zoom].
  destruct (m (st_sk st)) as [[a|e|t] s]; [eauto| |]; intros [= <- <-] Hm; simpl in *; [|done].
  subst e. by destruct (Hm s).
Qed.

Lemma then_throw {A B} (m : M ST A) (st st' : ST) :
  (m;; throw (A := B) ControlException) st = (Throw ControlException, st') ->
  exists r, regular r /\ m st = (r, st').
Proof.
  cbv [mbind M_bind throw lift]. destruct (m st) as [[a|e|t] s]; [| |done]; intros [= ]; subst; eexists; by split; [|done].
Qed.

Lemma check_waits ty d a b z (s : CMMSocketImpl IS I) : waits ty d s -> forall r s',
  data_check_all_irobs a b z s = (r, s') -> waits ty d s' /\ r <> Throw ControlException.
Proof.
  intros Hw r s' E. pose proof (check_all_grows a b z s) as G. rewrite E in G. split.
  - by apply (waits_grows ty d s s').
  - intros ->. by apply nv_check_all in E.
Qed.

(** C15: Whichever of these five work functions gives up the connection, the request it
    was working on is in the multi-socket's index of its kind again when it
    leaves, where the thread of another connection finds it; a chunk's
    acknowledgement too.  The sixth, [send_acks], does not belong here: the acknowledgement
    it was sending is lost. *)
Theorem failed_work_requeued io data ack :
  raises ControlException (requeued (IS:=IS) (I:=I) NEW_IROBS (sd_id data)) (begin_irob k io cs data) /\
  raises ControlException (requeued (IS:=IS) (I:=I) FINISHED_IROBS (sd_id data)) (end_irob cs data) /\
  raises ControlException (chunk_requeued (IS:=IS) (I:=I) data ack) (irob_chunk k io cs data ack) /\
  raises ControlException (requeued (IS:=IS) (I:=I) RESEND_REQUESTS (sd_id data)) (resend_request k cs data) /\
  raises ControlException (requeued (IS:=IS) (I:=I) WAITING_DATA_CHECKS (sd_id data)) (send_data_check k io cs data).
Proof. split_and!; auto using failed_begin, failed_end, failed_chunk, failed_resend, failed_data_check. Qed.

(** No network is left without the connection: no other connection is in use
    and, on the connecting side, which can open one, there is no pair of
    interfaces for it. *)
Definition no_network_left (s : CMMSocketImpl IS I) : Prop :=
  if accepting_side s then available_csocks s ⊆ {[cs]}
  else (forall h, h ∈ available_csocks s -> h <> cs -> sk_csocks s !! h = None) /\
       fst (get_iface_pair_locked 0 0 s) = Ret None.

Lemma remove_csock_run (s s' : CMMSocketImpl IS I) r :
  remove_csock cs s = (r, s') -> s' = upd_available_csocks (fun a => a ∖ {[cs]}) s.
Proof.
  unfold remove_csock, deref. cbv [mbind M_bind modify lift]. cbn [upd_available_csocks sk_csocks].
  destruct (access _) as [c| |]; [destruct (network_type c)| |]; by intros [= _ <-].
Qed.

Lemma none_left_accepting (s : CMMSocketImpl IS I) s' a :
  accepting_side s = true -> csocks_empty s' = true ->
  grows (upd_irob_indexes a (upd_available_csocks (fun x => x ∖ {[cs]}) s)) s' -> no_network_left s.
Proof.
  intros Ha He [_ Hg _]. unfold no_network_left. rewrite Ha. unfold csocks_empty in He.
  apply bool_decide_eq_true in He. rewrite Hg in He. cbn [available_csocks upd_irob_indexes upd_available_csocks] in He.
  intros h Hh. apply elem_of_singleton. destruct (decide (h = cs)) as [|Hne]; [done|].
  exfalso. apply (not_elem_of_empty (C := gset Z) h). rewrite <- He. apply elem_of_difference. by rewrite elem_of_singleton.
Qed.

Lemma none_left_connecting (s : CMMSocketImpl IS I) :
  accepting_side s = false ->
  fst (new_csock_with_labels k 0 0 (upd_available_csocks (fun x => x ∖ {[cs]}) s)) = Ret None ->
  no_network_left s.
Proof.
  intros Ha E. unfold no_network_left. rewrite Ha. revert E.
  unfold new_csock_with_labels, csock_with_labels, find_csock, gets, get. cbv [mbind M_bind].
  set (s1 := upd_available_csocks (fun x => x ∖ {[cs]}) s). destruct (csock_list s1) as [|hc l] eqn:El.
  - simpl. intros E. split.
    + intros h Hh Hne. destruct (sk_csocks s !! h) as [c|] eqn:Ec; [|done]. exfalso.
      assert ((h, c) ∈ csock_list s1) as Hin; [|rewrite El in Hin; by apply elem_of_nil in Hin].
      unfold csock_list. apply list_elem_of_omap. exists h. split; [apply elem_of_ascending; apply elem_of_difference; by rewrite elem_of_singleton|].
      simpl. by rewrite Ec.
    + assert (fst (get_iface_pair_locked 0 0 s1) = fst (get_iface_pair_locked 0 0 s)) as <-.
      { unfold get_iface_pair_locked, get, modify, lift, mret, M_ret. cbv [mbind M_bind].
        change (isLoopbackOnly s1) with (isLoopbackOnly s). destruct (isLoopbackOnly s); [|done].
        change (ifaces_of (local_ifaces s1)) with (ifaces_of (local_ifaces s)).
        change (ifaces_of (remote_ifaces s1)) with (ifaces_of (remote_ifaces s)).
        destruct (access _); try done. by destruct (access _). }
      destruct (get_iface_pair_locked 0 0 s1) as [[[[l r]|]|e|t] s2]; simpl in *; try done.
      by destruct (make_new_csocket k l r false s2) as [[h|e|t] s3].
  - cbn. done.
Qed.

(** C14: When [Run] is left because the connection failed, no request of the
    connection is lost: for each of them a request of the same kind for the same IROB
    waits in the multi-socket's indexes or in those of a connection in use. The one
    exception is that no network was left without the connection ([no_network_left]);
    then [Run] shuts the multi-socket down. *)
Theorem failed_connection_requests (st st' : ST) c ty d :
  sk_csocks (st_sk st) !! cs = Some c -> d ∈ index_get ty (cs_indexes c) ->
  run_failed k cs ControlException st = (Throw ControlException, st') ->
  waits ty d (st_sk st') \/ no_network_left (st_sk st) /\ shutting_down (st_sk st') = true.
Proof.
  intros Hc Hd E. unfold run_failed, my_csock in E.
  apply on_sk_case in E as (u & s1 & E1 & E); [|done|by apply nv_remove].
  apply remove_csock_run in E1. assert (sk_csocks s1 = sk_csocks (st_sk st)) as E1' by (by rewrite E1).
  apply on_sk_case in E as (c' & s2 & E2 & E); [|done|apply nv_deref].
  assert (s2 = s1 /\ c' = c) as [-> ->].
  { revert E2. unfold deref. cbn [st_sk with_sk]. rewrite E1', Hc. by intros [= <- <-]. }
  apply on_sk_case in E as (sk & s2 & [= <- <-] & E); [|done|raises_go].
  assert (accepting_side s1 = accepting_side (st_sk st)) as Eacc by (by rewrite E1).
  apply then_throw in E as (r & Hr & E). revert E. cbn [st_sk with_sk].
  destruct (accepting_side s1) eqn:Ha; symmetry in Eacc; intros E.
  - apply on_sk_case in E as (u2 & s2 & [= <- <-] & E); [|done|raises_go].
    apply on_sk_case in E as (u3 & s3 & E3 & E); [|done|apply nv_check_all].
    match type of E3 with data_check_all_irobs ?a ?b ?c ?s = _ => pose proof (check_all_grows a b c s) as G end.
    rewrite E3, E1 in G.
    apply (check_waits ty d) in E3; [destruct E3 as [E3 _]|by apply waits_taken].
    apply on_sk_case in E as (sk & s4 & [= <- <-] & E); [|done|raises_go].
    revert E. unfold when. cbn [st_sk with_sk]. destruct (csocks_empty s3) eqn:He; intros [= _ <-]; [|by left].
    right. split; [|done]. by apply (none_left_accepting _ s3 _ Eacc He G).
  - apply on_sk_case in E as (h & s2 & E4 & E); [|done|apply nv_new].
    destruct h as [h|].
    2: { injection E as _ <-. right. split; [|done]. apply none_left_connecting; [done|].
         rewrite <- E1. cbn [st_sk with_sk] in E4. by rewrite E4. }
    left. pose proof (use_new k 0 0 s1 h) as Hu. cbn [st_sk with_sk] in E4. rewrite E4 in Hu. specialize (Hu eq_refl).
    apply on_sk_case in E as (m & s3 & E3 & E); [|done|apply nv_deref].
    assert (sk_csocks s2 !! h = Some m /\ s3 = s2) as [Hm ->].
    { revert E3. unfold deref. cbn [st_sk with_sk]. destruct (_ !! h); [|done]. by intros [= <- <-]. }
    assert (forall s4 st4, waits ty d s4 ->
      (on_sk (data_check_all_irobs (ip_addr (local_iface c)) 0 0)) (with_sk s4 st4) = (r, st') -> waits ty d (st_sk st')) as K.
    { intros s4 st4 Hw E5. unfold on_sk, zoom in E5.
      destruct (data_check_all_irobs _ _ _ _) as [o s5] eqn:E6 in E5. injection E5 as <- <-.
      by apply (check_waits ty d) in E6 as [? _]. }
    destruct (connected m); apply on_sk_case in E as (u4 & s4 & [= <- <-] & E); try done; try raises_go;
      apply (K _ _) in E; try done.
    + by eapply waits_moved.
    + by apply waits_taken.
Qed.
End left.

(** ** An acknowledgement that is lost *)

Section lost.
Context {IS I : Type} `{!IdSet IS} `{!InstrumentsChooser I} {NE : NetEstimates} (k : kernel) (io : sender_io) (cs : Z).
Abbreviation ST := (sender_thread IS I).

Lemma pop_index_run w ty (st st' : ST) d :
  pop_index w ty st = (Ret (Some d), st') -> outgoing_irobs (st_sk st') = outgoing_irobs (st_sk st) /\ sent st' = sent st.
Proof.
  unfold pop_index, get_indexes, upd_indexes, on_sk, zoom, deref.
  destruct w as [h|]; cbv [mbind M_bind gets modify mret M_ret]; cbn [st_sk].
  - destruct (access (sk_csocks (st_sk st) !! h)) as [c|e|t]; [|done|done].
    destruct (PrioritySet.pop (index_get ty (cs_indexes c))) as [[d' rest]|]; [|done]. by intros [= _ <-].
  - destruct (PrioritySet.pop (index_get ty (irob_indexes (st_sk st)))) as [[d' rest]|]; [|done]. by intros [= _ <-].
Qed.

Lemma chunk_of_gone_irob data ack (st : ST) :
  has_bits (sd_send_labels data) CMM_LABEL_BACKGROUND = false -> sender_find (sd_id data) (st_sk st) = None ->
  irob_chunk k io cs data ack st = (Ret true, st).
Proof.
  intros Hb Hf. destruct st. unfold irob_chunk, choose_chunksize, delegate_if_necessary. rewrite Hb.
  cbv [mbind M_bind get on_sk zoom mret M_ret]. simpl in *.
  destruct (1 <? _); cbn; by rewrite Hf.
Qed.

(** When a chunk is requested of an IROB that is not live any more (it was
    acknowledged), the acknowledgement that was popped to ride on it is neither
    sent nor put back. *)
Theorem piggybacked_ack_lost w data a (st st' : ST) :
  has_bits (sd_send_labels data) CMM_LABEL_BACKGROUND = false -> sender_find (sd_id data) (st_sk st) = None ->
  pop_index w WAITING_ACKS st = (Ret (Some a), st') ->
  chunk_with_ack k io cs w data st = (Ret true, st') /\ sent st' = sent st.
Proof.
  intros Hb Hf Hp. pose proof (pop_index_run _ _ _ _ _ Hp) as [Ho Hs]. split; [|done].
  unfold chunk_with_ack. cbv [mbind M_bind]. rewrite Hp.
  rewrite chunk_of_gone_irob; [done|done|]. unfold sender_find in *. by rewrite Ho.
Qed.
End lost.

(** Connection 5 fails in the middle of the Begin_IROB of IROB 0; another
    connection is left. *)
Import ListBits.
#[local] Existing Instance no_instruments.
#[local] Existing Instance no_estimates.

Definition demo_failing : sender_thread (IntSet.t (list bool)) unit :=
  Thread (upd_available_csocks (fun _ => {[5; 6]})
           (upd_sk_csocks (fun l => <[6 := CSock (demo_wifi.1) (demo_wifi.2) true indexes_empty false]> l) demo_given))
    [] [Short 0] [] false.
Definition demo_request : IROBSchedulingData := sched_chunks 0 false 4.

Lemma failed_work_requeued_witness : exists st',
  begin_irob demo_kernel demo_io 5 demo_request demo_failing = (Throw ControlException, st') /\
  requeued NEW_IROBS 0 st'.
Proof.
  eexists. split; [vm_compute; reflexivity|].
  apply (proj1 (failed_work_requeued demo_kernel 5 demo_io demo_request None) demo_failing). vm_compute. reflexivity.
Defined.

Definition demo_failed : outcome unit * sender_thread (IntSet.t (list bool)) unit :=
  run_failed demo_kernel 5 ControlException demo_failing.

Lemma failed_connection_requests_witness :
  shutting_down (st_sk (snd demo_failed)) = false /\ waits NEW_IROBS demo_request (st_sk (snd demo_failed)).
Proof.
  assert (shutting_down (st_sk (snd demo_failed)) = false) as E by (vm_compute; reflexivity).
  split; [exact E|].
  destruct (failed_connection_requests demo_kernel 5 demo_failing (snd demo_failed)
    (CSock (demo_wifi.1) (demo_wifi.2) true (index_insert NEW_IROBS demo_request indexes_empty) false)
    NEW_IROBS demo_request) as [K|[_ K]].
  - vm_compute. reflexivity.
  - left.
  - vm_compute. reflexivity.
  - exact K.
  - rewrite E in K. discriminate K.
Defined.

(** An acknowledgement for the peer's IROB 7 waits; IROB 3 is not live. *)
Definition demo_waiting_ack : sender_thread (IntSet.t (list bool)) unit :=
  snd (on_sk (schedule WAITING_ACKS (sched_ack 7 no_time 0)) demo_failing).

Lemma piggybacked_ack_lost_witness : exists st' : sender_thread (IntSet.t (list bool)) unit,
  chunk_with_ack demo_kernel demo_io 5 None (sched_chunks 3 true 4) demo_waiting_ack = (Ret true, st') /\
  sent st' = [] /\ index_get WAITING_ACKS (irob_indexes (st_sk st')) = [].
Proof.
  destruct (pop_index None WAITING_ACKS demo_waiting_ack) as [[[a|]|e|t] st'] eqn:E;
    try (vm_compute in E; discriminate E).
  exists st'.
  destruct (piggybacked_ack_lost demo_kernel demo_io 5 None (sched_chunks 3 true 4) a demo_waiting_ack st'
    ltac:(reflexivity) ltac:(vm_compute; reflexivity) E) as [H1 H2].
  split; [exact H1|]. split; [exact H2|]. vm_compute in E. injection E as _ <-. reflexivity.
Defined.
