(* ===== verification/Ends.v ===== *)
(** The two ends of a multi-socket.

    A sender thread at one end (SenderTruth.v), the messages it writes, and the
    receiving side of the other end (History.v): [two_ends] composes the two
    invariants.  The world the receiver's theorems speak of is read off the
    sender's book. *)

From S2P Require Import Prelude Logic Labels Scheduling Irob IntSet Chunks Control SenderIrob.
From S2P Require Import SenderSpec ReceiverIrob ReceiverSpec Transfer Lattice LatticeRep LatticeSpec.
From S2P Require Import ReceiverLattice ReceiverOrder Chooser Thunks MultiSocket Socket Receiver.
From S2P Require Import Delivery System History Sender Outgoing OutInv SocketInv Incoming SenderTruth.

Implicit Types (p : PendingSenderIROB) (id : Z) (b : book).

(** ** From the book to the world *)

Definition world_of b : world :=
  (fun p => let w := sent_of p in
            Sent (si_deps w) (si_labels w) (si_cut w) (si_ended w && (0 <? num_bytes p))) <$> b.

Lemma lookup_world b id w :
  world_of b !! id = Some w -> exists p, b !! id = Some p /\ si_deps w = si_deps (sent_of p) /\
    si_labels w = si_labels (sent_of p) /\ si_cut w = wire_cut p /\
    (si_ended w = true -> fully_cut p /\ 0 < num_bytes p).
Proof.
  unfold world_of. rewrite lookup_fmap_Some. intros (p & <- & Hp). exists p. split_and!; try done.
  simpl. rewrite !andb_true_iff, Z.ltb_lt. by intros [[? ?] ?].
Qed.

Lemma length_total l : Forall (fun c => 0 < ch_datalen c) l -> Z.of_nat (length l) <= total_len l.
Proof.
  induction 1 as [|c l Hc _ IH]; [done|]. rewrite total_len_cons. simpl length. lia.
Qed.

(** An End_IROB of an IROB with no data; the receiver does not cope with one. *)
Definition ends_nothing (m : message) : bool :=
  match hdr_op (msg_hdr m) with OpEndIrob _ n _ => ntohl n =? 0 | _ => false end.

Section world.
Context (lo hi : Z) (Hlo : 0 <= lo) (Hhi : hi <= 2 ^ 32) (Hwin : hi - lo < 2 ^ 28).

Lemma window_size (X : gset Z) : (forall d, d ∈ X -> in_window lo hi d) -> Z.of_nat (size X) < 2 ^ 28.
Proof.
  intros HX. destruct (decide (X = ∅)) as [->|Hne]; [by rewrite size_empty|].
  apply set_choose_L in Hne as [x Hx]. pose proof (HX x Hx) as Hw. unfold in_window in Hw.
  assert (size X <= size (list_to_set (seqZ lo (hi - lo)) : gset Z))%nat as H.
  { apply subseteq_size. intros d Hd. apply elem_of_list_to_set, elem_of_seqZ. specialize (HX d Hd).
    unfold in_window in HX. lia. }
  rewrite size_list_to_set in H by apply NoDup_seqZ. rewrite length_seqZ in H. lia.
Qed.

Lemma world_of_ok b : book_ok lo hi b -> world_ok lo hi (world_of b) /\ wire_ok hi (world_of b).
Proof.
  intros Hb. split; split; try done; intros id w (p & Hp & Ed & El & Ec & Ee)%lookup_world;
    pose proof (Hb id p Hp) as He; pose proof (en_ok _ _ _ _ He) as Hok; rewrite ?Ed, ?El, ?Ec; simpl.
  - pose proof (length_total _ (so_sent_pos p Hok)). pose proof (so_sent_le p Hok).
    pose proof (en_size _ _ _ _ He). split; [apply wire_cutting; [done|lia]|].
    intros [[_ Ha] Hn]%Ee Enil. pose proof (all_chunked_total p Hok Ha) as Et.
    unfold wire_cut in Enil. apply fmap_nil_inv in Enil. rewrite Enil in Et. unfold total_len in Et. simpl in Et. lia.
  - apply He.
  - apply Forall_forall. intros d. rewrite elem_of_ascending. apply He.
  - destruct (en_labels _ _ _ _ He) as (l & E & Hl). by rewrite E.
  - rewrite length_ascending. apply (window_size (deps (sbase p))), He.
  - unfold wire_cut. rewrite total_len_wire. pose proof (so_sent_le p Hok). pose proof (en_size _ _ _ _ He). lia.
  - unfold wire_cut. apply Forall_fmap. eapply Forall_impl; [apply (so_ids p Hok)|]. intros c.
    by rewrite (en_id _ _ _ _ He).
Qed.

(** A truthful message is one of the world's. *)
Lemma truthful_part b m :
  book_ok lo hi b -> truthful b m -> irob_message m = true -> ends_nothing m = false ->
  exists id q, msg_of (world_of b) id q = Some m.
Proof.
  intros Hb Ht Hm Hne. destruct (Ht Hm) as (id & p & Hp & Hs). exists id.
  pose proof (en_ok _ _ _ _ (Hb id p Hp)) as Hok. pose proof (en_size _ _ _ _ (Hb id p Hp)) as Hz.
  unfold msg_of, world_of. rewrite lookup_fmap, Hp. simpl.
  destruct Hs as [->|[(c & Hc & ->)|[[Hcm Ha] ->]]].
  - by exists PBegin.
  - apply list_elem_of_lookup in Hc as [i Hi]. exists (PChunk i). by rewrite Hi.
  - exists PEnd. rewrite Hcm, Ha. unfold ends_nothing in Hne. simpl in Hne. unfold wire_cut in Hne.
    rewrite total_len_wire, (all_chunked_total p Hok Ha) in Hne.
    assert (0 <= num_bytes p) as H0.
    { rewrite (so_num p Hok). by eapply layout_total, (so_app p Hok). }
    rewrite ntohl_htonl, Z.eqb_neq in Hne by lia. by rewrite (proj2 (Z.ltb_lt _ _)) by lia.
Qed.
End world.

(** ** The receiving end *)

Section receiving.
Context {IS I : Type} `{!IdSet IS} `{!IdSetLaws IS} `{!InstrumentsChooser I} {NE : NetEstimates}.
Context (k : kernel).
Abbreviation SK := (CMMSocketImpl IS I).
Implicit Types (s : SK).

(** What else happens there: calls, messages that carry no IROB, and the rest of
    the program, which does not touch the incoming IROBs. *)
Inductive rest_step s : SK -> Prop :=
| RestOwn lo hi s' : own_step lo hi s s' -> rest_step s s'
| RestMessage k now cs m :
    irob_message m = false -> rest_step s (snd (run_message k now cs m s))
| RestOther s' :
    incoming_irobs s' = incoming_irobs s -> remote_shutdown s' = remote_shutdown s ->
    shutting_down s' = shutting_down s -> rest_step s s'.

Lemma rest_unseen s s' : rtc rest_step s s' -> unseen s s'.
Proof.
  induction 1 as [s|s1 s2 s3 H _ IH]; [apply unseen_refl|]. eapply unseen_trans; [|exact IH].
  destruct H as [? ? s' H|? ? ? ? H|s' E1 E2 E3]; [by eapply own_unseen|by apply message_unseen|].
  intros Hs. rewrite E1, E2, E3. by split.
Qed.

Inductive end_event :=
| Arrives (now : timeval) (cs : Z) (m : message)
| Reads (now : timeval) (len flags : Z) (read_begin : timeval)
| Steps (f : SK -> SK).

Definition end_step (e : end_event) : M SK (list mc_recv_result) :=
  match e with
  | Arrives now cs m => run_message k now cs m;; mret []
  | Reads now len flags t => r ← mc_recv k now len flags t; mret [r]
  | Steps f => modify f;; mret []
  end.

Fixpoint run_end (es : list end_event) : M SK (list mc_recv_result) :=
  match es with
  | [] => mret []
  | e :: es => r ← end_step e; rs ← run_end es; mret (r ++ rs)
  end.

(** A message of the other end that carries an IROB and does not end an empty one,
    on an open csocket; a read
    of at least one byte, neither peeking nor insisting on the full length. *)
Definition end_ok (msgs : list message) (e : end_event) s : Prop :=
  match e with
  | Arrives _ cs m =>
      m ∈ msgs /\ irob_message m = true /\ ends_nothing m = false /\ is_Some (sk_csocks s !! cs)
  | Reads _ len flags _ => 0 < len /\ has_bits flags MSG_PEEK = false /\ has_bits flags MSG_WAITALL = false
  | Steps f => rtc rest_step s (f s)
  end.

Fixpoint end_history (msgs : list message) (es : list end_event) s : Prop :=
  match es with
  | [] => True
  | e :: es => end_ok msgs e s /\ end_history msgs es (snd (end_step e s))
  end.

Context (lo hi : Z) (Hlo : 0 <= lo) (Hhi : hi <= 2 ^ 32) (Hwin : hi - lo < 2 ^ 28).
Context (b : book) (Hb : book_ok lo hi b).
Abbreviation hist_inv := (hist_inv (IS:=IS) (I:=I) (world_of b) lo hi).

(** The event is one of a history of the world. *)
Lemma end_event_of msgs e s :
  Forall (truthful b) msgs -> end_ok msgs e s -> (remote_shutdown s = true -> shutting_down s = true) ->
  exists e', event_ok (world_of b) e' s /\
    (forall r s', run_event (world_of b) k e' s = (Ret r, s') -> end_step e s = (Ret r, s')).
Proof.
  intros Hm He Hs. destruct e as [now cs m|now len flags t|f].
  - destruct He as (Hin & Hi & Hn & Hcs). rewrite Forall_forall in Hm.
    destruct (truthful_part lo hi b m Hb (Hm m Hin) Hi Hn) as (id & q & Hq).
    exists (EvMsg now cs id q). split; [split; [done|by rewrite Hq]|]. intros r s'. unfold run_event, end_step.
    rewrite Hq. cbv [mbind M_bind lift access]. unfold run_message.
    destruct (dispatch k now cs m s) as [[a|x|x] s1]; [|done..]. by intros [= <- <-].
  - by exists (EvRecv now len flags t).
  - exists (EvOther f). split; [exact (rest_unseen _ _ He Hs)|done].
Qed.

Lemma run_end_inv msgs es s sent log :
  Forall (truthful b) msgs -> hist_inv sent log s -> end_history msgs es s ->
  exists outs s' sent' new, run_end es s = (Ret outs, s') /\ hist_inv sent' (log ++ new) s' /\
    nonempty outs = new.*2.
Proof.
  intros Hm. revert s sent log. induction es as [|e es IH]; intros s sent log H Hok.
  { exists [], s, sent, []. by rewrite app_nil_r. }
  destruct Hok as [He Hok]. cbn [run_end]. destruct (world_of_ok lo hi Hhi Hwin b Hb) as [HW HWw].
  destruct (end_event_of msgs e s Hm He (hi_shut _ _ _ _ _ _ H)) as (e' & He' & E).
  destruct (history_inv (world_of b) k lo hi Hlo ltac:(lia) ltac:(lia) HW HWw [e'] s sent log H (conj He' Logic.I))
    as (r & s1 & new & Er & H1 & Hn). cbn [run_events] in Er.
  destruct (run_event (world_of b) k e' s) as [[r'|x|x] s1'] eqn:Ee;
    [|by cbv [mbind M_bind] in Er; rewrite Ee in Er..].
  erewrite M_bind_ret in Er by exact Ee. cbv [mbind M_bind mret M_ret] in Er. injection Er as <- <-.
  rewrite app_nil_r in Hn. rewrite (E r' s1' eq_refl) in Hok. simpl in Hok.
  destruct (IH s1' _ _ H1 Hok) as (rs & s2 & sent2 & new2 & E2 & H2 & Hn2).
  exists (r' ++ rs), s2, sent2, (new ++ new2). erewrite M_bind_ret by exact (E r' s1' eq_refl).
  erewrite M_bind_ret by exact E2. rewrite app_assoc. split_and!; [done|done|].
  by rewrite fmap_app, filter_app, Hn, Hn2, fmap_app.
Qed.
End receiving.
Arguments end_event : clear implicits.

(** ** Both ends *)

Section ends.
Context {IS I : Type} `{!IdSet IS} `{!IdSetLaws IS} `{!InstrumentsChooser I} {NE : NetEstimates}.
Context (lo hi : Z) (Hlo : 0 <= lo) (Hhi : hi <= 2 ^ 32) (Hwin : hi - lo < 2 ^ 28).
Abbreviation SK := (CMMSocketImpl IS I).
Abbreviation ST := (sender_thread IS I).

(** What the non-empty reads give, piece by piece: the next bytes of an IROB that
    was ended, once everything was given of those it depends on. *)
Definition delivers b (log : list (Z * list byte)) : Prop :=
  forall l1 id bs l2, log = l1 ++ (id, bs) :: l2 ->
  exists p, b !! id = Some p /\ fully_cut p /\ bs <> [] /\ (log_of id l1 ++ bs) `prefix_of` app_data p /\
    forall d, d ∈ deps (sbase p) -> exists q, b !! d = Some q /\ fully_cut q /\ log_of d l1 = app_data q.

Lemma cut_bytes b id p :
  book_ok lo hi b -> b !! id = Some p -> fully_cut p ->
  bytes_of_chunks (cut_of (world_of b) id) = app_data p.
Proof.
  intros Hb Hp [Hc Ha]. pose proof (en_ok _ _ _ _ (Hb id p Hp)) as Hok.
  unfold cut_of, world_of. rewrite lookup_fmap, Hp. simpl. unfold wire_cut.
  rewrite (wire_bytes p 0 0), all_chunked_total by (apply Hok || done || lia).
  unfold slice. simpl. apply take_ge. pose proof (length_app_data p Hok). lia.
Qed.

Lemma in_order_delivers b log : book_ok lo hi b -> in_order (world_of b) log -> delivers b log.
Proof.
  intros Hb Ho l1 id bs l2 E. destruct (Ho l1 id bs l2 E) as (Hne & w & Ew & Hend & Hpre & Hd).
  pose proof Ew as Ew2. apply lookup_world in Ew as (p & Hp & Ed & _ & Ec & Hf). destruct (Hf Hend) as [Hcut _].
  pose proof (cut_bytes b id p Hb Hp Hcut) as Eb. unfold cut_of in Eb. rewrite Ew2 in Eb. rewrite Eb in Hpre.
  exists p. split_and!; try done. intros d Hin. destruct (Hd d) as [(wd & Ewd & Hed) Hlog].
  { rewrite Ed. simpl. by apply elem_of_ascending. }
  apply lookup_world in Ewd as (q & Hq & _ & _ & _ & Hfq). destruct (Hfq Hed) as [Hcq _].
  exists q. by rewrite Hlog, (cut_bytes b d q Hb Hq Hcq).
Qed.

(** C1: From one end to the other.  At one end an application uses a new
    multi-socket while a sender thread runs and the other threads go on, as in the theorem on
    sender threads ([SenderTruth.sender_truth], with the same limits on how two sender threads
    interleave).  At the other end messages that thread wrote arrive, in
    any order, any number of times and over any connections, between ordinary reads
    of the application there (not peeking, not waiting for all of it) and whatever else that
    host does.  An End_IROB of an IROB without data, which the sender may write and which
    makes a later read fail its assertion, is not among those that arrive.
    Then no handler and no read fails, and what the reads return is a
    sequence of pieces of the IROBs as the sending application made them: each
    piece is the next of its IROB's bytes, its IROB was ended by the
    application, and all the bytes of every IROB it depends on came before. *)
Theorem two_ends n cs fuel sock (s0 s : SK) env ws l k (st' : ST) k' es (r : SK) :
  msock_new sock = Ret s0 -> rtc (world_step lo hi n) s0 s -> Forall (world_fn lo hi n) env ->
  snd (ThreadFn cs fuel l k (Thread s env ws [] false)) = st' ->
  incoming_irobs r = rlattice_new -> (remote_shutdown r = true -> shutting_down r = true) ->
  end_history k' (sent st') es r ->
  exists b, book_ok lo hi b /\ Forall (truthful b) (sent st') /\
    exists outs r' log, run_end k' es r = (Ret outs, r') /\ nonempty outs = log.*2 /\ delivers b log.
Proof.
  intros Hnew Hs Henv <- Er Hr Hes.
  destruct (sender_starts lo hi Hlo ltac:(lia) ltac:(lia) n sock s0 s env ws Hnew Hs Henv) as (b0 & _ & HT).
  destruct (safe_ThreadFn lo hi Hlo ltac:(lia) ltac:(lia) cs fuel l k b0 _ HT) as (b & _ & [Ho _ Hm] & _).
  exists b. split; [apply Ho|]. split; [done|].
  destruct (run_end_inv k' lo hi Hlo Hhi Hwin b (oi_book _ _ _ _ Ho) _ es r [] [] Hm) as (outs & r' & sent' & log & E & H & Hn);
    [apply hist_new; [done|lia|lia|done|done]|done|].
  exists outs, r', log. split_and!; [done|done|]. apply in_order_delivers; [apply Ho|]. apply (hi_order _ _ _ _ _ _ H).
Qed.
End ends.

(** ** Witness: the run of SenderTruth.v and a reader. *)

Import ListBits.
#[local] Existing Instance no_instruments.
#[local] Existing Instance no_estimates.

(** The messages in the wrong order, one of them twice, another connection coming
    up in between, and reads of one byte. *)
Definition demo_end_events : list (end_event (IntSet.t (list bool)) unit) :=
  let read := Reads no_time 1 0 no_time in
  match sent demo_run with
  | [m_begin; m_chunk; m_end] =>
      [Arrives no_time 5 m_end; Arrives no_time 5 m_chunk; read;
       Steps (fun s => snd (setup demo_kernel (NetInterface 9 900 900 10 0) false s));
       Arrives no_time 5 m_begin; Arrives no_time 5 m_chunk; read; read; read]
  | _ => []
  end.

Lemma demo_end_history : end_history demo_kernel (sent demo_run) demo_end_events demo_msock.
Proof.
  unfold demo_end_events. destruct demo_sent as [Hl Hi].
  remember (sent demo_run) as ms eqn:E. vm_compute in E. subst ms.
  repeat first
    [ match goal with |- end_history _ _ (_ :: _) _ => split end
    | match goal with |- end_history _ _ [] _ => exact Logic.I end
    | match goal with |- end_ok _ (Steps _) _ =>
        eapply rtc_once, RestOwn, (StepSetup 0 100 _ demo_kernel (NetInterface 9 900 900 10 0) false) end
    | match goal with |- end_ok _ (Reads _ _ _ _) _ => by split_and! end
    | match goal with |- end_ok _ (Arrives _ _ _) _ => split; [set_solver|]; split_and!; vm_compute; eauto end ].
Qed.

Definition reads_of (r : outcome (list mc_recv_result) * demo_sk) : list (list byte) :=
  match r.1 with Ret outs => nonempty outs | _ => [] end.

Lemma demo_reads : reads_of (run_end demo_kernel demo_end_events demo_msock) = [[Byte.x61]; [Byte.x62]].
Proof. vm_compute. reflexivity. Qed.

Lemma two_ends_witness : exists (b : book) log, delivers b log /\ log.*2 = [[Byte.x61]; [Byte.x62]].
Proof.
  destruct (two_ends 0 100 ltac:(lia) ltac:(lia) ltac:(lia) 1 5 10 3 demo_fresh demo_given
    [demo_other; demo_end] [] (replicate 2 (demo_kernel, demo_io)) demo_kernel demo_run demo_kernel
    demo_end_events demo_msock eq_refl (sk_world 0 100 1 _ _ demo_steps))
    as (b & _ & _ & outs & r' & log & E & Hn & Hd).
  - apply demo_env.
  - reflexivity.
  - reflexivity.
  - discriminate.
  - exact demo_end_history.
  - exists b, log. split; [exact Hd|]. rewrite <- Hn. pose proof demo_reads as Hr. rewrite E in Hr. exact Hr.
Defined.
