(* ===== verification/BootSpec.v ===== *)
(** The bootstrap of one multi-socket, step by step.

    [sane] is the state of a multi-socket that is being bootstrapped; [fine m] says
    that an operation of the mapping or of the listener returns and keeps it.
    [stage] adds what the bootstrapper has still to receive and has sent; one lemma
    per step of the exchange, up to [exchange_connecting] and [exchange_accepting]. *)

From S2P Require Import Prelude Logic Labels Scheduling Irob IntSet Control SenderIrob.
From S2P Require Import ReceiverIrob Lattice ReceiverLattice Chooser Thunks MultiSocket Socket.
From S2P Require Import Select Bootstrap.

Section sane.
Context {IS I : Type} `{!IdSet IS} `{!InstrumentsChooser I} {NE : NetEstimates}.
Context (k : kernel).
Abbreviation SK := (CMMSocketImpl IS I).
Implicit Types (s : SK) (h : Z) (L R : gmap Z net_interface).

(** A pair of interfaces whose network has one of the known types. *)
Definition pair_ok (l r : net_interface) : Prop := exists t, network_type (csocket_new l r) = Ret t.
Definition compatible L R : Prop :=
  map_Forall (fun _ l => map_Forall (fun _ r => pair_ok l r) R) L /\
  map_Forall (fun ip i => ip_addr i = ip) L /\ map_Forall (fun ip i => ip_addr i = ip) R.

Definition csock_ok L R (c : CSocket) : Prop :=
  L !! ip_addr (local_iface c) = Some (local_iface c) /\ R !! ip_addr (remote_iface c) = Some (remote_iface c).

(** A multi-socket that is being bootstrapped: its interfaces are [L], the remote
    ones it knows are among [R] and include [R0]. *)
Record sane (a : bool) (st : Z) L R R0 s : Prop := {
  sane_side : accepting_side s = a;
  sane_status : bootstrap_status s = Some st;
  sane_local : local_ifaces s = L;
  sane_known : R0 ⊆ remote_ifaces s;
  sane_remote : remote_ifaces s ⊆ R;
  sane_csocks : forall h, h ∈ available_csocks s -> exists c, sk_csocks s !! h = Some c /\ csock_ok L R c;
  sane_irobs : get_all_ids (outgoing_irobs s) = []
}.

Context (a : bool) (st : Z) (L R : gmap Z net_interface) (HLR : compatible L R).
Abbreviation ok := (sane a st L R).

Lemma network_type_ok c : csock_ok L R c -> exists t, network_type c = Ret t.
Proof.
  intros [Hl Hr]. destruct HLR as [H _]. destruct (H _ _ Hl _ _ Hr) as [t Ht]. exists t.
  by destruct c.
Qed.

Lemma sane_frame R0 (f : SK -> SK) s :
  (forall s, accepting_side (f s) = accepting_side s /\ bootstrap_status (f s) = bootstrap_status s /\
     local_ifaces (f s) = local_ifaces s /\ remote_ifaces (f s) = remote_ifaces s /\
     sk_csocks (f s) = sk_csocks s /\ available_csocks (f s) = available_csocks s /\
     outgoing_irobs (f s) = outgoing_irobs s) -> ok R0 s -> ok R0 (f s).
Proof.
  intros Hf []. destruct (Hf s) as (E1 & E2 & E3 & E4 & E5 & E6 & E7).
  split; by rewrite ?E1, ?E2, ?E3, ?E4, ?E5, ?E6, ?E7.
Qed.

Lemma sane_weaken R0 R1 s : R1 ⊆ R0 -> ok R0 s -> ok R1 s.
Proof. intros H []. split; try done. by etrans. Qed.

Lemma sane_upd_csock R0 h f s :
  (forall c, sk_csocks s !! h = Some c -> csock_ok L R c -> csock_ok L R (f c)) -> ok R0 s -> ok R0 (upd_csock h f s).
Proof.
  intros Hf []. split; try done. simpl. intros h' Hh. destruct (sane_csocks0 h' Hh) as (c & E & Hc).
  destruct (decide (h' = h)) as [->|].
  - exists (f c). rewrite lookup_alter_eq, E. auto.
  - exists c. by rewrite lookup_alter_ne.
Qed.

Lemma sane_put R0 h c s : csock_ok L R c -> ok R0 s ->
  ok R0 (upd_available_csocks (fun x => {[h]} ∪ x) (upd_sk_csocks (fun m => <[h := c]> m) s)).
Proof.
  intros Hc []. split; try done. simpl. intros h' Hh.
  destruct (decide (h' = h)) as [->|]; [exists c; by rewrite lookup_insert_eq|].
  destruct (sane_csocks0 h') as (c' & E & K); [set_solver|]. exists c'. by rewrite lookup_insert_ne.
Qed.

Lemma sane_less R0 h s : ok R0 s -> ok R0 (upd_available_csocks (fun x => x ∖ {[h]}) s).
Proof. intros []. split; try done. simpl. intros h' Hh. apply sane_csocks0. set_solver. Qed.

(** ** Operations of the mapping *)

Context (Hnew : forall X, new_address k X ∉ X) (Hsock : socket_fails k = false).

(** A csocket between two addresses; [linked]: a connected one. *)
Definition has_csock (P : CSocket -> Prop) s (ips : Z * Z) : Prop :=
  exists h c, h ∈ available_csocks s /\ sk_csocks s !! h = Some c /\ cs_ips c = ips /\ P c.
Definition has : SK -> Z * Z -> Prop := has_csock (fun _ => True).
Definition linked : SK -> Z * Z -> Prop := has_csock (fun c => connected c = true).

(** Only an accepted connection replaces one that is there. *)
Definition grows s s' : Prop :=
  remote_ifaces s ⊆ remote_ifaces s' /\ (forall ips, has s ips -> has s' ips) /\
  (a = false -> forall ips, linked s ips -> linked s' ips).

#[export] Instance grows_preorder : PreOrder grows.
Proof. split; [by split|]. intros s1 s2 s3 (? & ? & ?) (? & ? & ?). split_and!; [by etrans|auto|auto]. Qed.

(** [m] returns, and afterwards the multi-socket is as sane, and has more. *)
Definition fine {A} (m : M SK A) R0 s (Q : A -> SK -> Prop) : Prop :=
  ok R0 s -> returns m s (fun x s' => ok R0 s' /\ grows s s' /\ Q x s').

Lemma fine_bind {A B} (m : M SK A) (f : A -> M SK B) R0 s P Q :
  fine m R0 s P -> (forall x s', ok R0 s' -> grows s s' -> P x s' -> fine (f x) R0 s' Q) -> fine (m ≫= f) R0 s Q.
Proof.
  intros Hm Hf Hs. eapply returns_step; [by apply Hm|]. intros x s' (Hs' & Hg & HP).
  eapply returns_mono; [by apply Hf|]. intros y s'' (? & ? & ?). split_and!; [done|by etrans|done].
Qed.
Lemma fine_ret {A} (x : A) R0 s (Q : A -> SK -> Prop) : Q x s -> fine (mret x) R0 s Q.
Proof. intros. intros ?. by apply returns_ret. Qed.
Lemma fine_get R0 s (Q : SK -> SK -> Prop) : Q s s -> fine get R0 s Q.
Proof. intros. intros ?. by apply returns_get. Qed.
Lemma fine_modify f R0 s (Q : unit -> SK -> Prop) :
  (ok R0 s -> ok R0 (f s)) -> grows s (f s) -> Q tt (f s) -> fine (modify f) R0 s Q.
Proof. intros. intros ?. apply returns_modify. auto. Qed.
Lemma fine_mono {A} (m : M SK A) R0 s (P Q : A -> SK -> Prop) :
  fine m R0 s P -> (forall x s', ok R0 s' -> grows s s' -> P x s' -> Q x s') -> fine m R0 s Q.
Proof. intros H HQ Hs. eapply returns_mono; [by apply H|]. intros x s' (? & ? & ?). auto. Qed.

Lemma elem_of_csock_list h c s : (h, c) ∈ csock_list s <-> h ∈ available_csocks s /\ sk_csocks s !! h = Some c.
Proof.
  unfold csock_list. rewrite list_elem_of_omap. split.
  - intros (h' & Hh & E). apply elem_of_ascending in Hh. destruct (sk_csocks s !! h') eqn:E'; [|done].
    by simplify_eq/=.
  - intros [Hh E]. exists h. rewrite elem_of_ascending. by rewrite E.
Qed.

Lemma find_pure_spec (p : Z * CSocket -> bool) s :
  find_csock_pure p s = (Ret (fst <$> head (filter (fun hc => p hc = true) (csock_list s))), s).
Proof.
  unfold find_csock_pure, find_csock. etransitivity; [by apply M_bind_ret|].
  induction (csock_list s) as [|hc l IH]; [done|]. simpl. etransitivity; [by apply M_bind_ret|].
  rewrite filter_cons. by destruct (p hc); simpl.
Qed.

Lemma fine_by_ifaces l r R0 s :
  fine (csock_by_ifaces l r) R0 s (fun o s' => s' = s /\
    forall h, o = Some h -> exists c, h ∈ available_csocks s /\ sk_csocks s !! h = Some c /\ cs_ips c = (ip_addr l, ip_addr r)).
Proof.
  intros Hs. exists (fst <$> head (filter (fun hc : Z * CSocket => bool_decide (cs_ips hc.2 = (ip_addr l, ip_addr r)) = true) (csock_list s))), s.
  split; [apply find_pure_spec|]. split_and!; [done..|]. intros h E.
  destruct (filter _ _) as [|[h' c] t] eqn:F; simpl in E; [done|]. injection E as ->.
  assert ((h, c) ∈ filter (fun hc : Z * CSocket => bool_decide (cs_ips hc.2 = (ip_addr l, ip_addr r)) = true) (csock_list s)) as H
    by (rewrite F; left).
  apply list_elem_of_filter in H as [Hp Hh%elem_of_csock_list]. exists c. destruct Hh. split_and!; [done..|].
  by apply bool_decide_eq_true in Hp.
Qed.

Lemma fine_data_check lip rip mask R0 s (Q : unit -> SK -> Prop) : Q tt s -> fine (data_check_all_irobs lip rip mask) R0 s Q.
Proof.
  intros HQ Hs. unfold data_check_all_irobs. apply returns_bind, returns_get. rewrite (sane_irobs _ _ _ _ _ _ Hs).
  by apply returns_ret.
Qed.

(** The handle of a csocket with the same addresses may be dropped for the new one. *)
Lemma grows_put h c o s :
  h ∉ dom (sk_csocks s) -> (o <> None -> a = true) ->
  (forall h', o = Some h' -> exists c', sk_csocks s !! h' = Some c' /\ cs_ips c' = cs_ips c) ->
  let s1 := match o with Some h' => upd_available_csocks (fun x => x ∖ {[h']}) s | None => s end in
  grows s (upd_available_csocks (fun x => {[h]} ∪ x) (upd_sk_csocks (fun m => <[h := c]> m) s1)).
Proof.
  intros Hh Ha Ho s1.
  assert (remote_ifaces s1 = remote_ifaces s /\ sk_csocks s1 = sk_csocks s /\
    forall x, x ∈ available_csocks s -> x ∈ available_csocks s1 \/ o = Some x) as (E1 & E2 & E3).
  { subst s1. destruct o as [h'|]; simpl; (split_and!; [done|done|]); [|auto].
    intros x Hx. destruct (decide (x = h')) as [->|]; [auto|left; set_solver]. }
  set (s2 := upd_available_csocks _ _).
  assert (forall P ips x cx, x ∈ available_csocks s1 -> sk_csocks s !! x = Some cx -> cs_ips cx = ips -> P cx ->
    has_csock P s2 ips) as K.
  { intros P ips x cx Hx Ex Ei HP. exists x, cx. simpl. rewrite E2, lookup_insert_ne; [set_solver|].
    intros ->. by apply Hh, elem_of_dom. }
  split; [simpl; by rewrite E1|]. split.
  - intros ips (x & cx & Hx & Ex & Ei & _). destruct (E3 x Hx) as [H|H]; [by eapply K|].
    destruct (Ho x H) as (c' & Ec' & Ei'). rewrite Ec' in Ex. injection Ex as <-.
    exists h, c. simpl. rewrite lookup_insert_eq. split_and!; [set_solver|done|congruence|done].
  - intros Ef ips (x & cx & Hx & Ex & Ei & Hc). destruct (E3 x Hx) as [H|H]; [by eapply K|].
    rewrite Ha in Ef; [done|by rewrite H].
Qed.

Lemma fine_make l r accepted R0 s :
  csock_ok L R (csocket_new l r) -> (accepted = true -> a = true) ->
  fine (make_new_csocket k l r accepted) R0 s (fun h s' => has s' (ip_addr l, ip_addr r)).
Proof.
  intros Hok Ha. unfold make_new_csocket. eapply fine_bind; [apply fine_by_ifaces|].
  intros o s' Hs' _ [-> Ho] Hs.
  assert (forall s1 e, (o <> None -> a = true) -> s1 = match o with Some h' => upd_available_csocks (fun x => x ∖ {[h']}) s | None => s end ->
    returns (if negb accepted && socket_fails k then throw RuntimeError
      else s ← get;
        let h := new_address k (dom (sk_csocks s)) in
        modify (upd_sk_csocks (fun m => <[h := csocket_new l r]> m));;
        modify (upd_available_csocks (fun a => {[h]} ∪ a));;
        when e (data_check_all_irobs (ip_addr l) (ip_addr r) 0);;
        mret h) s1 (fun _ s' => ok R0 s' /\ grows s s' /\ has s' (ip_addr l, ip_addr r))) as K.
  { intros s1 e Hoa ->. rewrite Hsock, andb_false_r. apply returns_bind, returns_get. cbv zeta.
    set (s1 := match o with Some _ => _ | None => _ end).
    assert (sk_csocks s1 = sk_csocks s) as Ec by (by destruct o).
    set (h := new_address k _). apply returns_bind, returns_modify. apply returns_bind, returns_modify.
    set (s2 := upd_available_csocks _ _).
    assert (ok R0 s2) as Hs2 by (apply sane_put; [done|]; subst s1; destruct o; [by apply sane_less|done]).
    eapply returns_step with (P := fun _ s' => s' = s2).
    - apply returns_when; [|reflexivity]. intros _.
      eapply returns_mono; [by apply (fine_data_check _ _ _ R0 _ (fun _ s' => s' = s2))|]. by intros x s' (_ & _ & ?).
    - intros _ s' ->. apply returns_ret. split_and!; [done| |].
      + subst s2 s1. apply grows_put; [rewrite <- Ec; apply Hnew|done|]. intros h' E.
        destruct (Ho h' E) as (c & ? & ? & ?). eauto.
      + exists h, (csocket_new l r). simpl. rewrite lookup_insert_eq. split_and!; [set_solver|done..]. }
  destruct o as [h|].
  - destruct accepted.
    + apply returns_bind, returns_modify. apply K; [by intros _; apply Ha|done].
    + apply returns_ret. split_and!; [done..|]. destruct (Ho h eq_refl) as (c & ? & ? & ?). by exists h, c.
  - apply returns_bind, returns_ret. by apply K.
Qed.

Lemma has_upd_csock P h f s ips :
  (forall c, sk_csocks s !! h = Some c -> P c -> cs_ips (f c) = cs_ips c /\ P (f c)) ->
  has_csock P s ips -> has_csock P (upd_csock h f s) ips.
Proof.
  intros Hf (x & c & Hx & E & Hi & HP). destruct (decide (x = h)) as [->|].
  - exists h, (f c). destruct (Hf c E HP) as [Hf1 Hf2]. simpl. rewrite lookup_alter_eq, E.
    split_and!; [done|done|congruence|done].
  - exists x, c. split_and!; [done|simpl; by rewrite lookup_alter_ne|done|done].
Qed.
Lemma grows_upd_csock h f s :
  (forall c, sk_csocks s !! h = Some c -> cs_ips (f c) = cs_ips c /\ (connected c = true -> connected (f c) = true)) ->
  grows s (upd_csock h f s).
Proof.
  intros Hf. split_and!; [done|intros ips|intros _ ips]; apply has_upd_csock; intros c E; destruct (Hf c E); auto.
Qed.

(** The csockets on [iface] get its current values. *)
Lemma fine_setup_matches hs iface (local : bool) R0 s :
  (if local then L else R) !! ip_addr iface = Some iface ->
  (forall h, h ∈ hs -> h ∈ available_csocks s /\ exists c, sk_csocks s !! h = Some c /\
     ip_addr (if local then local_iface c else remote_iface c) = ip_addr iface) ->
  fine (setup_matches hs iface local) R0 s (fun _ s' => remote_ifaces s' = remote_ifaces s).
Proof.
  intros Hi. revert s. induction hs as [|h hs IH]; intros s Hhs; [by apply fine_ret|]. simpl.
  destruct (Hhs h) as (Hh & c & Ec & Hc); [left|].
  assert (forall c', sk_csocks s !! h = Some c' -> cs_ips (set_cs_iface iface local c') = cs_ips c') as Hips.
  { intros c' E. simplify_eq. unfold cs_ips. destruct local; simpl; by rewrite <- Hc. }
  assert (forall c', csock_ok L R c' -> csock_ok L R (set_cs_iface iface local c')) as Hset
    by (intros c' []; destruct local; by split).
  eapply fine_bind.
  { apply (fine_modify _ _ _ (fun _ s' => s' = upd_csock h (set_cs_iface iface local) s)); [| |reflexivity].
    - apply sane_upd_csock. auto.
    - apply grows_upd_csock. intros c' E. split; [by apply Hips|]. by destruct local. }
  intros [] s' Hs' _ ->.
  assert (sk_csocks (upd_csock h (set_cs_iface iface local) s) !! h = Some (set_cs_iface iface local c)) as Ec'
    by (simpl; by rewrite lookup_alter_eq, Ec).
  intros _. apply returns_bind. exists (set_cs_iface iface local c), (upd_csock h (set_cs_iface iface local) s).
  split; [unfold deref; by rewrite Ec'|].
  destruct (network_type_ok (set_cs_iface iface local c)) as [t Ht].
  { destruct (sane_csocks _ _ _ _ _ _ Hs' h Hh) as (c1 & E1 & ?). by simplify_eq. }
  apply returns_bind. eapply returns_lift; [exact Ht|].
  eapply returns_mono; [apply IH; [|exact Hs']|]; simpl.
  - intros h' Hh'. destruct (Hhs h') as (H1 & c1 & E1 & Hc1); [by right|]. split; [done|].
    destruct (decide (h' = h)) as [->|]; [|exists c1; by rewrite lookup_alter_ne].
    exists (set_cs_iface iface local c). split; [done|]. by destruct local.
  - intros x s'' (? & ? & ?). done.
Qed.

Lemma elem_of_ifaces i (m : gmap Z net_interface) : i ∈ ifaces_of m <-> exists ip, m !! ip = Some i.
Proof.
  unfold ifaces_of. rewrite list_elem_of_omap. split; [intros (ip & _ & E); eauto|].
  intros (ip & E). exists ip. split; [|done]. apply elem_of_ascending, elem_of_dom. eauto.
Qed.

Lemma elem_of_matching h iface local s :
  h ∈ matching_csocks iface local s -> h ∈ available_csocks s /\ exists c, sk_csocks s !! h = Some c /\
    ip_addr (if (local : bool) then local_iface c else remote_iface c) = ip_addr iface.
Proof.
  unfold matching_csocks. intros (hc & -> & Hf)%list_elem_of_fmap.
  apply list_elem_of_filter in Hf as [E Hf]. destruct hc as [h c]. apply elem_of_csock_list in Hf as []. eauto.
Qed.

Lemma known_remote R0 s ip r : ok R0 s -> remote_ifaces s !! ip = Some r -> R !! ip_addr r = Some r /\ ip_addr r = ip.
Proof.
  intros Hs E. assert (R !! ip = Some r) as H by (by eapply lookup_weaken, sane_remote).
  destruct HLR as (_ & _ & HR). assert (ip_addr r = ip) as <- by exact (HR _ _ H). done.
Qed.

Lemma fine_setup_connections iface need remotes R0 s :
  L !! ip_addr iface = Some iface -> (forall r, r ∈ remotes -> R !! ip_addr r = Some r) ->
  fine (setup_connections k iface need remotes) R0 s (fun _ s' => forall r, r ∈ remotes -> has s' (ip_addr iface, ip_addr r)).
Proof.
  intros Hi. revert s. induction remotes as [|r l IH]; intros s Hr; [apply fine_ret; set_solver|]. simpl.
  eapply fine_bind; [apply fine_by_ifaces|]. intros o s' _ _ [-> Ho].
  eapply fine_bind with (P := fun _ s' => has s' (ip_addr iface, ip_addr r)).
  - destruct (_ || _) eqn:E.
    + eapply fine_bind; [apply fine_make; [split; [done|apply Hr; left]|done]|]. intros h s' _ _ H. by apply fine_ret.
    + apply orb_false_iff in E as [_ E]. apply negb_false_iff, bool_decide_eq_true in E as [h ->].
      apply fine_ret. destruct (Ho h eq_refl) as (c & ? & ? & ?). by exists h, c.
  - intros [] s' _ _ H. eapply fine_mono; [apply IH; intros; apply Hr; by right|].
    intros [] s'' _ Hg K r' [->|Hr']%elem_of_cons; [by apply Hg|by apply K].
Qed.

Lemma fine_map_setup iface (local mk need : bool) R0 s :
  (if local then L else R) !! ip_addr iface = Some iface ->
  fine (map_setup k iface local mk need) R0 s (fun _ s' => local = true -> mk = true -> a = false ->
    forall ip r, remote_ifaces s !! ip = Some r -> has s' (ip_addr iface, ip)).
Proof.
  intros Hi. unfold map_setup. eapply fine_bind; [by apply (fine_get _ _ (fun x s' => x = s /\ s' = s))|].
  intros x s0 Hs _ [-> ->].
  eapply fine_bind; [apply fine_setup_matches; [done|]; intros h; apply elem_of_matching|].
  intros [] s1 _ _ E. rewrite (sane_side _ _ _ _ _ _ Hs).
  destruct (negb mk || a) eqn:Eb; [apply fine_ret; intros _ -> Ha; by rewrite Ha in Eb|].
  destruct local; [|apply fine_ret; by intros].
  eapply fine_mono; [apply fine_setup_connections; [done|]|].
  - intros r (ip & H)%elem_of_ifaces. exact (proj1 (known_remote _ _ _ _ Hs H)).
  - intros [] s' _ _ H _ _ _ ip r Er. destruct (known_remote _ _ _ _ Hs Er) as [_ <-].
    apply H, elem_of_ifaces. eauto.
Qed.

Lemma fine_setup_all (local mk : bool) l R0 s :
  (forall i, i ∈ l -> (if local then L else R) !! ip_addr i = Some i) ->
  fine (setup_all k l local mk) R0 s (fun _ s' => local = true -> mk = true -> a = false ->
    forall i ip r, i ∈ l -> remote_ifaces s !! ip = Some r -> has s' (ip_addr i, ip)).
Proof.
  revert s. induction l as [|i l IH]; intros s Hl; [apply fine_ret; set_solver|]. simpl.
  eapply fine_bind; [apply fine_map_setup, Hl; left|]. intros [] s1 _ [Hg1 _] H1.
  eapply fine_mono; [apply IH; intros; apply Hl; by right|].
  intros [] s2 _ [Hg2 Hg2'] H2 E1 E2 E3 i' ip r [->|Hi]%elem_of_cons Er.
  - by eapply Hg2', H1.
  - eapply H2; [done..|]. by eapply lookup_weaken.
Qed.

Lemma fine_startup R0 s :
  fine (startup_csocks k) R0 s (fun _ s' => a = false ->
    forall i j l r, L !! i = Some l -> remote_ifaces s !! j = Some r -> has s' (i, j)).
Proof.
  unfold startup_csocks. eapply fine_bind; [by apply (fine_get _ _ (fun x s' => x = s /\ s' = s))|].
  intros x s0 Hs _ [-> ->]. eapply fine_bind.
  { apply fine_setup_all. intros i (ip & H)%elem_of_ifaces. exact (proj1 (known_remote _ _ _ _ Hs H)). }
  intros [] s1 Hs1 [Hg _] _. eapply fine_bind; [by apply (fine_get _ _ (fun x s' => x = s1 /\ s' = s1))|].
  intros x s2 _ _ [-> ->]. destruct HLR as (_ & HL & _).
  eapply fine_mono; [apply fine_setup_all|].
  - intros i (ip & H)%elem_of_ifaces. rewrite (sane_local _ _ _ _ _ _ Hs1) in H.
    assert (ip_addr i = ip) as <- by exact (HL _ _ H). done.
  - intros [] s3 _ _ H Ha i j l r El Er. assert (ip_addr l = i) as <- by exact (HL _ _ El).
    eapply (H eq_refl eq_refl Ha); [|by eapply lookup_weaken].
    apply elem_of_ifaces. rewrite (sane_local _ _ _ _ _ _ Hs1). eauto.
Qed.

(** ** The listener *)

Lemma grows_known s iface :
  grows s (upd_remote_ifaces (iface_insert iface) s).
Proof.
  split; [|done]. simpl. unfold iface_insert. destruct (_ !! _) eqn:E; [done|]. by apply insert_subseteq.
Qed.

Lemma fine_setup_remote i R0 s :
  R !! ip_addr i = Some i -> remote_ifaces s !! ip_addr i = None ->
  fine (Socket.setup k i false) R0 s (fun _ _ => True).
Proof.
  intros Hi Hnone. unfold Socket.setup. eapply fine_bind; [by apply (fine_get _ _ (fun x s' => x = s /\ s' = s))|].
  intros x s0 _ _ [-> ->]. destruct (isLoopbackOnly s); [by apply fine_ret|]. cbv zeta.
  eapply fine_bind; [by apply fine_map_setup|]. intros [] s1 _ _ _. rewrite Hnone.
  eapply fine_bind with (P := fun _ s' => s' = s1); [by apply fine_ret|]. intros [] s2 _ _ ->.
  apply fine_modify; [|apply grows_known|done].
  intros []. split; try done; simpl; [etrans; [eassumption|exact (proj1 (grows_known s1 i))]|].
  unfold iface_insert. destruct (remote_ifaces s1 !! _); [done|]. by apply insert_subseteq_l.
Qed.

(** A header on which a connection of interface [i] starts. *)
Definition new_interface_hdr (i : net_interface) : CMMSocketControlHdr :=
  Hdr (htons CMM_CONTROL_MSG_NEW_INTERFACE) 0
    (OpNewInterface (NetInterface (ip_addr i) (htonl (bandwidth_down i)) (htonl (bandwidth_up i))
                       (htonl (RTT i)) (htonl (net_type i)))).

(** The fields of an interface that survive the wire. *)
Definition wire_ok (i : net_interface) : Prop :=
  0 <= bandwidth_down i < 2 ^ 32 /\ 0 <= bandwidth_up i < 2 ^ 32 /\ 0 <= RTT i < 2 ^ 32 /\
  - 2 ^ 31 <= net_type i < 2 ^ 31.

Lemma to_int_u32 x : - 2 ^ 31 <= x < 2 ^ 31 -> to_int (ntohl (htonl x)) = x.
Proof.
  intros Hx. unfold ntohl, htonl. rewrite swap32_swap32. unfold wrap_u, wrap_s.
  rewrite Z.add_mod_idemp_l by lia. change (32 - 1) with 31. rewrite Z.mod_small; lia.
Qed.

Lemma wire_iface i : wire_ok i ->
  NetInterface (ip_addr i) (ntohl (htonl (bandwidth_down i))) (ntohl (htonl (bandwidth_up i)))
    (ntohl (htonl (RTT i))) (to_int (ntohl (htonl (net_type i)))) = i.
Proof. intros (? & ? & ? & ?). rewrite !ntohl_htonl, to_int_u32 by done. by destruct i. Qed.

Lemma fine_accept up un addr i R0 s l :
  a = true -> wire_ok i -> R !! ip_addr i = Some i -> L !! addr = Some l ->
  fine (accept_connection k up un (Some addr) (Some (new_interface_hdr i))) R0 s (fun _ s' => has s' (addr, ip_addr i)).
Proof.
  intros Ha Hw Hi Hl. unfold accept_connection. eapply fine_bind; [by apply (fine_get _ _ (fun x s' => x = s /\ s' = s))|].
  intros x s0 Hs _ [-> ->]. unfold get_iface_by_addr. rewrite (sane_local _ _ _ _ _ _ Hs), Hl.
  change (negb (ntohs (hdr_type (new_interface_hdr i)) =? CMM_CONTROL_MSG_NEW_INTERFACE)) with false. cbv iota.
  unfold new_interface_hdr, hdr_op. cbn [ip_addr bandwidth_down bandwidth_up RTT net_type]. rewrite wire_iface by done.
  assert (fine (h ← add_connection k up un addr i; mret (Some h)) R0 s (fun _ s' => has s' (addr, ip_addr i))) as K.
  { eapply fine_bind with (P := fun _ s' => has s' (addr, ip_addr i)); [|intros; by apply fine_ret].
    unfold add_connection, get_iface_by_addr. eapply fine_bind; [by apply (fine_get _ _ (fun x s' => x = s /\ s' = s))|].
    intros x s1 _ _ [-> ->]. rewrite (sane_local _ _ _ _ _ _ Hs), Hl.
    eapply fine_bind; [by apply (fine_ret _ _ _ (fun x s' => x = l /\ s' = s))|]. intros x s2 _ _ [-> ->].
    eapply fine_bind; [by apply (fine_get _ _ (fun x s' => x = s /\ s' = s))|]. intros x s3 _ _ [-> ->].
    eapply fine_bind with (P := fun _ _ => True).
    - destruct (remote_ifaces s !! ip_addr i) eqn:E; [by apply fine_ret|]. by apply fine_setup_remote.
    - intros _ s4 _ _ _. destruct HLR as (_ & HL & _). assert (ip_addr l = addr) as <- by exact (HL _ _ Hl).
      by apply fine_make. }
  intros _. destruct (K Hs) as (h & s' & E & H). exists h, s'. split; [|done]. unfold catch_runtime.
  by rewrite E.
Qed.
End sane.

(** ** The bootstrapper of one end *)

Section one_end.
Context {IS I : Type} `{!IdSet IS} `{!InstrumentsChooser I} {NE : NetEstimates}.
Context (k : kernel) (a : bool) (L R : gmap Z net_interface) (HLR : compatible L R).
Context (Hnew : forall X, new_address k X ∉ X) (Hsock : socket_fails k = false).
Context (port : Z) (connects : Z -> bool) (Hcon : forall h, connects h = true).
Abbreviation SK := (CMMSocketImpl IS I).
Abbreviation ok := (sane (IS:=IS) (I:=I) a EINPROGRESS L R).
Abbreviation more := (grows (IS:=IS) (I:=I) a).
Abbreviation other := ((SK -> SK) * bool)%type.
Implicit Types (b : boot IS I) (s : SK).

(** What another thread may do, and doing so makes a connection. *)
Definition harmless (o : other) : Prop :=
  o.2 = false /\ forall R0 s, ok R0 s -> ok R0 (o.1 s) /\ more s (o.1 s).
Definition makes (o : other) : Prop := forall R0 s, ok R0 s -> exists ips, has (o.1 s) ips.

Definition stage R0 strat ins outs b : Prop :=
  exists s others, b = Boot s strat (Some port) false false ins [] outs others connects /\
    ok R0 s /\ Forall harmless others.

(** A connection is there, or is made within the next [w] waits. *)
Definition conn (w : nat) b : Prop :=
  (exists ips, has (bs_sk b) ips) \/ exists j o, (j < w)%nat /\ bs_others b !! j = Some o /\ makes o.
Definition waits (n : nat) b b' : Prop :=
  more (bs_sk b) (bs_sk b') /\ forall w, conn (n + w) b -> conn w b'.

Lemma waits_refl b : waits 0 b b.
Proof. by split. Qed.
Lemma waits_trans n m b1 b2 b3 : waits n b1 b2 -> waits m b2 b3 -> waits (n + m) b1 b3.
Proof.
  intros [H1 H2] [H3 H4]. split; [by etrans|]. intros w Hw. apply H4, H2. by rewrite Nat.add_assoc.
Qed.
Lemma waits_has n b b' : bs_others b' = drop n (bs_others b) ->
  more (bs_sk b) (bs_sk b') ->
  (forall j o, (j < n)%nat -> bs_others b !! j = Some o -> makes o -> exists ips, has (bs_sk b') ips) -> waits n b b'.
Proof.
  intros E Hg Hj. split; [done|]. intros w [[ips H]|(j & o & Hw & Ho & Hm)]; [left; exists ips; by apply Hg|].
  destruct (decide (j < n)%nat); [left; by eapply Hj|]. right. exists (j - n)%nat, o.
  rewrite E, lookup_drop. replace (n + (j - n))%nat with j by lia. split_and!; [lia|done|done].
Qed.

Lemma stage_meanwhile R0 strat ins outs b :
  stage R0 strat ins outs b -> returns meanwhile b (fun _ b' => stage R0 strat ins outs b' /\ waits 1 b b').
Proof.
  intros (s & others & -> & Hs & Ho). unfold meanwhile. apply returns_bind, returns_get. simpl.
  destruct others as [|[f r] l].
  - apply returns_ret. split; [by exists s, []|]. by apply waits_has.
  - apply Forall_cons in Ho as [[Hr Hf] Hl]. simpl in Hr. subst r. destruct (Hf _ _ Hs) as [Hs' Hg].
    eexists _, _. split; [reflexivity|]. simpl. split; [by exists (f s), l|].
    apply waits_has; [done|done|]. intros [|j] o Hj E Hm; [|lia]. simpl in E. injection E as <-.
    simpl. by eapply (Hm R0).
Qed.

Lemma stage_recv R0 strat hdr ins outs b :
  stage R0 strat (Some hdr :: ins) outs b ->
  returns recv_hdr b (fun x b' => x = hdr /\ stage R0 strat ins outs b' /\ waits 1 b b').
Proof.
  intros H. unfold recv_hdr. eapply returns_step; [by apply stage_meanwhile|].
  intros _ b' [(s & others & -> & Hs & Ho) Hw]. eexists _, _. split; [reflexivity|].
  split_and!; [done|by exists s, others|done].
Qed.

Lemma stage_send R0 strat hdr ins outs b :
  stage R0 strat ins outs b -> returns (send_hdr hdr) b (fun _ b' => stage R0 strat ins (outs ++ [hdr]) b' /\ waits 0 b b').
Proof.
  intros (s & others & -> & Hs & Ho). eexists _, _. split; [reflexivity|].
  split; [by exists s, others|]. apply waits_has; [done|done|lia].
Qed.

(** A step on the multi-socket. *)
Lemma stage_on {A} (m : M SK A) R0 strat ins outs b (Q : A -> SK -> Prop) :
  stage R0 strat ins outs b -> fine a EINPROGRESS L R m R0 (bs_sk b) Q ->
  returns (on_boot m) b (fun x b' => stage R0 strat ins outs b' /\ waits 0 b b' /\ Q x (bs_sk b')).
Proof.
  intros (s & others & -> & Hs & Ho) Hm. apply returns_zoom. simpl.
  eapply returns_mono; [by apply Hm|]. intros x s' (Hs' & Hg & HQ). split_and!; [by exists s', others| |done].
  apply waits_has; [done|done|lia].
Qed.

Definition sentinel_hdr : CMMSocketControlHdr := new_interface_hdr sentinel.
Definition listeners_of (m : gmap Z net_interface) : list CMMSocketControlHdr :=
  (new_interface_hdr <$> ifaces_of m) ++ [sentinel_hdr].

Lemma known_insert R0 i s :
  R !! ip_addr i = Some i -> ok R0 s ->
  ok (<[ip_addr i := i]> R0) (upd_remote_ifaces (fun m => iface_insert i (iface_erase i m)) s) /\
  more s (upd_remote_ifaces (fun m => iface_insert i (iface_erase i m)) s).
Proof.
  intros Hi []. unfold iface_insert, iface_erase.
  assert (remote_ifaces s ⊆ <[ip_addr i:=i]> (remote_ifaces s)) as Hsub.
  { destruct (remote_ifaces s !! ip_addr i) eqn:E; [|by apply insert_subseteq].
    rewrite insert_id; [done|]. rewrite E. f_equal.
    assert (R !! ip_addr i = Some n) by (by eapply lookup_weaken). congruence. }
  split; [split; try done|split; [|done]]; simpl; rewrite lookup_delete_eq, ?insert_delete_eq; [|..|done].
  - by apply insert_mono.
  - by apply insert_subseteq_l.
Qed.

Lemma stage_listener R0 strat i ins outs b :
  wire_ok i -> ip_addr i <> 0 -> (a = true -> R !! ip_addr i = Some i) ->
  stage R0 strat (Some (new_interface_hdr i) :: ins) outs b ->
  returns recv_remote_listener b (fun x b' => x = false /\
    stage (if a then <[ip_addr i := i]> R0 else R0) strat ins outs b' /\ waits 1 b b').
Proof.
  intros Hw H0 Hi Hb. unfold recv_remote_listener. eapply returns_step; [by apply stage_recv|].
  intros hdr b1 (-> & H1 & Hw1).
  change (negb (wrap_s 16 (ntohs (hdr_type (new_interface_hdr i))) =? CMM_CONTROL_MSG_NEW_INTERFACE)) with false.
  cbv iota. unfold new_interface_hdr, hdr_op. cbn [ip_addr bandwidth_down bandwidth_up RTT net_type].
  rewrite wire_iface by done. cbv zeta. rewrite (proj2 (Z.eqb_neq _ _) H0).
  destruct H1 as (s & others & -> & Hs & Ho). unfold on_boot at 1. apply returns_bind, returns_zoom, returns_get.
  simpl bs_sk. rewrite (sane_side _ _ _ _ _ _ Hs).
  set (Q := fun _ : unit => _).
  assert (forall s', ok (if a then <[ip_addr i:=i]> R0 else R0) s' -> more s s' ->
    returns (mret false) (with_boot_sk s' (Boot s strat (Some port) false false ins [] outs others connects))
      (fun x b' => x = false /\ stage (if a then <[ip_addr i := i]> R0 else R0) strat ins outs b' /\ waits 1 b b')) as K.
  { intros s' Hs' Hg. apply returns_ret. split_and!; [done|by exists s', others|].
    destruct Hw1 as [Hg1 Hc1]. split; [by etrans|]. intros w Hc. destruct (Hc1 w Hc) as [[ips H]|H]; [|by right].
    left. exists ips. by apply (proj1 (proj2 Hg)). }
  apply returns_bind, returns_when; intros Ea.
  - apply returns_zoom, returns_modify. subst Q. destruct (known_insert R0 i s (Hi Ea) Hs) as [Hs' Hg].
    apply K; [by rewrite Ea in Hs' |- *|done].
  - apply K; [by rewrite Ea in Hs |- *|done].
Qed.

Lemma stage_sentinel R0 strat ins outs b :
  stage R0 strat (Some sentinel_hdr :: ins) outs b ->
  returns recv_remote_listener b (fun x b' => x = true /\ stage R0 strat ins outs b' /\ waits 1 b b').
Proof.
  intros Hb. unfold recv_remote_listener. eapply returns_step; [by apply stage_recv|].
  intros hdr b1 (-> & H1 & Hw1). by apply returns_ret.
Qed.

Definition listed (i : net_interface) : Prop :=
  wire_ok i /\ ip_addr i <> 0 /\ (a = true -> R !! ip_addr i = Some i).

Lemma stage_subseteq R0 strat ins outs b i :
  stage R0 strat ins outs b -> R !! ip_addr i = Some i -> R0 ⊆ <[ip_addr i := i]> R0.
Proof.
  intros (s & _ & _ & [] & _) Hi. destruct (R0 !! ip_addr i) eqn:E; [|by apply insert_subseteq].
  rewrite insert_id; [done|]. rewrite E. f_equal.
  assert (R !! ip_addr i = Some n) by (eapply lookup_weaken; [exact E|by etrans]). congruence.
Qed.

Lemma stage_listeners strat rest outs l fuel R0 b :
  (length l < fuel)%nat -> Forall listed l ->
  stage R0 strat ((Some <$> (new_interface_hdr <$> l)) ++ Some sentinel_hdr :: rest) outs b ->
  returns (recv_listeners fuel) b (fun _ b' => exists R1, stage R1 strat rest outs b' /\
    waits (S (length l)) b b' /\ (a = true -> R0 ⊆ R1 /\ forall i, i ∈ l -> R1 !! ip_addr i = Some i)).
Proof.
  revert fuel R0 b. induction l as [|i l IH]; intros [|fuel] R0 b Hf Hl Hb; try (simpl in Hf; lia); cbn [recv_listeners length fmap list_fmap app] in *.
  - eapply returns_step; [by apply stage_sentinel|]. intros x b1 (-> & H1 & Hw1). apply returns_ret.
    exists R0. split_and!; [done..|]. intros _. split; [done|]. set_solver.
  - apply Forall_cons in Hl as [(Hi1 & Hi2 & Hi3) Hl].
    eapply returns_step; [by eapply (stage_listener _ _ i)|]. intros x b1 (-> & H1 & Hw1).
    eapply returns_mono; [apply (IH fuel _ _ ltac:(lia) Hl H1)|].
    intros [] b2 (R1 & H2 & Hw2 & Ha). exists R1. split_and!; [done|by eapply (waits_trans 1)|].
    intros Ea. destruct (Ha Ea) as [Hsub Hin]. rewrite Ea in Hsub. split.
    + etrans; [by eapply stage_subseteq, Hi3|done].
    + intros j [->|Hj]%elem_of_cons; [|by apply Hin]. eapply lookup_weaken; [apply lookup_insert_eq|done].
Qed.

Definition hello_hdr (port num strat : Z) : CMMSocketControlHdr :=
  Hdr (htons CMM_CONTROL_MSG_HELLO) 0 (OpHello port (htonl num) (htonl strat)).
Definition valid_strategy (z : Z) : Prop := 0 <= z < 5 /\ exists c : chooser_impl I, create z = Ret c.

Lemma stage_strategy R0 strat ins outs b z : valid_strategy z ->
  stage R0 strat ins outs b ->
  returns (set_redundancy_strategy z) b (fun _ b' => stage R0 z ins outs b' /\ waits 0 b b').
Proof.
  intros [_ [c Hc]] (s & others & -> & Hs & Ho). unfold set_redundancy_strategy. apply returns_bind.
  eapply returns_lift; [exact Hc|]. eexists _, _. split; [reflexivity|]. split.
  - eexists _, others. split_and!; [done| |done]. apply (sane_frame _ _ _ _ _ (upd_network_chooser (fun _ => c))); [|done].
    intros ?. by split_and!.
  - apply waits_has; [done|done|lia].
Qed.

Lemma stage_recv_hello R0 strat p num z ins outs b :
  (a = true -> valid_strategy z) ->
  stage R0 strat (Some (hello_hdr p num z) :: ins) outs b ->
  returns recv_hello b (fun _ b' => stage R0 (if a then z else strat) ins outs b' /\ waits 1 b b').
Proof.
  intros Hz Hb. unfold recv_hello. eapply returns_step; [by apply stage_recv|]. intros hdr b1 (-> & H1 & Hw1).
  change (negb (ntohs (hdr_type (hello_hdr p num z)) =? CMM_CONTROL_MSG_HELLO)) with false. cbv iota.
  unfold hello_hdr, hdr_op.
  eapply returns_step; [eapply (stage_on (modify _) _ _ _ _ _ (fun _ _ => True)); [done|]; apply fine_modify; [|done..]|].
  { apply sane_frame. intros ?. by split_and!. }
  intros [] b2 (H2 & Hw2 & _). pose proof (waits_trans _ _ _ _ _ Hw1 Hw2) as Hw. simpl in Hw.
  destruct H2 as (s & others & -> & Hs & Ho). unfold on_boot at 1. apply returns_bind, returns_zoom, returns_get.
  simpl bs_sk. rewrite (sane_side _ _ _ _ _ _ Hs).
  assert (stage R0 strat ins outs (with_boot_sk s (Boot s strat (Some port) false false ins [] outs others connects))) as H3
    by (by exists s, others).
  apply returns_bind, returns_when; intros Ea.
  - destruct (Hz Ea) as [Hz1 Hz2].
    assert (to_int (ntohl (htonl z)) = z) as -> by (apply to_int_u32; lia).
    eapply returns_mono; [by eapply stage_strategy|]. intros [] b4 [H4 Hw4]. apply returns_ret.
    split; [by rewrite Ea|]. exact (waits_trans _ _ _ _ _ Hw Hw4).
  - apply returns_ret. split; [by rewrite Ea|done].
Qed.

Definition hello_of strat : CMMSocketControlHdr := hello_hdr port (Z.of_nat (size L)) strat.

Lemma stage_send_hello R0 strat ins outs b :
  stage R0 strat ins outs b ->
  returns send_hello b (fun _ b' => stage R0 strat ins (outs ++ [hello_of strat]) b' /\ waits 0 b b').
Proof.
  intros Hb. pose proof Hb as (s & others & -> & Hs & Ho). unfold send_hello. apply returns_bind, returns_get.
  simpl. rewrite (sane_local _ _ _ _ _ _ Hs). by apply stage_send.
Qed.

Lemma stage_send_each R0 strat ins l outs b :
  stage R0 strat ins outs b ->
  returns (send_listeners l) b (fun _ b' => stage R0 strat ins (outs ++ (new_interface_hdr <$> l)) b' /\ waits 0 b b').
Proof.
  revert outs b. induction l as [|i l IH]; intros outs b Hb; simpl.
  - apply returns_ret. rewrite app_nil_r. split; [done|apply waits_refl].
  - eapply returns_step; [by eapply (stage_send _ _ (new_interface_hdr i))|]. intros [] b1 [H1 Hw1].
    eapply returns_mono; [by apply IH|]. intros [] b2 [H2 Hw2]. rewrite <- app_assoc in H2.
    split; [done|]. exact (waits_trans _ _ _ _ _ Hw1 Hw2).
Qed.

Lemma stage_send_listeners R0 strat ins outs b :
  stage R0 strat ins outs b ->
  returns send_local_listeners b (fun _ b' => stage R0 strat ins (outs ++ listeners_of L) b' /\ waits 0 b b').
Proof.
  intros Hb. pose proof Hb as (s & others & E & Hs & Ho). unfold send_local_listeners.
  apply returns_bind, returns_get. apply returns_bind, (returns_lift _ tt); [by rewrite E|].
  assert (local_ifaces (bs_sk b) = L) as -> by (rewrite E; by apply (sane_local _ _ _ _ _ _ Hs)).
  eapply returns_step; [by apply stage_send_each|]. intros [] b1 [H1 Hw1].
  eapply returns_mono; [by eapply (stage_send _ _ (new_interface_hdr sentinel))|]. intros [] b2 [H2 Hw2].
  rewrite <- app_assoc in H2. split; [done|]. exact (waits_trans _ _ _ _ _ Hw1 Hw2).
Qed.

(** ** Waiting for the connections *)

Lemma csocks_connected l R0 s (f : Z * CSocket -> bool) : (forall hc, f hc = true) -> ok R0 s ->
  let s' := foldl (fun s hc => upd_csock hc.1 (set_connected (f hc)) s) s l in
  ok R0 s' /\ more s s' /\ available_csocks s' = available_csocks s /\
  forall h c, sk_csocks s !! h = Some c -> exists c', sk_csocks s' !! h = Some c' /\ cs_ips c' = cs_ips c /\
    (connected c = true \/ h ∈ l.*1 -> connected c' = true).
Proof.
  intros Hf. revert s. induction l as [|hc l IH]; intros s Hs; cbv zeta; simpl.
  - split_and!; [done..|]. intros h c E. exists c. split_and!; [done..|]. intros [?|?]; [done|set_solver].
  - destruct (IH (upd_csock hc.1 (set_connected (f hc)) s)) as (H1 & H2 & H3 & H4).
    { apply sane_upd_csock; [by intros c _ []|done]. }
    split_and!; [done| |done|].
    + etrans; [|exact H2]. apply grows_upd_csock. intros c _. split; [done|]. intros _. apply Hf.
    + intros h c E. simpl in H4. destruct (decide (h = hc.1)) as [->|Hne].
      * destruct (H4 hc.1 (set_connected (f hc) c)) as (c' & E' & Hi & Hc); [by rewrite lookup_alter_eq, E|].
        exists c'. split_and!; [done..|]. intros _. apply Hc. left. apply Hf.
      * destruct (H4 h c) as (c' & E' & Hi & Hc); [by rewrite lookup_alter_ne|].
        exists c'. split_and!; [done..|]. intros [?|[?|?]%elem_of_cons]; apply Hc; [by left|done|by right].
Qed.

Lemma stage_wait R0 strat ins outs b :
  stage R0 strat ins outs b -> conn 1 b ->
  returns wait_for_connections b (fun _ b' => stage R0 strat ins outs b' /\ waits 1 b b' /\
    forall ips, has (bs_sk b) ips -> linked (bs_sk b') ips).
Proof.
  intros Hb Hc. unfold wait_for_connections. eapply returns_step; [by apply stage_meanwhile|].
  intros [] b1 [(s & others & -> & Hs & Ho) [Hg Hw]]. destruct (Hw 0%nat Hc) as [[ips Hh]|(j & _ & ? & _)]; [|lia].
  assert (forall hc, makes_it (Boot s strat (Some port) false false ins [] outs others connects) hc = true) as Hm
    by (intros hc; unfold makes_it; simpl; by rewrite Hcon, orb_true_r).
  destruct (csocks_connected (csock_list s) R0 s _ Hm Hs) as (Hs' & Hg' & Ea & Hall).
  apply returns_bind, returns_get. cbv zeta.
  eexists _, _. split.
  - etransitivity; [by apply M_bind_ret|]. simpl. rewrite (proj2 (existsb_exists _ _)); [reflexivity|].
    destruct Hh as (h & c & H1 & H2 & _). exists (h, c). split; [|apply Hm]. by apply list_elem_of_In, elem_of_csock_list.
  - simpl. split_and!; [by eexists _, others| |].
    + split; [by etrans|]. intros w Hcw. destruct (Hw w Hcw) as [[ips' H]|H]; [|by right].
      left. exists ips'. by apply (proj1 (proj2 Hg')).
    + intros ips' H. apply (proj1 (proj2 Hg)) in H as (h & c & H1 & H2 & H3 & _). simpl in *.
      destruct (Hall h c H2) as (c' & E' & Hi & Hc'). exists h, c'. split_and!; [by rewrite Ea|done|congruence|].
      apply Hc'. right. apply list_elem_of_fmap. exists (h, c). split; [done|by apply elem_of_csock_list].
Qed.

(** ** The exchange *)

Definition stream (hello : CMMSocketControlHdr) (l : list net_interface) : list (option CMMSocketControlHdr) :=
  Some hello :: (Some <$> (new_interface_hdr <$> l)) ++ [Some sentinel_hdr].

Lemma stage_recv_listeners l R0 strat n outs b :
  Forall listed l -> stage R0 strat ((Some <$> (new_interface_hdr <$> l)) ++ [Some sentinel_hdr]) outs b ->
  returns (recv_remote_listeners n) b (fun _ b' => exists R1, stage R1 strat [] outs b' /\
    waits (S (length l)) b b' /\ (a = true -> R0 ⊆ R1 /\ forall i, i ∈ l -> R1 !! ip_addr i = Some i)).
Proof.
  intros Hl Hb. unfold recv_remote_listeners. apply returns_bind, returns_get. eapply stage_listeners; [|done|exact Hb].
  destruct Hb as (s & others & -> & _). simpl. rewrite length_app, !length_fmap. simpl. lia.
Qed.

Lemma exchange_accepting l p num z strat b :
  a = true -> Forall listed l -> valid_strategy z ->
  stage ∅ strat (stream (hello_hdr p num z) l) [] b -> conn (length l + 3) b ->
  returns (exchange k true) b (fun _ b' => exists R1, stage R1 z [] (hello_of z :: listeners_of L) b' /\
    forall i, i ∈ l -> R1 !! ip_addr i = Some i).
Proof.
  intros Ha Hl Hz Hb Hc. unfold exchange.
  eapply returns_step; [by eapply (stage_recv_hello _ _ p num z)|]. intros n b1 [H1 Hw1]. rewrite Ha in H1.
  eapply returns_step; [by apply stage_send_hello|]. intros [] b2 [H2 Hw2].
  eapply returns_step; [by eapply stage_recv_listeners|]. intros [] b3 (R1 & H3 & Hw3 & Hin).
  eapply returns_step; [eapply stage_on; [exact H3|by apply fine_startup]|].
  intros [] b4 (H4 & Hw4 & _).
  pose proof (waits_trans _ _ _ _ _ (waits_trans _ _ _ _ _ (waits_trans _ _ _ _ _ Hw1 Hw2) Hw3) Hw4) as [_ Hw].
  eapply returns_step; [apply stage_wait; [exact H4|]|].
  { apply Hw. replace (1 + 0 + S (length l) + 0 + 1)%nat with (length l + 3)%nat by lia. done. }
  intros [] b5 (H5 & _ & _). eapply returns_mono; [by apply stage_send_listeners|]. intros [] b6 [H6 _].
  exists R1. split; [done|]. by apply Hin.
Qed.

Lemma exchange_connecting l p num z strat R0 ip0 l0 j0 r0 b :
  a = false -> Forall listed l -> L !! ip0 = Some l0 -> R0 !! j0 = Some r0 ->
  stage R0 strat (stream (hello_hdr p num z) l) [] b ->
  returns (exchange k false) b (fun _ b' => (exists R1, stage R1 strat [] (hello_of strat :: listeners_of L) b') /\
    forall i j l r, L !! i = Some l -> R0 !! j = Some r -> linked (bs_sk b') (i, j)).
Proof.
  intros Ha Hl Hl0 Hr0 Hb. unfold exchange.
  eapply returns_step; [by apply stage_send_hello|]. intros [] b1 [H1 Hw1].
  eapply returns_step; [eapply (stage_recv_hello _ _ p num z); [by rewrite Ha|exact H1]|]. intros n b2 [H2 Hw2].
  rewrite Ha in H2. eapply returns_step; [eapply stage_on; [exact H2|by apply fine_startup]|].
  intros [] b3 (H3 & Hw3 & Hhas).
  assert (forall i j l r, L !! i = Some l -> R0 !! j = Some r -> has (bs_sk b3) (i, j)) as Hall.
  { intros i j l' r Ei Ej. eapply (Hhas Ha); [done|]. destruct H2 as (s & others & -> & Hs & _). simpl.
    eapply lookup_weaken; [exact Ej|]. by apply (sane_known _ _ _ _ _ _ Hs). }
  eapply returns_step; [apply stage_wait; [exact H3|left; exists (ip0, j0); by eapply Hall]|].
  intros [] b4 (H4 & Hw4 & Hlink). eapply returns_step; [by apply stage_send_listeners|]. intros [] b5 [H5 Hw5].
  eapply returns_mono; [by eapply stage_recv_listeners|]. intros [] b6 (R1 & H6 & Hw6 & _).
  split; [eauto|]. intros i j l' r Ei Ej. eapply (proj2 (proj2 (proj1 Hw6))); [done|].
  eapply (proj2 (proj2 (proj1 Hw5))); [done|]. by eapply Hlink, Hall.
Qed.

(** ** An input that stops *)

(** [m] waits for a header that does not come, having sent [outs]. *)
Definition starved {A} (m : M (boot IS I) A) b outs : Prop :=
  exists b', m b = (Throw (IntError (-1)), b') /\ bs_retry b' = false /\ bs_out b' = outs /\
    bootstrap_status (bs_sk b') = Some EINPROGRESS.

Lemma starved_now {A B} (m : M (boot IS I) A) (f : A -> M (boot IS I) B) b outs :
  starved m b outs -> starved (m ≫= f) b outs.
Proof. intros (b' & E & H). exists b'. split; [|done]. unfold mbind, M_bind. by rewrite E. Qed.
Lemma starved_later {A B} (m : M (boot IS I) A) (f : A -> M (boot IS I) B) b P outs :
  returns m b P -> (forall x b', P x b' -> starved (f x) b' outs) -> starved (m ≫= f) b outs.
Proof.
  intros (x & b1 & E & HP) Hf. destruct (Hf x b1 HP) as (b' & E' & H). exists b'. split; [|done].
  by rewrite (M_bind_ret _ _ _ _ _ E).
Qed.

Lemma stage_starved R0 strat outs b : stage R0 strat [] outs b -> starved recv_hdr b outs.
Proof.
  intros H. unfold recv_hdr. eapply starved_later; [by apply stage_meanwhile|].
  intros _ b' [(s & others & -> & Hs & Ho) _]. eexists. split; [reflexivity|].
  split_and!; [done..|]. by apply (sane_status _ _ _ _ _ _ Hs).
Qed.
Lemma stage_starved_listeners R0 strat outs n b :
  stage R0 strat [] outs b -> starved (recv_remote_listeners n) b outs.
Proof.
  intros (s & others & -> & Hs & Ho). eexists. split; [reflexivity|].
  split_and!; [done..|]. by apply (sane_status _ _ _ _ _ _ Hs).
Qed.

(** The connecting end speaks first, and says everything once it has the HELLO. *)
Lemma exchange_unanswered R0 strat b :
  stage R0 strat [] [] b -> starved (exchange k false) b [hello_of strat].
Proof.
  intros Hb. unfold exchange. eapply starved_later; [by apply stage_send_hello|]. intros [] b1 [H1 _].
  apply starved_now. unfold recv_hello. by eapply starved_now, stage_starved.
Qed.
Lemma exchange_hello_only p num z strat R0 ip0 l0 j0 r0 b :
  a = false -> L !! ip0 = Some l0 -> R0 !! j0 = Some r0 ->
  stage R0 strat [Some (hello_hdr p num z)] [] b ->
  starved (exchange k false) b (hello_of strat :: listeners_of L).
Proof.
  intros Ha Hl0 Hr0 Hb. unfold exchange.
  eapply starved_later; [by apply stage_send_hello|]. intros [] b1 [H1 _].
  eapply starved_later; [eapply (stage_recv_hello _ _ p num z); [by rewrite Ha|exact H1]|]. intros n b2 [H2 _].
  rewrite Ha in H2. eapply starved_later; [eapply stage_on; [exact H2|by apply fine_startup]|].
  intros [] b3 (H3 & _ & Hhas).
  assert (has (bs_sk b3) (ip0, j0)) as Hhas0.
  { eapply (Hhas Ha); [done|]. destruct H2 as (s & others & -> & Hs & _). simpl.
    eapply lookup_weaken; [exact Hr0|]. by apply (sane_known _ _ _ _ _ _ Hs). }
  eapply starved_later; [apply stage_wait; [exact H3|left; by exists (ip0, j0)]|].
  intros [] b4 (H4 & _ & _). eapply starved_later; [by apply stage_send_listeners|]. intros [] b5 [H5 _].
  by eapply stage_starved_listeners.
Qed.
(** The accepting end answers the HELLO at once. *)
Lemma exchange_answers p num z strat b :
  a = true -> valid_strategy z ->
  stage ∅ strat [Some (hello_hdr p num z)] [] b -> starved (exchange k true) b [hello_of z].
Proof.
  intros Ha Hz Hb. unfold exchange.
  eapply starved_later; [by eapply (stage_recv_hello _ _ p num z)|]. intros n b1 [H1 _]. rewrite Ha in H1.
  eapply starved_later; [by apply stage_send_hello|]. intros [] b2 [H2 _].
  by eapply starved_now, stage_starved_listeners.
Qed.

Lemma opens (c : option connect_result) b :
  c = None \/ (c = Some Connects /\ bs_others b = [] /\ exists ip i, local_ifaces (bs_sk b) !! ip = Some i) ->
  (match c with Some c => open_bootstrap_sock c | None => mret true end) b = (Ret true, b).
Proof using Type.
  intros [->|(-> & Ho & ip & i & Hi)]; [done|]. unfold open_bootstrap_sock.
  etransitivity; [by apply M_bind_ret|]. destruct b; simpl in Ho, Hi. rewrite Ho. simpl.
  destruct (ifaces_of _) eqn:Ei; [|done]. assert (i ∈ ifaces_of (local_ifaces bs_sk)) as K
    by (apply elem_of_ifaces; eauto). rewrite Ei in K. by apply not_elem_of_nil in K.
Qed.

(** The attempt ends where the input does; what was sent is sent. *)
Lemma run_starved (c : option connect_result) outs b :
  c = None \/ (c = Some Connects /\ bs_others b = [] /\ exists ip i, local_ifaces (bs_sk b) !! ip = Some i) ->
  bs_retry b = false -> starved (exchange k (bool_decide (c = None))) b outs ->
  returns (Run k [c]) b (fun r b' => r = Some true /\ bs_out b' = outs).
Proof using Type.
  intros Hc Hb (b1 & E & Hr & Ho & Hst).
  assert (attempt k c b = (Ret true, b1)) as Ea.
  { unfold attempt. etransitivity; [by apply M_bind_ret|].
    assert (set_retry false b = b) as -> by (destruct b; simpl in Hb; by rewrite Hb).
    unfold catch_int. rewrite (M_bind_ret _ _ _ _ _ (opens c b Hc)). unfold mbind at 1, M_bind at 1. rewrite E.
    unfold attempt_failed. etransitivity; [by apply M_bind_ret|]. rewrite Hr, Hst. reflexivity. }
  exists (Some true), (set_signalled b1). split; [|done].
  assert (Run_loop k [c] b = (Ret (Some true), b1)) as El.
  { simpl. etransitivity; [exact (M_bind_ret _ _ _ _ _ Ea)|]. etransitivity; [by apply M_bind_ret|]. simpl. by rewrite Hr. }
  unfold Run. etransitivity; [exact (M_bind_ret _ _ _ _ _ El)|reflexivity].
Qed.

(** The attempt, and with it [Run], succeeds. *)
Lemma run_once (c : option connect_result) (Q : boot IS I -> Prop) b :
  c = None \/ (c = Some Connects /\ bs_others b = [] /\ exists ip i, local_ifaces (bs_sk b) !! ip = Some i) ->
  (forall b, Q b -> bs_retry b = false) -> bs_retry b = false ->
  returns (exchange k (bool_decide (c = None))) b (fun _ => Q) ->
  returns (Run k [c]) b (fun r b' => r = Some true /\ exists b1, Q b1 /\
    b' = set_signalled (with_boot_sk (upd_bootstrap_status (fun _ => Some 0) (bs_sk b1)) b1)).
Proof using Type.
  intros Hc HQ Hb (x & b1 & E & H1).
  assert (attempt k c b = (Ret true, with_boot_sk (upd_bootstrap_status (fun _ => Some 0) (bs_sk b1)) b1)) as Ea.
  { unfold attempt. etransitivity; [by apply M_bind_ret|].
    assert (set_retry false b = b) as -> by (destruct b; simpl in Hb; by rewrite Hb).
    unfold catch_int. rewrite (M_bind_ret _ _ _ _ _ (opens c b Hc)), (M_bind_ret _ _ _ _ _ E). done. }
  exists (Some true), (set_signalled (with_boot_sk (upd_bootstrap_status (fun _ => Some 0) (bs_sk b1)) b1)).
  split; [|eauto].
  assert (Run_loop k [c] b =
    (Ret (Some true), with_boot_sk (upd_bootstrap_status (fun _ => Some 0) (bs_sk b1)) b1)) as El.
  { simpl. etransitivity; [exact (M_bind_ret _ _ _ _ _ Ea)|]. etransitivity; [by apply M_bind_ret|].
    simpl. by rewrite (HQ _ H1). }
  unfold Run. etransitivity; [exact (M_bind_ret _ _ _ _ _ El)|reflexivity].
Qed.
End one_end.
