(* ===== verification/Connect.v ===== *)
(** One connection at the level of its descriptor: csocket.cpp.

    [MultiSocket] has what the scheduling of IROBs needs of a [CSocket]; here is
    the rest of it: the constructor and destructor with the descriptor, how the
    connection is made and confirmed, and the functions on times and on the state of TCP that
    say when a network is in trouble and how much to trickle.  What the system
    calls answer is an argument.  The descriptors of the process are a table of
    who owns each of them, shared with the rest of the program: a closed number
    may be given to someone else. *)

From S2P Require Import Prelude.
From S2P Require Import Logic.
From S2P Require Import Labels.
From S2P Require Import Control.
From S2P Require Import Timeops.
From S2P Require Import Doubles.
From S2P Require Import Chooser.
From S2P Require Import MultiSocket.
From Stdlib Require Import Lia.

Definition ECONNRESET : Z := 104.

Record conn := Conn {
  osfd : Z;
  oserr : Z;
  c_local : net_interface;
  c_remote : net_interface;
  c_connected : bool;
  connection_failed : bool;
  accepting : bool;
  csock_sendr : bool;                  (* the pointers to the threads are not NULL *)
  csock_recvr : bool;
  last_fg : timeval;
  last_app_data_sent : timeval;
  fds : gmap Z Z;                      (* open descriptors and their owners *)
  wire : list CMMSocketControlHdr;     (* headers sent *)
  setups : list Z                      (* reportNetworkSetup calls *)
}.

Definition set_osfd fd c := Conn fd (oserr c) (c_local c) (c_remote c) (c_connected c) (connection_failed c)
  (accepting c) (csock_sendr c) (csock_recvr c) (last_fg c) (last_app_data_sent c) (fds c) (wire c) (setups c).
Definition set_oserr e c := Conn (osfd c) e (c_local c) (c_remote c) (c_connected c) (connection_failed c)
  (accepting c) (csock_sendr c) (csock_recvr c) (last_fg c) (last_app_data_sent c) (fds c) (wire c) (setups c).
Definition set_connected b c := Conn (osfd c) (oserr c) (c_local c) (c_remote c) b (connection_failed c)
  (accepting c) (csock_sendr c) (csock_recvr c) (last_fg c) (last_app_data_sent c) (fds c) (wire c) (setups c).
Definition set_failed b c := Conn (osfd c) (oserr c) (c_local c) (c_remote c) (c_connected c) b
  (accepting c) (csock_sendr c) (csock_recvr c) (last_fg c) (last_app_data_sent c) (fds c) (wire c) (setups c).
Definition set_accepting b c := Conn (osfd c) (oserr c) (c_local c) (c_remote c) (c_connected c) (connection_failed c)
  b (csock_sendr c) (csock_recvr c) (last_fg c) (last_app_data_sent c) (fds c) (wire c) (setups c).
Definition set_workers b1 b2 c := Conn (osfd c) (oserr c) (c_local c) (c_remote c) (c_connected c) (connection_failed c)
  (accepting c) b1 b2 (last_fg c) (last_app_data_sent c) (fds c) (wire c) (setups c).
Definition set_last_fg t c := Conn (osfd c) (oserr c) (c_local c) (c_remote c) (c_connected c) (connection_failed c)
  (accepting c) (csock_sendr c) (csock_recvr c) t (last_app_data_sent c) (fds c) (wire c) (setups c).
Definition set_last_sent t c := Conn (osfd c) (oserr c) (c_local c) (c_remote c) (c_connected c) (connection_failed c)
  (accepting c) (csock_sendr c) (csock_recvr c) (last_fg c) t (fds c) (wire c) (setups c).
Definition upd_fds f c := Conn (osfd c) (oserr c) (c_local c) (c_remote c) (c_connected c) (connection_failed c)
  (accepting c) (csock_sendr c) (csock_recvr c) (last_fg c) (last_app_data_sent c) (f (fds c)) (wire c) (setups c).
Definition upd_wire f c := Conn (osfd c) (oserr c) (c_local c) (c_remote c) (c_connected c) (connection_failed c)
  (accepting c) (csock_sendr c) (csock_recvr c) (last_fg c) (last_app_data_sent c) (fds c) (f (wire c)) (setups c).
Definition upd_setups f c := Conn (osfd c) (oserr c) (c_local c) (c_remote c) (c_connected c) (connection_failed c)
  (accepting c) (csock_sendr c) (csock_recvr c) (last_fg c) (last_app_data_sent c) (fds c) (wire c) (f (setups c)).

(** close(2): the number is free afterwards, whoever owned it. *)
Definition close (fd : Z) : M conn unit := modify (upd_fds (delete fd)).

(** ** Construction and destruction *)

(** [new_fd]: what socket(2) returns; [owner] names the connection in the table. *)
Definition csock_construct (owner accepted_sock new_fd : Z) : M conn unit :=
  if accepted_sock =? -1 then
    if new_fd <? 0 then throw RuntimeError
    else modify (upd_fds <[new_fd := owner]>);; modify (set_osfd new_fd)
  else modify (set_osfd accepted_sock);; modify (set_accepting true).

Definition csock_blank (local remote : net_interface) (table : gmap Z Z) : conn :=
  Conn (-1) 0 local remote false false false false false timer_zero timer_zero table [] [].

Definition csock_destroy : M conn unit :=
  c ← get;
  when (0 <? osfd c)
    (lift (assert_ (negb (csock_sendr c) && negb (csock_recvr c)));;
     close (osfd c)).

(** [starts]: whether the two threads can be created. *)
Definition startup_workers (starts : bool * bool) : M conn unit :=
  c ← get;
  when (negb (csock_sendr c) && negb (csock_recvr c))
    (modify (set_workers true true);;
     when (negb starts.1) (throw RuntimeError);;
     when (negb starts.2) (throw RuntimeError)).

(** ** Connecting *)
Section connecting.
Context (sizeof_hdr : Z).

Definition csock_network_type (c : conn) : outcome Z := network_type (csocket_new (c_local c) (c_remote c)).

(** [network_chooser->reportNetworkSetup(network_type())]. *)
Definition report_setup : M conn unit :=
  c ← get;
  t ← lift (csock_network_type c);
  modify (upd_setups (fun l => l ++ [t])).

(** [None]: the call waits on. *)
Definition wait_until_connected : M conn (option Z) :=
  c ← get;
  if negb (c_connected c) && negb (connection_failed c) then mret None
  else if connection_failed c then mret (Some (-1))
  else report_setup;; mret (Some 0).

(** What bind, connect, send and recv answer: an error number, or for the last
    two the result with errno and, for recv, the header read. *)
Record answers := Answers {
  a_bind : option Z;
  a_connect : option Z;
  a_send : Z * Z;
  a_recv : Z * Z;
  a_hdr : CMMSocketControlHdr
}.

(** A failed step of the [try] block. *)
Definition fail_here (err : Z) : M conn unit :=
  modify (set_oserr err);; c ← get; close (osfd c);; throw (IntError (-1)).

Definition new_interface_msg (i : net_interface) : CMMSocketControlHdr :=
  Hdr (htons CMM_CONTROL_MSG_NEW_INTERFACE) 0
    (OpNewInterface (NetInterface (ip_addr i) (htonl (bandwidth_down i)) (htonl (bandwidth_up i))
                       (htonl (RTT i)) (htonl (net_type i)))).

Definition try_connect (a : answers) (now : timeval) : M conn unit :=
  match a_bind a with
  | Some err => fail_here err
  | None =>
  match a_connect a with
  | Some err => fail_here err
  | None =>
      modify (set_last_sent now);;
      c ← get;
      let '(rc, err) := a_send a in
      if negb (rc =? sizeof_hdr) then fail_here err
      else
        modify (upd_wire (fun l => l ++ [new_interface_msg (c_local c)]));;
        let '(rc, err) := a_recv a in
        if negb (rc =? sizeof_hdr) then fail_here (if rc <? 0 then err else ECONNRESET)
        else if negb (ntohs (hdr_type (a_hdr a)) =? CMM_CONTROL_MSG_HELLO) then fail_here ECONNRESET
        else mret tt
  end end.

(** The [catch (int rc)]. *)
Definition catch_int (m : M conn Z) : M conn Z := fun c =>
  match m c with
  | (Throw (IntError rc), c') => (Ret rc, set_failed true c')
  | r => r
  end.

Definition phys_connect (a : answers) (now : timeval) : M conn (option Z) :=
  c ← get;
  if accepting c then wait_until_connected
  else
    rc ← catch_int (try_connect a now;; mret 0);
    if negb (rc =? 0) then mret (Some rc)
    else
      report_setup;;
      modify (set_connected true);;
      mret (Some 0).

(** The accepting side's answer; [sent] is what send(2) returns. *)
Definition confirmation : CMMSocketControlHdr := Hdr (htons CMM_CONTROL_MSG_HELLO) 0 OpNone.

Definition send_confirmation (sent : Z) (now : timeval) : M conn Z :=
  modify (set_last_sent now);;
  if negb (sent =? sizeof_hdr) then
    c ← get;
    close (osfd c);;
    modify (set_failed true);;
    mret (-1)
  else
    modify (upd_wire (fun l => l ++ [confirmation]));;
    modify (set_connected true);;
    mret 0.
End connecting.

(** ** Measurements *)

(** What is used of [struct tcp_info]; [None] where getsockopt(2) fails. *)
Record tcp_info := TcpInfo {
  tcpi_unacked : Z;          (* uint32_t *)
  tcpi_last_ack_recv : Z;    (* uint32_t, milliseconds *)
  tcpi_rto : Z
}.

Definition data_inflight (info : option tcp_info) : bool :=
  match info with None => false | Some i => 0 <? tcpi_unacked i end.

Definition get_trouble_timeout_ms (rtt_ms : Z) : Z := Z.max 200 (to_u32 (2 * rtt_ms)).

Definition get_trouble_check_timeout (rtt_ms : Z) : timespec :=
  let ms := get_trouble_timeout_ms rtt_ms in Timespec (ms / 1000) (ms mod 1000 * 1000 * 1000).

(** [latency]: what [stats.get_estimate] leaves in [intnw_rtt]. *)
Definition intnw_rtt (latency : Z) : Z := to_u32 (to_size_t (latency * 2)).

Definition trouble_check_timeout (info : option tcp_info) (latency : Z) : timespec :=
  match info with
  | None => Timespec (-1) 0
  | Some _ => get_trouble_check_timeout (intnw_rtt latency)
  end.

Definition is_in_trouble (info : option tcp_info) (latency : Z) (now : timeval) (c : conn) : outcome bool :=
  match info with
  | None => Ret false
  | Some i =>
      let trouble_timeout_ms := get_trouble_timeout_ms (intnw_rtt latency) in
      let last := last_app_data_sent c in
      (if timercmp Z.ltb last now then
         TIMEDIFF last now ≫= fun diff => Ret (to_u32 (Z.quot (convert_to_useconds diff) 1000))
       else Ret 0) ≫= fun last_data_sent_ms =>
      Ret ((0 <? tcpi_unacked i) && (trouble_timeout_ms <? last_data_sent_ms) &&
           (0 <? to_int (tcpi_last_ack_recv i)) && (trouble_timeout_ms <? tcpi_last_ack_recv i))
  end.

(** [bw_est], [latency_est]: the estimate, if there is one. *)
Definition csock_bandwidth (bw_est : option Z) (c : conn) : Z :=
  default (iface_bandwidth (c_local c) (c_remote c)) bw_est.
Definition csock_RTT (latency_est : option Z) (c : conn) : double :=
  of_Z (match latency_est with
        | Some l => to_size_t (l * 2)
        | None => iface_RTT (c_local c) (c_remote c)
        end).
Definition retransmission_timeout : timespec := Timespec 3 0.
Definition trickle_chunksize (bw_est : option Z) (c : conn) : Z :=
  to_long (to_size_t (csock_bandwidth bw_est c * 50) / 1000).
Definition tcp_rto (info : option tcp_info) : Z := match info with Some i => tcpi_rto i | None => -1 end.
Definition update_last_fg (now : timeval) : M conn unit := modify (set_last_fg now).
Definition update_last_app_data_sent (now : timeval) : M conn unit := modify (set_last_sent now).
