(* ===== verification/ConnectSpec.v ===== *)
(** Making a connection: when it succeeds, what both ends then know, and what a
    failure does to the descriptor.  When a network counts as in trouble. *)

From S2P Require Import Prelude.
From S2P Require Import Logic.
From S2P Require Import Labels.
From S2P Require Import Control.
From S2P Require Import Timeops.
From S2P Require Import MultiSocket.
From S2P Require Import BootSpec.
From S2P Require Import Connect.
From Stdlib Require Import Lia.

Section connecting.
Context (sizeof_hdr : Z).
Implicit Types (c : conn) (a : answers).

(** What each step of the attempt, in order, fails with. *)
Definition bind_error a : option Z := a_bind a.
Definition connect_error a : option Z := a_connect a.
Definition send_error a : option Z := if (a_send a).1 =? sizeof_hdr then None else Some (a_send a).2.
Definition recv_error a : option Z :=
  if (a_recv a).1 =? sizeof_hdr then None else Some (if (a_recv a).1 <? 0 then (a_recv a).2 else ECONNRESET).
Definition hello_error a : option Z :=
  if ntohs (hdr_type (a_hdr a)) =? CMM_CONTROL_MSG_HELLO then None else Some ECONNRESET.

(** The error of the first step that fails. *)
Definition first_error a : option Z :=
  head (omap id [bind_error a; connect_error a; send_error a; recv_error a; hello_error a]).

(** The attempt gets as far as having sent the interface. *)
Definition sends a : bool :=
  bool_decide (omap id [bind_error a; connect_error a; send_error a] = []).

(** What is written when it succeeds. *)
Definition connect_sent (now : timeval) c : conn :=
  upd_wire (fun l => l ++ [new_interface_msg (c_local c)]) (set_last_sent now c).

Lemma fail_here_run e c : fail_here e c = (Throw (IntError (-1)), upd_fds (delete (osfd c)) (set_oserr e c)).
Proof. reflexivity. Qed.

Lemma try_connect_cases a now c :
  match first_error a with
  | None => try_connect sizeof_hdr a now c = (Ret tt, connect_sent now c)
  | Some err => exists c', try_connect sizeof_hdr a now c = (Throw (IntError (-1)), c') /\
      oserr c' = err /\ fds c' = delete (osfd c) (fds c) /\ osfd c' = osfd c /\ c_connected c' = c_connected c /\
      setups c' = setups c /\ wire c' = wire c ++ (if sends a then [new_interface_msg (c_local c)] else [])
  end.
Proof.
  unfold first_error, sends, bind_error, connect_error, send_error, recv_error, hello_error, try_connect.
  destruct a as [[b|] [o|] [sn se] [rn re] h]; cbn [a_bind a_connect a_send a_recv a_hdr];
    try (rewrite fail_here_run; simpl; eexists; split_and!; [done..|by rewrite app_nil_r]).
  unfold mbind, M_bind, modify, get. cbn [fst snd].
  destruct (Z.eqb_spec sn sizeof_hdr); simpl;
    [|by eexists; split_and!; [done..|by rewrite app_nil_r]].
  destruct (Z.eqb_spec rn sizeof_hdr); simpl; [|by eexists].
  destruct (ntohs (hdr_type h) =? CMM_CONTROL_MSG_HELLO); simpl; by eexists.
Qed.

Lemma report_setup_run c t : csock_network_type c = Ret t ->
  report_setup c = (Ret tt, upd_setups (fun l => l ++ [t]) c).
Proof.
  intros Ht. unfold report_setup. etransitivity; [by apply M_bind_ret|].
  etransitivity; [apply M_bind_ret; unfold lift; f_equal; exact Ht|reflexivity].
Qed.

Lemma phys_connect_good a now c t :
  accepting c = false -> csock_network_type c = Ret t -> first_error a = None ->
  phys_connect sizeof_hdr a now c =
    (Ret (Some 0), set_connected true (upd_setups (fun l => l ++ [t]) (connect_sent now c))).
Proof.
  intros Ha Ht Hg. pose proof (try_connect_cases a now c) as H. rewrite Hg in H.
  assert (catch_int (try_connect sizeof_hdr a now;; mret 0) c = (Ret 0, connect_sent now c)) as E.
  { unfold catch_int, mbind, M_bind. by rewrite H. }
  unfold phys_connect. etransitivity; [by apply M_bind_ret|]. rewrite Ha.
  etransitivity; [exact (M_bind_ret _ _ _ _ _ E)|]. cbn [Z.eqb negb].
  etransitivity; [apply M_bind_ret; by apply report_setup_run|reflexivity].
Qed.

Lemma phys_connect_bad a now c err :
  accepting c = false -> first_error a = Some err ->
  exists c', phys_connect sizeof_hdr a now c = (Ret (Some (-1)), set_failed true c') /\
    oserr c' = err /\ fds c' = delete (osfd c) (fds c) /\ osfd c' = osfd c /\ c_connected c' = c_connected c /\
    setups c' = setups c /\ wire c' = wire c ++ (if sends a then [new_interface_msg (c_local c)] else []).
Proof.
  intros Ha Hg. pose proof (try_connect_cases a now c) as H. rewrite Hg in H.
  destruct H as (c' & E & H). exists c'. split; [|exact H].
  assert (catch_int (try_connect sizeof_hdr a now;; mret 0) c = (Ret (-1), set_failed true c')) as E'.
  { unfold catch_int, mbind, M_bind. by rewrite E. }
  unfold phys_connect. etransitivity; [by apply M_bind_ret|]. rewrite Ha.
  etransitivity; [exact (M_bind_ret _ _ _ _ _ E')|]. reflexivity.
Qed.

(** The accepting side only waits. *)
Lemma phys_connect_accepting a now c :
  accepting c = true -> phys_connect sizeof_hdr a now c = wait_until_connected c.
Proof. intros Ha. unfold phys_connect. etransitivity; [by apply M_bind_ret|]. by rewrite Ha. Qed.

(** C16: On the connecting side phys_connect returns 0 exactly when bind,
    connect, send and recv all succeed in full and the answer is a HELLO; then
    the connection counts as connected, its descriptor stays open and the
    interface was sent.  In every other case it returns -1 with the error of the
    first step that fails in oserr (ECONNRESET for an end of the stream or another answer),
    the interface was sent exactly if bind, connect and send succeeded, no network
    setup is reported, the connection is marked failed and not connected, and the
    descriptor is closed: it is then closed again by the destructor, which in between
    may have been given to anyone, whose descriptor is closed instead. *)
Theorem phys_connect_spec a now c t :
  accepting c = false -> c_connected c = false -> 0 < osfd c -> csock_network_type c = Ret t ->
  match first_error a with
  | None =>
    exists c', phys_connect sizeof_hdr a now c = (Ret (Some 0), c') /\ c_connected c' = true /\
      connection_failed c' = connection_failed c /\ oserr c' = oserr c /\ fds c' = fds c /\
      wire c' = wire c ++ [new_interface_msg (c_local c)] /\ setups c' = setups c ++ [t]
  | Some err =>
    exists c', phys_connect sizeof_hdr a now c = (Ret (Some (-1)), c') /\ c_connected c' = false /\
      connection_failed c' = true /\ oserr c' = err /\ fds c' = delete (osfd c) (fds c) /\
      wire c' = wire c ++ (if sends a then [new_interface_msg (c_local c)] else []) /\ setups c' = setups c /\
      forall other, let reused := set_workers false false (upd_fds <[osfd c := other]> c') in
        exists c'', csock_destroy reused = (Ret tt, c'') /\ fds reused !! osfd c = Some other /\ fds c'' !! osfd c = None
  end.
Proof.
  intros Ha Hc Ho Ht. destruct (first_error a) as [err|] eqn:E.
  2: { eexists. split; [by apply phys_connect_good|]. by split_and!. }
  destruct (phys_connect_bad a now c err Ha E) as (c' & E' & He & Hf & Hs & Hc' & Hst & Hw).
  eexists. split; [exact E'|]. split; [simpl; congruence|]. split_and!; try done.
  intros other. cbv zeta. eexists. split.
  - unfold csock_destroy. etransitivity; [by apply M_bind_ret|]. unfold when. simpl. rewrite Hs.
    rewrite (proj2 (Z.ltb_lt _ _) Ho). reflexivity.
  - simpl. by rewrite lookup_insert_eq, lookup_delete_eq.
Qed.

(** The listener's view of the header sent. *)
Definition announced (h : CMMSocketControlHdr) : option net_interface :=
  if negb (ntohs (hdr_type h) =? CMM_CONTROL_MSG_NEW_INTERFACE) then None
  else match hdr_op h with
       | OpNewInterface i =>
           Some (NetInterface (ip_addr i) (ntohl (bandwidth_down i)) (ntohl (bandwidth_up i))
                   (ntohl (RTT i)) (to_int (ntohl (net_type i))))
       | _ => None
       end.

(** C17: The two ends of one connection agree.  The header the connecting end
    writes announces exactly its local interface; the accepting end's workers wait until the
    receiver thread has sent the confirmation, and go on then; and with that very
    confirmation as its answer the connecting end is connected. *)
Theorem connection_handshake a now c t d t' nowd :
  accepting c = false -> csock_network_type c = Ret t -> wire_ok (c_local c) ->
  a_bind a = None -> a_connect a = None -> (a_send a).1 = sizeof_hdr -> (a_recv a).1 = sizeof_hdr ->
  accepting d = true -> c_connected d = false -> connection_failed d = false -> csock_network_type d = Ret t' ->
  phys_connect sizeof_hdr a now d = (Ret None, d) /\
  exists d1, send_confirmation sizeof_hdr sizeof_hdr nowd d = (Ret 0, d1) /\
    (exists d2, phys_connect sizeof_hdr a now d1 = (Ret (Some 0), d2) /\ c_connected d2 = true) /\
    forall h, last (wire d1) = Some h -> a_hdr a = h ->
      exists c1, phys_connect sizeof_hdr a now c = (Ret (Some 0), c1) /\ c_connected c1 = true /\
        exists h1, last (wire c1) = Some h1 /\ announced h1 = Some (c_local c).
Proof.
  intros Ha Ht Hw Hb Hn Hs Hr Hd Hdc Hdf Ht'. split.
  { rewrite phys_connect_accepting by done. unfold wait_until_connected.
    etransitivity; [by apply M_bind_ret|]. by rewrite Hdc, Hdf. }
  eexists. split; [unfold send_confirmation; rewrite Z.eqb_refl; reflexivity|]. split.
  - eexists. split.
    + rewrite phys_connect_accepting by done. unfold wait_until_connected.
      etransitivity; [by apply M_bind_ret|]. simpl. rewrite Hdf.
      etransitivity; [apply M_bind_ret; by apply report_setup_run|reflexivity].
    + done.
  - simpl. intros h. rewrite last_snoc. intros [= <-] Eh. eexists. split; [apply phys_connect_good; [done..|]|split; [done|]].
    + unfold first_error, bind_error, connect_error, send_error, recv_error, hello_error.
      rewrite Hb, Hn, Hs, Hr, Eh, Z.eqb_refl. reflexivity.
    + eexists. simpl. split; [apply last_snoc|]. unfold announced, new_interface_msg.
      cbn [hdr_op ip_addr bandwidth_down bandwidth_up RTT net_type]. by rewrite wire_iface.
Qed.
End connecting.

(** ** Trouble *)

(** A network is in trouble when data is in flight and both the application's last data and the last
    acknowledgement are older than the timeout, which is four times the one-way
    latency and at least 200 ms. *)
Lemma is_in_trouble_spec i latency now c :
  normal (last_app_data_sent c) -> normal now -> 0 <= latency < 2 ^ 29 ->
  0 <= tcpi_last_ack_recv i < 2 ^ 31 ->
  usecs (last_app_data_sent c) <= usecs now < usecs (last_app_data_sent c) + 2 ^ 41 ->
  exists b, is_in_trouble (Some i) latency now c = Ret b /\
    (b = true <->
     0 < tcpi_unacked i /\ Z.max 200 (4 * latency) < (usecs now - usecs (last_app_data_sent c)) / 1000 /\
     Z.max 200 (4 * latency) < tcpi_last_ack_recv i).
Proof.
  intros Hl Hn Hr Ha Ht. unfold is_in_trouble. rewrite timercmp_lt, TIMEDIFF_sub by done.
  assert (get_trouble_timeout_ms (intnw_rtt latency) = Z.max 200 (4 * latency)) as ->.
  { unfold get_trouble_timeout_ms, intnw_rtt.
    rewrite (to_size_t_small (latency * 2)), (wrap_u_small 32 (latency * 2)), wrap_u_small by lia. lia. }
  rewrite (to_int_small (tcpi_last_ack_recv i)) by lia.
  set (e := usecs now - usecs (last_app_data_sent c)).
  assert ((if usecs (last_app_data_sent c) <? usecs now then
             (if usecs (last_app_data_sent c) <=? usecs now then Ret (timersub now (last_app_data_sent c)) else Trap AssertFailed)
               ≫= (fun diff => Ret (to_u32 (Z.quot (convert_to_useconds diff) 1000))) else Ret 0) = Ret (e / 1000)) as ->.
  { destruct (Z.ltb_spec (usecs (last_app_data_sent c)) (usecs now)).
    - rewrite (proj2 (Z.leb_le _ _)) by lia. simpl. f_equal.
      rewrite convert_to_useconds_exact; [|by apply normal_sub|rewrite usecs_sub; lia].
      rewrite usecs_sub. fold e. rewrite Z.quot_div_nonneg by lia. apply wrap_u_small. unfold e.
      split; [apply Z.div_pos; lia|]. apply Z.div_lt_upper_bound; lia.
    - assert (e = 0) as -> by lia. reflexivity. }
  eexists. split; [reflexivity|]. rewrite !andb_true_iff, !Z.ltb_lt. lia.
Qed.

(** * Evaluated *)
Definition demo_end (accept : bool) : conn :=
  Conn 5 0 (NetInterface 1 1000 1000 10 1) (NetInterface 2 1000 1000 10 0) false false accept true true
    timer_zero timer_zero {[5 := 77]} [] [].
Definition demo_answers (hdr : CMMSocketControlHdr) : answers := Answers None None (40, 0) (40, 0) hdr.

Lemma phys_connect_witness :
  exists c', phys_connect 40 (Answers None (Some 111) (0, 0) (0, 0) hdr_default) timer_zero (demo_end false) = (Ret (Some (-1)), c') /\
    c_connected c' = false /\
    connection_failed c' = true /\ oserr c' = 111 /\ fds c' = delete 5 (fds (demo_end false)) /\
    wire c' = [] /\ setups c' = [] /\
    forall other, let reused := set_workers false false (upd_fds <[5 := other]> c') in
      exists c'', csock_destroy reused = (Ret tt, c'') /\ fds reused !! 5 = Some other /\ fds c'' !! 5 = None.
Proof.
  exact (phys_connect_spec 40 (Answers None (Some 111) (0, 0) (0, 0) hdr_default) timer_zero (demo_end false) 1
    eq_refl eq_refl eq_refl eq_refl).
Defined.

Lemma connection_handshake_witness :
  phys_connect 40 (demo_answers confirmation) timer_zero (demo_end true) = (Ret None, demo_end true) /\
  exists d1, send_confirmation 40 40 timer_zero (demo_end true) = (Ret 0, d1) /\
    (exists d2, phys_connect 40 (demo_answers confirmation) timer_zero d1 = (Ret (Some 0), d2) /\ c_connected d2 = true) /\
    forall h, last (wire d1) = Some h -> a_hdr (demo_answers confirmation) = h ->
      exists c1, phys_connect 40 (demo_answers confirmation) timer_zero (demo_end false) = (Ret (Some 0), c1) /\
        c_connected c1 = true /\
        exists h1, last (wire c1) = Some h1 /\ announced h1 = Some (c_local (demo_end false)).
Proof.
  apply (connection_handshake 40 (demo_answers confirmation) timer_zero (demo_end false) 1 (demo_end true) 1);
    try reflexivity. unfold wire_ok. simpl. lia.
Defined.
