(* ===== verification/BootEnds.v ===== *)
(** Bootstrapping, both ends: [mc_connect] at one end and the bootstrap of an
    accepted connection at the other complete when each receives what the other
    sends; what a connection attempt without a HELLO leaves behind. *)

From S2P Require Import Prelude Logic Labels Scheduling Irob IntSet Control SenderIrob.
From S2P Require Import ReceiverIrob Lattice ReceiverLattice Chooser Thunks MultiSocket Socket.
From S2P Require Import Select Bootstrap BootSpec.

Section both_ends.
Context {IS I : Type} `{!IdSet IS} `{!InstrumentsChooser I} {NE : NetEstimates}.
Abbreviation SK := (CMMSocketImpl IS I).
Abbreviation other := ((SK -> SK) * bool)%type.
Implicit Types (b : boot IS I) (s : SK).

Lemma create_valid z : 0 <= z < 5 -> exists c : chooser_impl I, create z = Ret c.
Proof.
  intros Hz. assert (z = 0 \/ z = 1 \/ z = 2 \/ z = 3 \/ z = 4) as Hz' by lia.
  destruct Hz' as [-> |[-> |[-> |[-> | ->]]]]; by eexists.
Qed.

Lemma stream_sent hello (L : gmap Z net_interface) :
  Some <$> (hello :: listeners_of L) = stream hello (ifaces_of L).
Proof. unfold stream, listeners_of. by rewrite fmap_cons, fmap_app. Qed.

(** Interfaces filed under their addresses, which can be told to the other end. *)
Definition ifaces_ok (L : gmap Z net_interface) : Prop :=
  map_Forall (fun ip i => ip_addr i = ip /\ ip <> 0 /\ wire_ok i) L.

Lemma ifaces_listed a L R : ifaces_ok L -> (a = true -> L = R) -> Forall (listed a R) (ifaces_of L).
Proof.
  intros HL Ha. apply Forall_forall. intros i (ip & E)%elem_of_ifaces. destruct (HL _ _ E) as (<- & H1 & H2).
  split_and!; [done..|]. intros Ea. by rewrite <- (Ha Ea).
Qed.

(** A new multi-socket as [connection_bootstrap] prepares it. *)
Lemma prepared_sane n s a L R0 R :
  msock_new n = Ret s -> R0 ⊆ R ->
  sane a EINPROGRESS L R R0 (upd_bootstrap_status (fun _ => Some EINPROGRESS)
    (upd_remote_ifaces (fun _ => R0) (upd_local_ifaces (fun _ => L) (upd_accepting_side (fun _ => a) s)))).
Proof.
  unfold msock_new. intros E HR. apply bind_ret_inv in E as (c & _ & [= <-]). split; simpl; try done.
Qed.

(** What the listener thread of the accepting end does to the multi-socket while
    the bootstrapper waits: nothing, or it accepts a connection of interface [i]. *)
Inductive listener_step (k : kernel) (L R : gmap Z net_interface) : bool -> other -> Prop :=
| Idle : listener_step k L R false (id, false)
| Accepts up un addr l i : L !! addr = Some l -> R !! ip_addr i = Some i ->
    listener_step k L R true
      (fun s => snd (accept_connection k up un (Some addr) (Some (new_interface_hdr i)) s), false).

Context (kC kA : kernel) (LC LA : gmap Z net_interface) (pC pA strat ipA ipC : Z).

Definition hello_C : CMMSocketControlHdr := hello_hdr pC (Z.of_nat (size LC)) strat.
Definition hello_A : CMMSocketControlHdr := hello_hdr pA (Z.of_nat (size LA)) strat.
Definition boot_of s strat (ins : list (option CMMSocketControlHdr)) others : boot IS I :=
  Boot s strat None false false ins [] [] others (fun _ => true).

Lemma listener_harmless R t o : ifaces_ok R -> compatible LA R -> (forall X, new_address kA X ∉ X) ->
  socket_fails kA = false -> listener_step kA LA R t o ->
  harmless true LA R o /\ (t = true -> makes true LA R o).
Proof.
  intros Hwire HR Hnew Hsock [|up un addr l i Hl Hi]; [by split; [split; [done|by split]|]|].
  destruct (Hwire _ _ Hi) as (_ & _ & Hw).
  assert (forall R0 s, sane true EINPROGRESS LA R R0 s -> exists x s',
    accept_connection kA up un (Some addr) (Some (new_interface_hdr i)) s = (Ret x, s') /\
    sane true EINPROGRESS LA R R0 s' /\ grows true s s' /\ has s' (addr, ip_addr i)) as K.
  { intros R0 s Hs. by apply (fine_accept kA true EINPROGRESS LA R HR Hnew Hsock up un addr i R0 s l). }
  split; [split; [done|]|intros _]; intros R0 s Hs; simpl; destruct (K R0 s Hs) as (x & s' & -> & ? & ? & ?);
    simpl; eauto.
Qed.

Definition prepared (a : bool) (L R0 : gmap Z net_interface) s : SK :=
  upd_bootstrap_status (fun _ => Some EINPROGRESS)
    (upd_remote_ifaces (fun _ => R0) (upd_local_ifaces (fun _ => L) (upd_accepting_side (fun _ => a) s))).
Definition first_remotes (a : bool) ip : gmap Z net_interface := if a then ∅ else {[ip := bootstrap_iface ip]}.

Definition code (b : boot IS I) : Z := if bool_decide (bootstrap_status (bs_sk b) = Some 0) then 0 else -1.

Lemma returns_bootstrap k n s a L ip port z l ins others (Q : boot IS I -> Prop) :
  msock_new n = Ret s -> fcntl_nonblock k = false -> ip <> htonl INADDR_LOOPBACK ->
  returns (Run k l) (Boot (prepared a L (first_remotes a ip) s) z (Some port) false false ins [] []
                       others (fun _ => true)) (fun r b => r = Some true /\ Q b) ->
  returns (connection_bootstrap k ip a L (ListenerAt port) l) (boot_of s z ins others)
    (fun r b => r = Some (code b) /\ Q b).
Proof.
  intros E Hb Hip (r & b' & Er & -> & HQ).
  assert (forall m b0 b1, m b0 = (Ret (Some true), b1) -> catch_thread (IS:=IS) (I:=I) m b0 = (Ret (Some true), b1)) as Hc
    by (intros m b0 b1 Em; unfold catch_thread; by rewrite Em).
  unfold connection_bootstrap, boot_of.
  assert (non_blocking s = false) as E2.
  { unfold msock_new in E. by apply bind_ret_inv in E as (c & _ & [= <-]). }
  do 2 apply returns_bind, returns_modify. cbn [bs_sk with_boot_sk].
  apply returns_bind, returns_zoom. 
  assert (init_ifaces (IS:=IS) (I:=I) ip a L (upd_accepting_side (fun _ => a) s) =
    (Ret tt, upd_remote_ifaces (fun _ => first_remotes a ip) (upd_local_ifaces (fun _ => L) (upd_accepting_side (fun _ => a) s)))) as Ei.
  { unfold init_ifaces. rewrite (proj2 (Z.eqb_neq _ _) Hip). clear -E. unfold msock_new in E.
    apply bind_ret_inv in E as (c & _ & [= <-]). by destruct a. }
  eexists _, _. split; [exact Ei|]. apply returns_bind, returns_modify, returns_bind, returns_get.
  assert (is_non_blocking k (prepared a L (first_remotes a ip) s) = false) as Enb
    by (unfold is_non_blocking; simpl; by rewrite E2, Hb).
  change (is_non_blocking k _) with (is_non_blocking k (prepared a L (first_remotes a ip) s)). rewrite Enb.
  apply returns_bind. exists (Some true). eexists. split; [exact (Hc _ _ _ Er)|].
  apply returns_bind, returns_get, returns_ret. split; [done|]. eauto.
Qed.

Section connector.
Context (Hnew : forall X, new_address kC X ∉ X) (Hsock : socket_fails kC = false).
Context (Hblock : fcntl_nonblock kC = false) (HipA : ipA <> htonl INADDR_LOOPBACK).
Context (HLC : ifaces_ok LC) (HLA : ifaces_ok LA) (Hne : LC <> ∅).
Context (Hcomp : compatible LC {[ipA := bootstrap_iface ipA]}).

Lemma connector_completes n s :
  msock_new n = Ret s ->
  returns (mc_connect kC (Some ipA) LC (ListenerAt pC) [Some Connects])
    (boot_of s strat (Some <$> (hello_A :: listeners_of LA)) [])
    (fun r b => r = Some (0, None) /\ bs_out b = hello_C :: listeners_of LC /\
       bootstrap_status (bs_sk b) = Some 0 /\ bs_signalled b = true /\
       forall ip i, LC !! ip = Some i -> linked (bs_sk b) (ip, ipA)).
Proof.
  intros E. set (R := {[ipA := bootstrap_iface ipA]} : gmap Z net_interface).
  unfold mc_connect. apply returns_bind, returns_get.
  assert (bootstrap_status s = None) as E1.
  { unfold msock_new in E. by apply bind_ret_inv in E as (c & _ & [= <-]). }
  simpl bs_sk. rewrite E1.
  set (b0 := Boot (prepared false LC R s) strat (Some pC) false false (Some <$> (hello_A :: listeners_of LA)) [] [] []
    (fun _ => true) : boot IS I).
  assert (stage false LC R pC (fun _ => true) R strat (stream hello_A (ifaces_of LA)) [] b0) as Hb0.
  { eexists _, []. subst b0. rewrite stream_sent. split_and!; [done| |done]. by eapply prepared_sane. }
  destruct (map_choose LC Hne) as (ip0 & i0 & Hi0).
  eapply returns_step; [apply (returns_bootstrap kC n s false LC ipA pC _ _ _ _
    (fun b => exists b1, ((exists R1, stage false LC R pC (fun _ => true) R1 strat []
        (hello_of LC pC strat :: listeners_of LC) b1) /\
      forall i j l r, LC !! i = Some l -> R !! j = Some r -> linked (bs_sk b1) (i, j)) /\
      b = set_signalled (with_boot_sk (upd_bootstrap_status (fun _ => Some 0) (bs_sk b1)) b1)) E Hblock HipA)|].
  - apply run_once; [|by intros b [(? & ? & ? & -> & _) _]|done|].
    + right. split_and!; [done|done|]. by exists ip0, i0.
    + eapply returns_mono; [eapply (exchange_connecting kC false LC R Hcomp Hnew Hsock pC _ (fun _ => eq_refl)
        (ifaces_of LA) pA (Z.of_nat (size LA)) strat strat R ip0 i0 ipA); try done|by intros].
      * by apply ifaces_listed.
      * apply lookup_singleton_eq.
  - intros r b (-> & b1 & [(R1 & s1 & others & -> & Hs1 & _) Hlink] & ->). apply returns_ret.
    split_and!; [done..|]. intros ip i Hi. destruct (Hlink ip ipA i _ Hi (lookup_singleton_eq _ _)) as (h & c & ?).
    by exists h, c.
Qed.

(** What it sends on an input that stops. *)
Lemma connector_starved n s ins outs :
  msock_new n = Ret s ->
  (forall b : boot IS I, stage false LC {[ipA := bootstrap_iface ipA]} pC (fun _ => true) {[ipA := bootstrap_iface ipA]} strat ins [] b ->
     starved (exchange kC false) b outs) ->
  returns (mc_connect kC (Some ipA) LC (ListenerAt pC) [Some Connects]) (boot_of s strat ins [])
    (fun _ b => bs_out b = outs).
Proof using NE LC HipA Hblock Hne.
  intros E Hst. unfold mc_connect. apply returns_bind, returns_get.
  assert (bootstrap_status s = None) as E1.
  { unfold msock_new in E. by apply bind_ret_inv in E as (c & _ & [= <-]). }
  simpl bs_sk. rewrite E1. destruct (map_choose LC Hne) as (ip0 & i0 & Hi0).
  eapply returns_step; [apply (returns_bootstrap kC n s false LC ipA pC _ _ _ _ (fun b => bs_out b = outs) E Hblock HipA)|].
  - apply run_starved; [|done|].
    + right. split_and!; [done|done|]. by exists ip0, i0.
    + apply Hst. eexists _, []. split_and!; [done| |done]. by eapply prepared_sane.
  - intros r b (_ & Ho). by apply returns_ret.
Qed.

Lemma connector_speaks n s :
  msock_new n = Ret s ->
  returns (mc_connect kC (Some ipA) LC (ListenerAt pC) [Some Connects]) (boot_of s strat [] [])
    (fun _ b => bs_out b = [hello_C]) /\
  returns (mc_connect kC (Some ipA) LC (ListenerAt pC) [Some Connects]) (boot_of s strat [Some hello_A] [])
    (fun _ b => bs_out b = hello_C :: listeners_of LC).
Proof.
  intros E. destruct (map_choose LC Hne) as (ip0 & i0 & Hi0).
  split; apply (connector_starved n); try done; intros b Hb.
  - eapply exchange_unanswered. exact Hb.
  - eapply (exchange_hello_only kC false LC _ Hcomp Hnew Hsock pC _ (fun _ => eq_refl) pA (Z.of_nat (size LA)) strat);
      [done|exact Hi0|apply lookup_singleton_eq|exact Hb].
Qed.
End connector.

Section acceptor.
Context (Hnew : forall X, new_address kA X ∉ X) (Hsock : socket_fails kA = false).
Context (Hblock : fcntl_nonblock kA = false) (HipC : ipC <> htonl INADDR_LOOPBACK).
Context (HLC : ifaces_ok LC) (Hcomp : compatible LA LC) (Hstrat : 0 <= strat < 5).

Lemma acceptor_completes n s strat0 steps :
  msock_new n = Ret s -> Forall (fun o => exists t, listener_step kA LA LC t o) steps ->
  (exists j o, (j < length (ifaces_of LC) + 3)%nat /\ steps !! j = Some o /\ listener_step kA LA LC true o) ->
  returns (connection_bootstrap kA ipC true LA (ListenerAt pA) [None])
    (boot_of s strat0 (Some <$> (hello_C :: listeners_of LC)) steps)
    (fun r b => r = Some 0 /\ bs_out b = hello_A :: listeners_of LA /\
       bootstrap_status (bs_sk b) = Some 0 /\ bs_strategy b = strat /\ bs_signalled b = true /\
       LC ⊆ remote_ifaces (bs_sk b)).
Proof.
  intros E Hsteps (j & o & Hj & Ho & Hstep).
  eapply returns_mono; [apply (returns_bootstrap kA n s true LA ipC pA _ _ _ _
    (fun b => exists b1, (exists R1, stage true LA LC pA (fun _ => true) R1 strat []
        (hello_of LA pA strat :: listeners_of LA) b1 /\
      forall i, i ∈ ifaces_of LC -> R1 !! ip_addr i = Some i) /\
      b = set_signalled (with_boot_sk (upd_bootstrap_status (fun _ => Some 0) (bs_sk b1)) b1)) E Hblock HipC)|].
  - apply run_once; [by left|by intros b (? & (? & ? & -> & _) & _)|done|].
    eapply returns_mono; [apply (exchange_accepting kA true LA LC Hcomp Hnew Hsock pA _ (fun _ => eq_refl)
      (ifaces_of LC) pC (Z.of_nat (size LC)) strat strat0); [done|by apply ifaces_listed| | |]|done].
    + split; [done|]. by apply create_valid.
    + eexists _, steps. rewrite stream_sent. split_and!; [done|by eapply prepared_sane; [|apply map_empty_subseteq]|].
      eapply Forall_impl; [exact Hsteps|]. intros o' [t Ht]. by eapply listener_harmless.
    + right. exists j, o. split_and!; [done..|]. by eapply listener_harmless.
  - intros r b (-> & b1 & (R1 & (s1 & others & -> & Hs1 & _) & Hin) & ->). split_and!; [done..|]. simpl.
    apply map_subseteq_spec. intros ip i Hi. destruct (HLC _ _ Hi) as (<- & _).
    eapply lookup_weaken; [apply Hin, elem_of_ifaces; eauto|]. by apply (sane_known _ _ _ _ _ _ Hs1).
Qed.

Lemma acceptor_answers n s strat0 steps :
  msock_new n = Ret s -> Forall (fun o => exists t, listener_step kA LA LC t o) steps ->
  returns (connection_bootstrap kA ipC true LA (ListenerAt pA) [None]) (boot_of s strat0 [Some hello_C] steps)
    (fun _ b => bs_out b = [hello_A]).
Proof.
  intros E Hsteps.
  eapply returns_mono; [apply (returns_bootstrap kA n s true LA ipC pA _ _ _ _ (fun b => bs_out b = [hello_A]) E Hblock HipC)|].
  - apply run_starved; [by left|done|].
    eapply (exchange_answers kA true LA LC) with (p := pC) (num := Z.of_nat (size LC)) (strat := strat0); [done| |].
    + split; [done|]. by apply create_valid.
    + eexists _, steps. split_and!; [done|by eapply prepared_sane; [|apply map_empty_subseteq]|].
      eapply Forall_impl; [exact Hsteps|]. intros o' [t Ht]. by eapply listener_harmless.
  - by intros r b [_ ?].
Qed.
End acceptor.

(** C13: Bootstrapping completes.  Take two new multi-sockets that do not run over
    the loopback, one connecting and one accepting, with interfaces that can be told to the other end
    and whose networks are of known types; say that no system call fails, that every
    connection attempt of the connecting end succeeds and that the listener of the accepting
    end accepts at least one while its bootstrapper waits.  Then each end sends what the other
    waits for, without having to wait for it first: the connecting end its HELLO before it
    has received anything, the accepting end its own on that, the connecting end then all
    the rest, on which the accepting end sends the rest and finishes, on which the connecting end finishes.
    So neither waits for ever, [mc_connect] and the accepting end's bootstrap return 0 with
    the status 0, the connecting end has a connection from every local interface, and
    the accepting end has learnt the strategy and every interface of its peer. *)
Theorem bootstrap_completes nC nA sC sA strat0 steps :
  msock_new nC = Ret sC -> msock_new nA = Ret sA ->
  (forall X, new_address kC X ∉ X) -> (forall X, new_address kA X ∉ X) ->
  socket_fails kC = false -> socket_fails kA = false -> fcntl_nonblock kC = false -> fcntl_nonblock kA = false ->
  ipA <> htonl INADDR_LOOPBACK -> ipC <> htonl INADDR_LOOPBACK -> 0 <= strat < 5 ->
  ifaces_ok LC -> ifaces_ok LA -> LC <> ∅ ->
  compatible LC {[ipA := bootstrap_iface ipA]} -> compatible LA LC ->
  Forall (fun o => exists t, listener_step kA LA LC t o) steps ->
  (exists j o, (j < length (ifaces_of LC) + 3)%nat /\ steps !! j = Some o /\ listener_step kA LA LC true o) ->
  exists from_C from_A,
    returns (mc_connect kC (Some ipA) LC (ListenerAt pC) [Some Connects]) (boot_of sC strat [] [])
      (fun _ b => bs_out b = take 1 from_C) /\
    returns (connection_bootstrap kA ipC true LA (ListenerAt pA) [None]) (boot_of sA strat0 (Some <$> take 1 from_C) steps)
      (fun _ b => bs_out b = take 1 from_A) /\
    returns (mc_connect kC (Some ipA) LC (ListenerAt pC) [Some Connects]) (boot_of sC strat (Some <$> take 1 from_A) [])
      (fun _ b => bs_out b = from_C) /\
    returns (mc_connect kC (Some ipA) LC (ListenerAt pC) [Some Connects]) (boot_of sC strat (Some <$> from_A) [])
      (fun r b => r = Some (0, None) /\ bs_out b = from_C /\ bootstrap_status (bs_sk b) = Some 0 /\
         bs_signalled b = true /\ forall ip i, LC !! ip = Some i -> linked (bs_sk b) (ip, ipA)) /\
    returns (connection_bootstrap kA ipC true LA (ListenerAt pA) [None]) (boot_of sA strat0 (Some <$> from_C) steps)
      (fun r b => r = Some 0 /\ bs_out b = from_A /\ bootstrap_status (bs_sk b) = Some 0 /\
         bs_strategy b = strat /\ bs_signalled b = true /\ LC ⊆ remote_ifaces (bs_sk b)).
Proof.
  intros. exists (hello_C :: listeners_of LC), (hello_A :: listeners_of LA).
  split_and!; [by eapply connector_speaks|by eapply acceptor_answers|by eapply connector_speaks
    |by eapply connector_completes|by eapply acceptor_completes].
Qed.
(** ** A failed exchange *)

(** What the connecting end receives in place of a HELLO. *)
Definition bad_hello (ins : list (option CMMSocketControlHdr)) : Prop :=
  match ins with
  | Some hdr :: _ => ntohs (hdr_type hdr) <> CMM_CONTROL_MSG_HELLO
  | _ => True
  end.

Lemma recv_hello_fails b : bs_others b = [] -> bad_hello (bs_in b) -> exists b',
  recv_hello b = (Throw (IntError (-1)), b') /\ bs_sk b' = bs_sk b /\ bs_retry b' = bs_retry b.
Proof.
  destruct b as [s st li re si ins se o ot co]. simpl. intros -> Hb. unfold recv_hello.
  destruct ins as [|[hdr|] ins]; [by eexists| |by eexists]. eexists. split; [|split].
  - etransitivity; [by apply M_bind_ret|]. simpl in Hb. by rewrite (proj2 (Z.eqb_neq _ _) Hb).
  - done.
  - done.
Qed.

Lemma failed_run k L s ins others :
  L <> ∅ -> local_ifaces s = L -> bootstrap_status s = Some EINPROGRESS -> bad_hello ins -> others = [] ->
  returns (Run k [Some Connects]) (Boot s strat (Some pC) false false ins [] [] others (fun _ => true))
    (fun r b => r = Some true /\ bootstrap_status (bs_sk b) = Some EINPROGRESS).
Proof.
  intros Hne HL Hst Hb ->. set (b0 := Boot s _ _ _ _ _ _ _ _ _).
  destruct (map_choose L Hne) as (ip0 & i0 & Hi0).
  assert (i0 ∈ ifaces_of (local_ifaces s)) as Hin by (apply elem_of_ifaces; rewrite HL; eauto).
  set (b1 := Boot s strat (Some pC) false false ins [] [hello_hdr pC (Z.of_nat (size (local_ifaces s))) strat] []
    (fun _ => true) : boot IS I).
  destruct (recv_hello_fails b1 eq_refl Hb) as (b2 & E2 & Es & Er).
  assert (attempt k (Some Connects) b0 = (Ret true, b2)) as Ea.
  { unfold attempt. etransitivity; [by apply M_bind_ret|]. unfold catch_int.
    assert (open_bootstrap_sock Connects (set_retry false b0) = (Ret true, b0)) as Eo.
    { unfold open_bootstrap_sock. etransitivity; [by apply M_bind_ret|]. simpl.
      destruct (ifaces_of (local_ifaces s)); [by apply not_elem_of_nil in Hin|done]. }
    rewrite (M_bind_ret _ _ _ _ _ Eo). unfold mbind at 1, M_bind at 1.
    assert (exchange k (bool_decide (Some Connects = None)) b0 = (Throw (IntError (-1)), b2)) as ->.
    { change (exchange k false b0 = (Throw (IntError (-1)), b2)). unfold exchange.
      assert (send_hello b0 = (Ret tt, b1)) as Esend by done.
      etransitivity; [exact (M_bind_ret _ _ _ _ _ Esend)|]. unfold mbind, M_bind. by rewrite E2. }
    unfold attempt_failed. etransitivity; [by apply M_bind_ret|]. rewrite Er, Es. simpl. rewrite Hst. done. }
  exists (Some true), (set_signalled b2). split; [|split; [done|simpl; by rewrite Es]].
  assert (Run_loop k [Some Connects] b0 = (Ret (Some true), b2)) as El.
  { simpl. etransitivity; [exact (M_bind_ret _ _ _ _ _ Ea)|]. etransitivity; [by apply M_bind_ret|].
    simpl. by rewrite Er. }
  unfold Run. etransitivity; [exact (M_bind_ret _ _ _ _ _ El)|reflexivity].
Qed.

(** C35: A connecting multi-socket whose peer does not answer with a HELLO gets -1
    from [mc_connect], but its status stays EINPROGRESS: every later [mc_connect]
    says that a connection attempt is under way (EALREADY). *)
Theorem failed_bootstrap n s ins :
  msock_new n = Ret s -> fcntl_nonblock kC = false -> ipA <> htonl INADDR_LOOPBACK -> LC <> ∅ -> bad_hello ins ->
  exists b, mc_connect kC (Some ipA) LC (ListenerAt pC) [Some Connects] (boot_of s strat ins []) =
      (Ret (Some (-1, None)), b) /\
    bootstrap_status (bs_sk b) = Some EINPROGRESS /\
    forall k addr L start l, mc_connect k addr L start l b = (Ret (Some (CMM_FAILED, Some EALREADY)), b).
Proof.
  intros E Hnb Hip Hne Hb.
  assert (bootstrap_status s = None) as E1.
  { unfold msock_new in E. by apply bind_ret_inv in E as (c & _ & [= <-]). }
  destruct (returns_bootstrap kC n s false LC ipA pC strat [Some Connects] ins []
    (fun b => bootstrap_status (bs_sk b) = Some EINPROGRESS) E Hnb Hip) as (r & b & Er & -> & Hst).
  { by eapply failed_run. }
  exists b. split_and!; [|done|].
  - unfold mc_connect. etransitivity; [by apply M_bind_ret|]. change (bootstrap_status (bs_sk (boot_of s strat ins []))) with (bootstrap_status s). rewrite E1.
    etransitivity; [exact (M_bind_ret _ _ _ _ _ Er)|]. unfold code. by rewrite Hst.
  - intros k addr L start l. unfold mc_connect. etransitivity; [by apply M_bind_ret|]. by rewrite Hst.
Qed.
End both_ends.

(** ** A phone with two networks and a server *)

Import ListBits.
#[local] Existing Instance no_instruments.
#[local] Existing Instance no_estimates.

Definition demo_boot_kernel : kernel := Kernel (fun _ => 0) fresh false false.
Definition demo_wifi_iface : net_interface := NetInterface 7 800000 400000 20 NET_TYPE_WIFI.
Definition demo_3g_iface : net_interface := NetInterface 8 100000 50000 200 NET_TYPE_THREEG.
Definition demo_server_iface : net_interface := NetInterface 9 1250000 1250000 0 0.
Definition demo_phone : gmap Z net_interface := <[7 := demo_wifi_iface]> {[8 := demo_3g_iface]}.
Definition demo_server : gmap Z net_interface := {[9 := demo_server_iface]}.

(** Both connections of the phone are accepted while the server waits. *)
Definition demo_accept (i : net_interface) : (CMMSocketImpl (IntSet.t (list bool)) unit -> _) * bool :=
  (fun s => snd (accept_connection demo_boot_kernel (fun _ => mret tt) i (Some 9) (Some (new_interface_hdr i)) s), false).

Lemma demo_compatible L r : L = demo_phone -> net_type r = 0 -> ip_addr r = 9 -> compatible L {[9 := r]}.
Proof.
  intros -> Hr Ei. split_and!.
  - apply map_Forall_insert; [done|]. split.
    + apply map_Forall_singleton. exists NET_TYPE_WIFI. unfold network_type, fits_net_restriction, csocket_new.
      unfold network_fits_restriction. destruct r. simpl in *. by subst.
    + apply map_Forall_singleton. apply map_Forall_singleton. exists NET_TYPE_THREEG.
      unfold network_type, fits_net_restriction, csocket_new, network_fits_restriction. destruct r. simpl in *. by subst.
  - apply map_Forall_insert; [done|]. split; [done|]. by apply map_Forall_singleton.
  - by apply map_Forall_singleton.
Qed.

Lemma demo_server_compatible : compatible demo_server demo_phone.
Proof.
  split_and!; [|by apply map_Forall_singleton|apply map_Forall_insert; [done|]; split; [done|by apply map_Forall_singleton]].
  apply map_Forall_singleton, map_Forall_insert; [done|]. split; [by exists NET_TYPE_WIFI|].
  apply map_Forall_singleton. by exists NET_TYPE_THREEG.
Qed.

Lemma demo_ifaces_ok : ifaces_ok demo_phone /\ ifaces_ok demo_server.
Proof.
  split.
  - apply map_Forall_insert; [done|]. split; [|apply map_Forall_singleton]; split_and!; vm_compute; (done || split; done).
  - apply map_Forall_singleton. split_and!; vm_compute; (done || split; done).
Qed.

Lemma boot_step i : demo_phone !! ip_addr i = Some i ->
  listener_step demo_boot_kernel demo_server demo_phone true (demo_accept i).
Proof.
  intros Hi. unfold demo_accept.
  refine (Accepts demo_boot_kernel demo_server demo_phone _ i 9 demo_server_iface i _ Hi).
  vm_compute. reflexivity.
Qed.

Lemma demo_steps_ok : Forall (fun o => exists t, listener_step demo_boot_kernel demo_server demo_phone t o)
  [(id, false); demo_accept demo_wifi_iface; demo_accept demo_3g_iface].
Proof.
  apply Forall_cons. split; [exists false; apply Idle|]. apply Forall_cons. split; [exists true; by apply boot_step|].
  apply Forall_singleton. exists true. by apply boot_step.
Qed.

Lemma bootstrap_completes_witness : exists sC sA from_C from_A,
  fst (mc_connect demo_boot_kernel (Some 9) demo_phone (ListenerAt 42424) [Some Connects]
         (boot_of (IS:=IntSet.t (list bool)) (I:=unit) sC ALWAYS_REDUNDANT (Some <$> from_A) [])) = Ret (Some (0, None)) /\
  fst (connection_bootstrap demo_boot_kernel 7 true demo_server (ListenerAt 42425) [None]
         (boot_of sA INTNW_NEVER_REDUNDANT (Some <$> from_C) [(id, false); demo_accept demo_wifi_iface; demo_accept demo_3g_iface]))
    = Ret (Some 0).
Proof.
  destruct (msock_new (IS:=IntSet.t (list bool)) (I:=unit) 3) as [sC|?|?] eqn:EC; [|vm_compute in EC; discriminate EC..].
  destruct (msock_new (IS:=IntSet.t (list bool)) (I:=unit) 4) as [sA|?|?] eqn:EA; [|vm_compute in EA; discriminate EA..].
  destruct (bootstrap_completes demo_boot_kernel demo_boot_kernel demo_phone demo_server 42424 42425 ALWAYS_REDUNDANT 9 7
    3 4 sC sA INTNW_NEVER_REDUNDANT [(id, false); demo_accept demo_wifi_iface; demo_accept demo_3g_iface])
    as (from_C & from_A & _ & _ & _ & (r & bC & E1 & -> & _) & r' & bA & E2 & -> & _).
  - exact EC.
  - exact EA.
  - intros X. apply is_fresh.
  - intros X. apply is_fresh.
  - reflexivity.
  - reflexivity.
  - reflexivity.
  - reflexivity.
  - vm_compute. discriminate.
  - vm_compute. discriminate.
  - vm_compute. split; [discriminate|reflexivity].
  - apply demo_ifaces_ok.
  - apply demo_ifaces_ok.
  - apply insert_non_empty.
  - by apply demo_compatible.
  - apply demo_server_compatible.
  - exact demo_steps_ok.
  - exists 1%nat, (demo_accept demo_wifi_iface). split; [vm_compute; lia|]. split; [reflexivity|]. by apply boot_step.
  - exists sC, sA, from_C, from_A. rewrite E1, E2. split; reflexivity.
Defined.

(** The peer closes the connection at once. *)
Lemma failed_bootstrap_witness : exists s b,
  mc_connect demo_boot_kernel (Some 9) demo_phone (ListenerAt 42424) [Some Connects]
    (boot_of (IS:=IntSet.t (list bool)) (I:=unit) s INTNW_NEVER_REDUNDANT [None] []) = (Ret (Some (-1, None)), b) /\
  bootstrap_status (bs_sk b) = Some EINPROGRESS.
Proof.
  destruct (msock_new (IS:=IntSet.t (list bool)) (I:=unit) 3) as [s|?|?] eqn:E; [|vm_compute in E; discriminate E..].
  destruct (failed_bootstrap demo_boot_kernel demo_phone 42424 INTNW_NEVER_REDUNDANT 9 3 s [None]) as (b & E1 & E2 & _).
  - exact E.
  - reflexivity.
  - vm_compute. discriminate.
  - apply insert_non_empty.
  - exact Logic.I.
  - exists s, b. split; [exact E1|exact E2].
Defined.
